(* ===== verification/_CoqProject ===== *)
-Q . S2P
Prelude.v
F64.v
Text.v
Numbers.v
Ports.v
EventSchema.v
CircuitBreaker.v
Finality.v
FieldMapping.v
PatternCommon.v
RiskScorer.v
Persistence.v
CachePrune.v
DepegPolicy.v
DepegEngine.v
DepegIncident.v
DepegQuotes.v
DepegPattern.v
DepegPatternProofs.v
DepegExamples.v
Utilization.v
UtilizationPattern.v
UtilizationProofs.v
UtilizationPatternProofs.v
FlashLoan.v
TvlDrop.v
TvlDropPattern.v
TvlDropProofs.v
GenericRule.v
Registry.v
RegistryProofs.v
AlertStore.v
Notifier.v
AlertIO.v
AlertEvidence.v
Orchestrator.v
OrchestratorProofs.v
IncidentProofs.v
OrchestratorLoop.v
OrchestratorExamples.v
Hex.v
StreamParser.v
TickerParsers.v
ChainParsers.v
ProtocolParsers.v
StreamParserProofs.v
TickerProofs.v
SwapProofs.v
StreamExamples.v
FinalityService.v
FinalityServiceProofs.v
IngestStore.v
WorkerConfig.v
StreamWorker.v
WorkerIO.v
WorkerProofs.v
IngestProofs.v
WorkerLoop.v
StreamSupervisor.v
ShapingProofs.v
WorkerExamples.v
JsonLaws.v
SseConnector.v
RpcLogs.v
RpcState.v
Websocket.v
PollConnectors.v
ConnectorExamples.v
HistoryWorker.v
HistoryProofs.v
HistoryCatalog.v
EvmLogs.v
EvmAdapter.v
EvmAdapterProofs.v
QuoteConnector.v
IngestionExamples.v
DeadLetter.v
HealthCheck.v
Enrichment.v
DetectorStore.v
