(* ===== verification/Prelude.v ===== *)
(** * Raksha core: a verification library

    Raksha core is the data plane of a DeFi risk monitor.  The indexer turns
    chain, exchange and oracle streams into [UnifiedEvent]s; the detector runs
    every event through its detection patterns, which keep per-tenant state in
    memory and in PostgreSQL and emit [DetectionResult]s; a finality tracker
    confirms or retracts events as blocks get deep or are reorganised; scoring,
    orchestration and notification follow.  This library models
    the services (detector, orchestrator, finality, indexer, history worker) and
    the crates they are built from, and proves what they promise.  Paths below are relative to [src/].

    ** Files and the code they model

    - [Prelude]: outcomes of fallible code ([outcome]: return, error, panic), the
      state monad [ST] of [&mut self] code, machine integers with the wrap-around
      of the release profile, hash-map iteration order as the class [HashOrder],
      stable sorting and slices, tactics.
    - [F64]: IEEE binary64 as [spec_float] of the Standard Library, with the
      comparisons, [max]/[min]/[clamp]/[round] of Rust, and order, sign and
      rounding lemmas.  No real numbers: every float theorem is about the floats
      themselves.
    - [Text], [Numbers]: ASCII case, trimming, splitting, decimal printing and
      parsing of Rust's [str] and [format!].
    - [Ports]: interfaces to code outside the repository: [Chrono] (instants),
      [SerdeJson] (JSON documents), [PatternStore] (the pattern tables), each with
      a concrete instance on which the witnesses are evaluated.
    - [EventSchema]: the shared enums and structs (crates/event-schema/src/lib.rs).
    - [Persistence]: the rows of [pattern_state] and [pattern_snapshots] and the
      three statements on them (crates/state-manager/src/persistence.rs); it
      implements [PatternStore]; frame reasoning about the rows an operation may
      touch.
    - [CircuitBreaker]: crates/common/src/circuit_breaker.rs.
    - [Finality]: the tracker and the in-memory engine
      (crates/state-manager/src/finality.rs).
    - [FieldMapping]: default mapping tables, override resolution, JSON path,
      transforms (crates/event-schema/src/field_mapping.rs).
    - [PatternCommon]: configuration, simulation and snapshot helpers of the
      patterns (apps/detector/src/patterns/mod.rs).
    - [RiskScorer]: crates/risk-scorer/src/lib.rs.
    - [CachePrune]: the bounded caches of the depeg, utilization and TVL
      patterns, parametrised by what counts as activity and by the bounds.
    - [DepegPolicy], [DepegEngine], [DepegQuotes], [DepegPattern]: the stablecoin
      depeg pattern (apps/detector/src/patterns/depeg.rs): policies and their
      validation; the evaluation of the eligible quotes (weighted median,
      quorum, confidence, incident state); the quote cache; configuration,
      context assessment and [process_event].  [DepegEngine], [DepegIncident] and
      [DepegPatternProofs] hold the theorems, [DepegExamples] a run.
    - [Utilization], [UtilizationPattern]: the high-utilization pattern
      (apps/detector/src/patterns/utilization_high.rs): rules and the pure
      evaluation; events, detections and [process_event].  [UtilizationProofs]
      has the lifecycle machine, [UtilizationPatternProofs] the event loop
      and a run.
    - [FlashLoan]: the flash-loan pattern
      (apps/detector/src/patterns/flash_loan.rs).
    - [TvlDrop], [TvlDropPattern]: the TVL-drop pattern
      (apps/detector/src/patterns/tvl_drop.rs): rules, samples, windows and the
      incident decision; configuration, contagion context and [process_event].
      [TvlDropProofs] has the theorems and a run.
    - [GenericRule]: the rule-engine pattern
      (apps/detector/src/patterns/generic_rule.rs) over an abstract rule runtime.
    - [Registry]: the trait [DetectionPattern] as a record of operations, the
      registry (apps/detector/src/patterns/mod.rs) and the detector's loop
      (apps/detector/src/main.rs), over the interface [DetectionSink];
      [RegistryProofs] has the
      theorems and a run.
    - [DetectorStore]: the detections and events the detector stores
      (crates/state-manager/src/persistence.rs); with [Persistence] it implements
      the interfaces of the patterns and of the registry.
    - [AlertStore]: the alert, incident, usage, delivery, exposure and evidence
      tables and the statements on them (crates/state-manager/src/persistence.rs);
      [AlertIO]: the environment of the orchestrator (clock, UUIDs, statements that
      may fail, HTTP, Redis), its [World], and the repository's methods.
    - [Notifier]: the gateway client and the sinks (crates/notifier/src/lib.rs),
      over the interface [Gateway].
    - [AlertEvidence]: the evidence of an alert;
      [Orchestrator]: alerts, incidents, dispatch, finality updates, the loop
      (apps/orchestrator/src/main.rs).  [OrchestratorProofs] has the cases of a
      dispatch, the quota and duplicate suppression and the
      relations every interaction respects (class [IoFrame]), [IncidentProofs]
      the incidents, [OrchestratorLoop] the cache and the acknowledgements,
      [OrchestratorExamples] a run.
    - [Hex], [StreamParser], [TickerParsers], [ChainParsers], [ProtocolParsers]:
      the payload parsers of the indexer (apps/indexer/src/stream_parser/): words
      of log data and the interface [U256]; the shared helpers; the exchange
      tickers; oracle logs and swaps; protocol metrics, Pyth and the dispatch
      [parse_payload].  Theorems in [StreamParserProofs], [TickerProofs] and
      [SwapProofs], payloads and witnesses in [StreamExamples].
    - [FinalityService]: the loop around the trackers (apps/finality/src/main.rs):
      its streams and group cursors, the trackers it keeps and stores.
      [FinalityServiceProofs] has the theorems and a run.
    - [IngestStore]: the tables of the indexer and the statements on them
      (crates/state-manager/src/persistence.rs and raw_repository.rs, unique
      indexes from infra/sql/bootstrap/core_schema.sql).
    - [WorkerConfig], [StreamWorker], [WorkerIO], [WorkerLoop]: the stream worker
      (apps/indexer/src/stream_worker.rs): the runtime configuration and the
      endpoint it resolves to; the pure shaping of an event (overrides, repeated
      quotes, USDT quotes, market truth, deduplication keys, records); the
      processing of a payload with its statements, raw writes and publications;
      the connector loops and reconnects.  [WorkerProofs] has the cases of a
      processed payload, [IngestProofs] and [ShapingProofs] the theorems.
    - [StreamSupervisor]: the reconciliation of workers with
      the catalogue (apps/indexer/src/stream_supervisor.rs).  [WorkerExamples] has
      runs of a worker and of the supervisor.
    - [SseConnector], [RpcLogs], [RpcState], [Websocket], [PollConnectors]: the
      connectors a worker reads from (apps/indexer/src/stream_connector/), each
      with its theorems: server sent events, log polling, contract calls,
      websockets with their URL and subscription templates and the watchdog, HTTP
      polling and the signed Chainlink reports.  [JsonLaws] has the laws of built
      JSON objects, [ConnectorExamples] the runs.
    - [HistoryWorker]: the tables of the history database with
      their upserts and foreign keys, the cursors and the four syncs
      (apps/history-worker/src/main.rs).  [HistoryProofs] has the theorems
      and runs.  [HistoryCatalog]: the catalogue of simulation scenarios, from the
      discovery of the files to the archive, its theorems and runs.
    - [EvmLogs], [EvmAdapter], [QuoteConnector]: the ingestion crate
      (crates/ingestion/src/): configuration, protocol maps and the decoders of
      Chainlink answers and flash loans; the adapter over its nodes, the events it
      makes, the connector and the mock; the websocket quotes.
      [EvmAdapterProofs] has the theorems, [IngestionExamples] the runs.
    - [DeadLetter]: the dead letter queue
      (crates/state-manager/src/dead_letter_queue.rs).
    - [HealthCheck]: the health server (crates/common/src/health_check.rs) and the
      loop of the detector around [Registry], which waits for its commands.
    - [Enrichment]: reference prices and traces (crates/feature-builder/src/) and
      the correlation of detections (crates/state-manager/src/correlation.rs).

    ** How the parts interact

    A pattern is a record (configuration, caches, source bindings) and
    [process_event] a function of the pattern, the event, the clock and the
    database, returning the three of pattern, database and outcome, so that an
    error or a panic keeps the state reached.  The patterns are written against
    [PatternStore] and the codecs of their state, never against the tables; the
    laws of the interface are the documented behaviour of the statements, and
    [Persistence] discharges them.  Fresh UUIDs, hash-map order and the derived
    serde codecs are parameters.  The orchestrator is a computation in [ST World]
    over an environment that answers each interaction by its number, so one
    theorem covers every pattern of failing statements, calls and publications.  The
    finality service is a computation in the state of the service over an
    environment of the same kind; it reads back the notices it publishes.
    The supervisor starts a worker per stream; workers share the tables and the
    stream of unified events ([Shared]) and keep little of their own ([Local]);
    a worker parses a payload with [parse_payload], overrides what it found with
    [apply_mappings], stores it and publishes one [UnifiedEvent] per tenant, the
    input of the registry.  A connector is a state and a function of what the
    network answers, which is a list of reads or rounds; its payloads are what the
    worker parses.  The history worker reads the tables the other services write
    and is a computation in the state of its database, with statements that may
    fail; a turn of it is the four copies and then the catalogue.  The adapter of
    the ingestion crate is a computation in its own state over the answers of its
    nodes.  The health server shares one thing with a service, the channel of its
    commands; the loop of the detector handles the branch that comes, and hands the
    entries of a read to the registry.

    ** What is shown

    - Depeg: every evaluation is a step of an abstract incident machine
      ([step_forget] being the case in which no quote is eligible); two alerts of
      a run are a cooldown apart unless such an evaluation lies between them, and
      an alert needs quorum, floor, severity, confirmation and confidence; a quiet
      market is resolved; evaluation returns when weights are
      numbers and dates do not overflow; the weighted median exists and splits
      the weight although sums are rounded; late deliveries are inert, the
      high-water mark is monotone, rows of other tenants and markets are not
      written, the cache is sorted, deduplicated and bounded, the context is
      systemic exactly when two USD markets of the tenant are at their floor.
    - Utilization: evaluation and pause refine a lifecycle machine; over runs a
      resolution is earned by the configured number of recovery readings, a
      recovered market is resolved, an incident alerts at most three times, the
      sample window is exact; a reading advances every matching rule by one
      evaluation and returns a most severe announcement; a pause reaches at most
      one rule; only rows of matching rules are written.
    - Flash loan: alerts about an attacker under a rule are a cooldown apart over
      any run in time order; exactly the first passing rule fires.
    - TVL drop: every evaluation of a sample is a step of an incident machine; it
      is a breach exactly when the gates pass and a drop or its velocity reaches
      its threshold, and systemic exactly when it is a breach, contagion is enabled
      and another protocol of the tenant was breached within the window; over
      runs its samples trigger an incident once and announce it at most twice; parsed
      rules are validated; a rule advances its stored state by one evaluation.
    - Generic rule: the first matching candidate decides; with the configurations
      the repository builds, no rule is ever loaded.
    - Registry and detector: every pattern sees every event whatever errors occur,
      only a panic stops the loop, every entry is acknowledged once, and the
      state of a tenant only changes when one of its own entries is delivered,
      through all five patterns.  The detector stores an event exactly when its
      source is live, its market is required and its identifier is new (and, as the
      code is, never as simulated); a detection is saved once.
    - Orchestrator: a dispatch is refused, suppressed or sent with exactly one
      gateway call; the monthly quota bounds the calls; a sent alert is not sent
      again within the window while nothing else is stored under its key; a subject
      has at most one active incident over any
      run of live detections (a finality confirmation can reopen one); only a
      failed acknowledgement ends a turn of the loop, every entry is acknowledged
      once; the evidence shows every contributor.
    - Finality: a conflicting hash retracts exactly the events from its block on,
      confirmation is by depth, the lifecycle of an event is legal over any run,
      and the updates emitted, replayed on the consumer's engine, rebuild the
      tracker's states.
    - Finality service: the updates on the stream rebuild every tracker the
      service holds over any run that ends without an error; a stored tracker is
      the one restored; and two behaviours of the code as it is: the notice of a reorg,
      read back, removes the block that replaced the old one, whose event is never
      confirmed, and a notice that
      arrives before any event of its chain discards the stored state.
    - Circuit breaker: interleaved calls refine a three-state specification; the
      threshold is exact; [failure_window] is never read.
    - Stream parsers: log words encode and decode 256-bit integers; a swap log is
      published at the price of its amounts; chain prices are usable numbers; every
      payload is answered by an event or a listed error; a batch yields its first
      symbol and first price, independently; market keys have a normal form.
    - Stream worker: what is published was stored first, and once per tenant and
      key, over any payloads of any workers; a quote in USDT is published
      times the rate cached for at most three seconds, the newest one of thirty
      seconds or parity, or not at all; which quotes are suppressed depends on the last one
      let through; the market truth does not depend on the order of a map; the
      worker waits once after every lost attempt, 1, 2, 4, 8, 16, 30, 30, ..
      seconds.  And as the code is: a stream with several tenants
      stores a row for the first only, an identifier that is taken loses the
      event, the built-in mapping of a ticker replaces the market key.
    - Supervisor: a stream never has two workers; a reconciliation reaches the
      catalogue and does not touch a worker whose configuration is the same, a
      worker that has ended included.
    - Connectors: the events of a server-sent stream do not depend on how its bytes
      are cut into chunks; polling for logs asks for every block from two before
      the first head on, each once and in order while the heads do not go back; a word
      a contract answers with is published at the amount it encodes; silence of a
      websocket is noticed exactly when the watchdog allows no longer; a decoded
      report is published.
    - History worker: every row of a source is copied once and in order over any
      failures and restarts, writing a batch again changes nothing; a feature
      vector whose detection has no case stops the worker for good.  The catalogue
      is what the valid scenario files say, row, case and events, in their order;
      the discovery finds every file, and one default speed of 2^31 or more stops
      the worker.
    - Ingestion: a poll finds the watched logs of its blocks, each once, however
      they are cut into requests and whichever node answers; a failure moves on to
      the next node; of the events of a poll only the first is handed over, and
      the others never come again; an oracle answer is read back as it was
      encoded.
    - Dead letter queue: the count of an entry is the number of its failures, and
      nobody gives up early however workers interleave.
    - Health server: a reload is sent for an authorised request and no other.
    - Enrichment: the reference price is the mean of the sources that have one; two
      detections are one incident by chain, protocol and block.
    - Field mapping, risk scorer, pattern helpers: last mapping wins, scores are
      explained and bounded, source bindings are as stated.

    ** Bounds and fuel

    Recursion is structural except for trimming and digit loops, whose fuel is
    the length of the string, and for float normalisation, whose fuel is the
    width of the format; each strictly consumes its input.  The recursion over
    Kraken's nested prices is bounded by the nesting the JSON parser accepts, as
    is the recursion into a subscription template; a buffered stream event is
    read with the length of the buffer as fuel, since every line takes a byte; a
    range of blocks with one round per block, and a tree of directories with one
    round per directory.  Integers keep the
    width of the code ([wrap_u32], [wrap_u64], [wrap_i64] where an overflow is
    possible), instants are bounded and their arithmetic panics outside the
    range.  The cache bounds (2048 quote keys, 4096 rule states) and windows (120
    minutes, 24 hours, 61 minutes) are those of the code.

    ** What is not modelled

    Logging and metrics; the asynchronous runtime (a pattern handles one event
    at a time, as the registry calls it); the network and Redis; derived serde
    codecs beyond their round-trip laws; Unicode case mapping outside ASCII,
    [f64::powi], 256-bit integers and the RFC 3339 parser, which are interfaces.  A
    statement that fails is taken to have changed nothing, and two orchestrators
    working on one database at the same time are not interleaved.  What
    connectors and the runtime answer to a worker (payloads, the branch a
    [select!] takes, a stop) is a parameter; raw writes in the background are
    recorded as handed over, nothing here reads them.  Workers on the same tables
    are interleaved between payloads, not between the statements of one payload.
    Directories, YAML, hashes, HTTP clients and what nodes answer are interfaces.
    Left out as a whole: the start of the processes (environment, connections,
    retries), logging, TLS and signals (crates/common/src/), the configuration
    record that no service reads (crates/common/src/config.rs), the offsets and batch
    metrics of the raw repository that nobody writes, and what is no program:
    schemas, scenarios, rules, infrastructure.  Redis streams grow without the trimming of [MAXLEN]. *)
From Stdlib Require Import ZArith Lia Bool.
From stdpp Require Export base tactics list gmap strings sorting.
#[global] Open Scope Z_scope.

(** ** Outcomes of fallible Rust code

    [Ret] is a normal return, [Err] an [anyhow::Error] travelling with [?],
    [Panic] an unwinding panic (integer or date overflow, [unwrap] of a
    [None]).  A panic is not an [Err]: no caller of the code recovers it. *)
Inductive outcome (A : Type) : Type :=
  | Ret (a : A)
  | Err (msg : string)
  | Panic.
Arguments Ret {A} a.
Arguments Err {A} msg.
Arguments Panic {A}.

#[global] Instance outcome_ret : MRet outcome := fun A a => Ret a.
#[global] Instance outcome_bind : MBind outcome := fun A B f m =>
  match m with
  | Ret a => f a
  | Err e => Err e
  | Panic => Panic
  end.

(** [e.ok_or_else(|| err)?] *)
Definition of_option {A} (e : string) (o : option A) : outcome A :=
  match o with Some a => Ret a | None => Err e end.

(** an operation of the standard or date library that panics on [None] *)
Definition or_panic {A} (o : option A) : outcome A :=
  match o with Some a => Ret a | None => Panic end.

Definition is_ret {A} (m : outcome A) : Prop := exists a, m = Ret a.

Lemma bind_ret_inv {A B} (f : A -> outcome B) (m : outcome A) b :
  (m ≫= f) = Ret b -> exists a, m = Ret a /\ f a = Ret b.
Proof. destruct m; intros H; try discriminate H. by exists a. Qed.

Lemma or_panic_ret_inv {A} (o : option A) a : or_panic o = Ret a -> o = Some a.
Proof. by destruct o; intros [= ->]. Qed.

(** results of closed computations, named without normalising their types *)
Definition is_some {A} (o : option A) : bool := match o with Some _ => true | None => false end.
Definition is_return {A} (m : outcome A) : bool := match m with Ret _ => true | _ => false end.
Definition outcome_or {A} (d : A) (m : outcome A) : A := match m with Ret a => a | _ => d end.
Lemma some_or {A} (d : A) o : is_some o = true -> o = Some (default d o).
Proof. by destruct o. Qed.
Lemma ret_or {A} (d : A) m : is_return m = true -> m = Ret (outcome_or d m).
Proof. by destruct m. Qed.

(** ** Stateful code

    [&mut self] and the database are a state [S] threaded through the calls;
    an early return with an error or a panic keeps the state reached. *)
Definition ST (S A : Type) : Type := S -> S * outcome A.
#[global] Instance st_ret {S} : MRet (ST S) := fun A a s => (s, Ret a).
#[global] Instance st_bind {S} : MBind (ST S) := fun A B f m s =>
  match m s with
  | (s, Ret a) => f a s
  | (s, Err e) => (s, Err e)
  | (s, Panic) => (s, Panic)
  end.
Definition lift {S A} (m : outcome A) : ST S A := fun s => (s, m).
Definition get_st {S} : ST S S := fun s => (s, Ret s).
Definition put_st {S} (s : S) : ST S unit := fun _ => (s, Ret ()).
(** a [for] loop with an accumulator *)
Fixpoint for_each {S A B} (f : A -> B -> ST S A) (l : list B) (a : A) : ST S A :=
  match l with
  | [] => mret a
  | x :: xs => a ← f a x; for_each f xs a
  end.
(** a [for] loop that returns at the first result *)
Fixpoint first_some {S A B} (f : B -> ST S (option A)) (l : list B) : ST S (option A) :=
  match l with
  | [] => mret None
  | x :: xs => r ← f x; match r with Some a => mret (Some a) | None => first_some f xs end
  end.

Lemma st_bind_ret_inv {S A B} (f : A -> ST S B) (m : ST S A) s s' b :
  (m ≫= f) s = (s', Ret b) -> exists s1 a, m s = (s1, Ret a) /\ f a s1 = (s', Ret b).
Proof.
  unfold mbind, st_bind. destruct (m s) as [s1 [a|e|]] eqn:Hm; intros Hf; try done.
  by exists s1, a.
Qed.
Lemma st_bind_run {S A B} (f : A -> ST S B) (m : ST S A) s s1 a :
  m s = (s1, Ret a) -> (m ≫= f) s = f a s1.
Proof. unfold mbind, st_bind. by intros ->. Qed.
(** an invariant of the state that every step keeps, whatever its outcome *)
Lemma st_bind_inv {S A B} (P : S -> Prop) (m : ST S A) (f : A -> ST S B) s :
  P (m s).1 -> (forall a s', m s = (s', Ret a) -> P (f a s').1) -> P ((m ≫= f) s).1.
Proof.
  unfold mbind, st_bind. destruct (m s) as [s1 [a|e|]] eqn:Hm; simpl; intros H1 H2; [|done..].
  by apply H2.
Qed.
Lemma for_each_inv {S A B} (P : S -> Prop) (f : A -> B -> ST S A) l a s :
  P s -> (forall a x s, x ∈ l -> P s -> P (f a x s).1) -> P (for_each f l a s).1.
Proof.
  revert a s. induction l as [|x l IH]; intros a s Hs Hf; simpl; [done|].
  apply st_bind_inv; [apply Hf; [apply elem_of_cons; by left|done]|].
  intros a' s' Hm. apply IH; [|intros; apply Hf; [apply elem_of_cons; by right|done]].
  pose proof (Hf a x s ltac:(apply elem_of_cons; by left) Hs) as Hp. by rewrite Hm in Hp.
Qed.

(** where a loop that returned at a result stopped *)
Lemma first_some_Some {S A B} (f : B -> ST S (option A)) l s s' a :
  first_some f l s = (s', Ret (Some a)) ->
  exists before x after s1, l = before ++ x :: after /\
    first_some f before s = (s1, Ret None) /\ f x s1 = (s', Ret (Some a)).
Proof.
  revert s. induction l as [|x l IH]; intros s; simpl; [done|]. intros Hf.
  apply st_bind_ret_inv in Hf as (s1 & [b|] & Hx & Hf).
  - injection Hf as -> ->. by exists [], x, l, s.
  - destruct (IH _ Hf) as (before & y & after & s2 & -> & Hb & Hy).
    exists (x :: before), y, after, s2. split_and!; [done| |done].
    unfold first_some at 1. fold (@first_some S A B). unfold mbind, st_bind. by rewrite Hx.
Qed.

(** ** Tactics *)

(** split the conditional or match that blocks the goal or a hypothesis *)
Ltac case_one :=
  match goal with
  | |- context [if ?b then _ else _] => destruct b eqn:?
  | |- context [match ?x with _ => _ end] => destruct x eqn:?
  end.
Ltac case_hyp H :=
  match type of H with
  | context [if ?b then _ else _] => destruct b eqn:?
  | context [match ?x with _ => _ end] => destruct x eqn:?
  end.
(** peel the binds of a computation that returned *)
Ltac inv_ret H :=
  let a := fresh "a" in let Ha := fresh "Hm" in
  apply bind_ret_inv in H; destruct H as [a [Ha H]].
(** turn boolean connectives into propositions *)
Ltac bools :=
  repeat match goal with
  | H : _ && _ = true |- _ => apply andb_true_iff in H; destruct H
  | H : _ || _ = false |- _ => apply orb_false_iff in H; destruct H
  | H : negb _ = true |- _ => apply negb_true_iff in H
  | H : negb _ = false |- _ => apply negb_false_iff in H
  | H : bool_decide _ = true |- _ => apply bool_decide_eq_true in H
  | H : bool_decide _ = false |- _ => apply bool_decide_eq_false in H
  | H : Z.leb _ _ = true |- _ => apply Z.leb_le in H
  | H : Z.leb _ _ = false |- _ => apply Z.leb_gt in H
  | H : Z.ltb _ _ = true |- _ => apply Z.ltb_lt in H
  | H : Z.ltb _ _ = false |- _ => apply Z.ltb_ge in H
  | H : Z.eqb _ _ = true |- _ => apply Z.eqb_eq in H
  | H : Z.eqb _ _ = false |- _ => apply Z.eqb_neq in H
  end.

Create HintDb raksha.

(** ** Machine integers *)

Definition u64_max : Z := 2 ^ 64 - 1.
Definition i64_max : Z := 2 ^ 63 - 1.
Definition i64_min : Z := - 2 ^ 63.

(** release-profile wrap-around of [+] on [i64] and [u64], [u32] *)
Definition wrap_i64 (z : Z) : Z := (z + 2 ^ 63) mod 2 ^ 64 - 2 ^ 63.
Definition wrap_u64 (z : Z) : Z := z mod 2 ^ 64.
Definition wrap_i32 (z : Z) : Z := (z + 2 ^ 31) mod 2 ^ 32 - 2 ^ 31.
Definition wrap_u32 (z : Z) : Z := z mod 2 ^ 32.
(** [u64::saturating_sub] *)
Definition sat_sub (a b : Z) : Z := Z.max 0 (a - b).

Lemma wrap_i64_small z : i64_min <= z <= i64_max -> wrap_i64 z = z.
Proof. unfold wrap_i64, i64_min, i64_max. intros. rewrite Z.mod_small; lia. Qed.
Lemma wrap_u64_small z : 0 <= z <= u64_max -> wrap_u64 z = z.
Proof. unfold wrap_u64, u64_max. intros. rewrite Z.mod_small; lia. Qed.
Lemma wrap_u32_small z : 0 <= z < 2 ^ 32 -> wrap_u32 z = z.
Proof. unfold wrap_u32. intros. rewrite Z.mod_small; lia. Qed.

(** ** Hash-map iteration order

    [HashMap::iter] and [HashMap::values] visit the entries in an order the
    standard library leaves unspecified.  The order is a parameter; all that
    is known of it is that it lists the entries. *)
Class HashOrder := {
  hash_entries : forall {K} `{Countable K} {V}, gmap K V -> list (K * V);
  hash_entries_perm : forall {K} `{Countable K} {V} (m : gmap K V),
    hash_entries m ≡ₚ map_to_list m
}.

Definition hash_values `{HashOrder} {K} `{Countable K} {V} (m : gmap K V) : list V :=
  (hash_entries m).*2.

Lemma elem_of_hash_entries `{HashOrder} {K} `{Countable K} {V} (m : gmap K V) k v :
  (k, v) ∈ hash_entries m <-> m !! k = Some v.
Proof. by rewrite hash_entries_perm, elem_of_map_to_list. Qed.

Lemma elem_of_hash_values `{HashOrder} {K} `{Countable K} {V} (m : gmap K V) v :
  v ∈ hash_values m <-> exists k, m !! k = Some v.
Proof.
  unfold hash_values. rewrite list_elem_of_fmap. split.
  - intros ([k v'] & -> & Hin). exists k. by apply elem_of_hash_entries.
  - intros [k Hk]. exists (k, v). by rewrite elem_of_hash_entries.
Qed.

Lemma length_hash_entries `{HashOrder} {K} `{Countable K} {V} (m : gmap K V) :
  length (hash_entries m) = size m.
Proof. by rewrite hash_entries_perm, length_map_to_list. Qed.

(** the order in which stdpp enumerates a map is one such order *)
Definition canonical_order : HashOrder :=
  {| hash_entries := fun _ _ _ _ m => map_to_list m;
     hash_entries_perm := fun _ _ _ _ m => Permutation_refl _ |}.

(** ** Slices: [sort_by], [dedup_by], [windows(2)] *)
Section slices.
Context {A : Type}.

(** [slice::sort_by] is a stable sort; [leb a b] is [cmp(a, b) != Greater]. *)
Fixpoint insert_by (leb : A -> A -> bool) (x : A) (l : list A) : list A :=
  match l with
  | [] => [x]
  | y :: ys => if leb x y then x :: y :: ys else y :: insert_by leb x ys
  end.
Fixpoint sort_by (leb : A -> A -> bool) (l : list A) : list A :=
  match l with
  | [] => []
  | x :: xs => insert_by leb x (sort_by leb xs)
  end.

(** [Vec::dedup_by(|a, b| same(a, b))]: [a] is the later element, [b] the
    last element kept. *)
Fixpoint dedup_from (same : A -> A -> bool) (kept : A) (l : list A) : list A :=
  match l with
  | [] => [kept]
  | x :: xs => if same x kept then dedup_from same kept xs
               else kept :: dedup_from same x xs
  end.
Definition dedup_by (same : A -> A -> bool) (l : list A) : list A :=
  match l with [] => [] | x :: xs => dedup_from same x xs end.

(** [slice::windows(2)] *)
Fixpoint windows2 (l : list A) : list (A * A) :=
  match l with
  | x :: ((y :: _) as tl) => (x, y) :: windows2 tl
  | _ => []
  end.

Definition sorted_by (leb : A -> A -> bool) : list A -> Prop :=
  StronglySorted (fun a b => leb a b = true).

Implicit Types l : list A.

Lemma insert_by_perm leb x l : insert_by leb x l ≡ₚ x :: l.
Proof.
  induction l as [|y ys IH]; simpl; [done|].
  case_match; [done|]. rewrite IH. apply Permutation_swap.
Qed.
Lemma sort_by_perm leb l : sort_by leb l ≡ₚ l.
Proof. induction l as [|x xs IH]; simpl; [done|]. by rewrite insert_by_perm, IH. Qed.
Lemma length_sort_by leb l : length (sort_by leb l) = length l.
Proof. by rewrite sort_by_perm. Qed.
Lemma elem_of_sort_by leb l x : x ∈ sort_by leb l <-> x ∈ l.
Proof. by rewrite sort_by_perm. Qed.
Lemma sort_by_nil_iff leb l : sort_by leb l = [] <-> l = [].
Proof. by rewrite <- !length_zero_iff_nil, length_sort_by. Qed.

Section ordered.
Variable leb : A -> A -> bool.
Hypothesis leb_total : forall a b, leb a b = true \/ leb b a = true.
Hypothesis leb_trans : forall a b c, leb a b = true -> leb b c = true -> leb a c = true.

Lemma insert_by_sorted x l : sorted_by leb l -> sorted_by leb (insert_by leb x l).
Proof.
  induction 1 as [|y ys Hys IH Hy]; simpl; [by repeat constructor|].
  destruct (leb x y) eqn:Hxy.
  - constructor; [by constructor|]. constructor; [done|].
    eapply Forall_impl; [exact Hy|]. intros z Hz. by eapply leb_trans.
  - constructor; [done|]. rewrite insert_by_perm. constructor; [|done].
    destruct (leb_total x y); congruence.
Qed.
Lemma sort_by_sorted l : sorted_by leb (sort_by leb l).
Proof. induction l; simpl; [constructor|by apply insert_by_sorted]. Qed.
End ordered.

(** the same for an order that is total and transitive on the elements only *)
Lemma sort_by_sorted_on (P : A -> Prop) leb l :
  (forall a b, P a -> P b -> leb a b = true \/ leb b a = true) ->
  (forall a b c, P a -> P b -> P c -> leb a b = true -> leb b c = true -> leb a c = true) ->
  Forall P l -> sorted_by leb (sort_by leb l).
Proof.
  intros Htot Htrans. induction 1 as [|x l Hx Hl IH]; simpl; [constructor|].
  assert (Hs : Forall P (sort_by leb l)) by (by rewrite sort_by_perm).
  clear Hl. revert Hs. induction IH as [|y ys Hys IHys Hy]; intros Hs; simpl; [by repeat constructor|].
  inversion Hs as [|? ? Py Pys]; subst. destruct (leb x y) eqn:Hxy.
  - constructor; [by constructor|]. constructor; [done|].
    apply Forall_forall. intros z Hz.
    eapply Htrans; [done|exact Py| |exact Hxy|by eapply (proj1 (Forall_forall _ _) Hy)].
    by eapply (proj1 (Forall_forall _ _) Pys).
  - constructor; [by apply IHys|]. rewrite insert_by_perm. constructor; [|done].
    destruct (Htot x y Hx Py); congruence.
Qed.

Lemma sorted_by_app_inv leb l1 l2 :
  sorted_by leb (l1 ++ l2) -> sorted_by leb l1 /\ sorted_by leb l2 /\
  (forall a b, a ∈ l1 -> b ∈ l2 -> leb a b = true).
Proof.
  induction l1 as [|x l1 IH]; simpl; intros Hs.
  - repeat split; [constructor|done|]. intros a b Ha. by apply not_elem_of_nil in Ha.
  - inversion Hs as [|? ? Hs' Hx]; subst. destruct (IH Hs') as (H1 & H2 & H3).
    apply Forall_app in Hx as [Hx1 Hx2]. repeat split; [by constructor|done|].
    intros a b [->|Ha]%elem_of_cons Hb; [|by apply H3].
    by eapply (proj1 (Forall_forall _ _) Hx2).
Qed.

Lemma dedup_from_sublist same kept l : dedup_from same kept l `sublist_of` (kept :: l).
Proof.
  revert kept. induction l as [|x xs IH]; intros kept; simpl; [done|].
  case_match.
  - etrans; [apply IH|]. by apply sublist_skip, sublist_cons.
  - by apply sublist_skip, IH.
Qed.
Lemma dedup_by_sublist same l : dedup_by same l `sublist_of` l.
Proof. destruct l; simpl; [done|]. apply dedup_from_sublist. Qed.

Lemma sublist_sorted_by leb l1 l2 :
  l1 `sublist_of` l2 -> sorted_by leb l2 -> sorted_by leb l1.
Proof.
  induction 1 as [|x l1 l2 Hsub IH|x l1 l2 Hsub IH]; intros Hs; [done| |].
  - inversion Hs as [|? ? Hs' Hx]; subst. constructor; [by apply IH|].
    apply Forall_forall. intros y Hy.
    eapply (proj1 (Forall_forall _ _) Hx). by eapply elem_of_sublist.
  - inversion Hs; subst. by apply IH.
Qed.
Lemma drop_sorted_by leb n l : sorted_by leb l -> sorted_by leb (drop n l).
Proof. intros. eapply sublist_sorted_by; [apply sublist_drop|done]. Qed.
End slices.

(** [Iterator::find_map] and [Iterator::filter_map] *)
Fixpoint find_map {A B} (f : A -> option B) (l : list A) : option B :=
  match l with
  | [] => None
  | x :: xs => match f x with Some b => Some b | None => find_map f xs end
  end.

(** a filter that every element passes *)
Lemma filter_all {A} (P : A -> Prop) `{forall x, Decision (P x)} (l : list A) :
  (forall x, x ∈ l -> P x) -> filter P l = l.
Proof.
  induction l as [|x l IH]; intros Hl; [done|].
  rewrite filter_cons_True by (apply Hl, elem_of_cons; by left). f_equal. apply IH.
  intros y Hy. apply Hl, elem_of_cons. by right.
Qed.

(** the elements of a numbered list *)
Lemma elem_of_numbered {A} (l : list A) ir : ir ∈ imap pair l -> ir.2 ∈ l.
Proof.
  intros Hin. apply list_elem_of_lookup_1 in Hin as [i Hi]. rewrite list_lookup_imap in Hi.
  apply fmap_Some in Hi as (x & Hx & ->). by eapply list_elem_of_lookup_2.
Qed.
(** an invariant of the loop body is an invariant of the loop *)
Lemma foldl_inv {A B} (P : A -> Prop) (f : A -> B -> A) (l : list B) (a : A) :
  P a -> (forall x b, b ∈ l -> P x -> P (f x b)) -> P (foldl f a l).
Proof.
  revert a. induction l as [|b l IH]; intros a Ha Hf; simpl; [done|].
  apply IH; [apply Hf; [apply elem_of_cons; by left|done]|].
  intros x c Hc. apply Hf. apply elem_of_cons. by right.
Qed.
