(* ===== verification/F64.v ===== *)
(** * IEEE-754 binary64

    Rust's [f64] as the executable binary64 arithmetic of the standard
    library's [SpecFloat] (precision 53, maximal exponent 1024): every
    operation of the source is the correctly rounded one, bit for bit, with
    NaN, infinities, signed zeros and subnormals.  The file gives the
    operations under the source's names, the order of the non-NaN floats as a
    lexicographic order on integers ([f64_order] decides goals about it), sign
    and NaN facts of the operations, and the preservation of canonical
    mantissas by addition. *)
From Stdlib Require Import Floats.SpecFloat.
From S2P Require Import Prelude.

Abbreviation f64 := spec_float.

Definition f64_add (x y : f64) : f64 := SFadd 53 1024 x y.
Definition f64_sub (x y : f64) : f64 := SFsub 53 1024 x y.
Definition f64_mul (x y : f64) : f64 := SFmul 53 1024 x y.
Definition f64_div (x y : f64) : f64 := SFdiv 53 1024 x y.
Definition f64_abs (x : f64) : f64 := SFabs x.

(** [<], [<=], [==] and [partial_cmp]; every comparison with NaN is false *)
Definition f64_lt (x y : f64) : bool := SFltb x y.
Definition f64_le (x y : f64) : bool := SFleb x y.
Definition f64_eq (x y : f64) : bool := SFeqb x y.
Definition f64_cmp (x y : f64) : option comparison := SFcompare x y.

(** [n as f64]: rounding to nearest, ties to even *)
Definition f64_of_Z (z : Z) : f64 := binary_normalize 53 1024 z 0 false.
(** the literal [n / d]: one correctly rounded division of exact integers *)
Definition f64_lit (n d : Z) : f64 := f64_div (f64_of_Z n) (f64_of_Z d).

Definition f64_zero : f64 := S754_zero false.
Definition f64_inf : f64 := S754_infinity false.
(** [f64::EPSILON] is [2^-52] *)
Definition f64_epsilon : f64 := S754_finite false 4503599627370496 (-104).

Definition is_nan (x : f64) : bool := match x with S754_nan => true | _ => false end.
Definition is_finite (x : f64) : bool :=
  match x with S754_nan | S754_infinity _ => false | _ => true end.
Definition is_sign_negative (x : f64) : bool :=
  match x with
  | S754_zero s | S754_infinity s | S754_finite s _ _ => s
  | S754_nan => false
  end.

(** [f64::max] and [f64::min] return the other argument when one is NaN *)
Definition f64_max (x y : f64) : f64 :=
  if is_nan x then y else if is_nan y then x else if f64_lt x y then y else x.
Definition f64_min (x y : f64) : f64 :=
  if is_nan x then y else if is_nan y then x else if f64_lt y x then y else x.

(** [f64::clamp]: panics unless [min <= max] *)
Definition f64_clamp (x lo hi : f64) : outcome f64 :=
  if f64_le lo hi then
    let x := if f64_lt x lo then lo else x in
    Ret (if f64_lt hi x then hi else x)
  else Panic.

(** [f64::signum]: one for [+0.0], minus one for [-0.0] *)
Definition f64_signum (x : f64) : f64 :=
  if is_nan x then S754_nan
  else if is_sign_negative x then f64_of_Z (-1) else f64_of_Z 1.

(** [f64::round]: to the nearest integer, halves away from zero *)
Definition f64_round (x : f64) : f64 :=
  match x with
  | S754_finite s m e =>
      if 0 <=? e then x
      else
        let q := Z.shiftr (Zpos m + Z.shiftl 1 (- e - 1)) (- e) in
        match q with
        | Zpos p => binary_round 53 1024 s p 0
        | _ => S754_zero s
        end
  | _ => x
  end.

(** [Iterator::sum] over [f64] *)
Definition f64_sum (l : list f64) : f64 := foldl f64_add f64_zero l.

(** ** The order as a lexicographic order on integer triples *)

Definition f64_rank (x : f64) : Z :=
  match x with
  | S754_infinity true => -2
  | S754_finite true _ _ => -1
  | S754_zero _ | S754_nan => 0
  | S754_finite false _ _ => 1
  | S754_infinity false => 2
  end.
Definition f64_exp (x : f64) : Z :=
  match x with
  | S754_finite false _ e => e
  | S754_finite true _ e => - e
  | _ => 0
  end.
Definition f64_man (x : f64) : Z :=
  match x with
  | S754_finite false m _ => Zpos m
  | S754_finite true m _ => Zneg m
  | _ => 0
  end.

Lemma f64_cmp_key x y :
  is_nan x = false -> is_nan y = false ->
  f64_cmp x y = Some
    (match f64_rank x ?= f64_rank y with
     | Eq => match f64_exp x ?= f64_exp y with
             | Eq => f64_man x ?= f64_man y
             | c => c
             end
     | c => c
     end).
Proof.
  destruct x as [[]|[]| |[] m e], y as [[]|[]| |[] m' e'];
    try discriminate; intros _ _; try reflexivity; simpl.
  - rewrite Z.compare_opp, (Z.compare_antisym e e').
    destruct (Z.compare_spec e e'); reflexivity.
Qed.

Lemma f64_cmp_nan x y : f64_cmp x y = None <-> is_nan x = true \/ is_nan y = true.
Proof.
  split; [|intros [H|H]; [destruct x|destruct y]; try discriminate H; [done|by destruct x as [[]|[]| |[] ? ?]]].
  intros H. destruct (is_nan x) eqn:Hx; [by left|]. destruct (is_nan y) eqn:Hy; [by right|].
  by rewrite f64_cmp_key in H.
Qed.

Ltac f64_cmp_tac :=
  intros; match goal with
  | Hx : is_nan ?x = false, Hy : is_nan ?y = false |- _ =>
    generalize (f64_cmp_key x y Hx Hy)
  end; intros ->;
  repeat match goal with
  | |- context [?a ?= ?b] => destruct (Z.compare_spec a b)
  end; split; intros; try done; try lia.

Lemma f64_lt_key x y : is_nan x = false -> is_nan y = false ->
  f64_lt x y = true <->
  (f64_rank x < f64_rank y \/ f64_rank x = f64_rank y /\
    (f64_exp x < f64_exp y \/ f64_exp x = f64_exp y /\ f64_man x < f64_man y)).
Proof. unfold f64_lt, SFltb. change (SFcompare x y) with (f64_cmp x y). f64_cmp_tac. Qed.
Lemma f64_le_key x y : is_nan x = false -> is_nan y = false ->
  f64_le x y = true <->
  (f64_rank x < f64_rank y \/ f64_rank x = f64_rank y /\
    (f64_exp x < f64_exp y \/ f64_exp x = f64_exp y /\ f64_man x <= f64_man y)).
Proof. unfold f64_le, SFleb. change (SFcompare x y) with (f64_cmp x y). f64_cmp_tac. Qed.
Lemma f64_eq_key x y : is_nan x = false -> is_nan y = false ->
  f64_eq x y = true <->
  (f64_rank x = f64_rank y /\ f64_exp x = f64_exp y /\ f64_man x = f64_man y).
Proof. unfold f64_eq, SFeqb. change (SFcompare x y) with (f64_cmp x y). f64_cmp_tac. Qed.

Lemma f64_lt_nan x y : f64_lt x y = true -> is_nan x = false /\ is_nan y = false.
Proof. destruct x as [[]|[]| |[] ? ?], y as [[]|[]| |[] ? ?]; done. Qed.
Lemma f64_le_nan x y : f64_le x y = true -> is_nan x = false /\ is_nan y = false.
Proof. destruct x as [[]|[]| |[] ? ?], y as [[]|[]| |[] ? ?]; done. Qed.
Lemma f64_eq_nan x y : f64_eq x y = true -> is_nan x = false /\ is_nan y = false.
Proof. destruct x as [[]|[]| |[] ? ?], y as [[]|[]| |[] ? ?]; done. Qed.

(** decide a goal about [f64_lt], [f64_le], [f64_eq] of floats known not to
    be NaN *)
Ltac f64_facts :=
  repeat match goal with
  | H : f64_lt ?x ?y = true |- _ =>
      destruct (f64_lt_nan x y H); rewrite (f64_lt_key x y) in H by assumption
  | H : f64_le ?x ?y = true |- _ =>
      destruct (f64_le_nan x y H); rewrite (f64_le_key x y) in H by assumption
  | H : f64_eq ?x ?y = true |- _ =>
      destruct (f64_eq_nan x y H); rewrite (f64_eq_key x y) in H by assumption
  end;
  repeat match goal with
  | H : f64_lt ?x ?y = false |- _ =>
      rewrite <- not_true_iff_false, (f64_lt_key x y) in H by assumption
  | H : f64_le ?x ?y = false |- _ =>
      rewrite <- not_true_iff_false, (f64_le_key x y) in H by assumption
  | H : f64_eq ?x ?y = false |- _ =>
      rewrite <- not_true_iff_false, (f64_eq_key x y) in H by assumption
  end.
Ltac f64_order :=
  f64_facts;
  lazymatch goal with
  | |- f64_lt ?x ?y = true => rewrite (f64_lt_key x y) by assumption
  | |- f64_le ?x ?y = true => rewrite (f64_le_key x y) by assumption
  | |- f64_eq ?x ?y = true => rewrite (f64_eq_key x y) by assumption
  | |- f64_lt ?x ?y = false => rewrite <- not_true_iff_false, (f64_lt_key x y) by assumption
  | |- f64_le ?x ?y = false => rewrite <- not_true_iff_false, (f64_le_key x y) by assumption
  | |- _ => idtac
  end; lia.

Lemma f64_le_refl x : is_nan x = false -> f64_le x x = true.
Proof. intros. f64_order. Qed.
Lemma f64_le_trans x y z : f64_le x y = true -> f64_le y z = true -> f64_le x z = true.
Proof. intros. f64_order. Qed.
Lemma f64_lt_le_trans x y z : f64_lt x y = true -> f64_le y z = true -> f64_lt x z = true.
Proof. intros. f64_order. Qed.
Lemma f64_le_lt_trans x y z : f64_le x y = true -> f64_lt y z = true -> f64_lt x z = true.
Proof. intros. f64_order. Qed.
Lemma f64_lt_le x y : f64_lt x y = true -> f64_le x y = true.
Proof. intros. f64_order. Qed.
Lemma f64_le_total x y : is_nan x = false -> is_nan y = false ->
  f64_le x y = true \/ f64_le y x = true.
Proof. intros Hx Hy. destruct (f64_le x y) eqn:H; [by left|]. right. f64_order. Qed.
Lemma f64_nlt_le x y : is_nan x = false -> is_nan y = false ->
  f64_lt x y = false -> f64_le y x = true.
Proof. intros. f64_order. Qed.
Lemma f64_nle_lt x y : is_nan x = false -> is_nan y = false ->
  f64_le x y = false -> f64_lt y x = true.
Proof. intros. f64_order. Qed.

Lemma f64_min_le_r x y : is_nan y = false -> f64_le (f64_min x y) y = true.
Proof.
  intros Hy. unfold f64_min. destruct (is_nan x) eqn:Hx; [by apply f64_le_refl|].
  rewrite Hy. destruct (f64_lt y x) eqn:H; [by apply f64_le_refl|]. by apply f64_nlt_le.
Qed.
Lemma f64_min_ge lo x y :
  f64_le lo x = true -> f64_le lo y = true -> f64_le lo (f64_min x y) = true.
Proof. intros. unfold f64_min. by repeat case_match. Qed.
Lemma f64_max_ge_r x y : is_nan y = false -> f64_le y (f64_max x y) = true.
Proof.
  intros Hy. unfold f64_max. destruct (is_nan x) eqn:Hx; [by apply f64_le_refl|].
  rewrite Hy. destruct (f64_lt x y) eqn:H; [by apply f64_le_refl|]. by apply f64_nlt_le.
Qed.
Lemma f64_max_nan x y : is_nan y = false -> is_nan (f64_max x y) = false.
Proof. intros Hy. unfold f64_max. by repeat case_match. Qed.
Lemma f64_max_ge_l x y : is_nan x = false -> is_nan y = false -> f64_le x (f64_max x y) = true.
Proof.
  intros Hx Hy. unfold f64_max. rewrite Hx, Hy.
  destruct (f64_lt x y) eqn:H; [by apply f64_lt_le|by apply f64_le_refl].
Qed.

(** a clamped non-NaN value lies in the interval *)
Lemma f64_clamp_bounds x lo hi y :
  is_nan x = false -> f64_clamp x lo hi = Ret y ->
  f64_le lo y = true /\ f64_le y hi = true.
Proof.
  unfold f64_clamp. intros Hx. destruct (f64_le lo hi) eqn:Hlh; [|done].
  intros [= <-]. destruct (f64_le_nan _ _ Hlh) as [Hlo Hhi].
  destruct (f64_lt x lo) eqn:H1.
  - destruct (f64_lt hi lo) eqn:H2; [f64_order|]. split; [by apply f64_le_refl|done].
  - destruct (f64_lt hi x) eqn:H2; [split; [done|by apply f64_le_refl]|].
    split; f64_order.
Qed.

(** ** Signs and NaN of the operations *)

(** not NaN and not below zero *)
Definition f64_nonneg (x : f64) : Prop := f64_le f64_zero x = true.

Lemma f64_nonneg_nan x : f64_nonneg x -> is_nan x = false.
Proof. intros H. by destruct (f64_le_nan _ _ H). Qed.

Lemma shr_1_nonneg mrs : 0 <= shr_m mrs -> shr_m (shr_1 mrs) = Z.div2 (shr_m mrs).
Proof. destruct mrs as [[|[p|p|]|p] r s]; simpl; try done; lia. Qed.
Lemma iter_pos_nonneg p mrs : 0 <= shr_m mrs ->
  shr_m (SpecFloat.iter_pos shr_1 p mrs) = Z.shiftr (shr_m mrs) (Zpos p).
Proof.
  revert mrs. induction p as [p IH|p IH|]; intros mrs H; simpl SpecFloat.iter_pos.
  - assert (H1 : 0 <= shr_m (shr_1 mrs)) by (rewrite shr_1_nonneg by done; by apply Z.div2_nonneg).
    rewrite IH by (rewrite IH by done; by apply Z.shiftr_nonneg).
    rewrite IH, shr_1_nonneg, Z.div2_spec, !Z.shiftr_shiftr by (done || lia). f_equal. lia.
  - rewrite IH by (rewrite IH by done; by apply Z.shiftr_nonneg).
    rewrite IH, Z.shiftr_shiftr by (done || lia). f_equal. lia.
  - rewrite shr_1_nonneg by done. by rewrite Z.div2_spec.
Qed.
Lemma shr_record_of_loc_m m l : shr_m (shr_record_of_loc m l) = m.
Proof. by destruct l as [|[]]. Qed.
Lemma shr_spec mrs e n : 0 <= shr_m mrs ->
  shr_m (fst (shr mrs e n)) = Z.shiftr (shr_m mrs) (Z.max n 0) /\
  snd (shr mrs e n) = e + Z.max n 0.
Proof.
  intros H. destruct n as [|p|p]; simpl.
  - by rewrite Z.shiftr_0_r, Z.add_0_r.
  - by rewrite iter_pos_nonneg.
  - by rewrite Z.shiftr_0_r, Z.add_0_r.
Qed.
Lemma shr_fexp_spec m e l : 0 <= m ->
  let n := Z.max (fexp 53 1024 (Zdigits2 m + e) - e) 0 in
  shr_m (fst (shr_fexp 53 1024 m e l)) = Z.shiftr m n /\
  snd (shr_fexp 53 1024 m e l) = e + n.
Proof.
  intros H. unfold shr_fexp.
  assert (0 <= shr_m (shr_record_of_loc m l)) as H' by (by rewrite shr_record_of_loc_m).
  destruct (shr_spec _ e (fexp 53 1024 (Zdigits2 m + e) - e) H') as [H1 H2].
  rewrite shr_record_of_loc_m in H1. done.
Qed.
Lemma round_ne_range m l : m <= round_nearest_even m l <= m + 1.
Proof. destruct l as [|[]]; simpl; try case_match; lia. Qed.

(** the two shifts of a rounding, on integers *)
Lemma binary_round_aux_spec s m e l : 0 <= m ->
  exists m1,
    let n1 := Z.max (fexp 53 1024 (Zdigits2 m + e) - e) 0 in
    let e1 := e + n1 in
    let n2 := Z.max (fexp 53 1024 (Zdigits2 m1 + e1) - e1) 0 in
    Z.shiftr m n1 <= m1 <= Z.shiftr m n1 + 1 /\
    binary_round_aux 53 1024 s m e l =
      match Z.shiftr m1 n2 with
      | Z0 => S754_zero s
      | Zpos p => if e1 + n2 <=? 971 then S754_finite s p (e1 + n2) else S754_infinity s
      | Zneg _ => S754_nan
      end.
Proof.
  intros Hm. unfold binary_round_aux.
  destruct (shr_fexp_spec m e l Hm) as [H1 H2].
  destruct (shr_fexp 53 1024 m e l) as [mrs' e']. simpl in H1, H2.
  set (n1 := Z.max (fexp 53 1024 (Zdigits2 m + e) - e) 0) in *.
  pose proof (round_ne_range (shr_m mrs') (loc_of_shr_record mrs')) as Hr.
  set (m1 := round_nearest_even (shr_m mrs') (loc_of_shr_record mrs')) in *.
  assert (0 <= Z.shiftr m n1) by (by apply Z.shiftr_nonneg).
  assert (Hm1 : 0 <= m1) by lia.
  destruct (shr_fexp_spec m1 e' loc_Exact Hm1) as [H3 H4].
  destruct (shr_fexp 53 1024 m1 e' loc_Exact) as [mrs'' e'']. simpl in H3, H4.
  exists m1. simpl. rewrite H3, H4, H2. split; [lia|done].
Qed.

Lemma binary_round_aux_sign s m e l : 0 <= m ->
  is_nan (binary_round_aux 53 1024 s m e l) = false /\
  is_sign_negative (binary_round_aux 53 1024 s m e l) = s.
Proof.
  intros Hm. destruct (binary_round_aux_spec s m e l Hm) as (m1 & Hr & ->).
  assert (0 <= Z.shiftr m1 (Z.max (fexp 53 1024 (Zdigits2 m1 +
    (e + Z.max (fexp 53 1024 (Zdigits2 m + e) - e) 0)) -
    (e + Z.max (fexp 53 1024 (Zdigits2 m + e) - e) 0)) 0)).
  { apply Z.shiftr_nonneg.
    assert (0 <= Z.shiftr m (Z.max (fexp 53 1024 (Zdigits2 m + e) - e) 0)); [|lia].
    by apply Z.shiftr_nonneg. }
  destruct (Z.shiftr m1 _) as [|p|p]; [done| |lia]. by case_match.
Qed.

Lemma nonneg_of_sign x :
  is_nan x = false -> is_sign_negative x = false -> f64_nonneg x.
Proof. by destruct x as [[]|[]| |[] ? ?]. Qed.

Lemma shl_align_fst m e e' : e' <= e ->
  Zpos (fst (shl_align m e e')) = Zpos m * 2 ^ (e - e') /\ snd (shl_align m e e') = e'.
Proof.
  intros He. unfold shl_align. destruct (e' - e) as [|d|d] eqn:Hd.
  - replace (e - e') with 0 by lia. simpl. lia.
  - lia.
  - split; [|done]. simpl.
    replace (e - e') with (Zpos d) by lia.
    clear. unfold Z.pow, Z.pow_pos. rewrite Z.mul_comm.
    induction d using Pos.peano_ind; simpl; [lia|]. rewrite !Pos.iter_succ. lia.
Qed.

Lemma binary_round_sign s m e :
  is_nan (binary_round 53 1024 s m e) = false /\
  is_sign_negative (binary_round 53 1024 s m e) = s.
Proof.
  unfold binary_round. destruct (shl_align _ _ _) as [mz ez].
  by apply binary_round_aux_sign.
Qed.

Lemma f64_of_Z_nonneg z : 0 <= z -> f64_nonneg (f64_of_Z z).
Proof.
  destruct z as [|p|p]; intros H; [done| |lia].
  unfold f64_of_Z, binary_normalize. destruct (binary_round_sign false p 0).
  by apply nonneg_of_sign.
Qed.
Lemma f64_add_nonneg x y : f64_nonneg x -> f64_nonneg y -> f64_nonneg (f64_add x y).
Proof.
  destruct x as [sx|[]| |[] mx ex], y as [sy|[]| |[] my ey]; try done; intros _ _.
  - by destruct sx, sy.
  - unfold f64_add, SFadd.
    set (a := fst (shl_align mx ex _)). set (b := fst (shl_align my ey _)).
    change (cond_Zopp false (Zpos a) + cond_Zopp false (Zpos b)) with (Zpos (a + b)).
    unfold binary_normalize.
    destruct (binary_round_sign false (a + b) (Z.min ex ey)). by apply nonneg_of_sign.
Qed.
Lemma f64_mul_nonneg x y :
  f64_nonneg x -> f64_nonneg y -> is_finite x = true -> is_finite y = true ->
  f64_nonneg (f64_mul x y).
Proof.
  destruct x as [sx|[]| |[] mx ex], y as [sy|[]| |[] my ey]; try done; intros _ _ _ _.
  - unfold f64_mul, SFmul. simpl xorb.
    destruct (binary_round_aux_sign false (Zpos (mx * my)) (ex + ey) loc_Exact ltac:(done)).
    by apply nonneg_of_sign.
Qed.
Lemma f64_div_nonneg x y :
  f64_nonneg x -> f64_lt f64_zero y = true -> is_finite x = true ->
  f64_nonneg (f64_div x y).
Proof.
  destruct x as [sx|[]| |[] mx ex], y as [sy|[]| |[] my ey]; try done; intros _ _ _.
  - unfold f64_div, SFdiv. destruct (SFdiv_core_binary _ _ _ _ _ _) as [[mz ez] lz] eqn:Hc.
    assert (0 <= mz).
    { unfold SFdiv_core_binary in Hc. cbv zeta in Hc.
      match type of Hc with context [Z.div_eucl ?n ?d] =>
        assert (Hn : 0 <= n) by (match goal with |- 0 <= match ?s with _ => _ end => destruct s end;
                          try done; by apply Z.shiftl_nonneg);
        pose proof (Z.div_pos n d Hn ltac:(done)) as Hq; unfold Z.div in Hq;
        destruct (Z.div_eucl n d) as [q r]
      end. injection Hc as <- _ _. done. }
    simpl xorb. destruct (binary_round_aux_sign false mz ez lz ltac:(done)).
    by apply nonneg_of_sign.
Qed.
Lemma f64_nonneg_finite x y :
  f64_nonneg x -> f64_le x y = true -> is_finite y = true -> is_finite x = true.
Proof. unfold f64_nonneg. by destruct x as [|[]| |], y as [|[]| |[]]. Qed.
Lemma f64_sum_nonneg l : Forall f64_nonneg l -> f64_nonneg (f64_sum l).
Proof.
  intros H. unfold f64_sum. assert (Hz : f64_nonneg f64_zero) by done.
  revert Hz. generalize f64_zero. induction H as [|x l Hx Hl IH]; intros z Hz; [done|].
  simpl. apply IH. by apply f64_add_nonneg.
Qed.

(** ** Canonical mantissas

    A float is valid when its mantissa is canonical for its exponent; the
    operations preserve validity, so that every [f64] the program computes is
    a binary64 number. *)
Definition f64_valid (x : f64) : Prop := valid_binary 53 1024 x = true.

Lemma fexp_eq z : fexp 53 1024 z = Z.max (z - 53) (-1074).
Proof. reflexivity. Qed.

Lemma digits2_log2 p : Zpos (digits2_pos p) = Z.log2 (Zpos p) + 1.
Proof.
  induction p as [p IH|p IH|]; simpl digits2_pos; [..|reflexivity].
  - rewrite Pos2Z.inj_succ, IH, (Pos2Z.inj_xI p), Z.log2_succ_double by done. lia.
  - rewrite Pos2Z.inj_succ, IH, (Pos2Z.inj_xO p), Z.log2_double by done. lia.
Qed.
Lemma digits_spec m : 0 < m -> 2 ^ (Zdigits2 m - 1) <= m < 2 ^ Zdigits2 m /\ 0 < Zdigits2 m.
Proof.
  destruct m as [|p|p]; intros H; try lia. simpl Zdigits2. rewrite digits2_log2.
  replace (Z.log2 (Zpos p) + 1 - 1) with (Z.log2 (Zpos p)) by lia.
  pose proof (Z.log2_spec (Zpos p) H). pose proof (Z.log2_nonneg (Zpos p)).
  rewrite <- Z.add_1_r in *. lia.
Qed.
Lemma digits_le m k : 0 <= m < 2 ^ k -> 0 <= k -> Zdigits2 m <= k.
Proof.
  intros [H0 Hk] Hk0. destruct (Z.eq_dec m 0) as [->|]; [simpl; lia|].
  destruct (digits_spec m ltac:(lia)) as [[H1 _] H2].
  assert (2 ^ (Zdigits2 m - 1) < 2 ^ k) as Hlt by lia.
  apply Z.pow_lt_mono_r_iff in Hlt; lia.
Qed.
Lemma digits_ge m k : 2 ^ k <= m -> 0 <= k -> k < Zdigits2 m.
Proof.
  intros H Hk. assert (0 < 2 ^ k) by (by apply Z.pow_pos_nonneg).
  destruct (digits_spec m ltac:(lia)) as [[_ H1] H2].
  assert (2 ^ k < 2 ^ Zdigits2 m) as Hlt by lia.
  apply Z.pow_lt_mono_r_iff in Hlt; lia.
Qed.

(** the first shift leaves at most 53 digits, and 53 of them when the exponent
    is not the smallest one *)
Lemma first_shift_range m e :
  0 <= m -> e <= fexp 53 1024 (Zdigits2 m + e) ->
  let e1 := fexp 53 1024 (Zdigits2 m + e) in
  0 <= Z.shiftr m (e1 - e) < 2 ^ 53 /\
  (-1074 < e1 -> 2 ^ 52 <= Z.shiftr m (e1 - e)).
Proof.
  intros Hm He. simpl. rewrite fexp_eq in *. set (d := Zdigits2 m) in *.
  rewrite Z.shiftr_div_pow2 by lia.
  destruct (Z.eq_dec m 0) as [->|Hm0].
  { rewrite Z.div_0_l by (apply Z.pow_nonzero; lia). simpl in d. subst d. simpl. lia. }
  destruct (digits_spec m ltac:(lia)) as [[Hlo Hhi] Hd]. fold d in Hlo, Hhi, Hd.
  set (n := Z.max (d + e - 53) (-1074) - e) in *.
  assert (0 < 2 ^ n) by (apply Z.pow_pos_nonneg; lia). split; [split|].
  - by apply Z.div_pos.
  - apply Z.div_lt_upper_bound; [done|]. rewrite <- Z.pow_add_r by lia.
    eapply Z.lt_le_trans; [exact Hhi|]. apply Z.pow_le_mono_r; lia.
  - intros H1. apply Z.div_le_lower_bound; [done|]. rewrite <- Z.pow_add_r by lia.
    eapply Z.le_trans; [|exact Hlo]. apply Z.pow_le_mono_r; lia.
Qed.

Lemma binary_round_aux_valid s m e l :
  0 <= m -> e <= fexp 53 1024 (Zdigits2 m + e) ->
  f64_valid (binary_round_aux 53 1024 s m e l).
Proof.
  intros Hm He. destruct (binary_round_aux_spec s m e l Hm) as (m1 & Hr & ->).
  destruct (first_shift_range m e Hm He) as [Hq Hq'].
  set (e1 := fexp 53 1024 (Zdigits2 m + e)) in *.
  assert (-1074 <= e1) by (unfold e1; rewrite fexp_eq; lia).
  replace (Z.max (e1 - e) 0) with (e1 - e) in * by lia.
  set (q := Z.shiftr m (e1 - e)) in *. replace (e + (e1 - e)) with e1 by lia.
  rewrite (fexp_eq (Zdigits2 m1 + e1)).
  destruct (Z.eq_dec m1 (2 ^ 53)) as [->|Hm1].
  - change (Zdigits2 (2 ^ 53)) with 54.
    replace (Z.max (Z.max (54 + e1 - 53) (-1074) - e1) 0) with 1 by lia.
    change (Z.shiftr (2 ^ 53) 1) with (Zpos 4503599627370496).
    unfold f64_valid. case_match eqn:Hle; [|done]. simpl. unfold bounded, canonical_mantissa.
    rewrite fexp_eq. change (digits2_pos 4503599627370496) with 53%positive. bools. apply andb_true_intro; split; lia.
  - assert (Hd : Zdigits2 m1 <= 53) by (apply digits_le; lia).
    replace (Z.max (Z.max (Zdigits2 m1 + e1 - 53) (-1074) - e1) 0) with 0 by lia.
    rewrite Z.shiftr_0_r, Z.add_0_r. destruct m1 as [|p|p]; [done| |lia].
    unfold f64_valid. case_match eqn:Hle; [|done]. simpl. unfold bounded, canonical_mantissa.
    rewrite fexp_eq. change (Zpos (digits2_pos p)) with (Zdigits2 (Zpos p)). bools.
    apply andb_true_intro; split; [|lia]. apply Z.eqb_eq.
    destruct (Z.eq_dec e1 (-1074)) as [->|He1]; [lia|].
    assert (52 < Zdigits2 (Zpos p)) by (apply digits_ge; lia). lia.
Qed.
Lemma shl_align_digits m e d e' :
  d = Zpos (digits2_pos m) + e -> e' = fexp 53 1024 d ->
  let '(mz, ez) := shl_align m e e' in
  Zdigits2 (Zpos mz) + ez = d /\ ez <= e'.
Proof.
  intros -> ->. set (e' := fexp 53 1024 _).
  destruct (Z.le_gt_cases e' e) as [Hle|Hlt].
  - destruct (shl_align_fst m e e' Hle) as [H1 H2]. destruct (shl_align m e e') as [mz ez].
    simpl fst in H1. simpl snd in H2. subst ez. split; [|lia].
    simpl. rewrite !digits2_log2, H1, Z.log2_mul_pow2 by lia. lia.
  - unfold shl_align. destruct (e' - e) as [|p|p] eqn:Hd; try lia. split; [done|lia].
Qed.
Lemma binary_round_valid s m e : f64_valid (binary_round 53 1024 s m e).
Proof.
  unfold binary_round. pose proof (shl_align_digits m e _ _ eq_refl eq_refl) as H.
  destruct (shl_align _ _ _) as [mz ez]. destruct H as [H1 H2].
  apply binary_round_aux_valid; [done|]. by rewrite H1.
Qed.
Lemma f64_add_valid x y : f64_valid x -> f64_valid y -> f64_valid (f64_add x y).
Proof.
  destruct x as [[]|[]| |sx mx ex], y as [[]|[]| |sy my ey]; intros Hx Hy; try done.
  unfold f64_add, SFadd, binary_normalize.
  destruct (_ + _); [done|apply binary_round_valid..].
Qed.
Lemma f64_of_Z_valid z : f64_valid (f64_of_Z z).
Proof. destruct z; [done|apply binary_round_valid..]. Qed.
Lemma f64_sum_valid l : Forall f64_valid l -> f64_valid (f64_sum l).
Proof.
  intros H. unfold f64_sum. assert (Hz : f64_valid f64_zero) by done.
  revert Hz. generalize f64_zero. induction H as [|x l Hx Hl IH]; intros z Hz; [done|].
  simpl. apply IH. by apply f64_add_valid.
Qed.

(** ** Halving does not increase a positive float *)

Definition f64_two : f64 := S754_finite false 4503599627370496 (-51).
Lemma f64_of_Z_2 : f64_of_Z 2 = f64_two.
Proof. reflexivity. Qed.

(** the quotient core of a division by [2.0] *)
Lemma div_core_two m e : fexp 53 1024 (Zpos (digits2_pos m) + e) = e ->
  exists l, SFdiv_core_binary 53 1024 (Zpos m) e 4503599627370496 (-51) =
    (Zpos m * 2 ^ (e - Z.max (e - 2) (-1074) + 51) / 2 ^ 52, Z.max (e - 2) (-1074), l).
Proof.
  intros Hc. unfold SFdiv_core_binary.
  change (Zdigits2 4503599627370496) with 53. simpl (Zdigits2 (Zpos m)).
  set (d := Zpos (digits2_pos m)) in *. rewrite fexp_eq in *.
  assert (He : d + e - 53 = e \/ e = -1074 /\ d <= 53) by lia.
  assert (0 < d) by done. cbv zeta.
  replace (Z.min (Z.max (d + e - (53 + -51) - 53) (-1074)) (e - -51))
    with (Z.max (e - 2) (-1074)) by lia.
  replace (e - -51 - Z.max (e - 2) (-1074)) with (e - Z.max (e - 2) (-1074) + 51) by lia.
  set (s := e - Z.max (e - 2) (-1074) + 51).
  assert (Hs : 0 < s) by lia. rewrite <- Z.shiftl_mul_pow2 by lia.
  destruct s as [|p|p]; [done| |done].
  unfold Z.div. change (Zpos 4503599627370496) with (2 ^ 52).
  destruct (Z.div_eucl _ _) as [q r]. by eexists.
Qed.

Lemma mul_pow_div m k : 0 <= k -> m * 2 ^ (k + 52) / 2 ^ 52 = m * 2 ^ k.
Proof.
  intros Hk. rewrite Z.pow_add_r, Z.mul_assoc by lia. apply Z.div_mul. lia.
Qed.

(** the rounding of the quotient stays at most at [m * 2^e] *)
Lemma round_half_le m e l :
  bounded 53 1024 m e = true ->
  let e' := Z.max (e - 2) (-1074) in
  f64_le (binary_round_aux 53 1024 false (Zpos m * 2 ^ (e - e' + 51) / 2 ^ 52) e' l)
         (S754_finite false m e) = true.
Proof.
  intros Hb e'. unfold bounded, canonical_mantissa in Hb. bools. rewrite fexp_eq in *.
  set (d := Zpos (digits2_pos m)) in *.
  destruct (digits_spec (Zpos m) ltac:(done)) as [[Hlo Hhi] _].
  change (Zdigits2 (Zpos m)) with d in *.
  assert (Hm53 : Zpos m < 2 ^ 53).
  { eapply Z.lt_le_trans; [exact Hhi|]. apply Z.pow_le_mono_r; lia. }
  assert (Hm52 : -1074 < e -> 2 ^ 52 <= Zpos m).
  { intros. eapply Z.le_trans; [|exact Hlo]. apply Z.pow_le_mono_r; lia. }
  set (q := Zpos m * 2 ^ (e - e' + 51) / 2 ^ 52).
  assert (Hq : e = -1074 /\ q = Zpos m / 2 \/ e = -1073 /\ q = Zpos m \/
               -1072 <= e /\ q = Zpos m * 2).
  { unfold q, e'. destruct (Z.eq_dec e (-1074)) as [->|]; [left|right].
    - split; [done|]. change (2 ^ (-1074 - Z.max (-1074 - 2) (-1074) + 51)) with (2 ^ 51).
      change (2 ^ 52) with (2 * 2 ^ 51). by rewrite Z.div_mul_cancel_r.
    - destruct (Z.eq_dec e (-1073)) as [->|]; [left|right]; (split; [lia|]).
      + change (-1073 - Z.max (-1073 - 2) (-1074) + 51) with (0 + 52).
        rewrite mul_pow_div by done. lia.
      + replace (e - Z.max (e - 2) (-1074) + 51) with (1 + 52) by lia.
        rewrite mul_pow_div by done. lia. }
  assert (Hq0 : 0 <= q) by (apply Z.div_pos; lia).
  destruct (binary_round_aux_spec false q e' l Hq0) as (m1 & Hr & ->).
  assert (Hd1 : fexp 53 1024 (Zdigits2 q + e') = Z.max (e - 1) (-1074) /\
                Z.shiftr q (Z.max (e - 1) (-1074) - e') = Z.min q (Zpos m) /\
                0 <= Z.max (e - 1) (-1074) - e').
  { rewrite fexp_eq. unfold e'. destruct Hq as [[-> Hq]|[[-> Hq]|[He Hq]]].
    - assert (Zdigits2 q <= 53) by (apply digits_le; [|lia]; rewrite Hq;
        split; [apply Z.div_pos; lia|]; apply Z.div_lt_upper_bound; lia).
      split; [lia|]. split; [|lia]. simpl. rewrite Z.shiftr_0_r, Hq.
      symmetry. apply Z.min_l. apply Z.div_le_upper_bound; lia.
    - rewrite Hq. change (Zdigits2 (Zpos m)) with d. split; [lia|]. split; [|lia].
      simpl. rewrite Z.min_id. apply Z.shiftr_0_r.
    - assert (53 < Zdigits2 q) by (apply digits_ge; lia).
      assert (Zdigits2 q <= 54) by (apply digits_le; lia).
      split; [lia|]. split; [|lia].
      replace (Z.max (e - 1) (-1074) - Z.max (e - 2) (-1074)) with 1 by lia.
      rewrite Z.shiftr_div_pow2, Hq by lia. change (2 ^ 1) with 2.
      rewrite Z.div_mul by lia. lia. }
  destruct Hd1 as (He1 & Hs1 & Hn). rewrite He1 in Hr |- *.
  replace (Z.max (Z.max (e - 1) (-1074) - e') 0) with (Z.max (e - 1) (-1074) - e') in Hr |- * by lia.
  rewrite Hs1 in Hr. replace (e' + (Z.max (e - 1) (-1074) - e')) with (Z.max (e - 1) (-1074)) by lia.
  set (e1 := Z.max (e - 1) (-1074)) in *. rewrite fexp_eq.
  assert (Hfin : forall p k, Zpos p <= 2 ^ 53 -> (k < e \/ k = e /\ Zpos p <= Zpos m) ->
    f64_le (if k <=? 971 then S754_finite false p k else S754_infinity false)
           (S754_finite false m e) = true).
  { intros p k _ Hk. assert (k <=? 971 = true) as -> by lia.
    apply f64_le_key; [done..|]. simpl. lia. }
  destruct (Z.le_gt_cases (2 ^ 53) m1) as [Hbig|Hsmall].
  - assert (m1 = 2 ^ 53) as -> by lia. change (Zdigits2 (2 ^ 53)) with 54.
    replace (Z.max (Z.max (54 + e1 - 53) (-1074) - e1) 0) with 1 by lia.
    change (Z.shiftr (2 ^ 53) 1) with (Zpos 4503599627370496).
    assert (e <> -1074).
    { intros ->. destruct Hq as [[_ Hq]|[[? _]|[? _]]]; [|lia..].
      assert (Zpos m / 2 < 2 ^ 52) by (apply Z.div_lt_upper_bound; lia). lia. }
    apply Hfin; [done|]. right. unfold e1. split; lia.
  - assert (Hm1 : 0 <= m1) by lia. assert (Hd : Zdigits2 m1 <= 53) by (apply digits_le; lia).
    replace (Z.max (Z.max (Zdigits2 m1 + e1 - 53) (-1074) - e1) 0) with 0 by lia.
    rewrite Z.shiftr_0_r, Z.add_0_r. destruct m1 as [|p|p]; [done| |lia].
    apply Hfin; [lia|]. destruct (Z.eq_dec e (-1074)) as [->|]; [|left; unfold e1; lia].
    destruct Hq as [[_ Hq]|[[? _]|[? _]]]; [|lia..]. right. split; [done|]. assert (Zpos m / 2 < Zpos m) by (apply Z.div_lt; lia). lia.
Qed.

Lemma f64_half_le x :
  f64_valid x -> f64_lt f64_zero x = true -> f64_le (f64_div x f64_two) x = true.
Proof.
  destruct x as [[]|[]| |[] m e]; try done. intros Hv _.
  unfold f64_valid in Hv. simpl in Hv. pose proof Hv as Hb.
  unfold bounded, canonical_mantissa in Hb. bools.
  destruct (div_core_two m e ltac:(done)) as [l Hl].
  unfold f64_div, f64_two, SFdiv. rewrite Hl. simpl xorb. by apply round_half_le.
Qed.

(** ** A sum with a positive term is positive: additions do not underflow *)

Lemma round_pos_core m e l :
  0 < m -> e <= fexp 53 1024 (Zdigits2 m + e) ->
  e = fexp 53 1024 (Zdigits2 m + e) \/ -1074 < fexp 53 1024 (Zdigits2 m + e) ->
  f64_lt f64_zero (binary_round_aux 53 1024 false m e l) = true.
Proof.
  intros Hm He Hor. destruct (binary_round_aux_spec false m e l ltac:(lia)) as (m1 & Hr & ->).
  destruct (first_shift_range m e ltac:(lia) He) as [Hq Hq'].
  set (e1 := fexp 53 1024 (Zdigits2 m + e)) in *.
  assert (-1074 <= e1) by (unfold e1; rewrite fexp_eq; lia).
  replace (Z.max (e1 - e) 0) with (e1 - e) in * by lia.
  assert (0 < Z.shiftr m (e1 - e)) as Hpos.
  { destruct Hor as [Heq|Hlt]; [|lia]. rewrite <- Heq, Z.sub_diag, Z.shiftr_0_r. done. }
  replace (e + (e1 - e)) with e1 by lia. rewrite (fexp_eq (Zdigits2 m1 + e1)).
  destruct (Z.eq_dec m1 (2 ^ 53)) as [->|Hm1].
  - change (Zdigits2 (2 ^ 53)) with 54.
    replace (Z.max (Z.max (54 + e1 - 53) (-1074) - e1) 0) with 1 by lia.
    change (Z.shiftr (2 ^ 53) 1) with (Zpos 4503599627370496).
    by destruct (e1 + 1 <=? 971).
  - assert (Hd : Zdigits2 m1 <= 53) by (apply digits_le; lia).
    replace (Z.max (Z.max (Zdigits2 m1 + e1 - 53) (-1074) - e1) 0) with 0 by lia.
    rewrite Z.shiftr_0_r. destruct m1 as [|p|p]; [lia| |lia].
    by destruct (e1 + 0 <=? 971).
Qed.
Lemma binary_round_pos m e :
  -1074 <= e -> f64_lt f64_zero (binary_round 53 1024 false m e) = true.
Proof.
  intros He. unfold binary_round.
  pose proof (shl_align_digits m e _ _ eq_refl eq_refl) as H.
  set (e' := fexp 53 1024 (Zpos (digits2_pos m) + e)) in *.
  destruct (shl_align m e e') as [mz ez] eqn:Hs. destruct H as [H1 H2].
  apply round_pos_core; [done|by rewrite H1|]. rewrite H1. fold e'.
  destruct (Z.le_gt_cases e' e) as [Hle|Hlt].
  - left. destruct (shl_align_fst m e e' Hle) as [_ H3]. by rewrite Hs in H3.
  - right. lia.
Qed.
Lemma f64_valid_exp s m e : f64_valid (S754_finite s m e) -> -1074 <= e.
Proof.
  unfold f64_valid. simpl. unfold bounded, canonical_mantissa. rewrite fexp_eq. intros. bools. lia.
Qed.
Lemma f64_add_pos_r x y :
  f64_valid x -> f64_valid y -> f64_nonneg x -> f64_lt f64_zero y = true ->
  f64_lt f64_zero (f64_add x y) = true.
Proof.
  destruct x as [sx|[]| |[] mx ex], y as [sy|[]| |[] my ey]; try done; intros Hx Hy _ _.
  unfold f64_add, SFadd.
  set (a := fst (shl_align mx ex _)). set (b := fst (shl_align my ey _)).
  change (cond_Zopp false (Zpos a) + cond_Zopp false (Zpos b)) with (Zpos (a + b)).
  unfold binary_normalize. apply binary_round_pos.
  apply f64_valid_exp in Hx, Hy. lia.
Qed.
Lemma f64_lt_nonneg x : f64_lt f64_zero x = true -> f64_nonneg x.
Proof. apply f64_lt_le. Qed.
Lemma f64_sum_pos l :
  l <> [] -> Forall f64_valid l -> Forall (fun x => f64_lt f64_zero x = true) l ->
  f64_lt f64_zero (f64_sum l) = true.
Proof.
  destruct l as [|x l _] using rev_ind; [done|]. intros _ Hv Hp.
  apply Forall_app in Hv as [Hv Hx]. apply Forall_app in Hp as [Hp Hxp].
  rewrite list.Forall_singleton in Hx. rewrite list.Forall_singleton in Hxp.
  unfold f64_sum. rewrite foldl_snoc. simpl in Hx, Hxp.
  apply f64_add_pos_r; [by apply f64_sum_valid|exact Hx| |exact Hxp].
  apply f64_sum_nonneg. eapply Forall_impl; [exact Hp|]. intros. by apply f64_lt_nonneg.
Qed.
