(* ===== verification/Text.v ===== *)
(** * Strings

    The [str] and formatting functions of the Rust standard library that the
    components call, on strings as their UTF-8 bytes. *)
From Stdlib Require Import Ascii.
From stdpp Require Import pretty.
From S2P Require Import Prelude F64.

(** ASCII case: [u8::to_ascii_lowercase], [u8::to_ascii_uppercase] *)
Definition ascii_lower (c : ascii) : ascii :=
  let n := Ascii.nat_of_ascii c in
  if (65 <=? n)%nat && (n <=? 90)%nat then Ascii.ascii_of_nat (n + 32) else c.
Definition ascii_upper (c : ascii) : ascii :=
  let n := Ascii.nat_of_ascii c in
  if (97 <=? n)%nat && (n <=? 122)%nat then Ascii.ascii_of_nat (n - 32) else c.

Fixpoint map_string (f : ascii -> ascii) (s : string) : string :=
  match s with
  | EmptyString => EmptyString
  | String c s => String (f c) (map_string f s)
  end.
Definition to_ascii_lowercase : string -> string := map_string ascii_lower.
Definition to_ascii_uppercase : string -> string := map_string ascii_upper.
Definition eq_ignore_ascii_case (a b : string) : bool :=
  bool_decide (to_ascii_lowercase a = to_ascii_lowercase b).

(** [starts_with], [strip_prefix], [ends_with], [strip_suffix], [contains] *)
Fixpoint strip_prefix (p s : string) : option string :=
  match p, s with
  | EmptyString, _ => Some s
  | String a p, String b s => if bool_decide (a = b) then strip_prefix p s else None
  | String _ _, EmptyString => None
  end.
Definition starts_with (s p : string) : bool := bool_decide (is_Some (strip_prefix p s)).
Definition strip_suffix (p s : string) : option string :=
  match strip_prefix (String.rev p) (String.rev s) with
  | Some r => Some (String.rev r)
  | None => None
  end.
Definition ends_with (s p : string) : bool := bool_decide (is_Some (strip_suffix p s)).
Fixpoint contains (s p : string) : bool :=
  starts_with s p || match s with EmptyString => false | String _ s => contains s p end.

(** [str::trim] removes the characters of the Unicode class White_Space, given
    by their UTF-8 encodings. *)
Definition white_space : list (list nat) :=
  [ [9]; [10]; [11]; [12]; [13]; [32]; [194; 133]; [194; 160]; [225; 154; 128];
    [226; 128; 128]; [226; 128; 129]; [226; 128; 130]; [226; 128; 131];
    [226; 128; 132]; [226; 128; 133]; [226; 128; 134]; [226; 128; 135];
    [226; 128; 136]; [226; 128; 137]; [226; 128; 138]; [226; 128; 168];
    [226; 128; 169]; [226; 128; 175]; [226; 129; 159]; [227; 128; 128] ]%nat.
Definition bytes (l : list nat) : string :=
  foldr (fun n s => String (Ascii.ascii_of_nat n) s) EmptyString l.
Definition white_space_strings : list string := Eval vm_compute in bytes <$> white_space.
Fixpoint trim_by (ws : list string) (fuel : nat) (s : string) : string :=
  match fuel with
  | O => s
  | S fuel =>
      match find_map (fun w => strip_prefix w s) ws with
      | Some s' => trim_by ws fuel s'
      | None => s
      end
  end.
Definition trim_start (s : string) : string := trim_by white_space_strings (String.length s) s.
Definition trim_end (s : string) : string :=
  String.rev (trim_by (String.rev <$> white_space_strings) (String.length s) (String.rev s)).
Definition trim (s : string) : string := trim_end (trim_start s).
Definition is_empty (s : string) : bool := match s with EmptyString => true | _ => false end.

(** [.map(str::trim).filter(|v| !v.is_empty())] *)
Definition trimmed_nonempty (o : option string) : option string :=
  match o with
  | Some s => if is_empty (trim s) then None else Some (trim s)
  | None => None
  end.

(** [s.split(c)] *)
Fixpoint split_on (c : ascii) (s : string) : list string :=
  match s with
  | EmptyString => [EmptyString]
  | String a s =>
      if bool_decide (a = c) then EmptyString :: split_on c s
      else match split_on c s with
           | x :: xs => String a x :: xs
           | [] => [String a EmptyString]
           end
  end.
(** [s.split_once(c)] *)
Fixpoint split_once (c : ascii) (s : string) : option (string * string) :=
  match s with
  | EmptyString => None
  | String a s =>
      if bool_decide (a = c) then Some (EmptyString, s)
      else match split_once c s with
           | Some (x, y) => Some (String a x, y)
           | None => None
           end
  end.

(** ** Formatting *)

(** [{}] of an integer *)
Definition fmt_Z (z : Z) : string := pretty z.

Fixpoint zeros (n : nat) : string :=
  match n with O => "" | S n => "0" +:+ zeros n end.

(** round [n / d] to the nearest integer, ties to even *)
Definition div_half_even (n d : Z) : Z :=
  let q := n / d in let r := n mod d in
  match 2 * r ?= d with
  | Lt => q
  | Gt => q + 1
  | Eq => if Z.even q then q else q + 1
  end.

(** [{:.k}] of an [f64]: the exact binary value rounded to [k] decimals *)
Definition fmt_fixed (k : nat) (x : f64) : string :=
  let body (m e : Z) :=
    let p := 10 ^ Z.of_nat k in
    let scaled := if 0 <=? e then m * 2 ^ e * p else div_half_even (m * p) (2 ^ (- e)) in
    match k with
    | O => fmt_Z scaled
    | _ =>
        let frac := fmt_Z (scaled mod p) in
        fmt_Z (scaled / p) +:+ "." +:+ zeros (k - String.length frac) +:+ frac
    end in
  let sign (s : bool) := if s then "-" else "" in
  match x with
  | SpecFloat.S754_nan => "NaN"
  | SpecFloat.S754_infinity s => sign s +:+ "inf"
  | SpecFloat.S754_zero s => sign s +:+ body 0 0
  | SpecFloat.S754_finite s m e => sign s +:+ body (Zpos m) e
  end.

(** [{:+.k}]: a sign is always written, except for NaN *)
Definition fmt_fixed_signed (k : nat) (x : f64) : string :=
  if is_nan x || is_sign_negative x then fmt_fixed k x else "+" +:+ fmt_fixed k x.

(** ** Lemmas *)

Lemma map_string_app f a b : map_string f (a +:+ b) = map_string f a +:+ map_string f b.
Proof. induction a as [|c a IH]; simpl; [done|]. by rewrite IH. Qed.
Lemma ascii_lower_idemp c : ascii_lower (ascii_lower c) = ascii_lower c.
Proof. destruct c as [[] [] [] [] [] [] [] []]; reflexivity. Qed.
Lemma to_ascii_lowercase_idemp s :
  to_ascii_lowercase (to_ascii_lowercase s) = to_ascii_lowercase s.
Proof.
  unfold to_ascii_lowercase. induction s as [|c s IH]; simpl; [done|].
  by rewrite IH, ascii_lower_idemp.
Qed.
Lemma eq_ignore_ascii_case_refl s : eq_ignore_ascii_case s s = true.
Proof. unfold eq_ignore_ascii_case. by apply bool_decide_eq_true. Qed.
Lemma strip_prefix_app p s : strip_prefix p (p +:+ s) = Some s.
Proof.
  induction p as [|c p IH]; simpl; [by destruct s|].
  by destruct (bool_decide_reflect (c = c)).
Qed.
Lemma strip_prefix_Some p s r : strip_prefix p s = Some r <-> s = p +:+ r.
Proof.
  split; [|intros ->; apply strip_prefix_app].
  revert s. induction p as [|c p IH]; intros s; simpl; [intros [= ->]; reflexivity|].
  destruct s as [|d s]; [done|].
  destruct (bool_decide_reflect (c = d)) as [->|]; [|done].
  intros H. simpl. by rewrite (IH s H).
Qed.
Lemma trimmed_nonempty_not_empty o s : trimmed_nonempty o = Some s -> s <> "".
Proof.
  destruct o as [x|]; simpl; [|done]. destruct (is_empty (trim x)) eqn:H; [done|].
  intros [= <-] Hx. by rewrite Hx in H.
Qed.

Example trim_ex : trim "  a b " = "a b".
Proof. reflexivity. Qed.
Example fmt_ex1 : fmt_fixed 6 (f64_lit 3 2) = "1.500000".
Proof. reflexivity. Qed.
Example fmt_ex2 : fmt_fixed 2 (f64_lit 12345 1000) = "12.35" /\ fmt_fixed 0 (f64_lit 5 2) = "2".
Proof. split; reflexivity. Qed.
