(* ===== verification/Numbers.v ===== *)
(** * Parsing numbers ([str::parse])

    [FromStr] of the integer types and of [f64], as the standard library
    documents them: an integer is an optional sign and decimal digits that fit
    the type; a float is [inf], [infinity], [nan] (any case) or a decimal
    number with an optional exponent, rounded to the nearest [f64]. *)
From Stdlib Require Import Floats.SpecFloat Ascii.
From S2P Require Import Prelude F64 Text.

Definition digit_of (c : ascii) : option Z :=
  let n := Z.of_nat (nat_of_ascii c) in
  if (48 <=? n) && (n <=? 57) then Some (n - 48) else None.

(** the longest prefix of digits: value accumulated, count, rest *)
Fixpoint take_digits (acc count : Z) (s : string) : Z * Z * string :=
  match s with
  | EmptyString => (acc, count, s)
  | String c s' =>
      match digit_of c with
      | Some d => take_digits (acc * 10 + d) (count + 1) s'
      | None => (acc, count, s)
      end
  end.

Definition all_digits (s : string) : option Z :=
  let '(v, n, rest) := take_digits 0 0 s in
  if (0 <? n) && is_empty rest then Some v else None.
Definition in_range (lo hi : Z) (o : option Z) : option Z :=
  v ← o; if (lo <=? v) && (v <=? hi) then Some v else None.

(** [parse::<u64>], [parse::<usize>] and [parse::<u128>]: [+] is accepted *)
Definition parse_unsigned (hi : Z) (s : string) : option Z :=
  in_range 0 hi (match s with
                 | String "+" s => all_digits s
                 | _ => all_digits s
                 end).
Definition u128_max : Z := 2 ^ 128 - 1.
Definition parse_u64 : string -> option Z := parse_unsigned u64_max.
Definition parse_usize : string -> option Z := parse_unsigned u64_max.
Definition parse_u128 : string -> option Z := parse_unsigned u128_max.
Definition parse_i64 (s : string) : option Z :=
  in_range i64_min i64_max
    (match s with
     | String "+" s => all_digits s
     | String "-" s => Z.opp <$> all_digits s
     | _ => all_digits s
     end).

(** [m * 10 ^ e] rounded to the nearest [f64] *)
Definition decimal_to_f64 (neg : bool) (m e : Z) : f64 :=
  match m with
  | Zpos p =>
      if 0 <=? e then
        match m * 10 ^ e with Zpos p => binary_round 53 1024 neg p 0 | _ => S754_zero neg end
      else
        let '(q, e', l) := SFdiv_core_binary 53 1024 (Zpos p) 0 (10 ^ (- e)) 0 in
        binary_round_aux 53 1024 neg q e' l
  | _ => S754_zero neg
  end.

Definition parse_exponent (s : string) : option Z :=
  match s with
  | EmptyString => Some 0
  | String c s =>
      if bool_decide (ascii_lower c = "e"%char) then
        match s with
        | String "+" s => all_digits s
        | String "-" s => Z.opp <$> all_digits s
        | _ => all_digits s
        end
      else None
  end.
Definition parse_decimal (neg : bool) (s : string) : option f64 :=
  let '(v, n, rest) := take_digits 0 0 s in
  let '(v, n', rest) := match rest with
                        | String "." rest => take_digits v 0 rest
                        | _ => (v, 0, rest)
                        end in
  if 0 <? n + n' then e ← parse_exponent rest; Some (decimal_to_f64 neg v (e - n')) else None.
Definition parse_f64 (s : string) : option f64 :=
  let '(neg, s) := match s with
                   | String "+" s => (false, s)
                   | String "-" s => (true, s)
                   | _ => (false, s)
                   end in
  let l := to_ascii_lowercase s in
  if bool_decide (l = "inf") || bool_decide (l = "infinity") then Some (S754_infinity neg)
  else if bool_decide (l = "nan") then Some S754_nan
  else parse_decimal neg s.

(** ** Lemmas *)
Lemma in_range_bounds lo hi o v : in_range lo hi o = Some v -> lo <= v <= hi.
Proof.
  unfold in_range. destruct o as [z|]; simpl; [|done]. case_match; intros [= <-]. bools. lia.
Qed.
Lemma parse_u64_range s v : parse_u64 s = Some v -> 0 <= v <= u64_max.
Proof. apply in_range_bounds. Qed.
Lemma parse_i64_range s v : parse_i64 s = Some v -> i64_min <= v <= i64_max.
Proof. apply in_range_bounds. Qed.

Example parse_f64_ex1 : parse_f64 "0.9998" = Some (f64_lit 9998 10000).
Proof. reflexivity. Qed.
Example parse_f64_ex2 : parse_f64 "-1.5e3" = Some (f64_of_Z (-1500)) /\ parse_f64 "." = None
  /\ parse_f64 "1e" = None /\ parse_f64 ".5" = Some (f64_lit 1 2).
Proof. by vm_compute. Qed.
Example parse_f64_ex3 : parse_f64 "1e23" = Some (f64_of_Z (10 ^ 23)).
Proof. reflexivity. Qed.
Example parse_int_ex : parse_u64 "+12" = Some 12 /\ parse_u64 "-1" = None /\ parse_u64 "" = None
  /\ parse_i64 "-9223372036854775808" = Some i64_min /\ parse_i64 "9223372036854775808" = None.
Proof. by vm_compute. Qed.
