(* ===== verification/Ports.v ===== *)
(** * Interfaces to third-party crates and to the database

    [chrono], [serde_json] and [serde]'s derived codecs are not part of the
    repository: the components are written against the classes of this file,
    which carry only the documented behaviour they rely on.  Each class has a
    concrete instance on which witnesses are evaluated.  The pattern-state
    table of [PostgresRepository] is an interface too; its instance is the
    meaning of the SQL statements of [persistence.rs]. *)
From S2P Require Import Prelude F64 Text Numbers.

(** ** chrono: UTC instants

    An instant is determined by its nanoseconds since the epoch; durations are
    nanosecond counts.  The constructors and the [+] and [-] of the crate
    panic outside their range, which is [None] here. *)
Class Chrono := {
  DateTime : Type;
  ns : DateTime -> Z;
  ns_inj : forall a b, ns a = ns b -> a = b;
  MIN_UTC : DateTime;
  MIN_UTC_le : forall t, ns MIN_UTC <= ns t;
  duration_seconds : Z -> option Z;
  duration_seconds_spec : forall n d, duration_seconds n = Some d -> d = n * 1000000000;
  duration_minutes : Z -> option Z;
  duration_minutes_spec : forall n d, duration_minutes n = Some d -> d = n * 60000000000;
  checked_add : DateTime -> Z -> option DateTime;
  checked_add_spec : forall t d t', checked_add t d = Some t' -> ns t' = ns t + d;
  to_rfc3339 : DateTime -> string;
  parse_from_rfc3339 : string -> option DateTime;
  timestamp_millis_opt : Z -> option DateTime;
  timestamp_millis_spec : forall n t, timestamp_millis_opt n = Some t -> ns t = n * 1000000;
  timestamp_opt : Z -> option DateTime;
  timestamp_spec : forall n t, timestamp_opt n = Some t -> ns t = n * 1000000000
}.

Section chrono.
Context `{Chrono}.

#[global] Instance DateTime_eq_dec : EqDecision DateTime.
Proof.
  intros a b. destruct (decide (ns a = ns b)) as [Heq|Hne].
  - left. by apply ns_inj.
  - right. intros ->. by apply Hne.
Defined.

(** [Ord] of [DateTime<Utc>] *)
Definition dt_le (a b : DateTime) : bool := ns a <=? ns b.
Definition dt_lt (a b : DateTime) : bool := ns a <? ns b.
Definition dt_max (a b : DateTime) : DateTime := if dt_lt b a then a else b.
(** [Duration::seconds(n)], [Duration::minutes(n)], [Duration::hours(n)],
    added to or subtracted from an instant *)
Definition add_seconds (t : DateTime) (n : Z) : outcome DateTime :=
  d ← or_panic (duration_seconds n); or_panic (checked_add t d).
Definition sub_minutes (t : DateTime) (n : Z) : outcome DateTime :=
  d ← or_panic (duration_minutes n); or_panic (checked_add t (- d)).
(** [TimeDelta::num_milliseconds] and [num_seconds] truncate toward zero *)
Definition millis_between (a b : DateTime) : Z := Z.quot (ns a - ns b) 1000000.
Definition secs_between (a b : DateTime) : Z := Z.quot (ns a - ns b) 1000000000.

Lemma add_seconds_spec t n t' : add_seconds t n = Ret t' -> ns t' = ns t + n * 1000000000.
Proof.
  unfold add_seconds. intros Ht. apply bind_ret_inv in Ht as (d & Hd & Ht).
  apply or_panic_ret_inv in Hd, Ht. apply duration_seconds_spec in Hd as ->.
  by apply checked_add_spec.
Qed.
Lemma sub_minutes_spec t n t' : sub_minutes t n = Ret t' -> ns t' = ns t - n * 60000000000.
Proof.
  unfold sub_minutes. intros Ht. apply bind_ret_inv in Ht as (d & Hd & Ht).
  apply or_panic_ret_inv in Hd, Ht. apply duration_minutes_spec in Hd as ->.
  apply checked_add_spec in Ht. lia.
Qed.
Lemma dt_max_ns a b : ns (dt_max a b) = Z.max (ns a) (ns b).
Proof. unfold dt_max, dt_lt. case_match; bools; lia. Qed.
End chrono.

(** ** serde_json: JSON documents *)
Class SerdeJson := {
  Value : Type;
  VNull : Value;
  VBool : bool -> Value;
  VInt : Z -> Value;
  VFloat : f64 -> Value;
  VString : string -> Value;
  VArray : list Value -> Value;
  VObject : gmap string Value -> Value;
  as_bool : Value -> option bool;
  as_i64 : Value -> option Z;
  as_u64 : Value -> option Z;
  as_f64 : Value -> option f64;
  as_str : Value -> option string;
  as_array : Value -> option (list Value);
  as_object : Value -> option (gmap string Value);
  is_null : Value -> bool;
  value_to_string : Value -> string;
  as_object_VObject : forall m, as_object (VObject m) = Some m;
  as_object_Some : forall v m, as_object v = Some m -> v = VObject m;
  is_null_spec : forall v, is_null v = true <-> v = VNull;
  as_str_VString : forall s, as_str (VString s) = Some s;
  as_bool_VBool : forall b, as_bool (VBool b) = Some b;
  as_f64_finite : forall v x, as_f64 v = Some x -> is_finite x = true;
  as_i64_range : forall v z, as_i64 v = Some z -> i64_min <= z <= i64_max;
  as_u64_range : forall v z, as_u64 v = Some z -> 0 <= z <= u64_max
}.

Section json.
Context `{SerdeJson}.
(** [Value::get] with a string index *)
Definition vget (k : string) (v : Value) : option Value := m ← as_object v; m !! k.
(** [Value::get] with a [usize] index *)
Definition vidx (i : Z) (v : Value) : option Value := l ← as_array v; l !! Z.to_nat i.
Definition get_str (k : string) (v : Value) : option string := vget k v ≫= as_str.
Definition get_bool (k : string) (v : Value) : option bool := vget k v ≫= as_bool.
(** [json!(Option<T>)], [json!(Vec<T>)] *)
Definition VOpt {A} (f : A -> Value) (o : option A) : Value :=
  match o with Some a => f a | None => VNull end.
Definition VObj (l : list (string * Value)) : Value := VObject (list_to_map l).
End json.

(** ** The pattern tables of the repository *)
Record PatternSnapshotInsert `{Chrono} `{SerdeJson} := {
  snap_tenant_id : string;
  snap_pattern_id : string;
  snap_snapshot_key : string;
  snap_data : Value;
  snap_score : option f64;
  snap_severity : option string;
  snap_observed_at : DateTime
}.

Class PatternStore `{Chrono} `{SerdeJson} := {
  Db : Type;
  load_pattern_state : Db -> string -> string -> string -> outcome (option Value);
  upsert_pattern_state : Db -> string -> string -> string -> Value -> Db * outcome unit;
  insert_pattern_snapshot : Db -> PatternSnapshotInsert -> Db * outcome unit;
  load_upsert : forall db t p k v,
    snd (upsert_pattern_state db t p k v) = Ret () ->
    load_pattern_state (fst (upsert_pattern_state db t p k v)) t p k = Ret (Some v);
  load_upsert_other : forall db t p k v t' p' k', (t', p', k') <> (t, p, k) ->
    load_pattern_state (fst (upsert_pattern_state db t p k v)) t' p' k' =
    load_pattern_state db t' p' k';
  load_upsert_failed : forall db t p k v,
    snd (upsert_pattern_state db t p k v) <> Ret () ->
    fst (upsert_pattern_state db t p k v) = db;
  load_snapshot : forall db s t p k,
    load_pattern_state (fst (insert_pattern_snapshot db s)) t p k = load_pattern_state db t p k
}.

(** ** Concrete instances *)

(** instants and durations as unbounded nanoseconds, except that a duration
    constructor fails outside the [i64] milliseconds *)
Definition bounded_duration (d : Z) : option Z :=
  if Z.abs d <=? i64_max * 1000000 then Some d else None.
Lemma bounded_duration_spec d d' : bounded_duration d = Some d' -> d' = d.
Proof. unfold bounded_duration. case_match; by intros [= <-]. Qed.

(** instants within 2^63 milliseconds of the epoch *)
Definition instant_bound : Z := i64_max * 1000000.
Definition instant : Type := { z : Z | (- instant_bound <=? z) && (z <=? instant_bound) = true }.
Program Definition instant_of (z : Z) : option instant :=
  match decide ((- instant_bound <=? z) && (z <=? instant_bound) = true) with
  | left H => Some (exist _ z H)
  | right _ => None
  end.
Lemma instant_of_spec z t : instant_of z = Some t -> proj1_sig t = z.
Proof. unfold instant_of. case_decide; by intros [= <-]. Qed.
Lemma instant_inj (a b : instant) : proj1_sig a = proj1_sig b -> a = b.
Proof.
  destruct a as [x Hx], b as [y Hy]. simpl. intros ->. f_equal. apply proof_irrel.
Qed.
Lemma instant_min_le (t : instant) : - instant_bound <= proj1_sig t.
Proof. destruct t as [z Hz]. simpl. bools. lia. Qed.
Lemma instant_add_spec (t : instant) d t' :
  instant_of (proj1_sig t + d) = Some t' -> proj1_sig t' = proj1_sig t + d.
Proof. apply instant_of_spec. Qed.

Definition at_ns (z : Z) : instant :=
  match instant_of z with Some t => t | None => exist _ 0 eq_refl end.

Definition chrono_Z : Chrono :=
  {| DateTime := instant;
     ns := fun t => proj1_sig t;
     ns_inj := instant_inj;
     MIN_UTC := exist _ (- instant_bound) eq_refl;
     MIN_UTC_le := instant_min_le;
     duration_seconds := fun n => bounded_duration (n * 1000000000);
     duration_seconds_spec := fun n d => bounded_duration_spec _ d;
     duration_minutes := fun n => bounded_duration (n * 60000000000);
     duration_minutes_spec := fun n d => bounded_duration_spec _ d;
     checked_add := fun t d => instant_of (proj1_sig t + d);
     checked_add_spec := instant_add_spec;
     to_rfc3339 := fun t => fmt_Z (proj1_sig t);
     parse_from_rfc3339 := fun s => z ← parse_i64 s; instant_of z;
     timestamp_millis_opt := fun n => instant_of (n * 1000000);
     timestamp_millis_spec := fun n t => instant_of_spec _ t;
     timestamp_opt := fun n => instant_of (n * 1000000000);
     timestamp_spec := fun n t => instant_of_spec _ t |}.

(** JSON documents as a tree *)
Inductive json :=
  | JNull
  | JBool (b : bool)
  | JInt (z : Z)
  | JFloat (x : f64)
  | JString (s : string)
  | JArray (l : list json)
  | JObject (m : gmap string json).

Definition finite_f64 (x : f64) : option f64 := if is_finite x then Some x else None.
Definition json_as_f64 (v : json) : option f64 :=
  match v with
  | JInt z => finite_f64 (f64_of_Z z)
  | JFloat x => finite_f64 x
  | _ => None
  end.
Definition json_int_in (lo hi : Z) (v : json) : option Z :=
  match v with
  | JInt z => if (lo <=? z) && (z <=? hi) then Some z else None
  | _ => None
  end.
Lemma json_as_f64_finite v x : json_as_f64 v = Some x -> is_finite x = true.
Proof. destruct v; simpl; try done; unfold finite_f64; case_match; by intros [= <-]. Qed.
Lemma json_int_in_range lo hi v z : json_int_in lo hi v = Some z -> lo <= z <= hi.
Proof. destruct v; simpl; try done. case_match; intros [= <-]. bools. lia. Qed.
Definition json_object (v : json) : option (gmap string json) :=
  match v with JObject m => Some m | _ => None end.
Lemma json_object_Some v m : json_object v = Some m -> v = JObject m.
Proof. by destruct v; intros [= ->]. Qed.

Lemma json_is_null_spec v : match v with JNull => true | _ => false end = true <-> v = JNull.
Proof. by destruct v. Qed.

(** the compact text of a value; characters are not escaped *)
Definition quoted (s : string) : string :=
  let quote := String (Ascii.ascii_of_nat 34) EmptyString in quote +:+ s +:+ quote.
Fixpoint json_display (v : json) : string :=
  match v with
  | JNull => "null"
  | JBool b => if b then "true" else "false"
  | JInt z => fmt_Z z
  | JFloat x => fmt_fixed 6 x
  | JString s => quoted s
  | JArray l => "[" +:+ String.concat "," (json_display <$> l) +:+ "]"
  | JObject m =>
      "{" +:+ String.concat ","
        ((fun kt => quoted kt.1 +:+ ":" +:+ kt.2)
          <$> sort_by (fun a b => String.leb a.1 b.1)
                (map_fold (fun k v entries => (k, json_display v) :: entries) [] m)) +:+ "}"
  end.

Definition serde_json_tree : SerdeJson :=
  {| Value := json; VNull := JNull; VBool := JBool; VInt := JInt;
     VFloat := fun x => if is_finite x then JFloat x else JNull;
     VString := JString; VArray := JArray; VObject := JObject;
     as_bool := fun v => match v with JBool b => Some b | _ => None end;
     as_i64 := json_int_in i64_min i64_max;
     as_u64 := json_int_in 0 u64_max;
     as_f64 := json_as_f64;
     as_str := fun v => match v with JString s => Some s | _ => None end;
     as_array := fun v => match v with JArray l => Some l | _ => None end;
     as_object := json_object;
     is_null := fun v => match v with JNull => true | _ => false end;
     value_to_string := json_display;
     as_object_VObject := fun m => eq_refl;
     as_object_Some := json_object_Some;
     is_null_spec := json_is_null_spec;
     as_str_VString := fun s => eq_refl;
     as_bool_VBool := fun b => eq_refl;
     as_f64_finite := json_as_f64_finite;
     as_i64_range := json_int_in_range _ _;
     as_u64_range := json_int_in_range _ _ |}.

(** whole seconds *)
Definition sec (n : Z) : @DateTime chrono_Z := at_ns (n * 1000000000).

(** fields of the codecs of the instances *)
Definition time_to_json (t : instant) : json := JInt (proj1_sig t).
Definition opt_to_json {A} (f : A -> json) (o : option A) : json :=
  match o with Some a => f a | None => JNull end.
Definition float_to_json (x : f64) : json := if is_finite x then JFloat x else JNull.
Definition json_time (v : json) : option instant :=
  match v with JInt z => instant_of z | _ => None end.
Definition json_float (v : json) : option f64 :=
  match v with JFloat x => finite_f64 x | _ => None end.
Definition json_text (v : json) : option string := match v with JString s => Some s | _ => None end.
Definition json_int (v : json) : option Z := match v with JInt z => Some z | _ => None end.
Definition field {A} (f : json -> option A) (k : string) (m : gmap string json) : option A :=
  v ← m !! k; f v.
Lemma json_time_roundtrip t : json_time (time_to_json t) = Some t.
Proof.
  destruct t as [z Hz]. unfold json_time, time_to_json, instant_of. simpl.
  destruct (decide _) as [Hd|Hd]; [|by rewrite Hz in Hd]. f_equal. by apply instant_inj.
Qed.
Lemma opt_time_roundtrip o : json_time (opt_to_json time_to_json o) = o.
Proof. destruct o; [apply json_time_roundtrip|done]. Qed.
Lemma opt_float_roundtrip o : json_float (opt_to_json float_to_json o) = o ≫= finite_f64.
Proof.
  destruct o as [x|]; [|done]. simpl. unfold float_to_json, finite_f64.
  destruct (is_finite x) eqn:Hx; simpl; [|done]. unfold finite_f64. by rewrite Hx.
Qed.
Lemma opt_text_roundtrip o : json_text (opt_to_json JString o) = o.
Proof. by destruct o. Qed.
