(* ===== verification/EventSchema.v ===== *)
(** * Event and detection contracts ([crates/event-schema/src/lib.rs])

    The enums and structs that flow between the indexer, the detector, the
    finality tracker and the orchestrator, with decidable equality for the
    enums that derive [PartialEq]. *)
From S2P Require Import Prelude F64 Text Ports.

Inductive SourceType := EvmChain | CexWebsocket | DexApi | OracleApi | CustomApi.
Inductive Chain :=
  | Ethereum | Arbitrum | Optimism | Base | Polygon | Avalanche | BSC | Offchain
  | UnknownChain.
Inductive EventStatus := Observed | StatusConfirmed | StatusRetracted.
Inductive LifecycleState := Provisional | Confirmed | Retracted | Suppressed | Resolved.
Inductive AttackFamily :=
  | OracleManipulation | FamilyPegDeviation | FlashLoan | FlashLoanManipulation
  | FamilyCrossChainMismatch | StalePriceExploitation | OracleUpgradeRisk
  | DecimalPrecisionRisk | LiquidationCascade | HighUtilization | UnknownFamily.
Inductive ProtocolCategory := Lending | PerpDex | UnknownCategory.
Inductive Severity := Info | Low | Medium | High | Critical.
Inductive IncidentTransition := Trigger | Escalate | Deescalate | Resolve | Retract | Update.
Inductive ContextClassification := Isolated | Systemic | NoContext.
Inductive FinalityStatus := Tentative | Safe | Finalized.
Inductive SignalType :=
  | OracleDivergence | PegDeviation | FlashLoanDetected | OracleReadDetected
  | LargeSwapDetected | CrossChainMismatch | OracleUpgradeDetected
  | StalePriceDetected | DecimalPrecisionMismatch | NearMissPattern
  | LoanVolumeSpike | PriceDeviation | ProfitExtracted | TvlDropDetected
  | TvlVelocityDrop | ProtocolPauseState | UtilizationHighDetected.
Inductive EventType := OracleUpdate | FlashLoanCandidate | ProtocolState | ProtocolPause.

#[global] Instance SourceType_eq_dec : EqDecision SourceType.
Proof. solve_decision. Defined.
#[global] Instance Chain_eq_dec : EqDecision Chain.
Proof. solve_decision. Defined.
#[global] Instance LifecycleState_eq_dec : EqDecision LifecycleState.
Proof. solve_decision. Defined.
#[global] Instance FinalityStatus_eq_dec : EqDecision FinalityStatus.
Proof. solve_decision. Defined.
#[global] Instance Severity_eq_dec : EqDecision Severity.
Proof. solve_decision. Defined.
#[global] Instance IncidentTransition_eq_dec : EqDecision IncidentTransition.
Proof. solve_decision. Defined.
#[global] Instance ContextClassification_eq_dec : EqDecision ContextClassification.
Proof. solve_decision. Defined.
#[global] Instance SignalType_eq_dec : EqDecision SignalType.
Proof. solve_decision. Defined.

(** [format!("{:?}", value).to_lowercase()] of the enums whose text is stored *)
Definition severity_lower (s : Severity) : string :=
  match s with
  | Info => "info" | Low => "low" | Medium => "medium" | High => "high"
  | Critical => "critical"
  end.
Definition transition_lower (t : IncidentTransition) : string :=
  match t with
  | Trigger => "trigger" | Escalate => "escalate" | Deescalate => "deescalate"
  | Resolve => "resolve" | Retract => "retract" | Update => "update"
  end.
Definition lifecycle_lower (s : LifecycleState) : string :=
  match s with
  | Provisional => "provisional" | Confirmed => "confirmed" | Retracted => "retracted"
  | Suppressed => "suppressed" | Resolved => "resolved"
  end.
Definition source_type_debug (s : SourceType) : string :=
  match s with
  | EvmChain => "EvmChain" | CexWebsocket => "CexWebsocket" | DexApi => "DexApi"
  | OracleApi => "OracleApi" | CustomApi => "CustomApi"
  end.
Definition chain_debug (c : Chain) : string :=
  match c with
  | Ethereum => "Ethereum" | Arbitrum => "Arbitrum" | Optimism => "Optimism"
  | Base => "Base" | Polygon => "Polygon" | Avalanche => "Avalanche" | BSC => "BSC"
  | Offchain => "Offchain" | UnknownChain => "Unknown"
  end.

Definition default_finality_status : FinalityStatus := Tentative.

Section structs.
Context `{Chrono} `{SerdeJson}.

Record UnifiedEvent := {
  event_id : string;
  tenant_id : string;
  source_id : string;
  source_type : SourceType;
  event_type : string;
  timestamp : DateTime;
  payload : Value;
  chain_id : option Z;
  block_number : option Z;
  tx_hash : option string;
  market_key : option string;
  price : option f64
}.

Record NormalizedEvent := {
  ne_event_id : string;
  ne_event_key : string;
  ne_event_type : EventType;
  ne_tenant_id : option string;
  ne_chain : Chain;
  ne_chain_slug : string;
  ne_protocol : string;
  ne_protocol_category : ProtocolCategory;
  ne_chain_id : option Z;
  ne_tx_hash : string;
  ne_block_number : Z;
  ne_block_hash : option string;
  ne_parent_hash : option string;
  ne_tx_index : option Z;
  ne_log_index : option Z;
  ne_status : EventStatus;
  ne_lifecycle_state : LifecycleState;
  ne_requires_confirmation : bool;
  ne_confirmation_depth : Z;
  ne_ingest_latency_ms : option Z;
  ne_observed_at : DateTime;
  ne_oracle_price : option f64;
  ne_reference_price : option f64;
  ne_metadata : gmap string Value
}.

Record DetectionSignal := {
  signal_type : SignalType;
  signal_value : f64;
  signal_label : option string;
  signal_source_id : option string
}.
Record Attribution := {
  feature : string;
  contribution : f64;
  detail : string
}.
Record RiskScore := {
  score : f64;
  confidence : f64;
  rationale : list string;
  attribution : list Attribution
}.
Definition RiskScore_default : RiskScore :=
  {| score := f64_zero; confidence := f64_zero; rationale := []; attribution := [] |}.

Record DetectionResult := {
  detection_id : string;
  pattern_id : string;
  det_event_key : option string;
  subject_type : option string;
  subject_key : option string;
  det_tenant_id : option string;
  det_chain : Chain;
  det_chain_slug : string;
  protocol : string;
  det_lifecycle_state : LifecycleState;
  requires_confirmation : bool;
  attack_family : AttackFamily;
  severity : Severity;
  description : option string;
  triggered_rule_ids : list string;
  det_tx_hash : string;
  det_block_number : Z;
  signals : list DetectionSignal;
  risk_score : RiskScore;
  incident_transition : option IncidentTransition;
  context_classification : option ContextClassification;
  confidence_breakdown : gmap string f64;
  oracle_context : gmap string Value;
  actions_recommended : list string;
  is_simulated : bool;
  simulation_run_id : option string;
  detected_at : DateTime;
  created_at : DateTime
}.

Record AlertEvent := {
  al_alert_id : string;
  al_incident_id : option string;
  al_event_key : option string;
  al_subject_type : option string;
  al_subject_key : option string;
  al_tenant_id : option string;
  al_pattern_id : string;
  al_chain : Chain;
  al_chain_slug : string;
  al_protocol : string;
  al_lifecycle_state : LifecycleState;
  al_finality_status : FinalityStatus;
  al_severity : Severity;
  al_risk_score : f64;
  al_confidence : f64;
  al_confidence_breakdown : gmap string f64;
  al_rule_ids : list string;
  al_channel_routes : list string;
  al_dedup_key : option string;
  al_attribution : list Attribution;
  al_blast_radius : list string;
  al_exposure_summary : gmap string Value;
  al_tx_hash : string;
  al_block_number : Z;
  al_oracle_context : gmap string Value;
  al_actions_recommended : list string;
  al_is_simulated : bool;
  al_simulation_run_id : option string;
  al_detected_at : DateTime;
  al_created_at : DateTime
}.

Record FinalityUpdate := {
  fu_chain : Chain;
  fu_event_key : string;
  fu_block_number : Z;
  fu_block_hash : option string;
  fu_lifecycle_state : LifecycleState;
  fu_updated_at : DateTime
}.
Record ReorgNotice := {
  rn_chain : Chain;
  orphaned_from_block : Z;
  common_ancestor_block : Z;
  affected_event_keys : list string;
  noticed_at : DateTime
}.
Record DependencyEdge := {
  edge_source : string;
  edge_target : string;
  edge_relation : string;
  edge_weight : option f64
}.
End structs.
