(* ===== verification/CircuitBreaker.v ===== *)
(** * Circuit breaker ([crates/common/src/circuit_breaker.rs])

    The breaker's shared atomics as a record and one function per method; the
    monotonic clock ([Instant::now]) is an argument, in nanoseconds.  A call is
    an attempt, the protected operation and the recording of its outcome;
    calls made by concurrent tasks interleave at these three points, which is
    the step relation [step].  The specification is an automaton without the
    redundant counters ([Spec]); the breaker refines it. *)
From S2P Require Import Prelude.

Definition STATE_CLOSED : Z := 0.
Definition STATE_OPEN : Z := 1.
Definition STATE_HALF_OPEN : Z := 2.

Record CircuitBreakerConfig := {
  failure_threshold : Z;
  failure_window : Z;
  timeout : Z;
  success_threshold : Z
}.

Definition secs (n : Z) : Z := n * 1000000000.

Definition CircuitBreakerConfig_default : CircuitBreakerConfig :=
  {| failure_threshold := 5; failure_window := secs 60; timeout := secs 30;
     success_threshold := 2 |}.

Record CircuitBreaker := {
  name : string;
  state : Z;
  failure_count : Z;
  success_count : Z;
  last_failure_time : option Z;
  last_transition : Z;
  config : CircuitBreakerConfig
}.

Inductive CircuitBreakerState := Closed | Open | HalfOpen.
Record CircuitBreakerMetrics := {
  m_name : string;
  m_state : CircuitBreakerState;
  m_failure_count : Z;
  m_success_count : Z
}.
Inductive CircuitBreakerError (E : Type) :=
  | ErrOpen (name : string)
  | ErrCallFailed (e : E).
Arguments ErrOpen {E} name.
Arguments ErrCallFailed {E} e.

Definition new (nm : string) (cfg : CircuitBreakerConfig) (now : Z) : CircuitBreaker :=
  {| name := nm; state := STATE_CLOSED; failure_count := 0; success_count := 0;
     last_failure_time := None; last_transition := now; config := cfg |}.
Definition with_defaults (nm : string) (now : Z) : CircuitBreaker :=
  new nm CircuitBreakerConfig_default now.

Definition transition_to_closed (cb : CircuitBreaker) (now : Z) : CircuitBreaker :=
  {| name := name cb; state := STATE_CLOSED; failure_count := 0; success_count := 0;
     last_failure_time := last_failure_time cb; last_transition := now; config := config cb |}.
Definition transition_to_open (cb : CircuitBreaker) (now : Z) : CircuitBreaker :=
  {| name := name cb; state := STATE_OPEN; failure_count := failure_count cb;
     success_count := 0; last_failure_time := last_failure_time cb;
     last_transition := now; config := config cb |}.
Definition transition_to_half_open (cb : CircuitBreaker) (now : Z) : CircuitBreaker :=
  {| name := name cb; state := STATE_HALF_OPEN; failure_count := 0; success_count := 0;
     last_failure_time := last_failure_time cb; last_transition := now; config := config cb |}.

(** [Instant::elapsed] saturates at zero *)
Definition elapsed (since now : Z) : Z := Z.max 0 (now - since).

Definition can_attempt (cb : CircuitBreaker) (now : Z) : bool * CircuitBreaker :=
  if state cb =? STATE_CLOSED then (true, cb)
  else if state cb =? STATE_OPEN then
    if timeout (config cb) <=? elapsed (last_transition cb) now
    then (true, transition_to_half_open cb now)
    else (false, cb)
  else if state cb =? STATE_HALF_OPEN then (true, cb)
  else (false, cb).

Definition set_failures (cb : CircuitBreaker) (n : Z) (t : option Z) : CircuitBreaker :=
  {| name := name cb; state := state cb; failure_count := n;
     success_count := success_count cb; last_failure_time := t;
     last_transition := last_transition cb; config := config cb |}.
Definition set_successes (cb : CircuitBreaker) (n : Z) : CircuitBreaker :=
  {| name := name cb; state := state cb; failure_count := failure_count cb;
     success_count := n; last_failure_time := last_failure_time cb;
     last_transition := last_transition cb; config := config cb |}.

Definition on_success (cb : CircuitBreaker) (now : Z) : CircuitBreaker :=
  if state cb =? STATE_HALF_OPEN then
    let count := wrap_u64 (success_count cb + 1) in
    let cb := set_successes cb count in
    if success_threshold (config cb) <=? count then transition_to_closed cb now else cb
  else if state cb =? STATE_CLOSED then set_failures cb 0 None
  else cb.

Definition on_failure (cb : CircuitBreaker) (now : Z) : CircuitBreaker :=
  let cb := set_failures cb (failure_count cb) (Some now) in
  if state cb =? STATE_CLOSED then
    let count := wrap_u64 (failure_count cb + 1) in
    let cb := set_failures cb count (last_failure_time cb) in
    if failure_threshold (config cb) <=? count then transition_to_open cb now else cb
  else if state cb =? STATE_HALF_OPEN then transition_to_open cb now
  else cb.

(** [call]: [f] is the protected operation on the outside world [W]; [now1]
    and [now2] are the clock before and after it. *)
Definition call {W T E : Type} (cb : CircuitBreaker) (f : W -> W * (T + E))
    (w : W) (now1 now2 : Z) : CircuitBreaker * W * (T + CircuitBreakerError E) :=
  let '(allowed, cb) := can_attempt cb now1 in
  if negb allowed then (cb, w, inr (ErrOpen (name cb)))
  else
    match f w with
    | (w, inl result) => (on_success cb now2, w, inl result)
    | (w, inr e) => (on_failure cb now2, w, inr (ErrCallFailed e))
    end.

Definition get_state (cb : CircuitBreaker) : CircuitBreakerState :=
  if state cb =? STATE_CLOSED then Closed
  else if state cb =? STATE_OPEN then Open
  else if state cb =? STATE_HALF_OPEN then HalfOpen
  else Closed.
Definition get_metrics (cb : CircuitBreaker) : CircuitBreakerMetrics :=
  {| m_name := name cb; m_state := get_state cb;
     m_failure_count := failure_count cb; m_success_count := success_count cb |}.

(** ** Interleaved calls

    A configuration is the breaker and the number of admitted calls whose
    operation is still running. *)
Inductive step : CircuitBreaker * nat -> CircuitBreaker * nat -> Prop :=
  | step_admitted cb cb' n now :
      can_attempt cb now = (true, cb') -> step (cb, n) (cb', S n)
  | step_rejected cb cb' n now :
      can_attempt cb now = (false, cb') -> step (cb, n) (cb', n)
  | step_succeeded cb n now : step (cb, S n) (on_success cb now, n)
  | step_failed cb n now : step (cb, S n) (on_failure cb now, n).

Definition reachable (nm : string) (cfg : CircuitBreakerConfig) (c : CircuitBreaker * nat) : Prop :=
  exists now, rtc step (new nm cfg now, O) c.

(** ** Specification *)
Module Spec.
Inductive t := SClosed (failures : Z) | SOpen (since : Z) | SHalfOpen (successes : Z).

Definition attempt (cfg : CircuitBreakerConfig) (s : t) (now : Z) : bool * t :=
  match s with
  | SOpen since => if timeout cfg <=? Z.max 0 (now - since) then (true, SHalfOpen 0) else (false, s)
  | _ => (true, s)
  end.
Definition success (cfg : CircuitBreakerConfig) (s : t) (now : Z) : t :=
  match s with
  | SClosed _ => SClosed 0
  | SOpen _ => s
  | SHalfOpen n => if success_threshold cfg <=? n + 1 then SClosed 0 else SHalfOpen (n + 1)
  end.
Definition failure (cfg : CircuitBreakerConfig) (s : t) (now : Z) : t :=
  match s with
  | SClosed n => if failure_threshold cfg <=? n + 1 then SOpen now else SClosed (n + 1)
  | SOpen _ => s
  | SHalfOpen _ => SOpen now
  end.
End Spec.
Import Spec.

Definition abs (cb : CircuitBreaker) : Spec.t :=
  match get_state cb with
  | Closed => SClosed (failure_count cb)
  | Open => SOpen (last_transition cb)
  | HalfOpen => SHalfOpen (success_count cb)
  end.

(** thresholds that fit the type and ask for at least one outcome *)
Definition config_ok (cfg : CircuitBreakerConfig) : Prop :=
  1 <= failure_threshold cfg <= u64_max /\ 1 <= success_threshold cfg <= u64_max.

Definition inv (cb : CircuitBreaker) : Prop :=
  (state cb = STATE_CLOSED /\ 0 <= failure_count cb < failure_threshold (config cb) /\
   success_count cb = 0) \/
  (state cb = STATE_OPEN /\ success_count cb = 0) \/
  (state cb = STATE_HALF_OPEN /\ failure_count cb = 0 /\
   0 <= success_count cb < success_threshold (config cb)).

(** equal up to the failure window *)
Definition same_but_window (a b : CircuitBreaker) : Prop :=
  name a = name b /\ state a = state b /\ failure_count a = failure_count b /\
  success_count a = success_count b /\ last_failure_time a = last_failure_time b /\
  last_transition a = last_transition b /\
  failure_threshold (config a) = failure_threshold (config b) /\
  timeout (config a) = timeout (config b) /\
  success_threshold (config a) = success_threshold (config b).

(** ** Lemmas *)

Ltac breaker :=
  unfold on_success, on_failure, can_attempt, transition_to_closed, transition_to_open,
    transition_to_half_open, set_failures, set_successes, abs, get_state,
    STATE_CLOSED, STATE_OPEN, STATE_HALF_OPEN in *; simpl in *.

Lemma new_inv nm cfg now : config_ok cfg -> inv (new nm cfg now).
Proof. intros [? ?]. left. simpl. unfold STATE_CLOSED. lia. Qed.

Lemma step_config cb now :
  config (snd (can_attempt cb now)) = config cb /\
  config (on_success cb now) = config cb /\ config (on_failure cb now) = config cb.
Proof. breaker. repeat case_match; simpl; done. Qed.

Lemma ops_inv cb now : config_ok (config cb) -> inv cb ->
  inv (snd (can_attempt cb now)) /\ inv (on_success cb now) /\ inv (on_failure cb now).
Proof.
  intros [Hf Hs] [(Hst & Hc & H0)|[(Hst & H0)|(Hst & H0 & Hc)]]; unfold inv; breaker;
    rewrite Hst; simpl; rewrite ?wrap_u64_small by lia;
    repeat case_match; bools; simpl; repeat split; lia.
Qed.

Lemma ops_refine cb now : config_ok (config cb) -> inv cb ->
  (fst (can_attempt cb now), abs (snd (can_attempt cb now))) =
    Spec.attempt (config cb) (abs cb) now /\
  abs (on_success cb now) = Spec.success (config cb) (abs cb) now /\
  abs (on_failure cb now) = Spec.failure (config cb) (abs cb) now.
Proof.
  intros [Hf Hs] [(Hst & Hc & H0)|[(Hst & H0)|(Hst & H0 & Hc)]]; breaker; unfold elapsed;
    rewrite Hst; simpl; rewrite ?Hst; simpl; rewrite ?wrap_u64_small by lia;
    repeat case_match; simpl in *; rewrite ?Hst in *; simpl; split_and!;
    first [done | bools; lia | congruence].
Qed.

Lemma reachable_ok nm cfg c : config_ok cfg -> reachable nm cfg c ->
  inv (fst c) /\ config (fst c) = cfg.
Proof.
  intros Hcfg [now Hr]. remember (new nm cfg now, O) as c0 eqn:Hc0.
  assert (Hi : inv (fst c0) /\ config (fst c0) = cfg) by (subst; split; [by apply new_inv|done]).
  clear Hc0. induction Hr as [c|c c' c'' Hstep _ IH]; [done|].
  apply IH. destruct Hi as [Hi Hcf].
  inversion Hstep as [cb cb' n t Ha|cb cb' n t Ha|cb n t|cb n t]; subst; simpl in *;
    destruct (ops_inv cb t Hcfg Hi) as (H1 & H2 & H3);
    destruct (step_config cb t) as (E1 & E2 & E3); rewrite ?Ha in *; simpl in *;
    split; congruence.
Qed.

(** [n] recorded failures in a row *)
Fixpoint fail_n (cb : CircuitBreaker) (times : list Z) : CircuitBreaker :=
  match times with [] => cb | t :: ts => fail_n (on_failure cb t) ts end.
Fixpoint succeed_n (cb : CircuitBreaker) (times : list Z) : CircuitBreaker :=
  match times with [] => cb | t :: ts => succeed_n (on_success cb t) ts end.

Lemma fail_n_closed times cb k :
  config_ok (config cb) -> inv cb -> abs cb = SClosed k ->
  k + Z.of_nat (length times) < failure_threshold (config cb) ->
  abs (fail_n cb times) = SClosed (k + Z.of_nat (length times)).
Proof.
  revert cb k. induction times as [|t ts IH]; intros cb k Hc Hi Ha Hl; simpl in *.
  - rewrite Ha. f_equal. lia.
  - destruct (ops_refine cb t Hc Hi) as (_ & _ & H3). destruct (ops_inv cb t Hc Hi) as (_ & _ & Hi').
    destruct (step_config cb t) as (_ & _ & Hcf).
    rewrite Ha in H3. simpl in H3.
    assert (failure_threshold (config cb) <=? k + 1 = false) as Hn by lia. rewrite Hn in H3.
    rewrite (IH _ (k + 1)); rewrite ?Hcf; auto; [f_equal; lia|lia].
Qed.

(** ** Properties *)

(** Along every interleaving of admitted, rejected, succeeding and failing
    calls, the breaker's counters and state satisfy the invariant (below the
    failure threshold when closed, no successes counted when open, below the
    success threshold when half-open) and each of its three operations
    simulates the specification automaton, including the admission decision. *)
Theorem breaker_refines_spec nm cfg cb n :
  config_ok cfg -> reachable nm cfg (cb, n) ->
  inv cb /\
  forall now,
    (fst (can_attempt cb now), abs (snd (can_attempt cb now))) = Spec.attempt cfg (abs cb) now /\
    abs (on_success cb now) = Spec.success cfg (abs cb) now /\
    abs (on_failure cb now) = Spec.failure cfg (abs cb) now.
Proof.
  intros Hc Hr. destruct (reachable_ok _ _ _ Hc Hr) as [Hi <-]. simpl in *.
  split; [done|]. intros now. by apply ops_refine.
Qed.

(** While the breaker is open and its timeout has not elapsed, [call]
    fails fast: the protected operation is not run, the outside world and the
    breaker are left as they were and the error names the breaker. *)
Theorem call_fails_fast {W T E} cb (f : W -> W * (T + E)) w now1 now2 :
  state cb = STATE_OPEN ->
  elapsed (last_transition cb) now1 < timeout (config cb) ->
  call cb f w now1 now2 = (cb, w, inr (ErrOpen (name cb))).
Proof.
  intros Hst Hel. unfold call, can_attempt. rewrite Hst. simpl.
  by assert (timeout (config cb) <=? elapsed (last_transition cb) now1 = false) as -> by lia.
Qed.

(** A closed breaker with no recorded failure tolerates every run of
    failures shorter than the threshold, counting them, and the failure that
    reaches the threshold opens it. *)
Theorem breaker_opens_at_threshold cb times last :
  config_ok (config cb) -> inv cb -> abs cb = SClosed 0 ->
  Z.of_nat (length times) = failure_threshold (config cb) - 1 ->
  abs (fail_n cb times) = SClosed (failure_threshold (config cb) - 1) /\
  abs (on_failure (fail_n cb times) last) = SOpen last.
Proof.
  intros Hc Hi Ha Hl.
  assert (H1 : abs (fail_n cb times) = SClosed (failure_threshold (config cb) - 1)).
  { rewrite (fail_n_closed times cb 0) by (done || lia). f_equal. lia. }
  split; [done|].
  assert (H2 : forall ts c, config_ok (config c) -> inv c ->
            inv (fail_n c ts) /\ config (fail_n c ts) = config c).
  { induction ts as [|t ts IH]; intros c Hok Hinv; simpl; [done|].
    destruct (ops_inv c t Hok Hinv) as (_ & _ & Hi'). destruct (step_config c t) as (_ & _ & E).
    destruct (IH (on_failure c t)) as [? ?]; [by rewrite E|done|]. split; congruence. }
  destruct (H2 times cb Hc Hi) as [Hi' Hcf].
  destruct (ops_refine (fail_n cb times) last) as (_ & _ & H3); [by rewrite Hcf|done|].
  rewrite H3, H1, Hcf. simpl.
  by assert (failure_threshold (config cb) <=? failure_threshold (config cb) - 1 + 1 = true)
    as -> by lia.
Qed.

(** The configured [failure_window] plays no part: two breakers that differ
    in it only take the same decisions and stay equal up to it, so failures
    any distance apart in time accumulate (the documentation of the field says
    failures are counted within the window). *)
Theorem failure_window_unused a b now :
  same_but_window a b ->
  fst (can_attempt a now) = fst (can_attempt b now) /\
  same_but_window (snd (can_attempt a now)) (snd (can_attempt b now)) /\
  same_but_window (on_success a now) (on_success b now) /\
  same_but_window (on_failure a now) (on_failure b now).
Proof.
  destruct a as [na sa fa ca ta la [f1 w1 o1 s1]], b as [nb sb fb cb tb lb [f2 w2 o2 s2]].
  unfold same_but_window; simpl. intros; destruct_and!; subst.
  breaker. repeat case_match; simpl; repeat split.
Qed.

Lemma default_config_ok : config_ok CircuitBreakerConfig_default.
Proof. by repeat split. Qed.
Lemma breaker_refines_spec_witness :
  inv (new "eth-rpc" CircuitBreakerConfig_default 0) /\
  forall now,
    (fst (can_attempt (new "eth-rpc" CircuitBreakerConfig_default 0) now),
     abs (snd (can_attempt (new "eth-rpc" CircuitBreakerConfig_default 0) now))) =
      Spec.attempt CircuitBreakerConfig_default (abs (new "eth-rpc" CircuitBreakerConfig_default 0)) now /\
    abs (on_success (new "eth-rpc" CircuitBreakerConfig_default 0) now) =
      Spec.success CircuitBreakerConfig_default (abs (new "eth-rpc" CircuitBreakerConfig_default 0)) now /\
    abs (on_failure (new "eth-rpc" CircuitBreakerConfig_default 0) now) =
      Spec.failure CircuitBreakerConfig_default (abs (new "eth-rpc" CircuitBreakerConfig_default 0)) now.
Proof.
  apply (breaker_refines_spec "eth-rpc" CircuitBreakerConfig_default _ O default_config_ok).
  exists 0. apply rtc_refl.
Defined.
Lemma call_fails_fast_witness :
  let cb := fail_n (with_defaults "eth-rpc" 0) [1; 2; 3; 4; 5] in
  call cb (fun w : nat => (S w, inl 7%nat : nat + string)) O (secs 10) (secs 11) =
    (cb, O, inr (ErrOpen "eth-rpc")).
Proof.
  intros cb. apply (call_fails_fast cb (fun w : nat => (S w, inl 7%nat : nat + string)) O).
  - reflexivity.
  - reflexivity.
Defined.
Lemma breaker_opens_at_threshold_witness :
  abs (fail_n (with_defaults "eth-rpc" 0) [1; 2; 3; 4]) = SClosed 4 /\
  abs (on_failure (fail_n (with_defaults "eth-rpc" 0) [1; 2; 3; 4]) 5) = SOpen 5.
Proof.
  apply (breaker_opens_at_threshold (with_defaults "eth-rpc" 0) [1; 2; 3; 4] 5 default_config_ok
           (new_inv "eth-rpc" _ 0 default_config_ok)); reflexivity.
Defined.
Lemma failure_window_unused_witness :
  let wide := {| failure_threshold := 5; failure_window := secs 3600; timeout := secs 30;
                 success_threshold := 2 |} in
  let a := with_defaults "eth-rpc" 0 in let b := new "eth-rpc" wide 0 in
  fst (can_attempt a 9) = fst (can_attempt b 9) /\
  same_but_window (snd (can_attempt a 9)) (snd (can_attempt b 9)) /\
  same_but_window (on_success a 9) (on_success b 9) /\
  same_but_window (on_failure a 9) (on_failure b 9).
Proof.
  intros wide a b. apply (failure_window_unused a b 9). by repeat split.
Defined.
