(* ===== verification/Finality.v ===== *)
(** * Finality tracking ([crates/state-manager/src/finality.rs])

    [ChainFinalityTracker] keeps, per chain, the observed blocks with the event
    keys recorded in each ([BTreeMap], a finite map read in key order) and the
    lifecycle state of every event key.  [InMemoryFinalityEngine] is the
    consumer of the updates it emits.  The wall clock readings ([Utc::now])
    are arguments: [clock i] is the reading taken for the [i]-th update. *)
From S2P Require Import Prelude F64 Text Ports EventSchema.

(** a [BTreeMap<u64, V>] read in key order *)
Definition key_le {V} (a b : Z * V) : bool := fst a <=? fst b.
Definition btree_entries {V} (m : gmap Z V) : list (Z * V) := sort_by key_le (map_to_list m).

Section finality.
Context `{Chrono} `{SerdeJson}.

(** ** The in-memory engine *)

Record InMemoryFinalityEngine := { engine_states : gmap string LifecycleState }.

Definition engine_new : InMemoryFinalityEngine := {| engine_states := ∅ |}.
Definition engine_get_state (e : InMemoryFinalityEngine) (event_key : string)
  : option LifecycleState := engine_states e !! event_key.
Definition engine_apply_update (e : InMemoryFinalityEngine) (u : FinalityUpdate)
  : InMemoryFinalityEngine :=
  {| engine_states := <[fu_event_key u := fu_lifecycle_state u]> (engine_states e) |}.
Definition engine_handle_reorg_notice (e : InMemoryFinalityEngine) (n : ReorgNotice)
  : InMemoryFinalityEngine :=
  {| engine_states := foldl (fun m k => <[k := Retracted]> m) (engine_states e)
                        (affected_event_keys n) |}.

(** ** The tracker *)

Record FinalityBatch := {
  updates : list FinalityUpdate;
  reorg_notice : option ReorgNotice
}.
Definition FinalityBatch_default : FinalityBatch := {| updates := []; reorg_notice := None |}.

Record BlockEntry := { block_hash : option string; event_keys : list string }.

Record ChainFinalityTracker := {
  chain : Chain;
  default_confirmation_depth : Z;
  head_block : Z;
  blocks : gmap Z BlockEntry;
  states : gmap string LifecycleState
}.

Definition tracker_new (c : Chain) (depth : Z) : ChainFinalityTracker :=
  {| chain := c; default_confirmation_depth := Z.max depth 1; head_block := 0;
     blocks := ∅; states := ∅ |}.

Definition detect_conflicting_hash (t : ChainFinalityTracker) (block_number : Z)
    (incoming_hash : option string) : option string :=
  existing ← blocks t !! block_number;
  existing_hash ← block_hash existing;
  incoming ← incoming_hash;
  if bool_decide (existing_hash = incoming) then None else Some incoming.

Definition collect_affected_event_keys (t : ChainFinalityTracker) (from : Z) : list string :=
  (filter (fun kv => from <= kv.1) (btree_entries (blocks t))) ≫= (fun kv => event_keys kv.2).

(** [split_off] keeps the keys below; the head is the last remaining key *)
Definition last_key {V} (m : gmap Z V) : Z :=
  match last (btree_entries m) with Some (k, _) => k | None => 0 end.
Definition rollback_from_block (t : ChainFinalityTracker) (from : Z) : ChainFinalityTracker :=
  let kept := filter (fun kv => kv.1 < from) (blocks t) in
  {| chain := chain t; default_confirmation_depth := default_confirmation_depth t;
     head_block := last_key kept; blocks := kept; states := states t |}.

Definition set_states (t : ChainFinalityTracker) (s : gmap string LifecycleState)
  : ChainFinalityTracker :=
  {| chain := chain t; default_confirmation_depth := default_confirmation_depth t;
     head_block := head_block t; blocks := blocks t; states := s |}.

(** one update pushed on the batch *)
Definition mk_update (c : Chain) (clock : nat -> DateTime) (us : list FinalityUpdate)
    (key : string) (block : Z) (hash : option string) (s : LifecycleState) : list FinalityUpdate :=
  us ++ [ {| fu_chain := c; fu_event_key := key; fu_block_number := block;
             fu_block_hash := hash; fu_lifecycle_state := s; fu_updated_at := clock (length us) |} ].

(** retract a key; an update is emitted unless it was retracted already *)
Definition retract_key (c : Chain) (clock : nat -> DateTime) (block : Z) (hash : option string)
    (acc : gmap string LifecycleState * list FinalityUpdate) (key : string) :=
  let '(s, us) := acc in
  (<[key := Retracted]> s,
   if bool_decide (s !! key = Some Retracted) then us
   else mk_update c clock us key block hash Retracted).

(** the conflicting-hash branch of [observe_event] *)
Definition handle_conflict (t : ChainFinalityTracker) (clock : nat -> DateTime)
    (noticed : DateTime) (event : NormalizedEvent) : ChainFinalityTracker * FinalityBatch :=
  match detect_conflicting_hash t (ne_block_number event) (ne_block_hash event) with
  | None => (t, FinalityBatch_default)
  | Some conflict_hash =>
      let event_block := ne_block_number event in
      let affected := collect_affected_event_keys t event_block in
      let t := rollback_from_block t event_block in
      match affected with
      | [] => (t, FinalityBatch_default)
      | _ =>
          let notice := {| rn_chain := chain t; orphaned_from_block := event_block;
            common_ancestor_block := sat_sub event_block 1;
            affected_event_keys := affected; noticed_at := noticed |} in
          let '(s, us) := foldl (retract_key (chain t) clock event_block (Some conflict_hash))
                            (states t, []) affected in
          (set_states t s, {| updates := us; reorg_notice := Some notice |})
      end
  end.

(** the block entry is created or completed and the head advances *)
Definition record_event (t : ChainFinalityTracker) (event : NormalizedEvent)
  : ChainFinalityTracker :=
  let event_block := ne_block_number event in
  let entry := default {| block_hash := ne_block_hash event; event_keys := [] |}
                 (blocks t !! event_block) in
  let hash := match block_hash entry with None => ne_block_hash event | h => h end in
  let keys := if bool_decide (ne_event_key event ∈ event_keys entry) then event_keys entry
              else event_keys entry ++ [ne_event_key event] in
  {| chain := chain t; default_confirmation_depth := default_confirmation_depth t;
     head_block := Z.max (head_block t) event_block;
     blocks := <[event_block := {| block_hash := hash; event_keys := keys |}]> (blocks t);
     states := states t |}.

(** a first observation is provisional *)
Definition mark_provisional (t : ChainFinalityTracker) (clock : nat -> DateTime)
    (event : NormalizedEvent) (us : list FinalityUpdate)
  : ChainFinalityTracker * list FinalityUpdate :=
  match states t !! ne_event_key event with
  | Some _ => (t, us)
  | None =>
      (set_states t (<[ne_event_key event := Provisional]> (states t)),
       mk_update (chain t) clock us (ne_event_key event) (ne_block_number event)
         (ne_block_hash event) Provisional)
  end.

Definition confirm_key (c : Chain) (clock : nat -> DateTime) (block : Z) (hash : option string)
    (acc : gmap string LifecycleState * list FinalityUpdate) (key : string) :=
  let '(s, us) := acc in
  if bool_decide (s !! key = Some Provisional) then
    (<[key := Confirmed]> s, mk_update c clock us key block hash Confirmed)
  else acc.

(** the confirmation loop, which breaks at the first block above the height *)
Fixpoint confirm_blocks (c : Chain) (clock : nat -> DateTime) (height : Z)
    (entries : list (Z * BlockEntry)) (acc : gmap string LifecycleState * list FinalityUpdate) :=
  match entries with
  | [] => acc
  | (block, entry) :: rest =>
      if height <? block then acc
      else confirm_blocks c clock height rest
             (foldl (confirm_key c clock block (block_hash entry)) acc (event_keys entry))
  end.

Definition confirmation_depth_for (t : ChainFinalityTracker) (event : NormalizedEvent) : Z :=
  if ne_requires_confirmation event then Z.max (ne_confirmation_depth event) 1
  else default_confirmation_depth t.

Definition observe_event (t : ChainFinalityTracker) (clock : nat -> DateTime)
    (noticed : DateTime) (event : NormalizedEvent) : ChainFinalityTracker * FinalityBatch :=
  if negb (bool_decide (ne_chain event = chain t)) then (t, FinalityBatch_default)
  else
    let '(t, batch) := handle_conflict t clock noticed event in
    let t := record_event t event in
    let '(t, us) := mark_provisional t clock event (updates batch) in
    let finalized_height := sat_sub (head_block t) (confirmation_depth_for t event) in
    let '(s, us) := confirm_blocks (chain t) clock finalized_height
                      (btree_entries (blocks t)) (states t, us) in
    (set_states t s, {| updates := us; reorg_notice := reorg_notice batch |}).

Definition apply_reorg_notice (t : ChainFinalityTracker) (clock : nat -> DateTime)
    (notice : ReorgNotice) : ChainFinalityTracker * list FinalityUpdate :=
  if negb (bool_decide (rn_chain notice = chain t)) then (t, [])
  else
    let t := rollback_from_block t (orphaned_from_block notice) in
    let '(s, us) := foldl (retract_key (chain t) clock (orphaned_from_block notice) None)
                      (states t, []) (affected_event_keys notice) in
    (set_states t s, us).

(** ** Specifications *)

(** the lifecycle of one event key; [None] is never observed *)
Definition legal (before after : option LifecycleState) : Prop :=
  match before, after with
  | None, _ => True
  | Some _, None => False
  | Some Retracted, Some s => s = Retracted
  | Some Confirmed, Some s => s = Confirmed \/ s = Retracted
  | Some _, Some _ => True
  end.

(** the head is the highest recorded block, every recorded block holds a key
    and every recorded key has a state *)
Definition tracker_inv (t : ChainFinalityTracker) : Prop :=
  (forall n e, blocks t !! n = Some e -> 0 <= n <= head_block t) /\
  (blocks t = ∅ /\ head_block t = 0 \/ is_Some (blocks t !! head_block t)) /\
  (forall n e k, blocks t !! n = Some e -> k ∈ event_keys e -> is_Some (states t !! k)) /\
  (forall n e, blocks t !! n = Some e -> event_keys e <> []).

(** a run of the tracker over events and notices, collecting the updates *)
Inductive input := Observe (noticed : DateTime) (event : NormalizedEvent)
                 | Reorg (notice : ReorgNotice).
Definition tracker_step (t : ChainFinalityTracker) (clock : nat -> DateTime) (i : input)
  : ChainFinalityTracker * list FinalityUpdate :=
  match i with
  | Observe noticed event => let '(t, b) := observe_event t clock noticed event in (t, updates b)
  | Reorg notice => apply_reorg_notice t clock notice
  end.
Fixpoint tracker_run (t : ChainFinalityTracker) (ins : list ((nat -> DateTime) * input))
  : ChainFinalityTracker * list FinalityUpdate :=
  match ins with
  | [] => (t, [])
  | (clock, i) :: rest =>
      let '(t, us) := tracker_step t clock i in
      let '(t, us') := tracker_run t rest in (t, us ++ us')
  end.
Definition replay (s : gmap string LifecycleState) (us : list FinalityUpdate)
  : gmap string LifecycleState :=
  engine_states (foldl engine_apply_update {| engine_states := s |} us).

(** ** Lemmas *)

Lemma elem_of_btree_entries {V} (m : gmap Z V) k v :
  (k, v) ∈ btree_entries m <-> m !! k = Some v.
Proof. unfold btree_entries. by rewrite elem_of_sort_by, elem_of_map_to_list. Qed.
Lemma btree_entries_sorted {V} (m : gmap Z V) : sorted_by key_le (btree_entries m).
Proof. apply sort_by_sorted; unfold key_le; intros; lia. Qed.

Lemma last_key_spec {V} (m : gmap Z V) :
  (forall k v, m !! k = Some v -> k <= last_key m) /\
  (m = ∅ /\ last_key m = 0 \/ is_Some (m !! last_key m)).
Proof.
  unfold last_key. pose proof (btree_entries_sorted m) as Hs.
  pose proof (elem_of_btree_entries m) as He.
  destruct (last (btree_entries m)) as [[k0 v0]|] eqn:Hl.
  - apply last_Some in Hl as [l Hl]. rewrite Hl in Hs, He. split.
    + intros k v Hk. apply He in Hk. apply elem_of_app in Hk as [Hk|Hk].
      * apply sorted_by_app_inv in Hs as (_ & _ & Hs).
        specialize (Hs _ (k0, v0) Hk (proj2 (list_elem_of_singleton _ _) eq_refl)).
        unfold key_le in Hs. simpl in Hs. lia.
      * apply list_elem_of_singleton in Hk. injection Hk as -> _. lia.
    + right. exists v0. apply He, elem_of_app. right. by apply list_elem_of_singleton.
  - apply last_None in Hl. assert (m = ∅) as ->; [|by split; [intros ?? ?|left]].
    apply map_eq. intros k. rewrite lookup_empty. destruct (m !! k) as [v|] eqn:Hk; [|done].
    apply He in Hk. rewrite Hl in Hk. by apply not_elem_of_nil in Hk.
Qed.

Lemma replay_snoc s us c clock k b h st :
  replay s (mk_update c clock us k b h st) = <[k := st]> (replay s us).
Proof. unfold replay, mk_update. by rewrite foldl_app. Qed.
Lemma replay_app s us us' : replay s (us ++ us') = replay (replay s us) us'.
Proof.
  unfold replay. rewrite foldl_app. f_equal. f_equal.
  by destruct (foldl _ _ us).
Qed.

(** the accumulator of a loop: the states are what the updates produce *)
Definition acc_ok (s0 : gmap string LifecycleState)
    (acc : gmap string LifecycleState * list FinalityUpdate) : Prop :=
  replay s0 acc.2 = acc.1.

Lemma retract_key_ok s0 c clock b h acc k :
  acc_ok s0 acc -> acc_ok s0 (retract_key c clock b h acc k).
Proof.
  destruct acc as [s us]. unfold acc_ok. simpl. intros Hok.
  destruct (bool_decide_reflect (s !! k = Some Retracted)) as [Hk|Hk].
  - rewrite insert_id by done. done.
  - by rewrite replay_snoc, Hok.
Qed.
Lemma confirm_key_ok s0 c clock b h acc k :
  acc_ok s0 acc -> acc_ok s0 (confirm_key c clock b h acc k).
Proof.
  destruct acc as [s us]. unfold acc_ok. simpl. intros Hok.
  case_bool_decide; simpl; [by rewrite replay_snoc, Hok|done].
Qed.
Lemma confirm_blocks_inv (P : gmap string LifecycleState * list FinalityUpdate -> Prop)
    c clock height entries acc :
  P acc ->
  (forall n e k acc, (n, e) ∈ entries -> n <= height -> k ∈ event_keys e -> P acc ->
     P (confirm_key c clock n (block_hash e) acc k)) ->
  P (confirm_blocks c clock height entries acc).
Proof.
  revert acc. induction entries as [|[n e] entries IH]; intros acc Ha Hstep; simpl; [done|].
  case_match; bools; [done|]. apply IH.
  - apply foldl_inv; [done|]. intros x k Hk. apply (Hstep n e k x); [|lia|done].
    apply elem_of_cons. by left.
  - intros n' e' k acc' Hin. apply Hstep. apply elem_of_cons. by right.
Qed.

(** *** Legality of the state changes *)

Definition legal_states (s s' : gmap string LifecycleState) : Prop :=
  forall k, legal (s !! k) (s' !! k).

Lemma legal_refl a : legal a a.
Proof. destruct a as [[]|]; simpl; auto. Qed.
Lemma legal_trans a b c : legal a b -> legal b c -> legal a c.
Proof.
  destruct a as [[]|], b as [[]|], c as [[]|]; simpl; intuition discriminate.
Qed.
Lemma legal_states_insert s s' k st :
  legal_states s s' -> legal (s' !! k) (Some st) -> legal_states s (<[k := st]> s').
Proof.
  intros Hs Hk k'. destruct (decide (k = k')) as [->|Hne].
  - rewrite lookup_insert_eq. by eapply legal_trans.
  - by rewrite lookup_insert_ne.
Qed.
Lemma legal_to_retracted a : legal a (Some Retracted).
Proof. destruct a as [[]|]; simpl; auto. Qed.

Lemma retract_key_legal s0 c clock b h acc k :
  legal_states s0 acc.1 -> legal_states s0 (retract_key c clock b h acc k).1.
Proof.
  destruct acc as [s us]. simpl. intros Hs.
  apply legal_states_insert; [done|apply legal_to_retracted].
Qed.
Lemma confirm_key_legal s0 c clock b h acc k :
  legal_states s0 acc.1 -> legal_states s0 (confirm_key c clock b h acc k).1.
Proof.
  destruct acc as [s us]. simpl. intros Hs. case_bool_decide as Hk; [|done].
  apply legal_states_insert; [done|]. by rewrite Hk.
Qed.

(** updates that only retract confirm nothing *)
Lemma replay_retracted s us k :
  (forall u, u ∈ us -> fu_lifecycle_state u = Retracted) ->
  replay s us !! k = Some Confirmed -> s !! k = Some Confirmed.
Proof.
  unfold replay. change s with (engine_states {| engine_states := s |}) at 2.
  generalize {| engine_states := s |}. induction us as [|u us IH]; intros eng Hu; simpl; [done|].
  intros Hk. apply IH in Hk; [|intros v Hv; apply Hu, elem_of_cons; by right].
  simpl in Hk. rewrite Hu in Hk by (apply elem_of_cons; by left).
  destruct (decide (fu_event_key u = k)) as [<-|Hne];
    [by rewrite lookup_insert_eq in Hk|by rewrite lookup_insert_ne in Hk].
Qed.

(** *** The stages of [observe_event] *)

Lemma handle_conflict_ok t clock noticed ev t' b :
  handle_conflict t clock noticed ev = (t', b) ->
  replay (states t) (updates b) = states t' /\ legal_states (states t) (states t') /\
  chain t' = chain t /\ default_confirmation_depth t' = default_confirmation_depth t /\
  (forall u, u ∈ updates b -> fu_lifecycle_state u = Retracted).
Proof.
  unfold handle_conflict. intros Heq.
  assert (Hnil : forall u : FinalityUpdate, u ∈ updates FinalityBatch_default ->
    fu_lifecycle_state u = Retracted) by (intros u Hu; by apply not_elem_of_nil in Hu).
  assert (Hrefl : legal_states (states t) (states t)) by (intros k; apply legal_refl).
  destruct (detect_conflicting_hash _ _ _) as [h|]; [|by injection Heq as <- <-].
  set (affected := collect_affected_event_keys _ _) in *. destruct affected as [|k ks];
    [by injection Heq as <- <-|].
  set (n := ne_block_number ev) in *.
  pose proof (foldl_inv (fun acc => acc_ok (states t) acc /\ legal_states (states t) acc.1 /\
      (forall u, u ∈ acc.2 -> fu_lifecycle_state u = Retracted))
    (retract_key (chain t) clock n (Some h)) (k :: ks) (states t, [])) as Hinv.
  destruct (foldl _ _ _) as [s us] eqn:Hf in Heq. injection Heq as <- <-.
  unfold rollback_from_block in Hf. simpl chain in Hf. simpl states in Hf.
  destruct Hinv as (H1 & H2 & H3); [split_and!; [done|done|]| |].
  - intros u Hu. by apply not_elem_of_nil in Hu.
  - intros [s0 us0] k0 _ (Ha & Hl & Hu).
    split_and!; [by apply retract_key_ok|by apply retract_key_legal|].
    simpl. case_bool_decide; [done|]. intros u [Hin|Hin]%elem_of_app; [by apply Hu|].
    by apply list_elem_of_singleton in Hin as ->.
  - rewrite Hf in H1, H2, H3. done.
Qed.

Lemma mark_provisional_ok t clock ev us t' us' s0 :
  mark_provisional t clock ev us = (t', us') ->
  acc_ok s0 (states t, us) -> legal_states s0 (states t) ->
  acc_ok s0 (states t', us') /\ legal_states s0 (states t') /\ chain t' = chain t /\
  blocks t' = blocks t /\ head_block t' = head_block t /\
  default_confirmation_depth t' = default_confirmation_depth t /\
  is_Some (states t' !! ne_event_key ev) /\
  (forall k, is_Some (states t !! k) -> is_Some (states t' !! k)) /\
  (forall u, u ∈ us' -> u ∈ us \/ fu_lifecycle_state u = Provisional).
Proof.
  unfold mark_provisional, acc_ok. simpl. intros Heq Hok Hl.
  destruct (states t !! ne_event_key ev) as [st|] eqn:Hst; injection Heq as <- <-; simpl.
  - split_and!; try done. intros u Hu. by left.
  - split_and!; try done.
    + by rewrite replay_snoc, Hok.
    + apply legal_states_insert; [done|]. by rewrite Hst.
    + rewrite lookup_insert_eq. by eexists.
    + intros k [st Hk]. destruct (decide (ne_event_key ev = k)) as [<-|].
      * rewrite lookup_insert_eq. by eexists.
      * rewrite lookup_insert_ne by done. by eexists.
    + intros u [Hu|Hu]%elem_of_app; [by left|].
      apply list_elem_of_singleton in Hu as ->. by right.
Qed.

(** [observe_event] on the tracker's own chain, stage by stage *)
Lemma observe_event_stages t clock noticed ev :
  ne_chain ev = chain t ->
  exists t1 b t3 us s us',
    handle_conflict t clock noticed ev = (t1, b) /\
    mark_provisional (record_event t1 ev) clock ev (updates b) = (t3, us) /\
    confirm_blocks (chain t3) clock (sat_sub (head_block t3) (confirmation_depth_for t ev))
      (btree_entries (blocks t3)) (states t3, us) = (s, us') /\
    observe_event t clock noticed ev =
      (set_states t3 s, {| updates := us'; reorg_notice := reorg_notice b |}).
Proof.
  intros Hc. unfold observe_event. rewrite bool_decide_eq_true_2 by done. simpl.
  destruct (handle_conflict t clock noticed ev) as [t1 b] eqn:H1.
  destruct (mark_provisional _ _ _ _) as [t3 us] eqn:H2.
  destruct (handle_conflict_ok _ _ _ _ _ _ H1) as (_ & _ & _ & Hd & _).
  assert (default_confirmation_depth t3 = default_confirmation_depth t) as Hd3.
  { rewrite <- Hd. unfold mark_provisional in H2. case_match; by injection H2 as <- _. }
  assert (confirmation_depth_for t3 ev = confirmation_depth_for t ev) as Hcd
    by (unfold confirmation_depth_for; by rewrite Hd3).
  rewrite Hcd. destruct (confirm_blocks _ _ _ _ _) as [s us'] eqn:H3.
  by exists t1, b, t3, us, s, us'.
Qed.

Lemma confirm_blocks_ok s0 c clock height entries acc :
  acc_ok s0 acc -> legal_states s0 acc.1 ->
  acc_ok s0 (confirm_blocks c clock height entries acc) /\
  legal_states s0 (confirm_blocks c clock height entries acc).1.
Proof.
  intros Hok Hl. apply (confirm_blocks_inv (fun acc => acc_ok s0 acc /\ legal_states s0 acc.1));
    [done|]. intros n e k acc' _ _ _ [Ha Hl'].
  split; [by apply confirm_key_ok|by apply confirm_key_legal].
Qed.

Lemma observe_event_ok t clock noticed ev t' b :
  observe_event t clock noticed ev = (t', b) ->
  replay (states t) (updates b) = states t' /\ legal_states (states t) (states t').
Proof.
  intros Heq. destruct (decide (ne_chain ev = chain t)) as [Hc|Hc].
  - destruct (observe_event_stages t clock noticed ev Hc)
      as (t1 & b1 & t3 & us & s & us' & H1 & H2 & H3 & H4).
    rewrite H4 in Heq. injection Heq as <- <-.
    apply handle_conflict_ok in H1 as (Hr & Hl & _).
    apply (mark_provisional_ok _ _ _ _ _ _ (states t)) in H2 as (Hr2 & Hl2 & _); [|done..].
    destruct (confirm_blocks_ok (states t) (chain t3) clock
      (sat_sub (head_block t3) (confirmation_depth_for t ev))
      (btree_entries (blocks t3)) (states t3, us) Hr2 Hl2) as [Hr3 Hl3].
    rewrite H3 in Hr3, Hl3. done.
  - unfold observe_event in Heq. rewrite bool_decide_eq_false_2 in Heq by done.
    injection Heq as <- <-. split; [done|]. intros k. apply legal_refl.
Qed.
Lemma apply_reorg_notice_ok t clock n t' us :
  apply_reorg_notice t clock n = (t', us) ->
  replay (states t) us = states t' /\ legal_states (states t) (states t').
Proof.
  unfold apply_reorg_notice. case_bool_decide; simpl; intros Heq.
  - pose proof (foldl_inv (fun acc => acc_ok (states t) acc /\ legal_states (states t) acc.1)
      (retract_key (chain t) clock (orphaned_from_block n) None)
      (affected_event_keys n) (states t, [])) as Hinv.
    destruct (foldl _ _ _) as [s us0]. injection Heq as <- <-.
    apply Hinv; [split; [done|intros k; apply legal_refl]|].
    intros x k _ [Ha Hl]. split; [by apply retract_key_ok|by apply retract_key_legal].
  - injection Heq as <- <-. split; [done|]. intros k. apply legal_refl.
Qed.
Lemma tracker_step_ok t clock i t' us :
  tracker_step t clock i = (t', us) ->
  replay (states t) us = states t' /\ legal_states (states t) (states t').
Proof.
  destruct i as [noticed ev|n]; simpl.
  - destruct (observe_event t clock noticed ev) as [t1 b] eqn:Ho.
    intros [= <- <-]. by eapply observe_event_ok.
  - apply apply_reorg_notice_ok.
Qed.

(** *** The block index *)

Lemma elem_of_affected t from k :
  k ∈ collect_affected_event_keys t from <->
  exists n e, blocks t !! n = Some e /\ from <= n /\ k ∈ event_keys e.
Proof.
  unfold collect_affected_event_keys. rewrite list_elem_of_bind. split.
  - intros ([n e] & Hk & Hin). apply list_elem_of_filter in Hin as [Hn Hin].
    apply elem_of_btree_entries in Hin. by exists n, e.
  - intros (n & e & Hn & Hle & Hk). exists (n, e). split; [done|].
    apply list_elem_of_filter. split; [done|]. by apply elem_of_btree_entries.
Qed.
Lemma rollback_lookup t from n e :
  blocks (rollback_from_block t from) !! n = Some e <-> blocks t !! n = Some e /\ n < from.
Proof. simpl. by rewrite map_lookup_filter_Some. Qed.

Lemma rollback_inv t from : tracker_inv t -> tracker_inv (rollback_from_block t from).
Proof.
  intros (H1 & _ & H3 & H4).
  destruct (last_key_spec (filter (fun kv : Z * BlockEntry => kv.1 < from) (blocks t))) as [Hl1 Hl2].
  split_and!; simpl.
  - intros n e Hn. specialize (Hl1 n e Hn). apply map_lookup_filter_Some in Hn as [Hn _].
    destruct (H1 n e Hn). lia.
  - destruct Hl2 as [[Hl2 Hl3]|Hl2]; [left|right]; done.
  - intros n e k Hn. apply map_lookup_filter_Some in Hn as [Hn _]. by eapply H3.
  - intros n e Hn. apply map_lookup_filter_Some in Hn as [Hn _]. by eapply H4.
Qed.
Lemma legal_is_Some s s' k : legal_states s s' -> is_Some (s !! k) -> is_Some (s' !! k).
Proof.
  intros Hl [st Hs]. specialize (Hl k). rewrite Hs in Hl.
  destruct (s' !! k); [by eexists|]. by destruct st.
Qed.
Lemma set_states_inv t s : tracker_inv t -> legal_states (states t) s -> tracker_inv (set_states t s).
Proof.
  intros (H1 & H2 & H3 & H4) Hl. split_and!; simpl; [done..| |done].
  intros n e k Hn Hk. eapply legal_is_Some; [done|]. by eapply H3.
Qed.

Lemma handle_conflict_blocks t clock noticed ev t1 b :
  handle_conflict t clock noticed ev = (t1, b) ->
  blocks t1 = blocks t /\ head_block t1 = head_block t /\
    detect_conflicting_hash t (ne_block_number ev) (ne_block_hash ev) = None \/
  blocks t1 = blocks (rollback_from_block t (ne_block_number ev)) /\
    head_block t1 = head_block (rollback_from_block t (ne_block_number ev)).
Proof.
  unfold handle_conflict. destruct (detect_conflicting_hash _ _ _) as [h|].
  - destruct (collect_affected_event_keys _ _) as [|k0 ks]; [intros [= <- <-]; by right|].
    destruct (foldl _ _ _) as [s us]. intros [= <- <-]. by right.
  - intros [= <- <-]. by left.
Qed.
Lemma handle_conflict_inv t clock noticed ev t1 b :
  handle_conflict t clock noticed ev = (t1, b) -> tracker_inv t -> tracker_inv t1.
Proof.
  intros Heq Hi. pose proof (handle_conflict_ok _ _ _ _ _ _ Heq) as (_ & Hl & _).
  assert (Hrec : forall t0, tracker_inv t0 -> blocks t1 = blocks t0 -> head_block t1 = head_block t0 ->
            states t0 = states t -> tracker_inv t1).
  { intros t0 (H1 & H2 & H3 & H4) Hb Hh Hs. unfold tracker_inv. rewrite Hb, Hh.
    split_and!; [done..| |done].
    intros n e k Hn Hk. eapply legal_is_Some; [done|]. rewrite <- Hs. by eapply H3. }
  destruct (handle_conflict_blocks _ _ _ _ _ _ Heq) as [(Hb & Hh & _)|[Hb Hh]].
  - by apply (Hrec t).
  - apply (Hrec (rollback_from_block t (ne_block_number ev))); [by apply rollback_inv|done..].
Qed.

Lemma record_event_lookup t ev n e :
  blocks (record_event t ev) !! n = Some e ->
  n <> ne_block_number ev /\ blocks t !! n = Some e \/
  n = ne_block_number ev /\
    forall k, k ∈ event_keys e <->
      k = ne_event_key ev \/ exists e0, blocks t !! n = Some e0 /\ k ∈ event_keys e0.
Proof.
  unfold record_event. simpl. intros Hn.
  destruct (decide (ne_block_number ev = n)) as [<-|Hne].
  - rewrite lookup_insert_eq in Hn. injection Hn as <-. right. split; [done|].
    intros k. simpl.
    destruct (blocks t !! ne_block_number ev) as [e0|] eqn:He0; simpl.
    + destruct (bool_decide_reflect (ne_event_key ev ∈ event_keys e0)) as [Hin|Hin].
      * split; [intros Hk; right; by exists e0|].
        intros [->|(e1 & [= <-] & Hk)]; done.
      * rewrite elem_of_app, list_elem_of_singleton. split.
        -- intros [Hk| ->]; [right; by exists e0|by left].
        -- intros [->|(e1 & [= <-] & Hk)]; [by right|by left].
    + split.
      * intros Hk%list_elem_of_singleton. by left.
      * intros [->|(e1 & ? & _)]; [by apply list_elem_of_singleton|done].
  - rewrite lookup_insert_ne in Hn by done. by left.
Qed.

Lemma mark_provisional_frame t clock ev us t' us' :
  mark_provisional t clock ev us = (t', us') ->
  chain t' = chain t /\ blocks t' = blocks t /\ head_block t' = head_block t /\
  states t' = states t /\ us' = us /\ is_Some (states t !! ne_event_key ev) \/
  chain t' = chain t /\ blocks t' = blocks t /\ head_block t' = head_block t /\
  states t !! ne_event_key ev = None /\
  states t' = <[ne_event_key ev := Provisional]> (states t).
Proof.
  unfold mark_provisional. destruct (states t !! ne_event_key ev) as [st|] eqn:Hst;
    intros [= <- <-]; [left|right]; by split_and!.
Qed.

Lemma observed_inv t1 clock ev us t3 us3 :
  0 <= ne_block_number ev -> tracker_inv t1 ->
  mark_provisional (record_event t1 ev) clock ev us = (t3, us3) -> tracker_inv t3.
Proof.
  intros Hn (H1 & H2 & H3 & H4) Hm.
  assert (Hst : forall k, k = ne_event_key ev \/ is_Some (states t1 !! k) -> is_Some (states t3 !! k)).
  { intros k Hk. apply mark_provisional_frame in Hm
      as [(_ & _ & _ & -> & _ & Hev)|(_ & _ & _ & _ & ->)]; [by destruct Hk as [->|]|].
    destruct (decide (ne_event_key ev = k)) as [->|Hne]; [by rewrite lookup_insert_eq|].
    rewrite lookup_insert_ne by done. by destruct Hk as [->|]. }
  assert (blocks t3 = blocks (record_event t1 ev) /\
    head_block t3 = Z.max (head_block t1) (ne_block_number ev)) as [Hb Hh]
    by (apply mark_provisional_frame in Hm; intuition).
  unfold tracker_inv. rewrite Hb, Hh. split_and!.
  - intros n e [[_ He]|[-> _]]%record_event_lookup; [destruct (H1 n e He)|]; lia.
  - right. unfold record_event. simpl.
    destruct (Z.max_spec (head_block t1) (ne_block_number ev)) as [[Hlt ->]|[Hle ->]];
      [by rewrite lookup_insert_eq|].
    destruct (decide (ne_block_number ev = head_block t1)) as [->|Hne]; [by rewrite lookup_insert_eq|].
    rewrite lookup_insert_ne by done. destruct H2 as [[_ H2]|H2]; [lia|done].
  - intros n e k He Hk. apply Hst. apply record_event_lookup in He as [[_ He]|[-> He]].
    + right. by eapply H3.
    + apply He in Hk as [Hk|(e0 & He0 & Hk)]; [by left|right; by eapply H3].
  - intros n e [[_ He]|[-> He]]%record_event_lookup; [by eapply H4|].
    intros Hnil. specialize (He (ne_event_key ev)). rewrite Hnil in He.
    assert (ne_event_key ev ∈ []) as Hin by (apply He; by left). by apply not_elem_of_nil in Hin.
Qed.

Definition input_ok (i : input) : Prop :=
  match i with Observe _ ev => 0 <= ne_block_number ev | Reorg _ => True end.

Lemma tracker_step_inv t clock i :
  input_ok i -> tracker_inv t -> tracker_inv (tracker_step t clock i).1.
Proof.
  intros Hi Hinv. destruct i as [noticed ev|n]; simpl in *.
  - destruct (decide (ne_chain ev = chain t)) as [Hc|Hc].
    + destruct (observe_event_stages t clock noticed ev Hc)
        as (t1 & b1 & t3 & us & s & us' & H1 & H2 & H3 & ->). simpl.
      apply set_states_inv.
      * eapply observed_inv; [done| |done]. by eapply handle_conflict_inv.
      * pose proof (confirm_blocks_inv (fun acc => legal_states (states t3) acc.1) (chain t3) clock
          (sat_sub (head_block t3) (confirmation_depth_for t ev)) (btree_entries (blocks t3))
          (states t3, us)) as Hl.
        rewrite H3 in Hl. apply Hl; [intros k; apply legal_refl|].
        intros n e k acc _ _ _. apply confirm_key_legal.
    + unfold observe_event. by rewrite bool_decide_eq_false_2.
  - destruct (apply_reorg_notice t clock n) as [t' us] eqn:Ha.
    pose proof (apply_reorg_notice_ok _ _ _ _ _ Ha) as [_ Hl]. simpl.
    unfold apply_reorg_notice in Ha. case_bool_decide; simpl in Ha; [|by injection Ha as <- <-].
    destruct (foldl _ _ _) as [s us0]. injection Ha as <- <-.
    apply set_states_inv; [by apply rollback_inv|done].
Qed.

(** *** Confirmation *)

Lemma confirm_key_lookup c clock b h acc k k' st :
  (confirm_key c clock b h acc k).1 !! k' = Some st ->
  acc.1 !! k' = Some st \/
  k' = k /\ st = Confirmed /\ acc.1 !! k' = Some Provisional.
Proof.
  destruct acc as [s us]. simpl. case_bool_decide as Hk; [|by left]. simpl.
  destruct (decide (k = k')) as [<-|Hne]; [|rewrite lookup_insert_ne by done; by left].
  rewrite lookup_insert_eq. intros [= <-]. by right.
Qed.
Lemma confirm_key_not_provisional c clock b h acc k k' :
  k' = k \/ acc.1 !! k' <> Some Provisional ->
  (confirm_key c clock b h acc k).1 !! k' <> Some Provisional.
Proof.
  intros Hor Hk'. pose proof (confirm_key_lookup _ _ _ _ _ _ _ _ Hk') as Hl.
  destruct Hl as [Hl|(_ & ? & _)]; [|done]. destruct Hor as [->|Hor]; [|done].
  destruct acc as [s us]. simpl in *. rewrite bool_decide_eq_true_2 in Hk' by done.
  simpl in Hk'. by rewrite lookup_insert_eq in Hk'.
Qed.
Lemma confirm_keys_not_provisional c clock b h keys acc k :
  k ∈ keys \/ acc.1 !! k <> Some Provisional ->
  (foldl (confirm_key c clock b h) acc keys).1 !! k <> Some Provisional.
Proof.
  revert acc. induction keys as [|k0 keys IH]; intros acc Hor; simpl.
  - destruct Hor as [Hk|Hk]; [by apply not_elem_of_nil in Hk|done].
  - apply IH. destruct Hor as [[Hk|Hk]%elem_of_cons|Hk]; [right|by left|right];
      apply confirm_key_not_provisional; [by left|by right].
Qed.
Lemma confirm_blocks_not_provisional c clock height entries acc n e k :
  sorted_by key_le entries -> (n, e) ∈ entries -> n <= height -> k ∈ event_keys e ->
  (confirm_blocks c clock height entries acc).1 !! k <> Some Provisional.
Proof.
  revert acc. induction entries as [|[n0 e0] entries IH]; intros acc Hs Hin Hn Hk;
    [by apply not_elem_of_nil in Hin|].
  inversion Hs as [|? ? Hs' Hle]; subst. simpl.
  apply elem_of_cons in Hin as [[= <- <-]|Hin].
  - assert (height <? n = false) as -> by lia.
    apply (confirm_blocks_inv (fun acc => acc.1 !! k <> Some Provisional)).
    + apply confirm_keys_not_provisional. by left.
    + intros n' e' k' acc' _ _ _ Ha. apply confirm_key_not_provisional. by right.
  - apply list.Forall_forall with (x := (n, e)) in Hle; [|done]. unfold key_le in Hle. simpl in Hle.
    assert (height <? n0 = false) as -> by lia. by apply IH.
Qed.

(** what [observe_event] leaves in the block index *)
Lemma observe_event_frame t clock noticed ev :
  ne_chain ev = chain t ->
  exists t1 b t3 us,
    handle_conflict t clock noticed ev = (t1, b) /\
    mark_provisional (record_event t1 ev) clock ev (updates b) = (t3, us) /\
    let r := observe_event t clock noticed ev in
    blocks r.1 = blocks (record_event t1 ev) /\ blocks t3 = blocks r.1 /\
    head_block r.1 = Z.max (head_block t1) (ne_block_number ev) /\
    head_block t3 = head_block r.1 /\
    reorg_notice r.2 = reorg_notice b /\
    (states r.1, updates r.2) =
      confirm_blocks (chain t3) clock (sat_sub (head_block r.1) (confirmation_depth_for t ev))
        (btree_entries (blocks r.1)) (states t3, us).
Proof.
  intros Hc. destruct (observe_event_stages t clock noticed ev Hc)
    as (t1 & b & t3 & us & s & us' & H1 & H2 & H3 & H4).
  exists t1, b, t3, us. rewrite H4. simpl.
  assert (blocks t3 = blocks (record_event t1 ev) /\
    head_block t3 = Z.max (head_block t1) (ne_block_number ev)) as [Hb Hh]
    by (apply mark_provisional_frame in H2; intuition).
  rewrite H3. by split_and!.
Qed.

Lemma observe_event_legal_from t clock noticed ev t1 b t3 us t' bb :
  observe_event t clock noticed ev = (t', bb) ->
  handle_conflict t clock noticed ev = (t1, b) ->
  mark_provisional (record_event t1 ev) clock ev (updates b) = (t3, us) ->
  ne_chain ev = chain t -> legal_states (states t1) (states t').
Proof.
  intros Ho H1 H2 Hc. destruct (observe_event_stages t clock noticed ev Hc)
    as (u1 & b1 & u3 & us1 & s1 & us' & E1 & E2 & E3 & E4).
  rewrite Ho in E4. injection E4 as -> ->. rewrite H1 in E1. injection E1 as <- <-.
  rewrite H2 in E2. injection E2 as <- <-. simpl.
  assert (Hp : legal_states (states t1) (states t3)).
  { apply mark_provisional_frame in H2
      as [(_ & _ & _ & -> & _)|(_ & _ & _ & Hnone & ->)]; [intros k; apply legal_refl|].
    apply legal_states_insert; [intros k; apply legal_refl|]. by rewrite Hnone. }
  pose proof (confirm_blocks_inv (fun acc => legal_states (states t1) acc.1) (chain t3) clock
    (sat_sub (head_block t3) (confirmation_depth_for t ev)) (btree_entries (blocks t3))
    (states t3, us)) as Hl.
  rewrite E3 in Hl. apply Hl; [done|]. intros n e k acc _ _ _. apply confirm_key_legal.
Qed.
Lemma legal_retracted s s' k :
  legal_states s s' -> s !! k = Some Retracted -> s' !! k = Some Retracted.
Proof.
  intros Hl Hs. specialize (Hl k). rewrite Hs in Hl.
  destruct (s' !! k) as [st|]; simpl in Hl; [by subst|done].
Qed.
Lemma retract_keys_states c clock b h keys acc k :
  (foldl (retract_key c clock b h) acc keys).1 !! k = Some Retracted <->
  k ∈ keys \/ acc.1 !! k = Some Retracted.
Proof.
  revert acc. induction keys as [|k0 keys IH]; intros [s us]; simpl.
  - split; [by right|]. intros [Hk|Hk]; [by apply not_elem_of_nil in Hk|done].
  - rewrite IH. simpl. rewrite lookup_insert, elem_of_cons. case_decide; naive_solver.
Qed.
(** recording, marking and confirming retract nothing *)
Lemma observe_event_retracts_nothing t clock noticed ev t1 b k :
  ne_chain ev = chain t -> handle_conflict t clock noticed ev = (t1, b) ->
  states (observe_event t clock noticed ev).1 !! k = Some Retracted ->
  states t1 !! k = Some Retracted.
Proof.
  intros Hc H1. destruct (observe_event_frame t clock noticed ev Hc)
    as (u1 & b1 & t3 & us & E1 & E2 & _ & _ & _ & _ & _ & Heq).
  rewrite H1 in E1. injection E1 as <- <-. set (r := observe_event t clock noticed ev) in *.
  assert (Hs : states r.1 = (states r.1, updates r.2).1) by done. rewrite Hs, Heq.
  apply (confirm_blocks_inv (fun acc => acc.1 !! k = Some Retracted ->
    states t1 !! k = Some Retracted)).
  - simpl. apply mark_provisional_frame in E2 as [(_ & _ & _ & -> & _)|(_ & _ & _ & _ & ->)];
      [done|]. simpl. rewrite lookup_insert. by case_decide.
  - intros n e k' acc _ _ _ Ha Hk. apply confirm_key_lookup in Hk as [Hk|(_ & ? & _)]; [|done].
    by apply Ha.
Qed.
Lemma handle_conflict_reorg t clock noticed ev h t1 b :
  let n := ne_block_number ev in
  detect_conflicting_hash t n (ne_block_hash ev) = Some h ->
  handle_conflict t clock noticed ev = (t1, b) ->
  collect_affected_event_keys t n <> [] ->
  (forall k, states t1 !! k = Some Retracted <->
     k ∈ collect_affected_event_keys t n \/ states t !! k = Some Retracted) /\
  reorg_notice b = Some {| rn_chain := chain t; orphaned_from_block := n;
    common_ancestor_block := sat_sub n 1;
    affected_event_keys := collect_affected_event_keys t n; noticed_at := noticed |} /\
  blocks t1 = filter (fun kv => kv.1 < n) (blocks t) /\
  head_block t1 = last_key (filter (fun kv => kv.1 < n) (blocks t)).
Proof.
  intros n Hd. unfold handle_conflict. fold n. rewrite Hd.
  destruct (collect_affected_event_keys t n) as [|k0 ks] eqn:Hk; [done|]. intros Heq _.
  set (keys := k0 :: ks) in *.
  pose proof (fun k => retract_keys_states (chain t) clock n (Some h) keys (states t, []) k) as Hr.
  unfold rollback_from_block in Heq. simpl chain in Heq. simpl states in Heq.
  destruct (foldl _ _ _) as [s us]. injection Heq as <- <-. simpl in *.
  split_and!; [|done..]. intros k. apply Hr.
Qed.

(** *** What is recorded nowhere is not confirmed *)

(** the key is in no block of the tracker *)
Definition unrecorded (t : ChainFinalityTracker) (k : string) : Prop :=
  forall n e, blocks t !! n = Some e -> k ∉ event_keys e.

(** a state that an observation made Confirmed is that of a recorded key *)
Lemma confirmed_is_recorded t clock noticed ev k :
  ne_chain ev = chain t ->
  let t' := (observe_event t clock noticed ev).1 in
  states t' !! k = Some Confirmed -> states t !! k <> Some Confirmed ->
  exists n e, blocks t' !! n = Some e /\
    n <= sat_sub (head_block t') (confirmation_depth_for t ev) /\ k ∈ event_keys e.
Proof.
  intros Hc t' Hk Hold. destruct (observe_event_frame t clock noticed ev Hc)
    as (t1 & b & t3 & us & H1 & H2 & _ & _ & _ & _ & _ & Heq). fold t' in Heq.
  set (height := sat_sub _ _) in *.
  change (states t') with ((states t', updates (observe_event t clock noticed ev).2).1) in Hk.
  rewrite Heq in Hk.
  apply (confirm_blocks_inv (fun acc => acc.1 !! k = Some Confirmed -> exists n e,
    blocks t' !! n = Some e /\ n <= height /\ k ∈ event_keys e)) in Hk; [done| |].
  - simpl. intros H3. exfalso. apply Hold.
    apply handle_conflict_ok in H1 as (Hr & _ & _ & _ & Hret).
    assert (H3' : states t1 !! k = Some Confirmed).
    { apply mark_provisional_frame in H2 as [(_ & _ & _ & H2 & _)|(_ & _ & _ & _ & H2)];
        rewrite H2 in H3; [done|]. simpl in H3.
      rewrite lookup_insert in H3. by case_decide. }
    rewrite <- Hr in H3'. by apply replay_retracted in H3'.
  - intros n e k' acc Hn Hle Hk' Hacc Hconf.
    apply confirm_key_lookup in Hconf as [Hconf|(-> & _ & _)]; [by apply Hacc|].
    exists n, e. split; [by apply elem_of_btree_entries|done].
Qed.
(** an observation keeps a block, creates or extends that of its event, or
    drops one *)
Lemma observed_blocks t clock noticed ev n e k :
  ne_chain ev = chain t ->
  blocks (observe_event t clock noticed ev).1 !! n = Some e -> k ∈ event_keys e ->
  n = ne_block_number ev /\ k = ne_event_key ev \/
  exists e0, blocks t !! n = Some e0 /\ k ∈ event_keys e0.
Proof.
  intros Hc Hn Hk. destruct (observe_event_frame t clock noticed ev Hc)
    as (t1 & b & t3 & us & H1 & _ & Hb & _). rewrite Hb in Hn.
  assert (Hold : forall e0, blocks t1 !! n = Some e0 -> blocks t !! n = Some e0).
  { intros e0 He0. apply handle_conflict_blocks in H1 as [(H1 & _)|(H1 & _)]; rewrite H1 in He0; [done|].
    by apply rollback_lookup in He0 as [? _]. }
  apply record_event_lookup in Hn as [[_ Hn]|[-> Hn]].
  - right. exists e. by split; [apply Hold|].
  - apply Hn in Hk as [Hk|(e0 & He0 & Hk)]; [by left|]. right. exists e0. by split; [apply Hold|].
Qed.
Lemma retract_keys_confirmed c clock b h keys acc k :
  (foldl (retract_key c clock b h) acc keys).1 !! k = Some Confirmed ->
  acc.1 !! k = Some Confirmed.
Proof.
  revert acc. induction keys as [|k0 keys IH]; intros [s us]; simpl; [done|].
  intros Hk. apply IH in Hk. simpl in Hk. rewrite lookup_insert in Hk. by case_decide.
Qed.
(** a notice drops blocks and retracts *)
Lemma notice_frame t clock n k :
  let t' := (apply_reorg_notice t clock n).1 in
  (forall m e, blocks t' !! m = Some e -> blocks t !! m = Some e) /\
  (states t' !! k = Some Confirmed -> states t !! k = Some Confirmed).
Proof.
  unfold apply_reorg_notice. case_bool_decide; simpl; [|done].
  pose proof (retract_keys_confirmed (chain (rollback_from_block t (orphaned_from_block n))) clock
    (orphaned_from_block n) None (affected_event_keys n) (states t, []) k) as Hr.
  change (states (rollback_from_block t (orphaned_from_block n))) with (states t).
  destruct (foldl _ _ _) as [s us]. simpl in *. split; [|done].
  by intros m e [Hm _]%map_lookup_filter_Some.
Qed.
(** a key that is recorded nowhere, is not confirmed and is not observed again
    stays so over any run *)
Lemma unrecorded_never_confirmed t ins k :
  unrecorded t k -> states t !! k <> Some Confirmed ->
  Forall (fun ci => forall noticed ev, ci.2 = Observe noticed ev -> ne_event_key ev <> k) ins ->
  states (tracker_run t ins).1 !! k <> Some Confirmed.
Proof.
  intros Hu Hs Hins. revert t Hu Hs.
  induction Hins as [|[clock i] ins Hi Hins IH]; intros t Hu Hs; simpl; [done|].
  assert (unrecorded (tracker_step t clock i).1 k /\
    states (tracker_step t clock i).1 !! k <> Some Confirmed) as [Hu' Hs'].
  { destruct i as [noticed ev|n]; simpl.
    - pose proof (confirmed_is_recorded t clock noticed ev k) as Hrec.
      pose proof (fun m e => observed_blocks t clock noticed ev m e k) as Hobs.
      specialize (Hi noticed ev eq_refl).
      destruct (decide (ne_chain ev = chain t)) as [Hc|Hc].
      + destruct (observe_event t clock noticed ev) as [t' b]. simpl in *.
        assert (Hu' : unrecorded t' k).
        { intros m e Hm Hk. destruct (Hobs m e Hc Hm Hk) as [[_ ->]|(e0 & He0 & Hk0)]; [done|].
          by apply (Hu m e0). }
        split; [done|]. intros Hk. destruct (Hrec Hc Hk Hs) as (m & e & Hm & _ & Hke).
        by apply (Hu' m e).
      + unfold observe_event. by rewrite bool_decide_eq_false_2.
    - destruct (notice_frame t clock n k) as [Hb Hst]. split; [|by intros Hk; apply Hs, Hst].
      intros m e Hm. apply (Hu m e). by apply Hb. }
  destruct (tracker_step t clock i) as [t1 us]. specialize (IH t1 Hu' Hs').
  by destruct (tracker_run t1 ins).
Qed.

End finality.

Section claims.
Context `{Chrono} `{SerdeJson}.

(** C8: replaying the updates a tracker emits, in order, on the states it
    started from gives exactly the states it ends with: a consumer that only
    sees the updates ([InMemoryFinalityEngine]) agrees with the tracker after
    any sequence of events and reorg notices. *)
Theorem replay_reconstructs_states (t : ChainFinalityTracker) ins :
  replay (states t) (tracker_run t ins).2 = states (tracker_run t ins).1.
Proof.
  revert t. induction ins as [|[clock i] ins IH]; intros t; simpl; [done|].
  destruct (tracker_step t clock i) as [t1 us] eqn:Hs.
  apply tracker_step_ok in Hs as [Hr _]. specialize (IH t1).
  destruct (tracker_run t1 ins) as [t2 us2]. simpl in *.
  by rewrite replay_app, Hr.
Qed.

(** C38: the lifecycle of an event key only moves forward: over any run a
    retracted key stays retracted, a confirmed one is never provisional again
    and no key is forgotten. *)
Theorem lifecycle_is_legal (t : ChainFinalityTracker) ins k :
  legal (states t !! k) (states (tracker_run t ins).1 !! k).
Proof.
  revert t. induction ins as [|[clock i] ins IH]; intros t; simpl; [apply legal_refl|].
  destruct (tracker_step t clock i) as [t1 us] eqn:Hs.
  apply tracker_step_ok in Hs as [_ Hl]. specialize (IH t1).
  destruct (tracker_run t1 ins) as [t2 us2]. simpl in *. by eapply legal_trans.
Qed.

(** A tracker that starts empty keeps its index well formed: the head is
    the highest recorded block, no block is empty and every recorded event has
    a lifecycle state. *)
Theorem tracker_index_invariant c depth (ins : list ((nat -> DateTime) * input)) :
  Forall (fun ci => input_ok ci.2) ins -> tracker_inv (tracker_run (tracker_new c depth) ins).1.
Proof.
  intros Hok.
  assert (Hi : tracker_inv (tracker_new c depth)).
  { split_and!; simpl; [done|by left|done..]. }
  revert Hi. generalize (tracker_new c depth).
  induction Hok as [|[clock i] ins Hi0 Hok IH]; intros t Hi; simpl; [done|].
  pose proof (tracker_step_inv t clock i Hi0 Hi) as Hi1.
  destruct (tracker_step t clock i) as [t1 us]. specialize (IH t1 Hi1).
  by destruct (tracker_run t1 ins).
Qed.

(** An observation confirms exactly the provisional events that are deep
    enough: afterwards no event recorded at or below
    [head - depth] is provisional, and an event that this observation confirmed
    is recorded at or below that height. *)
Theorem observe_confirms_by_depth (t : ChainFinalityTracker) clock noticed ev k :
  ne_chain ev = chain t ->
  let t' := (observe_event t clock noticed ev).1 in
  let height := sat_sub (head_block t') (confirmation_depth_for t ev) in
  (forall n e, blocks t' !! n = Some e -> n <= height -> k ∈ event_keys e ->
     states t' !! k <> Some Provisional) /\
  (states t' !! k = Some Confirmed -> states t !! k <> Some Confirmed ->
     exists n e, blocks t' !! n = Some e /\ n <= height /\ k ∈ event_keys e).
Proof.
  intros Hc t' height. destruct (observe_event_frame t clock noticed ev Hc)
    as (t1 & b & t3 & us & H1 & H2 & _ & _ & _ & _ & _ & Heq). fold t' in Heq. fold height in Heq.
  assert (Hs : states t' = (confirm_blocks (chain t3) clock height (btree_entries (blocks t'))
    (states t3, us)).1) by (by rewrite <- Heq). split.
  - intros n e Hn Hle Hk. rewrite Hs.
    eapply confirm_blocks_not_provisional; [apply btree_entries_sorted| |done..].
    by apply elem_of_btree_entries.
  - by apply confirmed_is_recorded.
Qed.

(** C7: an event that carries a different hash for a recorded block rolls the
    chain back: the notice lists the keys recorded at or above the block and no
    other, those are the only events that become retracted, lower blocks stay
    recorded as they were, the block is recorded again with the new hash and
    this event alone, blocks above it are dropped and the head returns to it. *)
Theorem conflicting_hash_rolls_back (t : ChainFinalityTracker) clock noticed ev e0 h0 h1 :
  tracker_inv t -> ne_chain ev = chain t ->
  blocks t !! ne_block_number ev = Some e0 -> block_hash e0 = Some h0 ->
  ne_block_hash ev = Some h1 -> h0 <> h1 ->
  let n := ne_block_number ev in
  let r := observe_event t clock noticed ev in
  let from_n k := exists m e, blocks t !! m = Some e /\ n <= m /\ k ∈ event_keys e in
  (exists keys, (forall k, k ∈ keys <-> from_n k) /\
     reorg_notice r.2 = Some {| rn_chain := chain t; orphaned_from_block := n;
       common_ancestor_block := sat_sub n 1; affected_event_keys := keys;
       noticed_at := noticed |}) /\
  (forall k, states r.1 !! k = Some Retracted <->
     from_n k \/ states t !! k = Some Retracted) /\
  (forall m, blocks r.1 !! m =
     if m =? n then Some {| block_hash := Some h1; event_keys := [ne_event_key ev] |}
     else if m <? n then blocks t !! m else None) /\
  head_block r.1 = n.
Proof.
  intros Hi Hc He0 Hh0 Hh1 Hne n r from_n.
  destruct (observe_event_frame t clock noticed ev Hc)
    as (t1 & b & t3 & us & H1 & H2 & Hb & _ & Hh & _ & Hn & _). fold r in Hb, Hh, Hn.
  pose proof (observe_event_retracts_nothing t clock noticed ev t1 b) as Hret. fold r in Hret.
  destruct (observe_event t clock noticed ev) as [t' bb] eqn:Ho.
  assert (Hlegal : legal_states (states t1) (states t')).
  { eapply (observe_event_legal_from t); [exact Ho|done..]. }
  assert (Hdet : detect_conflicting_hash t n (ne_block_hash ev) = Some h1).
  { unfold detect_conflicting_hash, n. rewrite He0. simpl. rewrite Hh0, Hh1. simpl.
    by rewrite bool_decide_eq_false_2. }
  destruct (handle_conflict_reorg t clock noticed ev h1 t1 b Hdet H1) as (Ha & Hr & Hb1 & Hh1').
  { intros Hnil. destruct Hi as (_ & _ & _ & Hi). specialize (Hi _ _ He0).
    destruct (event_keys e0) as [|k ks] eqn:Hks; [done|].
    assert (k ∈ []) as Hin; [|by apply not_elem_of_nil in Hin].
    rewrite <- Hnil. apply elem_of_affected. exists n, e0. rewrite Hks.
    split_and!; [done|done|]. apply elem_of_cons. by left. }
  fold n in Ha, Hb1, Hh1'. setoid_rewrite elem_of_affected in Ha. split_and!.
  - exists (collect_affected_event_keys t n). split; [apply elem_of_affected|by rewrite Hn].
  - intros k. specialize (Ha k). split.
    + intros Hk. by apply Ha, Hret.
    + intros Hk. apply legal_retracted with (states t1); [done|]. by apply Ha.
  - intros m. rewrite Hb. unfold record_event. simpl. rewrite Hb1. fold n.
    assert (Hnone : filter (fun kv : Z * BlockEntry => kv.1 < n) (blocks t) !! n = None).
    { apply map_lookup_filter_None. right. simpl. intros x _. lia. }
    rewrite Hnone. simpl. rewrite Hh1, lookup_insert.
    destruct (m =? n) eqn:Hm; bools; [subst; by rewrite decide_True|].
    rewrite decide_False by lia. rewrite map_lookup_filter. simpl.
    destruct (blocks t !! m) as [e|]; simpl; destruct (m <? n) eqn:Hlt; bools; try done;
      case_guard; try done; simpl in *; lia.
  - rewrite Hh, Hh1'. fold n.
    destruct (last_key_spec (filter (fun kv : Z * BlockEntry => kv.1 < n) (blocks t)))
      as [_ [[_ ->]|[x Hx]]].
    + destruct Hi as (Hi & _). specialize (Hi _ _ He0). fold n in Hi. lia.
    + apply map_lookup_filter_Some in Hx as [_ Hx]. simpl in Hx. lia.
Qed.

End claims.

(** ** Concrete runs *)
Section examples.
#[local] Existing Instance chrono_Z.
#[local] Existing Instance serde_json_tree.

Definition sample_event (key : string) (block : Z) (hash : string) (needs : bool) (depth : Z)
  : NormalizedEvent :=
  {| ne_event_id := key; ne_event_key := key; ne_event_type := OracleUpdate;
     ne_tenant_id := None; ne_chain := Ethereum; ne_chain_slug := "ethereum";
     ne_protocol := "aave"; ne_protocol_category := Lending; ne_chain_id := Some 1;
     ne_tx_hash := "0xabc"; ne_block_number := block; ne_block_hash := Some hash;
     ne_parent_hash := None; ne_tx_index := None; ne_log_index := None; ne_status := Observed;
     ne_lifecycle_state := Provisional; ne_requires_confirmation := needs;
     ne_confirmation_depth := depth; ne_ingest_latency_ms := None;
     ne_observed_at := at_ns 0; ne_oracle_price := None; ne_reference_price := None;
     ne_metadata := ∅ |}.
Definition sample_clock (i : nat) : DateTime := at_ns (Z.of_nat i).
Definition sample_inputs : list ((nat -> DateTime) * input) :=
  [(sample_clock, Observe (at_ns 5) (sample_event "a" 100 "h100" false 0));
   (sample_clock, Observe (at_ns 6) (sample_event "b" 101 "h101" false 0))].
Definition sample_tracker : ChainFinalityTracker :=
  (tracker_run (tracker_new Ethereum 2) sample_inputs).1.

(** The depth of an event is not its own: "a" asks for twelve confirmations,
    and one later block whose event asks for a single one confirms it. *)
Example own_confirmation_depth_not_honoured :
  let ins := [(sample_clock, Observe (at_ns 5) (sample_event "a" 100 "h100" true 12));
              (sample_clock, Observe (at_ns 6) (sample_event "b" 101 "h101" true 1))] in
  states (tracker_run (tracker_new Ethereum 12) ins).1 !! "a"%string = Some Confirmed.
Proof. reflexivity. Qed.

Lemma tracker_index_invariant_witness : tracker_inv sample_tracker.
Proof.
  apply tracker_index_invariant. repeat constructor; simpl; lia.
Defined.
Lemma observe_confirms_by_depth_witness :
  let ev := sample_event "c" 102 "h102" false 0 in
  let t' := (observe_event sample_tracker sample_clock (at_ns 9) ev).1 in
  (forall n e, blocks t' !! n = Some e -> n <= sat_sub (head_block t') 2 ->
     "a"%string ∈ event_keys e -> states t' !! "a"%string <> Some Provisional) /\
  (states t' !! "a"%string = Some Confirmed ->
   states sample_tracker !! "a"%string <> Some Confirmed ->
     exists n e, blocks t' !! n = Some e /\ n <= sat_sub (head_block t') 2 /\
       "a"%string ∈ event_keys e).
Proof.
  intros ev. by apply (observe_confirms_by_depth sample_tracker sample_clock (at_ns 9) ev "a").
Defined.
Lemma conflicting_hash_rolls_back_witness :
  let ev := sample_event "c" 101 "other" false 0 in
  let r := observe_event sample_tracker sample_clock (at_ns 9) ev in
  head_block r.1 = 101 /\ states r.1 !! "b"%string = Some Retracted /\
  states r.1 !! "a"%string <> Some Retracted /\ is_Some (reorg_notice r.2).
Proof.
  intros ev r.
  assert (Hi : tracker_inv sample_tracker)
    by (apply tracker_index_invariant; repeat constructor; simpl; lia).
  destruct (conflicting_hash_rolls_back sample_tracker sample_clock (at_ns 9) ev
    {| block_hash := Some "h101"%string; event_keys := ["b"%string] |} "h101" "other"
    Hi eq_refl ltac:(reflexivity) eq_refl eq_refl ltac:(done)) as ((keys & _ & H1) & H2 & _ & H3).
  split; [exact H3|split; [|split]].
  - apply (H2 "b"%string). left. exists 101, {| block_hash := Some "h101"%string; event_keys := ["b"%string] |}.
    split; [reflexivity|split; [reflexivity|by apply list_elem_of_singleton]].
  - discriminate.
  - unfold r. rewrite H1. by eexists.
Defined.
End examples.
