(* ===== verification/FieldMapping.v ===== *)
(** * Field mapping ([crates/event-schema/src/field_mapping.rs])

    The mapping from source payload fields to the canonical message fields:
    the per-parser default tables, the override of a stream configuration, the
    small JSONPath evaluator and [apply_mappings].  The derived codec of
    [FieldMapping], the Unicode upper-casing of the standard library and
    [f64::powi], whose precision the standard library leaves open, are
    interfaces. *)
From Stdlib Require Import Ascii.
From S2P Require Import Prelude F64 Text Numbers Ports.

Inductive CanonicalField :=
  | MarketKey | Price | Timestamp | SourceId | EventType | ChainId | BlockNumber | TxHash
  | ProtocolId | ChainSlug | MarketId | TvlUsd | LoanAmountUsd | ProfitUsd | TokenAddress.
Inductive FieldTransform :=
  | Identity | ToF64 | ToU64 | SymbolToMarketKey | ScalePrice | ParseTsMs | ParseTsS
  | ParseTsIso8601 | SqrtRatioToPrice.
#[global] Instance CanonicalField_eq_dec : EqDecision CanonicalField.
Proof. solve_decision. Defined.

Record FieldMapping := {
  source_field : string;
  canonical_field : CanonicalField;
  transform : FieldTransform;
  fm_description : option string
}.
Definition fm (s : string) (c : CanonicalField) (t : FieldTransform) (d : string) : FieldMapping :=
  {| source_field := s; canonical_field := c; transform := t; fm_description := Some d |}.

(** [f64::powi] *)
Class Powi := { powi : f64 -> Z -> f64 }.
(** the Unicode [str::to_uppercase], the ASCII one on ASCII text *)
Definition is_ascii (s : string) : Prop :=
  Forall (fun c => (nat_of_ascii c < 128)%nat) (String.list_ascii_of_string s).
Class Unicode := {
  to_uppercase : string -> string;
  to_uppercase_ascii : forall s, is_ascii s -> to_uppercase s = to_ascii_uppercase s
}.
(** the derived codec of [Vec<FieldMapping>] *)
Class FieldCodec `{SerdeJson} := {
  mappings_from_value : Value -> option (list FieldMapping);
  mappings_to_value : list FieldMapping -> Value;
  mappings_roundtrip : forall ms, mappings_from_value (mappings_to_value ms) = Some ms
}.

Definition default_mappings_for_parser (parser_name : string) : list FieldMapping :=
  if bool_decide (parser_name = "binance_miniticker_v1") then
     [ fm "$.c" Price ToF64 "Close price (string float)";
       fm "$.s" MarketKey SymbolToMarketKey "Symbol → market key";
       fm "$.E" Timestamp ParseTsMs "Event time (epoch ms)" ]
  else
  if bool_decide (parser_name = "coinbase_ticker_v1") then
     [ fm "$.price" Price ToF64 "Last trade price";
       fm "$.product_id" MarketKey SymbolToMarketKey "Product ID → market key";
       fm "$.time" Timestamp ParseTsIso8601 "Event time (ISO 8601)" ]
  else
  if bool_decide (parser_name = "kraken_ticker_v2") then
     [ fm "$.data[0].last" Price ToF64 "Last trade price";
       fm "$.data[0].symbol" MarketKey SymbolToMarketKey "Symbol → market key" ]
  else
  if bool_decide (parser_name = "okx_tickers_v5") then
     [ fm "$.data[0].last" Price ToF64 "Last price (string float)";
       fm "$.data[0].instId" MarketKey SymbolToMarketKey "Instrument ID → market key";
       fm "$.data[0].ts" Timestamp ParseTsMs "Event time (epoch ms)" ]
  else
  if bool_decide (parser_name = "bybit_tickers_v5") then
     [ fm "$.data.lastPrice" Price ToF64 "Last price";
       fm "$.data.symbol" MarketKey SymbolToMarketKey "Symbol → market key";
       fm "$.ts" Timestamp ParseTsMs "Event time (epoch ms)" ]
  else
  if bool_decide (parser_name = "gemini_marketdata_v1") then
     [ fm "$.price" Price ToF64 "Trade price";
       fm "$.timestampms" Timestamp ParseTsMs "Event time (epoch ms)" ]
  else
  if bool_decide (parser_name = "chainlink_answer_updated_v1") then
     [ fm "$.answer" Price ScalePrice "Oracle answer ÷ 10^8 → price";
       fm "$.updatedAt" Timestamp ParseTsS "Update time (epoch sec)" ]
  else
  if bool_decide (parser_name = "chainlink_data_streams_v3") then
     [ fm "$.benchmark_price" Price ScalePrice "Benchmark price integer ÷ 10^8 → price";
       fm "$.market_key" MarketKey Identity "Normalized market key when present in payload";
       fm "$.observations_timestamp" Timestamp ParseTsS "Observation time (epoch sec)" ]
  else
  if bool_decide (parser_name = "pyth_hermes_v2") || bool_decide (parser_name = "pyth_price_update_v1") then
     [ fm "$.ema_price.price" Price ScalePrice "EMA price mantissa scaled by sibling expo";
       fm "$.metadata.symbol" MarketKey SymbolToMarketKey "Pyth symbol → market key";
       fm "$.ema_price.publish_time" Timestamp ParseTsS "EMA publish time (epoch sec)" ]
  else
  if bool_decide (parser_name = "uniswap_v2_swap_price_v1") then
     [ fm "$.amount0In" Price ToF64 "Derived swap price from amounts + decimals";
       fm "$.block.timestamp" Timestamp ParseTsS "Block timestamp (epoch sec)";
       fm "$.transactionHash" TxHash Identity "Transaction hash";
       fm "$.blockNumber" BlockNumber ToU64 "Block number" ]
  else
  if bool_decide (parser_name = "uniswap_v3_swap_price_v1") then
     [ fm "$.sqrtPriceX96" Price SqrtRatioToPrice "sqrtPriceX96 → price";
       fm "$.block.timestamp" Timestamp ParseTsS "Block timestamp (epoch sec)";
       fm "$.transactionHash" TxHash Identity "Transaction hash";
       fm "$.blockNumber" BlockNumber ToU64 "Block number" ]
  else
  if bool_decide (parser_name = "protocol_tvl_v1") then
     [ fm "$.tvl_usd" TvlUsd ToF64 "Protocol TVL in USD";
       fm "$.protocol_id" ProtocolId Identity "Protocol identifier";
       fm "$.chain_slug" ChainSlug Identity "Chain slug";
       fm "$.market_id" MarketId Identity "Market identifier";
       fm "$.block_number" BlockNumber ToU64 "Block number" ]
  else
  if bool_decide (parser_name = "protocol_pause_v1") then
     [ fm "$.protocol_id" ProtocolId Identity "Protocol identifier";
       fm "$.chain_slug" ChainSlug Identity "Chain slug" ]
  else
  if bool_decide (parser_name = "evm_block_v1") then
     [ fm "$.timestamp" Timestamp ParseTsS "Block timestamp (epoch sec)";
       fm "$.number" BlockNumber ToU64 "Block number" ]
  else
  if bool_decide (parser_name = "evm_log_v1") then
     [ fm "$.blockNumber" BlockNumber ToU64 "Block number";
       fm "$.transactionHash" TxHash Identity "Transaction hash";
       fm "$.block.timestamp" Timestamp ParseTsS "Block timestamp" ]
  else [].

(** ** Strings *)

(** [s.trim_end_matches(c)] *)
Fixpoint drop_while_eq (c : ascii) (s : string) : string :=
  match s with
  | String a s' => if bool_decide (a = c) then drop_while_eq c s' else s
  | EmptyString => EmptyString
  end.
Definition trim_end_matches (c : ascii) (s : string) : string :=
  String.rev (drop_while_eq c (String.rev s)).
(** [s.replace([...], "")] for a set of characters *)
Fixpoint remove_chars (cs : list ascii) (s : string) : string :=
  match s with
  | EmptyString => EmptyString
  | String a s => if bool_decide (a ∈ cs) then remove_chars cs s else String a (remove_chars cs s)
  end.

Definition known_symbols : list (string * string) :=
  [ ("USDCUSDT", "USDC/USD"); ("USDCUSD", "USDC/USD"); ("USDTUSDC", "USDT/USD");
    ("USDTUSD", "USDT/USD"); ("DAIUSDT", "DAI/USD"); ("DAIUSD", "DAI/USD") ].

Definition symbol_to_market_key `{Unicode} (symbol : string) : option string :=
  let normalized := to_uppercase (trim (default symbol (last (split_on "." symbol)))) in
  let s := remove_chars ["-"%char; "/"%char] normalized in
  match find_map (fun p => if bool_decide (p.1 = s) then Some p.2 else None) known_symbols with
  | Some mk => Some mk
  | None => if contains normalized "/" then Some normalized else None
  end.

(** ** Configuration and payload *)
Section mapping.
Context `{Chrono} `{SerdeJson} `{!FieldCodec} `{Unicode} `{Powi}.

Definition resolve_field_mappings (parser_name : string) (filter_config : option Value)
  : list FieldMapping :=
  match cfg ← filter_config; arr ← vget "field_mappings" cfg; mappings_from_value arr with
  | Some (m :: ms) => m :: ms
  | _ => default_mappings_for_parser parser_name
  end.

Record MappedFields := {
  mf_market_key : option string;
  mf_price : option f64;
  mf_timestamp : option DateTime;
  mf_chain_id : option Z;
  mf_block_number : option Z;
  mf_tx_hash : option string;
  mf_protocol_id : option string;
  mf_chain_slug : option string;
  mf_market_id : option string;
  mf_tvl_usd : option f64;
  mf_loan_amount_usd : option f64;
  mf_profit_usd : option f64;
  mf_token_address : option string;
  mf_extras : gmap string Value
}.
Definition MappedFields_default : MappedFields :=
  {| mf_market_key := None; mf_price := None; mf_timestamp := None; mf_chain_id := None;
     mf_block_number := None; mf_tx_hash := None; mf_protocol_id := None;
     mf_chain_slug := None; mf_market_id := None; mf_tvl_usd := None;
     mf_loan_amount_usd := None; mf_profit_usd := None; mf_token_address := None;
     mf_extras := ∅ |}.

Definition jsonpath_segment (current : Value) (segment : string) : option Value :=
  match split_once "[" segment with
  | Some (key, rest) =>
      v ← vget key current; i ← parse_usize (trim_end_matches "]" rest); vidx i v
  | None => vget segment current
  end.
Fixpoint jsonpath_segments (current : Value) (segments : list string) : option Value :=
  match segments with
  | [] => Some current
  | s :: ss => v ← jsonpath_segment current s; jsonpath_segments v ss
  end.
Definition eval_jsonpath (payload : Value) (path : string) : option Value :=
  if bool_decide (path = "$") then Some payload
  else p ← strip_prefix "$." path; jsonpath_segments payload (split_on "." p).

(** [a.or_else(|| b)] *)
Definition or_else {A} (a b : option A) : option A :=
  match a with Some x => Some x | None => b end.
(** [(x.is_finite() && x > 0.0).then_some(x)] *)
Definition positive_finite (x : f64) : option f64 :=
  if is_finite x && f64_lt f64_zero x then Some x else None.
Definition f64_ten : f64 := f64_of_Z 10.

Definition scale_price_from_mapping (payload : Value) (mapping : FieldMapping) (raw : Value)
    (fallback_decimals : Z) : option f64 :=
  raw_int ← or_else (f64_of_Z <$> as_i64 raw) (s ← as_str raw; parse_f64 s);
  match prefix ← strip_suffix ".price" (source_field mapping);
        v ← eval_jsonpath payload (prefix +:+ ".expo"); as_i64 v with
  | Some expo_value =>
      if (- 2 ^ 31 <=? expo_value) && (expo_value <? 2 ^ 31) then
        positive_finite (f64_mul raw_int (powi f64_ten expo_value))
      else None
  | None => positive_finite (f64_div raw_int (powi f64_ten fallback_decimals))
  end.

Definition parse_timestamp_from_mapping (raw : Value) (t : FieldTransform) : option DateTime :=
  let int := or_else (as_i64 raw) (s ← as_str raw; parse_i64 s) in
  match t with
  | ParseTsMs => int ≫= timestamp_millis_opt
  | ParseTsS => int ≫= timestamp_opt
  | ParseTsIso8601 => as_str raw ≫= parse_from_rfc3339
  | _ => None
  end.

(** [raw.as_f64().or_else(|| raw.as_str().and_then(|s| s.parse().ok()))] *)
Definition number_or_text (raw : Value) : option f64 :=
  or_else (as_f64 raw) (s ← as_str raw; parse_f64 s).

Definition price_from_mapping (payload raw : Value) (m : FieldMapping) (decimals : Z)
  : option f64 :=
  match transform m with
  | ToF64 => number_or_text raw
  | ScalePrice => scale_price_from_mapping payload m raw decimals
  | SqrtRatioToPrice =>
      (fun sqrt_price => powi (f64_div (f64_of_Z sqrt_price) (powi (f64_of_Z 2) 96)) 2)
        <$> or_else (s ← as_str raw; parse_u128 s) (as_u64 raw)
  | _ => None
  end.
Definition market_key_from_mapping (raw : Value) (m : FieldMapping) : string :=
  let sym := default (value_to_string raw) (as_str raw) in
  match transform m with
  | SymbolToMarketKey => default sym (symbol_to_market_key sym)
  | _ => sym
  end.

(** one arm of the loop over the mappings *)
Definition apply_mapping (payload : Value) (decimals : Z) (out : MappedFields) (m : FieldMapping)
  : MappedFields :=
  match eval_jsonpath payload (source_field m) with
  | None => out
  | Some raw =>
      let '{| mf_market_key := mk; mf_price := pr; mf_timestamp := ts; mf_chain_id := ci;
              mf_block_number := bn; mf_tx_hash := th; mf_protocol_id := pi;
              mf_chain_slug := cs; mf_market_id := mi; mf_tvl_usd := tv;
              mf_loan_amount_usd := la; mf_profit_usd := pu; mf_token_address := ta;
              mf_extras := ex |} := out in
      match canonical_field m with
      | Price => Build_MappedFields mk (or_else (price_from_mapping payload raw m decimals) pr)
                   ts ci bn th pi cs mi tv la pu ta ex
      | MarketKey => Build_MappedFields (Some (market_key_from_mapping raw m))
                   pr ts ci bn th pi cs mi tv la pu ta ex
      | Timestamp => Build_MappedFields mk pr (parse_timestamp_from_mapping raw (transform m))
                   ci bn th pi cs mi tv la pu ta ex
      | BlockNumber => Build_MappedFields mk pr ts ci
                   (or_else (as_u64 raw) (s ← as_str raw; parse_u64 s)) th pi cs mi tv la pu ta ex
      | TxHash => Build_MappedFields mk pr ts ci bn (as_str raw) pi cs mi tv la pu ta ex
      | ProtocolId => Build_MappedFields mk pr ts ci bn th (as_str raw) cs mi tv la pu ta ex
      | ChainSlug => Build_MappedFields mk pr ts ci bn th pi (as_str raw) mi tv la pu ta ex
      | MarketId => Build_MappedFields mk pr ts ci bn th pi cs (as_str raw) tv la pu ta ex
      | TvlUsd => Build_MappedFields mk pr ts ci bn th pi cs mi (number_or_text raw) la pu ta ex
      | LoanAmountUsd =>
          Build_MappedFields mk pr ts ci bn th pi cs mi tv (number_or_text raw) pu ta ex
      | ProfitUsd => Build_MappedFields mk pr ts ci bn th pi cs mi tv la (number_or_text raw) ta ex
      | TokenAddress => Build_MappedFields mk pr ts ci bn th pi cs mi tv la pu (as_str raw) ex
      | SourceId | EventType | ChainId => out
      end
  end.

Definition mapping_decimals (filter_config : option Value) : Z :=
  wrap_i32 (default 8 (c ← filter_config; v ← vget "decimals" c; as_u64 v)).
Definition apply_mappings (mappings : list FieldMapping) (payload : Value)
    (filter_config : option Value) : MappedFields :=
  foldl (apply_mapping payload (mapping_decimals filter_config)) MappedFields_default mappings.

End mapping.

(** ** Specifications and theorems *)

(** the canonical fields [apply_mappings] can fill, with a transform it acts on *)
Definition effective (m : FieldMapping) : bool :=
  match canonical_field m, transform m with
  | Price, (ToF64 | ScalePrice | SqrtRatioToPrice) => true
  | Timestamp, (ParseTsMs | ParseTsS | ParseTsIso8601) => true
  | MarketKey, (Identity | SymbolToMarketKey) => true
  | BlockNumber, ToU64 => true
  | TvlUsd, ToF64 => true
  | (TxHash | ProtocolId | ChainSlug | MarketId | TokenAddress), Identity => true
  | _, _ => false
  end.
(** a path of at least one non-empty segment below the root *)
Definition path_ok (p : string) : bool :=
  match strip_prefix "$." p with
  | Some p => forallb (fun s => negb (is_empty s)) (split_on "." p)
  | None => false
  end.
Definition table_ok (ms : list FieldMapping) : bool :=
  forallb (fun m => effective m && path_ok (source_field m)) ms
    && bool_decide (NoDup (canonical_field <$> ms)).

Section lemmas.
Context `{Chrono} `{SerdeJson} `{!FieldCodec} `{Unicode} `{Powi}.

(** what one mapping contributes to a field: [None] when it leaves it alone *)
Definition field_source {A} (f : CanonicalField) (get : Value -> FieldMapping -> option A)
    (payload : Value) (m : FieldMapping) : option A :=
  if bool_decide (canonical_field m = f) then
    raw ← eval_jsonpath payload (source_field m); get raw m
  else None.

Lemma last_omap_snoc {A B} (f : A -> option B) l x :
  last (omap f (l ++ [x])) = or_else (f x) (last (omap f l)).
Proof.
  rewrite omap_app. simpl. destruct (f x) as [y|]; simpl; [by rewrite last_snoc|].
  by rewrite app_nil_r.
Qed.

(** an accessor of [MappedFields] folded over the mappings *)
Lemma fold_last {A} (acc : MappedFields -> A) (src : FieldMapping -> option A) payload d ms :
  (forall out m, acc (apply_mapping payload d out m) = default (acc out) (src m)) ->
  acc (foldl (apply_mapping payload d) MappedFields_default ms) =
  default (acc MappedFields_default) (last (omap src ms)).
Proof.
  intros Hstep. induction ms as [|m ms IH] using rev_ind; [done|].
  rewrite foldl_snoc, Hstep, last_omap_snoc, IH. by destruct (src m).
Qed.

Lemma positive_finite_Some x y :
  positive_finite x = Some y -> y = x /\ is_finite x = true /\ f64_lt f64_zero x = true.
Proof. unfold positive_finite. case_match; intros [= <-]. by bools. Qed.

Lemma resolve_override p ms :
  ms <> [] ->
  resolve_field_mappings p (Some (VObj [("field_mappings", mappings_to_value ms)])) = ms.
Proof.
  intros Hne. unfold resolve_field_mappings, vget, VObj. simpl. rewrite as_object_VObject. simpl.
  rewrite lookup_insert_eq. simpl. rewrite mappings_roundtrip. by destruct ms.
Qed.

Lemma price_step payload d out m :
  mf_price (apply_mapping payload d out m) =
  or_else (field_source Price (fun raw m => price_from_mapping payload raw m d) payload m)
    (mf_price out).
Proof.
  unfold apply_mapping, field_source. destruct out.
  destruct (eval_jsonpath payload (source_field m)); simpl; [|by case_match].
  by destruct (canonical_field m).
Qed.
Lemma timestamp_step payload d out m :
  mf_timestamp (apply_mapping payload d out m) =
  default (mf_timestamp out)
    (field_source Timestamp (fun raw m => Some (parse_timestamp_from_mapping raw (transform m)))
       payload m).
Proof.
  unfold apply_mapping, field_source. destruct out.
  destruct (eval_jsonpath payload (source_field m)); simpl; [|by case_match].
  by destruct (canonical_field m).
Qed.
Lemma market_key_step payload d out m :
  mf_market_key (apply_mapping payload d out m) =
  or_else (field_source MarketKey (fun raw m => Some (market_key_from_mapping raw m)) payload m)
    (mf_market_key out).
Proof.
  unfold apply_mapping, field_source. destruct out.
  destruct (eval_jsonpath payload (source_field m)); simpl; [|by case_match].
  by destruct (canonical_field m).
Qed.

(** Each canonical field is decided by the last mapping that has a say: the
    price and the market key by the last mapping of that field that yields a
    value, the timestamp by the last timestamp mapping whose path resolves,
    even when its text does not parse (an earlier timestamp is then lost). *)
Theorem apply_mappings_last_wins ms payload cfg :
  let out := apply_mappings ms payload cfg in
  let d := mapping_decimals cfg in
  mf_price out =
    last (omap (field_source Price (fun raw m => price_from_mapping payload raw m d) payload) ms) /\
  mf_market_key out =
    last (omap (field_source MarketKey (fun raw m => Some (market_key_from_mapping raw m))
                  payload) ms) /\
  mf_timestamp out =
    default None
      (last (omap (field_source Timestamp
         (fun raw m => Some (parse_timestamp_from_mapping raw (transform m))) payload) ms)).
Proof.
  intros out d. subst out d. unfold apply_mappings. set (d := mapping_decimals cfg).
  split_and!.
  - induction ms as [|m ms IH] using rev_ind; [done|].
    by rewrite foldl_snoc, price_step, last_omap_snoc, IH.
  - induction ms as [|m ms IH] using rev_ind; [done|].
    by rewrite foldl_snoc, market_key_step, last_omap_snoc, IH.
  - apply (fold_last mf_timestamp). apply timestamp_step.
Qed.

(** A scaled price is finite and positive, whatever the payload and the
    exponent it carries. *)
Theorem scaled_price_positive payload m raw d p :
  scale_price_from_mapping payload m raw d = Some p ->
  is_finite p = true /\ f64_lt f64_zero p = true.
Proof.
  unfold scale_price_from_mapping. intros Hs.
  apply bind_Some in Hs as (x & _ & Hs). case_match; [case_match; [|done]|];
    by apply positive_finite_Some in Hs as (-> & ? & ?).
Qed.

(** A symbol is turned into a market key that contains a slash or not at
    all, and the key is one of the known pairs' or the upper-cased trimmed last
    dotted segment of the symbol. *)
Theorem symbol_market_key_spec s k :
  symbol_to_market_key s = Some k ->
  contains k "/" = true /\
  (k ∈ known_symbols.*2 \/
   k = to_uppercase (trim (default s (last (split_on "." s))))).
Proof.
  unfold symbol_to_market_key. set (n := to_uppercase _).
  destruct (find_map _ known_symbols) as [mk|] eqn:Hf.
  - intros [= <-]. assert (Hin : mk ∈ known_symbols.*2).
    { revert Hf. generalize known_symbols. intros l. induction l as [|[a b] l IH]; simpl; [done|].
      case_bool_decide; [intros [= ->]; left|]. intros Hf. right. by apply IH. }
    split; [|by left]. revert Hin. unfold known_symbols. simpl.
    rewrite !elem_of_cons, elem_of_nil. intros Hin. by destruct_or!; subst.
  - case_match eqn:Hc; [|done]. intros [= <-]. split; [done|by right].
Qed.
End lemmas.

(** Every built-in mapping of every parser has an effect: its path descends
    from the root, [apply_mappings] acts on its transform for its field, and
    no parser maps a field twice. *)
Theorem default_mappings_effective parser :
  table_ok (default_mappings_for_parser parser) = true.
Proof. unfold default_mappings_for_parser. repeat case_match; by vm_compute. Qed.

(** ** Concrete instances *)

(** repeated squaring, the algorithm of the compiler's run-time library *)
Fixpoint powi_loop (fuel : nat) (r a : f64) (b : Z) : f64 :=
  match fuel with
  | O => r
  | S fuel =>
      let r := if Z.odd b then f64_mul r a else r in
      let b := Z.quot b 2 in
      if b =? 0 then r else powi_loop fuel r (f64_mul a a) b
  end.
Definition powi_squaring : Powi :=
  {| powi := fun a b =>
       let r := powi_loop 32 (f64_of_Z 1) a b in
       if b <? 0 then f64_div (f64_of_Z 1) r else r |}.
Definition unicode_ascii : Unicode :=
  {| to_uppercase := to_ascii_uppercase; to_uppercase_ascii := fun s _ => eq_refl |}.

Definition canonical_names : list (CanonicalField * string) :=
  [ (MarketKey, "market_key"); (Price, "price"); (Timestamp, "timestamp");
    (SourceId, "source_id"); (EventType, "event_type"); (ChainId, "chain_id");
    (BlockNumber, "block_number"); (TxHash, "tx_hash"); (ProtocolId, "protocol_id");
    (ChainSlug, "chain_slug"); (MarketId, "market_id"); (TvlUsd, "tvl_usd");
    (LoanAmountUsd, "loan_amount_usd"); (ProfitUsd, "profit_usd");
    (TokenAddress, "token_address") ].
Definition transform_names : list (FieldTransform * string) :=
  [ (Identity, "identity"); (ToF64, "to_f64"); (ToU64, "to_u64");
    (SymbolToMarketKey, "symbol_to_market_key"); (ScalePrice, "scale_price");
    (ParseTsMs, "parse_ts_ms"); (ParseTsS, "parse_ts_s");
    (ParseTsIso8601, "parse_ts_iso8601"); (SqrtRatioToPrice, "sqrt_ratio_to_price") ].
#[global] Instance FieldTransform_eq_dec : EqDecision FieldTransform.
Proof. solve_decision. Defined.
Definition name_of {A} `{EqDecision A} (l : list (A * string)) (a : A) : string :=
  default "" (find_map (fun p => if bool_decide (p.1 = a) then Some p.2 else None) l).
Definition of_name {A} (l : list (A * string)) (s : string) : option A :=
  find_map (fun p => if bool_decide (p.2 = s) then Some p.1 else None) l.

Section examples.
#[local] Existing Instance chrono_Z.
#[local] Existing Instance serde_json_tree.
#[local] Existing Instance powi_squaring.
#[local] Existing Instance unicode_ascii.

Definition mapping_to_json (m : FieldMapping) : json :=
  VObj ([("source_field", JString (source_field m));
         ("canonical_field", JString (name_of canonical_names (canonical_field m)));
         ("transform", JString (name_of transform_names (transform m)))] ++
        match fm_description m with Some d => [("description", JString d)] | None => [] end).
Definition mapping_of_json (v : json) : option FieldMapping :=
  s ← get_str "source_field" v;
  c ← get_str "canonical_field" v ≫= of_name canonical_names;
  t ← get_str "transform" v ≫= of_name transform_names;
  Some {| source_field := s; canonical_field := c; transform := t;
          fm_description := get_str "description" v |}.
Lemma mapping_json_roundtrip m : mapping_of_json (mapping_to_json m) = Some m.
Proof. destruct m as [s [] [] [d|]]; reflexivity. Qed.
Definition mappings_of_json (v : json) : option (list FieldMapping) :=
  match v with JArray l => mapM mapping_of_json l | _ => None end.
Definition mappings_to_json (ms : list FieldMapping) : json := JArray (mapping_to_json <$> ms).
Lemma mappings_json_roundtrip ms : mappings_of_json (mappings_to_json ms) = Some ms.
Proof.
  unfold mappings_of_json, mappings_to_json. apply mapM_Some.
  induction ms as [|m ms IH]; simpl; constructor; [apply mapping_json_roundtrip|done].
Qed.
#[local] Instance field_codec_json : FieldCodec :=
  {| mappings_from_value := mappings_of_json; mappings_to_value := mappings_to_json;
     mappings_roundtrip := mappings_json_roundtrip |}.

Definition pyth_payload : Value :=
  VObj [("metadata", VObj [("symbol", JString "Crypto.USDC/USD")]);
        ("ema_price", VObj [("price", JString "99985000"); ("expo", JInt (-8));
                            ("publish_time", JInt 1710000000)])].
Example apply_pyth :
  let out := apply_mappings (default_mappings_for_parser "pyth_hermes_v2") pyth_payload None in
  mf_market_key out = Some "USDC/USD"%string /\
  mf_price out = Some (f64_lit 99985 100000) /\
  mf_timestamp out = Some (at_ns 1710000000000000000).
Proof. split_and!; reflexivity. Qed.
Example symbols_known :
  Forall (fun s => symbol_to_market_key s = Some "USDC/USD"%string)
    ["USDCUSDT"; "USDC-USDT"; "usdc/usdt"; "Crypto.USDC/USD"]%string.
Proof. repeat constructor. Qed.

Lemma scaled_price_positive_witness :
  is_finite (f64_lit 99985 100000) = true /\ f64_lt f64_zero (f64_lit 99985 100000) = true.
Proof.
  apply (scaled_price_positive pyth_payload
    (fm "$.ema_price.price" Price ScalePrice "") (VString "99985000") 8).
  reflexivity.
Defined.
Lemma symbol_market_key_spec_witness :
  contains "USDC/USD" "/" = true /\
  ("USDC/USD"%string ∈ known_symbols.*2 \/ "USDC/USD"%string = "USDC-USDT"%string).
Proof. exact (symbol_market_key_spec "USDC-USDT" "USDC/USD" eq_refl). Defined.
End examples.
