(* ===== verification/PatternCommon.v ===== *)
(** * Helpers shared by the patterns ([apps/detector/src/patterns/mod.rs])

    Reading the composite configuration of a tenant, the simulation metadata
    of an event, and the [_meta] object stamped on every snapshot.  The
    registry that dispatches events to the patterns is in [Registry]. *)
From S2P Require Import Prelude F64 Text Ports EventSchema.

Section common.
Context `{Chrono} `{SerdeJson}.

Definition extract_detection_config (config : Value) : Value :=
  default config (vget "detection_config" config).

Definition extract_bound_source_ids (config : Value) : option (gset string) :=
  b ← vget "source_bindings" config; arr ← as_array b;
  Some (list_to_set (omap (get_str "source_id")
    (filter (fun b => default true (get_bool "enabled" b) = true) arr))).

Definition VObjectOf (v : Value) : gmap string Value :=
  match as_object v with Some m => m | None => {["value"%string := v]} end.
Definition meta_of (snapshot : gmap string Value) : gmap string Value :=
  default ∅ (snapshot !! "_meta"%string ≫= as_object).
Definition append_snapshot_meta (event : UnifiedEvent) (data : Value) : Value :=
  let snapshot := VObjectOf data in
  let meta := meta_of snapshot in
  let meta := <["event_timestamp"%string := VString (to_rfc3339 (timestamp event))]> meta in
  let meta := match vget "simulation" (payload event) with
              | Some simulation => <["simulation"%string := simulation]> meta
              | None => meta
              end in
  VObject (<["_meta"%string := VObject meta]> (delete "_meta"%string snapshot)).

Definition simulation_metadata_from_event (event : UnifiedEvent) : bool * option string :=
  let simulation := vget "simulation" (payload event) ≫= as_object in
  let run_id := trimmed_nonempty
    (meta ← simulation;
     v ← match meta !! "run_id"%string with
         | Some v => Some v
         | None => meta !! "simulation_run_id"%string
         end;
     as_str v) in
  let is_simulated :=
    default false (meta ← simulation; v ← meta !! "is_simulated"%string; as_bool v)
    || default false (get_bool "is_simulated" (payload event))
    || bool_decide (is_Some run_id) in
  (is_simulated, run_id).

(** Source bindings as the patterns enforce them: an event passes when its
    tenant has no binding set, or an empty one, or one that holds its source. *)
Definition binding_allows (bindings : gmap string (gset string)) (event : UnifiedEvent) : bool :=
  match bindings !! tenant_id event with
  | Some bound => negb (negb (bool_decide (bound = ∅)) && negb (bool_decide (source_id event ∈ bound)))
  | None => true
  end.

(** ** Lemmas *)

Lemma run_id_simulated event r :
  (simulation_metadata_from_event event).2 = Some r ->
  (simulation_metadata_from_event event).1 = true /\ r <> "".
Proof.
  unfold simulation_metadata_from_event. simpl. intros Hr. split.
  - rewrite Hr. rewrite bool_decide_eq_true_2 by (by eexists). by rewrite !orb_true_r.
  - by eapply trimmed_nonempty_not_empty.
Qed.

Lemma append_snapshot_meta_get event data k :
  k <> "_meta"%string -> vget k (append_snapshot_meta event data) = VObjectOf data !! k.
Proof.
  intros Hk. unfold vget, append_snapshot_meta. rewrite as_object_VObject. simpl.
  by rewrite lookup_insert_ne, lookup_delete_ne.
Qed.

(** Stamping a snapshot keeps every field of the data and of an earlier
    [_meta], records the event's timestamp and, when the event was simulated,
    its simulation object. *)
Theorem snapshot_meta_spec event data :
  exists meta,
    vget "_meta" (append_snapshot_meta event data) = Some (VObject meta) /\
    meta !! "event_timestamp"%string = Some (VString (to_rfc3339 (timestamp event))) /\
    (forall sim, vget "simulation" (payload event) = Some sim ->
       meta !! "simulation"%string = Some sim) /\
    (forall k, k <> "event_timestamp"%string -> k <> "simulation"%string ->
       meta !! k = meta_of (VObjectOf data) !! k) /\
    (forall k, k <> "_meta"%string ->
       vget k (append_snapshot_meta event data) = VObjectOf data !! k).
Proof.
  unfold vget at 1, append_snapshot_meta at 1. rewrite as_object_VObject. simpl.
  rewrite lookup_insert_eq. eexists. split_and!; [done|..].
  - case_match; [rewrite lookup_insert_ne by done|]; by rewrite lookup_insert_eq.
  - intros sim ->. by rewrite lookup_insert_eq.
  - intros k Hk1 Hk2. case_match; [rewrite lookup_insert_ne by done|]; by rewrite lookup_insert_ne.
  - intros k Hk. by apply append_snapshot_meta_get.
Qed.

(** The sources a tenant's bindings let through: all of them when no
    binding is configured and also when every binding is disabled (the
    documentation of [extract_bound_source_ids] says such a set rejects every
    event); otherwise exactly the enabled ones. *)
Theorem binding_spec (event : UnifiedEvent) config bound :
  extract_bound_source_ids config = Some bound ->
  binding_allows {[ tenant_id event := bound ]} event = true <->
  bound = ∅ \/
  exists arr b, vget "source_bindings" config ≫= as_array = Some arr /\ b ∈ arr /\
    default true (get_bool "enabled" b) = true /\ get_str "source_id" b = Some (source_id event).
Proof.
  unfold extract_bound_source_ids, binding_allows. rewrite lookup_singleton_eq. intros Hb.
  apply bind_Some in Hb as (sb & Hsb & Hb). apply bind_Some in Hb as (arr & Harr & [= <-]).
  rewrite Hsb. simpl. rewrite Harr.
  set (bound := list_to_set _). rewrite negb_andb, !negb_involutive, orb_true_iff, !bool_decide_eq_true.
  assert (Hin : source_id event ∈ bound <-> exists arr0 b, Some arr = Some arr0 /\ b ∈ arr0 /\
    default true (get_bool "enabled" b) = true /\ get_str "source_id" b = Some (source_id event)).
  { unfold bound. rewrite elem_of_list_to_set, list_elem_of_omap. split.
    - intros (b & Hin & Hid). apply list_elem_of_filter in Hin as [He Hin]. by exists arr, b.
    - intros (arr0 & b & [= <-] & Hin & He & Hid). exists b. split; [|done].
      by apply list_elem_of_filter. }
  by rewrite Hin.
Qed.
End common.

Section examples.
#[local] Existing Instance chrono_Z.
#[local] Existing Instance serde_json_tree.

Definition sample_feed_event (source : string) : UnifiedEvent :=
  {| event_id := "e1"; tenant_id := "acme"; source_id := source; source_type := CexWebsocket;
     event_type := "quote"; timestamp := at_ns 1000000000; payload := VObj [];
     chain_id := None; block_number := None; tx_hash := None;
     market_key := Some "USDC/USD"%string; price := Some (f64_of_Z 1) |}.
Definition sample_bindings : Value :=
  VObj [("source_bindings",
         VArray [VObj [("source_id", VString "kraken"); ("enabled", VBool true)];
                 VObj [("source_id", VString "okx"); ("enabled", VBool false)]])].
Lemma binding_spec_witness :
  binding_allows {[ "acme"%string := {[ "kraken"%string ]} ]} (sample_feed_event "kraken") = true <->
  ({[ "kraken"%string ]} : gset string) = ∅ \/
  exists arr b, vget "source_bindings" sample_bindings ≫= as_array = Some arr /\ b ∈ arr /\
    default true (get_bool "enabled" b) = true /\ get_str "source_id" b = Some "kraken"%string.
Proof.
  exact (binding_spec (sample_feed_event "kraken") sample_bindings {[ "kraken"%string ]} eq_refl).
Defined.
End examples.
