(* ===== verification/RiskScorer.v ===== *)
(** * Deterministic risk scorer ([crates/risk-scorer/src/lib.rs])

    [score] adds the contributions of severity, triggered rules, divergence
    signals and trace enrichment, records each in the attribution, and bounds
    the total. *)
From S2P Require Import Prelude F64 Text Ports EventSchema.

Section scorer.
Context `{Chrono} `{SerdeJson}.

(** the three accumulators of the function *)
Record tally := { t_score : f64; t_rationale : list string; t_attribution : list Attribution }.
Definition add_points (t : tally) (points : Z) (why feat det : string) : tally :=
  {| t_score := f64_add (t_score t) (f64_of_Z points);
     t_rationale := t_rationale t ++ [why];
     t_attribution := t_attribution t ++
       [ {| feature := feat; contribution := f64_of_Z points; detail := det |} ] |}.

Definition score_severity (t : tally) (s : Severity) : tally :=
  match s with
  | Critical => add_points t 40 "Critical severity baseline +40" "severity_critical"
                  "Critical severity baseline"
  | High => add_points t 30 "High severity baseline +30" "severity_high" "High severity baseline"
  | Medium => add_points t 20 "Medium severity baseline +20" "severity_medium"
                "Medium severity baseline"
  | Low => add_points t 10 "Low severity baseline +10" "severity_low" "Low severity baseline"
  | Info => t
  end.
Definition score_rules (t : tally) (rules : list string) : tally :=
  match rules with
  | [] => t
  | _ => add_points t 20 "Triggered rules present +20" "triggered_rules"
           (fmt_Z (Z.of_nat (length rules)) +:+ " rule(s) triggered")
  end.
Definition score_signal (t : tally) (s : DetectionSignal) : tally :=
  if bool_decide (signal_type s = OracleDivergence) then
    add_points t 25 "Oracle divergence triggered +25" "oracle_divergence"
      (default ("divergence value: " +:+ fmt_fixed 4 (signal_value s)) (signal_label s))
  else t.
Definition has_flash_loan (r : DetectionResult) : bool :=
  default false (v ← oracle_context r !! "trace_summary"%string; get_bool "has_flash_loan" v).
Definition score_trace (t : tally) (r : DetectionResult) : tally :=
  if has_flash_loan r then
    add_points t 15 "Flash loan in trace summary +15" "trace_flash_loan"
      "trace enrichment indicates flash loan"
  else t.

Definition tally_of (r : DetectionResult) : tally :=
  let t := {| t_score := f64_zero; t_rationale := []; t_attribution := [] |} in
  let t := score_severity t (severity r) in
  let t := score_rules t (triggered_rule_ids r) in
  let t := foldl score_signal t (signals r) in
  score_trace t r.
Definition bounded_confidence (bounded_score : f64) : f64 :=
  f64_min (f64_add (f64_lit 6 10) (f64_div bounded_score (f64_of_Z 250))) (f64_lit 99 100).
Definition score (r : DetectionResult) : RiskScore :=
  let t := tally_of r in
  let bounded_score := f64_min (t_score t) (f64_of_Z 100) in
  {| EventSchema.score := bounded_score; confidence := bounded_confidence bounded_score;
     rationale := t_rationale t; attribution := t_attribution t |}.

(** ** Lemmas *)

(** a tally adds up: the score is the sum of the recorded contributions, each
    of them a positive number of points with its rationale line *)
Definition adds_up (t : tally) : Prop :=
  t_score t = f64_sum (contribution <$> t_attribution t) /\
  Forall (fun a => f64_nonneg (contribution a)) (t_attribution t) /\
  length (t_rationale t) = length (t_attribution t).

Lemma add_points_adds_up t n why feat det :
  0 <= n -> adds_up t -> adds_up (add_points t n why feat det).
Proof.
  intros Hn (H1 & H2 & H3). split_and!; simpl.
  - rewrite fmap_app, H1. unfold f64_sum. by rewrite foldl_app.
  - apply Forall_app. split; [done|]. repeat constructor. simpl. by apply f64_of_Z_nonneg.
  - rewrite !length_app, H3. done.
Qed.
Lemma tally_adds_up r : adds_up (tally_of r).
Proof.
  unfold tally_of.
  assert (H1 : adds_up {| t_score := f64_zero; t_rationale := []; t_attribution := [] |})
    by (split_and!; [done|constructor|done]).
  assert (H2 : forall t s, adds_up t -> adds_up (score_severity t s))
    by (intros t [] Ht; simpl; [done|by apply add_points_adds_up..]).
  assert (H3 : forall t l, adds_up t -> adds_up (score_rules t l))
    by (intros t [] Ht; simpl; [done|by apply add_points_adds_up]).
  assert (H4 : forall t s, adds_up t -> adds_up (score_signal t s))
    by (intros t s Ht; unfold score_signal; case_match; [by apply add_points_adds_up|done]).
  unfold score_trace. case_match; [apply add_points_adds_up; [done|]|];
    (apply foldl_inv; [by apply H3, H2|intros; by apply H4]).
Qed.

(** The attribution explains the score: the score is the sum of the
    attributed contributions, in order, capped at 100, with one rationale line
    per contribution. *)
Theorem score_explained r :
  EventSchema.score (score r) =
    f64_min (f64_sum (contribution <$> attribution (score r))) (f64_of_Z 100) /\
  length (rationale (score r)) = length (attribution (score r)).
Proof. destruct (tally_adds_up r) as (H1 & _ & H3). unfold score. simpl. by rewrite H1. Qed.

(** The score is between 0 and 100 and the confidence between 0 and 0.99,
    for any number of signals. *)
Theorem score_bounds r :
  f64_nonneg (EventSchema.score (score r)) /\
  f64_le (EventSchema.score (score r)) (f64_of_Z 100) = true /\
  f64_nonneg (confidence (score r)) /\
  f64_le (confidence (score r)) (f64_lit 99 100) = true.
Proof.
  destruct (tally_adds_up r) as (H1 & H2 & _).
  assert (Hs : f64_nonneg (f64_min (t_score (tally_of r)) (f64_of_Z 100))).
  { apply f64_min_ge; [|by vm_compute]. rewrite H1. apply f64_sum_nonneg.
    by apply Forall_fmap. }
  split_and!; simpl; [done|by apply f64_min_le_r| |by apply f64_min_le_r].
  apply f64_min_ge; [|by vm_compute]. apply f64_add_nonneg; [by vm_compute|].
  apply f64_div_nonneg; [done|by vm_compute|].
  eapply f64_nonneg_finite; [done|by apply f64_min_le_r|by vm_compute].
Qed.
End scorer.
