(* ===== verification/Persistence.v ===== *)
(** * Pattern state persistence ([crates/state-manager/src/persistence.rs])

    The rows of [pattern.pattern_state], whose primary key is
    [(tenant_id, pattern_id, state_key)], and the append-only
    [pattern.pattern_snapshots], as the statements of [load_pattern_state],
    [upsert_pattern_state] and [insert_pattern_snapshot] read and write them.
    [reachable] tells whether the database answers; a statement on an
    unreachable database is an [Err] and changes nothing.  The tables implement
    the [PatternStore] interface the detectors are written against.

    A pattern's [process_event] is a computation [ST (P * Db)].  [frame rows
    tenant s s'] says that between [s] and [s'] the configuration of the pattern
    stayed and that, of all rows of the pattern-state table, only those of the
    pattern and the tenant whose key is in [rows] may have changed.  The lemmas
    compose frames along binds and loops, whatever the outcome. *)
From S2P Require Import Prelude F64 Text Ports.

Section persistence.
Context `{Chrono} `{SerdeJson}.

Record PatternTables := {
  pattern_state : gmap (string * string * string) Value;
  pattern_snapshots : list PatternSnapshotInsert;
  reachable : bool
}.
Definition empty_tables : PatternTables :=
  {| pattern_state := ∅; pattern_snapshots := []; reachable := true |}.
Definition db_error : string := "connection closed".

Definition select_pattern_state (db : PatternTables) (tenant_id pattern_id state_key : string)
  : outcome (option Value) :=
  if reachable db then Ret (pattern_state db !! (tenant_id, pattern_id, state_key))
  else Err db_error.
Definition store_pattern_state (db : PatternTables) (tenant_id pattern_id state_key : string)
    (data : Value) : PatternTables * outcome unit :=
  if reachable db then
    ({| pattern_state := <[(tenant_id, pattern_id, state_key) := data]> (pattern_state db);
        pattern_snapshots := pattern_snapshots db; reachable := reachable db |}, Ret ())
  else (db, Err db_error).
Definition append_pattern_snapshot (db : PatternTables) (snapshot : PatternSnapshotInsert)
  : PatternTables * outcome unit :=
  if reachable db then
    ({| pattern_state := pattern_state db;
        pattern_snapshots := pattern_snapshots db ++ [snapshot]; reachable := reachable db |}, Ret ())
  else (db, Err db_error).

#[local] Obligation Tactic := idtac.
#[export] Program Instance tables_store : PatternStore :=
  {| Db := PatternTables;
     load_pattern_state := select_pattern_state;
     upsert_pattern_state := store_pattern_state;
     insert_pattern_snapshot := append_pattern_snapshot |}.
Next Obligation.
  intros db t p k v. unfold store_pattern_state, select_pattern_state.
  destruct (reachable db) eqn:Hr; simpl; [|done]. intros _. rewrite ?Hr. by rewrite lookup_insert_eq.
Qed.
Next Obligation.
  intros db t p k v t' p' k' Hne. unfold store_pattern_state, select_pattern_state.
  destruct (reachable db) eqn:Hr; simpl; rewrite ?Hr; [|done]. by rewrite lookup_insert_ne.
Qed.
Next Obligation.
  intros db t p k v. unfold store_pattern_state. by destruct (reachable db).
Qed.
Next Obligation.
  intros db s t p k. unfold append_pattern_snapshot, select_pattern_state.
  by destruct (reachable db) eqn:Hr; simpl; rewrite ?Hr.
Qed.

(** the snapshots are append-only *)
Lemma snapshots_append_only (db : PatternTables) s :
  exists l, pattern_snapshots (append_pattern_snapshot db s).1 = pattern_snapshots db ++ l.
Proof.
  unfold append_pattern_snapshot. destruct (reachable db); simpl;
    [by exists [s]|exists []; by rewrite app_nil_r].
Qed.
End persistence.

(** ** Frames *)

Section frame.
Context `{PatternStore} {P Conf : Type}.
Variables (conf : P -> Conf) (pid : string).
Notation state := (P * Db)%type.

Definition frame (rows : string -> Prop) (tenant : string) (s s' : state) : Prop :=
  conf s'.1 = conf s.1 /\
  forall t p k, ~ (t = tenant /\ p = pid /\ rows k) ->
    load_pattern_state s'.2 t p k = load_pattern_state s.2 t p k.

Lemma frame_refl rows tenant s : frame rows tenant s s.
Proof. done. Qed.
Lemma frame_trans rows tenant s1 s2 s3 :
  frame rows tenant s1 s2 -> frame rows tenant s2 s3 -> frame rows tenant s1 s3.
Proof.
  intros (C1 & L1) (C2 & L2). split; [congruence|]. intros t p k Hk. by rewrite L2, L1.
Qed.
Lemma frame_weaken (rows rows' : string -> Prop) tenant s s' :
  (forall k, rows k -> rows' k) -> frame rows tenant s s' -> frame rows' tenant s s'.
Proof.
  intros Hsub (HC & HL). split; [done|]. intros t p k Hk. apply HL.
  intros (-> & -> & Hr). apply Hk. auto.
Qed.
Lemma bind_frame {A B} rows tenant (m : ST state A) (f : A -> ST state B) s :
  frame rows tenant s (m s).1 ->
  (forall a s', m s = (s', Ret a) -> frame rows tenant s' (f a s').1) ->
  frame rows tenant s ((m ≫= f) s).1.
Proof.
  intros Hm Hf. apply (st_bind_inv (frame rows tenant s)); [done|]. intros a s' Ha.
  eapply frame_trans; [|by apply Hf]. by rewrite Ha in Hm.
Qed.
Lemma for_each_frame {A B} rows tenant (f : A -> B -> ST state A) l a s :
  (forall a x s, x ∈ l -> frame rows tenant s (f a x s).1) ->
  frame rows tenant s (for_each f l a s).1.
Proof.
  intros Hf. apply (for_each_inv (frame rows tenant s)); [done|]. intros a' x s' Hx Hs.
  eapply frame_trans; [exact Hs|by apply Hf].
Qed.
(** a snapshot and a state row, the way the patterns write them *)
Lemma write_frame tenant key snap (p : P) (db : Db) (o : outcome Value) :
  frame (eq key) tenant (p, db)
    (p, match o with
        | Ret v => (upsert_pattern_state (insert_pattern_snapshot db snap).1 tenant pid key v).1
        | _ => (insert_pattern_snapshot db snap).1
        end).
Proof.
  split; [done|]. intros t q k Hk. simpl. destruct o as [v|e|]; [|by rewrite load_snapshot..].
  rewrite load_upsert_other, load_snapshot; [done|]. intros [= -> -> ->]. by apply Hk.
Qed.

(** the database refused a write of the row *)
Definition refused (tenant key : string) : Prop :=
  exists db v, (upsert_pattern_state db tenant pid key v).2 <> Ret ().
(** after those two statements the row holds the value, or the write was refused
    and it holds what it held *)
Lemma write_row tenant key snap (db : Db) v :
  let db' := (upsert_pattern_state (insert_pattern_snapshot db snap).1 tenant pid key v).1 in
  load_pattern_state db' tenant pid key = Ret (Some v) \/
  refused tenant key /\
  load_pattern_state db' tenant pid key = load_pattern_state db tenant pid key.
Proof.
  intros db'. subst db'. set (db1 := (insert_pattern_snapshot db snap).1).
  destruct (upsert_pattern_state db1 tenant pid key v).2 as [[]|?|] eqn:Hu.
  { left. by apply load_upsert. }
  all: right; split; [exists db1, v; by rewrite Hu|];
    rewrite load_upsert_failed by (by rewrite Hu); apply load_snapshot.
Qed.
End frame.

(** The same without the configuration, over rows of any tenant and pattern: all
    that may have changed between two databases. *)
Section touched.
Context `{PatternStore} {P : Type}.
Notation state := (P * Db)%type.

Definition touched (rows : string -> string -> string -> Prop) (db db' : Db) : Prop :=
  forall t p k, ~ rows t p k -> load_pattern_state db' t p k = load_pattern_state db t p k.
Lemma touched_refl rows db : touched rows db db.
Proof. done. Qed.
Lemma touched_trans rows db1 db2 db3 : touched rows db1 db2 -> touched rows db2 db3 -> touched rows db1 db3.
Proof. intros Hab Hbc t p k Hk. by rewrite Hbc, Hab. Qed.
Lemma touched_weaken (rows rows' : string -> string -> string -> Prop) db db' :
  (forall t p k, rows t p k -> rows' t p k) -> touched rows db db' -> touched rows' db db'.
Proof. intros Hsub Ht t p k Hk. apply Ht. intros Hr. apply Hk. auto. Qed.
Lemma touched_upsert tenant pid key v db :
  touched (fun t p k => t = tenant /\ p = pid /\ k = key) db (upsert_pattern_state db tenant pid key v).1.
Proof. intros t p k Hk. apply load_upsert_other. intros [= -> -> ->]. by apply Hk. Qed.
Lemma touched_snapshot rows snap db : touched rows db (insert_pattern_snapshot db snap).1.
Proof. intros t p k _. apply load_snapshot. Qed.
Lemma bind_touched {A B} rows (m : ST state A) (f : A -> ST state B) s :
  touched rows s.2 (m s).1.2 ->
  (forall a s', m s = (s', Ret a) -> touched rows s'.2 (f a s').1.2) ->
  touched rows s.2 ((m ≫= f) s).1.2.
Proof.
  intros Hm Hf. apply (st_bind_inv (fun s' => touched rows s.2 s'.2)); [done|]. intros a s' Ha.
  eapply touched_trans; [|by apply Hf]. by rewrite Ha in Hm.
Qed.
Lemma first_some_touched {A B} rows (f : B -> ST state (option A)) l s :
  (forall x s, x ∈ l -> touched rows s.2 (f x s).1.2) -> touched rows s.2 (first_some f l s).1.2.
Proof.
  revert s. induction l as [|x l IH]; intros s Hf; [done|]. simpl. apply bind_touched.
  - apply Hf, elem_of_cons. by left.
  - intros [a|] s' _; [done|]. apply IH. intros y s1 Hy. apply Hf, elem_of_cons. by right.
Qed.
Lemma frame_touched {Conf} (conf : P -> Conf) pid rows tenant s s' :
  frame conf pid rows tenant s s' ->
  touched (fun t p k => t = tenant /\ p = pid /\ rows k) s.2 s'.2.
Proof. by intros [_ Hl]. Qed.
End touched.
