(* ===== verification/CachePrune.v ===== *)
(** * Bounded in-memory caches of the detectors
    ([prune_quote_cache] of depeg.rs, [prune_state_cache] of utilization_high.rs and tvl_drop.rs)

    The detectors keep per-key state in a hash map that is pruned at every
    event: entries without activity for the time to live go, the entry of the
    event stays, and when the map is still above its bound the entries with the
    oldest activity go.  The three functions differ in the key type, in what
    counts as activity and in the two bounds, which are parameters here. *)
From S2P Require Import Prelude Ports.

Section prune.
Context `{Chrono} `{HashOrder} {K : Type} `{Countable K} {V : Type}.
Variable last_activity : V -> option DateTime.

(** the age of an entry in [oldest_keys] *)
Definition entry_time (v : V) : DateTime := default MIN_UTC (last_activity v).
(** the closure of [retain] *)
Definition retained (cutoff : DateTime) (current : K) (kv : K * V) : bool :=
  bool_decide (kv.1 = current)
  || match last_activity kv.2 with Some t => dt_le cutoff t | None => false end.
Definition older_key (a b : K * DateTime) : bool := dt_le a.2 b.2.
Definition oldest_keys (cache : gmap K V) (current : K) : list (K * DateTime) :=
  sort_by older_key ((fun kv => (kv.1, entry_time kv.2)) <$>
    filter (fun kv => kv.1 <> current) (hash_entries cache)).
Definition prune_cache (max_entries : nat) (ttl_minutes : Z) (cache : gmap K V) (now : DateTime)
    (current : K) : outcome (gmap K V) :=
  cutoff ← sub_minutes now ttl_minutes;
  let cache := filter (fun kv => retained cutoff current kv = true) cache in
  if (size cache <=? max_entries)%nat then Ret cache
  else
    let remove_count := (size cache - max_entries)%nat in
    Ret (foldl (fun c kt => delete kt.1 c) cache (take remove_count (oldest_keys cache current))).

(** ** Lemmas *)

Lemma fold_delete_lookup (l : list (K * DateTime)) (c : gmap K V) k :
  foldl (fun c kt => delete kt.1 c) c l !! k = if bool_decide (k ∈ l.*1) then None else c !! k.
Proof.
  revert c. induction l as [|[k0 t] l IH]; intros c; simpl; [done|]. rewrite IH.
  destruct (decide (k = k0)) as [->|Hne].
  - rewrite lookup_delete_eq. rewrite (bool_decide_eq_true_2 (k0 ∈ k0 :: _)) by (apply elem_of_cons; by left).
    by case_match.
  - rewrite lookup_delete_ne by done. do 2 case_bool_decide; try done; exfalso.
    + by match goal with H : ¬ _ |- _ => apply H end; apply elem_of_cons; right.
    + match goal with H : k ∈ _ :: _ |- _ => apply elem_of_cons in H as [?|?] end; done.
Qed.
Lemma fold_delete_size (l : list (K * DateTime)) (c : gmap K V) :
  NoDup l.*1 -> (forall k, k ∈ l.*1 -> is_Some (c !! k)) ->
  size (foldl (fun c kt => delete kt.1 c) c l) = (size c - length l)%nat.
Proof.
  revert c. induction l as [|[k t] l IH]; intros c Hnd Hin; simpl; [lia|].
  simpl in Hnd. apply NoDup_cons in Hnd as [Hk Hnd]. rewrite IH; [|done|].
  - destruct (Hin k) as [v Hv]; [apply elem_of_cons; by left|].
    cbn [fst]. rewrite (fin_maps.map_size_delete_Some k c) by (by eexists).
    assert (size c <> 0)%nat; [|lia]. intros Hz. apply map_size_empty_inv in Hz. by rewrite Hz in Hv.
  - intros k' Hk'. rewrite lookup_delete_ne by (by intros ->).
    apply Hin. apply elem_of_cons. by right.
Qed.

Lemma older_key_order :
  (forall a b, older_key a b = true \/ older_key b a = true) /\
  (forall a b c, older_key a b = true -> older_key b c = true -> older_key a c = true).
Proof. unfold older_key, dt_le. split; intros; lia. Qed.
Lemma oldest_keys_perm cache current :
  (oldest_keys cache current).*1 ≡ₚ (filter (fun kv => kv.1 <> current) (hash_entries cache)).*1.
Proof.
  unfold oldest_keys. rewrite sort_by_perm. rewrite <- list_fmap_compose. done.
Qed.
Lemma oldest_keys_spec cache current k t :
  (k, t) ∈ oldest_keys cache current <->
  k <> current /\ exists m, cache !! k = Some m /\ t = entry_time m.
Proof.
  unfold oldest_keys. rewrite elem_of_sort_by, list_elem_of_fmap. split.
  - intros ([k' m] & [= -> ->] & Hin). apply list_elem_of_filter in Hin as [Hne Hin].
    apply elem_of_hash_entries in Hin. split; [done|]. by exists m.
  - intros (Hne & m & Hm & ->). exists (k, m). split; [done|]. apply list_elem_of_filter.
    split; [done|]. by apply elem_of_hash_entries.
Qed.
Lemma oldest_keys_nodup cache current : NoDup (oldest_keys cache current).*1.
Proof.
  rewrite oldest_keys_perm. eapply sublist_NoDup; [|apply fmap_sublist, sublist_filter].
  rewrite hash_entries_perm. apply NoDup_fst_map_to_list.
Qed.

Lemma length_oldest_keys (cache : gmap K V) current :
  (size cache - 1 <= length (oldest_keys cache current))%nat.
Proof.
  unfold oldest_keys. rewrite length_sort_by, length_fmap.
  assert (Hnd : NoDup (hash_entries cache).*1)
    by (rewrite hash_entries_perm; apply NoDup_fst_map_to_list).
  rewrite <- (length_hash_entries cache). revert Hnd.
  induction (hash_entries cache) as [|[k m] l IH]; intros Hnd; simpl; [lia|].
  simpl in Hnd. apply NoDup_cons in Hnd as [Hk Hnd]. specialize (IH Hnd).
  destruct (decide (k = current)) as [->|Hne].
  - rewrite filter_cons_False by (simpl; auto). rewrite filter_all; [lia|].
    intros [k' m'] Hin. simpl. intros ->. apply Hk. apply list_elem_of_fmap. by exists (current, m').
  - rewrite filter_cons_True by done. simpl. lia.
Qed.

(** evicting the oldest keys of an oversized cache *)
Lemma evict_spec (c : gmap K V) current n :
  (n <= size c - 1)%nat ->
  let c' := foldl (fun c kt => delete kt.1 c) c (take n (oldest_keys c current)) in
  c' ⊆ c /\ c' !! current = c !! current /\ size c' = (size c - n)%nat /\
  (forall k m k' m', k <> current -> k' <> current -> c !! k = Some m -> c' !! k = None ->
     c' !! k' = Some m' -> ns (entry_time m) <= ns (entry_time m')).
Proof.
  intros Hn c'. set (gone := take n (oldest_keys c current)) in *.
  assert (Hlook : forall k, c' !! k = if bool_decide (k ∈ gone.*1) then None else c !! k)
    by (intros; apply fold_delete_lookup).
  assert (Hgone : forall k, k ∈ gone.*1 -> k <> current /\ is_Some (c !! k)).
  { intros k Hk. apply list_elem_of_fmap in Hk as ([k0 t] & -> & Hin).
    eapply elem_of_sublist in Hin; [|apply sublist_take].
    apply oldest_keys_spec in Hin as (Hne & m & Hm & _). split; [done|by eexists]. }
  split_and!.
  - apply map_subseteq_spec. intros k m. rewrite Hlook. by case_bool_decide.
  - rewrite Hlook. case_bool_decide as Hb; [|done]. by apply Hgone in Hb as [? _].
  - unfold c'. rewrite fold_delete_size.
    + unfold gone. rewrite length_take. pose proof (length_oldest_keys c current). lia.
    + unfold gone. rewrite fmap_take. eapply sublist_NoDup; [|apply sublist_take].
      apply oldest_keys_nodup.
    + intros k Hk. by apply Hgone.
  - intros k m k' m' Hk Hk' Hm Hnone Hsome. rewrite Hlook in Hnone, Hsome.
    destruct (bool_decide_reflect (k ∈ gone.*1)) as [Hb|]; [|congruence]. clear Hnone.
    destruct (bool_decide (k' ∈ gone.*1)) eqn:Hb'; [done|]. apply bool_decide_eq_false in Hb'.
    assert (Hkin : (k, entry_time m) ∈ gone).
    { apply list_elem_of_fmap in Hb as ([k0 t] & -> & Hin).
      pose proof Hin as Hin'. eapply elem_of_sublist in Hin'; [|apply sublist_take].
      apply oldest_keys_spec in Hin' as (_ & m0 & Hm0 & ->). simpl in Hm. by simplify_eq. }
    assert (Hk'in : (k', entry_time m') ∈ drop n (oldest_keys c current)).
    { assert ((k', entry_time m') ∈ oldest_keys c current) as Hin
        by (apply oldest_keys_spec; split; [done|by eexists]).
      rewrite <- (take_drop n (oldest_keys c current)) in Hin.
      apply elem_of_app in Hin as [Hin|Hin]; [|done]. exfalso. apply Hb'.
      apply list_elem_of_fmap. by exists (k', entry_time m'). }
    assert (Hs : sorted_by older_key (oldest_keys c current))
      by (apply sort_by_sorted; apply older_key_order).
    rewrite <- (take_drop n (oldest_keys c current)) in Hs.
    apply sorted_by_app_inv in Hs as (_ & _ & Hs). specialize (Hs _ _ Hkin Hk'in).
    unfold older_key, dt_le in Hs. simpl in Hs. lia.
Qed.

Lemma prune_subset max_entries ttl_minutes cache now current cache' :
  (0 < max_entries)%nat ->
  prune_cache max_entries ttl_minutes cache now current = Ret cache' ->
  cache' ⊆ cache /\ (size cache' <= max_entries)%nat /\ cache' !! current = cache !! current.
Proof.
  intros Hpos. unfold prune_cache. intros Hp. inv_ret Hp. set (c1 := filter _ cache) in Hp.
  assert (Hcur : c1 !! current = cache !! current).
  { unfold c1. destruct (cache !! current) as [m|] eqn:Hm1.
    - apply map_lookup_filter_Some. split; [done|]. unfold retained.
      by rewrite bool_decide_eq_true_2.
    - apply map_lookup_filter_None. by left. }
  assert (Hsub : c1 ⊆ cache) by apply map_filter_subseteq.
  destruct (_ <=? _)%nat eqn:Hsize; injection Hp as <-.
  - apply Nat.leb_le in Hsize. done.
  - apply Nat.leb_gt in Hsize.
    destruct (evict_spec c1 current (size c1 - max_entries)) as (E1 & E2 & E3 & _); [lia|].
    split_and!; [by etrans|rewrite E3; lia|by rewrite E2].
Qed.

(** what survives is young, and what was young but evicted is no younger than
    any survivor *)
Lemma prune_ages max_entries ttl_minutes cache now current cache' :
  (0 < max_entries)%nat ->
  prune_cache max_entries ttl_minutes cache now current = Ret cache' ->
  (forall k m, k <> current -> cache' !! k = Some m ->
     exists t, last_activity m = Some t /\ ns now - ttl_minutes * 60000000000 <= ns t) /\
  (forall k m t k' m', k <> current -> k' <> current -> cache !! k = Some m -> cache' !! k = None ->
     last_activity m = Some t -> ns now - ttl_minutes * 60000000000 <= ns t ->
     cache' !! k' = Some m' -> ns t <= ns (entry_time m')).
Proof.
  intros Hpos Hp. unfold prune_cache in Hp. inv_ret Hp. rename a into cutoff.
  apply sub_minutes_spec in Hm. set (c1 := filter _ cache) in Hp. split.
  - intros k m Hk Hkm. assert (Hc : c1 !! k = Some m).
    { destruct (_ <=? _)%nat; injection Hp as <-; [done|]. rewrite fold_delete_lookup in Hkm.
      by case_bool_decide. }
    apply map_lookup_filter_Some in Hc as [_ Hr]. unfold retained in Hr. simpl in Hr.
    rewrite bool_decide_eq_false_2 in Hr by done. simpl in Hr.
    destruct (last_activity m) as [t|]; [|done]. exists t. split; [done|].
    unfold dt_le in Hr. lia.
  - intros k m t k' m' Hk Hk' Hkm Hnone Ht Hle Hkm'.
    assert (Hc : c1 !! k = Some m).
    { apply map_lookup_filter_Some. split; [done|]. unfold retained. simpl. rewrite Ht.
      apply orb_true_iff. right. unfold dt_le. lia. }
    destruct (_ <=? _)%nat eqn:Hsize; injection Hp as <-; [congruence|]. apply Nat.leb_gt in Hsize.
    destruct (evict_spec c1 current (size c1 - max_entries)) as (_ & _ & _ & E4);
      [lia|].
    replace t with (entry_time m) by (unfold entry_time; by rewrite Ht).
    by apply (E4 k m k' m').
Qed.
End prune.
