(* ===== verification/DepegPolicy.v ===== *)
(** * Depeg policies ([apps/detector/src/patterns/depeg.rs], policy types)

    The per-market policy of a tenant, its validation, the source filter with
    the per-source overrides, and the severity bands of the two contexts. *)
From S2P Require Import Prelude F64 Text Ports EventSchema.

Record DepegSeverityBands := { band_medium : f64; band_high : f64; band_critical : f64 }.
Definition DepegSeverityBands_default : DepegSeverityBands :=
  {| band_medium := f64_of_Z 1; band_high := f64_of_Z 3; band_critical := f64_of_Z 5 |}.

Record DepegSourceFilter := {
  cex_whitelist : list string;
  include_oracles : bool;
  include_aggregators : bool;
  min_healthy_sources : Z
}.
Definition DepegSourceFilter_default : DepegSourceFilter :=
  {| cex_whitelist := []; include_oracles := true; include_aggregators := false;
     min_healthy_sources := 3 |}.

Definition source_kind_allowed (f : DepegSourceFilter) (source_id source_kind : string) : bool :=
  let kind := to_ascii_lowercase source_kind in
  if bool_decide (kind = "oracle") then include_oracles f
  else if bool_decide (kind = "aggregator") then include_aggregators f
  else if bool_decide (kind = "dex") then false
  else if bool_decide (kind = "cex") then
    match cex_whitelist f with
    | [] => true
    | l => existsb (fun a => eq_ignore_ascii_case a source_id) l
    end
  else false.

Record DepegToggles := {
  toggle_oracle_confirmation : bool;
  toggle_volume_confirmation : bool;
  contagion_detection : bool;
  liquidity_depth_check : bool
}.
Definition DepegToggles_default : DepegToggles :=
  {| toggle_oracle_confirmation := true; toggle_volume_confirmation := false;
     contagion_detection := true; liquidity_depth_check := false |}.

Record DepegConfidenceWeights := {
  weight_source_agreement : f64;
  weight_oracle_confirmation : f64;
  weight_volume_confirmation : f64
}.
Definition DepegConfidenceWeights_default : DepegConfidenceWeights :=
  {| weight_source_agreement := f64_of_Z 60; weight_oracle_confirmation := f64_of_Z 25;
     weight_volume_confirmation := f64_of_Z 15 |}.

Record DepegSourceOverride := {
  ov_source_id : string;
  ov_weight : f64;
  ov_enabled : bool;
  ov_stale_timeout_ms : option Z
}.

Record DepegPolicy := {
  pol_tenant_id : string;
  pol_market_key : string;
  peg_target : f64;
  min_sources : Z;
  quorum_pct : f64;
  cooldown_sec : Z;
  stale_timeout_ms : Z;
  severity_bands : DepegSeverityBands;
  severity_bands_isolated : option DepegSeverityBands;
  severity_bands_systemic : option DepegSeverityBands;
  isolated_floor_pct : f64;
  systemic_floor_pct : f64;
  deescalation_blocks : Z;
  resolution_blocks : Z;
  source_filter : DepegSourceFilter;
  toggles : DepegToggles;
  confidence_weights : DepegConfidenceWeights;
  min_confidence_to_fire : f64;
  source_overrides : gmap string DepegSourceOverride
}.

(** [(lo..=hi).contains(&x)] *)
Definition f64_in (lo hi x : f64) : bool := f64_le lo x && f64_le x hi.

Definition validate (p : DepegPolicy) : outcome unit :=
  let w := confidence_weights p in
  if f64_le (peg_target p) f64_zero then Err "peg_target must be > 0"
  else if min_sources p =? 0 then Err "min_sources must be > 0"
  else if negb (f64_in f64_zero (f64_of_Z 1) (quorum_pct p)) then
    Err "quorum_pct must be between 0 and 1"
  else if cooldown_sec p <? 0 then Err "cooldown_sec must be >= 0"
  else if stale_timeout_ms p <=? 0 then Err "stale_timeout_ms must be > 0"
  else if f64_le (isolated_floor_pct p) f64_zero then Err "isolated_floor_pct must be > 0"
  else if f64_le (systemic_floor_pct p) f64_zero then Err "systemic_floor_pct must be > 0"
  else if deescalation_blocks p <=? 0 then Err "deescalation_blocks must be > 0"
  else if resolution_blocks p <=? 0 then Err "resolution_blocks must be > 0"
  else if negb (f64_in f64_zero (f64_of_Z 100) (min_confidence_to_fire p)) then
    Err "min_confidence_to_fire must be between 0 and 100"
  else if f64_lt (weight_source_agreement w) f64_zero
       || f64_lt (weight_oracle_confirmation w) f64_zero
       || f64_lt (weight_volume_confirmation w) f64_zero then
    Err "confidence_weights must be non-negative"
  else if f64_le (f64_add (f64_add (weight_source_agreement w) (weight_oracle_confirmation w))
                    (weight_volume_confirmation w)) f64_zero then
    Err "confidence_weights total must be > 0"
  else Ret ().

Definition source_enabled (p : DepegPolicy) (source_id source_kind : string) : bool :=
  if negb (source_kind_allowed (source_filter p) source_id source_kind) then false
  else match source_overrides p !! source_id with Some v => ov_enabled v | None => true end.
Definition source_weight (p : DepegPolicy) (source_id : string) : f64 :=
  f64_max (match source_overrides p !! source_id with
           | Some v => ov_weight v
           | None => f64_of_Z 1
           end) f64_zero.
Definition source_stale_timeout_ms (p : DepegPolicy) (source_id : string) : Z :=
  Z.max (default (stale_timeout_ms p)
           (v ← source_overrides p !! source_id; ov_stale_timeout_ms v)) 1.
Definition enabled_source_count (p : DepegPolicy) : Z :=
  let configured_enabled :=
    Z.of_nat (size (filter (fun kv => ov_enabled kv.2 = true) (source_overrides p))) in
  if configured_enabled =? 0 then min_sources p else configured_enabled.

Definition isolated_bands (p : DepegPolicy) : DepegSeverityBands :=
  match severity_bands_isolated p with
  | Some b => b
  | None =>
      if f64_lt f64_zero (band_medium (severity_bands p)) then severity_bands p
      else {| band_medium := f64_lit 5 10; band_high := f64_of_Z 1; band_critical := f64_of_Z 5 |}
  end.
Definition systemic_bands (p : DepegPolicy) : DepegSeverityBands :=
  match severity_bands_systemic p with
  | Some b => b
  | None => {| band_medium := f64_lit 1 100; band_high := f64_lit 25 100;
               band_critical := f64_lit 25 100 |}
  end.

(** the bands and the floor of a context classification *)
Definition selected_bands (p : DepegPolicy) (c : ContextClassification) : DepegSeverityBands :=
  match c with Systemic => systemic_bands p | _ => isolated_bands p end.
Definition selected_floor (p : DepegPolicy) (c : ContextClassification) : f64 :=
  match c with Systemic => systemic_floor_pct p | _ => isolated_floor_pct p end.

Definition severity_for_divergence (pct : f64) (b : DepegSeverityBands) : option Severity :=
  if f64_le (band_critical b) pct then Some Critical
  else if f64_le (band_high b) pct then Some High
  else if f64_le (band_medium b) pct then Some Medium
  else None.
Definition severity_rank (s : option Severity) : Z :=
  match s with
  | Some Critical => 5 | Some High => 4 | Some Medium => 3 | Some Low => 2 | Some Info => 1
  | None => 0
  end.
Definition severity_from_str (s : option string) : option Severity :=
  match s with
  | Some v =>
      if eq_ignore_ascii_case v "critical" then Some Critical
      else if eq_ignore_ascii_case v "high" then Some High
      else if eq_ignore_ascii_case v "medium" then Some Medium
      else if eq_ignore_ascii_case v "low" then Some Low
      else if eq_ignore_ascii_case v "info" then Some Info
      else None
  | None => None
  end.
Definition context_classification_str (c : ContextClassification) : string :=
  match c with Isolated => "isolated" | Systemic => "systemic" | NoContext => "none" end.
Definition infer_source_kind (source_type : string) : string :=
  let t := to_ascii_lowercase source_type in
  if bool_decide (t = "cexwebsocket") || bool_decide (t = "cexapi") then "cex"
  else if bool_decide (t = "dexapi") then "dex"
  else if bool_decide (t = "oracleapi") then "oracle"
  else if bool_decide (t = "customapi") then "custom"
  else if bool_decide (t = "evmchain") then "chain"
  else "unknown".

Definition DepegPattern_PATTERN_ID : string := "depeg".

(** ** Lemmas *)

Lemma severity_roundtrip s : severity_from_str (Some (severity_lower s)) = Some s.
Proof. by destruct s. Qed.
Lemma severity_rank_range s : 0 <= severity_rank s <= 5.
Proof. destruct s as [[]|]; simpl; lia. Qed.
Lemma severity_rank_inj s s' : severity_rank s = severity_rank s' -> s = s'.
Proof. by destruct s as [[]|], s' as [[]|]. Qed.

(** what a validated policy guarantees *)
Definition policy_ok (p : DepegPolicy) : Prop :=
  f64_le (peg_target p) f64_zero = false /\ min_sources p <> 0 /\
  f64_in f64_zero (f64_of_Z 1) (quorum_pct p) = true /\ 0 <= cooldown_sec p /\
  0 < stale_timeout_ms p /\ f64_le (isolated_floor_pct p) f64_zero = false /\
  f64_le (systemic_floor_pct p) f64_zero = false /\ 0 < deescalation_blocks p /\
  0 < resolution_blocks p /\ f64_in f64_zero (f64_of_Z 100) (min_confidence_to_fire p) = true.
Lemma validate_ok p : validate p = Ret () -> policy_ok p.
Proof.
  unfold validate. repeat (case_match; [done|]). intros _. bools. split_and!; done || lia.
Qed.

(** The bands classify monotonically: a larger divergence never has a
    lower severity, whatever the configured thresholds. *)
Theorem severity_monotone pct pct' b :
  f64_le pct pct' = true ->
  severity_rank (severity_for_divergence pct b) <= severity_rank (severity_for_divergence pct' b).
Proof.
  intros Hle. unfold severity_for_divergence.
  destruct (f64_le (band_critical b) pct) eqn:H1; [by rewrite (f64_le_trans _ _ _ H1 Hle)|].
  destruct (f64_le (band_high b) pct) eqn:H2.
  - rewrite (f64_le_trans _ _ _ H2 Hle). case_match; simpl; lia.
  - destruct (f64_le (band_medium b) pct) eqn:H3.
    + rewrite (f64_le_trans _ _ _ H3 Hle). repeat case_match; simpl; lia.
    + repeat case_match; simpl; lia.
Qed.
Lemma severity_monotone_witness :
  severity_rank (severity_for_divergence (f64_of_Z 2) DepegSeverityBands_default) <=
  severity_rank (severity_for_divergence (f64_of_Z 4) DepegSeverityBands_default).
Proof. apply severity_monotone. reflexivity. Defined.

(** No price of a DEX, chain, custom or unknown source ever takes part in
    the consensus, and a CEX takes part only when the whitelist is empty or
    names it. *)
Theorem source_enabled_kinds p source_id source_type :
  source_enabled p source_id (infer_source_kind (source_type_debug source_type)) = true ->
  match source_type with
  | OracleApi => include_oracles (source_filter p) = true
  | CexWebsocket =>
      cex_whitelist (source_filter p) = [] \/
      exists a, a ∈ cex_whitelist (source_filter p) /\ eq_ignore_ascii_case a source_id = true
  | EvmChain | DexApi | CustomApi => False
  end.
Proof.
  unfold source_enabled, source_kind_allowed. destruct source_type; simpl.
  - done.
  - destruct (cex_whitelist (source_filter p)) as [|a l] eqn:Hw; [by left|].
    match goal with |- context [negb ?b] => destruct b eqn:He; [|done] end. intros _. right.
    change (existsb (fun x => eq_ignore_ascii_case x source_id) (a :: l) = true) in He.
    apply existsb_exists in He as (x & Hx & Heq). exists x. split; [|done].
    by apply list_elem_of_In.
  - done.
  - by destruct (include_oracles (source_filter p)).
  - done.
Qed.

Definition sample_policy : DepegPolicy :=
  {| pol_tenant_id := "acme"; pol_market_key := "USDC/USD"; peg_target := f64_of_Z 1;
     min_sources := 3; quorum_pct := f64_lit 5 10; cooldown_sec := 300;
     stale_timeout_ms := 30000; severity_bands := DepegSeverityBands_default;
     severity_bands_isolated := None; severity_bands_systemic := None;
     isolated_floor_pct := f64_lit 5 10; systemic_floor_pct := f64_lit 1 100;
     deescalation_blocks := 5; resolution_blocks := 2;
     source_filter := DepegSourceFilter_default;
     toggles := {| toggle_oracle_confirmation := false; toggle_volume_confirmation := false;
                   contagion_detection := false; liquidity_depth_check := false |};
     confidence_weights := DepegConfidenceWeights_default;
     min_confidence_to_fire := f64_zero; source_overrides := ∅ |}.
Example sample_policy_valid : validate sample_policy = Ret ().
Proof. reflexivity. Qed.
Lemma source_enabled_kinds_witness :
  include_oracles (source_filter sample_policy) = true.
Proof. exact (source_enabled_kinds sample_policy "chainlink" OracleApi eq_refl). Defined.
