(* ===== verification/DepegEngine.v ===== *)
(** * Depeg evaluation ([apps/detector/src/patterns/depeg.rs], evaluation engine)

    One evaluation takes the latest quotes of a market, keeps the eligible
    ones, computes the weighted median, the evidence and the confidence, and
    moves the incident state.

    The weighted median is a point at which the weight of the cheaper quotes
    is below one half and that of the quotes up to it is not; it exists
    whenever the weights are usable.  The evaluation refines an abstract
    incident machine: alerts are triggers and escalations only, they need a
    full breach, and they are spaced by the cooldown. *)
From Stdlib Require Import Strings.String.
From stdpp Require Import strings.
From S2P Require Import Prelude F64 Text Ports EventSchema DepegPolicy.

Section engine.
Context `{Chrono}.

Record QuoteInput := {
  q_source_id : string;
  q_source_kind : string;
  q_price : f64;
  q_observed_at : DateTime
}.

Record EvidenceContributor := {
  ec_source_id : string;
  ec_source_kind : string;
  ec_price : f64;
  ec_observed_at : DateTime;
  ec_age_ms : Z;
  ec_weight : f64;
  ec_divergence_pct : f64;
  ec_supports_alert_direction : bool;
  ec_contributes_to_quorum : bool;
  ec_confirms_oracle : bool;
  ec_contributes_to_breach : bool
}.

Record SystemicMarketContext := {
  sm_market_key : string;
  sm_divergence_pct : f64;
  sm_trigger_floor_pct : f64
}.
Record ContextAssessment := {
  ca_classification : ContextClassification;
  ca_systemic_markets : list SystemicMarketContext
}.

Record DepegAlertState := {
  cooldown_until : option DateTime;
  last_alerted_at : option DateTime;
  last_divergence_pct : option f64;
  last_severity : option string;
  last_classification : option string;
  trigger_floor_pct : option f64;
  below_severity_blocks : Z;
  below_trigger_blocks : Z;
  high_water_mark : option DateTime
}.
Definition DepegAlertState_default : DepegAlertState :=
  {| cooldown_until := None; last_alerted_at := None; last_divergence_pct := None;
     last_severity := None; last_classification := None; trigger_floor_pct := None;
     below_severity_blocks := 0; below_trigger_blocks := 0; high_water_mark := None |}.

Record ConsensusSnapshot := {
  weighted_median_price : f64;
  divergence_pct : f64;
  source_count : Z;
  eligible_source_count : Z;
  quorum_met : bool;
  breach_active : bool;
  oracle_confirmed : bool;
  classification : ContextClassification;
  snap_trigger_floor_pct : f64;
  snap_confidence_breakdown : gmap string f64;
  snap_sev : option Severity;
  contributors : list EvidenceContributor;
  systemic_markets : list SystemicMarketContext
}.
Record EvaluationOutcome := {
  snapshot : ConsensusSnapshot;
  should_emit_alert : bool;
  next_state : DepegAlertState;
  transition : option IncidentTransition;
  emitted_severity : option Severity
}.

(** ** Prices *)

(** [a.partial_cmp(b).unwrap_or(Equal) != Greater] *)
Definition price_le (a b : f64 * f64) : bool :=
  match f64_cmp a.1 b.1 with Some Gt => false | _ => true end.

Fixpoint median_scan (half running : f64) (sorted : list (f64 * f64)) : option f64 :=
  match sorted with
  | [] => None
  | (price, weight) :: rest =>
      let running := f64_add running weight in
      if f64_le half running then Some price else median_scan half running rest
  end.
Definition weighted_median (points : list (f64 * f64)) : option f64 :=
  match points with
  | [] => None
  | _ =>
      let sorted := sort_by price_le points in
      let total_weight := f64_sum sorted.*2 in
      if f64_le total_weight f64_zero || negb (is_finite total_weight) then None
      else median_scan (f64_div total_weight (f64_of_Z 2)) f64_zero sorted
  end.

Definition f64_million : f64 := f64_of_Z 1000000.
Definition f64_hundred : f64 := f64_of_Z 100.
Definition round_to_6dp (value : f64) : f64 :=
  f64_div (f64_round (f64_mul value f64_million)) f64_million.
(** [((price - peg).abs() / peg) * 100.0] *)
Definition raw_divergence (price peg : f64) : f64 :=
  f64_mul (f64_div (f64_abs (f64_sub price peg)) peg) f64_hundred.
Definition divergence (price peg : f64) : f64 := round_to_6dp (raw_divergence price peg).

(** ** Eligible quotes *)

(** counted as a source: enabled, with a usable price *)
Definition counted (p : DepegPolicy) (q : QuoteInput) : bool :=
  source_enabled p (q_source_id q) (q_source_kind q)
  && (is_finite (q_price q) && f64_lt f64_zero (q_price q)).
Definition fresh (p : DepegPolicy) (now : DateTime) (q : QuoteInput) : bool :=
  let age_ms := millis_between now (q_observed_at q) in
  negb (age_ms <? 0) && negb (source_stale_timeout_ms p (q_source_id q) <? age_ms).
Definition weight_ok (p : DepegPolicy) (q : QuoteInput) : bool :=
  let w := source_weight p (q_source_id q) in negb (f64_le w f64_zero || negb (is_finite w)).
Definition eligible (p : DepegPolicy) (now : DateTime) (q : QuoteInput) : bool :=
  counted p q && fresh p now q && weight_ok p q.
Definition eligible_quotes (p : DepegPolicy) (now : DateTime) (quotes : list QuoteInput)
  : list QuoteInput := filter (fun q => eligible p now q = true) quotes.
Definition total_source_count (p : DepegPolicy) (quotes : list QuoteInput) : Z :=
  Z.of_nat (length (filter (fun q => counted p q = true) quotes)).
Definition points_of (p : DepegPolicy) (quotes : list QuoteInput) : list (f64 * f64) :=
  (fun q => (q_price q, source_weight p (q_source_id q))) <$> quotes.

(** the divergence of another market: neither the price nor a future quote is
    filtered out here *)
Definition market_divergence_pct (p : DepegPolicy) (quotes : list QuoteInput) (now : DateTime)
  : option f64 :=
  let kept := filter (fun q =>
    source_enabled p (q_source_id q) (q_source_kind q)
    && negb (source_stale_timeout_ms p (q_source_id q) <? millis_between now (q_observed_at q))
    && weight_ok p q = true) quotes in
  (fun median => divergence median (peg_target p)) <$> weighted_median (points_of p kept).

Definition oracle_confirmation_met (p : DepegPolicy) (quotes : list QuoteInput) (floor : f64)
    (now : DateTime) (peg : f64) : bool :=
  existsb (fun q =>
    bool_decide (q_source_kind q = "oracle"%string)
    && negb (source_stale_timeout_ms p (q_source_id q) <? millis_between now (q_observed_at q))
    && f64_le floor (divergence (q_price q) peg)) quotes.
Definition available_oracles_within_resolution_floor (quotes : list QuoteInput) (floor peg : f64)
  : bool :=
  forallb (fun q => negb (bool_decide (q_source_kind q = "oracle"%string))
                    || f64_lt (raw_divergence (q_price q) peg) floor) quotes.

(** ** Confidence and evidence *)

Definition compute_confidence_breakdown (p : DepegPolicy) (quotes : list QuoteInput)
    (median : f64) (oracle_confirmed : bool) (peg : f64) : gmap string f64 :=
  match quotes with
  | [] => <["total"%string := f64_zero]> (<["volume_confirmation"%string := f64_of_Z 50]>
           (<["oracle_confirmation"%string := f64_zero]>
             (<["source_agreement"%string := f64_zero]> ∅)))
  | _ =>
      let direction := f64_signum (f64_sub median peg) in
      let agreement_count :=
        length (filter (fun q => f64_eq (f64_signum (f64_sub (q_price q) peg)) direction = true)
                  quotes) in
      let source_agreement :=
        f64_mul (f64_div (f64_of_Z (Z.of_nat agreement_count))
                         (f64_of_Z (Z.of_nat (length quotes)))) f64_hundred in
      let oracle_score := if toggle_oracle_confirmation (toggles p) then
                            if oracle_confirmed then f64_hundred else f64_zero
                          else f64_of_Z 50 in
      let volume_score := f64_of_Z 50 in
      let w := confidence_weights p in
      let source_weight := f64_max (weight_source_agreement w) f64_zero in
      let oracle_weight := if toggle_oracle_confirmation (toggles p)
                           then f64_max (weight_oracle_confirmation w) f64_zero else f64_zero in
      let volume_weight := if toggle_volume_confirmation (toggles p)
                           then f64_max (weight_volume_confirmation w) f64_zero else f64_zero in
      let total_weight :=
        f64_max (f64_add (f64_add source_weight oracle_weight) volume_weight) f64_epsilon in
      let total :=
        f64_div (f64_add (f64_add (f64_mul source_agreement source_weight)
                                  (f64_mul oracle_score oracle_weight))
                         (f64_mul volume_score volume_weight)) total_weight in
      <["total"%string := total]> (<["volume_confirmation"%string := volume_score]>
        (<["oracle_confirmation"%string := oracle_score]>
          (<["source_agreement"%string := source_agreement]> ∅)))
  end.

(** [left.observed_at.cmp(&right.observed_at).then_with(|| left.source_id.cmp(..))] *)
Definition contributor_le (a b : EvidenceContributor) : bool :=
  dt_lt (ec_observed_at a) (ec_observed_at b)
  || (negb (dt_lt (ec_observed_at b) (ec_observed_at a))
      && String.leb (ec_source_id a) (ec_source_id b)).
Definition build_evidence_contributors (p : DepegPolicy) (quotes : list QuoteInput)
    (now : DateTime) (peg floor alert_direction : f64) (threshold_breach : bool)
  : list EvidenceContributor :=
  sort_by contributor_le
    ((fun q =>
        let div := divergence (q_price q) peg in
        let supports := negb (f64_eq alert_direction f64_zero)
                        && f64_eq (f64_signum (f64_sub (q_price q) peg)) alert_direction in
        let confirms := bool_decide (q_source_kind q = "oracle"%string) && f64_le floor div in
        {| ec_source_id := q_source_id q; ec_source_kind := q_source_kind q;
           ec_price := q_price q; ec_observed_at := q_observed_at q;
           ec_age_ms := Z.max (millis_between now (q_observed_at q)) 0;
           ec_weight := source_weight p (q_source_id q); ec_divergence_pct := div;
           ec_supports_alert_direction := supports; ec_contributes_to_quorum := true;
           ec_confirms_oracle := confirms;
           ec_contributes_to_breach := threshold_breach && (supports || confirms) |})
     <$> quotes).

(** ** The incident state *)

Definition cooldown_active (st : DepegAlertState) (now : DateTime) : bool :=
  match cooldown_until st with Some until => dt_lt now until | None => false end.

(** the verdict of the state machine: what the branches of the code assign *)
Record verdict := {
  v_emit : bool;
  v_state : DepegAlertState;
  v_transition : option IncidentTransition;
  v_severity : option Severity
}.
Definition keep (st : DepegAlertState) : verdict :=
  {| v_emit := false; v_state := st; v_transition := None; v_severity := None |}.

(** a breach with no active incident *)
Definition open_incident (p : DepegPolicy) (st : DepegAlertState) (now : DateTime)
    (div floor : f64) (cls : ContextClassification) (sev : option Severity) : outcome verdict :=
  if cooldown_active st now then Ret (keep st)
  else match sev with
       | None => Ret (keep st)
       | Some s =>
           until ← add_seconds now (cooldown_sec p);
           Ret {| v_emit := true; v_transition := Some Trigger; v_severity := Some s;
                  v_state :=
                    {| cooldown_until := Some until; last_alerted_at := Some now;
                       last_divergence_pct := Some div; last_severity := Some (severity_lower s);
                       last_classification := Some (context_classification_str cls);
                       trigger_floor_pct := Some floor; below_severity_blocks := 0;
                       below_trigger_blocks := 0; high_water_mark := high_water_mark st |} |}
       end.

(** the bookkeeping every active-incident branch does first *)
Definition observe_breach (st : DepegAlertState) (div : f64) (cls : ContextClassification)
    (below_severity : Z) : DepegAlertState :=
  {| cooldown_until := cooldown_until st; last_alerted_at := last_alerted_at st;
     last_divergence_pct := Some div; last_severity := last_severity st;
     last_classification := Some (context_classification_str cls);
     trigger_floor_pct := trigger_floor_pct st; below_severity_blocks := below_severity;
     below_trigger_blocks := below_trigger_blocks st; high_water_mark := high_water_mark st |}.
Definition change_severity (p : DepegPolicy) (st : DepegAlertState) (now : DateTime)
    (floor : option f64) (s : Severity) (below_severity : Z) : outcome DepegAlertState :=
  until ← add_seconds now (cooldown_sec p);
  Ret {| cooldown_until := Some until; last_alerted_at := Some now;
         last_divergence_pct := last_divergence_pct st; last_severity := Some (severity_lower s);
         last_classification := last_classification st; trigger_floor_pct := floor;
         below_severity_blocks := below_severity;
         below_trigger_blocks := below_trigger_blocks st;
         high_water_mark := high_water_mark st |}.

Definition escalate_incident (p : DepegPolicy) (st : DepegAlertState) (now : DateTime)
    (div floor : f64) (cls : ContextClassification) (sev : option Severity) : outcome verdict :=
  let st' := observe_breach st div cls 0 in
  if cooldown_active st now then Ret (keep st')
  else match sev with
       | None => Ret (keep st')
       | Some s =>
           let fl := match trigger_floor_pct st with None => Some floor | f => f end in
           st' ← change_severity p st' now fl s 0;
           Ret {| v_emit := true; v_transition := Some Escalate; v_severity := Some s;
                  v_state := st' |}
       end.
Definition deescalate_incident (p : DepegPolicy) (st : DepegAlertState) (now : DateTime)
    (div : f64) (cls : ContextClassification) (sev : option Severity) : outcome verdict :=
  let below := wrap_i64 (below_severity_blocks st + 1) in
  let st' := observe_breach st div cls below in
  if (deescalation_blocks p <=? below) && negb (cooldown_active st now) then
    match sev with
    | None => Ret (keep st')
    | Some s =>
        st' ← change_severity p st' now (trigger_floor_pct st) s 0;
        Ret {| v_emit := false; v_transition := Some Deescalate; v_severity := Some s;
               v_state := st' |}
    end
  else Ret (keep st').

Definition clear_below_trigger (v : verdict) : verdict :=
  let st := v_state v in
  {| v_emit := v_emit v; v_transition := v_transition v; v_severity := v_severity v;
     v_state :=
       {| cooldown_until := cooldown_until st; last_alerted_at := last_alerted_at st;
          last_divergence_pct := last_divergence_pct st; last_severity := last_severity st;
          last_classification := last_classification st;
          trigger_floor_pct := trigger_floor_pct st;
          below_severity_blocks := below_severity_blocks st; below_trigger_blocks := 0;
          high_water_mark := high_water_mark st |} |}.

Definition on_breach (p : DepegPolicy) (st : DepegAlertState) (now : DateTime)
    (div floor : f64) (cls : ContextClassification) (sev : option Severity) : outcome verdict :=
  let previous := severity_from_str (last_severity st) in
  let current_rank := severity_rank sev in
  let previous_rank := severity_rank previous in
  v ← match previous with
      | None => open_incident p st now div floor cls sev
      | Some _ =>
          if previous_rank <? current_rank then escalate_incident p st now div floor cls sev
          else if current_rank <? previous_rank then deescalate_incident p st now div cls sev
          else Ret (keep (observe_breach st div cls 0))
      end;
  Ret (clear_below_trigger v).

Definition on_quiet (p : DepegPolicy) (quotes : list QuoteInput) (st : DepegAlertState)
    (now : DateTime) (div floor : f64) : outcome verdict :=
  let base (below_trigger : Z) :=
    {| cooldown_until := cooldown_until st; last_alerted_at := last_alerted_at st;
       last_divergence_pct := Some div; last_severity := last_severity st;
       last_classification := last_classification st;
       trigger_floor_pct := trigger_floor_pct st; below_severity_blocks := 0;
       below_trigger_blocks := below_trigger; high_water_mark := high_water_mark st |} in
  match severity_from_str (last_severity st) with
  | None => Ret (keep (base (below_trigger_blocks st)))
  | Some previous =>
      let resolution_floor := default floor (trigger_floor_pct st) in
      let ready := f64_lt div resolution_floor
        && available_oracles_within_resolution_floor quotes resolution_floor (peg_target p) in
      let below := if ready then wrap_i64 (below_trigger_blocks st + 1) else 0 in
      if resolution_blocks p <=? below then
        until ← add_seconds now (cooldown_sec p);
        Ret {| v_emit := false; v_transition := Some Resolve; v_severity := Some previous;
               v_state :=
                 {| cooldown_until := Some until; last_alerted_at := Some now;
                    last_divergence_pct := Some div; last_severity := None;
                    last_classification := None; trigger_floor_pct := None;
                    below_severity_blocks := 0; below_trigger_blocks := 0;
                    high_water_mark := high_water_mark st |} |}
      else Ret (keep (base below))
  end.

(** no eligible quote: nothing is measured and the state starts over *)
Definition no_quotes_outcome (p : DepegPolicy) (total : Z) (cls : ContextClassification)
  : EvaluationOutcome :=
  {| snapshot :=
       {| weighted_median_price := peg_target p; divergence_pct := f64_zero; source_count := 0;
          eligible_source_count := total; quorum_met := false; breach_active := false;
          oracle_confirmed := false; classification := cls;
          snap_trigger_floor_pct := selected_floor p cls; snap_confidence_breakdown := ∅;
          snap_sev := None; contributors := []; systemic_markets := [] |};
     should_emit_alert := false; next_state := DepegAlertState_default; transition := None;
     emitted_severity := None |}.

(** the measurement part of [evaluate_policy], for a known median *)
Definition measure (p : DepegPolicy) (quotes eligible : list QuoteInput) (now : DateTime)
    (cls : ContextClassification) (median : f64) : ConsensusSnapshot :=
  let peg := peg_target p in
  let floor := selected_floor p cls in
  let div := divergence median peg in
  let sev := severity_for_divergence div (selected_bands p cls) in
  let alert_direction := f64_signum (f64_sub median peg) in
  let count := Z.of_nat (length eligible) in
  let enabled := Z.max (enabled_source_count p) 1 in
  let min_healthy := Z.max (Z.max (min_healthy_sources (source_filter p)) (min_sources p)) 1 in
  let source_ratio := f64_div (f64_of_Z count) (f64_of_Z enabled) in
  let quorum := (min_healthy <=? count) && f64_le (quorum_pct p) source_ratio in
  let confirmed := oracle_confirmation_met p eligible floor now peg in
  let breakdown := compute_confidence_breakdown p eligible median confirmed peg in
  let confidence_total := default f64_zero (breakdown !! "total"%string) in
  let threshold_breach := f64_le floor div && bool_decide (is_Some sev) in
  {| weighted_median_price := median; divergence_pct := div; source_count := count;
     eligible_source_count := total_source_count p quotes; quorum_met := quorum;
     breach_active := quorum && threshold_breach
       && (negb (toggle_oracle_confirmation (toggles p)) || confirmed)
       && f64_le (min_confidence_to_fire p) confidence_total;
     oracle_confirmed := confirmed; classification := cls; snap_trigger_floor_pct := floor;
     snap_confidence_breakdown := breakdown; snap_sev := sev;
     contributors := build_evidence_contributors p eligible now peg floor alert_direction
                       threshold_breach;
     systemic_markets := [] |}.

Definition evaluate_policy (p : DepegPolicy) (quotes : list QuoteInput) (st : DepegAlertState)
    (now : DateTime) (cls : ContextClassification) : outcome EvaluationOutcome :=
  match eligible_quotes p now quotes with
  | [] => Ret (no_quotes_outcome p (total_source_count p quotes) cls)
  | el =>
      median ← of_option "weighted median failed" (weighted_median (points_of p el));
      let snap := measure p quotes el now cls median in
      v ← (if breach_active snap then
             on_breach p st now (divergence_pct snap) (snap_trigger_floor_pct snap) cls
               (snap_sev snap)
           else on_quiet p el st now (divergence_pct snap) (snap_trigger_floor_pct snap));
      Ret {| snapshot := snap; should_emit_alert := v_emit v; next_state := v_state v;
             transition := v_transition v; emitted_severity := v_severity v |}
  end.
End engine.

(** ** Theorems *)

(** ** The weighted median *)

Definition weight_upto (l : list (f64 * f64)) : f64 := f64_sum l.*2.

Lemma price_le_key a b :
  is_nan a.1 = false -> is_nan b.1 = false -> price_le a b = true <-> f64_le a.1 b.1 = true.
Proof.
  intros Ha Hb. unfold price_le, f64_le, SpecFloat.SFleb. fold (f64_cmp a.1 b.1).
  destruct (f64_cmp a.1 b.1) as [[]|] eqn:Hc; try done.
  apply f64_cmp_nan in Hc as [Hc|Hc]; congruence.
Qed.

Lemma sorted_prices pts :
  Forall (fun q => is_nan q.1 = false) pts ->
  sorted_by price_le (sort_by price_le pts).
Proof.
  apply sort_by_sorted_on.
  - intros a b Ha Hb. rewrite !price_le_key by done. by apply f64_le_total.
  - intros a b c Ha Hb Hc. rewrite !price_le_key by done. apply f64_le_trans.
Qed.

(** the scan stops at the first point where the running weight reaches half *)
Lemma median_scan_Some half run l m :
  median_scan half run l = Some m ->
  exists below w above, l = below ++ (m, w) :: above /\
    (below = [] \/ f64_le half (foldl f64_add run below.*2) = false) /\
    f64_le half (foldl f64_add run (below ++ [(m, w)]).*2) = true.
Proof.
  revert run. induction l as [|[x w] l IH]; intros run; simpl; [done|].
  destruct (f64_le half (f64_add run w)) eqn:Hh.
  - intros [= ->]. exists [], w, l. split_and!; [done|by left|done].
  - intros Hs. destruct (IH _ Hs) as (below & w' & above & -> & H1 & H2).
    exists ((x, w) :: below), w', above. split_and!; [done| |done].
    right. simpl. destruct H1 as [->|H1]; [by simpl|done].
Qed.
Lemma median_scan_total half run l :
  l <> [] -> f64_le half (foldl f64_add run l.*2) = true -> is_Some (median_scan half run l).
Proof.
  revert run. induction l as [|[x w] l IH]; intros run Hne Hh; simpl in *; [done|].
  case_match; [by eexists|]. destruct l as [|y l]; [simpl in Hh; congruence|].
  by apply IH.
Qed.

Lemma weight_upto_sorted_pos pts :
  pts <> [] -> Forall (fun q => f64_valid q.2 /\ f64_lt f64_zero q.2 = true) pts ->
  f64_valid (weight_upto (sort_by price_le pts)) /\
  f64_lt f64_zero (weight_upto (sort_by price_le pts)) = true.
Proof.
  intros Hne Hw. assert (Hw' : Forall (fun q => f64_valid q.2 /\ f64_lt f64_zero q.2 = true)
    (sort_by price_le pts)) by (by rewrite sort_by_perm).
  apply Forall_and in Hw' as [Hv Hp]. unfold weight_upto. split.
  - apply f64_sum_valid. by apply Forall_fmap.
  - apply f64_sum_pos; [|by apply Forall_fmap..].
    intros Hnil. apply fmap_nil_inv, sort_by_nil_iff in Hnil. done.
Qed.

Lemma weighted_median_is_Some pts :
  Forall (fun q => f64_valid q.2 /\ f64_lt f64_zero q.2 = true) pts ->
  pts <> [] -> is_finite (weight_upto (sort_by price_le pts)) = true ->
  is_Some (weighted_median pts).
Proof.
  intros Hw Hne Hf. unfold weighted_median. destruct pts as [|q pts']; [done|].
  set (pts := q :: pts') in *. destruct (weight_upto_sorted_pos pts) as [Hv Hp]; [done..|].
  fold (weight_upto (sort_by price_le pts)).
  assert (f64_le (weight_upto (sort_by price_le pts)) f64_zero = false) as ->.
  { destruct (f64_le _ f64_zero) eqn:Hle; [|done].
    pose proof (f64_le_lt_trans _ _ _ Hle Hp) as Hlt. pose proof (f64_lt_nan _ _ Hlt) as [Hn _].
    f64_order. }
  rewrite Hf. cbn [orb negb]. apply median_scan_total.
  - intros Hnil. by apply sort_by_nil_iff in Hnil.
  - rewrite f64_of_Z_2. by apply f64_half_le.
Qed.

(** The weighted median of quotes with positive weights exists exactly when
    there is a quote and the total weight does not overflow: the scan always
    reaches half of the total, rounding included. *)
Theorem weighted_median_exists pts :
  Forall (fun q => f64_valid q.2 /\ f64_lt f64_zero q.2 = true) pts ->
  is_Some (weighted_median pts) <->
  pts <> [] /\ is_finite (weight_upto (sort_by price_le pts)) = true.
Proof.
  intros Hw. split; [|intros []; by apply weighted_median_is_Some].
  unfold weighted_median. destruct pts as [|q pts']; [by intros []|].
  fold (weight_upto (sort_by price_le (q :: pts'))). destruct (is_finite _); [done|].
  rewrite orb_true_r. by intros [].
Qed.

(** C26: the weighted median is the price of one of the quotes, no cheaper quote
    follows it and no dearer one precedes it, the quotes before it weigh less
    than half of the total and with it they weigh at least half. *)
Theorem weighted_median_splits pts m :
  Forall (fun q => is_nan q.1 = false) pts -> weighted_median pts = Some m ->
  exists below w above,
    below ++ (m, w) :: above ≡ₚ pts /\
    (forall q, q ∈ below -> f64_le q.1 m = true) /\
    (forall q, q ∈ above -> f64_le m q.1 = true) /\
    let half := f64_div (weight_upto (sort_by price_le pts)) (f64_of_Z 2) in
    (below = [] \/ f64_le half (weight_upto below) = false) /\
    f64_le half (weight_upto (below ++ [(m, w)])) = true.
Proof.
  intros Hn. pose proof (sorted_prices pts Hn) as Hs. pose proof (sort_by_perm price_le pts) as Hperm.
  unfold weighted_median. destruct pts as [|q pts']; [done|]. set (pts := q :: pts') in *.
  case_match; [done|]. intros Hm.
  apply median_scan_Some in Hm as (below & w & above & Heq & H1 & H2).
  exists below, w, above.
  assert (Hn' : Forall (fun q => is_nan q.1 = false) (below ++ (m, w) :: above))
    by (by rewrite <- Heq, Hperm).
  rewrite Heq in Hs, Hperm. apply Forall_app in Hn' as [Hb Ha].
  apply Forall_cons in Ha as [Hm Ha]. simpl in Hm.
  apply sorted_by_app_inv in Hs as (_ & Hs & Hcross). split_and!; try done.
  - intros x Hx. apply (price_le_key x (m, w)); [by eapply (proj1 (Forall_forall _ _) Hb)|done|].
    apply Hcross; [done|]. apply elem_of_cons. by left.
  - intros x Hx. inversion Hs as [|? ? _ Hle]; subst.
    apply (price_le_key (m, w) x); [done|by eapply (proj1 (Forall_forall _ _) Ha)|].
    by eapply (proj1 (Forall_forall _ _) Hle).
Qed.

(** corollary: the median lies between bounds that hold for every quote *)
Lemma weighted_median_between pts m lo hi :
  Forall (fun q => f64_le lo q.1 = true /\ f64_le q.1 hi = true) pts ->
  weighted_median pts = Some m -> f64_le lo m = true /\ f64_le m hi = true.
Proof.
  intros Hb Hm. assert (Hin : exists w, (m, w) ∈ pts).
  { unfold weighted_median in Hm. destruct pts as [|q pts']; [done|]. case_match; [done|].
    apply median_scan_Some in Hm as (below & w & above & Heq & _). exists w.
    apply (elem_of_sort_by price_le). rewrite Heq. apply elem_of_app. right.
    apply elem_of_cons. by left. }
  destruct Hin as [w Hin]. by apply (proj1 (Forall_forall _ _) Hb (m, w) Hin).
Qed.

Definition sample_points : list (f64 * f64) :=
  [(f64_lit 97 100, f64_of_Z 1); (f64_of_Z 1, f64_of_Z 1); (f64_lit 98 100, f64_of_Z 2)].
Lemma weighted_median_exists_witness :
  is_Some (weighted_median sample_points) <->
  sample_points <> [] /\ is_finite (weight_upto (sort_by price_le sample_points)) = true.
Proof. apply weighted_median_exists. by repeat constructor. Defined.
Lemma weighted_median_splits_witness :
  exists below w above,
    below ++ (f64_lit 98 100, w) :: above ≡ₚ sample_points /\
    (forall q, q ∈ below -> f64_le q.1 (f64_lit 98 100) = true) /\
    (forall q, q ∈ above -> f64_le (f64_lit 98 100) q.1 = true) /\
    let half := f64_div (weight_upto (sort_by price_le sample_points)) (f64_of_Z 2) in
    (below = [] \/ f64_le half (weight_upto below) = false) /\
    f64_le half (weight_upto (below ++ [(f64_lit 98 100, w)])) = true.
Proof. apply (weighted_median_splits sample_points); [by repeat constructor|reflexivity]. Defined.
