(* ===== verification/DepegIncident.v ===== *)
(** * The depeg incident machine

    What [evaluate_policy] promises about incidents: an abstract machine whose
    state is the severity of the active incident and the end of the cooldown,
    the refinement of the evaluation to it, and what follows for runs: alerts
    are spaced by the cooldown unless an evaluation without quotes lies between
    them, a breach is needed for each, and an incident
    whose market stays quiet is resolved. *)
From S2P Require Import Prelude F64 Text Ports EventSchema DepegPolicy DepegEngine.

Section incident.
Context `{Chrono}.

Record incident := { active : option Severity; until : option DateTime }.
Definition abs (st : DepegAlertState) : incident :=
  {| active := severity_from_str (last_severity st); until := cooldown_until st |}.
Definition cooling (i : incident) (now : DateTime) : bool :=
  match until i with Some u => dt_lt now u | None => false end.

(** one evaluation, seen from outside: the transition reported, whether an
    alert is emitted and with which severity; [measured] tells whether any
    quote was eligible *)
Inductive incident_step (p : DepegPolicy) (now : DateTime) (i : incident)
  : bool -> option IncidentTransition -> bool -> option Severity -> incident -> Prop :=
  | step_trigger s u :
      active i = None -> cooling i now = false -> add_seconds now (cooldown_sec p) = Ret u ->
      incident_step p now i true (Some Trigger) true (Some s) {| active := Some s; until := Some u |}
  | step_escalate s0 s u :
      active i = Some s0 -> severity_rank (Some s0) < severity_rank (Some s) ->
      cooling i now = false -> add_seconds now (cooldown_sec p) = Ret u ->
      incident_step p now i true (Some Escalate) true (Some s) {| active := Some s; until := Some u |}
  | step_deescalate s0 s u :
      active i = Some s0 -> severity_rank (Some s) < severity_rank (Some s0) ->
      cooling i now = false -> add_seconds now (cooldown_sec p) = Ret u ->
      incident_step p now i true (Some Deescalate) false (Some s)
        {| active := Some s; until := Some u |}
  | step_resolve s0 u :
      active i = Some s0 -> add_seconds now (cooldown_sec p) = Ret u ->
      incident_step p now i true (Some Resolve) false (Some s0) {| active := None; until := Some u |}
  | step_stay : incident_step p now i true None false None i
  | step_forget : incident_step p now i false None false None {| active := None; until := None |}.

(** ** Refinement *)

Definition verdict_ok (p : DepegPolicy) (now : DateTime) (st : DepegAlertState) (v : verdict) : Prop :=
  incident_step p now (abs st) true (v_transition v) (v_emit v) (v_severity v) (abs (v_state v)).

Lemma cooling_abs st now : cooling (abs st) now = cooldown_active st now.
Proof. done. Qed.
Lemma stay_ok p now st st' : abs st' = abs st -> verdict_ok p now st (keep st').
Proof. intros Ha. unfold verdict_ok. simpl. rewrite Ha. constructor. Qed.
Lemma clear_abs v : abs (v_state (clear_below_trigger v)) = abs (v_state v).
Proof. done. Qed.
Lemma clear_ok p now st v : verdict_ok p now st v -> verdict_ok p now st (clear_below_trigger v).
Proof. unfold verdict_ok. by rewrite clear_abs. Qed.
Lemma abs_stored s u st :
  last_severity st = Some (severity_lower s) -> cooldown_until st = Some u ->
  abs st = {| active := Some s; until := Some u |}.
Proof. intros H1 H2. unfold abs. by rewrite H1, H2, severity_roundtrip. Qed.
Lemma change_severity_abs p st now fl s below st' :
  change_severity p st now fl s below = Ret st' ->
  exists u, add_seconds now (cooldown_sec p) = Ret u /\
    abs st' = {| active := Some s; until := Some u |}.
Proof.
  unfold change_severity. intros Hc. inv_ret Hc. injection Hc as <-. exists a.
  split; [done|]. by apply abs_stored.
Qed.

Lemma open_incident_ok p st now d f c sev v :
  severity_from_str (last_severity st) = None ->
  open_incident p st now d f c sev = Ret v -> verdict_ok p now st v.
Proof.
  intros Ha. unfold open_incident. rewrite <- cooling_abs.
  destruct (cooling _ _) eqn:Hc; [intros [= <-]; by apply stay_ok|].
  destruct sev as [s|]; [|intros [= <-]; by apply stay_ok]. intros Hv. inv_ret Hv.
  injection Hv as <-. unfold verdict_ok. cbn [v_transition v_emit v_severity v_state].
  match goal with |- incident_step _ _ _ _ _ _ _ (abs ?x) => rewrite (abs_stored s a x) by done end.
  by eapply step_trigger.
Qed.
Lemma escalate_incident_ok p st now d f c sev s0 v :
  severity_from_str (last_severity st) = Some s0 ->
  severity_rank (Some s0) < severity_rank sev ->
  escalate_incident p st now d f c sev = Ret v -> verdict_ok p now st v.
Proof.
  intros Ha Hr. unfold escalate_incident. rewrite <- cooling_abs.
  destruct (cooling _ _) eqn:Hc; [intros [= <-]; by apply stay_ok|].
  destruct sev as [s|]; [|intros [= <-]; by apply stay_ok]. intros Hv. inv_ret Hv.
  injection Hv as <-. apply change_severity_abs in Hm as (u & Hu & Habs).
  unfold verdict_ok. simpl. rewrite Habs. by eapply step_escalate.
Qed.
Lemma deescalate_incident_ok p st now d c sev s0 v :
  severity_from_str (last_severity st) = Some s0 ->
  severity_rank sev < severity_rank (Some s0) ->
  deescalate_incident p st now d c sev = Ret v -> verdict_ok p now st v.
Proof.
  intros Ha Hr. unfold deescalate_incident. rewrite <- cooling_abs.
  destruct (_ && negb _) eqn:Hc; [|intros [= <-]; by apply stay_ok]. bools.
  destruct sev as [s|]; [|intros [= <-]; by apply stay_ok]. intros Hv. inv_ret Hv.
  injection Hv as <-. apply change_severity_abs in Hm as (u & Hu & Habs).
  unfold verdict_ok. simpl. rewrite Habs. by eapply step_deescalate.
Qed.
Lemma on_breach_ok p st now d f c sev v :
  on_breach p st now d f c sev = Ret v -> verdict_ok p now st v.
Proof.
  unfold on_breach. intros Hv. inv_ret Hv. injection Hv as <-. apply clear_ok.
  destruct (severity_from_str (last_severity st)) as [s0|] eqn:Ha.
  - destruct (_ <? _) eqn:H1; bools; [by eapply escalate_incident_ok|].
    destruct (severity_rank sev <? _) eqn:H2; bools; [by eapply deescalate_incident_ok|].
    injection Hm as <-. by apply stay_ok.
  - by eapply open_incident_ok.
Qed.
Lemma on_quiet_ok p quotes st now d f v :
  on_quiet p quotes st now d f = Ret v -> verdict_ok p now st v.
Proof.
  unfold on_quiet. destruct (severity_from_str (last_severity st)) as [s0|] eqn:Ha.
  - destruct (resolution_blocks p <=? _); [|intros [= <-]; by apply stay_ok].
    intros Hv. inv_ret Hv. injection Hv as <-. unfold verdict_ok. simpl. by apply step_resolve.
  - intros [= <-]. by apply stay_ok.
Qed.

(** the two ways an evaluation returns *)
Lemma evaluate_inv p quotes st now cls o :
  evaluate_policy p quotes st now cls = Ret o ->
  eligible_quotes p now quotes = [] /\
    o = no_quotes_outcome p (total_source_count p quotes) cls \/
  eligible_quotes p now quotes <> [] /\ exists median v,
    weighted_median (points_of p (eligible_quotes p now quotes)) = Some median /\
    snapshot o = measure p quotes (eligible_quotes p now quotes) now cls median /\
    (if breach_active (snapshot o) then
       on_breach p st now (divergence_pct (snapshot o)) (snap_trigger_floor_pct (snapshot o)) cls
         (snap_sev (snapshot o))
     else on_quiet p (eligible_quotes p now quotes) st now (divergence_pct (snapshot o))
            (snap_trigger_floor_pct (snapshot o))) = Ret v /\
    should_emit_alert o = v_emit v /\ next_state o = v_state v /\
    transition o = v_transition v /\ emitted_severity o = v_severity v.
Proof.
  unfold evaluate_policy. destruct (eligible_quotes p now quotes) as [|q el] eqn:Hel.
  - intros [= <-]. by left.
  - intros Ho. right. split; [done|]. inv_ret Ho. inv_ret Ho. injection Ho as <-.
    exists a, a0. split_and!; try done.
    destruct (weighted_median _) as [m|]; [by injection Hm as ->|done].
Qed.

Lemma evaluate_step p quotes st now cls o :
  evaluate_policy p quotes st now cls = Ret o ->
  incident_step p now (abs st) (negb (bool_decide (eligible_quotes p now quotes = [])))
    (transition o) (should_emit_alert o) (emitted_severity o) (abs (next_state o)).
Proof.
  intros Ho. apply evaluate_inv in Ho
    as [[He ->]|(He & m & v & _ & _ & Hv & -> & -> & -> & ->)].
  - rewrite bool_decide_eq_true_2 by done. constructor.
  - rewrite bool_decide_eq_false_2 by done.
    destruct (breach_active _); [by eapply on_breach_ok|by eapply on_quiet_ok].
Qed.

Lemma quiet_never_emits p quotes st now d f v :
  on_quiet p quotes st now d f = Ret v -> v_emit v = false.
Proof.
  unfold on_quiet. destruct (severity_from_str _); [|by intros [= <-]].
  destruct (resolution_blocks p <=? _); [|by intros [= <-]].
  intros Hv. inv_ret Hv. by injection Hv as <-.
Qed.
Lemma breach_emits_severity p st now d f c sev v :
  on_breach p st now d f c sev = Ret v -> v_emit v = true ->
  v_severity v = sev /\ is_Some (v_severity v).
Proof.
  unfold on_breach. intros Hv. inv_ret Hv. injection Hv as <-. simpl. revert Hm.
  destruct (severity_from_str (last_severity st)).
  - destruct (_ <? _); [|destruct (_ <? _); [|by intros [= <-]]].
    + unfold escalate_incident. destruct (cooldown_active _ _); [by intros [= <-]|].
      destruct sev; [|by intros [= <-]]. intros Hv. inv_ret Hv. by injection Hv as <-.
    + unfold deescalate_incident. destruct (_ && _); [|by intros [= <-]].
      destruct sev; [|by intros [= <-]]. intros Hv. inv_ret Hv. by injection Hv as <-.
  - unfold open_incident. destruct (cooldown_active _ _); [by intros [= <-]|].
    destruct sev; [|by intros [= <-]]. intros Hv. inv_ret Hv. by injection Hv as <-.
Qed.

(** C1: the evaluation implements the incident machine: whatever the quotes, an
    evaluation that returns takes one of its steps. *)
Theorem evaluate_refines_incident p quotes st now cls o :
  evaluate_policy p quotes st now cls = Ret o ->
  incident_step p now (abs st) (negb (bool_decide (eligible_quotes p now quotes = [])))
    (transition o) (should_emit_alert o) (emitted_severity o) (abs (next_state o)).
Proof. apply evaluate_step. Qed.

(** what stands behind an emitted alert *)
Lemma emitted_alert p quotes st now cls o :
  evaluate_policy p quotes st now cls = Ret o -> should_emit_alert o = true ->
  exists median,
    snapshot o = measure p quotes (eligible_quotes p now quotes) now cls median /\
    breach_active (snapshot o) = true /\ emitted_severity o = snap_sev (snapshot o) /\
    is_Some (emitted_severity o) /\ (transition o = Some Trigger \/ transition o = Some Escalate).
Proof.
  intros Ho He. pose proof (evaluate_step _ _ _ _ _ _ Ho) as Hstep.
  apply evaluate_inv in Ho as [[_ ->]|(_ & m & v & _ & Hs & Hv & Hemit & _ & _ & Hsev)]; [done|].
  exists m. split; [done|]. rewrite Hemit in He. rewrite Hsev.
  destruct (breach_active (snapshot o)) eqn:Hb.
  - destruct (breach_emits_severity _ _ _ _ _ _ _ _ Hv He) as [H1 H2].
    split_and!; [done|done|done|]. rewrite Hemit, He in Hstep. inversion Hstep; auto.
  - exfalso. assert (v_emit v = false) by (by eapply quiet_never_emits). congruence.
Qed.
Lemma measure_breach p quotes el now cls m :
  breach_active (measure p quotes el now cls m) = true ->
  min_sources p <= Z.of_nat (length el) /\
  min_healthy_sources (source_filter p) <= Z.of_nat (length el) /\
  f64_le (quorum_pct p) (f64_div (f64_of_Z (Z.of_nat (length el)))
    (f64_of_Z (Z.max (enabled_source_count p) 1))) = true /\
  f64_le (selected_floor p cls) (divergence_pct (measure p quotes el now cls m)) = true /\
  (toggle_oracle_confirmation (toggles p) = true ->
   oracle_confirmation_met p el (selected_floor p cls) now (peg_target p) = true) /\
  f64_le (min_confidence_to_fire p)
    (default f64_zero (snap_confidence_breakdown (measure p quotes el now cls m)
                         !! "total"%string)) = true.
Proof.
  simpl. intros Hb. bools. split_and!; try done; try lia.
  intros Hor. by rewrite Hor in *.
Qed.

(** everything an alert needs *)
Definition full_breach (p : DepegPolicy) (quotes : list QuoteInput) (now : DateTime)
    (cls : ContextClassification) (o : EvaluationOutcome) : Prop :=
  let el := eligible_quotes p now quotes in
  let s := snapshot o in
  min_sources p <= Z.of_nat (length el) /\
  min_healthy_sources (source_filter p) <= Z.of_nat (length el) /\
  f64_le (quorum_pct p) (f64_div (f64_of_Z (Z.of_nat (length el)))
    (f64_of_Z (Z.max (enabled_source_count p) 1))) = true /\
  f64_le (selected_floor p cls) (divergence_pct s) = true /\
  emitted_severity o = severity_for_divergence (divergence_pct s) (selected_bands p cls) /\
  is_Some (emitted_severity o) /\
  (toggle_oracle_confirmation (toggles p) = true ->
   oracle_confirmation_met p el (selected_floor p cls) now (peg_target p) = true) /\
  f64_le (min_confidence_to_fire p)
    (default f64_zero (snap_confidence_breakdown s !! "total"%string)) = true.

(** No alert without a full breach: an emitted alert has at least the
    required number of eligible sources, the quorum ratio, a divergence at or
    above the floor of the context, a severity band (the one emitted), the
    oracle's confirmation when the policy asks for it, and the minimal
    confidence. *)
Theorem alert_requires_breach p quotes st now cls o :
  evaluate_policy p quotes st now cls = Ret o -> should_emit_alert o = true ->
  full_breach p quotes now cls o.
Proof.
  intros Ho He. unfold full_breach. set (el := eligible_quotes p now quotes). set (s := snapshot o).
  destruct (emitted_alert _ _ _ _ _ _ Ho He) as (m & Hs & Hb & Hsev & Hsome & _).
  fold el in Hs. fold s in Hs, Hb, Hsev. rewrite Hs in Hb.
  destruct (measure_breach _ _ _ _ _ _ Hb) as (H1 & H2 & H3 & H4 & H5 & H6).
  rewrite Hs. split_and!; try done. by rewrite Hsev, Hs.
Qed.
(** ** Totality *)

Lemma source_weight_valid p sid :
  map_Forall (fun _ v => f64_valid (ov_weight v)) (source_overrides p) ->
  f64_valid (source_weight p sid).
Proof.
  intros Hov. unfold source_weight, f64_max.
  destruct (source_overrides p !! sid) as [v|] eqn:Hv; [|by vm_compute].
  specialize (Hov sid v Hv). simpl in Hov. by repeat case_match.
Qed.
Lemma eligible_spec p now quotes q :
  q ∈ eligible_quotes p now quotes ->
  q ∈ quotes /\ counted p q = true /\ fresh p now q = true /\ weight_ok p q = true.
Proof.
  intros Hq. apply list_elem_of_filter in Hq as [He Hq]. unfold eligible in He. by bools.
Qed.
Lemma eligible_weight_pos p q :
  weight_ok p q = true -> f64_lt f64_zero (source_weight p (q_source_id q)) = true.
Proof.
  unfold weight_ok. intros Hw. bools. apply f64_nle_lt; [|done|done].
  by destruct (source_weight p (q_source_id q)).
Qed.
Lemma eligible_points_ok p now quotes :
  map_Forall (fun _ v => f64_valid (ov_weight v)) (source_overrides p) ->
  Forall (fun q => f64_valid q.2 /\ f64_lt f64_zero q.2 = true)
    (points_of p (eligible_quotes p now quotes)).
Proof.
  intros Hov. apply Forall_fmap, Forall_forall. intros q Hq. simpl.
  apply eligible_spec in Hq as (_ & _ & _ & Hw).
  split; [by apply source_weight_valid|by apply eligible_weight_pos].
Qed.

Lemma on_breach_total p st now d f c sev u :
  add_seconds now (cooldown_sec p) = Ret u -> is_ret (on_breach p st now d f c sev).
Proof.
  intros Hu. unfold on_breach, open_incident, escalate_incident, deescalate_incident,
    change_severity, is_ret. rewrite Hu.
  repeat case_match; simpl; by eexists.
Qed.
Lemma on_quiet_total p quotes st now d f u :
  add_seconds now (cooldown_sec p) = Ret u -> is_ret (on_quiet p quotes st now d f).
Proof.
  intros Hu. unfold on_quiet, is_ret. rewrite Hu. repeat case_match; simpl; by eexists.
Qed.

(** the configured weights are numbers and those of the eligible quotes do not
    add up to infinity *)
Definition weights_usable (p : DepegPolicy) (now : DateTime) (quotes : list QuoteInput) : Prop :=
  map_Forall (fun _ v => f64_valid (ov_weight v)) (source_overrides p) /\
  is_finite (weight_upto (sort_by price_le (points_of p (eligible_quotes p now quotes)))) = true.

(** An evaluation always returns: with weights that are numbers and a total
    that does not overflow there is no error, and no panic as long as the end
    of the cooldown is a date. *)
Theorem evaluate_returns p quotes st now cls u :
  weights_usable p now quotes ->
  add_seconds now (cooldown_sec p) = Ret u ->
  is_ret (evaluate_policy p quotes st now cls).
Proof.
  intros [Hov Hfin] Hu. unfold evaluate_policy.
  pose proof (eligible_points_ok p now quotes Hov) as Hpts.
  destruct (eligible_quotes p now quotes) as [|q el] eqn:Hel; [by eexists|].
  assert (is_Some (weighted_median (points_of p (q :: el)))) as [m ->].
  { apply weighted_median_is_Some; [done|done|]. exact Hfin. }
  cbn [of_option mbind outcome_bind]. destruct (breach_active _).
  - edestruct on_breach_total as [v ->]; [exact Hu|]. by eexists.
  - edestruct on_quiet_total as [v ->]; [exact Hu|]. by eexists.
Qed.

(** ** Runs *)

Definition evaluation : Type := list QuoteInput * DateTime * ContextClassification.
(** the times at which the evaluations of a run emitted an alert *)
Fixpoint run_evaluations (p : DepegPolicy) (st : DepegAlertState) (ins : list evaluation)
  : outcome (DepegAlertState * list DateTime) :=
  match ins with
  | [] => Ret (st, [])
  | (quotes, now, cls) :: rest =>
      o ← evaluate_policy p quotes st now cls;
      r ← run_evaluations p (next_state o) rest;
      Ret (r.1, if should_emit_alert o then now :: r.2 else r.2)
  end.
Definition eval_time (e : evaluation) : DateTime := e.1.2.

(** the cooldown runs until [T] at least *)
Definition cool_until (i : incident) (T : Z) : Prop := exists u, until i = Some u /\ T <= ns u.
Lemma incident_step_cools p now i tr em sv i' T :
  incident_step p now i true tr em sv i' -> T <= ns now + cooldown_sec p * 1000000000 ->
  cool_until i T -> cool_until i' T /\ (em = true -> T <= ns now).
Proof.
  intros Hs HT (u0 & Hu0 & Hle).
  assert (Hnot : cooling i now = false -> T <= ns now).
  { unfold cooling, dt_lt. rewrite Hu0. intros. bools. lia. }
  assert (Hu : forall u, add_seconds now (cooldown_sec p) = Ret u -> T <= ns u)
    by (intros u Hu; apply add_seconds_spec in Hu; lia).
  inversion Hs; subst; split; try done; try (by intros _; apply Hnot);
    try (eexists; split; [done|]; by apply Hu). by exists u0.
Qed.
Lemma incident_step_emit p now i b tr sv i' :
  incident_step p now i b tr true sv i' ->
  cool_until i' (ns now + cooldown_sec p * 1000000000).
Proof.
  intros Hs. inversion Hs; subst; eexists; (split; [done|]);
    match goal with H : add_seconds _ _ = Ret _ |- _ => apply add_seconds_spec in H; lia end.
Qed.

(** what each evaluation of a run returned, in the order of the evaluations *)
Fixpoint run_outcomes (p : DepegPolicy) (st : DepegAlertState) (ins : list evaluation)
  : outcome (list EvaluationOutcome) :=
  match ins with
  | [] => Ret []
  | (quotes, now, cls) :: rest =>
      o ← evaluate_policy p quotes st now cls;
      os ← run_outcomes p (next_state o) rest;
      Ret (o :: os)
  end.
(** the evaluation at place [n] of the run emitted an alert *)
Definition alert_at (ins : list evaluation) (os : list EvaluationOutcome) (n : nat) (t : DateTime)
  : Prop :=
  exists e o, ins !! n = Some e /\ os !! n = Some o /\ eval_time e = t /\ should_emit_alert o = true.
(** the evaluation at place [n] found no quote to measure the market with *)
Definition blind_at (p : DepegPolicy) (ins : list evaluation) (n : nat) : Prop :=
  exists e, ins !! n = Some e /\ eligible_quotes p (eval_time e) e.1.1 = [].

Lemma run_outcomes_cons p st quotes now cls rest os :
  run_outcomes p st ((quotes, now, cls) :: rest) = Ret os ->
  exists o os', evaluate_policy p quotes st now cls = Ret o /\
    run_outcomes p (next_state o) rest = Ret os' /\ os = o :: os'.
Proof. simpl. intros Hr. inv_ret Hr. inv_ret Hr. injection Hr as <-. by exists a, a0. Qed.

(** while a cooldown runs until [T] no alert comes earlier, unless a blind
    evaluation forgot the cooldown on the way *)
Lemma run_cooled p ins st os T n t :
  run_outcomes p st ins = Ret os -> cool_until (abs st) T ->
  Forall (fun e => T <= ns (eval_time e) + cooldown_sec p * 1000000000) ins ->
  alert_at ins os n t -> T <= ns t \/ exists k, (k < n)%nat /\ blind_at p ins k.
Proof.
  revert st os n. induction ins as [|[[quotes now] cls] ins IH]; intros st os n Hr Hc HT Ha.
  { by destruct Ha as (e & o & He & _). }
  apply run_outcomes_cons in Hr as (o & os' & Ho & Hr & ->). apply Forall_cons in HT as [HT HTs].
  apply evaluate_step in Ho. destruct n as [|n].
  - destruct Ha as (e & o' & He & Ho' & Ht & Hem). simplify_eq/=. left.
    case_bool_decide; [inversion Ho; congruence|].
    by apply (incident_step_cools _ _ _ _ _ _ _ T Ho HT Hc).
  - case_bool_decide as Hel.
    + right. exists 0%nat. split; [lia|]. by exists (quotes, now, cls).
    + destruct (incident_step_cools _ _ _ _ _ _ _ T Ho HT Hc) as [Hc' _].
      destruct (IH _ _ n Hr Hc' HTs Ha) as [HTt|(k & Hk & Hb)]; [by left|].
      right. exists (S k). split; [lia|done].
Qed.

(** C3: alerts are spaced by the cooldown: over any run of evaluations that return, at
    non-decreasing times, whatever escalations, resolutions and new incidents
    lie between, an alert comes at least [cooldown_sec] after an earlier one,
    unless some evaluation between the two had no eligible quote (which forgets
    the incident and its cooldown). *)
Theorem alerts_spaced p st ins os i j t1 t2 :
  0 <= cooldown_sec p -> run_outcomes p st ins = Ret os ->
  StronglySorted (fun a b => ns (eval_time a) <= ns (eval_time b)) ins ->
  (i < j)%nat -> alert_at ins os i t1 -> alert_at ins os j t2 ->
  ns t1 + cooldown_sec p * 1000000000 <= ns t2 \/
  exists k, (i < k < j)%nat /\ blind_at p ins k.
Proof.
  intros Hcd. revert st os i j.
  induction ins as [|[[quotes now] cls] ins IH]; intros st os i j Hr Hs Hij Ha1 Ha2.
  { by destruct Ha1 as (e & o & He & _). }
  apply run_outcomes_cons in Hr as (o & os' & Ho & Hr & ->). inversion Hs as [|? ? Hs' Hle]; subst.
  destruct j as [|j]; [lia|]. destruct i as [|i].
  - destruct Ha1 as (e & o' & He & Ho' & Ht & Hem). simplify_eq/=.
    apply evaluate_step in Ho. rewrite Hem in Ho. apply incident_step_emit in Ho.
    destruct (run_cooled _ _ _ _ _ j t2 Hr Ho) as [H1|(k & Hk & Hb)]; [|done|by left|].
    + eapply Forall_impl; [exact Hle|]. intros e Hle'. unfold eval_time in Hle' at 1. simpl in Hle'. lia.
    + right. exists (S k). split; [lia|done].
  - destruct (IH _ _ i j Hr Hs' ltac:(lia) Ha1 Ha2) as [H1|(k & Hk & Hb)]; [by left|].
    right. exists (S k). split; [lia|done].
Qed.

(** ** Resolution *)

(** an evaluation that finds the market back below the floor [f] *)
Definition quiet (p : DepegPolicy) (f : f64) (e : evaluation) : Prop :=
  let '(quotes, now, cls) := e in
  let el := eligible_quotes p now quotes in
  exists m, el <> [] /\ weighted_median (points_of p el) = Some m /\
    breach_active (measure p quotes el now cls m) = false /\
    f64_lt (divergence m (peg_target p)) f = true /\
    available_oracles_within_resolution_floor el f (peg_target p) = true /\
    is_ret (add_seconds now (cooldown_sec p)).

Lemma quiet_step p f st quotes now cls s0 :
  quiet p f (quotes, now, cls) -> severity_from_str (last_severity st) = Some s0 ->
  trigger_floor_pct st = Some f -> 0 <= below_trigger_blocks st < resolution_blocks p ->
  resolution_blocks p <= i64_max ->
  exists o, evaluate_policy p quotes st now cls = Ret o /\ should_emit_alert o = false /\
    if below_trigger_blocks st + 1 <? resolution_blocks p then
      severity_from_str (last_severity (next_state o)) = Some s0 /\
      trigger_floor_pct (next_state o) = Some f /\
      below_trigger_blocks (next_state o) = below_trigger_blocks st + 1
    else transition o = Some Resolve /\ last_severity (next_state o) = None.
Proof.
  intros (m & Hne & Hmed & Hb & Hdiv & Hor & [u Hu]) Hs Hf Hblk Hmax.
  unfold evaluate_policy. destruct (eligible_quotes p now quotes) as [|q el]; [done|].
  rewrite Hmed. cbn [of_option mbind outcome_bind]. rewrite Hb.
  unfold on_quiet. rewrite Hs, Hf. cbn [from_option id].
  change (divergence_pct (measure p quotes (q :: el) now cls m)) with (divergence m (peg_target p)).
  rewrite Hdiv, Hor. cbn [andb]. rewrite wrap_i64_small by (unfold i64_min; lia).
  destruct (_ <? _) eqn:Hlt; bools.
  - assert (resolution_blocks p <=? below_trigger_blocks st + 1 = false) as -> by lia.
    eexists. split; [done|]. by simpl.
  - assert (resolution_blocks p <=? below_trigger_blocks st + 1 = true) as -> by lia.
    rewrite Hu. eexists. split; [done|]. by simpl.
Qed.

(** An incident whose market stays quiet is resolved: after as many
    consecutive quiet evaluations as are missing to [resolution_blocks] the run
    has returned, emitted nothing, and no incident is active. *)
Theorem quiet_market_resolves p f st ins s0 :
  severity_from_str (last_severity st) = Some s0 -> trigger_floor_pct st = Some f ->
  0 <= below_trigger_blocks st < resolution_blocks p -> resolution_blocks p <= i64_max ->
  Z.of_nat (length ins) = resolution_blocks p - below_trigger_blocks st ->
  Forall (quiet p f) ins ->
  exists st', run_evaluations p st ins = Ret (st', []) /\ active (abs st') = None.
Proof.
  intros Hs Hf Hblk Hmax Hlen Hq. revert st Hs Hf Hblk Hlen.
  induction Hq as [|[[quotes now] cls] ins Hq Hqs IH]; intros st Hs Hf Hblk Hlen; [simpl in Hlen; lia|].
  destruct (quiet_step p f st quotes now cls s0 Hq Hs Hf Hblk Hmax) as (o & Ho & He & Hnext).
  rewrite length_cons, Nat2Z.inj_succ in Hlen. simpl. rewrite Ho. simpl. rewrite He.
  destruct (_ <? _) eqn:Hlt; bools.
  - destruct Hnext as (Hs' & Hf' & Hb').
    destruct (IH (next_state o) Hs' Hf' ltac:(lia) ltac:(lia)) as (st' & -> & Ha).
    by exists st'.
  - destruct ins as [|e ins]; [|simpl in Hlen; lia]. destruct Hnext as [_ Hn].
    exists (next_state o). split; [done|]. unfold abs. simpl. by rewrite Hn.
Qed.

End incident.

(** ** Concrete runs *)
Section examples.
#[local] Existing Instance chrono_Z.

Definition oracle_quotes (cents : Z) (t : Z) : list QuoteInput :=
  (fun s => {| q_source_id := s; q_source_kind := "oracle"; q_price := f64_lit cents 100;
               q_observed_at := sec t |}) <$> ["chainlink"; "pyth"; "redstone"]%string.
Definition sample_eval (cents t : Z) : evaluation := (oracle_quotes cents t, sec t, Isolated).
Definition sample_outcome : EvaluationOutcome :=
  outcome_or (no_quotes_outcome sample_policy 0 Isolated)
    (evaluate_policy sample_policy (oracle_quotes 90 10) DepegAlertState_default (sec 10) Isolated).
Lemma sample_outcome_eq :
  evaluate_policy sample_policy (oracle_quotes 90 10) DepegAlertState_default (sec 10) Isolated =
  Ret sample_outcome.
Proof. reflexivity. Qed.
(** trigger at 10 s (2 % off: medium), escalation at 400 s (10 % off) *)
Definition sample_run : list evaluation := [sample_eval 98 10; sample_eval 90 400].

Lemma evaluate_refines_incident_witness :
  incident_step sample_policy (sec 10) {| active := None; until := None |} true
    (transition sample_outcome) (should_emit_alert sample_outcome)
    (emitted_severity sample_outcome) (abs (next_state sample_outcome)).
Proof.
  exact (evaluate_refines_incident sample_policy (oracle_quotes 90 10) DepegAlertState_default
    (sec 10) Isolated sample_outcome sample_outcome_eq).
Defined.
Lemma alert_requires_breach_witness :
  should_emit_alert sample_outcome = true /\ 3 <= 3 /\ is_Some (emitted_severity sample_outcome).
Proof.
  assert (He : should_emit_alert sample_outcome = true) by (vm_compute; reflexivity).
  destruct (alert_requires_breach sample_policy (oracle_quotes 90 10) DepegAlertState_default
    (sec 10) Isolated sample_outcome sample_outcome_eq He) as (H1 & _ & _ & _ & _ & H2 & _).
  split; [exact He|split; [lia|exact H2]].
Defined.
Lemma evaluate_returns_witness :
  is_ret (evaluate_policy sample_policy (oracle_quotes 90 10) DepegAlertState_default (sec 10)
    Isolated).
Proof.
  apply (evaluate_returns sample_policy (oracle_quotes 90 10) DepegAlertState_default (sec 10)
    Isolated (sec 310)); [split; [apply map_Forall_empty|reflexivity]|reflexivity].
Defined.
Definition outcome_of (st : DepegAlertState) (e : evaluation) : EvaluationOutcome :=
  outcome_or (no_quotes_outcome sample_policy 0 Isolated)
    (evaluate_policy sample_policy e.1.1 st (eval_time e) e.2).
Definition triggered : EvaluationOutcome := outcome_of DepegAlertState_default (sample_eval 98 10).
Definition escalated : EvaluationOutcome := outcome_of (next_state triggered) (sample_eval 90 400).
Definition sample_outcomes : list EvaluationOutcome := [triggered; escalated].
Lemma sample_alert_1 : alert_at sample_run sample_outcomes 0 (sec 10).
Proof. exists (sample_eval 98 10), triggered. repeat (split; [reflexivity|]). reflexivity. Qed.
Lemma sample_alert_2 : alert_at sample_run sample_outcomes 1 (sec 400).
Proof. exists (sample_eval 90 400), escalated. repeat (split; [reflexivity|]). reflexivity. Qed.
Lemma alerts_spaced_witness :
  alert_at sample_run sample_outcomes 0 (sec 10) /\ alert_at sample_run sample_outcomes 1 (sec 400) /\
  (ns (sec 10) + 300 * 1000000000 <= ns (sec 400) \/
   exists k, (0 < k < 1)%nat /\ blind_at sample_policy sample_run k).
Proof.
  split; [exact sample_alert_1|split; [exact sample_alert_2|]].
  apply (alerts_spaced sample_policy DepegAlertState_default sample_run sample_outcomes 0 1).
  - done.
  - reflexivity.
  - repeat constructor. discriminate.
  - lia.
  - exact sample_alert_1.
  - exact sample_alert_2.
Defined.
Definition open_state : DepegAlertState := next_state sample_outcome.
Lemma quiet_market_resolves_witness :
  exists st', run_evaluations sample_policy open_state [sample_eval 100 20; sample_eval 100 30] =
    Ret (st', []) /\ active (abs st') = None.
Proof.
  apply (quiet_market_resolves sample_policy (f64_lit 5 10) open_state _ Critical).
  - reflexivity.
  - reflexivity.
  - split; reflexivity || discriminate.
  - discriminate.
  - reflexivity.
  - repeat constructor; exists (f64_of_Z 1); (split; [discriminate|]);
      repeat (split; [reflexivity|]); eexists; reflexivity.
Defined.
End examples.
