(* ===== verification/DepegQuotes.v ===== *)
(** * The depeg quote cache ([apps/detector/src/patterns/depeg.rs])

    For each (tenant, market, replay scope) the recent quotes of every source.
    A history is sorted by event time, free of consecutive duplicates and at
    most [MAX_QUOTE_HISTORY_PER_SOURCE] long; the cache is bounded in age and
    in keys.  Hash-map iteration is [HashOrder]. *)
From S2P Require Import Prelude F64 Text Ports EventSchema CachePrune DepegPolicy DepegEngine.

Definition DEPEG_QUOTE_CACHE_TTL_MINUTES : Z := 120.
Definition DEPEG_QUOTE_CACHE_MAX_KEYS : nat := 2048.
Definition MAX_QUOTE_HISTORY_PER_SOURCE : nat := 16.

Section quotes.
Context `{Chrono} `{HashOrder}.

Notation market := (gmap string (list QuoteInput)).
Notation cache_key := (string * string * string)%type.

Definition observed_le (a b : QuoteInput) : bool := dt_le (q_observed_at a) (q_observed_at b).
Definition same_quote (a b : QuoteInput) : bool :=
  bool_decide (q_observed_at a = q_observed_at b) && f64_eq (q_price a) (q_price b)
  && bool_decide (q_source_kind a = q_source_kind b)
  && bool_decide (q_source_id a = q_source_id b).
Definition push_quote (history : list QuoteInput) (q : QuoteInput) : list QuoteInput :=
  let history := dedup_by same_quote (sort_by observed_le (history ++ [q])) in
  if (MAX_QUOTE_HISTORY_PER_SOURCE <? length history)%nat
  then drop (length history - MAX_QUOTE_HISTORY_PER_SOURCE) history else history.
Definition remember_quote (m : market) (q : QuoteInput) : market :=
  <[q_source_id q := push_quote (default [] (m !! q_source_id q)) q]> m.

(** [Iterator::max] over instants *)
Definition max_time (l : list DateTime) : option DateTime :=
  foldl (fun acc t => match acc with None => Some t | Some u => Some (dt_max u t) end) None l.
Definition latest_quote_timestamp (m : market) : option DateTime :=
  max_time (omap (fun h => q_observed_at <$> last h) (hash_values m)).
Definition latest_at (now : DateTime) (history : list QuoteInput) : option QuoteInput :=
  find_map (fun q => if dt_le (q_observed_at q) now then Some q else None) (rev history).
Definition latest_quotes_for_time (m : market) (now : DateTime) : list QuoteInput :=
  omap (latest_at now) (hash_values m).

Definition prune_quote_cache (cache : gmap cache_key market) (now : DateTime) (current : cache_key)
  : outcome (gmap cache_key market) :=
  prune_cache latest_quote_timestamp DEPEG_QUOTE_CACHE_MAX_KEYS DEPEG_QUOTE_CACHE_TTL_MINUTES
    cache now current.

(** ** Histories *)

Definition history_ok (h : list QuoteInput) : Prop :=
  sorted_by observed_le h /\ (length h <= MAX_QUOTE_HISTORY_PER_SOURCE)%nat.
Definition market_ok (m : market) : Prop :=
  map_Forall (fun s h => history_ok h /\ Forall (fun q => q_source_id q = s) h) m.

Lemma observed_le_total a b : observed_le a b = true \/ observed_le b a = true.
Proof. unfold observed_le, dt_le. lia. Qed.
Lemma observed_le_trans a b c :
  observed_le a b = true -> observed_le b c = true -> observed_le a c = true.
Proof. unfold observed_le, dt_le. lia. Qed.

Lemma push_quote_ok h q : history_ok (push_quote h q).
Proof.
  unfold push_quote. set (d := dedup_by same_quote _).
  assert (Hs : sorted_by observed_le d).
  { eapply sublist_sorted_by; [apply dedup_by_sublist|].
    apply sort_by_sorted; [apply observed_le_total|apply observed_le_trans]. }
  destruct (_ <? _)%nat eqn:Hlen; split; [by apply drop_sorted_by| |done|].
  - rewrite length_drop. lia.
  - apply Nat.ltb_ge in Hlen. done.
Qed.
Lemma elem_of_push_quote h q x : x ∈ push_quote h q -> x ∈ h \/ x = q.
Proof.
  unfold push_quote. intros Hx.
  assert (x ∈ dedup_by same_quote (sort_by observed_le (h ++ [q]))) as Hd.
  { destruct (_ <? _)%nat; [|done]. eapply elem_of_sublist; [exact Hx|apply sublist_drop]. }
  eapply elem_of_sublist in Hd; [|apply dedup_by_sublist].
  apply elem_of_sort_by, elem_of_app in Hd as [Hd|Hd]; [by left|right].
  by apply list_elem_of_singleton in Hd.
Qed.

Lemma remember_ok m q : market_ok m -> market_ok (remember_quote m q).
Proof.
  intros Hm. apply map_Forall_insert_2; [|done]. split; [apply push_quote_ok|].
  apply Forall_forall. intros x Hx. apply elem_of_push_quote in Hx as [Hx| ->]; [|done].
  destruct (m !! q_source_id q) as [h|] eqn:Hh; simpl in Hx; [|by apply not_elem_of_nil in Hx].
  destruct (Hm _ _ Hh) as [_ Hsrc]. by eapply (proj1 (Forall_forall _ _) Hsrc).
Qed.

(** Remembering a quote keeps every history of the market sorted by event
    time, within its bound and about one source, whatever order the quotes
    arrive in, and leaves the other sources alone. *)
Theorem remember_quote_ok m q :
  market_ok m ->
  market_ok (remember_quote m q) /\
  (forall s, s <> q_source_id q -> remember_quote m q !! s = m !! s).
Proof.
  intros Hm. split; [by apply remember_ok|]. intros s Hs. unfold remember_quote.
  by rewrite lookup_insert_ne.
Qed.

(** *** The latest quote at a time *)

Lemma find_map_rev_spec now h q :
  sorted_by observed_le h -> latest_at now h = Some q ->
  q ∈ h /\ dt_le (q_observed_at q) now = true /\
  (forall x, x ∈ h -> dt_le (q_observed_at x) now = true -> observed_le x q = true).
Proof.
  unfold latest_at. induction h as [|x h IH] using rev_ind; intros Hs; [done|].
  rewrite rev_app_distr. simpl. apply sorted_by_app_inv in Hs as (Hs & _ & Hx).
  destruct (dt_le (q_observed_at x) now) eqn:Hle.
  - intros [= <-]. split_and!; [apply elem_of_app; right; by apply list_elem_of_singleton|done|].
    intros y [Hy|Hy]%elem_of_app _.
    + apply Hx; [done|by apply list_elem_of_singleton].
    + apply list_elem_of_singleton in Hy as ->. unfold observed_le, dt_le. lia.
  - intros Hf. destruct (IH Hs Hf) as (H1 & H2 & H3). split_and!; [apply elem_of_app; by left|done|].
    intros y [Hy|Hy]%elem_of_app Hley; [by apply H3|].
    apply list_elem_of_singleton in Hy as ->. congruence.
Qed.
Lemma latest_quotes_source m now q :
  market_ok m -> q ∈ latest_quotes_for_time m now ->
  exists h, m !! q_source_id q = Some h /\ latest_at now h = Some q.
Proof.
  intros Hm Hq. unfold latest_quotes_for_time in Hq. apply list_elem_of_omap in Hq as (h & Hh & Hq).
  apply elem_of_hash_values in Hh as [s Hs]. destruct (Hm _ _ Hs) as [[Hsort _] Hsrc].
  destruct (find_map_rev_spec _ _ _ Hsort Hq) as (Hin & _).
  assert (q_source_id q = s) as <- by (by eapply (proj1 (Forall_forall _ _) Hsrc)). by exists h.
Qed.
Lemma latest_quotes_nodup m now :
  market_ok m -> NoDup (q_source_id <$> latest_quotes_for_time m now).
Proof.
  intros Hm. unfold latest_quotes_for_time, hash_values.
  assert (Hents : NoDup (hash_entries m).*1 /\ forall s h, (s, h) ∈ hash_entries m ->
            Forall (fun q => q_source_id q = s) h).
  { split; [rewrite hash_entries_perm; apply NoDup_fst_map_to_list|].
    intros s h Hin. apply elem_of_hash_entries in Hin. by destruct (Hm _ _ Hin). }
  destruct Hents as [Hnd Hsrc]. clear Hm. induction (hash_entries m) as [|[s h] l IH]; simpl; [constructor|].
  apply NoDup_cons in Hnd as [Hs Hnd].
  assert (IH' : NoDup (q_source_id <$> omap (latest_at now) l.*2)).
  { apply IH; [done|]. intros s' h' Hin. apply Hsrc. apply elem_of_cons. by right. }
  assert (Hlat : forall s' h' q, (s', h') ∈ (s, h) :: l -> latest_at now h' = Some q ->
            q_source_id q = s').
  { intros s' h' q Hin Hq. apply (proj1 (Forall_forall _ _) (Hsrc _ _ Hin)).
    unfold latest_at in Hq. apply list_elem_of_In, in_rev, list_elem_of_In.
    revert Hq. induction (rev h') as [|y ys IHy]; simpl; [done|].
    destruct (dt_le _ _); [intros [= <-]; left|intros; right; by apply IHy]. }
  destruct (latest_at now h) as [q|] eqn:Hq; simpl; [|done].
  constructor; [|done]. rewrite (Hlat s h q) by (done || apply elem_of_cons; by left).
  intros Hin. apply list_elem_of_fmap in Hin as (q' & Heq & Hin).
  apply list_elem_of_omap in Hin as (h' & Hh' & Hq').
  apply list_elem_of_fmap in Hh' as ([s' h''] & -> & Hin').
  apply Hs. apply list_elem_of_fmap. exists (s', h''). split; [|done]. simpl.
  rewrite Heq. apply (Hlat s' h''); [apply elem_of_cons; by right|done].
Qed.

(** The evaluation of an event sees each source at most once, through the
    latest quote that existed at the event's time: none is from the future,
    and no older quote of the source hides a newer eligible one. *)
Theorem latest_quotes_spec m now :
  market_ok m ->
  NoDup (q_source_id <$> latest_quotes_for_time m now) /\
  (forall q, q ∈ latest_quotes_for_time m now <->
     exists h, m !! q_source_id q = Some h /\ latest_at now h = Some q) /\
  (forall s h q, m !! s = Some h -> latest_at now h = Some q ->
     dt_le (q_observed_at q) now = true /\
     forall x, x ∈ h -> dt_le (q_observed_at x) now = true -> observed_le x q = true).
Proof.
  intros Hm. split_and!; [by apply latest_quotes_nodup| |].
  - intros q. split; [by apply latest_quotes_source|]. intros (h & Hh & Hq).
    unfold latest_quotes_for_time. apply list_elem_of_omap. exists h. split; [|done].
    apply elem_of_hash_values. by eexists.
  - intros s h q Hh Hq. destruct (Hm _ _ Hh) as [[Hs _] _].
    by destruct (find_map_rev_spec _ _ _ Hs Hq) as (_ & ? & ?).
Qed.

(** ** Pruning *)

Lemma max_keys_pos : (0 < DEPEG_QUOTE_CACHE_MAX_KEYS)%nat.
Proof. unfold DEPEG_QUOTE_CACHE_MAX_KEYS. lia. Qed.
Lemma prune_quote_subset cache now current cache' :
  prune_quote_cache cache now current = Ret cache' ->
  cache' ⊆ cache /\ (size cache' <= DEPEG_QUOTE_CACHE_MAX_KEYS)%nat /\
  cache' !! current = cache !! current.
Proof. apply prune_subset, max_keys_pos. Qed.

(** Pruning only removes entries, never the market being evaluated; what
    survives of the others is younger than the TTL; at most
    [DEPEG_QUOTE_CACHE_MAX_KEYS] entries remain; and an entry that was young
    enough but evicted is no younger than any other survivor. *)
Theorem prune_quote_cache_spec cache now current cache' :
  prune_quote_cache cache now current = Ret cache' ->
  cache' ⊆ cache /\ cache' !! current = cache !! current /\
  (size cache' <= DEPEG_QUOTE_CACHE_MAX_KEYS)%nat /\
  (forall k m, k <> current -> cache' !! k = Some m ->
     exists t, latest_quote_timestamp m = Some t /\
       ns now - DEPEG_QUOTE_CACHE_TTL_MINUTES * 60000000000 <= ns t) /\
  (forall k m t k' m', k <> current -> k' <> current -> cache !! k = Some m -> cache' !! k = None ->
     latest_quote_timestamp m = Some t ->
     ns now - DEPEG_QUOTE_CACHE_TTL_MINUTES * 60000000000 <= ns t ->
     cache' !! k' = Some m' -> ns t <= ns (entry_time latest_quote_timestamp m')).
Proof.
  intros Hp. destruct (prune_quote_subset _ _ _ _ Hp) as (Hsub & Hsize & Hcur).
  destruct (prune_ages _ _ _ _ _ _ _ max_keys_pos Hp) as [Hyoung Hevict]. done.
Qed.
End quotes.
