(* ===== verification/DepegPattern.v ===== *)
(** * The depeg pattern ([apps/detector/src/patterns/depeg.rs], [DepegPattern])

    The in-memory state of the pattern, its configuration, the context
    assessment over the markets of a tenant, and [process_event] as a function
    of the pattern, the database and the event.  Parameters: the derived
    serde codecs ([DepegCodec]), the two UUIDs of a detection, hash-map order.
    Logging is left out; [depeg_test_mode_reason], which only feeds the log, is
    modelled because it explains the state machine. *)
From Stdlib Require Import Strings.String.
From stdpp Require Import strings.
From S2P Require Import Prelude F64 Text Ports EventSchema FieldMapping PatternCommon DepegPolicy DepegEngine DepegQuotes.

(** a float that is not finite is written as [null] and read back as [None] *)
Definition finite_state `{Chrono} (st : DepegAlertState) : DepegAlertState :=
  {| cooldown_until := cooldown_until st; last_alerted_at := last_alerted_at st;
     last_divergence_pct := last_divergence_pct st ≫= finite_f64;
     last_severity := last_severity st; last_classification := last_classification st;
     trigger_floor_pct := trigger_floor_pct st ≫= finite_f64;
     below_severity_blocks := below_severity_blocks st;
     below_trigger_blocks := below_trigger_blocks st; high_water_mark := high_water_mark st |}.

(** the derived codecs of the depeg types *)
Class DepegCodec `{Chrono} `{SerdeJson} := {
  policies_from_value : Value -> option (list DepegPolicy);
  contributor_to_value : EvidenceContributor -> Value;
  systemic_market_to_value : SystemicMarketContext -> Value;
  classification_to_value : ContextClassification -> Value;
  transition_to_value : IncidentTransition -> Value;
  state_to_value : DepegAlertState -> outcome Value;
  state_from_value : Value -> option DepegAlertState;
  state_roundtrip : forall st v, state_to_value st = Ret v ->
    state_from_value v = Some (finite_state st)
}.

Section pattern.
Context `{Chrono} `{SerdeJson} `{!FieldCodec} `{Unicode} `{Powi} `{HashOrder} `{!DepegCodec}
  `{!PatternStore}.

Definition PATTERN_ID : string := "depeg".

Record SourceBindingRuntimeOverride := {
  active_stream_ids : list string;
  stream_field_mappings : gmap string (list FieldMapping)
}.
Record DepegPattern := {
  policies : gmap (string * string) DepegPolicy;
  quote_cache : gmap (string * string * string) (gmap string (list QuoteInput));
  source_bindings : gmap string (gset string);
  source_mapping_overrides : gmap string (gmap string SourceBindingRuntimeOverride)
}.
Definition DepegPattern_default : DepegPattern :=
  {| policies := ∅; quote_cache := ∅; source_bindings := ∅; source_mapping_overrides := ∅ |}.

Definition state_key (market : string) (simulation_run_id : option string) : string :=
  match trimmed_nonempty simulation_run_id with
  | Some run_id => market +:+ "::" +:+ run_id
  | None => market
  end.

(** ** Configuration *)

Definition field_array (k : string) (m : gmap string Value) : option (list Value) :=
  v ← m !! k; as_array v.
Definition parse_stream (acc : gmap string (list FieldMapping)) (stream : Value)
  : gmap string (list FieldMapping) :=
  match trimmed_nonempty (get_str "id" stream), vget "field_mappings" stream ≫= mappings_from_value with
  | Some stream_id, Some (m :: ms) => <[stream_id := m :: ms]> acc
  | _, _ => acc
  end.
Definition parse_binding (acc : gmap string SourceBindingRuntimeOverride) (binding : Value)
  : gmap string SourceBindingRuntimeOverride :=
  if negb (default true (get_bool "enabled" binding)) then acc
  else match trimmed_nonempty (get_str "source_id" binding) with
       | None => acc
       | Some source_id =>
           let config : gmap string Value :=
             default ∅ (vget "binding_config" binding ≫= as_object) in
           let ids : list string :=
             omap (fun v => trimmed_nonempty (as_str v))
               (default [] (field_array "active_stream_ids" config)) in
           let mappings :=
             foldl parse_stream ∅ (default [] (field_array "streams" config)) in
           if bool_decide (ids = []) && bool_decide (mappings = ∅) then acc
           else <[source_id := {| active_stream_ids := ids; stream_field_mappings := mappings |}]> acc
       end.
Definition parse_source_mapping_overrides (config : Value)
  : gmap string SourceBindingRuntimeOverride :=
  foldl parse_binding ∅ (default [] (vget "source_bindings" config ≫= as_array)).

Definition or_insert (k : string) (v : Value) (m : gmap string Value) : gmap string Value :=
  match m !! k with Some _ => m | None => <[k := v]> m end.
Definition normalized_policy_config (config : Value) : Value :=
  match as_object config with
  | None => config
  | Some object =>
      match object !! "policies"%string with
      | Some policies => policies
      | None =>
          match object !! "market_key"%string with
          | None => config
          | Some _ => VArray [VObject (or_insert "stale_timeout_ms" (VInt 30000)
                                (or_insert "quorum_pct" (VFloat f64_zero) object))]
          end
      end
  end.
Definition with_tenant (tenant : string) (p : DepegPolicy) : DepegPolicy :=
  {| pol_tenant_id := tenant; pol_market_key := pol_market_key p; peg_target := peg_target p;
     min_sources := min_sources p; quorum_pct := quorum_pct p; cooldown_sec := cooldown_sec p;
     stale_timeout_ms := stale_timeout_ms p; severity_bands := severity_bands p;
     severity_bands_isolated := severity_bands_isolated p;
     severity_bands_systemic := severity_bands_systemic p;
     isolated_floor_pct := isolated_floor_pct p; systemic_floor_pct := systemic_floor_pct p;
     deescalation_blocks := deescalation_blocks p; resolution_blocks := resolution_blocks p;
     source_filter := source_filter p; toggles := toggles p;
     confidence_weights := confidence_weights p;
     min_confidence_to_fire := min_confidence_to_fire p; source_overrides := source_overrides p |}.
Definition is_valid (p : DepegPolicy) : bool := match validate p with Ret _ => true | _ => false end.
Definition parse_policies (tenant : string) (config : Value) : list DepegPolicy :=
  filter (fun p => is_valid p = true)
    (with_tenant tenant <$> default [] (policies_from_value (normalized_policy_config config))).

(** one entry of the configuration map *)
Definition reload_entry (acc : DepegPattern) (entry : (string * string) * Value) : DepegPattern :=
  let '((tenant, pattern), config) := entry in
  if negb (bool_decide (pattern = PATTERN_ID)) then acc
  else
    let overrides := parse_source_mapping_overrides config in
    {| policies :=
         foldl (fun m p => <[(tenant, pol_market_key p) := p]> m) (policies acc)
           (parse_policies tenant (extract_detection_config config));
       quote_cache := quote_cache acc;
       source_bindings :=
         match extract_bound_source_ids config with
         | Some bound => <[tenant := bound]> (source_bindings acc)
         | None => source_bindings acc
         end;
       source_mapping_overrides :=
         if bool_decide (overrides = ∅) then source_mapping_overrides acc
         else <[tenant := overrides]> (source_mapping_overrides acc) |}.
Definition reload_config (p : DepegPattern) (config_map : gmap (string * string) Value)
  : DepegPattern :=
  foldl reload_entry
    {| policies := ∅; quote_cache := quote_cache p; source_bindings := ∅;
       source_mapping_overrides := ∅ |} (hash_entries config_map).

(** ** Event fields *)

Definition mapping_override (o : SourceBindingRuntimeOverride) (stream_config_id : option string)
  : option (list FieldMapping) :=
  let m := stream_field_mappings o in
  or_else (stream_config_id ≫= (fun id => m !! id))
    (or_else (find_map (fun id => m !! id) (active_stream_ids o))
       (if bool_decide (size m = 1%nat) then head (hash_values m) else None)).
Definition effective_event_fields (p : DepegPattern) (event : UnifiedEvent)
  : option string * option f64 * DateTime :=
  let plain := (market_key event, price event, timestamp event) in
  match (tenant_overrides ← source_mapping_overrides p !! tenant_id event;
         binding_override ← tenant_overrides !! source_id event;
         mapping_override binding_override
           (trimmed_nonempty (get_str "stream_config_id" (payload event)))) with
  | None => plain
  | Some mappings =>
      let parser_name := default "" (get_str "parser_name" (payload event)) in
      let override_config := VObj [("field_mappings", mappings_to_value mappings)] in
      match resolve_field_mappings parser_name (Some override_config) with
      | [] => plain
      | resolved =>
          let mapped := apply_mappings resolved (payload event) (Some override_config) in
          (or_else (trimmed_nonempty (mf_market_key mapped)) (market_key event),
           or_else (mf_price mapped ≫= positive_finite) (price event),
           default (timestamp event) (mf_timestamp mapped))
      end
  end.

(** ** Context *)

Definition systemic_le (l r : SystemicMarketContext) : bool :=
  match f64_cmp (sm_divergence_pct r) (sm_divergence_pct l) with
  | Some Lt => true
  | Some Gt => false
  | _ => String.leb (sm_market_key l) (sm_market_key r)
  end.
Definition systemic_market (p : DepegPattern) (tenant scope : string) (now : DateTime)
    (candidate : DepegPolicy) : option SystemicMarketContext :=
  let market := pol_market_key candidate in
  if negb (ends_with (to_ascii_uppercase market) "/USD") then None
  else
    quotes ← quote_cache p !! (tenant, market, scope);
    div ← market_divergence_pct candidate (latest_quotes_for_time quotes now) now;
    if f64_le (systemic_floor_pct candidate) div then
      Some {| sm_market_key := market; sm_divergence_pct := div;
              sm_trigger_floor_pct := systemic_floor_pct candidate |}
    else None.
Definition tenant_policies (p : DepegPattern) (tenant : string) : list DepegPolicy :=
  (filter (fun kv => kv.1.1 = tenant) (hash_entries (policies p))).*2.
Definition assess_context (p : DepegPattern) (policy : DepegPolicy) (tenant scope : string)
    (now : DateTime) : ContextAssessment :=
  if negb (contagion_detection (toggles policy)) then
    {| ca_classification := Isolated; ca_systemic_markets := [] |}
  else
    let systemic := sort_by systemic_le
      (omap (systemic_market p tenant scope now) (tenant_policies p tenant)) in
    if (2 <=? length systemic)%nat then
      {| ca_classification := Systemic; ca_systemic_markets := systemic |}
    else {| ca_classification := Isolated; ca_systemic_markets := [] |}.

(** ** Reporting *)

Definition oracle_price_fields (cs : list EvidenceContributor) (hint : string)
  : option f64 * option f64 :=
  match find_map (fun c =>
    if bool_decide (ec_source_kind c = "oracle"%string)
       && contains (to_ascii_lowercase (ec_source_id c)) hint then Some c else None) cs with
  | Some c => (Some (ec_price c), Some (ec_divergence_pct c))
  | None => (None, None)
  end.

Definition recommended_actions_for_severity (s : Severity) : list string :=
  match s with
  | Critical =>
      [ "Immediate Rebalance: move all affected stablecoin positions to safe assets (ETH, BTC, or actively pegged stablecoins)";
        "Exit all positions in the affected stablecoin immediately to prevent further capital erosion";
        "Withdraw to Owner wallet: transfer funds to a secure wallet outside the affected protocol" ]
  | High =>
      [ "Partial Exit: reduce stablecoin exposure by 50% to limit downside risk";
        "Rebalance to ETH or other correlated assets to maintain market exposure";
        "Hold and Monitor: set a recovery price alert at the peg target threshold" ]
  | Medium =>
      [ "Hold and Monitor: depeg is within manageable range, no immediate action required";
        "Rebalance to maintain target stablecoin allocation if exposure exceeds risk tolerance" ]
  | _ => []
  end%string.

Definition fmt_bool (b : bool) : string := if b then "true" else "false".
Definition detection_confidence (s : ConsensusSnapshot) : outcome f64 :=
  f64_clamp (f64_div (default f64_zero (snap_confidence_breakdown s !! "total"%string)) f64_hundred)
    f64_zero (f64_of_Z 1).
Definition oracle_context_of (policy : DepegPolicy) (s : ConsensusSnapshot) : gmap string Value :=
  let cls := VString (context_classification_str (classification s)) in
  let '(chainlink_price, chainlink_dev) := oracle_price_fields (contributors s) "chainlink" in
  let '(pyth_price, pyth_dev) := oracle_price_fields (contributors s) "pyth" in
  list_to_map
    [ ("oracle_confirmed", VBool (oracle_confirmed s));
      ("weighted_median_price", VFloat (weighted_median_price s));
      ("trigger_floor_pct", VFloat (snap_trigger_floor_pct s));
      ("context_classification", cls); ("contagion_status", cls);
      ("source_count", VInt (source_count s));
      ("eligible_source_count", VInt (eligible_source_count s));
      ("healthy_source_count", VInt (source_count s));
      ("total_source_count", VInt (eligible_source_count s));
      ("divergence_pct", VFloat (divergence_pct s)); ("peg_target", VFloat (peg_target policy));
      ("chainlink_price", VOpt VFloat chainlink_price);
      ("chainlink_deviation_pct", VOpt VFloat chainlink_dev);
      ("pyth_price", VOpt VFloat pyth_price); ("pyth_deviation_pct", VOpt VFloat pyth_dev);
      ("contributing_sources", VArray (contributor_to_value <$> contributors s));
      ("systemic_markets", VArray (systemic_market_to_value <$> systemic_markets s)) ]%string.
Definition build_detection (event : UnifiedEvent) (policy : DepegPolicy) (s : ConsensusSnapshot)
    (sev : Severity) (tr : option IncidentTransition) (now : DateTime) (uuids : string * string)
  : outcome DetectionResult :=
  let '(simulated, run_id) := simulation_metadata_from_event event in
  let div := fmt_fixed 6 (divergence_pct s) in
  let peg := fmt_fixed 6 (peg_target policy) in
  let median := fmt_fixed 6 (weighted_median_price s) in
  let key := pol_tenant_id policy +:+ ":" +:+ pol_market_key policy in
  conf ← detection_confidence s;
  Ret {| detection_id := uuids.1; pattern_id := PATTERN_ID;
         det_event_key := Some ("depeg:" +:+ key); subject_type := Some "market"%string;
         subject_key := Some key; det_tenant_id := Some (pol_tenant_id policy);
         det_chain := Offchain; det_chain_slug := "offchain"; protocol := "Stablecoin";
         det_lifecycle_state := Confirmed;
         requires_confirmation := toggle_oracle_confirmation (toggles policy);
         attack_family := FamilyPegDeviation; severity := sev;
         description := Some ("Market " +:+ pol_market_key policy +:+ " deviated " +:+ div +:+
           "% from peg target " +:+ peg +:+ " (median: " +:+ median +:+ "). " +:+
           fmt_Z (source_count s) +:+ " source(s), quorum: " +:+
           (if quorum_met s then "met" else "not met") +:+ ".");
         triggered_rule_ids := ["depeg.sustained_breach"%string];
         det_tx_hash := "depeg-" +:+ uuids.2; det_block_number := 0;
         signals := [ {| signal_type := PriceDeviation; signal_value := divergence_pct s;
                         signal_label := Some (div +:+ "%"); signal_source_id := None |} ];
         risk_score :=
           {| score := f64_min (divergence_pct s) f64_hundred; confidence := conf;
              rationale :=
                [ "context=" +:+ context_classification_str (classification s) +:+
                  " oracle_confirmed=" +:+ fmt_bool (oracle_confirmed s) +:+
                  " quorum_met=" +:+ fmt_bool (quorum_met s);
                  "weighted_median=" +:+ median +:+ " peg_target=" +:+ peg ];
              attribution := [] |};
         incident_transition := tr; context_classification := Some (classification s);
         confidence_breakdown := snap_confidence_breakdown s;
         oracle_context := oracle_context_of policy s;
         actions_recommended := recommended_actions_for_severity sev;
         is_simulated := simulated; simulation_run_id := run_id;
         detected_at := now; created_at := now |}.

Definition snapshot_json (policy : DepegPolicy) (o : EvaluationOutcome) : Value :=
  let s := snapshot o in
  VObj [ ("weighted_median_price", VFloat (weighted_median_price s));
         ("divergence_pct", VFloat (divergence_pct s)); ("source_count", VInt (source_count s));
         ("eligible_source_count", VInt (eligible_source_count s));
         ("quorum_met", VBool (quorum_met s)); ("breach_active", VBool (breach_active s));
         ("oracle_confirmed", VBool (oracle_confirmed s));
         ("context_classification", classification_to_value (classification s));
         ("trigger_floor_pct", VFloat (snap_trigger_floor_pct s));
         ("confidence_breakdown", VObject (VFloat <$> snap_confidence_breakdown s));
         ("incident_transition", VOpt transition_to_value (transition o));
         ("peg_target", VFloat (peg_target policy));
         ("contributing_sources", VArray (contributor_to_value <$> contributors s));
         ("systemic_markets", VArray (systemic_market_to_value <$> systemic_markets s)) ]%string.

Definition depeg_test_mode_reason (policy : DepegPolicy) (st : DepegAlertState)
    (o : EvaluationOutcome) (now : DateTime) (confidence_total : f64) : string :=
  if should_emit_alert o then
    match transition o with
    | Some Trigger => "emitted_trigger" | Some Escalate => "emitted_escalate"
    | Some Deescalate => "emitted_deescalate" | Some Resolve => "emitted_resolve"
    | Some Retract => "emitted_retract" | Some Update => "emitted_update"
    | None => "emitted_detection"
    end
  else
    let previous := severity_from_str (last_severity st) in
    let previous_rank := severity_rank previous in
    let current_rank := severity_rank (snap_sev (snapshot o)) in
    let cooling := cooldown_active st now in
    if breach_active (snapshot o) then
      match previous with
      | None => if cooling then "cooldown_active_for_trigger" else "trigger_suppressed"
      | Some _ =>
          if previous_rank <? current_rank then
            if cooling then "cooldown_active_for_escalation" else "escalation_suppressed"
          else if current_rank <? previous_rank then
            if below_severity_blocks (next_state o) <? deescalation_blocks policy then
              "deescalation_window_not_met"
            else if cooling then "cooldown_active_for_deescalation"
            else "deescalation_suppressed"
          else "already_active_same_severity"
      end
    else if negb (quorum_met (snapshot o)) then "quorum_not_met"
    else if toggle_oracle_confirmation (toggles policy) && negb (oracle_confirmed (snapshot o)) then
      "oracle_confirmation_not_met"
    else if f64_lt confidence_total (min_confidence_to_fire policy) then
      "confidence_below_threshold"
    else match snap_sev (snapshot o) with
         | None => "trigger_floor_not_met"
         | Some _ =>
             match previous with
             | None => "breach_inactive"
             | Some _ =>
                 if (0 <? below_trigger_blocks (next_state o))
                    && (below_trigger_blocks (next_state o) <? resolution_blocks policy) then
                   "resolution_window_not_met"
                 else if cooling then "cooldown_active_for_resolution"
                 else "resolution_gates_not_met"
             end
         end.

(** ** Processing an event *)

Definition set_cache (p : DepegPattern) c : DepegPattern :=
  {| policies := policies p; quote_cache := c; source_bindings := source_bindings p;
     source_mapping_overrides := source_mapping_overrides p |}.
Definition set_high_water_mark (st : DepegAlertState) (t : DateTime) : DepegAlertState :=
  {| cooldown_until := cooldown_until st; last_alerted_at := last_alerted_at st;
     last_divergence_pct := last_divergence_pct st; last_severity := last_severity st;
     last_classification := last_classification st; trigger_floor_pct := trigger_floor_pct st;
     below_severity_blocks := below_severity_blocks st;
     below_trigger_blocks := below_trigger_blocks st; high_water_mark := Some t |}.
Definition set_systemic (o : EvaluationOutcome) (ms : list SystemicMarketContext)
  : EvaluationOutcome :=
  let s := snapshot o in
  {| snapshot :=
       {| weighted_median_price := weighted_median_price s; divergence_pct := divergence_pct s;
          source_count := source_count s; eligible_source_count := eligible_source_count s;
          quorum_met := quorum_met s; breach_active := breach_active s;
          oracle_confirmed := oracle_confirmed s; classification := classification s;
          snap_trigger_floor_pct := snap_trigger_floor_pct s;
          snap_confidence_breakdown := snap_confidence_breakdown s; snap_sev := snap_sev s;
          contributors := contributors s; systemic_markets := ms |};
     should_emit_alert := should_emit_alert o; next_state := next_state o;
     transition := transition o; emitted_severity := emitted_severity o |}.

Definition live_scope : string := "__live__".
(** a simulated event drops the caches of the market's other replay runs *)
Definition retain_scope (event : UnifiedEvent) (market scope : string)
    (kv : (string * string * string) * gmap string (list QuoteInput)) : bool :=
  let '((t, m), s) := kv.1 in
  negb (bool_decide (t = tenant_id event)) || negb (bool_decide (m = market))
  || bool_decide (s = scope) || bool_decide (s = live_scope).

(** the quote of an event enters the cache *)
Definition cache_quote (p : DepegPattern) (event : UnifiedEvent) (market scope : string)
    (run_id : option string) (price : f64) (time : DateTime) : outcome DepegPattern :=
  let key := (tenant_id event, market, scope) in
  let cache := match run_id with
               | Some _ => filter (fun kv => retain_scope event market scope kv = true) (quote_cache p)
               | None => quote_cache p
               end in
  let quote := {| q_source_id := source_id event;
                  q_source_kind := infer_source_kind (source_type_debug (source_type event));
                  q_price := price; q_observed_at := time |} in
  let cache := <[key := remember_quote (default ∅ (cache !! key)) quote]> cache in
  cache ← prune_quote_cache cache time key;
  Ret (set_cache p cache).

Definition load_alert_state (db : Db) (tenant key : string) : outcome DepegAlertState :=
  v ← load_pattern_state db tenant PATTERN_ID key;
  Ret (default DepegAlertState_default (v ≫= state_from_value)).

Definition late_delivery (st : DepegAlertState) (time : DateTime) : bool :=
  match high_water_mark st with Some hwm => dt_lt time hwm | None => false end.
Definition advance_mark (st : DepegAlertState) (time : DateTime) : DateTime :=
  match high_water_mark st with Some hwm => dt_max hwm time | None => time end.

Definition stamp_mark (o : EvaluationOutcome) (t : DateTime) : EvaluationOutcome :=
  {| snapshot := snapshot o; should_emit_alert := should_emit_alert o;
     next_state := set_high_water_mark (next_state o) t; transition := transition o;
     emitted_severity := emitted_severity o |}.

(** evaluation of the cached quotes against the stored state *)
Definition evaluate_event (p : DepegPattern) (event : UnifiedEvent) (policy : DepegPolicy)
    (market scope : string) (st : DepegAlertState) (time : DateTime) : outcome EvaluationOutcome :=
  let quotes := default [] ((fun m => latest_quotes_for_time m time) <$>
                  quote_cache p !! (tenant_id event, market, scope)) in
  let context := assess_context p policy (tenant_id event) scope time in
  o ← evaluate_policy policy quotes st time (ca_classification context);
  Ret (set_systemic o (ca_systemic_markets context)).

(** snapshot and state are persisted, errors of the two statements ignored *)
Definition persist_outcome (db : Db) (event : UnifiedEvent) (policy : DepegPolicy)
    (market key : string) (time : DateTime) (o : EvaluationOutcome) : Db * outcome unit :=
  let snap := {| snap_tenant_id := tenant_id event; snap_pattern_id := PATTERN_ID;
                 snap_snapshot_key := market;
                 snap_data := append_snapshot_meta event (snapshot_json policy o);
                 snap_score := Some (divergence_pct (snapshot o));
                 snap_severity := severity_lower <$> snap_sev (snapshot o);
                 snap_observed_at := time |} in
  let db := (insert_pattern_snapshot db snap).1 in
  match state_to_value (next_state o) with
  | Ret v => ((upsert_pattern_state db (tenant_id event) PATTERN_ID key v).1, Ret ())
  | Err e => (db, Err e)
  | Panic => (db, Panic)
  end.

Definition emit_detection (event : UnifiedEvent) (policy : DepegPolicy) (o : EvaluationOutcome)
    (time : DateTime) (uuids : string * string) : outcome (option DetectionResult) :=
  if should_emit_alert o then
    match emitted_severity o with
    | Some sev =>
        d ← build_detection event policy (snapshot o) sev (transition o) time uuids; Ret (Some d)
    | None => Ret None
    end
  else Ret None.

(** the part of [process_event] after the guards *)
Definition process_quote (p : DepegPattern) (event : UnifiedEvent) (policy : DepegPolicy)
    (market : string) (price : f64) (time : DateTime) (db : Db) (uuids : string * string)
  : DepegPattern * Db * outcome (option DetectionResult) :=
  let run_id := (simulation_metadata_from_event event).2 in
  let scope := default live_scope run_id in
  let key := state_key market run_id in
  match cache_quote p event market scope run_id price time with
  | Ret p =>
      match (st ← load_alert_state db (tenant_id event) key;
             o ← evaluate_event p event policy market scope st time; Ret (st, o)) with
      | Ret (st, o) =>
          if late_delivery st time then (p, db, Ret None)
          else
            let o := stamp_mark o (advance_mark st time) in
            match persist_outcome db event policy market key time o with
            | (db, Ret _) => (p, db, emit_detection event policy o time uuids)
            | (db, Err e) => (p, db, Err e)
            | (db, Panic) => (p, db, Panic)
            end
      | Err e => (p, db, Err e)
      | Panic => (p, db, Panic)
      end
  | Err e => (p, db, Err e)
  | Panic => (p, db, Panic)
  end.

(** the guards: bindings, market and price, policy *)
Definition event_quote (p : DepegPattern) (event : UnifiedEvent)
  : option (DepegPolicy * string * f64 * DateTime) :=
  let '(market, price, time) := effective_event_fields p event in
  if negb (binding_allows (source_bindings p) event) then None
  else
    market ← market; price ← price;
    if negb (is_finite price && f64_lt f64_zero price) then None
    else policy ← policies p !! (tenant_id event, market); Some (policy, market, price, time).

Definition process_event (p : DepegPattern) (event : UnifiedEvent) (now : DateTime) (db : Db)
    (uuids : string * string) : DepegPattern * Db * outcome (option DetectionResult) :=
  match event_quote p event with
  | None => (p, db, Ret None)
  | Some (policy, market, price, time) => process_quote p event policy market price time db uuids
  end.
End pattern.
