(* ===== verification/DepegPatternProofs.v ===== *)
(** * Correctness of the depeg pattern

    What [process_event] guarantees: the policies in use are validated, the
    quote cache stays well formed and bounded, a late delivery changes no
    stored state, the stored high-water mark never moves back, other rows of
    the database are left alone, and a detection only comes from a bound
    source of a configured market, with enough distinct sources behind it. *)
From stdpp Require Import strings.
From S2P Require Import Prelude F64 Text Ports EventSchema FieldMapping PatternCommon DepegPolicy DepegEngine CachePrune DepegIncident DepegQuotes DepegPattern.

Section proofs.
Context `{Chrono} `{SerdeJson} `{!FieldCodec} `{Unicode} `{Powi} `{HashOrder} `{!DepegCodec}
  `{!PatternStore}.

(** ** Configuration *)

Definition policies_ok (p : DepegPattern) : Prop :=
  map_Forall (fun k pol => policy_ok pol /\ pol_tenant_id pol = k.1 /\ pol_market_key pol = k.2)
    (policies p).

Lemma parse_policies_ok tenant config pol :
  pol ∈ parse_policies tenant config -> policy_ok pol /\ pol_tenant_id pol = tenant.
Proof.
  unfold parse_policies. intros Hp. apply list_elem_of_filter in Hp as [Hv Hp].
  apply list_elem_of_fmap in Hp as (q & -> & _). split; [|done].
  apply validate_ok. unfold is_valid in Hv. by destruct (validate _) as [[]| |].
Qed.
Lemma reload_entry_ok acc entry : policies_ok acc -> policies_ok (reload_entry acc entry).
Proof.
  destruct entry as [[tenant pattern] config]. unfold reload_entry. intros Hok.
  case_bool_decide; simpl; [|done]. unfold policies_ok. simpl.
  apply foldl_inv; [done|]. intros m pol Hin Hm. apply map_Forall_insert_2; [|done].
  apply parse_policies_ok in Hin as [? ?]. done.
Qed.

(** After a reload every policy in use is validated and is filed under its
    own tenant and market; the quotes already cached survive the reload. *)
Theorem reload_config_ok p config_map :
  policies_ok (reload_config p config_map) /\
  quote_cache (reload_config p config_map) = quote_cache p.
Proof.
  unfold reload_config. split.
  - apply foldl_inv; [apply map_Forall_empty|]. intros acc entry _. apply reload_entry_ok.
  - apply foldl_inv; [done|]. intros acc [[tenant pattern] config] _ Hacc.
    unfold reload_entry. by case_bool_decide.
Qed.

(** ** The cache *)

Definition cache_ok (p : DepegPattern) : Prop :=
  map_Forall (fun _ m => market_ok m) (quote_cache p).

Lemma map_Forall_sub {K} `{Countable K} {V} (P : K -> V -> Prop) (m1 m2 : gmap K V) :
  m1 ⊆ m2 -> map_Forall P m2 -> map_Forall P m1.
Proof. intros Hs Hm k v Hk. eapply Hm. by eapply lookup_weaken. Qed.
Lemma market_ok_empty : market_ok ∅.
Proof. apply map_Forall_empty. Qed.
Lemma cache_quote_inv p event market scope run_id price time p' :
  cache_quote p event market scope run_id price time = Ret p' ->
  policies p' = policies p /\ source_bindings p' = source_bindings p /\
  source_mapping_overrides p' = source_mapping_overrides p /\
  exists cache c', cache ⊆ quote_cache p /\
    c' = <[(tenant_id event, market, scope) :=
            remember_quote (default ∅ (cache !! (tenant_id event, market, scope)))
              {| q_source_id := source_id event;
                 q_source_kind := infer_source_kind (source_type_debug (source_type event));
                 q_price := price; q_observed_at := time |}]> cache /\
    prune_quote_cache c' time (tenant_id event, market, scope) = Ret (quote_cache p').
Proof.
  unfold cache_quote. intros Hc. inv_ret Hc. injection Hc as <-. split_and!; [done..|].
  eexists _, _. split_and!; [|done|exact Hm]. case_match; [apply map_filter_subseteq|done].
Qed.
Lemma cache_quote_ok p event market scope run_id price time p' :
  cache_ok p -> cache_quote p event market scope run_id price time = Ret p' ->
  cache_ok p' /\ (size (quote_cache p') <= DEPEG_QUOTE_CACHE_MAX_KEYS)%nat.
Proof.
  intros Hok Hc. apply cache_quote_inv in Hc as (_ & _ & _ & cache & c' & Hsub & -> & Hp).
  destruct (prune_quote_subset _ _ _ _ Hp) as (Hs & Hsize & _). split; [|done].
  apply (map_Forall_sub _ _ _ Hs). apply map_Forall_insert_2.
  - apply remember_ok. destruct (cache !! _) as [m|] eqn:Hm; [|apply market_ok_empty].
    simpl. eapply Hok. by eapply lookup_weaken.
  - by eapply map_Forall_sub.
Qed.

(** ** The steps of [process_event] *)

(** what a processed quote did *)
Lemma process_quote_inv p event policy market price time db uuids p' db' r :
  process_quote p event policy market price time db uuids = (p', db', Ret r) ->
  let run_id := (simulation_metadata_from_event event).2 in
  let scope := default live_scope run_id in
  let key := state_key market run_id in
  cache_quote p event market scope run_id price time = Ret p' /\
  exists st o,
    load_alert_state db (tenant_id event) key = Ret st /\
    evaluate_event p' event policy market scope st time = Ret o /\
    (late_delivery st time = true /\ db' = db /\ r = None \/
     late_delivery st time = false /\
     let o' := stamp_mark o (advance_mark st time) in
     persist_outcome db event policy market key time o' = (db', Ret ()) /\
     emit_detection event policy o' time uuids = Ret r).
Proof.
  unfold process_quote. set (run_id := (simulation_metadata_from_event event).2).
  destruct (cache_quote _ _ _ _ _ _ _) as [p1|?|]; [|done..].
  destruct (load_alert_state _ _ _) as [st|?|] eqn:Hst; [|done..].
  cbn [mbind outcome_bind].
  destruct (evaluate_event _ _ _ _ _ _ _) as [o|?|] eqn:Ho; [|done..].
  cbn [mbind outcome_bind]. intros Hp. split.
  - destruct (late_delivery st time); [by injection Hp as <- _ _|].
    destruct (persist_outcome _ _ _ _ _ _ _) as [db1 [[]|?|]]; [by injection Hp as <- _ _|done..].
  - exists st, o. destruct (late_delivery st time).
    + injection Hp as <- <- <-. split_and!; [done..|]. by left.
    + destruct (persist_outcome _ _ _ _ _ _ _) as [db1 [[]|?|]] eqn:Hpers; [|done..].
      injection Hp as <- <- Hr. split_and!; [done..|]. right. done.
Qed.

(** the database after any processing: untouched, or snapshot and state written *)
Lemma persist_load db event policy market key time o t pid k :
  (t, pid, k) <> (tenant_id event, PATTERN_ID, key) ->
  load_pattern_state (persist_outcome db event policy market key time o).1 t pid k =
  load_pattern_state db t pid k.
Proof.
  intros Hne. unfold persist_outcome. destruct (state_to_value _) as [v|?|]; simpl;
    [rewrite load_upsert_other by done|..]; apply load_snapshot.
Qed.
Lemma persist_load_own db event policy market key time o st' :
  load_alert_state (persist_outcome db event policy market key time o).1 (tenant_id event) key =
    Ret st' ->
  load_alert_state db (tenant_id event) key = Ret st' \/ st' = finite_state (next_state o).
Proof.
  unfold persist_outcome, load_alert_state.
  destruct (state_to_value (next_state o)) as [v|?|] eqn:Hv; simpl;
    [|rewrite load_snapshot; by left..].
  set (db1 := (insert_pattern_snapshot _ _).1).
  destruct (upsert_pattern_state db1 (tenant_id event) PATTERN_ID key v).2 as [[]|?|] eqn:Hu.
  - rewrite load_upsert by done. simpl. rewrite (state_roundtrip _ _ Hv). simpl.
    intros [= <-]. by right.
  - rewrite load_upsert_failed by (by rewrite Hu). unfold db1. rewrite load_snapshot. by left.
  - rewrite load_upsert_failed by (by rewrite Hu). unfold db1. rewrite load_snapshot. by left.
Qed.
Lemma process_quote_db p event policy market price time db uuids :
  let key := state_key market (simulation_metadata_from_event event).2 in
  let r := process_quote p event policy market price time db uuids in
  r.1.2 = db \/ exists st o,
    load_alert_state db (tenant_id event) key = Ret st /\ late_delivery st time = false /\
    r.1.2 = (persist_outcome db event policy market key time
               (stamp_mark o (advance_mark st time))).1.
Proof.
  intros key r. subst r. unfold process_quote. fold key.
  destruct (cache_quote _ _ _ _ _ _ _) as [p1|?|]; [|by left..].
  destruct (load_alert_state _ _ _) as [st|?|] eqn:Hst; [|by left..].
  cbn [mbind outcome_bind].
  destruct (evaluate_event _ _ _ _ _ _ _) as [o|?|]; [|by left..]. cbn [mbind outcome_bind].
  destruct (late_delivery st time) eqn:Hl; [by left|]. right. exists st, o.
  by destruct (persist_outcome _ _ _ _ _ _ _) as [db1 [[]|?|]].
Qed.

(** nothing written and nothing fired *)
Definition inert (db db' : Db) (r : option DetectionResult) : Prop := db' = db /\ r = None.
(** the row of the state table an event may write *)
Definition writes_row (p : DepegPattern) (event : UnifiedEvent) (row : string * string * string)
  : Prop :=
  exists policy market price time,
    event_quote p event = Some (policy, market, price, time) /\
    row = (tenant_id event, PATTERN_ID,
           state_key market (simulation_metadata_from_event event).2).

(** A late delivery, an event older than the stored high-water mark, writes
    nothing to the database and fires nothing; only its quote is remembered. *)
Theorem late_delivery_is_inert p event now db uuids policy market price time st p' db' r :
  event_quote p event = Some (policy, market, price, time) ->
  load_alert_state db (tenant_id event)
    (state_key market (simulation_metadata_from_event event).2) = Ret st ->
  late_delivery st time = true ->
  process_event p event now db uuids = (p', db', Ret r) ->
  inert db db' r.
Proof.
  intros Hq Hst Hlate. unfold process_event. rewrite Hq. intros Hp.
  apply process_quote_inv in Hp as (_ & st' & o & Hst' & _ & Hor).
  rewrite Hst in Hst'. injection Hst' as <-.
  destruct Hor as [(_ & ? & ?)|(? & _)]; [done|congruence].
Qed.

(** the order of marks: [None] is before every date *)
Definition mark_le (a b : option DateTime) : Prop :=
  match a, b with
  | None, _ => True
  | Some x, Some y => ns x <= ns y
  | Some _, None => False
  end.
Lemma mark_le_refl a : mark_le a a.
Proof. destruct a; simpl; [lia|done]. Qed.
Lemma advance_mark_le st time : mark_le (high_water_mark st) (Some (advance_mark st time)).
Proof.
  unfold advance_mark. destruct (high_water_mark st); simpl; [|done]. rewrite dt_max_ns. lia.
Qed.

(** The stored high-water mark never moves back: whatever event is processed
    and however the processing ends, the mark read afterwards under any tenant
    and key is at least the one read before. *)
Theorem high_water_mark_monotone p event now db uuids t key st st' :
  load_alert_state db t key = Ret st ->
  load_alert_state (process_event p event now db uuids).1.2 t key = Ret st' ->
  mark_le (high_water_mark st) (high_water_mark st').
Proof.
  intros Hst. unfold process_event.
  destruct (event_quote p event) as [[[[policy market] price] time]|]; simpl;
    [|rewrite Hst; intros [= <-]; apply mark_le_refl].
  destruct (process_quote_db p event policy market price time db uuids)
    as [->|(st0 & o & Hst0 & _ & ->)]; [rewrite Hst; intros [= <-]; apply mark_le_refl|].
  set (key0 := state_key _ _) in *.
  destruct (decide (t = tenant_id event /\ key = key0)) as [[-> ->]|Hne].
  - intros Hst'. rewrite Hst in Hst0. injection Hst0 as <-.
    apply persist_load_own in Hst' as [Hst'| ->]; [|apply advance_mark_le].
    rewrite Hst in Hst'. injection Hst' as <-. apply mark_le_refl.
  - unfold load_alert_state. rewrite persist_load by naive_solver.
    unfold load_alert_state in Hst. rewrite Hst. intros [= <-]. apply mark_le_refl.
Qed.

Lemma depeg_event_rows p event now db uuids t pid k :
  ~ writes_row p event (t, pid, k) ->
  load_pattern_state (process_event p event now db uuids).1.2 t pid k =
  load_pattern_state db t pid k.
Proof.
  unfold process_event, writes_row.
  destruct (event_quote p event) as [[[[policy market] price] time]|]; [|done]. intros Hrow.
  assert (Hne : (t, pid, k) <> (tenant_id event, PATTERN_ID,
    state_key market (simulation_metadata_from_event event).2))
    by (intros Heq; apply Hrow; by exists policy, market, price, time).
  destruct (process_quote_db p event policy market price time db uuids)
    as [->|(st0 & o & _ & _ & ->)]; [done|]. by apply persist_load.
Qed.

(** An event only writes the state row of its own tenant, of this pattern,
    and of its market and replay run; every other row reads as before. *)
Theorem process_event_isolated p event now db uuids t pid k :
  ~ writes_row p event (t, pid, k) ->
  load_pattern_state (process_event p event now db uuids).1.2 t pid k =
  load_pattern_state db t pid k.
Proof. apply depeg_event_rows. Qed.

Lemma event_pattern_ok p event now db uuids :
  policies_ok p -> cache_ok p -> (size (quote_cache p) <= DEPEG_QUOTE_CACHE_MAX_KEYS)%nat ->
  let p' := (process_event p event now db uuids).1.1 in
  policies p' = policies p /\ policies_ok p' /\ cache_ok p' /\
  (size (quote_cache p') <= DEPEG_QUOTE_CACHE_MAX_KEYS)%nat.
Proof.
  intros Hp Hc Hs p'. subst p'. unfold process_event.
  destruct (event_quote p event) as [[[[policy market] price] time]|]; [|done].
  unfold process_quote. destruct (cache_quote _ _ _ _ _ _ _) as [p1|?|] eqn:Hq; [|done..].
  assert (Hp1 : policies p1 = policies p) by (by apply cache_quote_inv in Hq as (? & _)).
  apply cache_quote_ok in Hq as [Hc1 Hs1]; [|done].
  assert (Hall : policies p1 = policies p /\ policies_ok p1 /\ cache_ok p1 /\
    (size (quote_cache p1) <= DEPEG_QUOTE_CACHE_MAX_KEYS)%nat)
    by (split_and!; [done|unfold policies_ok; by rewrite Hp1|done..]).
  destruct (_ ≫= _) as [[st o]|?|]; [|done..]. destruct (late_delivery st time); [done|].
  by destruct (persist_outcome _ _ _ _ _ _ _) as [db1 [[]|?|]].
Qed.

(** The state of the pattern stays well formed: whatever the event and the
    outcome, policies remain validated and the cache remains sorted, deduplicated
    per source and bounded. *)
Theorem process_event_pattern_ok p event now db uuids :
  policies_ok p -> cache_ok p -> (size (quote_cache p) <= DEPEG_QUOTE_CACHE_MAX_KEYS)%nat ->
  let p' := (process_event p event now db uuids).1.1 in
  policies p' = policies p /\ policies_ok p' /\ cache_ok p' /\
  (size (quote_cache p') <= DEPEG_QUOTE_CACHE_MAX_KEYS)%nat.
Proof. apply event_pattern_ok. Qed.

(** ** Context *)

Lemma tenant_policies_spec p tenant pol :
  pol ∈ tenant_policies p tenant <-> exists m, policies p !! (tenant, m) = Some pol.
Proof.
  unfold tenant_policies. rewrite list_elem_of_fmap. split.
  - intros ([[t m] q] & -> & Hin). apply list_elem_of_filter in Hin as [Ht Hin]. simpl in Ht. subst t.
    apply elem_of_hash_entries in Hin. by exists m.
  - intros [m Hm]. exists ((tenant, m), pol). split; [done|]. apply list_elem_of_filter.
    split; [done|]. by apply elem_of_hash_entries.
Qed.
Lemma tenant_policies_nodup p tenant :
  policies_ok p -> NoDup (pol_market_key <$> tenant_policies p tenant).
Proof.
  intros Hok. unfold tenant_policies.
  set (l := filter (fun kv : (string * string) * DepegPolicy => kv.1.1 = tenant) (hash_entries (policies p))).
  assert (Hk : pol_market_key <$> l.*2 = (fun k => k.2) <$> l.*1).
  { rewrite <- !list_fmap_compose. apply list_fmap_ext. intros i kv Hi.
    apply list_elem_of_lookup_2 in Hi. apply list_elem_of_filter in Hi as [_ Hi].
    destruct kv as [k pol]. apply elem_of_hash_entries in Hi. simpl. by destruct (Hok _ _ Hi) as (_ & _ & ?). }
  rewrite Hk. apply NoDup_fmap_2_strong.
  - intros [t1 m1] [t2 m2] Hin1 Hin2 Heq. simpl in Heq. subst m2.
    apply list_elem_of_fmap in Hin1 as ([[a1 b1] v1] & [= -> ->] & Hin1).
    apply list_elem_of_fmap in Hin2 as ([[a2 b2] v2] & [= -> ->] & Hin2).
    apply list_elem_of_filter in Hin1 as [Hin1 _]. apply list_elem_of_filter in Hin2 as [Hin2 _].
    simpl in *. congruence.
  - eapply sublist_NoDup; [|apply fmap_sublist, sublist_filter].
    rewrite hash_entries_perm. apply NoDup_fst_map_to_list.
Qed.
Lemma systemic_market_Some p tenant scope now pol s :
  systemic_market p tenant scope now pol = Some s <->
  ends_with (to_ascii_uppercase (pol_market_key pol)) "/USD" = true /\
  exists quotes, quote_cache p !! (tenant, pol_market_key pol, scope) = Some quotes /\
    market_divergence_pct pol (latest_quotes_for_time quotes now) now = Some (sm_divergence_pct s) /\
    f64_le (systemic_floor_pct pol) (sm_divergence_pct s) = true /\
    sm_market_key s = pol_market_key pol /\ sm_trigger_floor_pct s = systemic_floor_pct pol.
Proof.
  unfold systemic_market. destruct (ends_with _ _); simpl; [|split; [done|by intros []]].
  destruct (quote_cache p !! _) as [quotes|]; simpl;
    [|split; [done|by intros (_ & ? & ? & _)]].
  destruct (market_divergence_pct pol (latest_quotes_for_time quotes now) now) as [d|] eqn:Hd; simpl;
    [|split; [done|intros (_ & q & [= <-] & ? & _); congruence]].
  destruct (f64_le (systemic_floor_pct pol) d) eqn:Hle; split.
  - intros [= <-]. split; [done|]. by exists quotes.
  - intros (_ & q & [= <-] & Hd' & _ & H1' & H2'). rewrite Hd in Hd'. injection Hd' as ->.
    destruct s. simpl in *. by subst.
  - done.
  - intros (_ & q & [= <-] & Hd' & Hle' & _). rewrite Hd in Hd'. injection Hd' as ->. congruence.
Qed.
Lemma omap_keys_nodup p tenant scope now (l : list DepegPolicy) :
  NoDup (pol_market_key <$> l) ->
  NoDup (sm_market_key <$> omap (systemic_market p tenant scope now) l).
Proof.
  induction l as [|pol l IH]; intros Hnd; simpl; [constructor|].
  simpl in Hnd. apply NoDup_cons in Hnd as [Hk Hnd]. specialize (IH Hnd).
  destruct (systemic_market p tenant scope now pol) as [s|] eqn:Hs; simpl; [|done].
  constructor; [|done]. intros Hin. apply Hk.
  apply list_elem_of_fmap in Hin as (s' & Heq & Hin). apply list_elem_of_omap in Hin as (pol' & Hin & Hs').
  apply systemic_market_Some in Hs as (_ & _ & _ & _ & _ & Hs & _).
  apply systemic_market_Some in Hs' as (_ & _ & _ & _ & _ & Hs' & _).
  apply list_elem_of_fmap. exists pol'. split; [congruence|done].
Qed.

Lemma two_distinct {A} (f : A -> string) (P : A -> Prop) (l : list A) :
  NoDup (f <$> l) -> (forall s, s ∈ l <-> P s) ->
  (2 <= length l)%nat <-> exists s1 s2, P s1 /\ P s2 /\ f s1 <> f s2.
Proof.
  intros Hnd HP. split.
  - destruct l as [|a [|b l]]; simpl; try lia. intros _. exists a, b.
    simpl in Hnd. apply NoDup_cons in Hnd as [Ha _]. split_and!.
    + apply HP. apply elem_of_cons. by left.
    + apply HP. apply elem_of_cons. right. apply elem_of_cons. by left.
    + intros Heq. apply Ha. rewrite Heq. apply elem_of_cons. by left.
  - intros (s1 & s2 & Ha1 & Ha2 & Hne). apply HP in Ha1, Ha2.
    destruct l as [|a [|b l]]; simpl; [by apply not_elem_of_nil in Ha1| |lia].
    apply list_elem_of_singleton in Ha1 as ->. by apply list_elem_of_singleton in Ha2 as ->.
Qed.

(** The context is systemic exactly when contagion detection is on and at
    least two different USD markets of the same tenant, in the same replay
    scope, are at or above their systemic floor; exactly those markets are
    listed, and an isolated assessment lists none. *)
Theorem assess_context_spec p policy tenant scope now :
  policies_ok p ->
  let a := assess_context p policy tenant scope now in
  let systemic s := exists pol, policies p !! (tenant, sm_market_key s) = Some pol /\
                      systemic_market p tenant scope now pol = Some s in
  (ca_classification a = Systemic <->
     contagion_detection (toggles policy) = true /\
     exists s1 s2, systemic s1 /\ systemic s2 /\ sm_market_key s1 <> sm_market_key s2) /\
  (ca_classification a = Systemic ->
     NoDup (sm_market_key <$> ca_systemic_markets a) /\
     forall s, s ∈ ca_systemic_markets a <-> systemic s) /\
  (ca_classification a <> Systemic -> ca_classification a = Isolated /\ ca_systemic_markets a = []).
Proof.
  intros Hok a systemic. set (l := omap (systemic_market p tenant scope now) (tenant_policies p tenant)).
  assert (Hin : forall s, s ∈ l <-> systemic s).
  { intros s. unfold l, systemic. rewrite list_elem_of_omap. split.
    - intros (pol & Hp & Hs). apply tenant_policies_spec in Hp as [m Hm].
      pose proof Hs as Hs'. apply systemic_market_Some in Hs' as (_ & _ & _ & _ & _ & Hk & _).
      exists pol. split; [|done]. rewrite Hk. by destruct (Hok _ _ Hm) as (_ & _ & ->).
    - intros (pol & Hp & Hs). exists pol. split; [|done]. apply tenant_policies_spec. by eexists. }
  assert (Hnd : NoDup (sm_market_key <$> l)) by (by apply omap_keys_nodup, tenant_policies_nodup).
  assert (Hlen : (2 <= length l)%nat <-> exists s1 s2, systemic s1 /\ systemic s2 /\
    sm_market_key s1 <> sm_market_key s2) by (by apply (two_distinct sm_market_key)).
  unfold a, assess_context. destruct (contagion_detection (toggles policy)); cbn [negb];
    [|split_and!; [split; [done|by intros []]|done|done]].
  fold l. rewrite length_sort_by. destruct (2 <=? length l)%nat eqn:Hle;
    cbn [ca_classification ca_systemic_markets].
  - apply Nat.leb_le in Hle. split_and!; [split; [intros _; split; [done|by apply Hlen]|done]| |done].
    intros _. split; [by rewrite sort_by_perm|]. intros s. by rewrite elem_of_sort_by.
  - apply Nat.leb_gt in Hle. split_and!; [|done|done]. split; [done|].
    intros [_ Hex]. apply Hlen in Hex. lia.
Qed.

(** ** Detections *)

Lemma event_quote_inv p event policy market price time :
  event_quote p event = Some (policy, market, price, time) ->
  policies p !! (tenant_id event, market) = Some policy /\
  (forall bound, source_bindings p !! tenant_id event = Some bound ->
     bound = ∅ \/ source_id event ∈ bound) /\
  effective_event_fields p event = (Some market, Some price, time).
Proof.
  unfold event_quote. destruct (effective_event_fields p event) as [[mk pr] t].
  destruct (binding_allows _ _) eqn:Hb; simpl; [|done]. intros Hq.
  apply bind_Some in Hq as (m & -> & Hq). apply bind_Some in Hq as (x & -> & Hq).
  destruct (negb _); [done|]. apply bind_Some in Hq as (pol & Hpol & Hq).
  injection Hq as <- <- <- <-. split_and!; [done| |done].
  intros bound Hbound. unfold binding_allows in Hb. rewrite Hbound in Hb.
  destruct (bool_decide_reflect (bound = ∅)) as [|_]; [by left|].
  destruct (bool_decide_reflect (source_id event ∈ bound)); [by right|done].
Qed.
Lemma build_detection_inv event policy s sev tr now uuids d :
  build_detection event policy s sev tr now uuids = Ret d ->
  det_tenant_id d = Some (pol_tenant_id policy) /\ incident_transition d = tr /\
  score (risk_score d) = f64_min (divergence_pct s) f64_hundred /\
  (is_nan (confidence (risk_score d)) = true \/
   f64_nonneg (confidence (risk_score d)) /\
   f64_le (confidence (risk_score d)) (f64_of_Z 1) = true).
Proof.
  unfold build_detection. destruct (simulation_metadata_from_event event) as [sim rid].
  intros Hd. inv_ret Hd. injection Hd as <-. split_and!; [done..|]. simpl.
  unfold detection_confidence in Hm. set (x := f64_div _ _) in Hm.
  destruct (is_nan x) eqn:Hx.
  - left. unfold f64_clamp in Hm. destruct x; try done. by injection Hm as <-.
  - right. by eapply f64_clamp_bounds.
Qed.

(** the quote is the newest one its source has in the cache for the market, not
    counting those from after [time] *)
Definition newest_in_cache (p : DepegPattern) (key : string * string * string) (time : DateTime) (q : QuoteInput) : Prop :=
  exists m h, quote_cache p !! key = Some m /\ m !! q_source_id q = Some h /\ q ∈ h /\
    ns (q_observed_at q) <= ns time /\
    forall x, x ∈ h -> ns (q_observed_at x) <= ns time -> ns (q_observed_at x) <= ns (q_observed_at q).
Lemma latest_quotes_newest p key m time :
  cache_ok p -> quote_cache p !! key = Some m ->
  Forall (newest_in_cache p key time) (latest_quotes_for_time m time).
Proof.
  intros Hok Hm. apply list.Forall_forall. intros q Hq. specialize (Hok _ _ Hm).
  apply latest_quotes_source in Hq as (h & Hh & Hq); [|done].
  destruct (Hok _ _ Hh) as [[Hs _] _]. destruct (find_map_rev_spec _ _ _ Hs Hq) as (Hin & Hle & Hx).
  unfold dt_le in Hle. exists m, h. split_and!; [done..|lia|].
  intros x Hxin Hxle. specialize (Hx x Hxin). unfold observed_le, dt_le in Hx. lia.
Qed.
(** what an eligible quote is *)
Lemma eligible_usable policy time q :
  eligible policy time q = true ->
  is_finite (q_price q) = true /\ f64_lt f64_zero (q_price q) = true /\
  0 <= millis_between time (q_observed_at q) <= source_stale_timeout_ms policy (q_source_id q).
Proof. unfold eligible, counted, fresh. intros He. bools. split_and!; done || lia. Qed.
(** the consensus behind a detection *)
Lemma evaluate_event_alert p event policy market scope st time t uuids o d :
  cache_ok p -> evaluate_event p event policy market scope st time = Ret o ->
  emit_detection event policy (stamp_mark o t) time uuids = Ret (Some d) ->
  exists quotes cls m sev,
    let el := eligible_quotes policy time quotes in
    Forall (newest_in_cache p (tenant_id event, market, scope) time) quotes /\
    divergence_pct (snapshot o) = divergence_pct (measure policy quotes el time cls m) /\
    breach_active (measure policy quotes el time cls m) = true /\
    (transition o = Some Trigger \/ transition o = Some Escalate) /\
    NoDup (q_source_id <$> el) /\
    build_detection event policy (snapshot o) sev (transition o) time uuids = Ret d.
Proof.
  intros Hcok Ho He. unfold evaluate_event in Ho. inv_ret Ho. rename a into o0.
  injection Ho as <-. set (quotes := default [] _) in Hm.
  set (cls := ca_classification _) in Hm. unfold emit_detection in He.
  change (should_emit_alert (stamp_mark _ t)) with (should_emit_alert o0) in He.
  change (emitted_severity (stamp_mark _ t)) with (emitted_severity o0) in He.
  destruct (should_emit_alert o0) eqn:Hemit; [|done].
  destruct (emitted_severity o0) as [sev|]; [|done].
  apply bind_ret_inv in He as (d' & Hd & He). injection He as ->.
  destruct (emitted_alert _ _ _ _ _ _ Hm Hemit) as (m & Hs & Hb & _ & _ & Htr).
  exists quotes, cls, m, sev.
  split_and!; [|by rewrite <- Hs|by rewrite <- Hs|exact Htr| |exact Hd].
  { unfold quotes. destruct (quote_cache p !! _) as [mq|] eqn:Hmq; simpl; [|constructor].
    by apply latest_quotes_newest. }
  eapply sublist_NoDup; [|apply fmap_sublist, sublist_filter].
  unfold quotes. destruct (quote_cache p !! _) as [mq|] eqn:Hmq; simpl; [|constructor].
  apply latest_quotes_nodup. by eapply Hcok.
Qed.
Lemma breach_score p cls div :
  policy_ok p -> f64_le (selected_floor p cls) div = true ->
  f64_lt f64_zero (f64_min div f64_hundred) = true /\
  f64_le (f64_min div f64_hundred) f64_hundred = true.
Proof.
  intros (_ & _ & _ & _ & _ & Hi & Hs & _) Hle. destruct (f64_le_nan _ _ Hle) as [Hn1 Hn2].
  assert (Hf : f64_le (selected_floor p cls) f64_zero = false) by (by destruct cls).
  assert (Hpos : f64_lt f64_zero div = true).
  { eapply f64_lt_le_trans; [|exact Hle]. by apply f64_nle_lt. }
  split; [|by apply f64_min_le_r]. unfold f64_min. by repeat case_match.
Qed.

(** C23: a detection is backed by its policy and by the cached quotes.  The event
    gives a market, a price and a time; its source is in the set of bindings of
    the tenant, unless there is no set or it is empty; the policy is the validated
    one of the tenant and market; the time is not before the stored high-water
    mark; the detection belongs to the tenant and opens or escalates an incident.
    Behind it are at least [min_sources] quotes of pairwise different sources:
    each is the newest one that the cache of this tenant, market and replay scope
    holds of its source up to that time, not older than the source may be, with a
    finite positive price.  The score is positive and at most 100 and the
    confidence, when it is a number, is between 0 and 1. *)
Theorem detection_provenance p event now db uuids p' db' d :
  policies_ok p -> cache_ok p -> process_event p event now db uuids = (p', db', Ret (Some d)) ->
  let run_id := (simulation_metadata_from_event event).2 in
  exists policy market price time st quotes,
    effective_event_fields p event = (Some market, Some price, time) /\
    (forall bound, source_bindings p !! tenant_id event = Some bound ->
       bound = ∅ \/ source_id event ∈ bound) /\
    policies p !! (tenant_id event, market) = Some policy /\ policy_ok policy /\
    load_alert_state db (tenant_id event) (state_key market run_id) = Ret st /\
    (forall mark, high_water_mark st = Some mark -> ns mark <= ns time) /\
    det_tenant_id d = Some (tenant_id event) /\
    (incident_transition d = Some Trigger \/ incident_transition d = Some Escalate) /\
    NoDup (q_source_id <$> quotes) /\ min_sources policy <= Z.of_nat (length quotes) /\
    (forall q, q ∈ quotes ->
       newest_in_cache p' (tenant_id event, market, default live_scope run_id) time q /\
       is_finite (q_price q) = true /\ f64_lt f64_zero (q_price q) = true /\
       0 <= millis_between time (q_observed_at q)
         <= source_stale_timeout_ms policy (q_source_id q)) /\
    f64_lt f64_zero (score (risk_score d)) = true /\
    f64_le (score (risk_score d)) f64_hundred = true /\
    (is_nan (confidence (risk_score d)) = true \/
     f64_nonneg (confidence (risk_score d)) /\
     f64_le (confidence (risk_score d)) (f64_of_Z 1) = true).
Proof.
  intros Hpok Hcok Hp run_id. unfold process_event in Hp.
  destruct (event_quote p event) as [[[[policy market] price] time]|] eqn:Hq; [|done].
  destruct (event_quote_inv _ _ _ _ _ _ Hq) as (Hpol & Hbind & Hfields).
  destruct (Hpok _ _ Hpol) as (Hpo & Htenant & _).
  apply process_quote_inv in Hp as (Hc & st & o & Hst & Ho & Hor).
  destruct Hor as [(_ & _ & ?)|(Hlate & _ & He)]; [done|].
  apply cache_quote_ok in Hc as [Hc _]; [|done].
  destruct (evaluate_event_alert _ _ _ _ _ _ _ _ _ _ _ Hc Ho He)
    as (quotes & cls & m & sev & Hnew & Hdiv & Hb & Htr & Hnd & Hd).
  apply measure_breach in Hb as (Ha1 & _ & _ & Ha4 & _). rewrite <- Hdiv in Ha4.
  apply build_detection_inv in Hd as (Hd1 & Hd2 & Hd3 & Hd4).
  destruct (breach_score _ _ _ Hpo Ha4) as [Hs1 Hs2]. rewrite <- Hd3 in Hs1, Hs2.
  exists policy, market, price, time, st, (eligible_quotes policy time quotes).
  split_and!; try done; [|by rewrite Hd1, Htenant|by rewrite Hd2|].
  - intros mark Hm. unfold late_delivery, dt_lt in Hlate. rewrite Hm in Hlate. lia.
  - intros q Hq'. apply list_elem_of_filter in Hq' as [Hel Hin]. split; [|by apply eligible_usable].
    by apply (proj1 (list.Forall_forall _ _) Hnew).
Qed.
End proofs.
