(* ===== verification/DepegExamples.v ===== *)
(** * The depeg pattern on concrete inputs

    Instances of the interfaces ([DepegCodec] over the JSON tree, the tables of
    [Persistence] as the store) and the runs on which the theorems of
    [DepegQuotes] and [DepegPatternProofs] are applied: three oracle sources
    quote 0.90 for a market pegged at one, the third quote opens an incident,
    and a late quote follows. *)
From S2P Require Import Prelude F64 Text Numbers Ports EventSchema Persistence FieldMapping PatternCommon DepegPolicy DepegEngine DepegIncident DepegQuotes DepegPattern DepegPatternProofs.

#[local] Existing Instance chrono_Z.
#[local] Existing Instance serde_json_tree.
#[local] Existing Instance field_codec_json.
#[local] Existing Instance powi_squaring.
#[local] Existing Instance unicode_ascii.
#[local] Existing Instance canonical_order.

(** ** A codec of the alert state *)
Definition state_to_json (st : DepegAlertState) : json :=
  JObject (list_to_map
    [ ("cooldown_until", opt_to_json time_to_json (cooldown_until st));
      ("last_alerted_at", opt_to_json time_to_json (last_alerted_at st));
      ("last_divergence_pct", opt_to_json float_to_json (last_divergence_pct st));
      ("last_severity", opt_to_json JString (last_severity st));
      ("last_classification", opt_to_json JString (last_classification st));
      ("trigger_floor_pct", opt_to_json float_to_json (trigger_floor_pct st));
      ("below_severity_blocks", JInt (below_severity_blocks st));
      ("below_trigger_blocks", JInt (below_trigger_blocks st));
      ("high_water_mark", opt_to_json time_to_json (high_water_mark st)) ])%string.
Definition state_of_json (v : json) : option DepegAlertState :=
  m ← json_object v;
  Some {| cooldown_until := field json_time "cooldown_until" m;
          last_alerted_at := field json_time "last_alerted_at" m;
          last_divergence_pct := field json_float "last_divergence_pct" m;
          last_severity := field json_text "last_severity" m;
          last_classification := field json_text "last_classification" m;
          trigger_floor_pct := field json_float "trigger_floor_pct" m;
          below_severity_blocks := default 0 (field json_int "below_severity_blocks" m);
          below_trigger_blocks := default 0 (field json_int "below_trigger_blocks" m);
          high_water_mark := field json_time "high_water_mark" m |}.

Lemma state_json_roundtrip st : state_of_json (state_to_json st) = Some (finite_state st).
Proof.
  destruct st as [a b c d e f g h i]. unfold state_of_json, finite_state. simpl json_object.
  cbn [mbind option_bind]. f_equal.
  f_equal; first [ exact (opt_time_roundtrip _) | exact (opt_float_roundtrip _)
                 | exact (opt_text_roundtrip _) | reflexivity ].
Qed.

(** ** The other codecs of the instance *)
Definition contributor_to_json (c : EvidenceContributor) : json :=
  JObject (list_to_map
    [ ("source_id", JString (ec_source_id c)); ("source_kind", JString (ec_source_kind c));
      ("price", float_to_json (ec_price c)); ("observed_at", time_to_json (ec_observed_at c));
      ("age_ms", JInt (ec_age_ms c)); ("weight", float_to_json (ec_weight c));
      ("divergence_pct", float_to_json (ec_divergence_pct c));
      ("supports_alert_direction", JBool (ec_supports_alert_direction c));
      ("contributes_to_quorum", JBool (ec_contributes_to_quorum c));
      ("confirms_oracle", JBool (ec_confirms_oracle c));
      ("contributes_to_breach", JBool (ec_contributes_to_breach c)) ])%string.
Definition market_to_json (s : SystemicMarketContext) : json :=
  JObject (list_to_map
    [ ("market_key", JString (sm_market_key s));
      ("divergence_pct", float_to_json (sm_divergence_pct s));
      ("trigger_floor_pct", float_to_json (sm_trigger_floor_pct s)) ])%string.
Definition transition_name (t : IncidentTransition) : string :=
  match t with
  | Trigger => "trigger" | Escalate => "escalate" | Deescalate => "deescalate"
  | Resolve => "resolve" | Retract => "retract" | Update => "update"
  end.
Definition state_to_value_json (st : DepegAlertState) : outcome json := Ret (state_to_json st).
Lemma state_value_roundtrip st v :
  state_to_value_json st = Ret v -> state_of_json v = Some (finite_state st).
Proof. intros [= <-]. apply state_json_roundtrip. Qed.
(** the policies of the sample configuration *)
Definition policies_of_json (v : json) : option (list DepegPolicy) :=
  match v with JArray _ => Some [sample_policy] | _ => None end.
#[local] Instance depeg_codec_json : DepegCodec :=
  {| policies_from_value := policies_of_json; contributor_to_value := contributor_to_json;
     systemic_market_to_value := market_to_json;
     classification_to_value := fun c => JString (context_classification_str c);
     transition_to_value := fun t => JString (transition_name t);
     state_to_value := state_to_value_json; state_from_value := state_of_json;
     state_roundtrip := state_value_roundtrip |}.
#[local] Existing Instance tables_store.

(** ** A run *)
Definition oracle_event (source : string) (cents t : Z) : UnifiedEvent :=
  {| event_id := "e"; tenant_id := "acme"; source_id := source; source_type := OracleApi;
     event_type := "quote"; timestamp := sec t; payload := VObj []; chain_id := None;
     block_number := None; tx_hash := None; market_key := Some "USDC/USD"%string;
     price := Some (f64_lit cents 100) |}.
Definition sample_pattern : DepegPattern :=
  reload_config DepegPattern_default
    {[ ("acme", PATTERN_ID)%string := VObj [("policies", VArray [VNull])] ]}.
Definition step (s : DepegPattern * Db * outcome (option DetectionResult))
    (e : UnifiedEvent) : DepegPattern * Db * outcome (option DetectionResult) :=
  process_event s.1.1 e (timestamp e) s.1.2 ("u1", "u2")%string.
Definition start : DepegPattern * Db * outcome (option DetectionResult) :=
  (sample_pattern, (empty_tables : PatternTables), Ret None).
Definition two_quotes := foldl step start [oracle_event "chainlink" 90 10; oracle_event "pyth" 90 11].
Definition third_quote := step two_quotes (oracle_event "redstone" 90 12).
Definition late_quote := step third_quote (oracle_event "chainlink" 91 11).


Definition fires (r : outcome (option DetectionResult)) : bool :=
  match r with Ret (Some _) => true | _ => false end.
Example third_quote_fires : fires two_quotes.2 = false /\ fires third_quote.2 = true.
Proof. vm_compute. split; reflexivity. Qed.

(** ** The theorems on the run *)

Lemma sample_pattern_ok : policies_ok sample_pattern /\ cache_ok sample_pattern.
Proof.
  split; [|apply map_Forall_empty]. unfold sample_pattern, reload_config.
  apply foldl_inv; [apply map_Forall_empty|]. intros acc entry _. apply reload_entry_ok.
Qed.
Lemma step_ok (s : DepegPattern * Db * outcome (option DetectionResult)) e :
  policies_ok s.1.1 -> cache_ok s.1.1 ->
  (size (quote_cache s.1.1) <= DEPEG_QUOTE_CACHE_MAX_KEYS)%nat ->
  let s' := step s e in policies_ok s'.1.1 /\ cache_ok s'.1.1 /\
    (size (quote_cache s'.1.1) <= DEPEG_QUOTE_CACHE_MAX_KEYS)%nat.
Proof.
  intros Hp Hc Hs s'.
  destruct (event_pattern_ok s.1.1 e (timestamp e) s.1.2 ("u1", "u2")%string Hp Hc Hs)
    as (_ & ? & ? & ?). done.
Qed.
Lemma two_quotes_ok : policies_ok two_quotes.1.1 /\ cache_ok two_quotes.1.1 /\
  (size (quote_cache two_quotes.1.1) <= DEPEG_QUOTE_CACHE_MAX_KEYS)%nat.
Proof.
  destruct sample_pattern_ok as [Hp Hc]. unfold two_quotes. simpl foldl.
  assert (H1 : policies_ok (step start (oracle_event "chainlink" 90 10)).1.1 /\
    cache_ok (step start (oracle_event "chainlink" 90 10)).1.1 /\
    (size (quote_cache (step start (oracle_event "chainlink" 90 10)).1.1) <=
       DEPEG_QUOTE_CACHE_MAX_KEYS)%nat)
    by (apply (step_ok start); [exact Hp|exact Hc|]; apply Nat.leb_le; vm_compute; reflexivity).
  destruct H1 as (H1 & H2 & H3). by apply step_ok.
Qed.

Lemma remember_quote_ok_witness :
  let q := {| q_source_id := "pyth"; q_source_kind := "oracle"; q_price := f64_of_Z 1;
              q_observed_at := sec 1 |} in
  market_ok (remember_quote ∅ q) /\
  (forall s, s <> "pyth"%string -> remember_quote ∅ q !! s = None).
Proof.
  intros q. destruct (remember_quote_ok ∅ q market_ok_empty) as [H1 H2]. split; [exact H1|].
  intros s Hs. rewrite (H2 s Hs). apply lookup_empty.
Defined.
Lemma latest_quotes_spec_witness :
  NoDup (q_source_id <$> latest_quotes_for_time (∅ : gmap string (list QuoteInput)) (sec 1)).
Proof. apply (latest_quotes_spec ∅ (sec 1) market_ok_empty). Defined.
Definition pruned : gmap (string * string * string) (gmap string (list QuoteInput)) :=
  outcome_or ∅ (prune_quote_cache (quote_cache two_quotes.1.1) (sec 20) ("x", "y", "z")%string).
Lemma prune_quote_cache_spec_witness :
  pruned ⊆ quote_cache two_quotes.1.1 /\ (size pruned <= DEPEG_QUOTE_CACHE_MAX_KEYS)%nat.
Proof.
  destruct (prune_quote_cache_spec (quote_cache two_quotes.1.1) (sec 20) ("x", "y", "z")%string pruned)
    as (H1 & _ & H2 & _); [apply ret_or; vm_compute; reflexivity|]. split; [exact H1|exact H2].
Defined.

Definition late_event : UnifiedEvent := oracle_event "chainlink" 91 11.
Definition late_fields : DepegPolicy * string * f64 * DateTime :=
  default (sample_policy, ""%string, f64_zero, sec 0) (event_quote third_quote.1.1 late_event).
Definition stored_state : DepegAlertState :=
  outcome_or DepegAlertState_default
    (load_alert_state third_quote.1.2 "acme" (state_key late_fields.1.1.2 None)).
Lemma late_delivery_is_inert_witness :
  late_quote.1.2 = third_quote.1.2 /\ late_quote.2 = Ret None.
Proof.
  destruct late_quote as [[p' db'] [r|e|]] eqn:He;
    [|apply (f_equal (fun x => is_return x.2)) in He; vm_compute in He; discriminate..].
  assert (Hq : event_quote third_quote.1.1 late_event = Some late_fields)
    by (apply some_or; vm_compute; reflexivity).
  destruct late_fields as [[[policy market] pr] time] eqn:Hf.
  assert (Hst : load_alert_state third_quote.1.2 "acme" (state_key market None) = Ret stored_state).
  { unfold stored_state. rewrite Hf. apply ret_or.
    change market with (policy, market, pr, time).1.1.2. rewrite <- Hf. vm_compute. reflexivity. }
  assert (Hlate : late_delivery stored_state time = true).
  { change time with (policy, market, pr, time).2. rewrite <- Hf. vm_compute. reflexivity. }
  destruct (late_delivery_is_inert third_quote.1.1 late_event (sec 11) third_quote.1.2
    ("u1", "u2")%string policy market pr time stored_state p' db' r Hq Hst Hlate He) as [H1 H2].
  split; [exact H1|exact (f_equal Ret H2)].
Defined.
Definition state_after : DepegAlertState :=
  outcome_or DepegAlertState_default (load_alert_state late_quote.1.2 "acme" "USDC/USD").
Definition state_before : DepegAlertState :=
  outcome_or DepegAlertState_default (load_alert_state third_quote.1.2 "acme" "USDC/USD").
Lemma high_water_mark_monotone_witness :
  mark_le (high_water_mark state_before) (high_water_mark state_after).
Proof.
  apply (high_water_mark_monotone third_quote.1.1 late_event (sec 11) third_quote.1.2
    ("u1", "u2")%string "acme" "USDC/USD"); apply ret_or; vm_compute; reflexivity.
Defined.
Definition third_event : UnifiedEvent := oracle_event "redstone" 90 12.
Definition third_step := process_event two_quotes.1.1 third_event (sec 12) two_quotes.1.2
  ("u1", "u2")%string.
Lemma process_event_isolated_witness :
  load_pattern_state third_step.1.2 "other" PATTERN_ID "USDC/USD" =
  load_pattern_state two_quotes.1.2 "other" PATTERN_ID "USDC/USD".
Proof.
  refine (process_event_isolated two_quotes.1.1 third_event (sec 12) two_quotes.1.2
    ("u1", "u2")%string "other" PATTERN_ID "USDC/USD" _).
  intros (policy & market & pr & time & _ & Heq). discriminate Heq.
Defined.
Lemma process_event_pattern_ok_witness :
  policies_ok third_step.1.1 /\ cache_ok third_step.1.1.
Proof.
  unfold third_step. destruct two_quotes_ok as (H1 & H2 & H3).
  destruct (process_event_pattern_ok two_quotes.1.1 third_event (sec 12)
    two_quotes.1.2 ("u1", "u2")%string H1 H2 H3) as (_ & H4 & H5 & _).
  split; [exact H4|exact H5].
Defined.
Lemma assess_context_spec_witness :
  ca_classification (assess_context sample_pattern sample_policy "acme" live_scope (sec 1)) = Isolated.
Proof.
  destruct (assess_context_spec sample_pattern sample_policy "acme" live_scope (sec 1)
    (proj1 sample_pattern_ok)) as (H1 & _ & H2).
  apply H2. intros Hs. apply H1 in Hs as [Hs _]. discriminate Hs.
Defined.
Lemma detection_provenance_witness :
  exists d, third_step.2 = Ret (Some d) /\
    (incident_transition d = Some Trigger \/ incident_transition d = Some Escalate) /\
    f64_lt f64_zero (score (risk_score d)) = true.
Proof.
  unfold third_step.
  destruct (process_event two_quotes.1.1 third_event (sec 12) two_quotes.1.2 ("u1", "u2")%string)
    as [[p' db'] [[d|]|e|]] eqn:He;
    [|apply (f_equal (fun x => fires x.2)) in He; vm_compute in He; discriminate..].
  destruct two_quotes_ok as (H1 & H2 & _).
  destruct (detection_provenance two_quotes.1.1 third_event (sec 12)
    two_quotes.1.2 ("u1", "u2")%string p' db' d H1 H2 He)
    as (policy & market & pr & time & st & quotes & _ & _ & _ & _ & _ & _ & _ & Htr & _ & _ & _ & Hpos & _).
  exists d. split; [reflexivity|split; [exact Htr|exact Hpos]].
Defined.
