(* ===== verification/Utilization.v ===== *)
(** * High utilization: rules and evaluation
    ([apps/detector/src/patterns/utilization_high.rs])

    The rules of a tenant, their validation, which events they match, and the
    pure evaluation of a reading against the state of one rule and subject. *)
From S2P Require Import Prelude F64 Text Ports EventSchema.

Record UtilizationHighRule := {
  rule_id : string;
  rule_protocol_id : string;
  rule_chain_slug : string;
  scope : string;
  rule_market_id : option string;
  medium_threshold_pct : f64;
  high_threshold_pct : f64;
  critical_threshold_pct : f64;
  resolution_medium_pct : f64;
  resolution_high_pct : f64;
  resolution_critical_pct : f64;
  resolution_confirmation_blocks : Z;
  min_tvl_floor_usd : f64;
  enabled : bool
}.

Definition validate (r : UtilizationHighRule) : outcome unit :=
  if is_empty (trim (rule_id r)) then Err "rule_id must be non-empty"
  else if is_empty (trim (rule_protocol_id r)) then Err "protocol_id must be non-empty"
  else if is_empty (trim (rule_chain_slug r)) then Err "chain_slug must be non-empty"
  else if eq_ignore_ascii_case (scope r) "market"
          && is_empty (trim (default "" (rule_market_id r))) then
    Err "market scope requires market_id"
  else if f64_le (high_threshold_pct r) (medium_threshold_pct r) then
    Err "medium_threshold_pct must be < high_threshold_pct"
  else if f64_le (critical_threshold_pct r) (high_threshold_pct r) then
    Err "high_threshold_pct must be < critical_threshold_pct"
  else if f64_le (medium_threshold_pct r) (resolution_medium_pct r) then
    Err "resolution_medium_pct must be < medium_threshold_pct (hysteresis gap)"
  else if f64_le (high_threshold_pct r) (resolution_high_pct r) then
    Err "resolution_high_pct must be < high_threshold_pct (hysteresis gap)"
  else if f64_le (critical_threshold_pct r) (resolution_critical_pct r) then
    Err "resolution_critical_pct must be < critical_threshold_pct (hysteresis gap)"
  else if resolution_confirmation_blocks r =? 0 then
    Err "resolution_confirmation_blocks must be >= 1"
  else if f64_lt (min_tvl_floor_usd r) f64_zero then Err "min_tvl_floor_usd must be >= 0"
  else Ret ().

Definition normalized_scope (r : UtilizationHighRule) : string :=
  if eq_ignore_ascii_case (scope r) "market" then "market" else "protocol".
Definition is_market_scope (r : UtilizationHighRule) : bool :=
  bool_decide (normalized_scope r = "market").

Definition matches (r : UtilizationHighRule) (protocol_id chain_slug : string)
    (market_id : option string) : bool :=
  if negb (eq_ignore_ascii_case (rule_protocol_id r) protocol_id) then false
  else if negb (eq_ignore_ascii_case (rule_chain_slug r) chain_slug) then false
  else if is_market_scope r then
    eq_ignore_ascii_case (default "" (rule_market_id r)) (default "" market_id)
  else true.

(** (subject type, subject key, protocol key) *)
Definition subject_for_event (r : UtilizationHighRule) (market_id : option string)
  : option (string * string * string) :=
  let protocol_key :=
    to_ascii_lowercase (rule_protocol_id r) +:+ ":" +:+ to_ascii_lowercase (rule_chain_slug r) in
  if is_market_scope r then
    market ← trimmed_nonempty (match rule_market_id r with Some m => Some m | None => market_id end);
    Some ("market", protocol_key +:+ ":" +:+ to_ascii_lowercase market, protocol_key)
  else Some ("protocol", protocol_key, protocol_key).

Definition resolution_threshold_for (r : UtilizationHighRule) (severity : string) : f64 :=
  if bool_decide (severity = "critical") then resolution_critical_pct r
  else if bool_decide (severity = "high") then resolution_high_pct r
  else resolution_medium_pct r.

Definition severity_from_str (s : option string) : option Severity :=
  match s with
  | Some v =>
      if bool_decide (v = "critical") then Some Critical
      else if bool_decide (v = "high") then Some High
      else if bool_decide (v = "medium") then Some Medium
      else None
  | None => None
  end.
Definition severity_to_str (s : Severity) : string :=
  match s with
  | Critical => "critical" | High => "high" | Medium => "medium" | Low => "low" | Info => "info"
  end.
Definition severity_rank (s : option Severity) : Z :=
  match s with
  | Some Critical => 4 | Some High => 3 | Some Medium => 2 | Some Low => 1 | _ => 0
  end.
Definition classify_severity (pct : f64) (r : UtilizationHighRule) : option Severity :=
  if f64_le (critical_threshold_pct r) pct then Some Critical
  else if f64_le (high_threshold_pct r) pct then Some High
  else if f64_le (medium_threshold_pct r) pct then Some Medium
  else None.

Inductive RecommendedAction :=
  | EmergencyWithdraw | MonitorForUnpause | WithdrawMaxAvailable | Monitor.
Definition action_as_str (a : RecommendedAction) : string :=
  match a with
  | EmergencyWithdraw => "EMERGENCY_WITHDRAW"
  | MonitorForUnpause => "MONITOR_FOR_UNPAUSE"
  | WithdrawMaxAvailable => "WITHDRAW_MAX_AVAILABLE"
  | Monitor => "MONITOR"
  end.
Definition recommended_action_for (s : Severity) (paused : bool) : RecommendedAction :=
  if paused then MonitorForUnpause
  else match s with
       | Critical => EmergencyWithdraw
       | High => WithdrawMaxAvailable
       | _ => Monitor
       end.

Section evaluation.
Context `{Chrono}.

Record UtilizationSample := { sample_at : DateTime; sample_pct : f64 }.
Record UtilizationRuleState := {
  us_last_severity : option string;
  us_active_since : option DateTime;
  us_last_breach_at : option DateTime;
  us_last_transition_at : option DateTime;
  us_paused_status : bool;
  us_resolution_block_counter : Z;
  us_samples : list UtilizationSample;
  us_escalation_count : Z
}.
Definition UtilizationRuleState_default : UtilizationRuleState :=
  {| us_last_severity := None; us_active_since := None; us_last_breach_at := None;
     us_last_transition_at := None; us_paused_status := false;
     us_resolution_block_counter := 0; us_samples := []; us_escalation_count := 0 |}.

Record UtilizationEvalResult := {
  tvl_floor_suppressed : bool;
  ev_transition : option IncidentTransition;
  emit_severity : option Severity;
  resolved : bool;
  resolved_from_severity : option Severity;
  recommended_action : option RecommendedAction;
  incident_active_since : option DateTime;
  ev_escalation_count : Z
}.
Definition EvalResult_default : UtilizationEvalResult :=
  {| tvl_floor_suppressed := false; ev_transition := None; emit_severity := None;
     resolved := false; resolved_from_severity := None; recommended_action := None;
     incident_active_since := None; ev_escalation_count := 0 |}.

Definition sample_le (a b : UtilizationSample) : bool := dt_le (sample_at a) (sample_at b).
(** the rolling window: the reading enters, readings older than 61 minutes leave *)
Definition push_sample (samples : list UtilizationSample) (pct : f64) (now cutoff : DateTime)
  : list UtilizationSample :=
  filter (fun s => dt_le cutoff (sample_at s) = true)
    (sort_by sample_le (samples ++ [ {| sample_at := now; sample_pct := pct |} ])).
Definition set_samples (st : UtilizationRuleState) (l : list UtilizationSample)
  : UtilizationRuleState :=
  {| us_last_severity := us_last_severity st; us_active_since := us_active_since st;
     us_last_breach_at := us_last_breach_at st;
     us_last_transition_at := us_last_transition_at st;
     us_paused_status := us_paused_status st;
     us_resolution_block_counter := us_resolution_block_counter st; us_samples := l;
     us_escalation_count := us_escalation_count st |}.
Definition set_counter (st : UtilizationRuleState) (n : Z) : UtilizationRuleState :=
  {| us_last_severity := us_last_severity st; us_active_since := us_active_since st;
     us_last_breach_at := us_last_breach_at st;
     us_last_transition_at := us_last_transition_at st;
     us_paused_status := us_paused_status st; us_resolution_block_counter := n;
     us_samples := us_samples st; us_escalation_count := us_escalation_count st |}.

(** [(None, Some(sev))] *)
Definition on_trigger (st : UtilizationRuleState) (sev : Severity) (now : DateTime)
  : UtilizationRuleState * UtilizationEvalResult :=
  ({| us_last_severity := Some (severity_to_str sev); us_active_since := Some now;
      us_last_breach_at := Some now; us_last_transition_at := Some now;
      us_paused_status := us_paused_status st; us_resolution_block_counter := 0;
      us_samples := us_samples st; us_escalation_count := 0 |},
   {| tvl_floor_suppressed := false; ev_transition := Some Trigger; emit_severity := Some sev;
      resolved := false; resolved_from_severity := None;
      recommended_action := Some (recommended_action_for sev (us_paused_status st));
      incident_active_since := None; ev_escalation_count := 0 |}).
(** [(Some(prev), Some(new))] *)
Definition on_breach (st : UtilizationRuleState) (prev new : Severity) (now : DateTime)
  : UtilizationRuleState * UtilizationEvalResult :=
  if severity_rank (Some prev) <? severity_rank (Some new) then
    ({| us_last_severity := Some (severity_to_str new); us_active_since := us_active_since st;
        us_last_breach_at := Some now; us_last_transition_at := Some now;
        us_paused_status := us_paused_status st; us_resolution_block_counter := 0;
        us_samples := us_samples st;
        us_escalation_count := wrap_u32 (us_escalation_count st + 1) |},
     {| tvl_floor_suppressed := false; ev_transition := Some Escalate; emit_severity := Some new;
        resolved := false; resolved_from_severity := None;
        recommended_action := Some (recommended_action_for new (us_paused_status st));
        incident_active_since := None; ev_escalation_count := 0 |})
  else
    ({| us_last_severity := us_last_severity st; us_active_since := us_active_since st;
        us_last_breach_at := Some now; us_last_transition_at := us_last_transition_at st;
        us_paused_status := us_paused_status st; us_resolution_block_counter := 0;
        us_samples := us_samples st; us_escalation_count := us_escalation_count st |},
     EvalResult_default).
(** [(Some(prev_sev), None)] *)
Definition on_recovery (r : UtilizationHighRule) (st : UtilizationRuleState) (prev : Severity)
    (pct : f64) (now : DateTime) : UtilizationRuleState * UtilizationEvalResult :=
  let threshold := resolution_threshold_for r (default "medium" (us_last_severity st)) in
  if f64_lt pct threshold && negb (us_paused_status st) then
    let counter := wrap_u32 (us_resolution_block_counter st + 1) in
    if resolution_confirmation_blocks r <=? counter then
      ({| us_last_severity := None; us_active_since := None; us_last_breach_at := None;
          us_last_transition_at := Some now; us_paused_status := us_paused_status st;
          us_resolution_block_counter := 0; us_samples := us_samples st;
          us_escalation_count := 0 |},
       {| tvl_floor_suppressed := false; ev_transition := Some Resolve; emit_severity := None;
          resolved := true; resolved_from_severity := Some prev; recommended_action := None;
          incident_active_since := us_active_since st;
          ev_escalation_count := us_escalation_count st |})
    else (set_counter st counter, EvalResult_default)
  else if f64_le threshold pct then (set_counter st 0, EvalResult_default)
  else (st, EvalResult_default).

(** the fields filled in after the match *)
Definition complete_result (st : UtilizationRuleState) (res : UtilizationEvalResult)
  : UtilizationEvalResult :=
  {| tvl_floor_suppressed := tvl_floor_suppressed res; ev_transition := ev_transition res;
     emit_severity := emit_severity res; resolved := resolved res;
     resolved_from_severity := resolved_from_severity res;
     recommended_action :=
       match recommended_action res with
       | Some a => Some a
       | None =>
           (fun sev => recommended_action_for sev (us_paused_status st))
             <$> severity_from_str (us_last_severity st)
       end;
     incident_active_since :=
       match incident_active_since res with Some t => Some t | None => us_active_since st end;
     ev_escalation_count :=
       if 0 <? us_escalation_count st then us_escalation_count st else ev_escalation_count res |}.

Definition evaluate_utilization_state (r : UtilizationHighRule) (st : UtilizationRuleState)
    (pct tvl_usd : f64) (now : DateTime)
  : outcome (UtilizationRuleState * UtilizationEvalResult) :=
  if f64_lt tvl_usd (min_tvl_floor_usd r) && f64_lt f64_zero tvl_usd then
    Ret (st, {| tvl_floor_suppressed := true; ev_transition := None; emit_severity := None;
                resolved := false; resolved_from_severity := None; recommended_action := None;
                incident_active_since := None; ev_escalation_count := 0 |})
  else
    cutoff ← sub_minutes now 61;
    let st := set_samples st (push_sample (us_samples st) pct now cutoff) in
    let '(st, res) :=
      match severity_from_str (us_last_severity st), classify_severity pct r with
      | None, Some sev => on_trigger st sev now
      | Some prev, Some new => on_breach st prev new now
      | Some prev, None => on_recovery r st prev pct now
      | None, None => (st, EvalResult_default)
      end in
    Ret (st, complete_result st res).

(** utilization against its value at the start of a window *)
Definition oldest_sample (l : list UtilizationSample) : option UtilizationSample :=
  foldl (fun acc s => match acc with
                      | None => Some s
                      | Some a => if dt_lt (sample_at s) (sample_at a) then Some s else Some a
                      end) None l.
Definition newest_sample (l : list UtilizationSample) : option UtilizationSample :=
  foldl (fun acc s => match acc with
                      | None => Some s
                      | Some a => if dt_lt (sample_at s) (sample_at a) then Some a else Some s
                      end) None l.
Definition rate_of_change (samples : list UtilizationSample) (now : DateTime) (minutes : Z)
  : outcome (option f64) :=
  cutoff ← sub_minutes now minutes;
  Ret (baseline ← oldest_sample (filter (fun s => dt_le cutoff (sample_at s) = true) samples);
       current ← newest_sample samples;
       Some (f64_sub (sample_pct current) (sample_pct baseline))).
End evaluation.
