(* ===== verification/UtilizationPattern.v ===== *)
(** * The high-utilization pattern
    ([apps/detector/src/patterns/utilization_high.rs], [UtilizationHighPattern])

    Event parsing, configuration, the detections built, and [process_event] as
    a computation over the pattern and the database.  Parameters: the derived
    serde codecs ([UtilizationCodec]), the UUIDs drawn for the i-th matching
    rule, hash-map order.  Logging is left out. *)
From stdpp Require Import strings.
From S2P Require Import Prelude F64 Text Ports EventSchema PatternCommon CachePrune Utilization.

Definition PATTERN_ID : string := "utilization_high".
Definition UTILIZATION_STATE_CACHE_TTL_HOURS : Z := 24.
Definition UTILIZATION_STATE_CACHE_MAX_ENTRIES : nat := 4096.

(** serde: a float that is not finite is written as [null], which a sample
    does not read back *)
Definition finite_samples `{Chrono} (st : UtilizationRuleState) : Prop :=
  Forall (fun s => is_finite (sample_pct s) = true) (us_samples st).
Class UtilizationCodec `{Chrono} `{SerdeJson} := {
  rule_from_value : Value -> option UtilizationHighRule;
  ustate_to_value : UtilizationRuleState -> outcome Value;
  ustate_from_value : Value -> option UtilizationRuleState;
  datetime_to_value : DateTime -> Value;
  ustate_roundtrip : forall st v, finite_samples st ->
    ustate_to_value st = Ret v -> ustate_from_value v = Some st
}.

Section pattern.
Context `{Chrono} `{SerdeJson} `{HashOrder} `{!UtilizationCodec} `{!PatternStore}.

(** ** Events *)

Record UtilizationStateEvent := {
  se_protocol_id : string;
  se_chain_slug : string;
  se_market_id : option string;
  se_utilization_pct : f64;
  se_tvl_usd : f64;
  se_total_supplied_tokens : f64;
  se_total_borrowed_tokens : f64;
  se_block_number : Z;
  se_tx_hash : option string
}.
Record UtilizationPauseEvent := {
  pe_protocol_id : string;
  pe_chain_slug : string;
  pe_market_id : option string;
  pe_paused : bool;
  pe_block_number : Z;
  pe_tx_hash : option string
}.

(** [payload.get(k).and_then(|v| v.as_str())] and the like *)
Definition field_str (k : string) (m : gmap string Value) : option string := v ← m !! k; as_str v.
Definition field_f64 (k alt : string) (m : gmap string Value) : option f64 :=
  v ← (match m !! k with Some v => Some v | None => m !! alt end); as_f64 v.
Definition non_empty (s : string) : option string := if is_empty s then None else Some s.
Definition payload_block (event : UnifiedEvent) (m : gmap string Value) : Z :=
  default 0 (match (v ← m !! "block_number"%string; as_i64 v) with
             | Some b => Some b
             | None => block_number event
             end).
Definition payload_tx (event : UnifiedEvent) (m : gmap string Value) : option string :=
  match field_str "tx_hash" m with Some h => Some h | None => tx_hash event end.
(** a ratio in 0..1 becomes a percentage *)
Definition as_percentage (raw : f64) : f64 :=
  if f64_le raw (f64_of_Z 1) then f64_mul raw (f64_of_Z 100) else raw.

Definition parse_utilization_state_event (event : UnifiedEvent) : option UtilizationStateEvent :=
  if negb (eq_ignore_ascii_case (event_type event) "protocol_state") then None
  else
    payload ← as_object (payload event);
    metric ← field_str "metric" payload;
    if negb (eq_ignore_ascii_case metric "utilization") then None
    else
      protocol_id ← field_str "protocol_id" payload;
      raw ← field_f64 "utilization" "current_utilization" payload;
      Some {| se_protocol_id := protocol_id;
              se_chain_slug := default "base" (field_str "chain_slug" payload);
              se_market_id := field_str "market_id" payload ≫= non_empty;
              se_utilization_pct := as_percentage raw;
              se_tvl_usd := default f64_zero (field_f64 "tvl_usd" "window_start_tvl_usd" payload);
              se_total_supplied_tokens :=
                default f64_zero (field_f64 "total_supplied_tokens" "total_supplied" payload);
              se_total_borrowed_tokens :=
                default f64_zero (field_f64 "total_borrowed_tokens" "total_borrowed" payload);
              se_block_number := payload_block event payload;
              se_tx_hash := payload_tx event payload |}.

Definition parse_utilization_pause_event (event : UnifiedEvent) : option UtilizationPauseEvent :=
  if negb (eq_ignore_ascii_case (event_type event) "protocol_pause") then None
  else
    payload ← as_object (payload event);
    protocol_id ← field_str "protocol_id" payload;
    Some {| pe_protocol_id := protocol_id;
            pe_chain_slug := default "base" (field_str "chain_slug" payload);
            pe_market_id := field_str "market_id" payload ≫= non_empty;
            pe_paused := default true (v ← payload !! "paused"%string; as_bool v);
            pe_block_number := payload_block event payload;
            pe_tx_hash := payload_tx event payload |}.

(** ** Configuration *)

Definition with_rule_id (r : UtilizationHighRule) (id : string) : UtilizationHighRule :=
  {| rule_id := id; rule_protocol_id := rule_protocol_id r; rule_chain_slug := rule_chain_slug r;
     scope := scope r; rule_market_id := rule_market_id r;
     medium_threshold_pct := medium_threshold_pct r; high_threshold_pct := high_threshold_pct r;
     critical_threshold_pct := critical_threshold_pct r;
     resolution_medium_pct := resolution_medium_pct r; resolution_high_pct := resolution_high_pct r;
     resolution_critical_pct := resolution_critical_pct r;
     resolution_confirmation_blocks := resolution_confirmation_blocks r;
     min_tvl_floor_usd := min_tvl_floor_usd r; enabled := enabled r |}.
Definition parse_rule (tenant : string) (raw : Value) : option UtilizationHighRule :=
  rule ← rule_from_value raw;
  let rule := if is_empty (trim (rule_id rule))
              then with_rule_id rule (tenant +:+ "-utilization-high-default") else rule in
  match validate rule with Ret _ => Some rule | _ => None end.
Definition parse_utilization_rules (config : Value) (tenant : string) : list UtilizationHighRule :=
  let raw_rules := match vget "rules" config ≫= as_array with
                   | Some arr => arr
                   | None => if bool_decide (is_Some (as_object config)) then [config] else []
                   end in
  omap (parse_rule tenant) raw_rules.

Definition chain_from_slug (slug : string) : Chain :=
  let s := to_ascii_lowercase slug in
  if bool_decide (s = "base") then Base
  else if bool_decide (s = "ethereum") || bool_decide (s = "mainnet") then Ethereum
  else if bool_decide (s = "arbitrum") then Arbitrum
  else if bool_decide (s = "optimism") then Optimism
  else if bool_decide (s = "polygon") then Polygon
  else if bool_decide (s = "avalanche") then Avalanche
  else if bool_decide (s = "bsc") then BSC
  else UnknownChain.
Definition risk_score_for_severity (s : Severity) : f64 :=
  f64_of_Z match s with Critical => 95 | High => 80 | Medium => 60 | Low => 30 | Info => 10 end.
Definition actions_for_severity (s : Severity) (paused : bool) : list string :=
  if paused then
    [ "Protocol is paused. Monitor for unpause.";
      "Withdrawal not currently possible — pool locked or governance-paused." ]
  else match s with
       | Critical => [ "EMERGENCY_WITHDRAW: Exit the market immediately.";
                       "Available liquidity may disappear within minutes." ]
       | High => [ "WITHDRAW_MAX_AVAILABLE: Withdraw the maximum available portion.";
                   "Full exit may not be possible — take out what you can now." ]
       | Medium => [ "MONITOR: Utilization is elevated but withdrawal is fully available.";
                     "Watch for further deterioration." ]
       | _ => [ "MONITOR: Continue monitoring." ]
       end.

(** ** The pattern *)

Record UtilizationHighPattern := {
  configs : gmap string (list UtilizationHighRule);
  state_cache : gmap string UtilizationRuleState;
  source_bindings : gmap string (gset string)
}.
Definition UtilizationHighPattern_default : UtilizationHighPattern :=
  {| configs := ∅; state_cache := ∅; source_bindings := ∅ |}.

Definition state_key (rule_id subject_key : string) : string := rule_id +:+ ":" +:+ subject_key.
Definition cache_key (tenant key : string) : string := tenant +:+ ":" +:+ key.

(** [Iterator::max] of the dates present *)
Definition latest (l : list (option DateTime)) : option DateTime :=
  foldl (fun acc t => match acc, t with
                      | Some a, Some b => Some (dt_max a b)
                      | Some a, None => Some a
                      | None, _ => t
                      end) None l.
Definition utilization_state_last_activity (st : UtilizationRuleState) : option DateTime :=
  latest [ sample_at <$> last (us_samples st); us_last_transition_at st; us_last_breach_at st;
           us_active_since st ].
Definition prune_state_cache (cache : gmap string UtilizationRuleState) (now : DateTime)
    (current : string) : outcome (gmap string UtilizationRuleState) :=
  prune_cache utilization_state_last_activity UTILIZATION_STATE_CACHE_MAX_ENTRIES
    (UTILIZATION_STATE_CACHE_TTL_HOURS * 60) cache now current.

(** one entry of the configuration map *)
Definition reload_entry (acc : UtilizationHighPattern) (entry : (string * string) * Value)
  : UtilizationHighPattern :=
  let '((tenant, pattern), config) := entry in
  if negb (bool_decide (pattern = PATTERN_ID)) then acc
  else {| configs := <[tenant := parse_utilization_rules (extract_detection_config config) tenant]>
                       (configs acc);
          state_cache := state_cache acc;
          source_bindings :=
            match extract_bound_source_ids config with
            | Some bound => <[tenant := bound]> (source_bindings acc)
            | None => source_bindings acc
            end |}.
Definition reload_config (p : UtilizationHighPattern) (config_map : gmap (string * string) Value)
  : UtilizationHighPattern :=
  foldl reload_entry {| configs := ∅; state_cache := state_cache p; source_bindings := ∅ |}
    (hash_entries config_map).

(** ** Detections *)

Definition breached_threshold (r : UtilizationHighRule) (s : Severity) : f64 :=
  match s with
  | Critical => critical_threshold_pct r
  | High => high_threshold_pct r
  | _ => medium_threshold_pct r
  end.
Definition available_liquidity (sample : UtilizationStateEvent) : f64 :=
  f64_max (f64_mul (se_tvl_usd sample)
             (f64_sub (f64_of_Z 1) (f64_div (se_utilization_pct sample) (f64_of_Z 100)))) f64_zero.
Definition exit_feasibility (r : UtilizationHighRule) (st : UtilizationRuleState) (pct : f64) : string :=
  if us_paused_status st then "protocol_paused"
  else if f64_le (critical_threshold_pct r) pct then "severely_constrained"
  else if f64_le (high_threshold_pct r) pct then "constrained"
  else "open".
Definition detection_key (event : UnifiedEvent) (r : UtilizationHighRule) (key : string) : string :=
  "utilization_high:" +:+ tenant_id event +:+ ":" +:+ rule_id r +:+ ":" +:+ key.
Definition block_of (event : UnifiedEvent) (block : Z) : Z :=
  if 0 <? block then block else default 0 (block_number event).
Definition hash_of (event : UnifiedEvent) (own : option string) (generated : string) : string :=
  match own with Some h => h | None => default generated (tx_hash event) end.
Definition sample_context (sample : UtilizationStateEvent) : list (string * Value) :=
  [ ("protocol_id", VString (se_protocol_id sample)); ("chain_slug", VString (se_chain_slug sample));
    ("market_id", VOpt VString (se_market_id sample));
    ("current_utilization_pct", VFloat (se_utilization_pct sample)) ]%string.
Definition rule_tag (r : UtilizationHighRule) : string := "utilization_high." +:+ rule_id r.
Definition utilization_signal (event : UnifiedEvent) (sample : UtilizationStateEvent) (label : string)
  : DetectionSignal :=
  {| signal_type := UtilizationHighDetected; signal_value := se_utilization_pct sample;
     signal_label := Some label; signal_source_id := Some (source_id event) |}.
Definition place (sample : UtilizationStateEvent) : string :=
  "% in " +:+ se_protocol_id sample +:+ "/" +:+ default "protocol" (se_market_id sample) +:+ " (" +:+
  se_chain_slug sample +:+ ")".

Definition utilization_context (r : UtilizationHighRule) (sev : Severity) (tr : IncidentTransition)
    (sample : UtilizationStateEvent) (st : UtilizationRuleState) (rate10 rate60 : f64)
  : gmap string Value :=
  list_to_map (sample_context sample ++
    [ ("total_supplied_tokens", VFloat (se_total_supplied_tokens sample));
      ("total_borrowed_tokens", VFloat (se_total_borrowed_tokens sample));
      ("tvl_usd", VFloat (se_tvl_usd sample));
      ("available_liquidity_usd", VFloat (available_liquidity sample));
      ("exit_feasibility", VString (exit_feasibility r st (se_utilization_pct sample)));
      ("breached_threshold_pct", VFloat (breached_threshold r sev));
      ("resolution_threshold_pct", VFloat (resolution_threshold_for r (severity_to_str sev)));
      ("medium_threshold_pct", VFloat (medium_threshold_pct r));
      ("high_threshold_pct", VFloat (high_threshold_pct r));
      ("critical_threshold_pct", VFloat (critical_threshold_pct r));
      ("rate_of_change_10min", VFloat rate10); ("rate_of_change_60min", VFloat rate60);
      ("paused_status", VBool (us_paused_status st)); ("transition", VString (transition_lower tr));
      ("recommended_action",
         VString (action_as_str (recommended_action_for sev (us_paused_status st))));
      ("escalation_count", VInt (us_escalation_count st)) ]%string).
Definition build_utilization_detection (event : UnifiedEvent) (r : UtilizationHighRule)
    (subject : string * string) (sev : Severity) (tr : IncidentTransition) (now : DateTime)
    (sample : UtilizationStateEvent) (st : UtilizationRuleState) (uuids : string * string)
  : outcome DetectionResult :=
  let '(simulated, run_id) := simulation_metadata_from_event event in
  r10 ← rate_of_change (us_samples st) now 10;
  r60 ← rate_of_change (us_samples st) now 60;
  let rate10 := default f64_zero r10 in
  let rate60 := default f64_zero r60 in
  let pct := fmt_fixed 2 (se_utilization_pct sample) in
  Ret {| detection_id := uuids.1; pattern_id := PATTERN_ID;
         det_event_key := Some (detection_key event r subject.2);
         subject_type := Some subject.1; subject_key := Some subject.2;
         det_tenant_id := Some (tenant_id event); det_chain := chain_from_slug (se_chain_slug sample);
         det_chain_slug := se_chain_slug sample; protocol := se_protocol_id sample;
         det_lifecycle_state := Confirmed; requires_confirmation := false;
         attack_family := HighUtilization; severity := sev;
         description := Some ("High utilization detected: " +:+ pct +:+ place sample +:+
           ". Rule: '" +:+ rule_id r +:+ "'.");
         triggered_rule_ids := [rule_tag r];
         det_tx_hash := hash_of event (se_tx_hash sample) ("utilization-high-" +:+ uuids.2);
         det_block_number := block_of event (se_block_number sample);
         signals := [utilization_signal event sample (pct +:+ "% utilization")];
         risk_score :=
           {| score := risk_score_for_severity sev; confidence := f64_lit 90 100;
              rationale := [ "utilization=" +:+ pct +:+ "%";
                "rate_10min=" +:+ fmt_fixed_signed 2 rate10 +:+ "pp, rate_60min=" +:+
                fmt_fixed_signed 2 rate60 +:+ "pp" ];
              attribution := [] |};
         incident_transition := Some tr; context_classification := Some Isolated;
         confidence_breakdown := {[ "utilization_pct"%string := se_utilization_pct sample ]};
         oracle_context := utilization_context r sev tr sample st rate10 rate60;
         actions_recommended := actions_for_severity sev (us_paused_status st);
         is_simulated := simulated; simulation_run_id := run_id;
         detected_at := now; created_at := now |}.

Definition resolve_context (r : UtilizationHighRule) (sev : Severity) (duration_sec count : Z)
    (sample : UtilizationStateEvent) : gmap string Value :=
  list_to_map (sample_context sample ++
    [ ("available_liquidity_usd", VFloat (available_liquidity sample));
      ("exit_feasibility", VString "recovering");
      ("breached_threshold_pct", VFloat (breached_threshold r sev));
      ("resolution_threshold_pct", VFloat (resolution_threshold_for r (severity_to_str sev)));
      ("transition", VString "resolve"); ("incident_duration_sec", VInt duration_sec);
      ("escalation_occurred", VBool (0 <? count)%Z); ("escalation_count", VInt count);
      ("original_severity", VString (severity_to_str sev)) ]%string).
Definition build_resolve_detection (event : UnifiedEvent) (r : UtilizationHighRule)
    (subject : string * string) (sev : Severity) (now : DateTime) (active_since : option DateTime)
    (count : Z) (sample : UtilizationStateEvent) (uuids : string * string) : DetectionResult :=
  let '(simulated, run_id) := simulation_metadata_from_event event in
  let duration_sec := default 0 ((fun start => secs_between now start) <$> active_since) in
  let pct := fmt_fixed 2 (se_utilization_pct sample) in
  {| detection_id := uuids.1; pattern_id := PATTERN_ID;
     det_event_key := Some (detection_key event r subject.2);
     subject_type := Some subject.1; subject_key := Some subject.2;
     det_tenant_id := Some (tenant_id event); det_chain := chain_from_slug (se_chain_slug sample);
     det_chain_slug := se_chain_slug sample; protocol := se_protocol_id sample;
     det_lifecycle_state := Resolved; requires_confirmation := false;
     attack_family := HighUtilization; severity := sev;
     description := Some ("High utilization incident resolved: " +:+ pct +:+ place sample +:+ ".");
     triggered_rule_ids := [rule_tag r];
     det_tx_hash := hash_of event (se_tx_hash sample) ("utilization-high-resolve-" +:+ uuids.2);
     det_block_number := block_of event (se_block_number sample);
     signals := [utilization_signal event sample "incident resolved"];
     risk_score :=
       {| score := f64_of_Z 10; confidence := f64_lit 90 100;
          rationale := ["utilization fell to " +:+ pct +:+ "% — below resolution threshold"];
          attribution := [] |};
     incident_transition := Some Resolve; context_classification := Some NoContext;
     confidence_breakdown := ∅; oracle_context := resolve_context r sev duration_sec count sample;
     actions_recommended := ["Incident auto-resolved. Liquidity has recovered."%string];
     is_simulated := simulated; simulation_run_id := run_id;
     detected_at := now; created_at := now |}.

Definition build_pause_detection (event : UnifiedEvent) (r : UtilizationHighRule)
    (subject : string * string) (active : Severity) (pause : UtilizationPauseEvent) (now : DateTime)
    (uuids : string * string) : DetectionResult :=
  let '(simulated, run_id) := simulation_metadata_from_event event in
  let label := if pe_paused pause then "paused"%string else "unpaused"%string in
  {| detection_id := uuids.1; pattern_id := PATTERN_ID;
     det_event_key := Some (detection_key event r subject.2 +:+ ":pause");
     subject_type := Some subject.1; subject_key := Some subject.2;
     det_tenant_id := Some (tenant_id event); det_chain := chain_from_slug (pe_chain_slug pause);
     det_chain_slug := pe_chain_slug pause; protocol := pe_protocol_id pause;
     det_lifecycle_state := Confirmed; requires_confirmation := false;
     attack_family := HighUtilization; severity := active;
     description := Some ("Protocol " +:+ pe_protocol_id pause +:+ " " +:+ label +:+
       " while a high-utilization incident is active.");
     triggered_rule_ids := [rule_tag r];
     det_tx_hash := hash_of event (pe_tx_hash pause) ("utilization-high-pause-" +:+ uuids.2);
     det_block_number := block_of event (pe_block_number pause);
     signals := [ {| signal_type := ProtocolPauseState;
                     signal_value := f64_of_Z (if pe_paused pause then 1 else 0);
                     signal_label := Some ("protocol_" +:+ label);
                     signal_source_id := Some (source_id event) |} ];
     risk_score :=
       {| score := f64_of_Z 70; confidence := f64_lit 85 100;
          rationale :=
            ["protocol marked " +:+ label +:+ " during active high-utilization incident"];
          attribution := [] |};
     incident_transition := Some Update; context_classification := Some Isolated;
     confidence_breakdown := ∅;
     oracle_context :=
       list_to_map [ ("protocol_id", VString (pe_protocol_id pause));
                     ("chain_slug", VString (pe_chain_slug pause));
                     ("market_id", VOpt VString (pe_market_id pause));
                     ("pause_state", VString label) ]%string;
     actions_recommended :=
       if pe_paused pause then
         [ "MONITOR_FOR_UNPAUSE: Withdrawal not currently possible.";
           "Pool is paused by governance. Monitor for recovery." ]%string
       else ["Protocol unpaused. Auto-resolution tracking resumed."%string];
     is_simulated := simulated; simulation_run_id := run_id;
     detected_at := now; created_at := now |}.

Definition severity_rank_detection (d : DetectionResult) : Z := severity_rank (Some (severity d)).
Definition pick_higher (existing : option DetectionResult) (candidate : DetectionResult)
  : option DetectionResult :=
  match existing with
  | None => Some candidate
  | Some prev =>
      if severity_rank_detection prev <=? severity_rank_detection candidate then Some candidate
      else Some prev
  end.

(** ** Processing an event *)

Notation M := (ST (UtilizationHighPattern * Db)).

Definition load_rule_state (db : Db) (tenant key : string) : outcome UtilizationRuleState :=
  v ← load_pattern_state db tenant PATTERN_ID key;
  Ret (default UtilizationRuleState_default (v ≫= ustate_from_value)).
Definition load_state (tenant key : string) : M UtilizationRuleState := fun s =>
  (s, load_rule_state s.2 tenant key).
Definition set_cache (p : UtilizationHighPattern) (c : gmap string UtilizationRuleState)
  : UtilizationHighPattern :=
  {| configs := configs p; state_cache := c; source_bindings := source_bindings p |}.

(** snapshot and state are persisted, the errors of the two statements ignored *)
Definition persist (event : UnifiedEvent) (key : string) (data : Value) (score : option f64)
    (severity : option string) (st : UtilizationRuleState) : M unit := fun s =>
  let snap := {| snap_tenant_id := tenant_id event; snap_pattern_id := PATTERN_ID;
                 snap_snapshot_key := key; snap_data := append_snapshot_meta event data;
                 snap_score := score; snap_severity := severity;
                 snap_observed_at := timestamp event |} in
  let db := (insert_pattern_snapshot s.2 snap).1 in
  match ustate_to_value st with
  | Ret v => ((s.1, (upsert_pattern_state db (tenant_id event) PATTERN_ID key v).1), Ret ())
  | Err e => ((s.1, db), Err e)
  | Panic => ((s.1, db), Panic)
  end.
(** the state enters the cache, which is pruned *)
Definition remember (event : UnifiedEvent) (key : string) (st : UtilizationRuleState)
    (now : DateTime) : M unit := fun s =>
  let ck := cache_key (tenant_id event) key in
  let cache := <[ck := st]> (state_cache s.1) in
  match prune_state_cache cache now ck with
  | Ret c => ((set_cache s.1 c, s.2), Ret ())
  | Err e => ((set_cache s.1 cache, s.2), Err e)
  | Panic => ((set_cache s.1 cache, s.2), Panic)
  end.

Definition state_snapshot (r : UtilizationHighRule) (subject_key : string)
    (sample : UtilizationStateEvent) (st : UtilizationRuleState) (ev : UtilizationEvalResult) : Value :=
  VObj [ ("rule_id", VString (rule_id r)); ("subject_key", VString subject_key);
         ("utilization_pct", VFloat (se_utilization_pct sample));
         ("tvl_usd", VFloat (se_tvl_usd sample));
         ("total_supplied_tokens", VFloat (se_total_supplied_tokens sample));
         ("total_borrowed_tokens", VFloat (se_total_borrowed_tokens sample));
         ("last_severity", VOpt VString (us_last_severity st));
         ("resolution_block_counter", VInt (us_resolution_block_counter st));
         ("paused_status", VBool (us_paused_status st));
         ("incident_transition", VOpt (fun t => VString (transition_lower t)) (ev_transition ev));
         ("do_resolve", VBool (resolved ev)) ]%string.
Definition pause_snapshot (r : UtilizationHighRule) (subject_key : string)
    (pause : UtilizationPauseEvent) : Value :=
  VObj [ ("rule_id", VString (rule_id r)); ("subject_key", VString subject_key);
         ("pause_state", VString (if pe_paused pause then "paused" else "unpaused"));
         ("incident_transition", VString "update") ]%string.

(** the detection of an evaluation, if it has one *)
Definition detection_of (event : UnifiedEvent) (r : UtilizationHighRule) (subject : string * string)
    (sample : UtilizationStateEvent) (st : UtilizationRuleState) (ev : UtilizationEvalResult)
    (now : DateTime) (uuids : string * string) : outcome (option DetectionResult) :=
  if resolved ev then
    sev ← or_panic (resolved_from_severity ev);
    Ret (Some (build_resolve_detection event r subject sev now (incident_active_since ev)
                 (ev_escalation_count ev) sample uuids))
  else
    match ev_transition ev, emit_severity ev with
    | Some tr, Some sev =>
        d ← build_utilization_detection event r subject sev tr now sample st uuids; Ret (Some d)
    | _, _ => Ret None
    end.

(** one rule and one reading *)
Definition process_rule (event : UnifiedEvent) (sample : UtilizationStateEvent) (now : DateTime)
    (uuids : nat -> string * string) (emitted : option DetectionResult)
    (ir : nat * UtilizationHighRule) : M (option DetectionResult) :=
  let '(i, r) := ir in
  match subject_for_event r (se_market_id sample) with
  | None => mret emitted
  | Some (subject_type, subject_key, _) =>
      let key := state_key (rule_id r) subject_key in
      st ← load_state (tenant_id event) key;
      ev ← lift (evaluate_utilization_state r st (se_utilization_pct sample) (se_tvl_usd sample) now);
      let '(st, ev) := ev in
      if tvl_floor_suppressed ev then mret emitted
      else
        d ← lift (detection_of event r (subject_type, subject_key) sample st ev now (uuids i));
        persist event key (state_snapshot r subject_key sample st ev)
          (Some (se_utilization_pct sample)) (us_last_severity st) st;;
        remember event key st now;;
        mret (match d with Some d => pick_higher emitted d | None => emitted end)
  end.

Definition numbered {A} (l : list A) : list (nat * A) := imap (fun i a => (i, a)) l.
Definition rules_for (p : UtilizationHighPattern) (event : UnifiedEvent) (protocol chain : string)
    (market : option string) : list UtilizationHighRule :=
  filter (fun r => (enabled r && matches r protocol chain market) = true)
    (default [] (configs p !! tenant_id event)).

(** the other active incidents of the tenant *)
Definition concurrent_alerts (p : UtilizationHighPattern) (event : UnifiedEvent)
    (d : DetectionResult) : list Value :=
  let own := (fun ek => default ek (strip_prefix "utilization_high:" ek)) <$> det_event_key d in
  (fun kv : string * UtilizationRuleState =>
     VObj [ ("state_key", VString kv.1);
            ("severity", VOpt VString (us_last_severity kv.2));
            ("active_since", VOpt datetime_to_value (us_active_since kv.2)) ]%string) <$>
  filter (fun kv : string * UtilizationRuleState =>
            (starts_with kv.1 (tenant_id event +:+ ":")
             && bool_decide (is_Some (us_last_severity kv.2))
             && negb (bool_decide (Some kv.1 = own))) = true)
    (hash_entries (state_cache p)).
Definition with_context (d : DetectionResult) (c : gmap string Value) : DetectionResult :=
  {| detection_id := detection_id d; pattern_id := pattern_id d; det_event_key := det_event_key d;
     subject_type := subject_type d; subject_key := subject_key d; det_tenant_id := det_tenant_id d;
     det_chain := det_chain d; det_chain_slug := det_chain_slug d; protocol := protocol d;
     det_lifecycle_state := det_lifecycle_state d; requires_confirmation := requires_confirmation d;
     attack_family := attack_family d; severity := severity d; description := description d;
     triggered_rule_ids := triggered_rule_ids d; det_tx_hash := det_tx_hash d;
     det_block_number := det_block_number d; signals := signals d; risk_score := risk_score d;
     incident_transition := incident_transition d;
     context_classification := context_classification d;
     confidence_breakdown := confidence_breakdown d; oracle_context := c;
     actions_recommended := actions_recommended d; is_simulated := is_simulated d;
     simulation_run_id := simulation_run_id d; detected_at := detected_at d;
     created_at := created_at d |}.
Definition enrich (p : UtilizationHighPattern) (event : UnifiedEvent) (d : DetectionResult)
  : DetectionResult :=
  match concurrent_alerts p event d with
  | [] => d
  | l => with_context d (<["concurrent_market_alerts"%string := VArray l]> (oracle_context d))
  end.

(** the first branch: a utilization reading *)
Definition process_state_event (event : UnifiedEvent) (sample : UtilizationStateEvent)
    (now : DateTime) (uuids : nat -> string * string) : M (option DetectionResult) :=
  s ← get_st;
  let rules := rules_for s.1 event (se_protocol_id sample) (se_chain_slug sample)
                 (se_market_id sample) in
  emitted ← for_each (process_rule event sample now uuids) (numbered rules) None;
  s ← get_st;
  mret (enrich s.1 event <$> emitted).

(** one rule and one pause signal; [Some] ends the loop with a detection *)
Definition set_paused (st : UtilizationRuleState) (paused : bool) (now : DateTime)
  : UtilizationRuleState :=
  {| us_last_severity := us_last_severity st; us_active_since := us_active_since st;
     us_last_breach_at := us_last_breach_at st; us_last_transition_at := Some now;
     us_paused_status := paused; us_resolution_block_counter := us_resolution_block_counter st;
     us_samples := us_samples st; us_escalation_count := us_escalation_count st |}.
Definition pause_rule (event : UnifiedEvent) (pause : UtilizationPauseEvent) (now : DateTime)
    (uuids : string * string) (r : UtilizationHighRule) : M (option DetectionResult) :=
  match subject_for_event r (pe_market_id pause) with
  | None => mret None
  | Some (subject_type, subject_key, _) =>
      let key := state_key (rule_id r) subject_key in
      st ← load_state (tenant_id event) key;
      match us_last_severity st with
      | None => mret None
      | Some text =>
          let active := default Medium (severity_from_str (Some text)) in
          let st := set_paused st (pe_paused pause) now in
          persist event key (pause_snapshot r subject_key pause) None (Some text) st;;
          remember event key st now;;
          mret (Some (build_pause_detection event r (subject_type, subject_key) active pause now uuids))
      end
  end.
Definition process_pause_event (event : UnifiedEvent) (pause : UtilizationPauseEvent)
    (now : DateTime) (uuids : string * string) : M (option DetectionResult) :=
  s ← get_st;
  first_some (pause_rule event pause now uuids)
    (rules_for s.1 event (pe_protocol_id pause) (pe_chain_slug pause) (pe_market_id pause)).

Definition process_event (event : UnifiedEvent) (now : DateTime) (uuids : nat -> string * string)
  : M (option DetectionResult) :=
  s ← get_st;
  if negb (binding_allows (source_bindings s.1) event) then mret None
  else
    match configs s.1 !! tenant_id event with
    | None => mret None
    | Some _ =>
        match parse_utilization_state_event event with
        | Some sample => process_state_event event sample now uuids
        | None =>
            match parse_utilization_pause_event event with
            | Some pause => process_pause_event event pause now (uuids 0%nat)
            | None => mret None
            end
        end
    end.
End pattern.
