(* ===== verification/UtilizationProofs.v ===== *)
(** * The high-utilization lifecycle

    An abstract machine for one rule and one subject (the severity of the
    active incident, the count of recovery readings, the pause flag), the
    refinement of [evaluate_utilization_state] and of the pause step to it, and
    what follows for runs of readings and pauses: an incident alerts at most
    once per severity, it is resolved only by the configured number of recovery
    readings, never while paused, and a market that recovers is resolved. *)
From S2P Require Import Prelude F64 Text Ports EventSchema PatternCommon CachePrune Utilization UtilizationPattern.

(** ** Severities *)

Definition tracked (s : Severity) : Prop := s = Medium \/ s = High \/ s = Critical.

Lemma severity_str_roundtrip s : tracked s -> severity_from_str (Some (severity_to_str s)) = Some s.
Proof. by intros [->|[->| ->]]. Qed.
Lemma severity_from_str_Some t s :
  severity_from_str (Some t) = Some s -> t = severity_to_str s /\ tracked s.
Proof.
  unfold severity_from_str, tracked. repeat case_bool_decide; intros [= <-]; subst; auto.
Qed.
Lemma classify_tracked pct r s : classify_severity pct r = Some s -> tracked s.
Proof. unfold classify_severity, tracked. repeat case_one; intros [= <-]; auto. Qed.
Lemma tracked_rank s : tracked s -> 2 <= severity_rank (Some s) <= 4.
Proof. intros [->|[->| ->]]; simpl; lia. Qed.
Lemma tracked_rank_inj a b :
  tracked a -> tracked b -> severity_rank (Some a) = severity_rank (Some b) -> a = b.
Proof. by intros [->|[->| ->]] [->|[->| ->]]. Qed.

(** a validated rule orders its thresholds *)
Lemma rule_validate_ok r : validate r = Ret () ->
  f64_le (high_threshold_pct r) (medium_threshold_pct r) = false /\
  f64_le (critical_threshold_pct r) (high_threshold_pct r) = false /\
  f64_le (medium_threshold_pct r) (resolution_medium_pct r) = false /\
  f64_le (high_threshold_pct r) (resolution_high_pct r) = false /\
  f64_le (critical_threshold_pct r) (resolution_critical_pct r) = false /\
  resolution_confirmation_blocks r <> 0 /\ f64_lt (min_tvl_floor_usd r) f64_zero = false.
Proof.
  unfold validate. repeat (case_one; [done|]). intros _. split_and!; try done. by apply Z.eqb_neq.
Qed.

Section lifecycle.
Context `{Chrono}.

(** ** The abstract machine *)

Record lifecycle := { active : option Severity; streak : Z; paused : bool }.
Definition abs (st : UtilizationRuleState) : lifecycle :=
  {| active := severity_from_str (us_last_severity st);
     streak := us_resolution_block_counter st; paused := us_paused_status st |}.

Inductive input := Reading (pct tvl : f64) (now : DateTime) | Pause (on : bool) (now : DateTime).

Definition suppressed (r : UtilizationHighRule) (tvl : f64) : bool :=
  f64_lt tvl (min_tvl_floor_usd r) && f64_lt f64_zero tvl.
Definition threshold (r : UtilizationHighRule) (s : Severity) : f64 :=
  resolution_threshold_for r (severity_to_str s).
(** a reading that breaches nothing and is below the resolution threshold *)
Definition recovered (r : UtilizationHighRule) (s : Severity) (pct : f64) : bool :=
  bool_decide (classify_severity pct r = None) && f64_lt pct (threshold r s).

Inductive lstep (r : UtilizationHighRule) (l : lifecycle)
  : input -> option IncidentTransition -> lifecycle -> Prop :=
  | l_suppressed pct tvl now :
      suppressed r tvl = true -> lstep r l (Reading pct tvl now) None l
  | l_idle pct tvl now :
      suppressed r tvl = false -> active l = None -> classify_severity pct r = None ->
      lstep r l (Reading pct tvl now) None l
  | l_trigger pct tvl now s :
      suppressed r tvl = false -> active l = None -> classify_severity pct r = Some s ->
      lstep r l (Reading pct tvl now) (Some Trigger)
        {| active := Some s; streak := 0; paused := paused l |}
  | l_escalate pct tvl now a s :
      suppressed r tvl = false -> active l = Some a -> classify_severity pct r = Some s ->
      severity_rank (Some a) < severity_rank (Some s) ->
      lstep r l (Reading pct tvl now) (Some Escalate)
        {| active := Some s; streak := 0; paused := paused l |}
  | l_hold pct tvl now a s :
      suppressed r tvl = false -> active l = Some a -> classify_severity pct r = Some s ->
      severity_rank (Some s) <= severity_rank (Some a) ->
      lstep r l (Reading pct tvl now) None
        {| active := Some a; streak := 0; paused := paused l |}
  | l_count pct tvl now a :
      suppressed r tvl = false -> active l = Some a -> recovered r a pct = true ->
      paused l = false -> streak l + 1 < resolution_confirmation_blocks r ->
      lstep r l (Reading pct tvl now) None
        {| active := Some a; streak := streak l + 1; paused := false |}
  | l_resolve pct tvl now a :
      suppressed r tvl = false -> active l = Some a -> recovered r a pct = true ->
      paused l = false -> resolution_confirmation_blocks r <= streak l + 1 ->
      lstep r l (Reading pct tvl now) (Some Resolve)
        {| active := None; streak := 0; paused := false |}
  | l_reset pct tvl now a :
      suppressed r tvl = false -> active l = Some a -> classify_severity pct r = None ->
      f64_le (threshold r a) pct = true ->
      lstep r l (Reading pct tvl now) None
        {| active := Some a; streak := 0; paused := paused l |}
  | l_frozen pct tvl now a :
      suppressed r tvl = false -> active l = Some a -> classify_severity pct r = None ->
      f64_le (threshold r a) pct = false -> paused l = true \/ f64_lt pct (threshold r a) = false ->
      lstep r l (Reading pct tvl now) None l
  | l_pause on now a :
      active l = Some a ->
      lstep r l (Pause on now) (Some Update)
        {| active := Some a; streak := streak l; paused := on |}
  | l_pause_ignored on now :
      active l = None -> lstep r l (Pause on now) None l.

(** the states the rule writes *)
Definition state_ok (r : UtilizationHighRule) (st : UtilizationRuleState) : Prop :=
  0 <= us_resolution_block_counter st < resolution_confirmation_blocks r /\
  (us_last_severity st = None -> us_resolution_block_counter st = 0) /\
  forall t, us_last_severity st = Some t -> exists s, t = severity_to_str s /\ tracked s.
(** [resolution_confirmation_blocks] is a [u32], not zero in a validated rule *)
Definition blocks_ok (r : UtilizationHighRule) : Prop :=
  0 < resolution_confirmation_blocks r < 2 ^ 32.

Lemma default_state_ok r : blocks_ok r -> state_ok r UtilizationRuleState_default.
Proof. unfold blocks_ok. intros. split_and!; simpl; [lia|lia|done|done]. Qed.
Lemma state_ok_active r st t :
  state_ok r st -> us_last_severity st = Some t ->
  exists s, severity_from_str (us_last_severity st) = Some s /\ t = severity_to_str s /\ tracked s.
Proof.
  intros (_ & _ & Hs) Ht. destruct (Hs _ Ht) as (s & -> & Htr). exists s. rewrite Ht.
  split; [by apply severity_str_roundtrip|done].
Qed.
Lemma state_ok_inactive r st :
  state_ok r st -> severity_from_str (us_last_severity st) = None -> us_last_severity st = None.
Proof.
  intros Hok Hs. destruct (us_last_severity st) as [t|] eqn:Ht; [|done].
  destruct (state_ok_active _ _ _ Hok Ht) as (s & Hs' & _). rewrite Ht in Hs'. congruence.
Qed.
Lemma abs_intro st a n p :
  us_last_severity st = severity_to_str <$> a -> (forall s, a = Some s -> tracked s) ->
  us_resolution_block_counter st = n -> us_paused_status st = p ->
  abs st = {| active := a; streak := n; paused := p |}.
Proof.
  intros Hl Ha <- <-. unfold abs. rewrite Hl. destruct a as [s|]; [|done].
  change (severity_to_str <$> Some s) with (Some (severity_to_str s)).
  by rewrite severity_str_roundtrip by (by apply Ha).
Qed.

(** ** Refinement *)

(** a transition and the severity that goes with it in the result *)
Definition result_ok (l : lifecycle) (ev : UtilizationEvalResult) (l' : lifecycle) : Prop :=
  match ev_transition ev with
  | Some Resolve => resolved ev = true /\ resolved_from_severity ev = active l /\ active l <> None
  | Some _ => resolved ev = false /\ emit_severity ev = active l' /\ active l' <> None
  | None => resolved ev = false /\ emit_severity ev = None
  end.
Definition step_ok (r : UtilizationHighRule) (st : UtilizationRuleState) (i : input)
    (st' : UtilizationRuleState) (ev : UtilizationEvalResult) : Prop :=
  lstep r (abs st) i (ev_transition ev) (abs st') /\ state_ok r st' /\
  result_ok (abs st) ev (abs st').

(** the result fields that [complete_result] leaves alone *)
Lemma complete_step_ok r st i st' ev :
  step_ok r st i st' ev -> step_ok r st i st' (complete_result st' ev).
Proof. done. Qed.
Lemma set_samples_abs st l : abs (set_samples st l) = abs st.
Proof. done. Qed.

Ltac side := try done; try (by intros ? [= <-]); try (split; lia).
Section evaluation_steps.
Variables (r : UtilizationHighRule) (st : UtilizationRuleState) (pct tvl : f64) (now : DateTime).
Hypothesis Hblocks : blocks_ok r.
Hypothesis Hok : state_ok r st.
Hypothesis Hfloor : suppressed r tvl = false.
Notation reading := (Reading pct tvl now).

Lemma step_intro st' ev a n p :
  us_last_severity st' = severity_to_str <$> a -> (forall s, a = Some s -> tracked s) ->
  us_resolution_block_counter st' = n -> us_paused_status st' = p ->
  0 <= n < resolution_confirmation_blocks r -> (a = None -> n = 0) ->
  let l' := {| active := a; streak := n; paused := p |} in
  lstep r (abs st) reading (ev_transition ev) l' -> result_ok (abs st) ev l' ->
  step_ok r st reading st' ev.
Proof.
  intros Hl Ha Hn Hp Hr H0 l' Hs Hres. unfold step_ok. rewrite (abs_intro st' a n p) by done.
  split_and!; [done| |done]. split; [by rewrite Hn|split].
  - rewrite Hl, Hn. intros Hnone. apply H0. by destruct a.
  - intros t. rewrite Hl. destruct a as [s|]; [|done]. intros [= <-]. exists s. auto.
Qed.
Lemma trigger_ok s st' ev :
  active (abs st) = None -> classify_severity pct r = Some s ->
  on_trigger st s now = (st', ev) -> step_ok r st reading st' ev.
Proof.
  unfold on_trigger. intros Ha Hc [= <- <-]. pose proof (classify_tracked _ _ _ Hc) as Ht.
  unfold blocks_ok in Hblocks.
  apply (step_intro _ _ (Some s) 0 (paused (abs st))); side.
  by apply l_trigger.
Qed.
Lemma breach_ok a s st' ev :
  active (abs st) = Some a -> classify_severity pct r = Some s ->
  on_breach st a s now = (st', ev) -> step_ok r st reading st' ev.
Proof.
  unfold on_breach. intros Ha Hc. pose proof (classify_tracked _ _ _ Hc) as Ht.
  unfold blocks_ok in Hblocks. destruct (us_last_severity st) as [t|] eqn:Hl;
    [|unfold abs in Ha; cbn in Ha; by rewrite Hl in Ha].
  destruct (state_ok_active _ _ _ Hok Hl) as (a' & Ha' & -> & Hta).
  assert (a' = a) as -> by (unfold abs in Ha; cbn in Ha; congruence).
  destruct (_ <? _) eqn:Hr; bools; intros [= <- <-].
  - apply (step_intro _ _ (Some s) 0 (paused (abs st))); side.
    by eapply l_escalate.
  - apply (step_intro _ _ (Some a) 0 (paused (abs st))); side.
    by eapply l_hold.
Qed.
Lemma recovery_ok a st' ev :
  active (abs st) = Some a -> classify_severity pct r = None ->
  on_recovery r st a pct now = (st', ev) -> step_ok r st reading st' ev.
Proof.
  unfold on_recovery. intros Ha Hc. destruct Hok as ([Hlo Hhi] & _ & _).
  unfold blocks_ok in Hblocks. destruct (us_last_severity st) as [t|] eqn:Hl;
    [|unfold abs in Ha; cbn in Ha; by rewrite Hl in Ha].
  destruct (state_ok_active _ _ _ Hok Hl) as (a' & Ha' & -> & Hta).
  assert (a' = a) as -> by (unfold abs in Ha; cbn in Ha; congruence).
  cbn [default from_option id]. fold (threshold r a).
  rewrite (wrap_u32_small (us_resolution_block_counter st + 1)) by lia.
  assert (Hrec : f64_lt pct (threshold r a) = true -> recovered r a pct = true).
  { intros Hlt. unfold recovered. by rewrite bool_decide_eq_true_2. }
  destruct (f64_lt pct (threshold r a)) eqn:Hlt; [destruct (us_paused_status st) eqn:Hp|]; simpl.
  - destruct (f64_le (threshold r a) pct) eqn:Hle; intros [= <- <-].
    + apply (step_intro _ _ (Some a) 0 true); side.
      rewrite <- Hp. by eapply l_reset.
    + apply (step_intro _ _ (Some a) (streak (abs st)) true); side.
      assert (abs st = {| active := Some a; streak := streak (abs st); paused := true |}) as Habs
        by (by apply abs_intro; try done; intros ? [= <-]).
      rewrite <- Habs. eapply l_frozen; try done. by left.
  - destruct (_ <=? _) eqn:Hn; bools; intros [= <- <-].
    + apply (step_intro _ _ None 0 false); side; [by eapply l_resolve; eauto|].
      unfold result_ok. cbn [ev_transition resolved resolved_from_severity]. by rewrite Ha.
    + apply (step_intro _ _ (Some a) (streak (abs st) + 1) false); side; [cbn; lia|]. eapply l_count; eauto.
  - destruct (f64_le (threshold r a) pct) eqn:Hle; intros [= <- <-].
    + apply (step_intro _ _ (Some a) 0 (paused (abs st))); side.
      by eapply l_reset.
    + apply (step_intro _ _ (Some a) (streak (abs st)) (paused (abs st))); side.
      assert (abs st = {| active := Some a; streak := streak (abs st); paused := paused (abs st) |})
        as Habs by (by apply abs_intro; try done; intros ? [= <-]).
      rewrite <- Habs. eapply l_frozen; try done. by right.
Qed.
End evaluation_steps.

Lemma utilization_step r st pct tvl now st' ev :
  blocks_ok r -> state_ok r st ->
  evaluate_utilization_state r st pct tvl now = Ret (st', ev) ->
  step_ok r st (Reading pct tvl now) st' ev.
Proof.
  intros Hblocks Hok. unfold evaluate_utilization_state. fold (suppressed r tvl).
  destruct (suppressed r tvl) eqn:Hfloor.
  { intros [= <- <-]. split; [by apply l_suppressed|done]. }
  intros He. inv_ret He. set (st1 := set_samples st _) in He.
  assert (Hok1 : state_ok r st1) by done.
  change (step_ok r st1 (Reading pct tvl now) st' ev).
  destruct (severity_from_str (us_last_severity st1)) as [prev|] eqn:Ha;
    destruct (classify_severity pct r) as [new|] eqn:Hc.
  - destruct (on_breach st1 prev new now) as [st2 ev2] eqn:Hs. injection He as <- <-.
    by eapply complete_step_ok, breach_ok.
  - destruct (on_recovery r st1 prev pct now) as [st2 ev2] eqn:Hs. injection He as <- <-.
    by eapply complete_step_ok, recovery_ok.
  - destruct (on_trigger st1 new now) as [st2 ev2] eqn:Hs. injection He as <- <-.
    by eapply complete_step_ok, trigger_ok.
  - injection He as <- <-. apply complete_step_ok. split; [by apply l_idle|done].
Qed.
Lemma utilization_returns r st pct tvl now cutoff :
  sub_minutes now 61 = Ret cutoff ->
  exists st' ev, evaluate_utilization_state r st pct tvl now = Ret (st', ev).
Proof.
  unfold evaluate_utilization_state. intros Hc. destruct (_ && _); [by eexists _, _|].
  rewrite Hc. cbn [mbind outcome_bind].
  match goal with |- context [let '(_, _) := ?x in _] => destruct x as [s e] end.
  by eexists _, _.
Qed.

(** [pause_rule] on the state of a rule *)
Definition pause_state (st : UtilizationRuleState) (on : bool) (now : DateTime)
  : UtilizationRuleState :=
  match us_last_severity st with Some _ => set_paused st on now | None => st end.
Lemma pause_step r st on now :
  state_ok r st ->
  lstep r (abs st) (Pause on now)
    (if bool_decide (us_last_severity st = None) then None else Some Update)
    (abs (pause_state st on now)) /\ state_ok r (pause_state st on now).
Proof.
  intros Hok. unfold pause_state. destruct (us_last_severity st) as [t|] eqn:Hl.
  - rewrite bool_decide_eq_false_2 by done. split; [|done].
    destruct (state_ok_active _ _ _ Hok Hl) as (s & Hs & -> & Htr).
    rewrite (abs_intro (set_paused st on now) (Some s) (streak (abs st)) on); try done;
      [by apply l_pause|by intros ? [= <-]].
  - rewrite bool_decide_eq_true_2 by done. split; [|done].
    apply l_pause_ignored. unfold abs. cbn. by rewrite Hl.
Qed.

(** ** Runs *)

Definition step_input (r : UtilizationHighRule) (st : UtilizationRuleState) (i : input)
  : outcome (UtilizationRuleState * option IncidentTransition) :=
  match i with
  | Reading pct tvl now =>
      res ← evaluate_utilization_state r st pct tvl now; Ret (res.1, ev_transition res.2)
  | Pause on now =>
      Ret (pause_state st on now,
           if bool_decide (us_last_severity st = None) then None else Some Update)
  end.
(** the last input of a run is the head of the list; a trace entry is the state
    before the input, the input, and the transition reported *)
Notation trace := (list (UtilizationRuleState * input * option IncidentTransition)).
Inductive run (r : UtilizationHighRule) (st0 : UtilizationRuleState)
  : trace -> UtilizationRuleState -> Prop :=
  | run_nil : run r st0 [] st0
  | run_step t st i tr st' :
      run r st0 t st -> step_input r st i = Ret (st', tr) -> run r st0 ((st, i, tr) :: t) st'.

Lemma step_input_ok r st i st' tr :
  blocks_ok r -> state_ok r st -> step_input r st i = Ret (st', tr) ->
  lstep r (abs st) i tr (abs st') /\ state_ok r st'.
Proof.
  intros Hb Hok. destruct i as [pct tvl now|on now]; simpl; intros Hs.
  - inv_ret Hs. destruct a as [st1 ev]. injection Hs as <- <-.
    destruct (utilization_step _ _ _ _ _ _ _ Hb Hok Hm) as (? & ? & _). done.
  - injection Hs as <- <-. by apply pause_step.
Qed.
Lemma run_ok r st0 t st : blocks_ok r -> state_ok r st0 -> run r st0 t st -> state_ok r st.
Proof.
  intros Hb H0. induction 1 as [|t st i tr st' _ IH Hs]; [done|].
  by eapply step_input_ok in Hs as [_ ?].
Qed.

(** *** Alerts of an incident *)
Definition alerting (tr : option IncidentTransition) : bool :=
  match tr with Some Trigger | Some Escalate => true | _ => false end.
Definition alerts (t : trace) : Z :=
  Z.of_nat (length (filter (fun e => alerting e.2 = true) t)).
Definition resolves (t : trace) : Prop := exists e, e ∈ t /\ e.2 = Some Resolve.
Definition incident_rank (l : lifecycle) : Z := Z.max 1 (severity_rank (active l)).

Lemma lstep_rank r l i tr l' :
  lstep r l i tr l' -> tr <> Some Resolve ->
  incident_rank l + (if alerting tr then 1 else 0) <= incident_rank l'.
Proof.
  unfold incident_rank. destruct 1; intros Hne; simpl;
    repeat match goal with Ha : active l = _ |- _ => rewrite Ha end; simpl; try lia; try done.
  - match goal with Hc : classify_severity _ _ = Some _ |- _ => apply classify_tracked, tracked_rank in Hc end.
    simpl in *. lia.
  - match goal with Hc : classify_severity _ _ = Some _ |- _ => apply classify_tracked, tracked_rank in Hc end.
    simpl in *. lia.
Qed.
Lemma run_rank r st0 t st :
  blocks_ok r -> state_ok r st0 -> run r st0 t st -> ~ resolves t ->
  incident_rank (abs st0) + alerts t <= incident_rank (abs st).
Proof.
  intros Hb H0. induction 1 as [|t st i tr st' Hr IH Hs]; intros Hn;
    [change (alerts []) with 0; lia|].
  assert (Hn' : ~ resolves t).
  { intros (e & He & ?). apply Hn. exists e. split; [apply elem_of_cons; by right|done]. }
  specialize (IH Hn'). eapply step_input_ok in Hs as [Hs _]; [|done|by eapply run_ok].
  apply lstep_rank in Hs.
  - unfold alerts in *. rewrite filter_cons. cbn [snd]. destruct (alerting tr) eqn:Ha.
    + rewrite decide_True by done. cbn [length]. lia.
    + rewrite decide_False by done. lia.
  - intros ->. apply Hn. eexists. split; [apply elem_of_cons; by left|done].
Qed.

(** *** Earning a resolution *)

(** a reading that advances the recovery count, and an input that leaves it *)
Definition counts (r : UtilizationHighRule) (l : lifecycle) (i : input) : bool :=
  match i, active l with
  | Reading pct tvl _, Some a => negb (suppressed r tvl) && recovered r a pct && negb (paused l)
  | _, _ => false
  end.
Definition neutral (r : UtilizationHighRule) (l : lifecycle) (i : input) : bool :=
  match i with
  | Pause _ _ => true
  | Reading pct tvl _ =>
      suppressed r tvl ||
      match active l with
      | Some a =>
          bool_decide (classify_severity pct r = None) && negb (f64_le (threshold r a) pct)
          && (paused l || negb (f64_lt pct (threshold r a)))
      | None => false
      end
  end.
Definition entry := (UtilizationRuleState * input * option IncidentTransition)%type.
Definition counting (r : UtilizationHighRule) (e : entry) : bool := counts r (abs e.1.1) e.1.2.
Definition recovery (r : UtilizationHighRule) (a : option Severity) (e : entry) : Prop :=
  active (abs e.1.1) = a /\ (counting r e = true \/ neutral r (abs e.1.1) e.1.2 = true).
Definition count_of (r : UtilizationHighRule) (t : list entry) : Z :=
  Z.of_nat (length (filter (fun e => counting r e = true) t)).

Lemma count_cons r e t :
  count_of r (e :: t) = count_of r t + (if counting r e then 1 else 0).
Proof.
  unfold count_of. rewrite filter_cons. destruct (counting r e).
  - rewrite decide_True by done. cbn [length]. lia.
  - rewrite decide_False by done. lia.
Qed.
(** what a step does to the count: it starts over, or the input is a recovery *)
Lemma lstep_streak r l i tr l' :
  lstep r l i tr l' ->
  streak l' = 0 \/ l' = l /\ active l = None \/
  active l' = active l /\ (counts r l i = true /\ streak l' = streak l + 1 \/
                          counts r l i = false /\ neutral r l i = true /\ streak l' = streak l).
Proof.
  destruct 1; unfold counts, neutral; simpl;
    repeat match goal with Ha : active l = _ |- _ => rewrite Ha end; auto 7.
  - right; right. split; [done|]. right. match goal with Hs : suppressed _ _ = _ |- _ => rewrite Hs end.
    simpl. split_and!; [by destruct (active l)|done..].
  - right; right. split; [done|]. left.
    repeat match goal with Hs : _ = true |- _ => rewrite Hs | Hs : _ = false |- _ => rewrite Hs end. done.
  - right; right. split; [done|]. right. unfold recovered.
    match goal with Hs : suppressed _ _ = _ |- _ => rewrite Hs end.
    rewrite bool_decide_eq_true_2 by done.
    match goal with Hs : f64_le _ _ = _ |- _ => rewrite Hs end.
    match goal with Hs : _ \/ _ |- _ => destruct Hs as [Hs|Hs]; rewrite Hs end; simpl;
      rewrite ?andb_false_r, ?orb_true_r; done.
Qed.
Lemma lstep_resolve r l i l' :
  lstep r l i (Some Resolve) l' ->
  counts r l i = true /\ resolution_confirmation_blocks r <= streak l + 1 /\
  active l <> None /\ l' = {| active := None; streak := 0; paused := false |}.
Proof.
  inversion 1; subst. unfold counts.
  repeat match goal with Hs : _ = true |- _ => rewrite Hs | Hs : _ = false |- _ => rewrite Hs
    | Hs : active _ = Some _ |- _ => rewrite Hs end. done.
Qed.

Lemma run_streak r st0 t st :
  blocks_ok r -> state_ok r st0 -> streak (abs st0) = 0 -> run r st0 t st ->
  exists recent before, t = recent ++ before /\ count_of r recent = streak (abs st) /\
    Forall (recovery r (active (abs st))) recent.
Proof.
  intros Hb H0 Hs0. induction 1 as [|t st i tr st' Hr IH Hs]; [by exists [], []|].
  destruct IH as (recent & before & -> & Hcount & Hrec).
  pose proof (run_ok _ _ _ _ Hb H0 Hr) as Hok.
  eapply step_input_ok in Hs as [Hs Hok']; [|done..].
  destruct (lstep_streak _ _ _ _ _ Hs) as [Hz|[[Heq Ha]|(Ha & Hc)]].
  - exists [], ((st, i, tr) :: recent ++ before). rewrite Hz. done.
  - exists [], ((st, i, tr) :: recent ++ before). split_and!; [done| |done]. rewrite Heq.
    symmetry. apply (state_ok_inactive _ _ Hok) in Ha. by destruct Hok as (_ & Hok & _); apply Hok.
  - exists ((st, i, tr) :: recent), before. split_and!; [done| |].
    + rewrite count_cons. unfold counting. cbn [fst snd]. destruct Hc as [[-> ?]|(-> & _ & ?)]; lia.
    + rewrite Ha. constructor; [|done]. split; [done|]. unfold counting. cbn [fst snd].
      destruct Hc as [[? _]|(_ & ? & _)]; auto.
Qed.

(** *** Reaching a resolution *)
Definition inputs_of (t : list entry) : list input := (fun e => e.1.2) <$> t.
(** readings of a recovered market, none of them suppressed *)
Definition recovery_reading (r : UtilizationHighRule) (a : Severity) (i : input) : Prop :=
  exists pct tvl now cutoff, i = Reading pct tvl now /\ suppressed r tvl = false /\
    recovered r a pct = true /\ sub_minutes now 61 = Ret cutoff.

Lemma recovery_step r st a i :
  blocks_ok r -> state_ok r st -> active (abs st) = Some a -> paused (abs st) = false ->
  recovery_reading r a i ->
  exists st', if bool_decide (resolution_confirmation_blocks r = streak (abs st) + 1)
    then step_input r st i = Ret (st', Some Resolve) /\ active (abs st') = None
    else step_input r st i = Ret (st', None) /\ state_ok r st' /\
         abs st' = {| active := Some a; streak := streak (abs st) + 1; paused := false |}.
Proof.
  intros Hb Hok Ha Hp (pct & tvl & now & cutoff & -> & Hs & Hrec & Hcut).
  destruct (utilization_returns r st pct tvl now cutoff Hcut) as (st' & ev & He). exists st'.
  assert (Hin : step_input r st (Reading pct tvl now) = Ret (st', ev_transition ev))
    by (simpl; by rewrite He).
  destruct (utilization_step _ _ _ _ _ _ _ Hb Hok He) as (Hstep & Hok' & _).
  pose proof Hok as ([_ Hlt] & _). change (us_resolution_block_counter st) with (streak (abs st)) in Hlt.
  unfold recovered in Hrec. bools. rename H0 into Hc, H1 into Hl.
  assert (Hle : f64_le (threshold r a) pct = false).
  { destruct (f64_le _ _) eqn:Hle; [|done]. pose proof (f64_le_lt_trans _ _ _ Hle Hl) as Hbad.
    pose proof (f64_lt_nan _ _ Hbad) as [Hn _]. rewrite f64_lt_key in Hbad by done. lia. }
  rewrite Hin. clear Hin He. remember (abs st') as l' eqn:Hl'. remember (ev_transition ev) as tr.
  clear Heqtr Hl'. remember (Reading pct tvl now) as i eqn:Hi.
  destruct Hstep; simplify_eq; try congruence; case_bool_decide; try lia; try done.
  all: match goal with Ho : _ \/ _ |- _ => destruct Ho; congruence end.
Qed.
Lemma recovery_run r st0 a readings t st :
  blocks_ok r -> run r st0 t st -> state_ok r st -> active (abs st) = Some a ->
  paused (abs st) = false -> Forall (recovery_reading r a) readings ->
  Z.of_nat (length readings) = resolution_confirmation_blocks r - streak (abs st) ->
  exists t' st1 st', run r st0 (t' ++ t) st' /\ inputs_of t' = rev readings /\
    head t' = Some (st1, List.last readings (Pause false MIN_UTC), Some Resolve) /\ active (abs st') = None.
Proof.
  intros Hb. revert t st. induction readings as [|i readings IH]; intros t st Hr Hok Ha Hp Hall Hlen.
  - exfalso. destruct Hok as ([_ Hlt] & _). simpl in *. lia.
  - apply Forall_cons in Hall as [Hi Hall].
    destruct (recovery_step _ _ _ _ Hb Hok Ha Hp Hi) as (st1 & Hs). case_bool_decide as Hn.
    + destruct Hs as [Hs Ha1]. assert (readings = []) as ->
        by (destruct readings; [done|]; simpl in *; lia).
      exists [(st, i, Some Resolve)], st, st1. split_and!; [by eapply run_step|done..].
    + destruct Hs as (Hs & Hok1 & Habs). cbn [length] in Hlen.
      destruct (IH ((st, i, None) :: t) st1) as (t' & st2 & st' & Hr' & Hin & Hh & Hend);
        try done; try (by rewrite Habs); [by eapply run_step|rewrite Habs; cbn [streak]; lia|].
      assert (Hne : t' <> []) by (intros ->; done).
      exists (t' ++ [(st, i, None)]), st2, st'. split_and!; [by rewrite <- app_assoc| | |done].
      * unfold inputs_of in *. rewrite fmap_app, Hin. done.
      * destruct t' as [|e t']; [done|]. simpl in Hh |- *. injection Hh as ->.
        destruct readings; [|done]. exfalso. simpl in Hin.
        unfold inputs_of in Hin. done.
Qed.

(** ** The properties *)

(** C27: every evaluation of a reading is a step of the lifecycle machine: the
    transition reported is the machine's, the severity attached to a trigger or
    an escalation is the new active one, a resolution carries the severity it
    resolves, a suppressed reading changes nothing, and the state stays well
    formed. *)
Theorem evaluate_refines_lifecycle r st pct tvl now st' ev :
  blocks_ok r -> state_ok r st ->
  evaluate_utilization_state r st pct tvl now = Ret (st', ev) ->
  lstep r (abs st) (Reading pct tvl now) (ev_transition ev) (abs st') /\
  state_ok r st' /\ result_ok (abs st) ev (abs st').
Proof. apply utilization_step. Qed.

(** C6: an incident is resolved only when it is earned: before any resolution,
    over readings and pauses in any order, the inputs end with a stretch in which
    the same incident stays active, nothing breaches a detection or the
    resolution threshold, and exactly [resolution_confirmation_blocks] readings
    were below the resolution threshold while the protocol was not paused. *)
Theorem resolution_is_earned r st0 t st i st' :
  blocks_ok r -> state_ok r st0 -> streak (abs st0) = 0 ->
  run r st0 ((st, i, Some Resolve) :: t) st' ->
  counts r (abs st) i = true /\ active (abs st) <> None /\ active (abs st') = None /\
  exists recent before, t = recent ++ before /\
    count_of r ((st, i, Some Resolve) :: recent) = resolution_confirmation_blocks r /\
    Forall (recovery r (active (abs st))) recent.
Proof.
  intros Hb H0 Hs0 Hr. inversion Hr as [|? ? ? ? ? Hr' Hs]; subst.
  destruct (run_streak _ _ _ _ Hb H0 Hs0 Hr') as (recent & before & -> & Hcount & Hrec).
  pose proof (run_ok _ _ _ _ Hb H0 Hr') as Hok.
  eapply step_input_ok in Hs as [Hs _]; [|done..].
  apply lstep_resolve in Hs as (Hc & Hn & Ha & ->). split_and!; [done..|].
  exists recent, before. split_and!; [done| |done]. rewrite count_cons. unfold counting.
  cbn [fst snd]. rewrite Hc, Hcount. destruct Hok as ([_ Hlt] & _).
  change (us_resolution_block_counter st) with (streak (abs st)) in Hlt. lia.
Qed.

(** An incident is announced at most once per severity: over any run of
    readings and pauses without a resolution at most three alerts (triggers and
    escalations) are reported, each of a higher severity than the last. *)
Theorem alerts_bounded r st0 t st :
  blocks_ok r -> state_ok r st0 -> run r st0 t st -> ~ resolves t ->
  alerts t <= 3 /\ incident_rank (abs st0) + alerts t <= incident_rank (abs st).
Proof.
  intros Hb H0 Hr Hn. pose proof (run_rank _ _ _ _ Hb H0 Hr Hn) as Hrank. split; [|done].
  destruct (run_ok _ _ _ _ Hb H0 Hr) as (_ & _ & Hs).
  assert (incident_rank (abs st) <= 4).
  { unfold incident_rank, abs. cbn [active]. destruct (us_last_severity st) as [u|] eqn:Hu; [|simpl; lia].
    destruct (Hs _ eq_refl) as (s & -> & Ht). rewrite severity_str_roundtrip by done.
    apply tracked_rank in Ht. lia. }
  unfold incident_rank in *. lia.
Qed.

(** A market that recovers is resolved: from an active incident, while the
    protocol is not paused, the readings that are still missing to
    [resolution_confirmation_blocks], all below the resolution threshold and
    none suppressed, lead to the resolution, at the last of them. *)
Theorem recovered_market_resolves r st a readings :
  blocks_ok r -> state_ok r st -> active (abs st) = Some a -> paused (abs st) = false ->
  Forall (recovery_reading r a) readings ->
  Z.of_nat (length readings) = resolution_confirmation_blocks r - streak (abs st) ->
  exists t st1 st', run r st t st' /\ inputs_of t = rev readings /\
    head t = Some (st1, List.last readings (Pause false MIN_UTC), Some Resolve) /\
    active (abs st') = None.
Proof.
  intros Hb Hok Ha Hp Hall Hlen.
  destruct (recovery_run r st a readings [] st) as (t & st1 & st' & Hr & Hrest); try done;
    [apply run_nil|]. rewrite app_nil_r in Hr. by exists t, st1, st'.
Qed.

(** The rolling window: after a reading that is not suppressed the samples
    are the earlier ones and the reading, less those older than 61 minutes,
    sorted by time. *)
Theorem samples_window r st pct tvl now st' ev :
  suppressed r tvl = false ->
  evaluate_utilization_state r st pct tvl now = Ret (st', ev) ->
  sorted_by sample_le (us_samples st') /\
  forall s, s ∈ us_samples st' <->
    (s ∈ us_samples st \/ s = {| sample_at := now; sample_pct := pct |}) /\
    ns now - 61 * 60000000000 <= ns (sample_at s).
Proof.
  intros Hf. unfold evaluate_utilization_state. fold (suppressed r tvl). rewrite Hf. intros He.
  inv_ret He. rename a into cutoff. set (st1 := set_samples st _) in He.
  assert (us_samples st' = us_samples st1) as ->.
  { clearbody st1. revert He. unfold on_breach, on_recovery, on_trigger.
    repeat case_match; intros Heq; simplify_eq; done. }
  cbn [us_samples st1 set_samples]. unfold push_sample. split.
  - eapply sublist_sorted_by; [apply sublist_filter|]. apply sort_by_sorted; unfold sample_le, dt_le; lia.
  - intros s. rewrite list_elem_of_filter, elem_of_sort_by, elem_of_app, list_elem_of_singleton.
    apply sub_minutes_spec in Hm. unfold dt_le. rewrite Z.leb_le, Hm. split; intros [? ?]; split; auto; lia.
Qed.
End lifecycle.
