(* ===== verification/UtilizationPatternProofs.v ===== *)
(** * Correctness of the high-utilization pattern

    What [process_event] guarantees around the evaluation: which rows of the
    database an event may write, that every matching rule advances its own
    stored state by exactly one evaluation, which detection is returned when
    several rules fire, what a pause signal reaches, and the bounds of the
    in-memory cache.

    A rule that alerts at 90, 95 and 99 percent and resolves after two readings;
    a market that breaches and recovers; the interfaces instantiated by the JSON
    tree and the tables of [Persistence]. *)
From stdpp Require Import strings.
From S2P Require Import Prelude F64 Text Ports EventSchema PatternCommon Persistence CachePrune Utilization UtilizationPattern UtilizationProofs.

Section proofs.
Context `{Chrono} `{SerdeJson} `{HashOrder} `{!UtilizationCodec} `{!PatternStore}.

(** ** What one rule touches *)

Definition key_of (r : UtilizationHighRule) (market : option string) : option string :=
  (fun s => state_key (rule_id r) s.1.2) <$> subject_for_event r market.
Definition fixed (p : UtilizationHighPattern) : gmap string (list UtilizationHighRule) * gmap string (gset string) :=
  (configs p, source_bindings p).
Notation frame := (frame fixed PATTERN_ID).
Notation refused := (refused PATTERN_ID).

Lemma persist_frame event key data score sev st s :
  frame (eq key) (tenant_id event) s (persist event key data score sev st s).1.
Proof.
  destruct s as [p db]. unfold persist. simpl.
  set (snap := Build_PatternSnapshotInsert _ _ _ _ _ _ _ _ _).
  pose proof (write_frame fixed PATTERN_ID (tenant_id event) key snap p db (ustate_to_value st)) as Hw.
  by destruct (ustate_to_value st).
Qed.
Lemma remember_frame event key st now s :
  frame (fun _ => False) (tenant_id event) s (remember event key st now s).1.
Proof. unfold remember. by destruct (prune_state_cache _ _ _). Qed.
Lemma save_frame {A} event key data score sev st now (a : A) s :
  frame (eq key) (tenant_id event) s
    ((persist event key data score sev st;; remember event key st now;; mret a) s).1.
Proof.
  apply bind_frame; [apply persist_frame|]. intros _ s1 _.
  apply bind_frame; [|done]. eapply frame_weaken; [|apply remember_frame]. done.
Qed.
Lemma process_rule_frame event sample now uuids emitted ir s :
  frame (fun k => key_of ir.2 (se_market_id sample) = Some k) (tenant_id event) s
    (process_rule event sample now uuids emitted ir s).1.
Proof.
  destruct ir as [i r]. unfold process_rule, key_of. simpl snd.
  destruct (subject_for_event r _) as [[[ty sk] pk]|]; [|done]. simpl.
  apply bind_frame; [done|]. intros st s1 _. apply bind_frame; [done|]. intros [st' ev] s2 _.
  destruct (tvl_floor_suppressed ev); [done|]. apply bind_frame; [done|]. intros d s3 _.
  eapply frame_weaken; [|apply save_frame]. by intros k <-.
Qed.
Lemma pause_rule_frame event pause now uuids r s :
  frame (fun k => key_of r (pe_market_id pause) = Some k) (tenant_id event) s
    (pause_rule event pause now uuids r s).1.
Proof.
  unfold pause_rule, key_of. destruct (subject_for_event r _) as [[[ty sk] pk]|]; [|done]. simpl.
  apply bind_frame; [done|]. intros st s1 _. destruct (us_last_severity st) as [t|]; [|done].
  eapply frame_weaken; [|apply save_frame]. by intros k <-.
Qed.

(** a rule that has nothing to announce leaves everything as it was *)
Lemma pause_rule_none event pause now uuids r s s' :
  pause_rule event pause now uuids r s = (s', Ret None) -> s' = s.
Proof.
  unfold pause_rule. destruct (subject_for_event r _) as [[[ty sk] pk]|]; [|by intros [= <-]].
  intros Hp. apply st_bind_ret_inv in Hp as (s1 & st & Hl & Hp). injection Hl as <- _.
  destruct (us_last_severity st) as [t|]; [|by injection Hp as <-].
  apply st_bind_ret_inv in Hp as (s2 & [] & _ & Hp).
  apply st_bind_ret_inv in Hp as (s3 & [] & _ & Hp). done.
Qed.
Lemma first_some_frame event pause now uuids l s :
  exists ko, (forall k, ko = Some k -> exists r, r ∈ l /\ key_of r (pe_market_id pause) = Some k) /\
    frame (fun k => ko = Some k) (tenant_id event) s
      (first_some (pause_rule event pause now uuids) l s).1.
Proof.
  revert s. induction l as [|r l IH]; intros s; simpl; [by exists None|].
  pose proof (pause_rule_frame event pause now uuids r s) as Hf.
  unfold mbind, st_bind.
  destruct (pause_rule event pause now uuids r s) as [s1 [[d|]|e|]] eqn:Hr; simpl in Hf |- *.
  2:{ apply pause_rule_none in Hr as ->. destruct (IH s) as (ko & Hk & Hfr). exists ko.
      split; [|done]. intros k Hk'. destruct (Hk k Hk') as (r' & ? & ?). exists r'.
      split; [apply elem_of_cons; by right|done]. }
  all: exists (key_of r (pe_market_id pause)); split; [|done]; intros k Hk; exists r;
    split; [apply elem_of_cons; by left|done].
Qed.

(** ** One reading over all rules *)

Section reading.
Variables (event : UnifiedEvent) (sample : UtilizationStateEvent) (now : DateTime).
Variable uuids : nat -> string * string.
Notation market := (se_market_id sample).
Notation tenant := (tenant_id event).

(** the severity an evaluation announces *)
Definition announced (ev : UtilizationEvalResult) : option Severity :=
  if resolved ev then resolved_from_severity ev
  else match ev_transition ev with Some _ => emit_severity ev | None => None end.
Definition evaluates (r : UtilizationHighRule) (db : Db) (k : string)
    (st st' : UtilizationRuleState) (ev : UtilizationEvalResult) : Prop :=
  key_of r market = Some k /\ load_rule_state db tenant k = Ret st /\
  evaluate_utilization_state r st (se_utilization_pct sample) (se_tvl_usd sample) now = Ret (st', ev).
(** the stored state of a rule advanced by one evaluation *)
Definition advanced (r : UtilizationHighRule) (db db' : Db) (result : option DetectionResult) : Prop :=
  forall k, key_of r market = Some k -> exists st st' ev, evaluates r db k st st' ev /\
    (finite_samples st' -> load_rule_state db' tenant k = Ret st' \/
                           refused tenant k /\ load_rule_state db' tenant k = Ret st) /\
    (forall s, announced ev = Some s ->
       exists d, result = Some d /\ severity_rank (Some s) <= severity_rank_detection d).
(** where a detection comes from *)
Definition stems_from (rules : list UtilizationHighRule) (db : Db) (d : DetectionResult) : Prop :=
  exists r k st st' ev, r ∈ rules /\ evaluates r db k st st' ev /\ announced ev = Some (severity d).

Lemma detection_of_inv r subject st ev u o :
  detection_of event r subject sample st ev now u = Ret o ->
  match o with
  | Some d => announced ev = Some (severity d)
  | None => announced ev = None
  end.
Proof.
  unfold detection_of, announced. destruct (resolved ev).
  - intros Hd. inv_ret Hd. injection Hd as <-. apply or_panic_ret_inv in Hm.
    unfold build_resolve_detection. by destruct (simulation_metadata_from_event event).
  - destruct (ev_transition ev) as [tr|], (emit_severity ev) as [sev|]; intros Hd;
      try (by injection Hd as <-).
    inv_ret Hd. injection Hd as <-. unfold build_utilization_detection in Hm.
    destruct (simulation_metadata_from_event event). inv_ret Hm. inv_ret Hm. by injection Hm as <-.
Qed.
Lemma suppressed_result r st pct tvl st' ev :
  evaluate_utilization_state r st pct tvl now = Ret (st', ev) -> tvl_floor_suppressed ev = true ->
  st' = st /\ announced ev = None.
Proof.
  unfold evaluate_utilization_state. destruct (_ && _); [by intros [= <- <-]|].
  intros He. inv_ret He. unfold on_breach, on_recovery, on_trigger in He.
  repeat case_match; simplify_eq; done.
Qed.
Lemma pick_higher_rank o d :
  exists d', pick_higher o d = Some d' /\ severity_rank_detection d <= severity_rank_detection d' /\
    (d' = d \/ o = Some d') /\
    forall d0, o = Some d0 -> severity_rank_detection d0 <= severity_rank_detection d'.
Proof.
  destruct o as [p|]; simpl.
  - destruct (_ <=? _) eqn:Hr; bools; eexists; (split; [done|]); split_and!; auto; try lia;
      intros ? [= <-]; lia.
  - exists d. split_and!; auto; [lia|done].
Qed.

Lemma persist_row key data score sev st v s s' :
  persist event key data score sev st s = (s', Ret v) -> finite_samples st ->
  load_rule_state s'.2 tenant key = Ret st \/
  refused tenant key /\ load_rule_state s'.2 tenant key = load_rule_state s.2 tenant key.
Proof.
  unfold persist. destruct (ustate_to_value st) as [w|?|] eqn:Hw; [|done..].
  intros [= <- _] Hfin. unfold load_rule_state. simpl.
  destruct (write_row PATTERN_ID tenant key (Build_PatternSnapshotInsert _ _ tenant PATTERN_ID key
    (append_snapshot_meta event data) score sev (timestamp event)) s.2 w) as [->|[Hr ->]]; [left|by right].
  simpl. by rewrite (ustate_roundtrip _ _ Hfin Hw).
Qed.
(** one rule, when it returns *)
Lemma process_rule_inv emitted i r s s' result :
  process_rule event sample now uuids emitted (i, r) s = (s', Ret result) ->
  (key_of r market = None /\ result = emitted) \/
  exists k st st' ev o, evaluates r s.2 k st st' ev /\
    (finite_samples st' -> load_rule_state s'.2 tenant k = Ret st' \/
                           refused tenant k /\ load_rule_state s'.2 tenant k = Ret st) /\
    announced ev = severity <$> o /\
    result = match o with Some d => pick_higher emitted d | None => emitted end.
Proof.
  unfold process_rule, evaluates, key_of.
  destruct (subject_for_event r _) as [[[ty sk] pk]|]; [|intros [= <- <-]; by left].
  simpl. intros Hp. right. apply st_bind_ret_inv in Hp as (s1 & st & Hl & Hp).
  unfold load_state in Hl. injection Hl as <- Hst.
  apply st_bind_ret_inv in Hp as (s2 & [st' ev] & Hev & Hp). injection Hev as <- Hev.
  exists (state_key (rule_id r) sk), st, st', ev.
  destruct (tvl_floor_suppressed ev) eqn:Hf.
  - injection Hp as <- <-. destruct (suppressed_result _ _ _ _ _ _ Hev Hf) as [-> Ha].
    exists None. rewrite Ha. split_and!; auto.
  - apply st_bind_ret_inv in Hp as (s3 & o & Ho & Hp). injection Ho as <- Ho.
    apply st_bind_ret_inv in Hp as (s4 & [] & Hpers & Hp).
    apply st_bind_ret_inv in Hp as (s5 & [] & Hrem & Hp). injection Hp as <- <-.
    exists o. split_and!; try done.
    + intros Hfin. apply (persist_row _ _ _ _ _ _ _ _ Hpers) in Hfin.
      pose proof (remember_frame event (state_key (rule_id r) sk) st' now s4) as (_ & Hload).
      rewrite Hrem in Hload. unfold load_rule_state in *. rewrite Hload by naive_solver.
      rewrite <- Hst. done.
    + apply detection_of_inv in Ho. by destruct o.
Qed.

(** the loop *)
Definition distinct_keys (l : list (nat * UtilizationHighRule)) : Prop :=
  NoDup (omap (fun ir => key_of ir.2 market) l).
Lemma loop_result l emitted s s' result d0 :
  for_each (process_rule event sample now uuids) l emitted s = (s', Ret result) ->
  emitted = Some d0 ->
  exists d, result = Some d /\ severity_rank_detection d0 <= severity_rank_detection d.
Proof.
  revert emitted s d0. induction l as [|[i r] l IH]; intros emitted s d0; simpl.
  - intros [= <- <-] ->. exists d0. split; [done|lia].
  - intros Hp Hd. apply st_bind_ret_inv in Hp as (s1 & mid & Hr & Hp).
    apply process_rule_inv in Hr as [[_ ->]|(k & st & st' & ev & o & _ & _ & _ & ->)]; [by eapply IH|].
    destruct o as [d|]; [|by eapply IH].
    destruct (pick_higher_rank emitted d) as (d' & Hd' & Hle & _ & Hold).
    destruct (IH _ _ _ Hp Hd') as (d2 & -> & Hle2). exists d2. split; [done|].
    specialize (Hold _ Hd). lia.
Qed.
Lemma loop_frame l emitted s :
  frame (fun k => exists ir, ir ∈ l /\ key_of ir.2 market = Some k) tenant s
    (for_each (process_rule event sample now uuids) l emitted s).1.
Proof.
  apply for_each_frame. intros a ir s1 Hin. eapply frame_weaken; [|apply process_rule_frame].
  intros k Hk. by exists ir.
Qed.
Lemma load_other db db' k :
  (forall t pid k', ~ (t = tenant /\ pid = PATTERN_ID /\ k' <> k) ->
     load_pattern_state db' t pid k' = load_pattern_state db t pid k') ->
  load_rule_state db' tenant k = load_rule_state db tenant k.
Proof. intros Hl. unfold load_rule_state. rewrite Hl; [done|]. naive_solver. Qed.
Lemma distinct_cons i r l :
  distinct_keys ((i, r) :: l) -> distinct_keys l /\
  forall k ir, key_of r market = Some k -> ir ∈ l -> key_of ir.2 market <> Some k.
Proof.
  unfold distinct_keys. simpl. destruct (key_of r market) as [k|] eqn:Hk; [|by split].
  intros Hnd. apply NoDup_cons in Hnd as [Hni Hnd]. split; [done|]. intros k' ir [= <-] Hin Hir.
  apply Hni. apply list_elem_of_omap. by exists ir.
Qed.
(** the rows of the rules in [l] are untouched by another rule *)
Lemma head_keeps emitted i r l s s1 v :
  distinct_keys ((i, r) :: l) ->
  process_rule event sample now uuids emitted (i, r) s = (s1, v) ->
  forall ir k, ir ∈ l -> key_of ir.2 market = Some k ->
    load_rule_state s1.2 tenant k = load_rule_state s.2 tenant k.
Proof.
  intros Hd Hr ir k Hin Hk. destruct (distinct_cons _ _ _ Hd) as [_ Hne].
  pose proof (process_rule_frame event sample now uuids emitted (i, r) s) as (_ & Hl).
  rewrite Hr in Hl. apply load_other. intros t pid k' Hk'. apply Hl. cbn [snd].
  intros (-> & -> & Hkr). apply Hk'. split_and!; try done. intros ->. by apply (Hne k ir Hkr).
Qed.
Lemma tail_keeps emitted i r l s k :
  distinct_keys ((i, r) :: l) -> key_of r market = Some k ->
  load_rule_state (for_each (process_rule event sample now uuids) l emitted s).1.2 tenant k =
  load_rule_state s.2 tenant k.
Proof.
  intros Hd Hk. destruct (distinct_cons _ _ _ Hd) as [_ Hne].
  pose proof (loop_frame l emitted s) as (_ & Hl). apply load_other. intros t pid k' Hk'.
  apply Hl. intros (-> & -> & ir & Hin & Hir). apply Hk'. split_and!; try done. intros ->.
  by apply (Hne k ir Hk).
Qed.
Lemma loop_advances l emitted s s' result :
  distinct_keys l ->
  for_each (process_rule event sample now uuids) l emitted s = (s', Ret result) ->
  (forall ir, ir ∈ l -> advanced ir.2 s.2 s'.2 result) /\
  (forall d, result = Some d -> emitted = Some d \/ stems_from l.*2 s.2 d).
Proof.
  revert emitted s. induction l as [|[i r] l IH]; intros emitted s Hd Hp.
  { injection Hp as <- <-. split; [by intros ir Hin%not_elem_of_nil|auto]. }
  pose proof Hp as Hp0. simpl in Hp. apply st_bind_ret_inv in Hp as (s1 & mid & Hr & Hp).
  pose proof (head_keeps _ _ _ _ _ _ _ Hd Hr) as Hkeep.
  pose proof (distinct_cons _ _ _ Hd) as [Hd' _]. destruct (IH _ _ Hd' Hp) as [Hadv Hstem].
  assert (Hback : forall ir k st st' ev, ir ∈ l -> evaluates ir.2 s1.2 k st st' ev ->
            evaluates ir.2 s.2 k st st' ev).
  { intros ir k st st' ev Hin (Hk & Hst & Hev). split_and!; [done| |done]. by rewrite <- (Hkeep ir). }
  apply process_rule_inv in Hr as Hinv. split.
  - intros ir [->|Hin]%elem_of_cons.
    + intros k Hk. destruct Hinv as [[Hnone _]|(k' & st & st' & ev & o & Hev & Hrow & Ha & Hmid)];
        [simpl in Hk; congruence|]. pose proof Hev as (Hk' & _). simpl in Hk.
      rewrite Hk in Hk'. injection Hk' as <-. exists st, st', ev. split_and!; [done| |].
      * pose proof (tail_keeps mid i r l s1 k Hd Hk) as Ht. rewrite Hp in Ht. simpl in Ht. rewrite Ht. done.
      * intros sv Hsv. destruct o as [d|]; [|by rewrite Ha in Hsv].
        destruct (pick_higher_rank emitted d) as (d' & Hd1 & Hle & _).
        rewrite Hd1 in Hmid. destruct (loop_result _ _ _ _ _ _ Hp Hmid) as (d2 & -> & Hle2).
        exists d2. split; [done|]. rewrite Ha in Hsv. injection Hsv as <-.
        unfold severity_rank_detection at 1 in Hle. lia.
    + intros k Hk. destruct (Hadv _ Hin k Hk) as (st & st' & ev & Hev & Hrest).
      exists st, st', ev. split; [by eapply Hback|done].
  - intros d Hres. destruct (Hstem d Hres) as [Hm|(r' & k & st & st' & ev & Hin & Hev & Ha)].
    + destruct Hinv as [[_ Hmid]|(k & st & st' & ev & o & Hev & _ & Ha & Hmid)];
        [left; congruence|]. destruct o as [d1|]; [|left; congruence].
      destruct (pick_higher_rank emitted d1) as (d' & Hd1 & _ & Hor & _).
      cbv beta iota in Hmid. assert (d' = d) as -> by congruence. destruct Hor as [->|?]; [right|by left].
      exists r, k, st, st', ev. split_and!; [apply elem_of_cons; by left|done..].
    + right. apply list_elem_of_fmap in Hin as (ir & -> & Hin).
      exists ir.2, k, st, st', ev. split_and!; [|by eapply Hback|done].
      apply elem_of_cons. right. apply list_elem_of_fmap. by exists ir.
Qed.
End reading.

(** ** The properties *)

Lemma numbered_snd {A} (l : list A) : (numbered l).*2 = l.
Proof.
  unfold numbered. apply list_eq. intros i. rewrite list_lookup_fmap, list_lookup_imap.
  by destruct (l !! i).
Qed.
Lemma numbered_keys market (l : list UtilizationHighRule) :
  omap (fun ir => key_of ir.2 market) (numbered l) = omap (fun r => key_of r market) l.
Proof.
  rewrite <- (numbered_snd l) at 2. generalize (numbered l). intros nl.
  induction nl as [|[i r] nl IH]; [done|].
  simpl. destruct (key_of r market); [f_equal|]; exact IH.
Qed.
Lemma enrich_severity p event d : severity (enrich p event d) = severity d.
Proof. unfold enrich. by destruct (concurrent_alerts p event d). Qed.

(** C24: a utilization reading advances every enabled rule that matches it by
    exactly one evaluation: its stored state becomes the evaluated one (or
    stays, when the database refuses the write), a detection is returned as soon
    as one rule announces something, it is at least as severe as anything a rule
    announces, and it is announced by one of the rules. *)
Theorem reading_advances_rules event sample now uuids s s' result :
  let rules := rules_for s.1 event (se_protocol_id sample) (se_chain_slug sample)
                 (se_market_id sample) in
  NoDup (omap (fun r => key_of r (se_market_id sample)) rules) ->
  process_state_event event sample now uuids s = (s', Ret result) ->
  (forall r, r ∈ rules -> advanced event sample now r s.2 s'.2 result) /\
  (forall d, result = Some d -> stems_from event sample now rules s.2 d).
Proof.
  intros rules Hnd Hp. unfold process_state_event in Hp.
  apply st_bind_ret_inv in Hp as (s0 & a & Hg & Hp). injection Hg as <- <-. fold rules in Hp.
  apply st_bind_ret_inv in Hp as (s1 & emitted & Hloop & Hp).
  apply st_bind_ret_inv in Hp as (s2 & a2 & Hg & Hp). injection Hg as <- <-. injection Hp as <- <-.
  apply loop_advances in Hloop as [Hadv Hstem]; [|unfold distinct_keys; by rewrite numbered_keys].
  split.
  - intros r Hr k Hk. rewrite <- (numbered_snd rules) in Hr.
    apply list_elem_of_fmap in Hr as (ir & -> & Hin).
    destruct (Hadv _ Hin k Hk) as (st & st' & ev & Hev & Hrow & Hann). exists st, st', ev.
    split_and!; [done..|]. intros sv Hsv. destruct (Hann sv Hsv) as (d & -> & Hle).
    exists (enrich s1.1 event d). split; [done|]. unfold severity_rank_detection.
    by rewrite enrich_severity.
  - intros d Hd. destruct emitted as [d0|]; [|done]. injection Hd as <-.
    destruct (Hstem d0 eq_refl) as [?|(r & k & st & st' & ev & Hin & Hev & Ha)]; [done|].
    rewrite numbered_snd in Hin. exists r, k, st, st', ev. split_and!; [done..|].
    by rewrite enrich_severity.
Qed.

(** A pause signal changes the stored state of at most one rule, although it
    concerns every matching rule of the tenant: the loop returns at the first
    rule with an active incident, and the incidents of the others keep being
    resolved automatically. *)
Theorem pause_reaches_one_rule event pause now uuids s :
  exists ko : option string,
    (forall k, ko = Some k -> exists r, key_of r (pe_market_id pause) = Some k /\
       r ∈ rules_for s.1 event (pe_protocol_id pause) (pe_chain_slug pause) (pe_market_id pause)) /\
    forall t pid k, ~ (t = tenant_id event /\ pid = PATTERN_ID /\ ko = Some k) ->
      load_pattern_state (process_pause_event event pause now uuids s).1.2 t pid k =
      load_pattern_state s.2 t pid k.
Proof.
  unfold process_pause_event, mbind, st_bind, get_st. cbn [fst snd].
  destruct (first_some_frame event pause now uuids (rules_for s.1 event (pe_protocol_id pause)
    (pe_chain_slug pause) (pe_market_id pause)) s) as (ko & Hk & _ & Hl).
  exists ko. split; [|done]. intros k Hko. destruct (Hk k Hko) as (r & ? & ?). by exists r.
Qed.

(** the rows an event may write: those of the enabled rules that match it *)
Definition touches (p : UtilizationHighPattern) (event : UnifiedEvent) (k : string) : Prop :=
  binding_allows (source_bindings p) event = true /\
  match parse_utilization_state_event event, parse_utilization_pause_event event with
  | Some e, _ =>
      exists r, r ∈ rules_for p event (se_protocol_id e) (se_chain_slug e) (se_market_id e) /\
        key_of r (se_market_id e) = Some k
  | None, Some e =>
      exists r, r ∈ rules_for p event (pe_protocol_id e) (pe_chain_slug e) (pe_market_id e) /\
        key_of r (pe_market_id e) = Some k
  | None, None => False
  end.

Lemma utilization_event_frame event now uuids s :
  frame (touches s.1 event) (tenant_id event) s (process_event event now uuids s).1.
Proof.
  unfold process_event, touches, mbind, st_bind, get_st. cbn [fst snd].
  destruct (binding_allows _ _); simpl; [|done].
  destruct (configs s.1 !! tenant_id event); [|done].
  destruct (parse_utilization_state_event event) as [e|] eqn:He.
  - apply bind_frame; [done|]. intros s0 s1 [= <- <-]. apply bind_frame.
    + eapply frame_weaken; [|apply loop_frame]. intros k (ir & Hin & Hk). split; [done|].
      exists ir.2. split; [|done]. rewrite <- (numbered_snd (rules_for _ _ _ _ _)).
      apply list_elem_of_fmap. by exists ir.
    + intros em s1 _. by apply bind_frame.
  - destruct (parse_utilization_pause_event event) as [e|] eqn:Hp; [|done].
    apply bind_frame; [done|]. intros s0 s1 [= <- <-].
    destruct (first_some_frame event e now (uuids 0%nat) (rules_for s.1 event (pe_protocol_id e)
      (pe_chain_slug e) (pe_market_id e)) s) as (ko & Hk & Hf).
    eapply frame_weaken; [|exact Hf]. intros k Hko. split; [done|].
    destruct (Hk k Hko) as (r & ? & ?). by exists r.
Qed.

(** Whatever the event and however its processing ends, only the state rows
    of the enabled rules of its own tenant that match it may change, and only
    when the source is bound; the configuration is never changed. *)
Theorem event_writes_own_rows event now uuids s :
  let s' := (process_event event now uuids s).1 in
  configs s'.1 = configs s.1 /\ source_bindings s'.1 = source_bindings s.1 /\
  forall t pid k, ~ (t = tenant_id event /\ pid = PATTERN_ID /\ touches s.1 event k) ->
    load_pattern_state s'.2 t pid k = load_pattern_state s.2 t pid k.
Proof. intros s'. destruct (utilization_event_frame event now uuids s) as [[= Hc Hb] Hl]. done. Qed.
End proofs.

(** ** Concrete runs *)

#[local] Existing Instance chrono_Z.
#[local] Existing Instance serde_json_tree.
#[local] Existing Instance canonical_order.
#[local] Existing Instance tables_store.

Definition sample_rule (id : string) : UtilizationHighRule :=
  {| rule_id := id; rule_protocol_id := "aave_v3"; rule_chain_slug := "base"; scope := "protocol";
     rule_market_id := None; medium_threshold_pct := f64_of_Z 90;
     high_threshold_pct := f64_of_Z 95; critical_threshold_pct := f64_of_Z 99;
     resolution_medium_pct := f64_of_Z 85; resolution_high_pct := f64_of_Z 88;
     resolution_critical_pct := f64_of_Z 90; resolution_confirmation_blocks := 2;
     min_tvl_floor_usd := f64_of_Z 500000; enabled := true |}.
Definition rule1 : UtilizationHighRule := sample_rule "r1".
Definition reading (pct t : Z) : input := Reading (f64_of_Z pct) (f64_of_Z 1000000) (sec t).

(** ** The lifecycle *)

Definition after (st : UtilizationRuleState) (i : input)
  : UtilizationRuleState * option IncidentTransition :=
  outcome_or (UtilizationRuleState_default, None) (step_input rule1 st i).
Definition breached := after UtilizationRuleState_default (reading 96 10).
Definition counted := after breached.1 (reading 80 20).
Definition recovered_at := after counted.1 (reading 80 30).
Definition eval1 : UtilizationRuleState * UtilizationEvalResult :=
  outcome_or (UtilizationRuleState_default, EvalResult_default)
    (evaluate_utilization_state rule1 UtilizationRuleState_default (f64_of_Z 96) (f64_of_Z 1000000)
       (sec 10)).
Lemma eval1_eq :
  evaluate_utilization_state rule1 UtilizationRuleState_default (f64_of_Z 96) (f64_of_Z 1000000)
    (sec 10) = Ret (eval1.1, eval1.2).
Proof. reflexivity. Qed.

Lemma rule1_blocks : blocks_ok rule1.
Proof. split; reflexivity. Qed.
Lemma default_ok : state_ok rule1 UtilizationRuleState_default.
Proof. apply default_state_ok, rule1_blocks. Qed.
Lemma breached_eq : step_input rule1 UtilizationRuleState_default (reading 96 10) =
  Ret (breached.1, Some Trigger).
Proof. reflexivity. Qed.
Lemma counted_eq : step_input rule1 breached.1 (reading 80 20) = Ret (counted.1, None).
Proof. reflexivity. Qed.
Lemma recovered_eq : step_input rule1 counted.1 (reading 80 30) = Ret (recovered_at.1, Some Resolve).
Proof. reflexivity. Qed.
Lemma breached_ok : state_ok rule1 breached.1 /\ active (abs breached.1) = Some High /\
  paused (abs breached.1) = false /\ streak (abs breached.1) = 0.
Proof.
  split; [|by split_and!]. split; [split; discriminate || reflexivity|split; [discriminate|]].
  intros t [= <-]. exists High. split; [done|right; by left].
Qed.
Lemma breached_run : run rule1 UtilizationRuleState_default
  [(UtilizationRuleState_default, reading 96 10, Some Trigger)] breached.1.
Proof. eapply run_step; [apply run_nil|exact breached_eq]. Qed.

Lemma evaluate_refines_lifecycle_witness :
  lstep rule1 (abs UtilizationRuleState_default) (reading 96 10) (Some Trigger) (abs eval1.1).
Proof.
  exact (proj1 (evaluate_refines_lifecycle rule1 UtilizationRuleState_default (f64_of_Z 96)
    (f64_of_Z 1000000) (sec 10) eval1.1 eval1.2 rule1_blocks default_ok eval1_eq)).
Defined.
Lemma resolution_is_earned_witness :
  counts rule1 (abs counted.1) (reading 80 30) = true /\ active (abs recovered_at.1) = None.
Proof.
  assert (Hr : run rule1 UtilizationRuleState_default
    [(counted.1, reading 80 30, Some Resolve); (breached.1, reading 80 20, None);
     (UtilizationRuleState_default, reading 96 10, Some Trigger)] recovered_at.1).
  { eapply run_step; [eapply run_step; [exact breached_run|exact counted_eq]|exact recovered_eq]. }
  destruct (resolution_is_earned rule1 UtilizationRuleState_default _ _ _ _ rule1_blocks default_ok
    eq_refl Hr) as (H1 & _ & H2 & _). split; [exact H1|exact H2].
Defined.
Lemma alerts_bounded_witness :
  alerts [(UtilizationRuleState_default, reading 96 10, Some Trigger)] <= 3.
Proof.
  refine (proj1 (alerts_bounded rule1 UtilizationRuleState_default _ breached.1 rule1_blocks
    default_ok breached_run _)).
  intros (e & He & Hres). apply list_elem_of_singleton in He. subst e. discriminate Hres.
Defined.
Lemma recovered_market_resolves_witness :
  exists t st1 st', run rule1 breached.1 t st' /\
    head t = Some (st1, reading 80 30, Some Resolve) /\ active (abs st') = None.
Proof.
  destruct breached_ok as (H1 & H2 & H3 & H4).
  assert (Hr : forall t, (0 <=? t) && (t <=? 100) = true -> is_return (sub_minutes (sec t) 61) = true ->
    recovery_reading rule1 High (reading 80 t)).
  { intros t _ Hc. exists (f64_of_Z 80), (f64_of_Z 1000000), (sec t),
      (outcome_or (sec 0) (sub_minutes (sec t) 61)).
    split_and!; [reflexivity|vm_compute; reflexivity..|by apply ret_or]. }
  destruct (recovered_market_resolves rule1 breached.1 High [reading 80 20; reading 80 30]
    rule1_blocks H1 H2 H3) as (t & st1 & st' & Hrun & _ & Hhd & Hact).
  - repeat constructor; apply Hr; vm_compute; reflexivity.
  - rewrite H4. reflexivity.
  - exists t, st1, st'. split; [exact Hrun|split; [exact Hhd|exact Hact]].
Defined.
Lemma samples_window_witness : sorted_by sample_le (us_samples eval1.1).
Proof.
  refine (proj1 (samples_window rule1 UtilizationRuleState_default (f64_of_Z 96) (f64_of_Z 1000000)
    (sec 10) eval1.1 eval1.2 _ eval1_eq)). vm_compute. reflexivity.
Defined.

(** ** A codec of the rule state *)

Definition sample_to_json (s : UtilizationSample) : json :=
  JObject (list_to_map [ ("observed_at", time_to_json (sample_at s));
                         ("utilization_pct", float_to_json (sample_pct s)) ]%string).
Definition sample_at_time (t : instant) (x : f64) : UtilizationSample :=
  {| sample_at := t; sample_pct := x |}.
Definition json_sample (v : json) : option UtilizationSample :=
  m ← json_object v; t ← field json_time "observed_at" m; x ← field json_float "utilization_pct" m;
  Some (sample_at_time t x).
Definition json_samples (v : json) : option (list UtilizationSample) :=
  match v with JArray l => mapM json_sample l | _ => None end.
Definition json_bool (v : json) : option bool := match v with JBool b => Some b | _ => None end.
Definition ustate_to_json (st : UtilizationRuleState) : json :=
  JObject (list_to_map
    [ ("last_severity", opt_to_json JString (us_last_severity st));
      ("active_since", opt_to_json time_to_json (us_active_since st));
      ("last_breach_at", opt_to_json time_to_json (us_last_breach_at st));
      ("last_transition_at", opt_to_json time_to_json (us_last_transition_at st));
      ("paused_status", JBool (us_paused_status st));
      ("resolution_block_counter", JInt (us_resolution_block_counter st));
      ("samples", JArray (sample_to_json <$> us_samples st));
      ("escalation_count", JInt (us_escalation_count st)) ]%string).
Definition ustate_of_json (v : json) : option UtilizationRuleState :=
  m ← json_object v;
  paused ← field json_bool "paused_status" m;
  counter ← field json_int "resolution_block_counter" m;
  samples ← field json_samples "samples" m;
  Some {| us_last_severity := field json_text "last_severity" m;
          us_active_since := field json_time "active_since" m;
          us_last_breach_at := field json_time "last_breach_at" m;
          us_last_transition_at := field json_time "last_transition_at" m;
          us_paused_status := paused; us_resolution_block_counter := counter; us_samples := samples;
          us_escalation_count := default 0 (field json_int "escalation_count" m) |}.
Lemma sample_roundtrip s : is_finite (sample_pct s) = true -> json_sample (sample_to_json s) = Some s.
Proof.
  destruct s as [t x]. intros Hx. unfold json_sample, sample_to_json. simpl json_object.
  cbn [mbind option_bind].
  change (field json_time "observed_at" _) with (json_time (time_to_json t)).
  change (field json_float "utilization_pct" _) with (json_float (float_to_json x)).
  rewrite json_time_roundtrip. cbn [mbind option_bind]. unfold float_to_json. simpl in Hx. rewrite Hx.
  simpl. unfold finite_f64. by rewrite Hx.
Qed.
Lemma samples_roundtrip l :
  Forall (fun s => is_finite (sample_pct s) = true) l ->
  json_samples (JArray (sample_to_json <$> l)) = Some l.
Proof.
  intros Hl. unfold json_samples. apply mapM_Some. induction Hl as [|s l Hs Hl IH]; [constructor|].
  constructor; [by apply sample_roundtrip|exact IH].
Qed.
Lemma ustate_json_roundtrip st v : finite_samples st ->
  Ret (ustate_to_json st) = Ret v -> ustate_of_json v = Some st.
Proof.
  intros Hf [= <-]. destruct st as [a b c d e f g h]. unfold ustate_of_json. simpl json_object.
  cbn [mbind option_bind].
  change (field json_bool "paused_status" _) with (Some e).
  change (field json_int "resolution_block_counter" _) with (Some f).
  change (field json_samples "samples" _) with (json_samples (JArray (sample_to_json <$> g))).
  rewrite samples_roundtrip by exact Hf. cbn [mbind option_bind]. f_equal.
  f_equal; first [ exact (opt_time_roundtrip _) | exact (opt_text_roundtrip _) | reflexivity ].
Qed.
(** the rule list of the sample configuration *)
Definition rule_of_json (v : json) : option UtilizationHighRule := sample_rule <$> json_text v.
#[local] Instance utilization_codec_json : UtilizationCodec :=
  {| rule_from_value := rule_of_json; ustate_to_value := fun st => Ret (ustate_to_json st);
     ustate_from_value := ustate_of_json; datetime_to_value := time_to_json;
     ustate_roundtrip := ustate_json_roundtrip |}.

(** ** Events *)

Definition sample_event (type : string) (fields : list (string * json)) (t : Z) : UnifiedEvent :=
  {| event_id := "e"; tenant_id := "acme"; source_id := "s"; source_type := EvmChain;
     event_type := type; timestamp := sec t; payload := JObject (list_to_map fields);
     chain_id := None; block_number := None; tx_hash := None; market_key := None; price := None |}.
Definition state_event (pct t : Z) : UnifiedEvent :=
  sample_event "protocol_state"
    [ ("metric", JString "utilization"); ("protocol_id", JString "aave_v3");
      ("utilization", JFloat (f64_of_Z pct)); ("tvl_usd", JInt 1000000) ]%string t.
Definition pause_event (t : Z) : UnifiedEvent :=
  sample_event "protocol_pause" [ ("protocol_id", JString "aave_v3") ]%string t.
(** two rules of one tenant about the same protocol *)
Definition two_rules : UtilizationHighPattern :=
  reload_config UtilizationHighPattern_default
    {[ ("acme", PATTERN_ID)%string := VObj [("rules", JArray [JString "r1"; JString "r2"])]%string ]}.
Definition uuid_pairs (i : nat) : string * string := ("u1", "u2")%string.
Definition machine : Type := UtilizationHighPattern * Db.
Definition start : machine := (two_rules, (empty_tables : PatternTables)).
Definition step (s : machine) (e : UnifiedEvent) : machine :=
  (process_event e (timestamp e) uuid_pairs s).1.
Definition stored (s : machine) (key : string) : UtilizationRuleState :=
  outcome_or UtilizationRuleState_default (load_rule_state s.2 "acme" key).
Definition row1 : string := "r1:aave_v3:base".
Definition row2 : string := "r2:aave_v3:base".
Definition both_active : machine := step start (state_event 96 10).
Definition after_pause : machine := step both_active (pause_event 20).

(** both rules have an incident; the pause reaches the first only *)
Example pause_misses_second_rule :
  us_last_severity (stored both_active row1) = Some "high"%string /\
  us_last_severity (stored both_active row2) = Some "high"%string /\
  us_paused_status (stored after_pause row1) = true /\
  us_paused_status (stored after_pause row2) = false.
Proof. vm_compute. split_and!; reflexivity. Qed.

Definition the_sample : UtilizationStateEvent :=
  default {| se_protocol_id := ""; se_chain_slug := ""; se_market_id := None;
             se_utilization_pct := f64_zero; se_tvl_usd := f64_zero;
             se_total_supplied_tokens := f64_zero; se_total_borrowed_tokens := f64_zero;
             se_block_number := 0; se_tx_hash := None |}
    (parse_utilization_state_event (state_event 96 10)).
Definition has_detection (m : outcome (option DetectionResult)) : bool :=
  match m with Ret (Some _) => true | _ => false end.
Lemma reading_advances_rules_witness :
  exists s' d,
    process_state_event (state_event 96 10) the_sample (sec 10) uuid_pairs start = (s', Ret (Some d)) /\
    advanced (state_event 96 10) the_sample (sec 10) rule1 start.2 s'.2 (Some d).
Proof.
  destruct (process_state_event (state_event 96 10) the_sample (sec 10) uuid_pairs start)
    as [s' [[d|]|e|]] eqn:He;
    [|apply (f_equal (fun x => has_detection x.2)) in He; vm_compute in He; discriminate..].
  exists s', d. split; [reflexivity|].
  assert (Hrules : rules_for start.1 (state_event 96 10) (se_protocol_id the_sample)
    (se_chain_slug the_sample) (se_market_id the_sample) = [rule1; sample_rule "r2"])
    by (vm_compute; reflexivity).
  assert (Hnd : NoDup (omap (fun r => key_of r (se_market_id the_sample))
    (rules_for start.1 (state_event 96 10) (se_protocol_id the_sample) (se_chain_slug the_sample)
      (se_market_id the_sample)))).
  { rewrite Hrules. apply (bool_decide_unpack _). vm_compute. exact I. }
  apply (proj1 (reading_advances_rules (state_event 96 10) the_sample (sec 10) uuid_pairs start s'
    (Some d) Hnd He)).
  rewrite Hrules. apply elem_of_cons. left. reflexivity.
Defined.
