(* ===== verification/FlashLoan.v ===== *)
(** * The flash-loan pattern ([apps/detector/src/patterns/flash_loan.rs])

    Rules, the indicators read from a payload, the per-attacker cooldowns cached
    per tenant and persisted, and [process_event] as a function of the pattern,
    the database and the event.  Parameters: the derived codec of the cooldown
    map, the UUIDs of a detection, hash-map order.  Logging is left out.

    Which rule fires, and that over any run of events in time order the alerts
    about one attacker under one rule are at least the rule's cooldown apart,
    however the processing of the events in between ends. *)
From stdpp Require Import strings.
From S2P Require Import Prelude F64 Text Ports EventSchema Persistence PatternCommon.

Definition PATTERN_ID : string := "flash_loan".
Definition DEFAULT_MIN_LOAN_USD : f64 := f64_of_Z 100000.
Definition DEFAULT_PROFIT_THRESHOLD_USD : f64 := f64_of_Z 1000.
Definition DEFAULT_COOLDOWN_SEC : Z := 300.

Record FlashLoanRule := {
  rule_id : string;
  name : string;
  rule_protocol_id : string;
  rule_chain_slug : string;
  min_loan_amount_usd : f64;
  profit_threshold_usd : f64;
  cooldown_sec : Z;
  enabled : bool
}.

(** [FlashLoanState]: address key to the end of its cooldown *)
Class FlashLoanCodec `{Chrono} `{SerdeJson} := {
  cooldowns_to_value : gmap string DateTime -> outcome Value;
  cooldowns_from_value : Value -> option (gmap string DateTime);
  cooldowns_roundtrip : forall m v, cooldowns_to_value m = Ret v -> cooldowns_from_value v = Some m
}.

Section pattern.
Context `{Chrono} `{SerdeJson} `{HashOrder} `{!FlashLoanCodec} `{!PatternStore}.

(** ** Configuration *)

Definition parse_f64 (v : option Value) (fallback : f64) : f64 := default fallback (v ≫= as_f64).
(** an unsigned number above the signed range is converted with [as i64] *)
Definition parse_i64 (v : option Value) (fallback : Z) : Z :=
  match v ≫= as_i64 with
  | Some n => n
  | None => match v ≫= as_u64 with Some n => wrap_i64 n | None => fallback end
  end.
Definition obj_str (k : string) (m : gmap string Value) : option string := v ← m !! k; as_str v.
Definition obj_bool (k : string) (m : gmap string Value) : option bool := v ← m !! k; as_bool v.
Definition parse_rule_item (value : Value) (index : nat) : option FlashLoanRule :=
  object ← as_object value;
  let id := default ("flash-rule-" +:+ fmt_Z (Z.of_nat index + 1))
              (trimmed_nonempty (obj_str "rule_id" object)) in
  Some {| rule_id := id; name := default id (trimmed_nonempty (obj_str "name" object));
          rule_protocol_id := default "" (obj_str "protocol_id" object);
          rule_chain_slug := default "" (obj_str "chain_slug" object);
          min_loan_amount_usd :=
            parse_f64 (object !! "min_loan_amount_usd"%string) DEFAULT_MIN_LOAN_USD;
          profit_threshold_usd :=
            parse_f64 (object !! "profit_threshold_usd"%string) DEFAULT_PROFIT_THRESHOLD_USD;
          cooldown_sec := parse_i64 (object !! "cooldown_sec"%string) DEFAULT_COOLDOWN_SEC;
          enabled := default true (obj_bool "enabled" object) |}.
Definition default_flash_rule (id name : string) : FlashLoanRule :=
  {| rule_id := id; name := name; rule_protocol_id := ""; rule_chain_slug := "";
     min_loan_amount_usd := DEFAULT_MIN_LOAN_USD;
     profit_threshold_usd := DEFAULT_PROFIT_THRESHOLD_USD; cooldown_sec := DEFAULT_COOLDOWN_SEC;
     enabled := true |}.
Definition parse_flash_loan_rules (config : Value) : list FlashLoanRule :=
  let items := default [] (vget "rules" config ≫= as_array) in
  match omap (fun ir => parse_rule_item ir.2 ir.1) (imap pair items) with
  | [] => [default_flash_rule "flash-default" "Default Flash Loan Rule"]
  | rules => rules
  end.

(** ** Indicators *)

Record FlashLoanIndicators := {
  loan_amount_usd : f64;
  profit_usd : f64;
  attacker_address : string;
  fl_protocol : string;
  fl_chain : Chain;
  fl_chain_slug : string
}.
Definition chain_from_slug (s : string) : Chain :=
  if bool_decide (s = "ethereum") || bool_decide (s = "mainnet") then Ethereum
  else if bool_decide (s = "arbitrum") then Arbitrum
  else if bool_decide (s = "optimism") then Optimism
  else if bool_decide (s = "base") then Base
  else if bool_decide (s = "polygon") then Polygon
  else if bool_decide (s = "avalanche") then Avalanche
  else if bool_decide (s = "bsc") || bool_decide (s = "bnb") then BSC
  else UnknownChain.
(** [fl.get(k).or_else(|| payload.get(alt)).and_then(as_str)] *)
Definition str_or (k alt : string) (fl payload : Value) : option string :=
  v ← (match vget k fl with Some v => Some v | None => vget alt payload end); as_str v.
Definition extract_flash_loan_indicators (payload : Value) : option FlashLoanIndicators :=
  let fl := default payload (vget "flash_loan" payload) in
  amount ← vget "loan_amount_usd" fl ≫= as_f64;
  let slug := default "unknown" (get_str "chain_slug" payload) in
  Some {| loan_amount_usd := amount;
          profit_usd := default f64_zero (vget "profit_usd" fl ≫= as_f64);
          attacker_address := default "unknown" (str_or "attacker_address" "from" fl payload);
          fl_protocol := default "unknown" (str_or "protocol" "protocol" fl payload);
          fl_chain := chain_from_slug slug; fl_chain_slug := slug |}.

(** ** The pattern *)

Record FlashLoanPattern := {
  configs : gmap string (list FlashLoanRule);
  state_cache : gmap string (gmap string DateTime);
  source_bindings : gmap string (gset string)
}.
Definition FlashLoanPattern_default : FlashLoanPattern :=
  {| configs := ∅; state_cache := ∅; source_bindings := ∅ |}.
Definition reload_entry (acc : FlashLoanPattern) (entry : (string * string) * Value)
  : FlashLoanPattern :=
  let '((tenant, pattern), config) := entry in
  if negb (bool_decide (pattern = PATTERN_ID)) then acc
  else {| configs := <[tenant := parse_flash_loan_rules (extract_detection_config config)]> (configs acc);
          state_cache := state_cache acc;
          source_bindings :=
            match extract_bound_source_ids config with
            | Some bound => <[tenant := bound]> (source_bindings acc)
            | None => source_bindings acc
            end |}.
Definition reload_config (p : FlashLoanPattern) (config_map : gmap (string * string) Value)
  : FlashLoanPattern :=
  foldl reload_entry {| configs := ∅; state_cache := state_cache p; source_bindings := ∅ |}
    (hash_entries config_map).

Definition rule_tag (r : FlashLoanRule) : string := "flash_loan." +:+ rule_id r.
Definition build_detection (event : UnifiedEvent) (fl : FlashLoanIndicators) (now : DateTime)
    (r : FlashLoanRule) (uuids : string * string) : DetectionResult :=
  let '(simulated, run_id) := simulation_metadata_from_event event in
  let hash := default uuids.1 (tx_hash event) in
  let loan := fmt_fixed 0 (loan_amount_usd fl) in
  let profit := fmt_fixed 0 (profit_usd fl) in
  {| detection_id := uuids.2; pattern_id := PATTERN_ID;
     det_event_key := Some ("flash_loan:" +:+ tenant_id event +:+ ":" +:+ rule_id r +:+ ":" +:+ hash);
     subject_type := Some "address"%string; subject_key := Some (attacker_address fl);
     det_tenant_id := Some (tenant_id event); det_chain := fl_chain fl;
     det_chain_slug := fl_chain_slug fl; protocol := fl_protocol fl;
     det_lifecycle_state := Confirmed; requires_confirmation := false; attack_family := FlashLoan;
     severity := High;
     description := Some ("Flash loan rule '" +:+ name r +:+ "' triggered: $" +:+ loan +:+
       " borrowed from " +:+ fl_protocol fl +:+ ", $" +:+ profit +:+ " profit extracted by " +:+
       attacker_address fl +:+ " on " +:+ fl_chain_slug fl +:+ ".");
     triggered_rule_ids := [rule_tag r]; det_tx_hash := hash;
     det_block_number := default 0 (block_number event);
     signals := [ {| signal_type := LoanVolumeSpike; signal_value := loan_amount_usd fl;
                     signal_label := Some ("loan $" +:+ loan); signal_source_id := None |};
                  {| signal_type := ProfitExtracted; signal_value := profit_usd fl;
                     signal_label := Some ("profit $" +:+ profit); signal_source_id := None |} ];
     risk_score := RiskScore_default; incident_transition := None; context_classification := None;
     confidence_breakdown := ∅; oracle_context := ∅;
     actions_recommended := [ "Pause affected protocol pools immediately.";
                              "Notify protocol team and security researchers." ]%string;
     is_simulated := simulated; simulation_run_id := run_id; detected_at := now; created_at := now |}.

(** ** Processing an event *)

Definition set_tenant_state (p : FlashLoanPattern) (tenant : string) (c : gmap string DateTime)
  : FlashLoanPattern :=
  {| configs := configs p; state_cache := <[tenant := c]> (state_cache p);
     source_bindings := source_bindings p |}.
(** the cooldowns of the tenant, loaded once *)
Definition tenant_cooldowns (p : FlashLoanPattern) (db : Db) (tenant : string)
  : outcome (gmap string DateTime) :=
  match state_cache p !! tenant with
  | Some c => Ret c
  | None =>
      v ← load_pattern_state db tenant PATTERN_ID "cooldowns";
      Ret (default ∅ (v ≫= cooldowns_from_value))
  end.
Definition retain_active (now : DateTime) (c : gmap string DateTime) : gmap string DateTime :=
  filter (fun kv => dt_lt now kv.2 = true) c.
Definition cooldown_key (r : FlashLoanRule) (fl : FlashLoanIndicators) : string :=
  rule_id r +:+ ":" +:+ attacker_address fl.
Definition cooling (c : gmap string DateTime) (key : string) (now : DateTime) : bool :=
  match c !! key with Some u => dt_lt now u | None => false end.
Definition passes (fl : FlashLoanIndicators) (c : gmap string DateTime) (now : DateTime)
    (r : FlashLoanRule) : bool :=
  enabled r && negb (f64_lt (loan_amount_usd fl) (min_loan_amount_usd r))
  && negb (f64_lt (profit_usd fl) (profit_threshold_usd r))
  && negb (cooling c (cooldown_key r fl) now).
Definition flash_snapshot (event : UnifiedEvent) (fl : FlashLoanIndicators) (r : FlashLoanRule) : Value :=
  VObj [ ("rule_id", VString (rule_id r)); ("rule_name", VString (name r));
         ("loan_amount_usd", VFloat (loan_amount_usd fl)); ("profit_usd", VFloat (profit_usd fl));
         ("attacker_address", VString (attacker_address fl)); ("protocol", VString (fl_protocol fl));
         ("tx_hash", VOpt VString (tx_hash event)) ]%string.

(** the rule fires: cooldown, state, snapshot, detection *)
Definition fire (p : FlashLoanPattern) (event : UnifiedEvent) (fl : FlashLoanIndicators)
    (c : gmap string DateTime) (now : DateTime) (db : Db) (uuids : string * string)
    (r : FlashLoanRule) : FlashLoanPattern * Db * outcome (option DetectionResult) :=
  let key := cooldown_key r fl in
  match add_seconds now (cooldown_sec r) with
  | Ret u =>
      let c := <[key := u]> c in
      let p := set_tenant_state p (tenant_id event) c in
      match cooldowns_to_value c with
      | Ret v =>
          let db := (upsert_pattern_state db (tenant_id event) PATTERN_ID "cooldowns" v).1 in
          let snap := {| snap_tenant_id := tenant_id event; snap_pattern_id := PATTERN_ID;
                         snap_snapshot_key := key;
                         snap_data := append_snapshot_meta event (flash_snapshot event fl r);
                         snap_score := Some (profit_usd fl); snap_severity := Some "high"%string;
                         snap_observed_at := timestamp event |} in
          (p, (insert_pattern_snapshot db snap).1,
           Ret (Some (build_detection event fl now r uuids)))
      | Err e => (p, db, Err e)
      | Panic => (p, db, Panic)
      end
  | Err e => (p, db, Err e)
  | Panic => (p, db, Panic)
  end.
(** [for rule in rules]: the first rule that is not skipped returns *)
Fixpoint try_rules (p : FlashLoanPattern) (event : UnifiedEvent) (fl : FlashLoanIndicators)
    (c : gmap string DateTime) (now : DateTime) (db : Db) (uuids : string * string)
    (rules : list FlashLoanRule) : FlashLoanPattern * Db * outcome (option DetectionResult) :=
  match rules with
  | [] => (p, db, Ret None)
  | r :: rest =>
      if passes fl c now r then fire p event fl c now db uuids r
      else try_rules p event fl c now db uuids rest
  end.
Definition is_evm (s : SourceType) : bool := match s with EvmChain => true | _ => false end.
(** the guards *)
Definition event_indicators (p : FlashLoanPattern) (event : UnifiedEvent)
  : option (list FlashLoanRule * FlashLoanIndicators) :=
  if negb (is_evm (source_type event)) then None
  else if negb (binding_allows (source_bindings p) event) then None
  else match configs p !! tenant_id event with
       | Some (r :: rules) =>
           fl ← extract_flash_loan_indicators (payload event); Some (r :: rules, fl)
       | _ => None
       end.
Definition process_event (p : FlashLoanPattern) (event : UnifiedEvent) (now : DateTime) (db : Db)
    (uuids : string * string) : FlashLoanPattern * Db * outcome (option DetectionResult) :=
  match event_indicators p event with
  | None => (p, db, Ret None)
  | Some (rules, fl) =>
      match tenant_cooldowns p db (tenant_id event) with
      | Ret c =>
          let c := retain_active now c in
          try_rules (set_tenant_state p (tenant_id event) c) event fl c now db uuids rules
      | Err e => (p, db, Err e)
      | Panic => (p, db, Panic)
      end
  end.
End pattern.

(** ** Theorems *)

Section proofs.
Context `{Chrono} `{SerdeJson} `{HashOrder} `{!FlashLoanCodec} `{!PatternStore}.
Notation state := (FlashLoanPattern * Db)%type.

(** ** One event *)

Lemma set_tenant_state_lookup p tenant c : state_cache (set_tenant_state p tenant c) !! tenant = Some c.
Proof. apply lookup_insert_eq. Qed.
Lemma set_tenant_state_ne p tenant c t :
  t <> tenant -> state_cache (set_tenant_state p tenant c) !! t = state_cache p !! t.
Proof. intros. by apply lookup_insert_ne. Qed.
Lemma retain_active_lookup now c k u :
  c !! k = Some u -> ns now < ns u -> retain_active now c !! k = Some u.
Proof.
  intros Hk Hu. apply map_lookup_filter_Some. split; [done|]. unfold dt_lt. simpl. lia.
Qed.

Lemma event_indicators_inv p event rules fl :
  event_indicators p event = Some (rules, fl) ->
  source_type event = EvmChain /\ binding_allows (source_bindings p) event = true /\
  configs p !! tenant_id event = Some rules /\
  extract_flash_loan_indicators (payload event) = Some fl.
Proof.
  unfold event_indicators. destruct (source_type event); simpl; try done.
  destruct (binding_allows _ _); simpl; [|done].
  destruct (configs p !! tenant_id event) as [[|r l]|]; try done.
  destruct (extract_flash_loan_indicators _); simpl; [|done]. by intros [= <- <-].
Qed.
(** the rule that fires is the first that passes *)
Lemma try_rules_fire p event fl c now db uuids rules p' db' o :
  try_rules p event fl c now db uuids rules = (p', db', o) ->
  (o = Ret None /\ p' = p /\ db' = db /\ Forall (fun r => passes fl c now r = false) rules) \/
  exists before r after, rules = before ++ r :: after /\
    Forall (fun r => passes fl c now r = false) before /\ passes fl c now r = true /\
    fire p event fl c now db uuids r = (p', db', o).
Proof.
  induction rules as [|r rules IH]; simpl; [intros [= <- <- <-]; by left|].
  destruct (passes fl c now r) eqn:Hr; [right; by exists [], r, rules|].
  intros Ht. destruct (IH Ht) as [(-> & -> & -> & Hall)|(b & r' & a & -> & Hb & Hp & Hf)].
  - left. split_and!; try done. by constructor.
  - right. exists (r :: b), r', a. split_and!; try done. by constructor.
Qed.
(** the only outcomes of a firing: a detection, or an error that leaves no detection *)
Lemma fire_inv p event fl c now db uuids r p' db' o :
  fire p event fl c now db uuids r = (p', db', o) ->
  configs p' = configs p /\ (forall t, t <> tenant_id event -> state_cache p' !! t = state_cache p !! t) /\
  (state_cache p' = state_cache p \/
   exists u, add_seconds now (cooldown_sec r) = Ret u /\
     state_cache p' = <[tenant_id event := <[cooldown_key r fl := u]> c]> (state_cache p)) /\
  forall d, o = Ret (Some d) -> d = build_detection event fl now r uuids /\
    exists u, add_seconds now (cooldown_sec r) = Ret u /\
      state_cache p' !! tenant_id event = Some (<[cooldown_key r fl := u]> c).
Proof.
  unfold fire. destruct (add_seconds now (cooldown_sec r)) as [u|e|] eqn:Hu;
    [|intros [= <- _ <-]; split_and!; auto; done..].
  destruct (cooldowns_to_value _) as [v|e|]; intros [= <- _ <-].
  all: split_and!; [done|by intros; apply set_tenant_state_ne|right; by exists u|].
  all: intros d Hd; try done. injection Hd as <-. split; [done|]. exists u.
  split; [done|]. apply set_tenant_state_lookup.
Qed.

(** what an event did to the cooldowns and what it announced *)
Lemma process_event_inv p event now db uuids p' db' o :
  process_event p event now db uuids = (p', db', o) ->
  configs p' = configs p /\
  (forall t, t <> tenant_id event -> state_cache p' !! t = state_cache p !! t) /\
  ((p' = p /\ forall d, o <> Ret (Some d)) \/
   exists rules fl c0, event_indicators p event = Some (rules, fl) /\
     tenant_cooldowns p db (tenant_id event) = Ret c0 /\
     let c := retain_active now c0 in
     (exists c', state_cache p' !! tenant_id event = Some c' /\
        (c' = c \/ exists r u, r ∈ rules /\ passes fl c now r = true /\
           c' = <[cooldown_key r fl := u]> c)) /\
     forall d, o = Ret (Some d) -> exists before r after u,
       rules = before ++ r :: after /\ Forall (fun r => passes fl c now r = false) before /\
       passes fl c now r = true /\ d = build_detection event fl now r uuids /\
       add_seconds now (cooldown_sec r) = Ret u /\
       state_cache p' !! tenant_id event = Some (<[cooldown_key r fl := u]> c)).
Proof.
  unfold process_event. destruct (event_indicators p event) as [[rules fl]|] eqn:Hi;
    [|intros [= <- _ <-]; split_and!; auto].
  destruct (tenant_cooldowns p db (tenant_id event)) as [c0|e|] eqn:Hc0;
    [|intros [= <- _ <-]; split_and!; auto..].
  set (c := retain_active now c0). set (p1 := set_tenant_state p (tenant_id event) c).
  intros Ht. apply try_rules_fire in Ht as [(-> & -> & -> & _)|(b & r & a & -> & Hb & Hp & Hf)].
  - split_and!; [done|by intros; apply set_tenant_state_ne|]. right. exists rules, fl, c0.
    split_and!; try done. exists c. split; [apply set_tenant_state_lookup|by left].
  - apply fire_inv in Hf as (Hconf & Hother & Hcache & Hd).
    split_and!; [done|intros t Hne; rewrite Hother by done; by apply set_tenant_state_ne|].
    right. exists (b ++ r :: a), fl, c0. split_and!; try done.
    + destruct Hcache as [->|(u & Hu & ->)].
      * exists c. split; [apply set_tenant_state_lookup|by left].
      * exists (<[cooldown_key r fl := u]> c). split; [apply lookup_insert_eq|]. right.
        exists r, u. split_and!; try done. apply elem_of_app. right. apply elem_of_cons. by left.
    + intros d Hd'. destruct (Hd d Hd') as (-> & u & Hu & Hl). by exists b, r, a, u.
Qed.

(** ** Runs *)

Definition timed_event : Type := UnifiedEvent * DateTime * (string * string).
(** the detections of a run with their times; an event that fails fires nothing
    and the next one is processed in the state it left *)
Fixpoint fired (s : state) (events : list timed_event) : list (DateTime * DetectionResult) :=
  match events with
  | [] => []
  | (e, now, u) :: rest =>
      let '(p, db, o) := process_event s.1 e now s.2 u in
      match o with
      | Ret (Some d) => (now, d) :: fired (p, db) rest
      | _ => fired (p, db) rest
      end
  end.
(** whom an alert is about: tenant, rule, attacker *)
Definition alert_id (d : DetectionResult) : option string * list string * option string :=
  (det_tenant_id d, triggered_rule_ids d, subject_key d).
Definition alert_times (id : option string * list string * option string)
    (l : list (DateTime * DetectionResult)) : list DateTime :=
  (filter (fun td => alert_id td.2 = id) l).*1.
Definition in_order (events : list timed_event) : Prop :=
  StronglySorted (fun a b : timed_event => ns a.1.2 <= ns b.1.2) events.

Lemma build_detection_id event fl now r uuids :
  alert_id (build_detection event fl now r uuids) =
  (Some (tenant_id event), [rule_tag r], Some (attacker_address fl)).
Proof. unfold build_detection. by destruct (simulation_metadata_from_event event). Qed.
Lemma rule_tag_inj r r' : rule_tag r' = rule_tag r -> rule_id r' = rule_id r.
Proof. apply (inj (String.append "flash_loan.")). Qed.
Lemma same_alert_key r fl r' fl' :
  rule_tag r' = rule_tag r -> attacker_address fl' = attacker_address fl ->
  cooldown_key r' fl' = cooldown_key r fl.
Proof.
  intros Hr%rule_tag_inj Ha. unfold cooldown_key. by rewrite Hr, Ha.
Qed.

(** a cooldown running until [u] *)
Definition blocked (p : FlashLoanPattern) (tenant key : string) (u : DateTime) : Prop :=
  exists c, state_cache p !! tenant = Some c /\ c !! key = Some u.
Lemma blocked_step p event now db uuids p' db' o tenant key u :
  process_event p event now db uuids = (p', db', o) -> blocked p tenant key u -> ns now < ns u ->
  blocked p' tenant key u /\
  forall d r fl, o = Ret (Some d) -> d = build_detection event fl now r uuids ->
    tenant_id event = tenant -> cooldown_key r fl <> key.
Proof.
  intros Hp (c & Hc & Hk) Hu. apply process_event_inv in Hp as (_ & Hother & Hp).
  destruct (decide (tenant = tenant_id event)) as [->|Hne].
  2:{ split; [exists c; by rewrite Hother|intros; congruence]. }
  destruct Hp as [[-> Hnone]|(rules & fl & c0 & _ & Hc0 & (c' & Hc' & Hor) & Hd)].
  { split; [by exists c|]. intros d r fl Hd. by apply Hnone in Hd. }
  unfold tenant_cooldowns in Hc0. rewrite Hc in Hc0. injection Hc0 as <-.
  assert (Hret : retain_active now c !! key = Some u) by (by apply retain_active_lookup).
  assert (Hpass : forall r, passes fl (retain_active now c) now r = true -> cooldown_key r fl <> key).
  { intros r Hr Hkey. unfold passes in Hr. apply andb_true_iff in Hr as [_ Hr].
    apply negb_true_iff in Hr. unfold cooling in Hr. rewrite Hkey, Hret in Hr. unfold dt_lt in Hr. lia. }
  split.
  - exists c'. split; [done|]. destruct Hor as [->|(r & u' & _ & Hr & ->)]; [done|].
    rewrite lookup_insert_ne; [done|]. by apply Hpass.
  - intros d r fl' Hd' Heq _. destruct (Hd d Hd') as (b & r' & a & u' & _ & _ & Hr & -> & _).
    apply (f_equal alert_id) in Heq. rewrite !build_detection_id in Heq. 
    rewrite (same_alert_key r' fl r fl') by congruence. by apply Hpass.
Qed.
Lemma fired_times s events t : t ∈ (fired s events).*1 -> exists e, e ∈ events /\ e.1.2 = t.
Proof.
  revert s. induction events as [|[[e now] u] rest IH]; intros s; simpl; [by intros Hin%not_elem_of_nil|].
  destruct (process_event s.1 e now s.2 u) as [[p db] [[d|]|?|]]; simpl; intros Hin.
  1: apply elem_of_cons in Hin as [->|Hin]; [exists (e, now, u); split; [apply elem_of_cons; by left|done]|].
  all: destruct (IH _ Hin) as (e' & ? & ?); exists e'; split; [apply elem_of_cons; by right|done].
Qed.
Lemma alert_times_cons id t d l :
  alert_times id ((t, d) :: l) =
  if bool_decide (alert_id d = id) then t :: alert_times id l else alert_times id l.
Proof.
  unfold alert_times. rewrite filter_cons. cbn [snd]. case_bool_decide as Hid.
  - by rewrite decide_True.
  - by rewrite decide_False.
Qed.
(** while a cooldown runs the alert does not fire; after it, time has passed *)
Lemma blocked_run s events tenant r0 att u :
  blocked s.1 tenant (rule_id r0 +:+ ":" +:+ att) u -> in_order events ->
  Forall (fun t => ns u <= ns t)
    (alert_times (Some tenant, [rule_tag r0], Some att) (fired s events)).
Proof.
  revert s. induction events as [|[[e now] uu] rest IH]; intros s Hb Hs; simpl; [constructor|].
  inversion Hs as [|? ? Hs' Hlater]; subst. destruct (decide (ns u <= ns now)) as [Hle|Hgt].
  - (* the cooldown is over: every later time is past it *)
    apply Forall_forall. intros t Ht.
    assert (Ht' : t ∈ (fired s ((e, now, uu) :: rest)).*1).
    { unfold alert_times in Ht. apply list_elem_of_fmap in Ht as (td & -> & Hin).
      apply list_elem_of_filter in Hin as [_ Hin]. apply list_elem_of_fmap. by exists td. }
    apply fired_times in Ht' as (x & Hx & <-). apply elem_of_cons in Hx as [->|Hx]; [done|].
    pose proof (proj1 (Forall_forall _ _) Hlater _ Hx) as Hnow. simpl in Hnow. lia.
  - destruct (process_event s.1 e now s.2 uu) as [[p db] o] eqn:Hp.
    destruct (blocked_step _ _ _ _ _ _ _ _ _ _ _ Hp Hb) as [Hb' Hno]; [lia|].
    destruct o as [[d|]|?|]; try (by apply (IH (p, db))).
    rewrite alert_times_cons, bool_decide_eq_false_2; [by apply (IH (p, db))|]. intros Hid. apply process_event_inv in Hp as (_ & _ & [[_ Hd]|(? & fl & ? & _ & _ & _ & Hd)]);
      [by apply (Hd d)|]. destruct (Hd d eq_refl) as (b & r & a & u' & _ & _ & _ & Heq & _).
    rewrite Heq, build_detection_id in Hid.
    apply (Hno d r fl eq_refl Heq); [congruence|]. unfold cooldown_key.
    rewrite (rule_tag_inj r0 r) by congruence. congruence.
Qed.

(** ** Rows *)

Lemma fire_touched p event fl c now db uuids r :
  touched (fun t pid k => t = tenant_id event /\ pid = PATTERN_ID /\ k = "cooldowns"%string) db
    (fire p event fl c now db uuids r).1.2.
Proof.
  unfold fire. destruct (add_seconds _ _); [|done..]. destruct (cooldowns_to_value _); [|done..].
  eapply touched_trans; [apply touched_upsert|apply touched_snapshot].
Qed.
Lemma flash_event_touched p event now db uuids :
  touched (fun t pid k => t = tenant_id event /\ pid = PATTERN_ID /\ k = "cooldowns"%string) db
    (process_event p event now db uuids).1.2.
Proof.
  unfold process_event. destruct (event_indicators p event) as [[rules fl]|]; [|done].
  destruct (tenant_cooldowns _ _ _) as [c|?|]; [|done..]. generalize (set_tenant_state p (tenant_id event) (retain_active now c)).
  intros q. induction rules as [|r rules IH]; simpl; [done|].
  destruct (passes _ _ _ _); [apply fire_touched|exact IH].
Qed.

(** ** The properties *)

(** C25: over events in time order two alerts of a tenant about the same attacker
    under the same rule are at least the rule's cooldown apart, whatever events
    of the tenant or of others, failed ones included, come in between. *)
Theorem flash_alerts_spaced s events tenant r0 att c :
  in_order events -> 
  (forall rules r, configs s.1 !! tenant = Some rules -> r ∈ rules -> rule_id r = rule_id r0 ->
     c <= cooldown_sec r) ->
  StronglySorted (fun a b => ns a + c * 1000000000 <= ns b)
    (alert_times (Some tenant, [rule_tag r0], Some att) (fired s events)).
Proof.
  revert s. induction events as [|[[e now] uu] rest IH]; intros s Hs Hc; simpl; [constructor|].
  inversion Hs as [|? ? Hs' Hlater]; subst.
  destruct (process_event s.1 e now s.2 uu) as [[p db] o] eqn:Hp.
  pose proof Hp as Hinv. apply process_event_inv in Hinv as (Hconf & _ & Hinv).
  assert (Hrest : StronglySorted (fun a b => ns a + c * 1000000000 <= ns b)
    (alert_times (Some tenant, [rule_tag r0], Some att) (fired (p, db) rest))).
  { apply IH; [done|]. simpl. by rewrite Hconf. }
  destruct o as [[d|]|?|]; try exact Hrest. rewrite alert_times_cons.
  case_bool_decide as Hid; [|exact Hrest]. constructor; [exact Hrest|].
  destruct Hinv as [[_ Hd]|(rules & fl & c0 & Hi & _ & _ & Hd)]; [by destruct (Hd d)|].
  destruct (Hd d eq_refl) as (b & r & a & u & -> & _ & _ & -> & Hu & Hcache).
  rewrite build_detection_id in Hid.
  assert (Ht : tenant_id e = tenant) by congruence. assert (Ha : attacker_address fl = att) by congruence.
  assert (Hr : rule_id r = rule_id r0) by (apply rule_tag_inj; congruence).
  assert (Hcr : c <= cooldown_sec r).
  { apply event_indicators_inv in Hi as (_ & _ & Hcf & _). rewrite Ht in Hcf.
    apply (Hc _ r Hcf); [|done]. apply elem_of_app. right. apply elem_of_cons. by left. }
  assert (Hb : blocked p tenant (rule_id r0 +:+ ":" +:+ att) u).
  { rewrite <- Ht. eexists. split; [exact Hcache|]. rewrite <- Hr, <- Ha. apply lookup_insert_eq. }
  apply (blocked_run (p, db) rest) in Hb; [|done]. apply add_seconds_spec in Hu.
  eapply Forall_impl; [exact Hb|]. intros t Hle. simpl in Hle. lia.
Qed.

(** An event fires at most one rule, the first enabled one whose thresholds
    it reaches and whose cooldown for the attacker is over; it fires none only
    when a guard rejects the event, no rule passes, or an operation failed; the
    new cooldown ends [cooldown_sec] after the event. *)
Theorem flash_first_rule_fires p event now db uuids p' db' r :
  process_event p event now db uuids = (p', db', Ret r) ->
  match r with
  | Some d => exists before rule after fl c u,
      event_indicators p event = Some (before ++ rule :: after, fl) /\
      tenant_cooldowns p db (tenant_id event) = Ret c /\
      Forall (fun x => passes fl (retain_active now c) now x = false) before /\
      passes fl (retain_active now c) now rule = true /\
      d = build_detection event fl now rule uuids /\
      add_seconds now (cooldown_sec rule) = Ret u /\
      state_cache p' !! tenant_id event = Some (<[cooldown_key rule fl := u]> (retain_active now c))
  | None => event_indicators p event = None \/
      exists rules fl c, event_indicators p event = Some (rules, fl) /\
        tenant_cooldowns p db (tenant_id event) = Ret c /\
        Forall (fun x => passes fl (retain_active now c) now x = false) rules
  end.
Proof.
  intros Hp. destruct r as [d|].
  - apply process_event_inv in Hp as (_ & _ & [[_ Hd]|(rules & fl & c & Hi & Hc & _ & Hd)]);
      [by destruct (Hd d)|]. destruct (Hd d eq_refl) as (b & r & a & u & -> & ? & ? & ? & ? & ?).
    by exists b, r, a, fl, c, u.
  - unfold process_event in Hp. destruct (event_indicators p event) as [[rules fl]|]; [right|by left].
    destruct (tenant_cooldowns p db (tenant_id event)) as [c|?|]; [|done..].
    exists rules, fl, c. split_and!; try done.
    apply try_rules_fire in Hp as [(_ & _ & _ & ?)|(b & r & a & -> & _ & _ & Hf)]; [done|].
    unfold fire in Hf. destruct (add_seconds _ _); [|done..]. by destruct (cooldowns_to_value _).
Qed.
End proofs.

(** ** Concrete runs *)
#[local] Existing Instance chrono_Z.
#[local] Existing Instance serde_json_tree.
#[local] Existing Instance canonical_order.
#[local] Existing Instance tables_store.

Definition cooldowns_to_json (m : gmap string instant) : outcome json :=
  Ret (JObject (time_to_json <$> m)).
Definition cooldowns_of_json (v : json) : option (gmap string instant) :=
  match v with JObject m => Some (omap json_time m) | _ => None end.
Lemma cooldowns_json_roundtrip m v :
  cooldowns_to_json m = Ret v -> cooldowns_of_json v = Some m.
Proof.
  intros [= <-]. simpl. f_equal. apply map_eq. intros k. rewrite lookup_omap, lookup_fmap.
  destruct (m !! k) as [t|]; [|done]. apply json_time_roundtrip.
Qed.
#[local] Instance flash_codec_json : FlashLoanCodec :=
  {| cooldowns_to_value := cooldowns_to_json; cooldowns_from_value := cooldowns_of_json;
     cooldowns_roundtrip := cooldowns_json_roundtrip |}.

Definition flash_event : UnifiedEvent :=
  {| event_id := "e"; tenant_id := "acme"; source_id := "s"; source_type := EvmChain;
     event_type := "flash_loan"; timestamp := sec 10;
     payload := VObj [ ("loan_amount_usd", JInt 250000); ("profit_usd", JInt 5000);
                       ("attacker_address", JString "0xabc") ]%string;
     chain_id := None; block_number := None; tx_hash := None; market_key := None; price := None |}.
Definition default_rule : FlashLoanRule := default_flash_rule "flash-default" "Default Flash Loan Rule".
Definition sample_pattern : FlashLoanPattern :=
  reload_config FlashLoanPattern_default {[ ("acme", PATTERN_ID)%string := VObj [] ]}.
Definition start : FlashLoanPattern * Db := (sample_pattern, (empty_tables : PatternTables)).
Definition at_time (t : Z) : timed_event := (flash_event, sec t, ("u1", "u2")%string).
(** five sightings of one attacker; the cooldown is 300 seconds *)
Definition sightings : list timed_event := at_time <$> [10; 20; 309; 310; 700].
Definition acme_alerts : list DateTime :=
  alert_times (Some "acme", [rule_tag default_rule], Some "0xabc")%string (fired start sightings).
Lemma flash_alerts_spaced_witness :
  ns <$> acme_alerts = [10000000000; 310000000000; 700000000000] /\
  StronglySorted (fun a b => ns a + 300 * 1000000000 <= ns b) acme_alerts.
Proof.
  split; [reflexivity|].
  apply (flash_alerts_spaced start sightings "acme" default_rule "0xabc" 300).
  - unfold sightings, in_order. repeat constructor; discriminate.
  - intros rules r Hr Hin _. assert (Hc : configs start.1 !! "acme"%string = Some [default_rule])
      by reflexivity. rewrite Hc in Hr. injection Hr as <-.
    apply list_elem_of_singleton in Hin as ->. discriminate.
Defined.
Lemma flash_first_rule_fires_witness :
  exists d, (process_event start.1 flash_event (sec 10) start.2 ("u1", "u2")%string).2 = Ret (Some d) /\
    exists before rule after fl,
      event_indicators start.1 flash_event = Some (before ++ rule :: after, fl).
Proof.
  destruct (process_event start.1 flash_event (sec 10) start.2 ("u1", "u2")%string)
    as [[p' db'] [[d|]|e|]] eqn:He;
    [|apply (f_equal (fun x => match x.2 with Ret (Some _) => true | _ => false end)) in He;
      vm_compute in He; discriminate..].
  exists d. split; [reflexivity|].
  destruct (flash_first_rule_fires start.1 flash_event (sec 10) start.2 ("u1", "u2")%string p' db'
    (Some d) He) as (b & r & a & fl & _ & _ & Hi & _). exists b, r, a, fl. exact Hi.
Defined.
