(* ===== verification/TvlDrop.v ===== *)
(** * TVL drops: rules and evaluation ([apps/detector/src/patterns/tvl_drop.rs])

    The rules of a tenant and their parsing, the window analysis of the TVL
    samples of one rule and subject, the severity it gives, and the transition
    and next state that follow from it. *)
From stdpp Require Import strings.
From S2P Require Import Prelude F64 Text Numbers Ports EventSchema.

Definition DEFAULT_FAST_DROP_PCT : f64 := f64_of_Z 20.
Definition DEFAULT_FAST_WINDOW_MINUTES : Z := 10.
Definition DEFAULT_SLOW_DROP_PCT : f64 := f64_of_Z 35.
Definition DEFAULT_SLOW_WINDOW_MINUTES : Z := 60.
Definition DEFAULT_VELOCITY_CRITICAL_PCT : f64 := f64_of_Z 15.
Definition DEFAULT_VELOCITY_WINDOW_MINUTES : Z := 2.
Definition DEFAULT_CONCURRENT_WINDOW_MINUTES : Z := 5.
Definition DEFAULT_MIN_TVL_FLOOR_USD : f64 := f64_of_Z 1000000.
Definition FAST_CRITICAL_WINDOW_MINUTES : f64 := f64_of_Z 5.
Definition CLIFF_WINDOW_MINUTES : f64 := f64_lit 1 10.
Definition LINEAR_WINDOW_UPPER_BOUND_MINUTES : f64 := f64_of_Z 8.

Record TvlDropRule := {
  rule_id : string;
  rule_protocol_id : string;
  rule_chain_slug : string;
  scope : string;
  rule_market_id : option string;
  fast_drop_pct : f64;
  fast_window_minutes : Z;
  slow_drop_pct : f64;
  slow_window_minutes : Z;
  velocity_critical_pct : f64;
  velocity_critical_minutes : Z;
  concurrent_window_minutes : Z;
  min_tvl_floor_usd : f64;
  enabled : bool;
  contagion_enabled : bool
}.

Definition validate (r : TvlDropRule) : outcome unit :=
  if is_empty (trim (rule_id r)) then Err "rule_id must be non-empty"
  else if is_empty (trim (rule_protocol_id r)) then Err "protocol_id must be non-empty"
  else if is_empty (trim (rule_chain_slug r)) then Err "chain_slug must be non-empty"
  else if f64_le (fast_drop_pct r) f64_zero || f64_le (slow_drop_pct r) f64_zero
          || f64_le (velocity_critical_pct r) f64_zero then Err "drop thresholds must be > 0"
  else if (fast_window_minutes r <=? 0) || (slow_window_minutes r <=? 0)
          || (velocity_critical_minutes r <=? 0) || (concurrent_window_minutes r <=? 0) then
    Err "window minutes must be > 0"
  else if f64_lt (min_tvl_floor_usd r) f64_zero then Err "min_tvl_floor_usd must be >= 0"
  else if bool_decide (scope r = "market") && is_empty (trim (default "" (rule_market_id r))) then
    Err "market scope requires market_id"
  else Ret ().

Definition normalized_scope (r : TvlDropRule) : string :=
  if eq_ignore_ascii_case (scope r) "market" then "market" else "protocol".
Definition is_market_scope (r : TvlDropRule) : bool := bool_decide (normalized_scope r = "market").
Definition matches (r : TvlDropRule) (protocol_id chain_slug : string) (market_id : option string)
  : bool :=
  if negb (eq_ignore_ascii_case (rule_protocol_id r) protocol_id) then false
  else if negb (eq_ignore_ascii_case (rule_chain_slug r) chain_slug) then false
  else if is_market_scope r then
    eq_ignore_ascii_case (default "" (rule_market_id r)) (default "" market_id)
  else true.
(** (subject type, subject key, protocol key) *)
Definition subject_for_event (r : TvlDropRule) (market_id : option string)
  : option (string * string * string) :=
  let protocol_key :=
    to_ascii_lowercase (rule_protocol_id r) +:+ ":" +:+ to_ascii_lowercase (rule_chain_slug r) in
  if is_market_scope r then
    market ← trimmed_nonempty (match rule_market_id r with Some m => Some m | None => market_id end);
    Some ("market", protocol_key +:+ ":" +:+ to_ascii_lowercase market, protocol_key)
  else Some ("protocol", protocol_key, protocol_key).

(** ** Severities *)

Definition severity_from_str (v : option string) : option Severity :=
  match v with
  | Some v =>
      if eq_ignore_ascii_case v "critical" then Some Critical
      else if eq_ignore_ascii_case v "high" then Some High
      else if eq_ignore_ascii_case v "medium" then Some Medium
      else if eq_ignore_ascii_case v "low" then Some Low
      else if eq_ignore_ascii_case v "info" then Some Info
      else None
  | None => None
  end.
Definition severity_rank (v : option Severity) : Z :=
  match v with
  | Some Critical => 5 | Some High => 4 | Some Medium => 3 | Some Low => 2 | Some Info => 1
  | None => 0
  end.
Definition clamp_severity (current : Severity) (previous : option Severity) : Severity :=
  match previous with
  | Some prev => if severity_rank (Some current) <? severity_rank (Some prev) then prev else current
  | None => current
  end.
Definition context_classification_str (c : ContextClassification) : string :=
  match c with Isolated => "isolated" | Systemic => "systemic" | NoContext => "none" end.

Section evaluation.
Context `{Chrono}.

Record TvlSamplePoint := { point_at : DateTime; point_tvl : f64 }.
Record TvlRuleState := {
  ts_samples : list TvlSamplePoint;
  ts_last_severity : option string;
  ts_last_drop_pct : option f64;
  ts_active_since : option DateTime;
  ts_last_breach_at : option DateTime;
  ts_last_transition_at : option DateTime;
  ts_last_context : option string;
  ts_last_pause_state : option bool;
  ts_protocol_chain_key : option string;
  ts_tenant_has_deposit : option bool;
  ts_position_data_stale : option bool
}.
Definition TvlRuleState_default : TvlRuleState :=
  {| ts_samples := []; ts_last_severity := None; ts_last_drop_pct := None; ts_active_since := None;
     ts_last_breach_at := None; ts_last_transition_at := None; ts_last_context := None;
     ts_last_pause_state := None; ts_protocol_chain_key := None; ts_tenant_has_deposit := None;
     ts_position_data_stale := None |}.

(** ** Windows *)

Record WindowAnalysis := {
  reference_tvl_usd : option f64;
  current_tvl_usd : option f64;
  drop_pct : f64;
  time_to_reach : option f64
}.
Definition WindowAnalysis_default : WindowAnalysis :=
  {| reference_tvl_usd := None; current_tvl_usd := None; drop_pct := f64_zero; time_to_reach := None |}.
Definition minutes_between (a b : DateTime) : f64 :=
  f64_div (f64_of_Z (secs_between a b)) (f64_of_Z 60).
(** [((from - to).max(0.0) / from * 100.0).max(0.0)] *)
Definition relative_drop (from to : f64) : f64 :=
  f64_max (f64_mul (f64_div (f64_max (f64_sub from to) f64_zero) from) (f64_of_Z 100)) f64_zero.
Definition window_points (samples : list TvlSamplePoint) (cutoff : DateTime) : list TvlSamplePoint :=
  filter (fun p => dt_le cutoff (point_at p) = true) samples.
Definition analyze_points (points : list TvlSamplePoint) : WindowAnalysis :=
  match head points, last points with
  | Some first, Some lst =>
      if negb (is_finite (point_tvl first)) || f64_le (point_tvl first) f64_zero then
        WindowAnalysis_default
      else
        {| reference_tvl_usd := Some (point_tvl first); current_tvl_usd := Some (point_tvl lst);
           drop_pct := relative_drop (point_tvl first) (point_tvl lst);
           time_to_reach :=
             (fun p => minutes_between (point_at p) (point_at first)) <$>
             find_map (fun p => if f64_le (point_tvl p) (point_tvl lst) then Some p else None) points |}
  | _, _ => WindowAnalysis_default
  end.
Definition analyze_window (samples : list TvlSamplePoint) (now : DateTime) (minutes : Z)
  : outcome WindowAnalysis :=
  match samples with
  | [] => Ret WindowAnalysis_default
  | _ => cutoff ← sub_minutes now (Z.max minutes 1); Ret (analyze_points (window_points samples cutoff))
  end.
Definition one_minute_drop (acc : f64) (pair : TvlSamplePoint * TvlSamplePoint) : f64 :=
  let '(previous, current) := pair in
  let elapsed := secs_between (point_at current) (point_at previous) in
  if (elapsed <=? 0) || (60 <? elapsed) || f64_le (point_tvl previous) f64_zero then acc
  else let d := relative_drop (point_tvl previous) (point_tvl current) in
       if f64_lt acc d then d else acc.
Definition max_one_minute_drop_pct (samples : list TvlSamplePoint) (now : DateTime) (minutes : Z)
  : outcome f64 :=
  cutoff ← sub_minutes now (Z.max minutes 1);
  Ret (foldl one_minute_drop f64_zero (windows2 (window_points samples cutoff))).
Definition classify_velocity_pattern (fast max_one_minute : f64) (time_to_reach : option f64)
  : option string :=
  if f64_le fast f64_zero then None
  else
    minutes ← time_to_reach;
    if f64_lt minutes CLIFF_WINDOW_MINUTES then Some "CLIFF"
    else if f64_lt (f64_div fast (f64_of_Z 2)) max_one_minute then Some "ACCELERATING"
    else if f64_le minutes LINEAR_WINDOW_UPPER_BOUND_MINUTES then Some "LINEAR"
    else Some "DECELERATING".

(** ** Evaluation of a sample *)

Record TvlEvaluation := {
  te_fast_drop_pct : f64;
  te_slow_drop_pct : f64;
  te_velocity_drop_pct : f64;
  te_selected_drop_pct : f64;
  te_reference_tvl_usd : option f64;
  te_time_to_reach : option f64;
  te_drain_rate_usd_per_min : option f64;
  te_time_to_empty_minutes : option f64;
  te_velocity_pattern : option string;
  te_base_severity : option Severity;
  te_breached_branches : list string;
  te_deposit_gate_skipped : bool;
  te_position_data_stale : bool
}.
Definition has_deposit (st : TvlRuleState) : bool :=
  match ts_tenant_has_deposit st, ts_position_data_stale st with
  | Some false, Some true => true
  | Some false, _ => false
  | _, _ => true
  end.
Definition reached_within (t : option f64) (minutes : f64) : bool :=
  match t with Some m => f64_lt m minutes | None => false end.
(** the severity and the branches breached *)
Definition base_severity_of (r : TvlDropRule) (deposit : bool) (tvl : f64) (fast : WindowAnalysis)
    (slow_drop : f64) : option Severity * list string :=
  if deposit && f64_le (min_tvl_floor_usd r) (default tvl (reference_tvl_usd fast)) then
    if f64_le (velocity_critical_pct r) (drop_pct fast)
       && reached_within (time_to_reach fast) (f64_of_Z (velocity_critical_minutes r)) then
      (Some Critical, ["velocity"%string])
    else if f64_le (fast_drop_pct r) (drop_pct fast) then
      (if reached_within (time_to_reach fast) FAST_CRITICAL_WINDOW_MINUTES
       then Some Critical else Some High, ["fast"%string])
    else if f64_le (slow_drop_pct r) slow_drop then (Some High, ["slow"%string])
    else (None, [])
  else (None, []).
Definition drain_rate (w : WindowAnalysis) : option f64 :=
  match reference_tvl_usd w, current_tvl_usd w, time_to_reach w with
  | Some reference, Some current, Some minutes =>
      if f64_lt current reference && is_finite minutes && f64_lt f64_zero minutes
      then Some (f64_div (f64_sub reference current) minutes) else None
  | _, _, _ => None
  end.
Definition time_to_empty (w : WindowAnalysis) (rate : option f64) : option f64 :=
  match current_tvl_usd w, rate with
  | Some current, Some rate =>
      if f64_lt f64_zero current && f64_lt f64_zero rate then Some (f64_div current rate) else None
  | _, _ => None
  end.

Definition set_tsamples (st : TvlRuleState) (l : list TvlSamplePoint) : TvlRuleState :=
  {| ts_samples := l; ts_last_severity := ts_last_severity st; ts_last_drop_pct := ts_last_drop_pct st;
     ts_active_since := ts_active_since st; ts_last_breach_at := ts_last_breach_at st;
     ts_last_transition_at := ts_last_transition_at st; ts_last_context := ts_last_context st;
     ts_last_pause_state := ts_last_pause_state st;
     ts_protocol_chain_key := ts_protocol_chain_key st;
     ts_tenant_has_deposit := ts_tenant_has_deposit st;
     ts_position_data_stale := ts_position_data_stale st |}.
Definition point_le (a b : TvlSamplePoint) : bool := dt_le (point_at a) (point_at b).
Definition max_window (r : TvlDropRule) : Z :=
  Z.max (Z.max (fast_window_minutes r) (slow_window_minutes r))
        (Z.max (velocity_critical_minutes r) (concurrent_window_minutes r)).
Definition process_state_sample (r : TvlDropRule) (st : TvlRuleState) (tvl : f64) (now : DateTime)
  : outcome (TvlRuleState * TvlEvaluation) :=
  let sorted := sort_by point_le (ts_samples st ++ [ {| point_at := now; point_tvl := tvl |} ]) in
  cutoff ← sub_minutes now (Z.max (max_window r) 1);
  let samples := window_points sorted cutoff in
  fast ← analyze_window samples now (fast_window_minutes r);
  slow ← analyze_window samples now (slow_window_minutes r);
  velocity ← max_one_minute_drop_pct samples now (fast_window_minutes r);
  let rate := drain_rate fast in
  let base := base_severity_of r (has_deposit st) tvl fast (drop_pct slow) in
  Ret (set_tsamples st samples,
       {| te_fast_drop_pct := drop_pct fast; te_slow_drop_pct := drop_pct slow;
          te_velocity_drop_pct := velocity;
          te_selected_drop_pct := f64_max (drop_pct fast) (drop_pct slow);
          te_reference_tvl_usd := reference_tvl_usd fast; te_time_to_reach := time_to_reach fast;
          te_drain_rate_usd_per_min := rate; te_time_to_empty_minutes := time_to_empty fast rate;
          te_velocity_pattern := classify_velocity_pattern (drop_pct fast) velocity (time_to_reach fast);
          te_base_severity := base.1; te_breached_branches := base.2;
          te_deposit_gate_skipped := negb (has_deposit st);
          te_position_data_stale := default false (ts_position_data_stale st) |}).

(** ** Transition and next state *)

(** severity and classification; [systemic] is asked for only when a rule breaches *)
Definition decide_severity (base : option Severity) (systemic : bool) (previous : option Severity)
  : Severity * ContextClassification :=
  match base with
  | Some s =>
      let '(s, c) := if systemic then (Critical, Systemic) else (s, Isolated) in
      (clamp_severity s previous, c)
  | None => (Info, NoContext)
  end.
Definition decide_transition (st : TvlRuleState) (ev : TvlEvaluation) (sev : Severity)
    (c : ContextClassification) : option IncidentTransition :=
  match te_base_severity ev with
  | None => None
  | Some _ =>
      match severity_from_str (ts_last_severity st) with
      | None => Some Trigger
      | Some prev =>
          if severity_rank (Some prev) <? severity_rank (Some sev) then Some Escalate
          else if f64_le (f64_add (default f64_zero (ts_last_drop_pct st)) (f64_of_Z 1))
                    (te_selected_drop_pct ev)
                  || negb (bool_decide (default "isolated"%string (ts_last_context st) =
                                        context_classification_str c))
          then Some Update else None
      end
  end.
Definition next_tvl_state (st : TvlRuleState) (ev : TvlEvaluation) (sev : Severity)
    (c : ContextClassification) (tr : option IncidentTransition) (now : DateTime) : TvlRuleState :=
  match te_base_severity ev with
  | Some _ =>
      {| ts_samples := ts_samples st; ts_last_severity := Some (severity_lower sev);
         ts_last_drop_pct := Some (te_selected_drop_pct ev);
         ts_active_since := match ts_active_since st with Some t => Some t | None => Some now end;
         ts_last_breach_at := Some now;
         ts_last_transition_at := match tr with Some _ => Some now | None => ts_last_transition_at st end;
         ts_last_context := Some (context_classification_str c);
         ts_last_pause_state := ts_last_pause_state st;
         ts_protocol_chain_key := ts_protocol_chain_key st;
         ts_tenant_has_deposit := ts_tenant_has_deposit st;
         ts_position_data_stale := ts_position_data_stale st |}
  | None =>
      {| ts_samples := ts_samples st; ts_last_severity := ts_last_severity st;
         ts_last_drop_pct := Some (te_selected_drop_pct ev); ts_active_since := ts_active_since st;
         ts_last_breach_at := ts_last_breach_at st;
         ts_last_transition_at := ts_last_transition_at st; ts_last_context := ts_last_context st;
         ts_last_pause_state := ts_last_pause_state st;
         ts_protocol_chain_key := ts_protocol_chain_key st;
         ts_tenant_has_deposit := ts_tenant_has_deposit st;
         ts_position_data_stale := ts_position_data_stale st |}
  end.
End evaluation.
