(* ===== verification/TvlDropPattern.v ===== *)
(** * The TVL-drop pattern ([apps/detector/src/patterns/tvl_drop.rs], [TvlDropPattern])

    Rule parsing, events, concurrent drops over the tenant's cached states, the
    detections built and [process_event] as a computation over the pattern and
    the database.  Parameters: the derived codec of the rule state, the UUIDs
    drawn for the i-th matching rule, hash-map order.  Logging is left out. *)
From stdpp Require Import strings.
From S2P Require Import Prelude F64 Text Numbers Ports EventSchema PatternCommon CachePrune TvlDrop.

Definition PATTERN_ID : string := "tvl_drop".
Definition TVL_DROP_STATE_CACHE_TTL_HOURS : Z := 24.
Definition TVL_DROP_STATE_CACHE_MAX_ENTRIES : nat := 4096.

(** a float that is not finite is written as [null]: a sample does not read it
    back, an optional field reads as absent *)
Definition finite_tvl_state `{Chrono} (st : TvlRuleState) : Prop :=
  Forall (fun p => is_finite (point_tvl p) = true) (ts_samples st) /\
  forall x, ts_last_drop_pct st = Some x -> is_finite x = true.
Class TvlCodec `{Chrono} `{SerdeJson} := {
  tstate_to_value : TvlRuleState -> outcome Value;
  tstate_from_value : Value -> option TvlRuleState;
  tstate_roundtrip : forall st v, finite_tvl_state st ->
    tstate_to_value st = Ret v -> tstate_from_value v = Some st
}.

Section pattern.
Context `{Chrono} `{SerdeJson} `{HashOrder} `{!TvlCodec} `{!PatternStore}.
Notation object := (gmap string Value).

(** ** Configuration *)

Definition value_string (v : option Value) (fallback : string) : string :=
  default fallback (trimmed_nonempty (v ≫= as_str)).
Definition value_to_f64 (v : Value) : option f64 :=
  match as_f64 v with Some x => Some x | None => text ← as_str v; parse_f64 (trim text) end.
Definition value_f64 (v : option Value) (fallback : f64) : f64 := default fallback (v ≫= value_to_f64).
Definition value_i64 (v : option Value) : option Z :=
  match v ≫= as_i64 with
  | Some n => Some n
  | None =>
      match v ≫= as_u64 with
      | Some n => Some (wrap_i64 n)
      | None => text ← v ≫= as_str; parse_i64 (trim text)
      end
  end.
Definition value_window_minutes (minutes seconds : option Value) (fallback : Z) : Z :=
  match value_i64 minutes with
  | Some n => Z.max n 1
  | None =>
      match value_i64 seconds with
      | Some n => Z.max (Z.quot (wrap_i64 (n + 59)) 60) 1
      | None => Z.max fallback 1
      end
  end.
(** [a.get(k).or_else(|| b.get(k'))] *)
Definition get_or (a : object) (k : string) (b : object) (k' : string) : option Value :=
  match a !! k with Some v => Some v | None => b !! k' end.
Definition sub_object (k : string) (m : object) : object :=
  default ∅ (v ← m !! k; as_object v).
Definition str_field (k : string) (m : object) : option string := v ← m !! k; as_str v.
Definition bool_field (k : string) (m : object) : option bool := v ← m !! k; as_bool v.
(** empty and "all" mean no market *)
Definition market_filter (s : string) : option string :=
  if is_empty s || eq_ignore_ascii_case s "all" then None else Some s.
Definition inferred_scope (o : object) (market : option string) : string :=
  match (s ← str_field "scope" o; let s := to_ascii_lowercase (trim s) in
         if bool_decide (s = "market"%string) || bool_decide (s = "protocol"%string) then Some s else None) with
  | Some s => s
  | None => match market with Some _ => "market" | None => "protocol" end
  end.
Definition tvl_rule_of (o : object) (index : nat) : TvlDropRule :=
  let scope_obj := sub_object "scope" o in
  let thresholds := sub_object "thresholds" o in
  let contagion := sub_object "contagion" o in
  let market_value : option string :=
    s ← (match str_field "market_id" scope_obj with
         | Some s => Some s
         | None => str_field "market_id" o
         end); market_filter (trim s) in
  let sc := inferred_scope o market_value in
  let threshold k := get_or thresholds k o k in
  {| rule_id := value_string (o !! "rule_id"%string) ("tvl-rule-" +:+ fmt_Z (Z.of_nat index + 1));
     rule_protocol_id :=
       to_ascii_lowercase (value_string (get_or scope_obj "protocol_id" o "protocol_id") "aave_v3");
     rule_chain_slug :=
       to_ascii_lowercase (value_string (get_or scope_obj "chain_slug" o "chain_slug") "base");
     scope := sc;
     rule_market_id :=
       if bool_decide (sc = "protocol"%string) then None else to_ascii_lowercase <$> market_value;
     fast_drop_pct := value_f64 (threshold "fast_drop_pct"%string) DEFAULT_FAST_DROP_PCT;
     fast_window_minutes :=
       value_window_minutes (threshold "fast_window_minutes"%string)
         (threshold "fast_window_sec"%string) DEFAULT_FAST_WINDOW_MINUTES;
     slow_drop_pct := value_f64 (threshold "slow_drop_pct"%string) DEFAULT_SLOW_DROP_PCT;
     slow_window_minutes :=
       value_window_minutes (threshold "slow_window_minutes"%string)
         (threshold "slow_window_sec"%string) DEFAULT_SLOW_WINDOW_MINUTES;
     velocity_critical_pct :=
       value_f64 (threshold "velocity_critical_pct"%string) DEFAULT_VELOCITY_CRITICAL_PCT;
     velocity_critical_minutes :=
       value_window_minutes (threshold "velocity_critical_minutes"%string)
         (threshold "velocity_window_sec"%string) DEFAULT_VELOCITY_WINDOW_MINUTES;
     concurrent_window_minutes :=
       value_window_minutes (get_or o "concurrent_window_minutes" thresholds "concurrent_window_minutes")
         (get_or contagion "overlap_window_sec" o "concurrent_window_sec")
         DEFAULT_CONCURRENT_WINDOW_MINUTES;
     min_tvl_floor_usd :=
       value_f64 (get_or o "min_tvl_floor_usd" thresholds "min_tvl_floor_usd") DEFAULT_MIN_TVL_FLOOR_USD;
     enabled := default true (bool_field "enabled" o);
     contagion_enabled :=
       default true (match bool_field "enabled" contagion with
                     | Some b => Some b
                     | None => bool_field "contagion_enabled" o
                     end) |}.
Definition default_tvl_drop_rule (id : string) : TvlDropRule :=
  {| rule_id := id; rule_protocol_id := "aave_v3"; rule_chain_slug := "base"; scope := "protocol";
     rule_market_id := None; fast_drop_pct := DEFAULT_FAST_DROP_PCT;
     fast_window_minutes := DEFAULT_FAST_WINDOW_MINUTES; slow_drop_pct := DEFAULT_SLOW_DROP_PCT;
     slow_window_minutes := DEFAULT_SLOW_WINDOW_MINUTES;
     velocity_critical_pct := DEFAULT_VELOCITY_CRITICAL_PCT;
     velocity_critical_minutes := DEFAULT_VELOCITY_WINDOW_MINUTES;
     concurrent_window_minutes := DEFAULT_CONCURRENT_WINDOW_MINUTES;
     min_tvl_floor_usd := DEFAULT_MIN_TVL_FLOOR_USD; enabled := true; contagion_enabled := true |}.
Definition valid_rule (ir : nat * Value) : option TvlDropRule :=
  o ← as_object ir.2;
  let r := tvl_rule_of o ir.1 in
  match validate r with Ret _ => Some r | _ => None end.
Definition parse_tvl_drop_rules (config : Value) : list TvlDropRule :=
  match vget "rules" config ≫= as_array with
  | None => [default_tvl_drop_rule "tvl-default"]
  | Some items =>
      match omap valid_rule (imap pair items) with
      | [] => [default_tvl_drop_rule "tvl-default"]
      | rules => rules
      end
  end.

(** ** Events *)

Record TvlStateEvent := {
  se_protocol_id : string;
  se_chain_slug : string;
  se_market_id : option string;
  se_tvl_usd : f64;
  se_block_number : Z;
  se_tx_hash : option string
}.
Record TvlPauseEvent := {
  pe_protocol_id : string;
  pe_chain_slug : string;
  pe_market_id : option string;
  pe_paused : bool;
  pe_block_number : Z;
  pe_tx_hash : option string
}.
Definition chain_slug_from_chain_id (id : option Z) : option string :=
  match id with
  | Some n =>
      if n =? 1 then Some "ethereum" else if n =? 42161 then Some "arbitrum"
      else if n =? 10 then Some "optimism" else if n =? 8453 then Some "base"
      else if n =? 137 then Some "polygon" else if n =? 43114 then Some "avalanche"
      else if n =? 56 then Some "bsc" else None
  | None => None
  end.
Definition chain_from_slug (s : string) : Chain :=
  if bool_decide (s = "ethereum") || bool_decide (s = "mainnet") then Ethereum
  else if bool_decide (s = "arbitrum") then Arbitrum
  else if bool_decide (s = "optimism") then Optimism
  else if bool_decide (s = "base") then Base
  else if bool_decide (s = "polygon") then Polygon
  else if bool_decide (s = "avalanche") then Avalanche
  else if bool_decide (s = "bsc") || bool_decide (s = "bnb") then BSC
  else UnknownChain.
Definition event_protocol (m : object) : option string :=
  v ← get_or m "protocol_id" m "protocol"; s ← as_str v; Some (to_ascii_lowercase (trim s)).
Definition event_chain (event : UnifiedEvent) (m : object) : string :=
  match (s ← str_field "chain_slug" m; let s := to_ascii_lowercase (trim s) in
         if is_empty s then None else Some s) with
  | Some s => s
  | None => default "unknown" (chain_slug_from_chain_id (chain_id event))
  end.
Definition event_market (m : object) : option string :=
  s ← str_field "market_id" m; s ← market_filter (trim s); Some (to_ascii_lowercase s).
Definition event_block (event : UnifiedEvent) (m : object) : Z :=
  default 0 (match block_number event with
             | Some b => Some b
             | None => v ← m !! "block_number"%string; as_i64 v
             end).
Definition event_tx (event : UnifiedEvent) (m : object) : option string :=
  match tx_hash event with Some h => Some h | None => str_field "tx_hash" m end.
Definition parse_tvl_state_event (event : UnifiedEvent) : option TvlStateEvent :=
  if negb (bool_decide (event_type event = "protocol_state"%string)
           || bool_decide (event_type event = "protocol_tvl"%string)) then None
  else
    m ← as_object (payload event);
    protocol_id ← event_protocol m;
    tvl ← get_or m "tvl_usd" m "tvl" ≫= value_to_f64;
    if negb (is_finite tvl && f64_lt f64_zero tvl) then None
    else Some {| se_protocol_id := protocol_id; se_chain_slug := event_chain event m;
                 se_market_id := event_market m; se_tvl_usd := tvl;
                 se_block_number := event_block event m; se_tx_hash := event_tx event m |}.
Definition inferred_pause_state (type : string) : option bool :=
  if bool_decide (type = "protocol_pause") || bool_decide (type = "protocol_paused") then Some true
  else if bool_decide (type = "protocol_unpause") || bool_decide (type = "protocol_unpaused") then
    Some false
  else None.
Definition parse_tvl_pause_event (event : UnifiedEvent) : option TvlPauseEvent :=
  m ← as_object (payload event);
  protocol_id ← event_protocol m;
  paused ← (match inferred_pause_state (event_type event) with
            | Some b => Some b
            | None => match bool_field "paused" m with
                      | Some b => Some b
                      | None => bool_field "is_paused" m
                      end
            end);
  Some {| pe_protocol_id := protocol_id; pe_chain_slug := event_chain event m;
          pe_market_id := event_market m; pe_paused := paused;
          pe_block_number := event_block event m; pe_tx_hash := event_tx event m |}.

(** ** The pattern *)

Record TvlDropPattern := {
  configs : gmap string (list TvlDropRule);
  state_cache : gmap string TvlRuleState;
  source_bindings : gmap string (gset string)
}.
Definition TvlDropPattern_default : TvlDropPattern :=
  {| configs := ∅; state_cache := ∅; source_bindings := ∅ |}.
Definition load_state_key (rule_id subject_key : string) : string := rule_id +:+ ":" +:+ subject_key.
Definition cache_key (tenant key : string) : string := tenant +:+ ":" +:+ key.

(** [Iterator::max] of the dates present *)
Definition latest_of (l : list (option DateTime)) : option DateTime :=
  foldl (fun acc t => match acc, t with
                      | Some a, Some b => Some (dt_max a b)
                      | Some a, None => Some a
                      | None, _ => t
                      end) None l.
Definition tvl_state_last_activity (st : TvlRuleState) : option DateTime :=
  latest_of [ point_at <$> last (ts_samples st); ts_last_transition_at st; ts_last_breach_at st;
              ts_active_since st ].
Definition prune_state_cache (cache : gmap string TvlRuleState) (now : DateTime) (current : string)
  : outcome (gmap string TvlRuleState) :=
  prune_cache tvl_state_last_activity TVL_DROP_STATE_CACHE_MAX_ENTRIES
    (TVL_DROP_STATE_CACHE_TTL_HOURS * 60) cache now current.
Definition reload_entry (acc : TvlDropPattern) (entry : (string * string) * Value) : TvlDropPattern :=
  let '((tenant, pattern), config) := entry in
  if negb (bool_decide (pattern = PATTERN_ID)) then acc
  else {| configs := <[tenant := parse_tvl_drop_rules (extract_detection_config config)]> (configs acc);
          state_cache := state_cache acc;
          source_bindings :=
            match extract_bound_source_ids config with
            | Some bound => <[tenant := bound]> (source_bindings acc)
            | None => source_bindings acc
            end |}.
Definition reload_config (p : TvlDropPattern) (config_map : gmap (string * string) Value)
  : TvlDropPattern :=
  foldl reload_entry {| configs := ∅; state_cache := state_cache p; source_bindings := ∅ |}
    (hash_entries config_map).

(** the markets of the protocol the tenant monitors with other rules *)
Definition at_risk (protocol_id chain_slug : string) (current : option string) (r : TvlDropRule)
  : option string :=
  if enabled r && eq_ignore_ascii_case (rule_protocol_id r) protocol_id
     && eq_ignore_ascii_case (rule_chain_slug r) chain_slug && is_market_scope r then
    market ← rule_market_id r;
    if match current with None => true | Some c => negb (eq_ignore_ascii_case market c) end then
      Some (to_ascii_lowercase (rule_protocol_id r) +:+ ":" +:+
            to_ascii_lowercase (rule_chain_slug r) +:+ ":" +:+ to_ascii_lowercase market)
    else None
  else None.
Definition find_at_risk_markets (p : TvlDropPattern) (tenant protocol_id chain_slug : string)
    (current : option string) : list string :=
  omap (at_risk protocol_id chain_slug current) (default [] (configs p !! tenant)).

(** another active drop of the tenant, recent and on another protocol *)
Definition drop_protocol (tenant current : string) (cutoff : DateTime)
    (kv : string * TvlRuleState) : option string :=
  if bool_decide (kv.1 = current) then None
  else if negb (starts_with kv.1 (tenant +:+ ":")) then None
  else if negb (bool_decide (is_Some (ts_last_severity kv.2))) then None
  else
    breach ← ts_last_breach_at kv.2;
    if dt_lt breach cutoff then None else ts_protocol_chain_key kv.2.
(** the loop with its early return *)
Fixpoint scan_protocols (tenant current : string) (cutoff : DateTime) (protocols : gset string)
    (entries : list (string * TvlRuleState)) : bool :=
  match entries with
  | [] => false
  | kv :: rest =>
      match drop_protocol tenant current cutoff kv with
      | None => scan_protocols tenant current cutoff protocols rest
      | Some key =>
          let protocols := {[ key ]} ∪ protocols in
          if (2 <=? size protocols)%nat then true
          else scan_protocols tenant current cutoff protocols rest
      end
  end.
Definition has_concurrent_active_drop (p : TvlDropPattern) (tenant current protocol_key : string)
    (now : DateTime) (minutes : Z) : outcome bool :=
  cutoff ← sub_minutes now (Z.max minutes 1);
  Ret (scan_protocols tenant current cutoff {[ protocol_key ]} (hash_entries (state_cache p))).

(** ** Detections *)

Definition VStr (o : option string) : Value := VOpt VString o.
Definition risk_score_of (s : Severity) : f64 :=
  f64_of_Z match s with Critical => 95 | High => 80 | Medium => 60 | Low => 30 | Info => 10 end.
Definition recommended_actions_for_severity (s : Severity) : list string :=
  match s with
  | Critical => [ "Activate incident playbook and halt high-risk protocol interactions.";
                  "Escalate to on-call and communicate exposure impact immediately.";
                  "Verify protocol pause controls and liquidity withdrawal options." ]
  | High => [ "Increase monitoring cadence and review wallet/protocol exposure.";
              "Prepare partial de-risk actions for affected markets." ]
  | _ => [ "Monitor trend and keep incident timeline updated." ]
  end.
Definition breached_branch (ev : TvlEvaluation) : string :=
  default "fast"%string (head (te_breached_branches ev)).
Definition breached_threshold (r : TvlDropRule) (branch : string) : f64 :=
  if bool_decide (branch = "velocity"%string) then velocity_critical_pct r
  else if bool_decide (branch = "slow"%string) then slow_drop_pct r
  else fast_drop_pct r.
Definition contagion_status (c : ContextClassification) : string :=
  match c with Systemic => "CONCURRENT_DROPS" | _ => "NONE" end.
Definition tvl_context (r : TvlDropRule) (ev : TvlEvaluation) (sample : TvlStateEvent)
    (tr : IncidentTransition) (c : ContextClassification) : gmap string Value :=
  let m : gmap string Value := list_to_map
    [ ("protocol_id", VString (se_protocol_id sample)); ("chain_slug", VString (se_chain_slug sample));
      ("market_id", VStr (se_market_id sample)); ("tvl_usd", VFloat (se_tvl_usd sample));
      ("current_tvl_usd", VFloat (se_tvl_usd sample));
      ("fast_window_reference_tvl_usd", VOpt VFloat (te_reference_tvl_usd ev));
      ("window_start_tvl_usd", VOpt VFloat (te_reference_tvl_usd ev));
      ("drop_pct", VFloat (te_selected_drop_pct ev));
      ("time_to_reach_current_drop_minutes", VOpt VFloat (te_time_to_reach ev));
      ("drain_rate_usd_per_min", VOpt VFloat (te_drain_rate_usd_per_min ev));
      ("estimated_time_to_empty_minutes", VOpt VFloat (te_time_to_empty_minutes ev));
      ("velocity_pattern", VStr (te_velocity_pattern ev));
      ("velocity_classification", VStr (te_velocity_pattern ev));
      ("breached_branches", VArray (VString <$> te_breached_branches ev));
      ("breached_threshold_branch", VString (breached_branch ev));
      ("breached_threshold_pct", VFloat (breached_threshold r (breached_branch ev)));
      ("transition", VString (transition_lower tr));
      ("contagion_status", VString (contagion_status c)) ]%string in
  if te_position_data_stale ev then <["position_data_stale"%string := VBool true]> m else m.
Definition detection_key (event : UnifiedEvent) (r : TvlDropRule) (key : string) : string :=
  "tvl_drop:" +:+ tenant_id event +:+ ":" +:+ rule_id r +:+ ":" +:+ key.
Definition block_of (event : UnifiedEvent) (block : Z) : Z :=
  if 0 <? block then block else default 0 (block_number event).
Definition hash_of (event : UnifiedEvent) (own : option string) (generated : string) : string :=
  match own with Some h => h | None => default generated (tx_hash event) end.

Definition build_tvl_detection (event : UnifiedEvent) (r : TvlDropRule) (subject : string * string)
    (sev : Severity) (tr : IncidentTransition) (c : ContextClassification) (now : DateTime)
    (ev : TvlEvaluation) (sample : TvlStateEvent) (risky : list string) (uuids : string * string)
  : DetectionResult :=
  let '(simulated, run_id) := simulation_metadata_from_event event in
  let fast := fmt_fixed 2 (te_fast_drop_pct ev) in
  let slow := fmt_fixed 2 (te_slow_drop_pct ev) in
  let velocity := fmt_fixed 2 (te_velocity_drop_pct ev) in
  let context := tvl_context r ev sample tr c in
  {| detection_id := uuids.1; pattern_id := PATTERN_ID;
     det_event_key := Some (detection_key event r subject.2);
     subject_type := Some subject.1; subject_key := Some subject.2;
     det_tenant_id := Some (tenant_id event); det_chain := chain_from_slug (se_chain_slug sample);
     det_chain_slug := se_chain_slug sample; protocol := se_protocol_id sample;
     det_lifecycle_state := Confirmed; requires_confirmation := false;
     attack_family := LiquidationCascade; severity := sev;
     description := Some ("TVL drop rule '" +:+ rule_id r +:+ "' triggered (fast=" +:+ fast +:+
       "%, slow=" +:+ slow +:+ "%, velocity=" +:+ velocity +:+ "%, current_tvl=$" +:+
       fmt_fixed 2 (se_tvl_usd sample) +:+ ").");
     triggered_rule_ids := ["tvl_drop." +:+ rule_id r];
     det_tx_hash := hash_of event (se_tx_hash sample) ("tvl-drop-" +:+ uuids.2);
     det_block_number := block_of event (se_block_number sample);
     signals := [ {| signal_type := if bool_decide ("velocity"%string ∈ te_breached_branches ev)
                                    then TvlVelocityDrop else TvlDropDetected;
                     signal_value := te_selected_drop_pct ev;
                     signal_label := Some (fmt_fixed 2 (te_selected_drop_pct ev) +:+ "% drop");
                     signal_source_id := Some (source_id event) |} ];
     risk_score :=
       {| score := risk_score_of sev; confidence := f64_lit 78 100;
          rationale := [ "fast=" +:+ fast +:+ ", slow=" +:+ slow +:+ ", velocity=" +:+ velocity;
                         "classification=" +:+ context_classification_str c ];
          attribution := [] |};
     incident_transition := Some tr; context_classification := Some c;
     confidence_breakdown :=
       list_to_map [ ("fast_drop_pct", te_fast_drop_pct ev); ("slow_drop_pct", te_slow_drop_pct ev);
                     ("velocity_drop_pct", te_velocity_drop_pct ev) ]%string;
     oracle_context :=
       match risky with
       | [] => context
       | _ => <["at_risk_markets"%string := VArray (VString <$> risky)]> context
       end;
     actions_recommended := recommended_actions_for_severity sev;
     is_simulated := simulated; simulation_run_id := run_id;
     detected_at := now; created_at := now |}.

Definition pause_label (pause : TvlPauseEvent) : string :=
  if pe_paused pause then "paused" else "unpaused".
Definition is_trigger (tr : IncidentTransition) : bool :=
  match tr with Trigger => true | _ => false end.
Definition build_pause_detection (event : UnifiedEvent) (r : TvlDropRule) (subject : string * string)
    (sev : Severity) (tr : IncidentTransition) (c : ContextClassification) (now : DateTime)
    (pause : TvlPauseEvent) (uuids : string * string) : DetectionResult :=
  let '(simulated, run_id) := simulation_metadata_from_event event in
  let label := pause_label pause in
  {| detection_id := uuids.1; pattern_id := PATTERN_ID;
     det_event_key := Some (detection_key event r subject.2 +:+ ":pause");
     subject_type := Some subject.1; subject_key := Some subject.2;
     det_tenant_id := Some (tenant_id event); det_chain := chain_from_slug (pe_chain_slug pause);
     det_chain_slug := pe_chain_slug pause; protocol := pe_protocol_id pause;
     det_lifecycle_state := Confirmed; requires_confirmation := false;
     attack_family := LiquidationCascade; severity := sev;
     description := Some (if is_trigger tr then
         "Protocol " +:+ pe_protocol_id pause +:+ " has been " +:+ label +:+
         " — PROTOCOL_PAUSED alert initiated."
       else "Protocol " +:+ pe_protocol_id pause +:+ " is " +:+ label +:+
         " while a TVL-drop incident remains active.");
     triggered_rule_ids := ["tvl_drop." +:+ rule_id r];
     det_tx_hash := hash_of event (pe_tx_hash pause) ("tvl-drop-pause-" +:+ uuids.2);
     det_block_number := block_of event (pe_block_number pause);
     signals := [ {| signal_type := ProtocolPauseState;
                     signal_value := f64_of_Z (if pe_paused pause then 1 else 0);
                     signal_label := Some ("protocol_" +:+ label);
                     signal_source_id := Some (source_id event) |} ];
     risk_score := {| score := f64_of_Z 70; confidence := f64_lit 7 10;
                      rationale := ["protocol marked " +:+ label +:+ " during active incident"];
                      attribution := [] |};
     incident_transition := Some tr; context_classification := Some c;
     confidence_breakdown := ∅;
     oracle_context :=
       list_to_map [ ("protocol_id", VString (pe_protocol_id pause));
                     ("chain_slug", VString (pe_chain_slug pause));
                     ("market_id", VStr (pe_market_id pause)); ("pause_state", VString label) ]%string;
     actions_recommended :=
       if is_trigger tr then [ "Monitor protocol for unpause event.";
                               "Review protocol status with protocol operators." ]%string
       else [ "Confirm protocol control-plane status with protocol operators.";
              "Keep incident open until manual resolution criteria are met." ]%string;
     is_simulated := simulated; simulation_run_id := run_id;
     detected_at := now; created_at := now |}.

Definition pick_higher_severity (current : option DetectionResult) (candidate : DetectionResult)
  : option DetectionResult :=
  match current with
  | Some existing =>
      if severity_rank (Some (severity existing)) <? severity_rank (Some (severity candidate))
      then Some candidate else Some existing
  | None => Some candidate
  end.

(** ** Processing an event *)

Notation M := (ST (TvlDropPattern * Db)).

Definition load_rule_state (db : Db) (tenant key : string) : outcome TvlRuleState :=
  v ← load_pattern_state db tenant PATTERN_ID key;
  Ret (default TvlRuleState_default (v ≫= tstate_from_value)).
Definition load_state (tenant key : string) : M TvlRuleState := fun s =>
  (s, load_rule_state s.2 tenant key).
Definition set_cache (p : TvlDropPattern) (c : gmap string TvlRuleState) : TvlDropPattern :=
  {| configs := configs p; state_cache := c; source_bindings := source_bindings p |}.
(** the state enters the cache, which is pruned *)
Definition remember (event : UnifiedEvent) (key : string) (st : TvlRuleState) (now : DateTime)
  : M unit := fun s =>
  let ck := cache_key (tenant_id event) key in
  let cache := <[ck := st]> (state_cache s.1) in
  match prune_state_cache cache now ck with
  | Ret c => ((set_cache s.1 c, s.2), Ret ())
  | Err e => ((set_cache s.1 cache, s.2), Err e)
  | Panic => ((set_cache s.1 cache, s.2), Panic)
  end.
(** snapshot and state are persisted, the errors of the two statements ignored *)
Definition persist (event : UnifiedEvent) (key : string) (data : Value) (score : option f64)
    (severity : option string) (st : TvlRuleState) : M unit := fun s =>
  let snap := {| snap_tenant_id := tenant_id event; snap_pattern_id := PATTERN_ID;
                 snap_snapshot_key := key; snap_data := append_snapshot_meta event data;
                 snap_score := score; snap_severity := severity;
                 snap_observed_at := timestamp event |} in
  let db := (insert_pattern_snapshot s.2 snap).1 in
  match tstate_to_value st with
  | Ret v => ((s.1, (upsert_pattern_state db (tenant_id event) PATTERN_ID key v).1), Ret ())
  | Err e => ((s.1, db), Err e)
  | Panic => ((s.1, db), Panic)
  end.

(** the protocol key and the deposit gate, from the rule and the event *)
Definition annotate (st : TvlRuleState) (protocol_key : string) (event : UnifiedEvent) : TvlRuleState :=
  {| ts_samples := ts_samples st; ts_last_severity := ts_last_severity st;
     ts_last_drop_pct := ts_last_drop_pct st; ts_active_since := ts_active_since st;
     ts_last_breach_at := ts_last_breach_at st; ts_last_transition_at := ts_last_transition_at st;
     ts_last_context := ts_last_context st; ts_last_pause_state := ts_last_pause_state st;
     ts_protocol_chain_key := Some protocol_key;
     ts_tenant_has_deposit := match get_bool "tenant_has_deposit" (payload event) with
                              | Some b => Some b | None => ts_tenant_has_deposit st end;
     ts_position_data_stale := match get_bool "position_data_stale" (payload event) with
                               | Some b => Some b | None => ts_position_data_stale st end |}.
Definition tvl_snapshot (r : TvlDropRule) (subject_key : string) (sample : TvlStateEvent)
    (ev : TvlEvaluation) (sev : Severity) (tr : option IncidentTransition) (c : ContextClassification)
  : Value :=
  VObj [ ("rule_id", VString (rule_id r)); ("subject_key", VString subject_key);
         ("tvl_usd", VFloat (se_tvl_usd sample)); ("fast_drop_pct", VFloat (te_fast_drop_pct ev));
         ("slow_drop_pct", VFloat (te_slow_drop_pct ev));
         ("velocity_drop_pct", VFloat (te_velocity_drop_pct ev));
         ("selected_drop_pct", VFloat (te_selected_drop_pct ev));
         ("breached_branches", VArray (VString <$> te_breached_branches ev));
         ("base_severity", VStr (severity_lower <$> te_base_severity ev));
         ("final_severity", VStr ((fun _ => severity_lower sev) <$> te_base_severity ev));
         ("incident_transition", VStr (transition_lower <$> tr));
         ("context_classification", VString (context_classification_str c));
         ("deposit_gate_skipped", VBool (te_deposit_gate_skipped ev));
         ("min_tvl_floor_usd", VFloat (min_tvl_floor_usd r)) ]%string.

(** evaluation, contagion, transition and next state of one rule *)
Record TvlStep := {
  step_state : TvlRuleState;
  step_eval : TvlEvaluation;
  step_severity : Severity;
  step_class : ContextClassification;
  step_transition : option IncidentTransition
}.
Definition tvl_step (p : TvlDropPattern) (tenant ck protocol_key : string) (r : TvlDropRule)
    (st : TvlRuleState) (tvl : f64) (now : DateTime) : outcome TvlStep :=
  se ← process_state_sample r st tvl now;
  let '(st1, ev) := se in
  systemic ← (match te_base_severity ev with
              | Some _ =>
                  if contagion_enabled r then
                    has_concurrent_active_drop p tenant ck protocol_key now (concurrent_window_minutes r)
                  else Ret false
              | None => Ret false
              end);
  let previous := severity_from_str (ts_last_severity st) in
  let '(sev, c) := decide_severity (te_base_severity ev) systemic previous in
  let tr := decide_transition st ev sev c in
  Ret {| step_state := next_tvl_state st1 ev sev c tr now; step_eval := ev; step_severity := sev;
         step_class := c; step_transition := tr |}.

(** one rule and one sample *)
Definition process_rule (event : UnifiedEvent) (sample : TvlStateEvent) (now : DateTime)
    (uuids : nat -> string * string) (emitted : option DetectionResult) (ir : nat * TvlDropRule)
  : M (option DetectionResult) :=
  let '(i, r) := ir in
  match subject_for_event r (se_market_id sample) with
  | None => mret emitted
  | Some (subject_type, subject_key, protocol_key) =>
      let key := load_state_key (rule_id r) subject_key in
      let ck := cache_key (tenant_id event) key in
      st ← load_state (tenant_id event) key;
      remember event key st now;;
      s ← get_st;
      sp ← lift (tvl_step s.1 (tenant_id event) ck protocol_key r (annotate st protocol_key event)
                   (se_tvl_usd sample) now);
      let ev := step_eval sp in
      let sev := step_severity sp in
      let c := step_class sp in
      persist event key (tvl_snapshot r subject_key sample ev sev (step_transition sp) c)
        (Some (te_selected_drop_pct ev)) ((fun _ => severity_lower sev) <$> te_base_severity ev)
        (step_state sp);;
      remember event key (step_state sp) now;;
      match step_transition sp with
      | Some tr =>
          s ← get_st;
          let risky := find_at_risk_markets s.1 (tenant_id event) (se_protocol_id sample)
                         (se_chain_slug sample) (se_market_id sample) in
          mret (pick_higher_severity emitted
                  (build_tvl_detection event r (subject_type, subject_key) sev tr c now ev sample
                     risky (uuids i)))
      | None => mret emitted
      end
  end.

(** one rule and one pause signal *)
Definition pause_parameters (st : TvlRuleState) (paused : bool)
  : option (Severity * IncidentTransition * ContextClassification) :=
  match severity_from_str (ts_last_severity st) with
  | Some prev =>
      let c := match ts_last_context st with
               | Some x => if bool_decide (x = "systemic"%string) then Systemic
                           else if bool_decide (x = "isolated"%string) then Isolated else NoContext
               | None => NoContext
               end in
      Some (prev, Update, c)
  | None => if paused then Some (High, Trigger, NoContext) else None
  end.
Definition set_pause_state (st : TvlRuleState) (protocol_key : string) (paused : bool) (now : DateTime)
  : TvlRuleState :=
  {| ts_samples := ts_samples st; ts_last_severity := ts_last_severity st;
     ts_last_drop_pct := ts_last_drop_pct st; ts_active_since := ts_active_since st;
     ts_last_breach_at := ts_last_breach_at st; ts_last_transition_at := Some now;
     ts_last_context := ts_last_context st; ts_last_pause_state := Some paused;
     ts_protocol_chain_key := Some protocol_key; ts_tenant_has_deposit := ts_tenant_has_deposit st;
     ts_position_data_stale := ts_position_data_stale st |}.
Definition pause_snapshot (r : TvlDropRule) (subject_key : string) (pause : TvlPauseEvent)
    (tr : IncidentTransition) (c : ContextClassification) : Value :=
  VObj [ ("rule_id", VString (rule_id r)); ("subject_key", VString subject_key);
         ("pause_state", VString (pause_label pause));
         ("incident_transition", VString (transition_lower tr));
         ("context_classification", VString (context_classification_str c)) ]%string.
Definition pause_rule (event : UnifiedEvent) (pause : TvlPauseEvent) (now : DateTime)
    (uuids : nat -> string * string) (emitted : option DetectionResult) (ir : nat * TvlDropRule)
  : M (option DetectionResult) :=
  let '(i, r) := ir in
  match subject_for_event r (pe_market_id pause) with
  | None => mret emitted
  | Some (subject_type, subject_key, protocol_key) =>
      let key := load_state_key (rule_id r) subject_key in
      st ← load_state (tenant_id event) key;
      remember event key st now;;
      match pause_parameters st (pe_paused pause) with
      | None => mret emitted
      | Some (sev, tr, c) =>
          let st := set_pause_state st protocol_key (pe_paused pause) now in
          persist event key (pause_snapshot r subject_key pause tr c) (ts_last_drop_pct st)
            (ts_last_severity st) st;;
          remember event key st now;;
          mret (pick_higher_severity emitted
                  (build_pause_detection event r (subject_type, subject_key) sev tr c now pause (uuids i)))
      end
  end.

Definition rules_for (p : TvlDropPattern) (event : UnifiedEvent) (protocol chain : string)
    (market : option string) : list TvlDropRule :=
  filter (fun r => (enabled r && matches r protocol chain market) = true)
    (default [] (configs p !! tenant_id event)).
Definition process_event (event : UnifiedEvent) (now : DateTime) (uuids : nat -> string * string)
  : M (option DetectionResult) :=
  s ← get_st;
  if negb (binding_allows (source_bindings s.1) event) then mret None
  else
    match configs s.1 !! tenant_id event with
    | None => mret None
    | Some _ =>
        match parse_tvl_state_event event with
        | Some e =>
            for_each (process_rule event e now uuids)
              (imap pair (rules_for s.1 event (se_protocol_id e) (se_chain_slug e) (se_market_id e))) None
        | None =>
            match parse_tvl_pause_event event with
            | Some e =>
                for_each (pause_rule event e now uuids)
                  (imap pair (rules_for s.1 event (pe_protocol_id e) (pe_chain_slug e)
                                (pe_market_id e))) None
            | None => mret None
            end
        end
    end.
End pattern.
