(* ===== verification/TvlDropProofs.v ===== *)
(** * Correctness of the TVL-drop pattern

    The incident machine of one rule and subject and its refinement by the
    evaluation of a sample, what follows over runs of samples, the windows, the
    contagion test over the tenant's cached states, the parsed rules, and the
    rows an event may write.

    Two protocols of one tenant lose half of their TVL: the first drop is
    isolated, the second systemic; the interfaces instantiated by the JSON tree
    and the tables of [Persistence]. *)
From stdpp Require Import strings.
From S2P Require Import Prelude F64 Text Numbers Ports EventSchema PatternCommon Persistence CachePrune TvlDrop TvlDropPattern.

(** ** Severities *)

Lemma severity_lower_roundtrip s : severity_from_str (Some (severity_lower s)) = Some s.
Proof. by destruct s. Qed.
Lemma rank_range s : 1 <= severity_rank (Some s) <= 5.
Proof. destruct s; simpl; lia. Qed.
Lemma rank_inj a b : severity_rank (Some a) = severity_rank (Some b) -> a = b.
Proof. by destruct a, b. Qed.
Lemma clamp_rank s prev :
  severity_rank (Some (clamp_severity s prev)) =
  Z.max (severity_rank (Some s)) (severity_rank prev).
Proof.
  unfold clamp_severity. pose proof (rank_range s). destruct prev as [p|]; [|change (severity_rank None) with 0; lia].
  destruct (_ <? _) eqn:Hr; bools; lia.
Qed.

Section machine.
Context `{Chrono} `{SerdeJson} `{HashOrder} `{!TvlCodec} `{!PatternStore}.

(** ** The incident machine *)

(** the severity a sample asks for *)
Definition raised (base : Severity) (systemic : bool) : Severity :=
  if systemic then Critical else base.
Inductive tvl_incident (a : option Severity)
  : option Severity -> bool -> option IncidentTransition -> option Severity -> Prop :=
  | t_quiet systemic : tvl_incident a None systemic None a
  | t_trigger s systemic :
      a = None -> tvl_incident a (Some s) systemic (Some Trigger) (Some (raised s systemic))
  | t_escalate prev s systemic :
      a = Some prev -> severity_rank a < severity_rank (Some (raised s systemic)) ->
      tvl_incident a (Some s) systemic (Some Escalate) (Some (raised s systemic))
  | t_hold prev s systemic tr :
      a = Some prev -> severity_rank (Some (raised s systemic)) <= severity_rank a ->
      tr = None \/ tr = Some Update -> tvl_incident a (Some s) systemic tr a.

Definition active (st : TvlRuleState) : option Severity := severity_from_str (ts_last_severity st).
Definition is_systemic (c : ContextClassification) : bool :=
  match c with Systemic => true | _ => false end.

Lemma sample_keeps r st tvl now st1 ev :
  process_state_sample r st tvl now = Ret (st1, ev) -> exists l, st1 = set_tsamples st l.
Proof.
  unfold process_state_sample. intros Hp. do 4 inv_ret Hp. injection Hp as <- _. by eexists.
Qed.
Lemma decision_ok st st1 ev systemic sev c now :
  decide_severity (te_base_severity ev) systemic (active st) = (sev, c) ->
  ts_last_severity st1 = ts_last_severity st ->
  (te_base_severity ev = None -> systemic = false) ->
  let tr := decide_transition st ev sev c in
  tvl_incident (active st) (te_base_severity ev) (is_systemic c) tr
    (active (next_tvl_state st1 ev sev c tr now)).
Proof.
  unfold decide_severity, decide_transition, next_tvl_state. fold (active st).
  destruct (te_base_severity ev) as [base|].
  2:{ intros [= <- <-] Hl _. unfold active. cbn [ts_last_severity]. rewrite Hl. apply t_quiet. }
  intros Hd Hl _. assert (Hsc : sev = clamp_severity (raised base (is_systemic c)) (active st)).
  { destruct systemic; injection Hd as <- <-; done. }
  unfold active at 3. cbn [ts_last_severity]. rewrite severity_lower_roundtrip.
  destruct (active st) as [prev|] eqn:Ha.
  - pose proof (clamp_rank (raised base (is_systemic c)) (Some prev)) as Hr. rewrite <- Hsc in Hr.
    destruct (_ <? _) eqn:Hlt; bools.
    + assert (sev = raised base (is_systemic c)) as -> by (apply rank_inj; lia).
      eapply t_escalate; [done|lia].
    + assert (sev = prev) as -> by (apply rank_inj; lia).
      eapply t_hold; [done|lia|]. destruct (_ || _); auto.
  - rewrite Hsc. by apply t_trigger.
Qed.
Lemma tvl_step_ok p tenant ck pk r st tvl now sp :
  tvl_step p tenant ck pk r st tvl now = Ret sp ->
  tvl_incident (active st) (te_base_severity (step_eval sp)) (is_systemic (step_class sp))
    (step_transition sp) (active (step_state sp)).
Proof.
  unfold tvl_step. intros Hs. inv_ret Hs. destruct a as [st1 ev]. inv_ret Hs. rename a into systemic.
  destruct (decide_severity _ _ _) as [sev c] eqn:Hd. injection Hs as <-. cbn.
  apply sample_keeps in Hm as [l ->]. eapply decision_ok; [exact Hd|done|].
  destruct (te_base_severity ev); [done|]. by injection Hm0 as <-.
Qed.

(** only these severities come from a drop *)
Lemma base_severity_ranks r dep tvl fast slow s :
  (base_severity_of r dep tvl fast slow).1 = Some s -> s = High \/ s = Critical.
Proof. unfold base_severity_of. repeat case_match; simpl; intros; simplify_eq; auto. Qed.
Lemma eval_severity_ranks r st tvl now st1 ev s :
  process_state_sample r st tvl now = Ret (st1, ev) -> te_base_severity ev = Some s ->
  s = High \/ s = Critical.
Proof.
  unfold process_state_sample. intros Hp. do 4 inv_ret Hp. injection Hp as _ <-.
  apply base_severity_ranks.
Qed.
Lemma step_severity_ranks p tenant ck pk r st tvl now sp s :
  tvl_step p tenant ck pk r st tvl now = Ret sp -> te_base_severity (step_eval sp) = Some s ->
  s = High \/ s = Critical.
Proof.
  unfold tvl_step. intros Hs. inv_ret Hs. destruct a as [st1 ev]. inv_ret Hs.
  destruct (decide_severity _ _ _) as [sev c]. injection Hs as <-. by eapply eval_severity_ranks.
Qed.

(** ** Runs *)

(** what may happen to the stored state of one rule and subject: a sample, with
    whatever cached states and annotations, or a pause signal *)
Inductive tvl_run (r : TvlDropRule) : TvlRuleState -> list (option IncidentTransition) -> TvlRuleState -> Prop :=
  | tr_nil st : tvl_run r st [] st
  | tr_sample st0 l st p tenant ck pk event tvl now sp :
      tvl_run r st0 l st ->
      tvl_step p tenant ck pk r (annotate st pk event) tvl now = Ret sp ->
      tvl_run r st0 (step_transition sp :: l) (step_state sp)
  | tr_pause st0 l st pk paused now :
      tvl_run r st0 l st -> tvl_run r st0 l (set_pause_state st pk paused now).
Definition count_if (f : option IncidentTransition -> bool) : list (option IncidentTransition) -> Z :=
  foldr (fun tr n => (if f tr then 1 else 0) + n) 0.
Definition announcements : list (option IncidentTransition) -> Z :=
  count_if (fun tr => match tr with Some Trigger | Some Escalate => true | _ => false end).
Definition triggers : list (option IncidentTransition) -> Z :=
  count_if (fun tr => match tr with Some Trigger => true | _ => false end).

(** how far an incident has come: not open, open, at its highest severity *)
Definition progress (a : option Severity) : Z :=
  match a with None => 0 | Some Critical => 2 | Some _ => 1 end.
Definition opened (a : option Severity) : Z := match a with None => 0 | Some _ => 1 end.
(** severities a drop can store *)
Definition from_drop (a : option Severity) : Prop := a = None \/ a = Some High \/ a = Some Critical.

Lemma incident_progress a base systemic tr a' :
  tvl_incident a base systemic tr a' -> from_drop a ->
  (forall s, base = Some s -> s = High \/ s = Critical) ->
  from_drop a' /\ progress a + announcements [tr] <= progress a' /\
  opened a + triggers [tr] <= opened a' /\ (a <> None -> a' <> None).
Proof.
  intros Hi Ha Hb. destruct Hi as [sy|s sy ->|prev s sy -> Hr|prev s sy tr -> Hr Htr].
  - by split_and!; [|cbn; lia..|].
  - destruct (Hb s eq_refl) as [->| ->], sy; unfold from_drop; cbn; split_and!; auto; lia.
  - destruct (Hb s eq_refl) as [->| ->], sy; unfold from_drop in *;
      destruct Ha as [Ha|[Ha|Ha]]; simplify_eq; cbn in *; split_and!; auto; lia.
  - split_and!; [done|..|done]; destruct Htr as [->| ->]; cbn; lia.
Qed.
Lemma count_if_cons f tr l : count_if f (tr :: l) = count_if f [tr] + count_if f l.
Proof. cbn. lia. Qed.
Lemma run_progress r st0 l st :
  tvl_run r st0 l st -> from_drop (active st0) ->
  from_drop (active st) /\ progress (active st0) + announcements l <= progress (active st) /\
  opened (active st0) + triggers l <= opened (active st) /\
  (active st0 <> None -> active st <> None).
Proof.
  induction 1 as [st|st0 l st p tenant ck pk event tvl now sp Hr IH Hs|st0 l st pk pa now Hr IH]; intros Hfrom.
  - split_and!; [done|cbn; lia..|done].
  - destruct (IH Hfrom) as (Ha & Hp & Ht & Hn). pose proof (tvl_step_ok _ _ _ _ _ _ _ _ _ Hs) as Hstep.
    change (active (annotate st pk event)) with (active st) in Hstep.
    destruct (incident_progress _ _ _ _ _ Hstep Ha) as (P1 & P2 & P3 & P4).
    { intros s Hb. by eapply step_severity_ranks. }
    unfold announcements, triggers in *. rewrite (count_if_cons _ (step_transition sp)), (count_if_cons _ (step_transition sp) l). split_and!; [done|lia..|auto].
  - apply IH. done.
Qed.

(** ** Contagion *)

Lemma scan_spec tenant current cutoff pk entries :
  scan_protocols tenant current cutoff {[ pk ]} entries = true <->
  exists kv key, kv ∈ entries /\ drop_protocol tenant current cutoff kv = Some key /\ key <> pk.
Proof.
  induction entries as [|kv rest IH]; cbn [scan_protocols].
  - split; [done|]. by intros (kv & key & Hin%not_elem_of_nil & _).
  - destruct (drop_protocol tenant current cutoff kv) as [key|] eqn:Hk.
    + destruct (decide (key = pk)) as [->|Hne].
      * replace ({[pk]} ∪ {[pk]} : gset string) with ({[pk]} : gset string) by set_solver.
        rewrite size_singleton. cbn [Nat.leb]. rewrite IH. split.
        -- intros (kv' & key' & Hin & ? & ?). exists kv', key'. rewrite elem_of_cons. auto.
        -- intros (kv' & key' & [->|Hin]%elem_of_cons & Hd & Hn); [congruence|]. by exists kv', key'.
      * rewrite size_union, !size_singleton by set_solver. cbn [Nat.leb Nat.add]. split; [intros _|done].
        exists kv, key. rewrite elem_of_cons. auto.
    + rewrite IH. split.
      * intros (kv' & key' & Hin & ? & ?). exists kv', key'. rewrite elem_of_cons. auto.
      * intros (kv' & key' & [->|Hin]%elem_of_cons & Hd & Hn); [congruence|]. by exists kv', key'.
Qed.
Lemma drop_protocol_Some tenant current cutoff k st key :
  drop_protocol tenant current cutoff (k, st) = Some key <->
  k <> current /\ starts_with k (tenant +:+ ":") = true /\ is_Some (ts_last_severity st) /\
  (exists b, ts_last_breach_at st = Some b /\ ns cutoff <= ns b) /\ ts_protocol_chain_key st = Some key.
Proof.
  unfold drop_protocol. cbn [fst snd]. case_bool_decide as Hk; [naive_solver|].
  destruct (starts_with k _); cbn [negb]; [|naive_solver].
  case_bool_decide as Hs; cbn [negb]; [|naive_solver].
  destruct (ts_last_breach_at st) as [b|]; cbn [mbind option_bind]; [|naive_solver].
  unfold dt_lt. destruct (_ <? _) eqn:Hb; bools.
  - split; [done|]. intros (_ & _ & _ & (b' & [= <-] & Hle) & _). lia.
  - split; [|by intros (_ & _ & _ & _ & ?)]. intros Hkey. split_and!; try done. by exists b.
Qed.

(** ** Windows *)

Lemma point_le_order :
  (forall a b, point_le a b = true \/ point_le b a = true) /\
  (forall a b c, point_le a b = true -> point_le b c = true -> point_le a c = true).
Proof. unfold point_le, dt_le. split; intros; lia. Qed.
Lemma find_map_first {A} (f : A -> bool) l p :
  find_map (fun p => if f p then Some p else None) l = Some p ->
  f p = true /\ exists before after, l = before ++ p :: after /\ Forall (fun q => f q = false) before.
Proof.
  induction l as [|q l IH]; simpl; [done|]. destruct (f q) eqn:Hq.
  - intros [= <-]. split; [done|]. by exists [], l.
  - intros Hf. destruct (IH Hf) as (? & b & a & -> & ?). split; [done|]. exists (q :: b), a.
    split; [done|by constructor].
Qed.
Lemma find_map_reaches (l : list TvlSamplePoint) lst :
  last l = Some lst -> is_nan (point_tvl lst) = false ->
  is_Some (find_map (fun p => if f64_le (point_tvl p) (point_tvl lst) then Some p else None) l).
Proof.
  intros Hl Hn. assert (Hin : lst ∈ l) by (by apply last_Some_elem_of).
  clear Hl. induction Hin as [q l|q p l Hin IH]; simpl.
  - rewrite f64_le_refl by done. by eexists.
  - destruct (f64_le _ _); [by eexists|by apply IH].
Qed.

(** ** Which rows an event may write *)

Definition fixed (p : TvlDropPattern) : gmap string (list TvlDropRule) * gmap string (gset string) :=
  (configs p, source_bindings p).
Notation frame := (frame fixed PATTERN_ID).
Definition key_of (r : TvlDropRule) (market : option string) : option string :=
  (fun s => load_state_key (rule_id r) s.1.2) <$> subject_for_event r market.

Lemma tvl_persist_frame event key data score sev st s :
  frame (eq key) (tenant_id event) s (persist event key data score sev st s).1.
Proof.
  destruct s as [p db]. unfold persist. simpl.
  set (snap := Build_PatternSnapshotInsert _ _ _ _ _ _ _ _ _).
  pose proof (write_frame fixed PATTERN_ID (tenant_id event) key snap p db (tstate_to_value st)) as Hw.
  by destruct (tstate_to_value st).
Qed.
Lemma tvl_remember_frame event key st now rows s :
  frame rows (tenant_id event) s (remember event key st now s).1.
Proof. unfold remember. by destruct (prune_state_cache _ _ _). Qed.
Lemma tvl_save_frame {A} event key data score sev st now (f : unit -> ST _ A) s :
  (forall s', frame (eq key) (tenant_id event) s' (f () s').1) ->
  frame (eq key) (tenant_id event) s
    ((persist event key data score sev st;; (remember event key st now ≫= f)) s).1.
Proof.
  intros Hf. apply bind_frame; [apply tvl_persist_frame|]. intros _ s1 _.
  apply bind_frame; [apply tvl_remember_frame|]. intros [] s2 _. apply Hf.
Qed.
Lemma tvl_process_rule_frame event sample now uuids emitted ir s :
  frame (fun k => key_of ir.2 (se_market_id sample) = Some k) (tenant_id event) s
    (process_rule event sample now uuids emitted ir s).1.
Proof.
  destruct ir as [i r]. unfold process_rule, key_of. simpl snd.
  destruct (subject_for_event r _) as [[[ty sk] pk]|]; [|done]. simpl.
  apply bind_frame; [done|]. intros st s1 _. apply bind_frame; [apply tvl_remember_frame|]. intros [] s2 _.
  apply bind_frame; [done|]. intros s3 s4 _. apply bind_frame; [done|]. intros sp s5 _.
  eapply frame_weaken; [|apply tvl_save_frame]; [by intros k <-|]. intros s6.
  destruct (step_transition sp); [|done]. by apply bind_frame.
Qed.
Lemma tvl_pause_rule_frame event pause now uuids emitted ir s :
  frame (fun k => key_of ir.2 (pe_market_id pause) = Some k) (tenant_id event) s
    (pause_rule event pause now uuids emitted ir s).1.
Proof.
  destruct ir as [i r]. unfold pause_rule, key_of. simpl snd.
  destruct (subject_for_event r _) as [[[ty sk] pk]|]; [|done]. simpl.
  apply bind_frame; [done|]. intros st s1 _. apply bind_frame; [apply tvl_remember_frame|]. intros [] s2 _.
  destruct (pause_parameters st _) as [[[sev tr] c]|]; [|done].
  eapply frame_weaken; [|apply tvl_save_frame]; [by intros k <-|done].
Qed.
Definition touches (p : TvlDropPattern) (event : UnifiedEvent) (k : string) : Prop :=
  binding_allows (source_bindings p) event = true /\
  match parse_tvl_state_event event, parse_tvl_pause_event event with
  | Some e, _ =>
      exists r, r ∈ rules_for p event (se_protocol_id e) (se_chain_slug e) (se_market_id e) /\
        key_of r (se_market_id e) = Some k
  | None, Some e =>
      exists r, r ∈ rules_for p event (pe_protocol_id e) (pe_chain_slug e) (pe_market_id e) /\
        key_of r (pe_market_id e) = Some k
  | None, None => False
  end.
Lemma event_frame event now uuids s :
  frame (touches s.1 event) (tenant_id event) s (process_event event now uuids s).1.
Proof.
  unfold process_event, touches. apply bind_frame; [done|]. intros s0 s1 [= <- <-].
  destruct (binding_allows _ _); simpl; [|done].
  destruct (configs s.1 !! tenant_id event); [|done].
  destruct (parse_tvl_state_event event) as [e|].
  - apply for_each_frame. intros em ir s1 Hin. eapply frame_weaken; [|apply tvl_process_rule_frame].
    intros k Hk. split; [done|]. exists ir.2. split; [by apply elem_of_numbered|done].
  - destruct (parse_tvl_pause_event event) as [e|]; [|done].
    apply for_each_frame. intros em ir s1 Hin. eapply frame_weaken; [|apply tvl_pause_rule_frame].
    intros k Hk. split; [done|]. exists ir.2. split; [by apply elem_of_numbered|done].
Qed.

(** ** What one rule does with a sample *)

Notation refused := (refused PATTERN_ID).
Lemma tvl_persist_row event key data score sev st s s' v :
  persist event key data score sev st s = (s', Ret v) -> finite_tvl_state st ->
  load_rule_state s'.2 (tenant_id event) key = Ret st \/
  refused (tenant_id event) key /\
  load_rule_state s'.2 (tenant_id event) key = load_rule_state s.2 (tenant_id event) key.
Proof.
  unfold persist. destruct (tstate_to_value st) as [w|?|] eqn:Hw; [|done..].
  intros [= <- _] Hfin. unfold load_rule_state. simpl.
  destruct (write_row PATTERN_ID (tenant_id event) key (Build_PatternSnapshotInsert _ _ (tenant_id event)
    PATTERN_ID key (append_snapshot_meta event data) score sev (timestamp event)) s.2 w)
    as [->|[Hr ->]]; [left|by right].
  simpl. by rewrite (tstate_roundtrip _ _ Hfin Hw).
Qed.
(** what the rule returns next to the detection so far *)
Definition announces (emitted result : option DetectionResult) (sp : TvlStep) : Prop :=
  match step_transition sp with
  | None => result = emitted
  | Some tr => exists d, result = pick_higher_severity emitted d /\ severity d = step_severity sp /\
                 incident_transition d = Some tr
  end.
Lemma bind_get_st {S A} (f : S -> ST S A) s : (get_st ≫= f) s = f s s.
Proof. done. Qed.
Lemma lift_inv {S A} (m : outcome A) (s s' : S) a : lift m s = (s', Ret a) -> s' = s /\ m = Ret a.
Proof. by intros [= <- <-]. Qed.
Lemma remember_load event key st now s s' u :
  remember event key st now s = (s', Ret u) -> s'.2 = s.2.
Proof. unfold remember. destruct (prune_state_cache _ _ _); by intros [= <- _]. Qed.
Lemma built_detection event r subject sev tr c now ev sample risky uuids :
  let d := build_tvl_detection event r subject sev tr c now ev sample risky uuids in
  severity d = sev /\ incident_transition d = Some tr.
Proof. unfold build_tvl_detection. by destruct (simulation_metadata_from_event event). Qed.

(** ** The window of an analysis *)

(** the points at or after a date, oldest and newest in the order of the list *)
Inductive measured (points : list TvlSamplePoint) : WindowAnalysis -> Prop :=
  | m_none : points = [] -> measured points WindowAnalysis_default
  | m_unusable first rest :
      points = first :: rest ->
      is_finite (point_tvl first) = false \/ f64_le (point_tvl first) f64_zero = true ->
      measured points WindowAnalysis_default
  | m_drop first lst d t :
      head points = Some first -> last points = Some lst ->
      is_finite (point_tvl first) = true -> f64_le (point_tvl first) f64_zero = false ->
      d = relative_drop (point_tvl first) (point_tvl lst) -> f64_nonneg d ->
      match t with
      | Some m => exists before p after, points = before ++ p :: after /\
          Forall (fun q => f64_le (point_tvl q) (point_tvl lst) = false) before /\
          f64_le (point_tvl p) (point_tvl lst) = true /\
          m = minutes_between (point_at p) (point_at first)
      | None => is_nan (point_tvl lst) = true
      end ->
      measured points {| reference_tvl_usd := Some (point_tvl first);
                         current_tvl_usd := Some (point_tvl lst); drop_pct := d; time_to_reach := t |}.
Lemma analyze_measured points : measured points (analyze_points points).
Proof.
  unfold analyze_points. destruct points as [|first rest]; [by apply m_none|]. cbn [head].
  destruct (last (first :: rest)) as [lst|] eqn:Hl; [|by apply last_None in Hl].
  destruct (_ || _) eqn:Hf.
  { eapply m_unusable; [done|]. apply orb_true_iff in Hf as [Hf|Hf]; [left|by right].
    by apply negb_true_iff in Hf. }
  apply orb_false_iff in Hf as [Hfin Hpos]. apply negb_false_iff in Hfin.
  destruct (find_map _ _) as [p|] eqn:Hp; simpl.
  - apply find_map_first in Hp as (Hp & b & a & Heq & Hb). eapply m_drop; try done.
    + by apply f64_max_ge_r.
    + by exists b, p, a.
  - eapply m_drop; try done; [by apply f64_max_ge_r|].
    destruct (is_nan (point_tvl lst)) eqn:Hn; [done|].
    destruct (find_map_reaches _ _ Hl Hn) as [x Hx]. by rewrite Hx in Hp.
Qed.
Lemma analyze_window_measured samples now minutes w :
  analyze_window samples now minutes = Ret w -> samples <> [] ->
  exists cutoff, sub_minutes now (Z.max minutes 1) = Ret cutoff /\
    measured (window_points samples cutoff) w.
Proof.
  unfold analyze_window. intros Ha Hne. destruct samples as [|x l]; [done|].
  inv_ret Ha. injection Ha as <-. eexists. split; [done|]. apply analyze_measured.
Qed.

(** what a breach asks for *)
Definition breaches (r : TvlDropRule) (st : TvlRuleState) (tvl : f64) (fast slow : WindowAnalysis) : Prop :=
  has_deposit st = true /\
  f64_le (min_tvl_floor_usd r) (default tvl (reference_tvl_usd fast)) = true /\
  (f64_le (fast_drop_pct r) (drop_pct fast) = true \/ f64_le (slow_drop_pct r) (drop_pct slow) = true \/
   f64_le (velocity_critical_pct r) (drop_pct fast) = true /\
   exists m, time_to_reach fast = Some m /\
     f64_lt m (f64_of_Z (velocity_critical_minutes r)) = true).
Lemma reached_within_true t minutes :
  reached_within t minutes = true <-> exists m, t = Some m /\ f64_lt m minutes = true.
Proof.
  unfold reached_within. split.
  - destruct t as [m|]; [|done]. by exists m.
  - by intros (m & -> & ?).
Qed.
Lemma base_severity_some r deposit tvl fast slow_drop :
  is_Some (base_severity_of r deposit tvl fast slow_drop).1 <->
  deposit && f64_le (min_tvl_floor_usd r) (default tvl (reference_tvl_usd fast)) &&
  (f64_le (velocity_critical_pct r) (drop_pct fast)
     && reached_within (time_to_reach fast) (f64_of_Z (velocity_critical_minutes r))
   || f64_le (fast_drop_pct r) (drop_pct fast) || f64_le (slow_drop_pct r) slow_drop) = true.
Proof.
  unfold base_severity_of. repeat case_match; cbn [orb andb fst];
    (split; [by intros [? ?]|by (discriminate || eauto using mk_is_Some)]).
Qed.
Lemma base_severity_breaches r st tvl fast slow :
  is_Some (base_severity_of r (has_deposit st) tvl fast (drop_pct slow)).1 <-> breaches r st tvl fast slow.
Proof.
  rewrite base_severity_some, !andb_true_iff, !orb_true_iff, andb_true_iff, reached_within_true.
  unfold breaches. tauto.
Qed.

(** ** The properties *)

(** another rule state cached under the tenant's prefix has an incident on
    another protocol, last breached within the last [minutes] minutes *)
Definition drop_elsewhere (p : TvlDropPattern) (tenant current pk : string) (now : DateTime)
    (minutes : Z) : Prop :=
  exists k st key breach,
    state_cache p !! k = Some st /\ k <> current /\ starts_with k (tenant +:+ ":") = true /\
    is_Some (ts_last_severity st) /\ ts_last_breach_at st = Some breach /\
    ns now - Z.max minutes 1 * 60000000000 <= ns breach /\
    ts_protocol_chain_key st = Some key /\ key <> pk.
(** the contagion test, in whatever order the cache is read *)
Lemma concurrent_drop_spec p tenant current pk now minutes b :
  has_concurrent_active_drop p tenant current pk now minutes = Ret b ->
  b = true <-> drop_elsewhere p tenant current pk now minutes.
Proof.
  unfold has_concurrent_active_drop. intros Hh. inv_ret Hh. rename a into cutoff.
  apply sub_minutes_spec in Hm. injection Hh as <-. rewrite scan_spec. split.
  - intros ([k st] & key & Hin & Hd & Hne). apply elem_of_hash_entries in Hin.
    apply drop_protocol_Some in Hd as (? & ? & ? & (breach & ? & ?) & ?).
    exists k, st, key, breach. split_and!; try done. lia.
  - intros (k & st & key & breach & Hc & ? & ? & ? & Hb & Hle & ? & ?). exists (k, st), key.
    split_and!; [by apply elem_of_hash_entries| |done]. apply drop_protocol_Some.
    split_and!; try done. exists breach. split; [done|lia].
Qed.

(** The samples kept after an evaluation are those of the largest window,
    oldest first and the new one among them; each window measures the drop from
    its oldest to its newest sample, never negative, and the time to the first
    sample at or below the newest; a breach is called exactly when the deposit
    gate and the TVL floor pass and a threshold is reached. *)
Lemma tvl_windows_measured r st tvl now st1 ev :
  process_state_sample r st tvl now = Ret (st1, ev) ->
  let point := {| point_at := now; point_tvl := tvl |} in
  sorted_by point_le (ts_samples st1) /\
  (forall p, p ∈ ts_samples st1 <-> (p ∈ ts_samples st \/ p = point) /\
     ns now - Z.max (max_window r) 1 * 60000000000 <= ns (point_at p)) /\
  exists fast slow fast_from slow_from,
    sub_minutes now (Z.max (fast_window_minutes r) 1) = Ret fast_from /\
    sub_minutes now (Z.max (slow_window_minutes r) 1) = Ret slow_from /\
    measured (window_points (ts_samples st1) fast_from) fast /\
    measured (window_points (ts_samples st1) slow_from) slow /\
    te_fast_drop_pct ev = drop_pct fast /\ te_slow_drop_pct ev = drop_pct slow /\
    te_selected_drop_pct ev = f64_max (drop_pct fast) (drop_pct slow) /\
    te_time_to_reach ev = time_to_reach fast /\
    (is_Some (te_base_severity ev) <-> breaches r st tvl fast slow).
Proof.
  intros Hp point. unfold process_state_sample in Hp. inv_ret Hp. rename a into keep, Hm into Hkeep.
  set (samples := window_points _ keep) in Hp.
  assert (Hin : forall p, p ∈ samples <-> (p ∈ ts_samples st \/ p = point) /\
    ns now - Z.max (max_window r) 1 * 60000000000 <= ns (point_at p)).
  { intros p. unfold samples, window_points. apply sub_minutes_spec in Hkeep.
    rewrite list_elem_of_filter, elem_of_sort_by, elem_of_app, list_elem_of_singleton.
    unfold dt_le. rewrite Z.leb_le, Hkeep. tauto. }
  assert (Hne : samples <> []).
  { intros Hnil. assert (Hn : point ∈ samples) by (apply Hin; split; [by right|simpl; lia]).
    rewrite Hnil in Hn. by apply not_elem_of_nil in Hn. }
  do 3 inv_ret Hp. rename a into fast, a0 into slow. injection Hp as <- <-. cbn [ts_samples set_tsamples].
  apply analyze_window_measured in Hm as (ff & Hff & Hmf); [|done].
  apply analyze_window_measured in Hm0 as (sf & Hsf & Hms); [|done].
  split; [|split; [exact Hin|]].
  - eapply sublist_sorted_by; [apply sublist_filter|]. apply sort_by_sorted; apply point_le_order.
  - exists fast, slow, ff, sf. split_and!; try done. apply base_severity_breaches.
Qed.

(** the samples of the last [minutes] minutes, measured *)
Definition window_drop (samples : list TvlSamplePoint) (now : DateTime) (minutes : Z)
    (w : WindowAnalysis) : Prop :=
  exists from, ns from = ns now - Z.max minutes 1 * 60000000000 /\
    measured (window_points samples from) w.
Lemma step_windows p tenant ck pk r st tvl now sp :
  tvl_step p tenant ck pk r st tvl now = Ret sp ->
  exists fast slow,
    window_drop (ts_samples (step_state sp)) now (fast_window_minutes r) fast /\
    window_drop (ts_samples (step_state sp)) now (slow_window_minutes r) slow /\
    (te_base_severity (step_eval sp) <> None <-> breaches r st tvl fast slow).
Proof.
  unfold tvl_step. intros Hs. inv_ret Hs. destruct a as [st1 ev]. inv_ret Hs. clear Hm0.
  destruct (decide_severity _ _ _) as [sev c]. injection Hs as <-. cbn [step_state step_eval].
  apply tvl_windows_measured in Hm as (_ & _ & fast & slow & ff & sf & Hff & Hsf & Hmf & Hms & _ & _ & _ & _ & Hb).
  apply sub_minutes_spec in Hff, Hsf. exists fast, slow.
  assert (ts_samples (next_tvl_state st1 ev sev c (decide_transition st ev sev c) now) = ts_samples st1)
    as -> by (unfold next_tvl_state; by case_match).
  split_and!; [by exists ff|by exists sf|]. rewrite <- Hb. by destruct (te_base_severity ev); split.
Qed.

(** C14: the evaluation of a sample is a step of the incident machine: a quiet
    sample announces nothing and keeps the incident, the first breach triggers
    it, a severity above the stored one escalates it, any other breach holds it
    (an update at most).  A breach is called exactly when the deposit gate and
    the TVL floor pass and the drop over the fast or the slow window, measured
    on the samples kept, or its velocity, reaches its threshold; and the step is
    systemic exactly when it is a breach, contagion is enabled and another
    cached state of the tenant has an incident on another protocol, breached
    within the concurrency window. *)
Theorem tvl_step_refines_incident p tenant ck pk r st tvl now sp :
  tvl_step p tenant ck pk r st tvl now = Ret sp ->
  tvl_incident (active st) (te_base_severity (step_eval sp)) (is_systemic (step_class sp))
    (step_transition sp) (active (step_state sp)) /\
  (exists fast slow,
     window_drop (ts_samples (step_state sp)) now (fast_window_minutes r) fast /\
     window_drop (ts_samples (step_state sp)) now (slow_window_minutes r) slow /\
     (te_base_severity (step_eval sp) <> None <-> breaches r st tvl fast slow)) /\
  (step_class sp = Systemic <->
   te_base_severity (step_eval sp) <> None /\ contagion_enabled r = true /\
   drop_elsewhere p tenant ck pk now (concurrent_window_minutes r)).
Proof.
  intros Hs. split; [by eapply tvl_step_ok|]. split; [by eapply step_windows|].
  unfold tvl_step in Hs. inv_ret Hs.
  destruct a as [st1 ev]. inv_ret Hs. rename a into systemic, Hm0 into Hsys.
  destruct (decide_severity _ _ _) as [sev c] eqn:Hd. injection Hs as <-. cbn.
  unfold decide_severity in Hd.
  destruct (te_base_severity ev) as [s|].
  2:{ injection Hd as _ <-. split; [done|by intros [? _]]. }
  destruct (contagion_enabled r).
  2:{ injection Hsys as <-. injection Hd as _ <-. split; [done|by intros (_ & ? & _)]. }
  pose proof (concurrent_drop_spec _ _ _ _ _ _ _ Hsys) as Hspec.
  destruct systemic; injection Hd as _ <-.
  - split; [|done]. intros _. split_and!; [done|done|by apply Hspec].
  - split; [done|]. intros (_ & _ & Hd). by apply Hspec in Hd.
Qed.

(** Over any sequence of samples and pause signals, the samples trigger an
    incident of a rule and subject at most once and announce it at most twice
    (opened and raised to critical; a pause has its own announcement); an active
    incident is never closed by a sample. *)
Theorem tvl_announced_bounded r st0 l st :
  tvl_run r st0 l st -> from_drop (active st0) ->
  triggers l <= 1 /\ announcements l <= 2 /\
  (active st0 <> None -> active st <> None /\ triggers l = 0 /\ announcements l <= 1).
Proof.
  intros Hr Hf. destruct (run_progress _ _ _ _ Hr Hf) as (Hf' & Hp & Ht & Hn).
  assert (Hlow : forall f, 0 <= count_if f l).
  { intros f. unfold count_if. clear. induction l as [|tr l IH]; simpl; [lia|]. destruct (f tr); lia. }
  pose proof (Hlow (fun tr => match tr with Some Trigger => true | _ => false end)) as H0t.
  fold triggers in H0t.
  assert (progress (active st) <= 2 /\ 0 <= progress (active st0) /\ opened (active st) <= 1
          /\ 0 <= opened (active st0)) as (? & ? & ? & ?).
  { unfold progress, opened. by destruct (active st) as [[]|], (active st0) as [[]|]. }
  split_and!; [lia|lia|]. intros Ha. split_and!; [by apply Hn|..].
  - destruct (active st0); [|done]. cbn [opened] in *. change (triggers l = 0). lia.
  - destruct Hf as [?|[Ho|Ho]]; [done|..]; rewrite Ho in *; cbn [progress] in *; lia.
Qed.

(** the guards of [validate] *)
Lemma validate_inv r : validate r = Ret () ->
  f64_le (fast_drop_pct r) f64_zero = false /\ f64_le (slow_drop_pct r) f64_zero = false /\
  f64_le (velocity_critical_pct r) f64_zero = false /\
  0 < fast_window_minutes r /\ 0 < slow_window_minutes r /\ 0 < velocity_critical_minutes r /\
  0 < concurrent_window_minutes r /\
  (scope r = "market"%string -> trimmed_nonempty (rule_market_id r) <> None).
Proof.
  unfold validate. repeat (case_match; [done|]). intros _. bools. split_and!; try done; try lia.
  intros Hsc. match goal with H : _ && _ = false |- _ => rewrite bool_decide_eq_true_2 in H by done; rename H into Hm end.
  simpl in Hm. destruct (rule_market_id r) as [m|]; [|done]. simpl in *. by rewrite Hm.
Qed.
Lemma inferred_scope_cases o market :
  inferred_scope o market = "market"%string \/ inferred_scope o market = "protocol"%string.
Proof.
  unfold inferred_scope. destruct (str_field "scope" o) as [s|]; simpl.
  2:{ destruct market; auto. }
  case_bool_decide; simpl; [by left|]. case_bool_decide; simpl; [by right|].
  destruct market; auto.
Qed.
Lemma parsed_rule_shape config r :
  r ∈ parse_tvl_drop_rules config ->
  validate r = Ret () /\ (scope r = "market"%string \/ scope r = "protocol"%string).
Proof.
  assert (Hd : forall x, x ∈ [default_tvl_drop_rule "tvl-default"] ->
    validate x = Ret () /\ (scope x = "market"%string \/ scope x = "protocol"%string)).
  { intros x ->%list_elem_of_singleton. split; [vm_compute; done|by right]. }
  unfold parse_tvl_drop_rules. destruct (_ ≫= _) as [items|]; [|apply Hd].
  destruct (omap valid_rule _) as [|r0 rs] eqn:Ho; [apply Hd|]. rewrite <- Ho. intros Hin.
  apply list_elem_of_omap in Hin as ([i v] & _ & Hv). unfold valid_rule in Hv. cbn [fst snd] in Hv.
  destruct (as_object v) as [o|]; [|done]. cbn [mbind option_bind] in Hv.
  destruct (validate (tvl_rule_of o i)) as [[]|?|] eqn:Hval; [|done..]. injection Hv as <-.
  split; [done|]. apply inferred_scope_cases.
Qed.
Lemma one_subject r :
  validate r = Ret () -> scope r = "market"%string \/ scope r = "protocol"%string ->
  exists subject, forall market, subject_for_event r market = Some subject.
Proof.
  intros Hv Hs. apply validate_inv in Hv as (_ & _ & _ & _ & _ & _ & _ & Hm).
  unfold subject_for_event, is_market_scope, normalized_scope.
  destruct Hs as [Hs|Hs]; rewrite Hs.
  - replace (eq_ignore_ascii_case "market" "market") with true by (by vm_compute).
    rewrite bool_decide_eq_true_2 by done. specialize (Hm Hs).
    destruct (rule_market_id r) as [m|]; [|done]. destruct (trimmed_nonempty (Some m)); [|done].
    by eexists.
  - replace (eq_ignore_ascii_case "protocol" "market") with false by (by vm_compute).
    rewrite bool_decide_eq_false_2 by done. by eexists.
Qed.

(** A configuration always yields at least one rule; every rule it yields
    passed validation, so its windows are positive and its thresholds not zero
    or negative, and it has one subject, whatever market an event carries. *)
Theorem parsed_rules_valid config :
  parse_tvl_drop_rules config <> [] /\
  forall r, r ∈ parse_tvl_drop_rules config ->
    validate r = Ret () /\ (scope r = "market" \/ scope r = "protocol")%string /\
    0 < fast_window_minutes r /\ 0 < slow_window_minutes r /\
    0 < velocity_critical_minutes r /\ 0 < concurrent_window_minutes r /\
    f64_le (fast_drop_pct r) f64_zero = false /\ f64_le (slow_drop_pct r) f64_zero = false /\
    f64_le (velocity_critical_pct r) f64_zero = false /\
    exists subject, forall market, subject_for_event r market = Some subject.
Proof.
  split.
  - unfold parse_tvl_drop_rules. destruct (_ ≫= _); [|done]. by destruct (omap _ _) eqn:?.
  - intros r Hin. apply parsed_rule_shape in Hin as [Hv Hs].
    destruct (validate_inv r Hv) as (? & ? & ? & ? & ? & ? & ? & _).
    pose proof (one_subject r Hv Hs). by split_and!.
Qed.

(** Whatever the event and however its processing ends, only the state rows
    of the enabled rules of its own tenant that match it may change, and only
    when the source is bound; the configuration is never changed. *)
Theorem tvl_event_writes_own_rows event now uuids s :
  let s' := (process_event event now uuids s).1 in
  configs s'.1 = configs s.1 /\ source_bindings s'.1 = source_bindings s.1 /\
  forall t pid k, ~ (t = tenant_id event /\ pid = PATTERN_ID /\ touches s.1 event k) ->
    load_pattern_state s'.2 t pid k = load_pattern_state s.2 t pid k.
Proof. intros s'. destruct (event_frame event now uuids s) as [[= Hc Hb] Hl]. done. Qed.

(** When a matching rule has processed a sample, its stored state has
    advanced by exactly one evaluation (or stays, when the database refuses the
    write), and a detection with the severity and the transition of the
    evaluation competes for the event's detection exactly when the evaluation
    has a transition. *)
Theorem tvl_rule_advances event sample now uuids emitted i r s s' result subject :
  subject_for_event r (se_market_id sample) = Some subject ->
  process_rule event sample now uuids emitted (i, r) s = (s', Ret result) ->
  let key := load_state_key (rule_id r) subject.1.2 in
  exists st p sp, load_rule_state s.2 (tenant_id event) key = Ret st /\
    tvl_step p (tenant_id event) (cache_key (tenant_id event) key) subject.2 r
      (annotate st subject.2 event) (se_tvl_usd sample) now = Ret sp /\
    announces emitted result sp /\
    (finite_tvl_state (step_state sp) ->
     load_rule_state s'.2 (tenant_id event) key = Ret (step_state sp) \/
     refused (tenant_id event) key /\ load_rule_state s'.2 (tenant_id event) key = Ret st).
Proof.
  intros Hsub Hp key. destruct subject as [[ty sk] pk]. unfold process_rule in Hp. rewrite Hsub in Hp.
  cbn [fst snd] in *. fold key in Hp.
  apply st_bind_ret_inv in Hp as (s1 & st & Hl & Hp). injection Hl as <- Hst.
  apply st_bind_ret_inv in Hp as (s2 & [] & Hrem & Hp). rewrite bind_get_st in Hp.
  apply st_bind_ret_inv in Hp as (s3 & sp & Hstep & Hp). apply lift_inv in Hstep as [-> Hstep].
  apply st_bind_ret_inv in Hp as (s4 & [] & Hpers & Hp).
  apply st_bind_ret_inv in Hp as (s5 & [] & Hrem2 & Hp).
  assert (s'.2 = s5.2 /\ announces emitted result sp) as [Hdb Hann].
  { unfold announces. destruct (step_transition sp) as [tr|]; [rewrite bind_get_st in Hp|];
      injection Hp as <- <-; (split; [done|]); [|done]. eexists. split; [done|].
    apply built_detection. }
  exists st, s2.1, sp. split_and!; try done. intros Hfin.
  apply (tvl_persist_row _ _ _ _ _ _ _ _ _ Hpers) in Hfin.
  apply remember_load in Hrem, Hrem2. unfold load_rule_state in *.
  rewrite Hdb, Hrem2, <- Hst, <- Hrem. exact Hfin.
Qed.
End machine.

(** ** Concrete runs *)

#[local] Existing Instance chrono_Z.
#[local] Existing Instance serde_json_tree.
#[local] Existing Instance canonical_order.
#[local] Existing Instance tables_store.

(** ** A codec of the rule state *)

Definition point_to_json (p : TvlSamplePoint) : json :=
  JObject (list_to_map [ ("observed_at", time_to_json (point_at p));
                         ("tvl_usd", float_to_json (point_tvl p)) ]%string).
Definition point_of (t : instant) (x : f64) : TvlSamplePoint := {| point_at := t; point_tvl := x |}.
Definition json_point (v : json) : option TvlSamplePoint :=
  m ← json_object v; t ← field json_time "observed_at" m; x ← field json_float "tvl_usd" m;
  Some (point_of t x).
Definition json_points (v : json) : option (list TvlSamplePoint) :=
  match v with JArray l => mapM json_point l | _ => None end.
Definition json_bool (v : json) : option bool := match v with JBool b => Some b | _ => None end.
Definition tstate_to_json (st : TvlRuleState) : json :=
  JObject (list_to_map
    [ ("samples", JArray (point_to_json <$> ts_samples st));
      ("last_severity", opt_to_json JString (ts_last_severity st));
      ("last_drop_pct", opt_to_json float_to_json (ts_last_drop_pct st));
      ("active_since", opt_to_json time_to_json (ts_active_since st));
      ("last_breach_at", opt_to_json time_to_json (ts_last_breach_at st));
      ("last_transition_at", opt_to_json time_to_json (ts_last_transition_at st));
      ("last_context", opt_to_json JString (ts_last_context st));
      ("last_pause_state", opt_to_json JBool (ts_last_pause_state st));
      ("protocol_chain_key", opt_to_json JString (ts_protocol_chain_key st));
      ("tenant_has_deposit", opt_to_json JBool (ts_tenant_has_deposit st));
      ("position_data_stale", opt_to_json JBool (ts_position_data_stale st)) ]%string).
Definition tstate_of (l : list TvlSamplePoint) (m : gmap string json) : TvlRuleState :=
  {| ts_samples := l; ts_last_severity := field json_text "last_severity" m;
     ts_last_drop_pct := field json_float "last_drop_pct" m;
     ts_active_since := field json_time "active_since" m;
     ts_last_breach_at := field json_time "last_breach_at" m;
     ts_last_transition_at := field json_time "last_transition_at" m;
     ts_last_context := field json_text "last_context" m;
     ts_last_pause_state := field json_bool "last_pause_state" m;
     ts_protocol_chain_key := field json_text "protocol_chain_key" m;
     ts_tenant_has_deposit := field json_bool "tenant_has_deposit" m;
     ts_position_data_stale := field json_bool "position_data_stale" m |}.
Definition tstate_of_json (v : json) : option TvlRuleState :=
  m ← json_object v; l ← field json_points "samples" m; Some (tstate_of l m).
Lemma finite_float_roundtrip x : is_finite x = true -> json_float (float_to_json x) = Some x.
Proof. intros Hx. unfold float_to_json. rewrite Hx. simpl. unfold finite_f64. by rewrite Hx. Qed.
Lemma point_roundtrip p : is_finite (point_tvl p) = true -> json_point (point_to_json p) = Some p.
Proof.
  destruct p as [t x]. intros Hx. unfold json_point, point_to_json. simpl json_object.
  cbn [mbind option_bind].
  change (field json_time "observed_at" _) with (json_time (time_to_json t)).
  change (field json_float "tvl_usd" _) with (json_float (float_to_json x)).
  rewrite json_time_roundtrip. cbn [mbind option_bind]. by rewrite finite_float_roundtrip.
Qed.
Lemma points_roundtrip l :
  Forall (fun p => is_finite (point_tvl p) = true) l ->
  json_points (JArray (point_to_json <$> l)) = Some l.
Proof.
  intros Hl. unfold json_points. apply mapM_Some. induction Hl as [|p l Hp Hl IH]; [constructor|].
  constructor; [by apply point_roundtrip|exact IH].
Qed.
Lemma opt_bool_roundtrip o : json_bool (opt_to_json JBool o) = o.
Proof. by destruct o. Qed.
Lemma opt_finite_roundtrip o :
  (forall x, o = Some x -> is_finite x = true) -> json_float (opt_to_json float_to_json o) = o.
Proof.
  intros Ho. rewrite opt_float_roundtrip. destruct o as [x|]; [|done]. simpl. unfold finite_f64.
  by rewrite (Ho x eq_refl).
Qed.
Lemma tstate_json_roundtrip st v : finite_tvl_state st ->
  Ret (tstate_to_json st) = Ret v -> tstate_of_json v = Some st.
Proof.
  intros [Hl Hx] [= <-]. destruct st as [l b x c d e f g h i j]. unfold tstate_of_json. simpl json_object.
  cbn [mbind option_bind].
  change (field json_points "samples" _) with (json_points (JArray (point_to_json <$> l))).
  rewrite points_roundtrip by exact Hl. cbn [mbind option_bind]. unfold tstate_of. f_equal.
  f_equal; first [ exact (opt_time_roundtrip _) | exact (opt_text_roundtrip _)
                 | exact (opt_bool_roundtrip _) | exact (opt_finite_roundtrip _ Hx) ].
Qed.
#[local] Instance tvl_codec_json : TvlCodec :=
  {| tstate_to_value := fun st => Ret (tstate_to_json st); tstate_from_value := tstate_of_json;
     tstate_roundtrip := tstate_json_roundtrip |}.

(** ** Two protocols drop *)

Definition rule_config (id protocol : string) : json :=
  JObject (list_to_map [ ("rule_id", JString id); ("protocol_id", JString protocol) ]%string).
Definition tvl_config : Value :=
  VObj [ ("rules", JArray [rule_config "r1" "aave_v3"; rule_config "r2" "compound"]) ]%string.
Definition no_rule : TvlDropRule := default_tvl_drop_rule "none".
Definition rule1 : TvlDropRule := default no_rule (parse_tvl_drop_rules tvl_config !! 0%nat).
Definition rule2 : TvlDropRule := default no_rule (parse_tvl_drop_rules tvl_config !! 1%nat).
Lemma config_rules : parse_tvl_drop_rules tvl_config = [rule1; rule2].
Proof. reflexivity. Qed.
Lemma parsed_rules_valid_witness : validate rule2 = Ret () /\ 0 < fast_window_minutes rule2.
Proof.
  destruct (proj2 (parsed_rules_valid tvl_config) rule2) as (H1 & _ & H2 & _).
  - rewrite config_rules. apply elem_of_cons. right. by apply list_elem_of_singleton.
  - split; [exact H1|exact H2].
Defined.

Definition tvl_event (protocol : string) (tvl t : Z) : UnifiedEvent :=
  {| event_id := "e"; tenant_id := "acme"; source_id := "s"; source_type := EvmChain;
     event_type := "protocol_tvl"; timestamp := sec t;
     payload := VObj [ ("protocol_id", JString protocol); ("chain_slug", JString "base");
                       ("tvl_usd", JInt tvl) ]%string;
     chain_id := None; block_number := None; tx_hash := None; market_key := None; price := None |}.
Definition uuid_pairs (i : nat) : string * string := ("u1", "u2")%string.
Definition machine : Type := TvlDropPattern * Db.
Definition start : machine :=
  (reload_config TvlDropPattern_default {[ ("acme", PATTERN_ID)%string := tvl_config ]},
   (empty_tables : PatternTables)).
Definition step (s : machine) (e : UnifiedEvent) : machine :=
  (process_event e (timestamp e) uuid_pairs s).1.
Definition stored (s : machine) (key : string) : TvlRuleState :=
  outcome_or TvlRuleState_default (load_rule_state s.2 "acme" key).
Definition million (n : Z) : Z := n * 1000000.
(** both protocols at 100 million, then the first at 50 two minutes later *)
Definition both_seen : machine :=
  step (step start (tvl_event "aave_v3" (million 100) 0)) (tvl_event "compound" (million 100) 0).
Definition one_dropped : machine := step both_seen (tvl_event "aave_v3" (million 50) 120).
Definition two_dropped : machine := step one_dropped (tvl_event "compound" (million 50) 180).
Definition row1 : string := "r1:aave_v3:base".
Definition row2 : string := "r2:compound:base".

Example drops_are_told_apart :
  ts_last_context (stored one_dropped row1) = Some "isolated"%string /\
  ts_last_severity (stored two_dropped row2) = Some "critical"%string /\
  ts_last_context (stored two_dropped row2) = Some "systemic"%string.
Proof. vm_compute. split_and!; reflexivity. Qed.

Definition key1 : string := "aave_v3:base".
Definition key2 : string := "compound:base".
Definition tvl_at (n : Z) : f64 := f64_of_Z (million n).
Definition no_step : TvlStep :=
  {| step_state := TvlRuleState_default; step_eval :=
       {| te_fast_drop_pct := f64_zero; te_slow_drop_pct := f64_zero; te_velocity_drop_pct := f64_zero;
          te_selected_drop_pct := f64_zero; te_reference_tvl_usd := None; te_time_to_reach := None;
          te_drain_rate_usd_per_min := None; te_time_to_empty_minutes := None;
          te_velocity_pattern := None; te_base_severity := None; te_breached_branches := [];
          te_deposit_gate_skipped := false; te_position_data_stale := false |};
     step_severity := Info; step_class := NoContext; step_transition := None |}.
(** the second protocol's drop, evaluated while the first is dropping *)
Definition before2 : TvlRuleState :=
  annotate (stored one_dropped row2) key2 (tvl_event "compound" (million 50) 180).
Definition second_step : outcome TvlStep :=
  tvl_step one_dropped.1 "acme" (cache_key "acme" row2) key2 rule2 before2 (tvl_at 50) (sec 180).
Definition second : TvlStep := outcome_or no_step second_step.
Lemma second_eq :
  tvl_step one_dropped.1 "acme" (cache_key "acme" row2) key2 rule2 before2 (tvl_at 50) (sec 180) =
  Ret second.
Proof. apply (ret_or no_step). vm_compute. reflexivity. Qed.

Lemma tvl_step_refines_incident_witness :
  tvl_incident (active before2) (te_base_severity (step_eval second))
    (is_systemic (step_class second)) (step_transition second) (active (step_state second)) /\
  drop_elsewhere one_dropped.1 "acme" (cache_key "acme" row2) key2 (sec 180) 5.
Proof.
  destruct (tvl_step_refines_incident one_dropped.1 "acme" (cache_key "acme" row2) key2 rule2 before2
    (tvl_at 50) (sec 180) second second_eq) as (H1 & _ & [H2 _]).
  split; [exact H1|]. destruct H2 as (_ & _ & H2); [vm_compute; reflexivity|exact H2].
Defined.
Lemma second_run :
  tvl_run rule2 (stored one_dropped row2) [step_transition second] (step_state second).
Proof.
  exact (tr_sample rule2 (stored one_dropped row2) [] (stored one_dropped row2) one_dropped.1 "acme"
    (cache_key "acme" row2) key2 (tvl_event "compound" (million 50) 180) (tvl_at 50) (sec 180) second
    (tr_nil _ _) second_eq).
Qed.
Lemma second_start : active (stored one_dropped row2) = None.
Proof. vm_compute. reflexivity. Qed.
Lemma tvl_announced_bounded_witness : announcements [step_transition second] <= 2.
Proof.
  exact (proj1 (proj2 (tvl_announced_bounded rule2 (stored one_dropped row2) [step_transition second]
    (step_state second) second_run (or_introl second_start)))).
Defined.
Definition drop_sample : TvlStateEvent :=
  {| se_protocol_id := "compound"; se_chain_slug := "base"; se_market_id := None;
     se_tvl_usd := tvl_at 50; se_block_number := 0; se_tx_hash := None |}.
Definition has_result (m : outcome (option DetectionResult)) : bool :=
  match m with Ret (Some _) => true | _ => false end.
Lemma tvl_rule_advances_witness :
  exists d p sp,
    (process_rule (tvl_event "compound" (million 50) 180) drop_sample (sec 180) uuid_pairs None
       (0%nat, rule2) one_dropped).2 = Ret (Some d) /\
    tvl_step p "acme" (cache_key "acme" row2) key2 rule2 before2 (tvl_at 50) (sec 180) = Ret sp /\
    announces None (Some d) sp.
Proof.
  destruct (process_rule (tvl_event "compound" (million 50) 180) drop_sample (sec 180) uuid_pairs None
    (0%nat, rule2) one_dropped) as [s' [[d|]|e|]] eqn:He;
    [|apply (f_equal (fun x => has_result x.2)) in He; vm_compute in He; discriminate..].
  destruct (tvl_rule_advances (tvl_event "compound" (million 50) 180) drop_sample (sec 180) uuid_pairs
    None 0 rule2 one_dropped s' (Some d) ("protocol", key2, key2)%string eq_refl He)
    as (st & p & sp & Hst & Hs & Ha & _).
  exists d, p, sp. split_and!; [reflexivity| |exact Ha].
  unfold before2, stored. cbn [fst snd] in Hst, Hs.
  change (load_state_key (rule_id rule2) key2) with row2 in Hst, Hs.
  change (tenant_id (tvl_event "compound" (million 50) 180)) with "acme"%string in Hst, Hs.
  rewrite Hst. exact Hs.
Defined.
