(* ===== verification/GenericRule.v ===== *)
(** * The generic rule pattern ([apps/detector/src/patterns/generic_rule.rs])

    Tenant-authored rules executed by a sandbox runtime: which compiled rules a
    configuration yields, the request sent for a rule, how the service's answer
    is read, and [process_event], which stops at the first rule that matches.
    The runtime service is a parameter: [Runtime] is its answer to a request, an
    error being a transport or decoding failure.  Logging is left out. *)
From stdpp Require Import strings.
From S2P Require Import Prelude F64 Text Numbers Ports EventSchema PatternCommon Persistence.

Definition PATTERN_ID : string := "generic_rule".

Section generic_rule.
Context `{Chrono} `{SerdeJson} `{HashOrder} `{!PatternStore}.

Record CompiledRuleRef := {
  rule_id : string;
  version : option Z;
  language : string;
  engine : string;
  compiled_artifact : Value;
  params : Value
}.
Record RuntimeExecuteRequest := {
  req_tenant_id : string;
  req_pattern_id : string;
  req_rule_id : string;
  req_rule_version : option Z;
  req_language : string;
  req_compiled_artifact : Value;
  req_event : Value;
  req_state : Value;
  req_params : Value;
  req_now : string
}.
Record RuntimeMetrics := { execution_ms : Z; ops_count : Z }.
Record RuntimeAlert := {
  alert_severity : string;
  alert_title : string;
  alert_reason : string;
  alert_payload : Value
}.
Record RuntimeReport := {
  report_ok : bool;
  matched_alerts : list RuntimeAlert;
  report_state : Value;
  trace : list string;
  metrics : RuntimeMetrics;
  error_code : option string
}.
Record RuntimeExecuteResponse := { response_ok : bool; runtime : RuntimeReport }.

(** the answer of the service: its HTTP status and the decoded body *)
Record Reply := { status : Z; body : outcome RuntimeExecuteResponse }.
Definition Runtime : Type := string -> option string -> RuntimeExecuteRequest -> outcome Reply.

(** pattern id -> tenant id -> compiled rules *)
Record GenericRulePattern := {
  compiled_rules : gmap string (gmap string (list CompiledRuleRef));
  runtime_url : option string;
  runtime_token : option string;
  runtime_degraded : gmap string bool
}.

Definition state_key (pattern_id rule_id : string) : string :=
  "runtime:" +:+ pattern_id +:+ ":" +:+ rule_id.
Definition health_key (tenant_id pattern_id rule_id : string) : string :=
  tenant_id +:+ ":" +:+ pattern_id +:+ ":" +:+ rule_id.
Definition severity_from_runtime (s : string) : Severity :=
  let s := to_ascii_lowercase s in
  if bool_decide (s = "critical") then Critical
  else if bool_decide (s = "high") then High
  else if bool_decide (s = "medium") then Medium
  else if bool_decide (s = "low") then Low
  else if bool_decide (s = "info") then Info
  else Medium.
Definition risk_score_for_severity (s : Severity) : f64 :=
  f64_of_Z match s with Critical => 95 | High => 80 | Medium => 60 | Low => 35 | Info => 10 end.
Definition signal_type_for_pattern (id : string) : SignalType :=
  if bool_decide (id = "depeg") then PegDeviation
  else if bool_decide (id = "tvl_drop") then PriceDeviation
  else NearMissPattern.
Definition attack_family_for_pattern (id : string) : AttackFamily :=
  if bool_decide (id = "depeg") then FamilyPegDeviation
  else if bool_decide (id = "tvl_drop") then LiquidationCascade
  else if bool_decide (id = "flash_loan") then FlashLoan
  else UnknownFamily.
Definition chain_from_event (event : UnifiedEvent) : Chain :=
  let id := default 0 (chain_id event) in
  if id =? 1 then Ethereum else if id =? 42161 then Arbitrum else if id =? 10 then Optimism
  else if id =? 8453 then Base else if id =? 137 then Polygon else if id =? 43114 then Avalanche
  else if id =? 56 then BSC else UnknownChain.
Definition chain_slug (c : Chain) : string :=
  match c with
  | Ethereum => "ethereum" | Arbitrum => "arbitrum" | Optimism => "optimism" | Base => "base"
  | Polygon => "polygon" | Avalanche => "avalanche" | BSC => "bsc" | Offchain => "offchain"
  | UnknownChain => "unknown"
  end.

(** [uuid] and the two readings of the wall clock are drawn by the call *)
Definition detection_from_alert (pattern rule_id : string) (event : UnifiedEvent)
    (alert : RuntimeAlert) (runtime_trace : list string) (uuid : string)
    (detected created : DateTime) : DetectionResult :=
  let '(simulated, run_id) := simulation_metadata_from_event event in
  let sev := severity_from_runtime (alert_severity alert) in
  let chain := chain_from_event event in
  {| detection_id := uuid; pattern_id := pattern; det_event_key := Some (event_id event);
     subject_type := Some "rule"%string; subject_key := Some rule_id;
     det_tenant_id := Some (tenant_id event); det_chain := chain; det_chain_slug := chain_slug chain;
     protocol := pattern; det_lifecycle_state := Provisional; requires_confirmation := false;
     attack_family := attack_family_for_pattern pattern; severity := sev;
     description := Some (alert_reason alert); triggered_rule_ids := [rule_id];
     det_tx_hash := default (event_id event) (tx_hash event);
     det_block_number := default 0 (block_number event);
     signals := [ {| signal_type := signal_type_for_pattern pattern;
                     signal_value := risk_score_for_severity sev;
                     signal_label := Some (alert_title alert);
                     signal_source_id := Some (source_id event) |} ];
     risk_score := {| score := risk_score_for_severity sev; confidence := f64_lit 72 100;
                      rationale := [alert_reason alert]; attribution := [] |};
     incident_transition := Some Trigger; context_classification := Some NoContext;
     confidence_breakdown := ∅;
     oracle_context := list_to_map
       [ ("runtime_payload", alert_payload alert);
         ("runtime_trace", VArray (VString <$> runtime_trace));
         ("source_id", VString (source_id event)) ]%string;
     actions_recommended := [ "Review runtime-generated alert payload";
                              "Confirm source freshness and quorum" ]%string;
     is_simulated := simulated; simulation_run_id := run_id;
     detected_at := detected; created_at := created |}.

(** ** The request and the answer *)

Definition report_failure (state : Value) (line : string) (code : string) : RuntimeReport :=
  {| report_ok := false; matched_alerts := []; report_state := state; trace := [line];
     metrics := {| execution_ms := 0; ops_count := 0 |}; error_code := Some code |}.
Definition insert_some (k : string) (o : option Value) (m : gmap string Value) : gmap string Value :=
  match o with Some v => <[k := v]> m | None => m end.
Definition event_payload (event : UnifiedEvent) : Value :=
  match as_object (payload event) with
  | Some m =>
      VObject
        (insert_some "tx_hash" (VString <$> tx_hash event)
        (insert_some "block_number" (VInt <$> block_number event)
        (insert_some "price" (VFloat <$> price event)
        (insert_some "market_key" (VString <$> market_key event)
        (<["source_id"%string := VString (source_id event)]>
        (<["event_type"%string := VString (event_type event)]>
        (<["event_id"%string := VString (event_id event)]> m)))))))
  | None => payload event
  end.
Definition request_for (pattern : string) (rule : CompiledRuleRef) (event : UnifiedEvent)
    (state : Value) (wall : DateTime) : RuntimeExecuteRequest :=
  {| req_tenant_id := tenant_id event; req_pattern_id := pattern; req_rule_id := rule_id rule;
     req_rule_version := version rule; req_language := language rule;
     req_compiled_artifact := compiled_artifact rule; req_event := event_payload event;
     req_state := state; req_params := params rule; req_now := to_rfc3339 wall |}.
Definition is_success (status : Z) : bool := (200 <=? status) && (status <? 300).
Definition execute_runtime (p : GenericRulePattern) (service : Runtime) (pattern : string)
    (rule : CompiledRuleRef) (event : UnifiedEvent) (state : Value) (wall : DateTime)
  : outcome RuntimeReport :=
  match runtime_url p with
  | None => Ret (report_failure state "runtime_url_not_configured" "runtime_url_not_configured")
  | Some url =>
      reply ← service (url +:+ "/execute") (runtime_token p)
                (request_for pattern rule event state wall);
      if negb (is_success (status reply)) then
        Ret (report_failure (VObj []) ("http_status=" +:+ fmt_Z (status reply)) "runtime_http_error")
      else
        b ← body reply;
        if negb (response_ok b) then
          Ret (report_failure (VObj []) "runtime_response_not_ok" "runtime_response_not_ok")
        else Ret (runtime b)
  end.

(** ** Configuration *)

Definition sandbox_engine (e : string) : bool :=
  bool_decide (e = "python-sandbox-v1") || bool_decide (e = "js-sandbox-v1").
Definition compile_item (item : Value) : option CompiledRuleRef :=
  o ← as_object item;
  let id := trim (default ""%string (v ← o !! "rule_id"%string; as_str v)) in
  if is_empty id then None
  else
    let compiled := default (VObj []) (o !! "compiled_artifact"%string) in
    let eng := default "unknown"%string (get_str "engine" compiled) in
    if negb (sandbox_engine eng) then None
    else Some {| rule_id := id; version := v ← o !! "rule_version"%string; as_i64 v;
                 language := default "cel"%string (v ← o !! "language"%string; as_str v);
                 engine := eng; compiled_artifact := compiled;
                 params := default (VObj []) (o !! "authoring_model"%string) |}.
Definition compiled_of (config : Value) : list CompiledRuleRef :=
  match vget "rules" config ≫= as_array with Some items => omap compile_item items | None => [] end.
Definition built_in (id : string) : bool :=
  bool_decide (id = "depeg"%string) || bool_decide (id = "flash_loan"%string)
  || bool_decide (id = "tvl_drop"%string).
Definition reload_entry (next : gmap string (gmap string (list CompiledRuleRef)))
    (entry : (string * string) * Value) : gmap string (gmap string (list CompiledRuleRef)) :=
  let '((tenant, pattern), config) := entry in
  if built_in pattern then next
  else match compiled_of config with
       | [] => next
       | rules => <[pattern := <[tenant := rules]> (default ∅ (next !! pattern))]> next
       end.
Definition reload_config (p : GenericRulePattern) (config_map : gmap (string * string) Value)
  : GenericRulePattern :=
  {| compiled_rules := foldl reload_entry ∅ (hash_entries config_map);
     runtime_url := runtime_url p; runtime_token := runtime_token p;
     runtime_degraded := runtime_degraded p |}.
(** [Default], from the two environment variables *)
Fixpoint trim_end_slashes (fuel : nat) (s : string) : string :=
  match fuel, strip_suffix "/" s with
  | S fuel, Some r => trim_end_slashes fuel r
  | _, _ => s
  end.
Definition GenericRulePattern_default (url_var token_var : option string) : GenericRulePattern :=
  {| compiled_rules := ∅;
     runtime_url := u ← url_var; let u := trim u in
                    let u := trim_end_slashes (String.length u) u in
                    if is_empty u then None else Some u;
     runtime_token := t ← token_var; if is_empty (trim t) then None else Some t;
     runtime_degraded := ∅ |}.

(** ** Processing an event *)

Notation M := (ST (GenericRulePattern * Db)).
(** what the i-th candidate draws: its uuid, the service's answer, the readings
    of the wall clock for the request and for the detection *)
Record Draw := {
  draw_uuid : string;
  draw_runtime : Runtime;
  draw_request_at : DateTime;
  draw_detected_at : DateTime;
  draw_created_at : DateTime
}.
Definition candidates (p : GenericRulePattern) (tenant : string) : list (string * CompiledRuleRef) :=
  flat_map (fun kv : string * gmap string (list CompiledRuleRef) =>
              (fun r => (kv.1, r)) <$> default [] (kv.2 !! tenant)) (hash_entries (compiled_rules p)).
Definition set_degraded (p : GenericRulePattern) (key : string) (b : bool) : GenericRulePattern :=
  {| compiled_rules := compiled_rules p; runtime_url := runtime_url p; runtime_token := runtime_token p;
     runtime_degraded := <[key := b]> (runtime_degraded p) |}.
Definition alert_value (a : RuntimeAlert) : Value :=
  VObj [ ("severity", VString (alert_severity a)); ("title", VString (alert_title a));
         ("reason", VString (alert_reason a)); ("payload", alert_payload a) ]%string.
Definition runtime_snapshot (rule : CompiledRuleRef) (r : RuntimeReport) : Value :=
  VObj [ ("rule_id", VString (rule_id rule)); ("engine", VString (engine rule));
         ("language", VString (language rule)); ("runtime_trace", VArray (VString <$> trace r));
         ("runtime_metrics", VObj [ ("execution_ms", VInt (execution_ms (metrics r)));
                                    ("ops_count", VInt (ops_count (metrics r))) ]);
         ("matched_alerts", VArray (alert_value <$> matched_alerts r)) ]%string.
(** a statement whose error is only logged *)
Definition logged (f : Db -> Db * outcome unit) : M unit := fun s =>
  let '(db, o) := f s.2 in
  ((s.1, db), match o with Panic => Panic | _ => Ret () end).
Definition load_state (tenant pattern key : string) : M (option Value) := fun s =>
  (s, load_pattern_state s.2 tenant pattern key).
Definition mark_degraded (key : string) (b : bool) : M unit := fun s =>
  ((set_degraded s.1 key b, s.2), Ret ()).
Definition run_candidate (event : UnifiedEvent) (draw : nat -> Draw)
    (c : nat * (string * CompiledRuleRef)) : M (option DetectionResult) :=
  let '(i, (pattern, rule)) := c in
  let key := state_key pattern (rule_id rule) in
  let d := draw i in
  state ← load_state (tenant_id event) pattern key;
  s ← get_st;
  r ← lift (execute_runtime s.1 (draw_runtime d) pattern rule event (default (VObj []) state)
              (draw_request_at d));
  let health := health_key (tenant_id event) pattern (rule_id rule) in
  if negb (report_ok r) then mark_degraded health true;; mret None
  else
    mark_degraded health false;;
    logged (fun db => upsert_pattern_state db (tenant_id event) pattern key (report_state r));;
    match matched_alerts r with
    | [] => mret None
    | first :: _ =>
        let det := detection_from_alert pattern (rule_id rule) event first (trace r) (draw_uuid d)
                     (draw_detected_at d) (draw_created_at d) in
        logged (fun db => insert_pattern_snapshot db
          {| snap_tenant_id := tenant_id event; snap_pattern_id := pattern;
             snap_snapshot_key := rule_id rule +:+ ":" +:+ event_id event;
             snap_data := append_snapshot_meta event (runtime_snapshot rule r);
             snap_score := Some (risk_score_for_severity (severity det));
             snap_severity := Some (to_ascii_lowercase (alert_severity first));
             snap_observed_at := timestamp event |});;
        mret (Some det)
    end.
Definition process_event (event : UnifiedEvent) (draw : nat -> Draw) : M (option DetectionResult) :=
  s ← get_st;
  match runtime_url s.1 with
  | None => mret None
  | Some _ => first_some (run_candidate event draw) (imap pair (candidates s.1 (tenant_id event)))
  end.

(** ** What a configuration yields *)

(** the row [load_tenant_pattern_configs] builds per tenant and pattern *)
Definition composite_config (enabled config bindings policy channels : Value) : Value :=
  VObj [ ("enabled", enabled); ("detection_config", config); ("source_bindings", bindings);
         ("alert_policy", policy); ("notification_channels", channels) ]%string.
Lemma composite_compiles_nothing e c b pol ch : compiled_of (composite_config e c b pol ch) = [].
Proof.
  unfold compiled_of, composite_config, vget, VObj. rewrite as_object_VObject. simpl.
  by rewrite !lookup_insert_ne, lookup_empty.
Qed.
Lemma reload_entries_empty l :
  (forall kv, kv ∈ l -> compiled_of kv.2 = []) -> foldl reload_entry ∅ l = ∅.
Proof.
  intros Hl. apply (foldl_inv (fun m => m = ∅)); [done|]. intros acc [[tenant pat] config] Hin ->.
  simpl. specialize (Hl _ Hin). simpl in Hl. rewrite Hl. by destruct (built_in pat).
Qed.

(** ** One candidate *)

Definition quiet (r : RuntimeReport) : Prop := report_ok r = false \/ matched_alerts r = [].
(** the service's answer to a candidate in a state *)
Definition answers (event : UnifiedEvent) (draw : nat -> Draw) (s : GenericRulePattern * Db)
    (c : nat * (string * CompiledRuleRef)) (r : RuntimeReport) : Prop :=
  exists state,
    load_pattern_state s.2 (tenant_id event) c.2.1 (state_key c.2.1 (rule_id c.2.2)) = Ret state /\
    execute_runtime s.1 (draw_runtime (draw c.1)) c.2.1 c.2.2 event (default (VObj []) state)
      (draw_request_at (draw c.1)) = Ret r.
Lemma candidate_inv event draw c s s' result :
  run_candidate event draw c s = (s', Ret result) ->
  exists r, answers event draw s c r /\
    match result with
    | None => quiet r
    | Some d => report_ok r = true /\ exists first rest, matched_alerts r = first :: rest /\
        d = detection_from_alert c.2.1 (rule_id c.2.2) event first (trace r) (draw_uuid (draw c.1))
              (draw_detected_at (draw c.1)) (draw_created_at (draw c.1))
    end.
Proof.
  destruct c as [i [pat rule]]. unfold run_candidate. intros Hr.
  apply st_bind_ret_inv in Hr as (s1 & state & Hl & Hr). injection Hl as <- Hl.
  apply st_bind_ret_inv in Hr as (s2 & p & Hg & Hr). injection Hg as <- <-.
  apply st_bind_ret_inv in Hr as (s3 & r & Hx & Hr). injection Hx as <- Hx.
  exists r. split; [by exists state|]. unfold quiet.
  destruct (report_ok r) eqn:Hok; simpl negb in Hr.
  2:{ apply st_bind_ret_inv in Hr as (s4 & [] & _ & Hr). injection Hr as _ <-. by left. }
  apply st_bind_ret_inv in Hr as (s4 & [] & _ & Hr). apply st_bind_ret_inv in Hr as (s5 & [] & _ & Hr).
  destruct (matched_alerts r) as [|first rest] eqn:Ha; [injection Hr as _ <-; by right|].
  apply st_bind_ret_inv in Hr as (s6 & [] & _ & Hr). injection Hr as _ <-.
  split; [done|]. by exists first, rest.
Qed.
Definition candidate_row (event : UnifiedEvent) (c : nat * (string * CompiledRuleRef))
    (t p k : string) : Prop :=
  t = tenant_id event /\ p = c.2.1 /\ k = state_key c.2.1 (rule_id c.2.2).
Lemma logged_touched rows (f : Db -> Db * outcome unit) (s : GenericRulePattern * Db) :
  touched rows s.2 (f s.2).1 -> touched rows s.2 (logged f s).1.2.
Proof. unfold logged. by destruct (f s.2). Qed.
Lemma candidate_touched event draw c s :
  touched (candidate_row event c) s.2 (run_candidate event draw c s).1.2.
Proof.
  destruct c as [i [pat rule]]. unfold run_candidate.
  apply bind_touched; [done|]. intros st s1 _. apply bind_touched; [done|]. intros p s2 _.
  apply bind_touched; [done|]. intros r s3 _. destruct (report_ok r); simpl negb; cbv iota.
  2:{ by apply bind_touched. }
  apply bind_touched; [done|]. intros [] s4 _. apply bind_touched.
  { apply logged_touched, touched_upsert. }
  intros [] s5 _. destruct (matched_alerts r); [done|]. apply bind_touched; [|done].
  apply logged_touched, touched_snapshot.
Qed.

(** ** The properties *)

(** With the configurations the repository builds, the detection config of
    the tenant under its own key, the pattern compiles no rule at all, and every
    event passes through it without a request to the runtime, a detection or a
    write. *)
Theorem composite_configs_run_nothing p config_map event draw db :
  (forall k v, config_map !! k = Some v ->
     exists e c b pol ch, v = composite_config e c b pol ch) ->
  compiled_rules (reload_config p config_map) = ∅ /\
  process_event event draw (reload_config p config_map, db) = ((reload_config p config_map, db), Ret None).
Proof.
  intros Hc. assert (Hn : compiled_rules (reload_config p config_map) = ∅).
  { apply reload_entries_empty. intros [k v] Hin. apply elem_of_hash_entries in Hin.
    destruct (Hc k v Hin) as (e & c & b & pol & ch & ->). apply composite_compiles_nothing. }
  split; [done|]. clear Hc. set (q := reload_config p config_map) in *. clearbody q.
  unfold process_event, mbind, st_bind, get_st. cbn [fst].
  destruct (runtime_url q); [|done]. unfold candidates. rewrite Hn.
  replace (hash_entries ∅) with ([] : list (string * gmap string (list CompiledRuleRef))); [done|].
  symmetry. apply length_zero_iff_nil. by rewrite length_hash_entries.
Qed.

(** A detection comes from the first candidate rule of the tenant whose
    runtime report is ok and has an alert, and from its first alert; the rules
    before it were executed and stayed quiet, the rules after it were not
    executed. *)
Theorem first_match_wins event draw s s' d :
  process_event event draw s = (s', Ret (Some d)) ->
  exists before i pat rule after s1 r first rest,
    imap pair (candidates s.1 (tenant_id event)) = before ++ (i, (pat, rule)) :: after /\
    first_some (run_candidate event draw) before s = (s1, Ret None) /\
    run_candidate event draw (i, (pat, rule)) s1 = (s', Ret (Some d)) /\
    answers event draw s1 (i, (pat, rule)) r /\ report_ok r = true /\
    matched_alerts r = first :: rest /\
    d = detection_from_alert pat (rule_id rule) event first (trace r) (draw_uuid (draw i))
          (draw_detected_at (draw i)) (draw_created_at (draw i)).
Proof.
  unfold process_event. intros Hp. apply st_bind_ret_inv in Hp as (s0 & p & Hg & Hp).
  injection Hg as <- <-. destruct (runtime_url s.1); [|done].
  apply first_some_Some in Hp as (before & [i [pat rule]] & after & s1 & Hl & Hb & Hx).
  pose proof Hx as Hinv. apply candidate_inv in Hinv as (r & Ha & Hok & first & rest & Hm & Hd).
  by exists before, i, pat, rule, after, s1, r, first, rest.
Qed.
Lemma generic_touched event draw s :
  touched (fun t p k => t = tenant_id event /\ exists rule, (p, rule) ∈ candidates s.1 (tenant_id event) /\
             k = state_key p (rule_id rule)) s.2 (process_event event draw s).1.2.
Proof.
  unfold process_event. apply bind_touched; [done|]. intros s0 s1 [= <- <-].
  destruct (runtime_url s.1); [|done]. apply first_some_touched. intros [i [pat rule]] s1 Hin.
  eapply touched_weaken; [|apply candidate_touched]. intros t p k (-> & -> & ->). split; [done|].
  exists rule. split; [|done]. by apply elem_of_numbered in Hin.
Qed.
End generic_rule.
