(* ===== verification/Registry.v ===== *)
(** * The pattern registry ([apps/detector/src/patterns/mod.rs], [apps/detector/src/main.rs])

    A pattern is a record of operations over its own state ([dyn
    DetectionPattern]); the registry owns a list of patterns with their states
    and gives every event to each of them in turn, over one database and one
    detections stream.  An error of a pattern, of the save or of the publication
    is logged and the next pattern goes on; a panic unwinds.  The batch loop of
    the detector follows.  [DetectionSink] is the interface of the statements
    and of the Redis stream the registry writes detections to. *)
From stdpp Require Import strings.
From S2P Require Import Prelude F64 Text Ports EventSchema FieldMapping PatternCommon Persistence DepegPolicy DepegPattern Utilization UtilizationPattern FlashLoan TvlDrop TvlDropPattern GenericRule.

Class DetectionSink `{PatternStore} := {
  Stream : Type;
  published : Stream -> list DetectionResult;
  insert_raw_event : Db -> UnifiedEvent -> Db * outcome unit;
  save_detection : Db -> DetectionResult -> Db * outcome unit;
  publish_detection : Stream -> DetectionResult -> Stream * outcome unit;
  insert_raw_event_load : forall db e t p k,
    load_pattern_state (insert_raw_event db e).1 t p k = load_pattern_state db t p k;
  save_detection_load : forall db d t p k,
    load_pattern_state (save_detection db d).1 t p k = load_pattern_state db t p k;
  publish_ok : forall s d,
    (publish_detection s d).2 = Ret () -> published (publish_detection s d).1 = published s ++ [d];
  publish_failed : forall s d,
    published (publish_detection s d).1 = published s \/
    published (publish_detection s d).1 = published s ++ [d]
}.

Section registry.
Context `{Chrono} `{SerdeJson} `{!FieldCodec} `{Unicode} `{Powi} `{HashOrder} `{!DepegCodec}
  `{!UtilizationCodec} `{!FlashLoanCodec} `{!TvlCodec} `{!PatternStore} `{!DetectionSink}.

(** what one pattern draws while it processes one event: uuids, and for the
    generic rules the runtime's answers and the wall clock *)
Record Draws := {
  fresh : nat -> string * string;
  generic_draw : nat -> Draw
}.
Notation config_map := (gmap (string * string) Value).

(** [trait DetectionPattern] *)
Record DetectionPattern := {
  dp_state : Type;
  dp_id : string;
  dp_reload : config_map -> ST dp_state unit;
  dp_process : UnifiedEvent -> DateTime -> Draws -> ST (dp_state * Db) (option DetectionResult)
}.
(** [Box<dyn DetectionPattern>] *)
Record boxed := Box { the_pattern : DetectionPattern; the_state : dp_state the_pattern }.

Definition always {S} (f : config_map -> S -> S) (m : config_map) : ST S unit :=
  fun s => (f m s, Ret ()).
Definition depeg_pattern : DetectionPattern :=
  {| dp_state := DepegPattern.DepegPattern; dp_id := DepegPattern.PATTERN_ID;
     dp_reload := always (fun m p => DepegPattern.reload_config p m);
     dp_process := fun e now dr s => DepegPattern.process_event s.1 e now s.2 (fresh dr 0%nat) |}.
Definition flash_loan_pattern : DetectionPattern :=
  {| dp_state := FlashLoan.FlashLoanPattern; dp_id := FlashLoan.PATTERN_ID;
     dp_reload := always (fun m p => FlashLoan.reload_config p m);
     dp_process := fun e now dr s => FlashLoan.process_event s.1 e now s.2 (fresh dr 0%nat) |}.
Definition tvl_drop_pattern : DetectionPattern :=
  {| dp_state := TvlDropPattern.TvlDropPattern; dp_id := TvlDropPattern.PATTERN_ID;
     dp_reload := always (fun m p => TvlDropPattern.reload_config p m);
     dp_process := fun e now dr => TvlDropPattern.process_event e now (fresh dr) |}.
Definition generic_rule_pattern : DetectionPattern :=
  {| dp_state := GenericRule.GenericRulePattern; dp_id := GenericRule.PATTERN_ID;
     dp_reload := always (fun m p => GenericRule.reload_config p m);
     dp_process := fun e _ dr => GenericRule.process_event e (generic_draw dr) |}.
Definition utilization_high_pattern : DetectionPattern :=
  {| dp_state := UtilizationPattern.UtilizationHighPattern; dp_id := UtilizationPattern.PATTERN_ID;
     dp_reload := always (fun m p => UtilizationPattern.reload_config p m);
     dp_process := fun e now dr => UtilizationPattern.process_event e now (fresh dr) |}.
(** [PatternRegistry::new], given the two environment variables *)
Definition registry_new (url_var token_var : option string) : list boxed :=
  [ Box depeg_pattern DepegPattern_default; Box flash_loan_pattern FlashLoanPattern_default;
    Box tvl_drop_pattern TvlDropPattern_default;
    Box generic_rule_pattern (GenericRulePattern_default url_var token_var);
    Box utilization_high_pattern UtilizationHighPattern_default ].

(** ** Reloading *)

Definition reload_one (m : config_map) (b : boxed) : boxed * outcome unit :=
  let '(st, o) := dp_reload (the_pattern b) m (the_state b) in (Box (the_pattern b) st, o).
Fixpoint reload_all (m : config_map) (ps : list boxed) : list boxed * outcome unit :=
  match ps with
  | [] => ([], Ret ())
  | b :: rest =>
      match reload_one m b with
      | (b', Panic) => (b' :: rest, Panic)
      | (b', _) => let '(rest', o) := reload_all m rest in (b' :: rest', o)
      end
  end.

(** ** Processing an event *)

Notation outputs := (Db * Stream)%type.
(** save, then publish; errors are logged *)
Definition emit (d : DetectionResult) (s : outputs) : outputs * outcome unit :=
  let '(db, saved) := save_detection s.1 d in
  match saved with
  | Panic => ((db, s.2), Panic)
  | _ => let '(stream, sent) := publish_detection s.2 d in
         ((db, stream), match sent with Panic => Panic | _ => Ret () end)
  end.
Definition run_pattern (event : UnifiedEvent) (now : DateTime) (dr : Draws) (b : boxed) (s : outputs)
  : boxed * outputs * outcome unit :=
  let '((st, db), o) := dp_process (the_pattern b) event now dr (the_state b, s.1) in
  let b' := Box (the_pattern b) st in
  match o with
  | Ret (Some d) => let '(s', o') := emit d (db, s.2) in (b', s', o')
  | Ret None | Err _ => (b', (db, s.2), Ret ())
  | Panic => (b', (db, s.2), Panic)
  end.
Fixpoint dispatch (event : UnifiedEvent) (now : DateTime) (draws : nat -> Draws) (i : nat)
    (ps : list boxed) (s : outputs) : list boxed * outputs * outcome unit :=
  match ps with
  | [] => ([], s, Ret ())
  | b :: rest =>
      match run_pattern event now (draws i) b s with
      | (b', s', Panic) => (b' :: rest, s', Panic)
      | (b', s', _) =>
          let '(rest', s'', o) := dispatch event now draws (S i) rest s' in (b' :: rest', s'', o)
      end
  end.
Definition ingest_persisted (event : UnifiedEvent) : bool :=
  default false (match get_bool "ingest_persisted" (payload event) with
                 | Some b => Some b
                 | None => get_bool "raw_persisted" (payload event)
                 end).
(** the event's own time, unless it is in the future *)
Definition event_now (event : UnifiedEvent) (wall : DateTime) : DateTime :=
  if dt_le (timestamp event) wall then timestamp event else wall.
Definition persist_source_event (event : UnifiedEvent) (s : outputs) : outputs * outcome unit :=
  if ingest_persisted event then (s, Ret ())
  else let '(db, o) := insert_raw_event s.1 event in
       ((db, s.2), match o with Panic => Panic | _ => Ret () end).
Definition process_event (event : UnifiedEvent) (wall : DateTime) (draws : nat -> Draws)
    (ps : list boxed) (s : outputs) : list boxed * outputs * outcome unit :=
  match persist_source_event event s with
  | (s', Panic) => (ps, s', Panic)
  | (s', _) => dispatch event (event_now event wall) draws 0 ps s'
  end.

(** ** The detector's loop *)

(** the registry, its outputs, and the entries acknowledged so far *)
Record Detector := { registry : list boxed; outs : outputs; acked : list string }.
Record Entry := { entry_id : string; entry_event : UnifiedEvent; entry_wall : DateTime;
                  entry_draws : nat -> Draws }.
(** an entry is acknowledged however its processing ended *)
Definition handle_entry (d : Detector) (e : Entry) : Detector * outcome unit :=
  match process_event (entry_event e) (entry_wall e) (entry_draws e) (registry d) (outs d) with
  | (ps, s, Panic) => ({| registry := ps; outs := s; acked := acked d |}, Panic)
  | (ps, s, _) => ({| registry := ps; outs := s; acked := acked d ++ [entry_id e] |}, Ret ())
  end.
Fixpoint handle_entries (d : Detector) (es : list Entry) : Detector * outcome unit :=
  match es with
  | [] => (d, Ret ())
  | e :: rest =>
      match handle_entry d e with (d', Ret _) => handle_entries d' rest | r => r end
  end.
(** a reload after the configurations were read; a failed read changes nothing *)
Definition reload_pattern_configs (cfg : outcome config_map) (d : Detector) : Detector * outcome unit :=
  match cfg with
  | Ret m => let '(ps, o) := reload_all m (registry d) in
             ({| registry := ps; outs := outs d; acked := acked d |},
              match o with Panic => Panic | _ => Ret () end)
  | Err _ => (d, Ret ())
  | Panic => (d, Panic)
  end.
End registry.
