(* ===== verification/RegistryProofs.v ===== *)
(** * Correctness of the pattern registry

    That every pattern sees every event whatever the patterns before it did,
    that the detections published are the detections returned, in order, that
    an event never touches the state rows of another tenant through any of the
    built-in patterns, and that the detector acknowledges every entry.

    A registry with the flash-loan pattern configured, an event that fires it,
    a runtime service that matches every rule, and a short run of the detector;
    all interfaces are instantiated. *)
From stdpp Require Import strings.
From S2P Require Import Prelude F64 Text Ports EventSchema Persistence FieldMapping PatternCommon DepegPolicy DepegPattern DepegPatternProofs DepegExamples Utilization UtilizationPattern UtilizationPatternProofs FlashLoan TvlDrop TvlDropPattern TvlDropProofs GenericRule Registry.

(** what a pattern promises about the rows of other tenants *)
Class TenantIsolated `{PatternStore} (P : DetectionPattern) := {
  isolated : forall event now dr s,
    touched (fun t _ _ => t = tenant_id event) s.2 (dp_process P event now dr s).1.2
}.

Section registry.
Context `{Chrono} `{SerdeJson} `{!FieldCodec} `{Unicode} `{Powi} `{HashOrder} `{!DepegCodec}
  `{!UtilizationCodec} `{!FlashLoanCodec} `{!TvlCodec} `{!PatternStore} `{!DetectionSink}.

#[global] Instance depeg_isolated : TenantIsolated depeg_pattern.
Proof.
  split. intros event now dr s t p k Ht. apply depeg_event_rows.
  intros (pol & mk & pr & tm & _ & [= -> _ _]). by apply Ht.
Qed.
#[global] Instance flash_loan_isolated : TenantIsolated flash_loan_pattern.
Proof.
  split. intros event now dr s. eapply touched_weaken; [|exact (flash_event_touched s.1 event now s.2 (fresh dr 0%nat))].
  by intros t p k (-> & _).
Qed.
#[global] Instance tvl_drop_isolated : TenantIsolated tvl_drop_pattern.
Proof.
  split. intros event now dr s. eapply touched_weaken; [|exact (frame_touched _ _ _ _ _ _ (event_frame event now (fresh dr) s))].
  by intros t p k (-> & _).
Qed.
#[global] Instance generic_rule_isolated : TenantIsolated generic_rule_pattern.
Proof.
  split. intros event now dr s. eapply touched_weaken; [|exact (generic_touched event (generic_draw dr) s)].
  by intros t p k (-> & _).
Qed.
#[global] Instance utilization_high_isolated : TenantIsolated utilization_high_pattern.
Proof.
  split. intros event now dr s. eapply touched_weaken; [|exact (frame_touched _ _ _ _ _ _ (utilization_event_frame event now (fresh dr) s))].
  by intros t p k (-> & _).
Qed.

(** ** Every pattern sees every event *)

Definition detection_of (o : outcome (option DetectionResult)) : option DetectionResult :=
  match o with Ret r => r | _ => None end.
(** each pattern processed the event in its own state, over some database, and
    kept the state it reached; [outs] are the results *)
Inductive visits (event : UnifiedEvent) (now : DateTime) (draws : nat -> Draws)
  : nat -> list boxed -> list boxed -> list (outcome (option DetectionResult)) -> Prop :=
  | v_nil i : visits event now draws i [] [] []
  | v_cons i b rest rest' outs db st db' o :
      dp_process (the_pattern b) event now (draws i) (the_state b, db) = ((st, db'), o) ->
      visits event now draws (S i) rest rest' outs ->
      visits event now draws i (b :: rest) (Box (the_pattern b) st :: rest') (o :: outs).
Definition publishes : Prop := forall st d, (publish_detection st d).2 = Ret ().

Lemma emit_published d s :
  exists kept, kept `sublist_of` [d] /\ published (emit d s).1.2 = published s.2 ++ kept /\
    ((emit d s).2 <> Panic -> publishes -> kept = [d]).
Proof.
  unfold emit. destruct (save_detection s.1 d) as [db [[]|e|]]; simpl.
  3:{ exists []. rewrite app_nil_r. split_and!; [apply sublist_nil_l|done|done]. }
  all: pose proof (publish_failed s.2 d) as Hf; pose proof (publish_ok s.2 d) as Hk;
    unfold publishes; destruct (publish_detection s.2 d) as [st o] eqn:Hp; simpl in *;
    destruct Hf as [Hf|Hf];
    [exists []; rewrite app_nil_r; split_and!; [apply sublist_nil_l|done|];
       intros _ Hpub; specialize (Hpub s.2 d); rewrite Hp in Hpub; simpl in Hpub;
       specialize (Hk Hpub); rewrite Hf in Hk; apply (f_equal length) in Hk;
       rewrite length_app in Hk; simpl in Hk; lia
    |exists [d]; done].
Qed.
Lemma run_pattern_spec event now dr b s b' s' o :
  run_pattern event now dr b s = (b', s', o) ->
  exists st db' r, dp_process (the_pattern b) event now dr (the_state b, s.1) = ((st, db'), r) /\
    b' = Box (the_pattern b) st /\ (o <> Panic -> r <> Panic) /\
    exists kept, kept `sublist_of` option_list (detection_of r) /\
      published s'.2 = published s.2 ++ kept /\
      (o <> Panic -> publishes -> kept = option_list (detection_of r)).
Proof.
  unfold run_pattern. destruct (dp_process _ _ _ _ _) as [[st db'] r] eqn:Hr. intros Hrun.
  exists st, db', r. split; [done|]. destruct r as [[d|]|e|]; simpl.
  - pose proof (emit_published d (db', s.2)) as (kept & ? & ? & ?).
    destruct (emit d (db', s.2)) as [s1 o1]. injection Hrun as <- <- <-. split_and!; [done..|].
    by exists kept.
  - injection Hrun as <- <- <-. split_and!; [done..|]. exists []. by rewrite app_nil_r.
  - injection Hrun as <- <- <-. split_and!; [done..|]. exists []. by rewrite app_nil_r.
  - injection Hrun as <- <- <-. split_and!; [done..|]. exists []. by rewrite app_nil_r.
Qed.
Lemma dispatch_visits event now draws i ps s ps' s' o :
  dispatch event now draws i ps s = (ps', s', o) -> o <> Panic ->
  o = Ret () /\ exists outs kept, visits event now draws i ps ps' outs /\
    kept `sublist_of` omap detection_of outs /\ published s'.2 = published s.2 ++ kept /\
    (publishes -> kept = omap detection_of outs).
Proof.
  revert i s ps' s' o. induction ps as [|b rest IH]; intros i s ps' s' o; simpl.
  - intros [= <- <- <-] _. split; [done|]. exists [], []. rewrite app_nil_r. split_and!; try done. constructor.
  - destruct (run_pattern event now (draws i) b s) as [[b' s1] o1] eqn:Hr.
    apply run_pattern_spec in Hr as (st & db' & r & Hp & -> & Hnp & kept & Hk & Hpub & Hall).
    intros Hd Hne. assert (Ho1 : o1 <> Panic) by (destruct o1; congruence).
    destruct (dispatch event now draws (S i) rest s1) as [[rest' s2] o2] eqn:Hrest.
    assert ((Box (the_pattern b) st :: rest', s2, o2) = (ps', s', o)) as [= <- <- <-]
      by (destruct o1; done).
    destruct (IH _ _ _ _ _ Hrest Hne) as (-> & outs & kept2 & Hv & Hk2 & Hpub2 & Hall2).
    split; [done|]. exists (r :: outs), (kept ++ kept2).
    replace (omap detection_of (r :: outs)) with (option_list (detection_of r) ++ omap detection_of outs)
      by (simpl; by destruct (detection_of r)).
    split_and!.
    + by econstructor.
    + by apply sublist_app.
    + by rewrite Hpub2, Hpub, app_assoc.
    + intros Hp1. rewrite Hall, Hall2; done.
Qed.
Lemma persist_source_event_spec event s :
  touched (fun _ _ _ => False) s.1 (persist_source_event event s).1.1 /\
  (persist_source_event event s).1.2 = s.2.
Proof.
  unfold persist_source_event. destruct (ingest_persisted event); [done|].
  pose proof (insert_raw_event_load s.1 event) as Hl.
  destruct (insert_raw_event s.1 event) as [db o]. split; [|done]. intros t p k _. apply Hl.
Qed.

(** C18: an event that does not make the process panic is processed by every
    pattern in turn, in its own state, whatever errors the patterns before it,
    the save or the publication returned; the detections published are those the
    patterns returned, in that order, without the ones whose publication failed. *)
Theorem registry_visits_every_pattern event wall draws ps s ps' s' o :
  process_event event wall draws ps s = (ps', s', o) -> o <> Panic ->
  o = Ret () /\ exists outs kept, visits event (event_now event wall) draws 0 ps ps' outs /\
    kept `sublist_of` omap detection_of outs /\ published s'.2 = published s.2 ++ kept /\
    (publishes -> kept = omap detection_of outs).
Proof.
  unfold process_event. intros Hp Hne. pose proof (persist_source_event_spec event s) as [_ Hs].
  destruct (persist_source_event event s) as [s1 [[]|e|]] eqn:Hps; simpl in Hs;
    [..|injection Hp as <- <- <-; done]; rewrite <- Hs; by eapply dispatch_visits.
Qed.

(** ** Errors are contained *)

Definition no_panic (event : UnifiedEvent) (now : DateTime) (draws : nat -> Draws) (ps : list boxed)
  : Prop :=
  forall b i db, b ∈ ps -> (dp_process (the_pattern b) event now (draws i) (the_state b, db)).2 <> Panic.
Definition sinks_return : Prop :=
  (forall db e, (insert_raw_event db e).2 <> Panic) /\ (forall db d, (save_detection db d).2 <> Panic) /\
  (forall st d, (publish_detection st d).2 <> Panic).
Lemma emit_returns d s : sinks_return -> (emit d s).2 = Ret ().
Proof.
  intros (_ & Hs & Hp). unfold emit. specialize (Hs s.1 d). specialize (Hp s.2 d).
  destruct (save_detection s.1 d) as [db [[]|e|]]; [..|done];
    destruct (publish_detection s.2 d) as [st [[]|?|]]; done.
Qed.
Lemma dispatch_returns event now draws i ps s :
  sinks_return -> no_panic event now draws ps -> (dispatch event now draws i ps s).2 = Ret ().
Proof.
  intros Hsink. revert i s. induction ps as [|b rest IH]; intros i s Hnp; simpl; [done|].
  assert (Hrest : no_panic event now draws rest)
    by (intros b' j db Hin; apply Hnp, elem_of_cons; by right).
  pose proof (Hnp b i s.1 ltac:(apply elem_of_cons; by left)) as Hb. unfold run_pattern.
  destruct (dp_process _ _ _ _ _) as [[st db'] [[d|]|e|]]; [..|done]; simpl in *.
  - pose proof (emit_returns d (db', s.2) Hsink) as He.
    destruct (emit d (db', s.2)) as [s1 o1]. simpl in He. subst o1.
    specialize (IH (S i) s1 Hrest). by destruct (dispatch _ _ _ _ _ _) as [[? ?] ?].
  - specialize (IH (S i) (db', s.2) Hrest). by destruct (dispatch _ _ _ _ _ _) as [[? ?] ?].
  - specialize (IH (S i) (db', s.2) Hrest). by destruct (dispatch _ _ _ _ _ _) as [[? ?] ?].
Qed.

(** ** Tenants are isolated *)

Definition tenant_isolated (b : boxed) : Prop := TenantIsolated (the_pattern b).
(** the registry the detector builds, in whatever states *)
Definition built_in_registry (ps : list boxed) : Prop :=
  the_pattern <$> ps = [depeg_pattern; flash_loan_pattern; tvl_drop_pattern; generic_rule_pattern;
                        utilization_high_pattern].
Lemma built_in_isolated ps : built_in_registry ps -> Forall tenant_isolated ps.
Proof.
  unfold built_in_registry, tenant_isolated. intros Hb.
  assert (Hf : Forall TenantIsolated (the_pattern <$> ps)) 
    by (rewrite Hb, !Forall_cons, Forall_nil; split_and!; done || apply _).
  exact (proj1 (Forall_fmap _ _ _) Hf).
Qed.
Lemma emit_touched rows d s : touched rows s.1 (emit d s).1.1.
Proof.
  unfold emit. pose proof (save_detection_load s.1 d) as Hl.
  destruct (save_detection s.1 d) as [db o]. assert (touched rows s.1 db) by (intros t p k _; apply Hl).
  destruct o; simpl; [..|done]; by destruct (publish_detection s.2 d).
Qed.
Lemma run_pattern_touched event now dr b s :
  tenant_isolated b ->
  touched (fun t _ _ => t = tenant_id event) s.1 (run_pattern event now dr b s).1.2.1.
Proof.
  intros Hb. unfold run_pattern. pose proof (@isolated _ _ _ _ Hb event now dr (the_state b, s.1)) as Hi.
  destruct (dp_process _ _ _ _ _) as [[st db'] [[d|]|e|]]; simpl in *; [|done..].
  pose proof (emit_touched (fun t _ _ => t = tenant_id event) d (db', s.2)) as He.
  destruct (emit d (db', s.2)) as [s1 o1]. simpl in *. by eapply touched_trans.
Qed.
Lemma run_pattern_same event now dr b s : the_pattern (run_pattern event now dr b s).1.1 = the_pattern b.
Proof.
  unfold run_pattern. destruct (dp_process _ _ _ _ _) as [[st db'] [[d|]|e|]]; simpl; [|done..].
  by destruct (emit d (db', s.2)).
Qed.
Lemma dispatch_touched event now draws i ps s :
  Forall tenant_isolated ps ->
  touched (fun t _ _ => t = tenant_id event) s.1 (dispatch event now draws i ps s).1.2.1 /\
  the_pattern <$> (dispatch event now draws i ps s).1.1 = the_pattern <$> ps.
Proof.
  intros Hps. revert i s. induction Hps as [|b rest Hb Hrest IH]; intros i s; simpl; [done|].
  pose proof (run_pattern_touched event now (draws i) b s Hb) as Ht.
  pose proof (run_pattern_same event now (draws i) b s) as Hsame.
  destruct (run_pattern event now (draws i) b s) as [[b' s1] o1]. simpl in Ht, Hsame.
  destruct (IH (S i) s1) as [Ht2 Hsame2].
  destruct (dispatch event now draws (S i) rest s1) as [[rest' s2] o2]. simpl in Ht2, Hsame2.
  destruct o1; cbn [fst snd]; rewrite !fmap_cons, Hsame, ?Hsame2; (split; [|done]);
    first [exact Ht | eapply touched_trans; [exact Ht|exact Ht2]].
Qed.
Lemma event_touched event wall draws ps s :
  Forall tenant_isolated ps ->
  touched (fun t _ _ => t = tenant_id event) s.1 (process_event event wall draws ps s).1.2.1 /\
  the_pattern <$> (process_event event wall draws ps s).1.1 = the_pattern <$> ps.
Proof.
  intros Hps. unfold process_event. pose proof (persist_source_event_spec event s) as [Ht _].
  destruct (persist_source_event event s) as [s1 [[]|e|]]; simpl in Ht;
    [pose proof (dispatch_touched event (event_now event wall) draws 0 ps s1 Hps) as [Ht2 Hs]..|];
    (split; [|done]); simpl; try (eapply touched_trans; [|exact Ht2]);
    (eapply touched_weaken; [|exact Ht]; done).
Qed.

(** As long as nothing panics, the registry takes every event to its end,
    whatever errors the patterns, the statements and the stream return. *)
Theorem registry_survives_errors event wall draws ps s :
  sinks_return -> no_panic event (event_now event wall) draws ps ->
  (process_event event wall draws ps s).2 = Ret ().
Proof.
  intros Hsink Hnp. unfold process_event, persist_source_event.
  destruct (ingest_persisted event); [by apply dispatch_returns|].
  pose proof (proj1 Hsink s.1 event) as Hraw.
  destruct (insert_raw_event s.1 event) as [db [[]|e|]]; [by apply dispatch_returns..|done].
Qed.

(** ** The detector's run *)

Inductive action :=
  | Batch (entries : list Entry)
  | Reload (cfg : outcome (gmap (string * string) Value)).
Definition act (d : Detector) (a : action) : Detector * outcome unit :=
  match a with Batch es => handle_entries d es | Reload cfg => reload_pattern_configs cfg d end.
Fixpoint detector_run (d : Detector) (l : list action) : Detector * outcome unit :=
  match l with
  | [] => (d, Ret ())
  | a :: rest => match act d a with (d', Ret _) => detector_run d' rest | r => r end
  end.
Definition action_entries (a : action) : list Entry := match a with Batch es => es | Reload _ => [] end.
Definition delivered (l : list action) : list Entry := l ≫= action_entries.
(** what one action keeps, for the entries it delivers *)
Definition keeps (es : list Entry) (d d' : Detector) : Prop :=
  (the_pattern <$> registry d' = the_pattern <$> registry d) /\
  touched (fun t _ _ => exists e, e ∈ es /\ t = tenant_id (entry_event e)) (outs d).1 (outs d').1.
Lemma keeps_refl es d : keeps es d d.
Proof. done. Qed.
Lemma keeps_trans es1 es2 d1 d2 d3 : keeps es1 d1 d2 -> keeps es2 d2 d3 -> keeps (es1 ++ es2) d1 d3.
Proof.
  intros [Hp1 Ht1] [Hp2 Ht2]. split; [congruence|].
  eapply touched_trans; (eapply touched_weaken; [|eassumption]);
    intros t _ _ (e & Hin & ->); exists e; rewrite elem_of_app; auto.
Qed.
Lemma built_in_keeps ps ps' :
  the_pattern <$> ps' = the_pattern <$> ps -> built_in_registry ps -> built_in_registry ps'.
Proof. unfold built_in_registry. congruence. Qed.
Lemma reload_all_same m ps : the_pattern <$> (reload_all m ps).1 = the_pattern <$> ps.
Proof.
  induction ps as [|b rest IH]; [done|]. cbn [reload_all]. unfold reload_one.
  destruct (dp_reload _ _ _) as [st [[]|e|]]; [..|done]; destruct (reload_all m rest) as [ps o];
    cbn [fst]; rewrite !fmap_cons; f_equal; exact IH.
Qed.
Lemma handle_entry_keeps d e d' o :
  handle_entry d e = (d', o) -> built_in_registry (registry d) -> keeps [e] d d'.
Proof.
  unfold handle_entry. intros He Hb.
  destruct (event_touched (entry_event e) (entry_wall e) (entry_draws e) (registry d) (outs d)
    (built_in_isolated _ Hb)) as [Ht Hs].
  destruct (process_event _ _ _ _ _) as [[ps s] r]. simpl in *.
  destruct r; injection He as <- _; split; try done; simpl;
    (eapply touched_weaken; [|exact Ht]); intros t _ _ ->; exists e; (split; [|done]);
    by apply list_elem_of_singleton.
Qed.
Lemma handle_entries_keeps d es :
  built_in_registry (registry d) -> keeps es d (handle_entries d es).1.
Proof.
  revert d. induction es as [|e es IH]; intros d Hb; simpl; [done|].
  destruct (handle_entry d e) as [d1 o] eqn:He.
  pose proof (handle_entry_keeps _ _ _ _ He Hb) as Hk.
  assert (Hd : keeps (e :: es) d d1) by exact (keeps_trans [e] es d d1 d1 Hk (keeps_refl es d1)).
  destruct o; simpl; [|done..]. apply (keeps_trans [e] es d d1); [done|]. apply IH.
  eapply built_in_keeps; [apply Hk|done].
Qed.
Lemma act_keeps d a : built_in_registry (registry d) -> keeps (action_entries a) d (act d a).1.
Proof.
  destruct a as [es|[m|e|]]; simpl; intros Hb; [by apply handle_entries_keeps| |done..].
  pose proof (reload_all_same m (registry d)) as Hs. destruct (reload_all m (registry d)) as [ps o].
  by split.
Qed.
Lemma detector_run_keeps d l :
  built_in_registry (registry d) -> keeps (delivered l) d (detector_run d l).1.
Proof.
  revert d. induction l as [|a l IH]; intros d Hb; simpl; [done|].
  pose proof (act_keeps d a Hb) as Hk. destruct (act d a) as [d1 o]. simpl in Hk.
  destruct o; simpl.
  - apply (keeps_trans _ (delivered l) d d1); [done|]. apply IH. eapply built_in_keeps; [apply Hk|done].
  - apply (keeps_trans _ (delivered l) d d1 d1 Hk (keeps_refl _ _)).
  - apply (keeps_trans _ (delivered l) d d1 d1 Hk (keeps_refl _ _)).
Qed.

(** C2: over any run of the detector, batches and reloads in any order and
    whatever fails, a row of the pattern states changes only if an entry of its
    own tenant was delivered. *)
Theorem detector_isolates_tenants d l t pid key :
  built_in_registry (registry d) ->
  (forall e, e ∈ delivered l -> tenant_id (entry_event e) <> t) ->
  load_pattern_state (outs (detector_run d l).1).1 t pid key = load_pattern_state (outs d).1 t pid key.
Proof.
  intros Hb Ht. apply (proj2 (detector_run_keeps d l Hb)). intros (e & Hin & ->). by apply (Ht e Hin).
Qed.

Lemma handle_entry_acks d e d' o :
  handle_entry d e = (d', o) -> o <> Panic -> o = Ret () /\ acked d' = acked d ++ [entry_id e].
Proof.
  unfold handle_entry. destruct (process_event _ _ _ _ _) as [[ps s] [[]|?|]]; by intros [= <- <-].
Qed.
Lemma handle_entries_acks d es d' o :
  handle_entries d es = (d', o) -> o <> Panic -> o = Ret () /\ acked d' = acked d ++ (entry_id <$> es).
Proof.
  revert d. induction es as [|e es IH]; intros d; simpl.
  - intros [= <- <-] _. by rewrite app_nil_r.
  - destruct (handle_entry d e) as [d1 o1] eqn:He. intros Hr Hne.
    assert (Hne1 : o1 <> Panic) by (intros ->; by injection Hr as <- <-).
    destruct (handle_entry_acks _ _ _ _ He Hne1) as [-> Ha].
    destruct (IH d1 Hr Hne) as [-> Ha2]. split; [done|]. by rewrite Ha2, Ha, <- app_assoc.
Qed.
(** A run that does not panic acknowledges every delivered entry exactly
    once, in order, failed ones included. *)
Theorem detector_acks_every_entry d l d' o :
  detector_run d l = (d', o) -> o <> Panic ->
  o = Ret () /\ acked d' = acked d ++ (entry_id <$> delivered l).
Proof.
  revert d. induction l as [|a l IH]; intros d; simpl.
  - intros [= <- <-] _. by rewrite app_nil_r.
  - destruct (act d a) as [d1 o1] eqn:Ha. intros Hr Hne.
    assert (Hne1 : o1 <> Panic) by (intros ->; by injection Hr as <- <-).
    assert (o1 = Ret () /\ acked d1 = acked d ++ (entry_id <$> action_entries a)) as [-> Hk].
    { destruct a as [es|[m|e|]]; simpl in *; [by eapply handle_entries_acks| |by injection Ha as <- <-; rewrite app_nil_r|by injection Ha as <- <-].
      destruct (reload_all m (registry d)) as [ps [[]|?|]]; injection Ha as <- <-; simpl; by rewrite ?app_nil_r. }
    destruct (IH d1 Hr Hne) as [-> Ha2]. split; [done|].
    rewrite Ha2, Hk, <- app_assoc, <- fmap_app. done.
Qed.
End registry.

(** ** Concrete runs *)

#[local] Existing Instance chrono_Z.
#[local] Existing Instance serde_json_tree.
#[local] Existing Instance field_codec_json.
#[local] Existing Instance powi_squaring.
#[local] Existing Instance unicode_ascii.
#[local] Existing Instance canonical_order.
#[local] Existing Instance depeg_codec_json.
#[local] Existing Instance utilization_codec_json.
#[local] Existing Instance flash_codec_json.
#[local] Existing Instance tvl_codec_json.
#[local] Existing Instance tables_store.

(** the detections stream as a list; source events and detections are not kept *)
#[local] Obligation Tactic := try done.
#[local] Program Instance list_sink : DetectionSink :=
  {| Stream := list DetectionResult; published := fun l => l;
     insert_raw_event := fun db _ => (db, Ret ()); save_detection := fun db _ => (db, Ret ());
     publish_detection := fun l d => (l ++ [d], Ret ()) |}.
Next Obligation. right. done. Qed.

Definition uuids (i : nat) : string * string := ("u1", "u2")%string.
Definition no_service : Runtime := fun _ _ _ => Err "connection refused".
Definition quiet_draws (i : nat) : Draws :=
  {| fresh := uuids;
     generic_draw := fun _ => {| draw_uuid := "g"; draw_runtime := no_service; draw_request_at := sec 0;
                                 draw_detected_at := sec 0; draw_created_at := sec 0 |} |}.
Definition empty_outputs : Db * Stream := ((empty_tables : PatternTables), []).
Definition fresh_registry : list boxed := registry_new None None.

(** ** Errors and panics *)

Lemma list_sink_returns : sinks_return.
Proof. by split_and!. Qed.
(** an unconfigured registry does nothing with an event of an unknown tenant *)
Lemma fresh_no_panic : no_panic flash_event (event_now flash_event (sec 20)) quiet_draws fresh_registry.
Proof.
  intros b i db Hin. apply list_elem_of_In in Hin. simpl in Hin.
  destruct Hin as [<-|[<-|[<-|[<-|[<-|[]]]]]]; simpl; discriminate.
Qed.
Lemma registry_survives_errors_witness :
  (Registry.process_event flash_event (sec 20) quiet_draws fresh_registry empty_outputs).2 = Ret ().
Proof.
  exact (registry_survives_errors flash_event (sec 20) quiet_draws fresh_registry empty_outputs
    list_sink_returns fresh_no_panic).
Defined.

(** ** An event that fires a pattern *)

Definition flash_config : gmap (string * string) Value :=
  {[ ("acme", FlashLoan.PATTERN_ID)%string := VObj [] ]}.
Definition loaded : list boxed := (reload_all flash_config fresh_registry).1.
Definition fired_result := Registry.process_event flash_event (sec 20) quiet_draws loaded empty_outputs.
Lemma list_publishes : publishes.
Proof. intros st d. reflexivity. Qed.
Definition published_count : nat := length (published fired_result.1.2.2).
Lemma published_one : published_count = 1%nat.
Proof. vm_compute. reflexivity. Qed.
Lemma triple_eta {A B C} (x : A * B * C) : x = (x.1.1, x.1.2, x.2).
Proof. by destruct x as [[? ?] ?]. Qed.
Lemma registry_visits_every_pattern_witness :
  exists results, visits flash_event (event_now flash_event (sec 20)) quiet_draws 0 loaded
    fired_result.1.1 results /\ length (omap detection_of results) = 1%nat.
Proof.
  destruct (registry_visits_every_pattern flash_event (sec 20) quiet_draws loaded empty_outputs
    fired_result.1.1 fired_result.1.2 fired_result.2) as (_ & results & kept & Hv & _ & Hp & Hk).
  - exact (triple_eta fired_result).
  - assert (Hn : is_return fired_result.2 = true) by (vm_compute; reflexivity).
    intros Hq. rewrite Hq in Hn. discriminate Hn.
  - exists results. split; [exact Hv|].
    transitivity (length kept); [exact (f_equal length (eq_sym (Hk list_publishes)))|].
    exact (eq_trans (f_equal length (eq_sym Hp)) published_one).
Defined.

(** ** A run of the detector *)

Definition detector : Detector := {| registry := fresh_registry; outs := empty_outputs; acked := [] |}.
Definition flash_entry (id : string) : Entry :=
  {| entry_id := id; entry_event := flash_event; entry_wall := sec 20; entry_draws := quiet_draws |}.
Definition short_run : list action :=
  [ Batch [flash_entry "1"]; Reload (Err "timeout"); Reload (Ret flash_config);
    Batch [flash_entry "2"; flash_entry "3"] ]%string.
Lemma fresh_built_in : built_in_registry (registry detector).
Proof. reflexivity. Qed.
Lemma detector_isolates_tenants_witness :
  load_pattern_state (outs (detector_run detector short_run).1).1 "other" "depeg" "state" =
  load_pattern_state (outs detector).1 "other" "depeg" "state".
Proof.
  apply (detector_isolates_tenants detector short_run "other" "depeg" "state" fresh_built_in).
  intros e Hin. unfold delivered, short_run in Hin. cbn in Hin.
  apply list_elem_of_In in Hin. simpl in Hin. destruct Hin as [<-|[<-|[<-|[]]]]; discriminate.
Defined.
Lemma detector_acks_every_entry_witness :
  acked (detector_run detector short_run).1 = ["1"; "2"; "3"]%string.
Proof.
  destruct (detector_acks_every_entry detector short_run (detector_run detector short_run).1
    (detector_run detector short_run).2) as [_ H1].
  - exact (surjective_pairing _).
  - assert (Hn : is_return (detector_run detector short_run).2 = true) by (vm_compute; reflexivity).
    intros Hq. rewrite Hq in Hn. discriminate Hn.
  - exact H1.
Defined.

(** ** Generic rules *)

Definition compiled (id : string) : CompiledRuleRef :=
  {| rule_id := id; version := None; language := "cel"; engine := "js-sandbox-v1";
     compiled_artifact := JNull; params := JNull |}.
Definition generic_pattern : GenericRulePattern :=
  {| compiled_rules := {[ "custom"%string := {[ "acme"%string := [compiled "r1"; compiled "r2"] ]} ]};
     runtime_url := Some "http://runtime"%string; runtime_token := None; runtime_degraded := ∅ |}.
(** only the second rule matches *)
Definition service : Runtime := fun _ _ req =>
  Ret {| status := 200; body := Ret {| response_ok := true; runtime :=
    {| report_ok := true;
       matched_alerts := if bool_decide (req_rule_id req = "r2"%string) then
         [ {| alert_severity := "HIGH"; alert_title := "t"; alert_reason := "r"; alert_payload := JNull |} ]
         else [];
       report_state := JNull; trace := []; metrics := {| execution_ms := 1; ops_count := 1 |};
       error_code := None |} |} |}.
Definition service_draw (i : nat) : Draw :=
  {| draw_uuid := "g"; draw_runtime := service; draw_request_at := sec 0; draw_detected_at := sec 0;
     draw_created_at := sec 0 |}.
Definition generic_start : GenericRulePattern * Db := (generic_pattern, (empty_tables : PatternTables)).
Definition has_det (m : outcome (option DetectionResult)) : bool :=
  match m with Ret (Some _) => true | _ => false end.
Lemma first_match_wins_witness :
  exists before c after s1 r,
    imap pair (candidates generic_pattern "acme") = before ++ c :: after /\
    answers flash_event service_draw s1 c r /\ report_ok r = true.
Proof.
  destruct (GenericRule.process_event flash_event service_draw generic_start) as [s' [[d|]|e|]] eqn:He;
    [|apply (f_equal (fun x => has_det x.2)) in He; vm_compute in He; discriminate..].
  destruct (first_match_wins flash_event service_draw generic_start s' d He)
    as (before & i & pat & rule & after & s1 & r & first & rest & H1 & _ & _ & H2 & H3 & _).
  exists before, (i, (pat, rule)), after, s1, r. split_and!; [exact H1|exact H2|exact H3].
Defined.
Definition stored_config : Value :=
  composite_config (JBool true) (JObject {[ "rules"%string := JArray [JNull] ]}) JNull JNull JNull.
Lemma composite_configs_run_nothing_witness :
  compiled_rules (GenericRule.reload_config generic_pattern {[ ("acme", "custom")%string := stored_config ]})
  = ∅.
Proof.
  refine (proj1 (composite_configs_run_nothing generic_pattern
    {[ ("acme", "custom")%string := stored_config ]} flash_event service_draw
    (empty_tables : PatternTables) _)).
  intros k v Hk. apply lookup_singleton_Some in Hk as [_ <-]. unfold stored_config. eauto 10.
Defined.
