(* ===== verification/AlertStore.v ===== *)
(** * Alert and incident tables ([crates/state-manager/src/persistence.rs])

    The rows behind [PostgresRepository]'s alert, incident, usage and evidence
    statements and what each statement does to them, as functions on the
    tables; [AlertIO] runs them against a database that may fail.  Foreign keys
    and primary keys are those of infra/sql/bootstrap/core_schema.sql.  A query
    with [ORDER BY ... LIMIT 1] picks among rows with equal keys by the order of
    the scan, which is unspecified ([HashOrder]). *)
From S2P Require Import Prelude F64 Text Ports EventSchema.

(** [require_tenant_id], [require_alert_tenant_id] *)
Definition require_tenant_id (raw : option string) (context : string) : outcome string :=
  of_option ("missing tenant_id for " +:+ context) (trimmed_nonempty raw).

Definition coalesce_text (o : option string) : string := default "" o.

(** ** Alerts as JSON documents

    The derived codec of [AlertEvent].  Reading back what was stored may
    renormalise embedded JSON numbers, and a float that is not finite is stored
    as [null] and rejected; what an alert is about survives. *)
Class AlertCodec `{Chrono} `{SerdeJson} := {
  alert_to_value : AlertEvent -> Value;
  alert_from_value : Value -> outcome AlertEvent;
  uuid_text : string -> bool;
  alert_read_back : forall a, uuid_text (al_alert_id a) = true ->
    is_finite (al_risk_score a) = true -> is_finite (al_confidence a) = true ->
    map_Forall (fun _ x => is_finite x = true) (al_confidence_breakdown a) ->
    Forall (fun x => is_finite (contribution x) = true) (al_attribution a) ->
    exists a', alert_from_value (alert_to_value a) = Ret a' /\
      al_alert_id a' = al_alert_id a /\ al_event_key a' = al_event_key a /\
      al_tenant_id a' = al_tenant_id a /\ al_pattern_id a' = al_pattern_id a /\
      al_severity a' = al_severity a /\ al_lifecycle_state a' = al_lifecycle_state a /\
      al_simulation_run_id a' = al_simulation_run_id a /\ al_created_at a' = al_created_at a;
  alert_not_read_back : forall a, is_finite (al_risk_score a) = false ->
    exists e, alert_from_value (alert_to_value a) = Err e
}.

Section alert_store.
Context `{Chrono} `{SerdeJson} `{HashOrder} `{!AlertCodec}.

(** ** Rows *)

Record AlertRow := {
  ar_incident_id : option string;
  ar_tx_hash : string;
  ar_chain : string;
  ar_chain_slug : string;
  ar_protocol : string;
  ar_block_number : Z;
  ar_subject_type : option string;
  ar_subject_key : option string;
  ar_tenant_id : string;
  ar_pattern_id : string;
  ar_lifecycle_state : string;
  ar_severity : string;
  ar_risk_score : f64;
  ar_payload : Value;
  ar_is_simulated : bool;
  ar_simulation_run_id : option string
}.
Record LifecycleRow := {
  lr_alert_id : string;
  lr_incident_id : option string;
  lr_event_key : option string;
  lr_tx_hash : string;
  lr_block_number : Z;
  lr_lifecycle_state : string;
  lr_payload : Value
}.
Record IncidentRecord := {
  ir_incident_id : string;
  ir_tenant_id : string;
  ir_pattern_id : string;
  ir_subject_type : option string;
  ir_subject_key : option string;
  ir_chain_slug : string;
  ir_status : string;
  ir_current_severity : string
}.
Record IncidentRow := {
  in_record : IncidentRecord;
  in_opened_at : DateTime;
  in_updated_at : DateTime;
  in_closed_at : option DateTime
}.
Record IncidentKey := {
  ik_tenant_id : string;
  ik_pattern_id : string;
  ik_subject_type : option string;
  ik_subject_key : option string;
  ik_chain_slug : string
}.
Record IncidentEventRow := {
  ie_incident_id : string;
  ie_transition_type : string;
  ie_from_state : option string;
  ie_to_state : option string;
  ie_reason : option string;
  ie_payload : Value;
  ie_created_at : DateTime
}.
Record ContextSnapshotRow := {
  cs_incident_id : string;
  cs_classification : option string;
  cs_score : option f64;
  cs_confidence : option f64;
  cs_payload : Value;
  cs_observed_at : DateTime
}.
Record UsageRow := {
  ue_tenant_id : string;
  ue_event_type : string;
  ue_alert_type : string;
  ue_chain_id : option Z;
  ue_quantity : Z;
  ue_recorded_at : DateTime
}.
Record DeliveryRow := {
  da_alert_id : string;
  da_tenant_id : string;
  da_channel : string;
  da_delivered : bool;
  da_reason : option string;
  da_status_code : option Z
}.
Record MonitoredEntityRow := {
  me_tenant_id : string;
  me_entity_id : string;
  me_entity_type : string;
  me_display_name : option string;
  me_chain_slug : option string;
  me_asset_symbol : option string;
  me_quantity : option f64;
  me_valuation_usd : option f64;
  me_enabled : bool
}.
Record EntityExposureRecord := {
  ex_entity_id : string;
  ex_capital_at_risk_usd : f64;
  ex_liquidity_status : string;
  ex_estimated_slippage_pct : f64;
  ex_loss_scenario_5pct_usd : f64;
  ex_loss_scenario_10pct_usd : f64;
  ex_estimated_savings_usd : f64;
  ex_payload : Value
}.
Record OperationalRow := {
  op_ingest_event_id : string;
  op_tenant_id : string;
  op_source_id : string;
  op_source_type : string;
  op_event_type : string;
  op_market_key : option string;
  op_price : option f64;
  op_observed_at : DateTime;
  op_event_ts : option DateTime;
  op_tx_hash : option string;
  op_block_number : option Z;
  op_payload : option Value;
  op_normalized_fields : option Value;
  op_is_simulated : bool;
  op_simulation_run_id : option string
}.
Record SimulationRow := {
  si_id : string;
  si_run_id : string;
  si_source_table : string;
  si_event_type : string;
  si_event_ts : DateTime;
  si_original_payload : option Value;
  si_published_payload : option Value
}.
Record AlertEvidenceSnapshotRecord := {
  es_alert_id : string;
  es_incident_id : option string;
  es_tenant_id : string;
  es_pattern_id : option string;
  es_source_id : string;
  es_source_type : string;
  es_event_type : string;
  es_market_key : option string;
  es_price : option f64;
  es_observed_at : DateTime;
  es_event_ts : option DateTime;
  es_tx_hash : option string;
  es_block_number : option Z;
  es_payload : Value;
  es_normalized_fields : Value;
  es_raw_ref_type : option string;
  es_raw_ref_id : option string
}.

Record AlertTables := {
  alerts : gmap string AlertRow;
  lifecycle_events : list LifecycleRow;
  incidents : gmap string IncidentRow;
  incident_events : list IncidentEventRow;
  context_snapshots : list ContextSnapshotRow;
  usage_events : list UsageRow;
  delivery_attempts : list DeliveryRow;
  exposures : gmap (string * string) (string * EntityExposureRecord);
  evidence_snapshots : list AlertEvidenceSnapshotRecord;
  (** read here, written by other services *)
  monitored_entities : list MonitoredEntityRow;
  hourly_limits : gmap string Z;
  monthly_quotas : gmap string (option Z);
  operational_events : list OperationalRow;
  simulation_events : list SimulationRow
}.


(** writing one table *)
Definition with_alerts (x : gmap string AlertRow) (t : AlertTables) : AlertTables :=
  {| alerts := x; lifecycle_events := lifecycle_events t; incidents := incidents t;
     incident_events := incident_events t; context_snapshots := context_snapshots t; usage_events :=
     usage_events t; delivery_attempts := delivery_attempts t; exposures := exposures t;
     evidence_snapshots := evidence_snapshots t; monitored_entities := monitored_entities t;
     hourly_limits := hourly_limits t; monthly_quotas := monthly_quotas t; operational_events :=
     operational_events t; simulation_events := simulation_events t |}.
Definition with_lifecycle_events (x : list LifecycleRow) (t : AlertTables) : AlertTables :=
  {| alerts := alerts t; lifecycle_events := x; incidents := incidents t; incident_events :=
     incident_events t; context_snapshots := context_snapshots t; usage_events := usage_events t;
     delivery_attempts := delivery_attempts t; exposures := exposures t; evidence_snapshots :=
     evidence_snapshots t; monitored_entities := monitored_entities t; hourly_limits := hourly_limits
     t; monthly_quotas := monthly_quotas t; operational_events := operational_events t;
     simulation_events := simulation_events t |}.
Definition with_incidents (x : gmap string IncidentRow) (t : AlertTables) : AlertTables :=
  {| alerts := alerts t; lifecycle_events := lifecycle_events t; incidents := x; incident_events
     := incident_events t; context_snapshots := context_snapshots t; usage_events := usage_events t;
     delivery_attempts := delivery_attempts t; exposures := exposures t; evidence_snapshots :=
     evidence_snapshots t; monitored_entities := monitored_entities t; hourly_limits := hourly_limits
     t; monthly_quotas := monthly_quotas t; operational_events := operational_events t;
     simulation_events := simulation_events t |}.
Definition with_incident_events (x : list IncidentEventRow) (t : AlertTables) : AlertTables :=
  {| alerts := alerts t; lifecycle_events := lifecycle_events t; incidents := incidents t;
     incident_events := x; context_snapshots := context_snapshots t; usage_events := usage_events t;
     delivery_attempts := delivery_attempts t; exposures := exposures t; evidence_snapshots :=
     evidence_snapshots t; monitored_entities := monitored_entities t; hourly_limits := hourly_limits
     t; monthly_quotas := monthly_quotas t; operational_events := operational_events t;
     simulation_events := simulation_events t |}.
Definition with_context_snapshots (x : list ContextSnapshotRow) (t : AlertTables) : AlertTables :=
  {| alerts := alerts t; lifecycle_events := lifecycle_events t; incidents := incidents t;
     incident_events := incident_events t; context_snapshots := x; usage_events := usage_events t;
     delivery_attempts := delivery_attempts t; exposures := exposures t; evidence_snapshots :=
     evidence_snapshots t; monitored_entities := monitored_entities t; hourly_limits := hourly_limits
     t; monthly_quotas := monthly_quotas t; operational_events := operational_events t;
     simulation_events := simulation_events t |}.
Definition with_usage_events (x : list UsageRow) (t : AlertTables) : AlertTables :=
  {| alerts := alerts t; lifecycle_events := lifecycle_events t; incidents := incidents t;
     incident_events := incident_events t; context_snapshots := context_snapshots t; usage_events :=
     x; delivery_attempts := delivery_attempts t; exposures := exposures t; evidence_snapshots :=
     evidence_snapshots t; monitored_entities := monitored_entities t; hourly_limits := hourly_limits
     t; monthly_quotas := monthly_quotas t; operational_events := operational_events t;
     simulation_events := simulation_events t |}.
Definition with_delivery_attempts (x : list DeliveryRow) (t : AlertTables) : AlertTables :=
  {| alerts := alerts t; lifecycle_events := lifecycle_events t; incidents := incidents t;
     incident_events := incident_events t; context_snapshots := context_snapshots t; usage_events :=
     usage_events t; delivery_attempts := x; exposures := exposures t; evidence_snapshots :=
     evidence_snapshots t; monitored_entities := monitored_entities t; hourly_limits := hourly_limits
     t; monthly_quotas := monthly_quotas t; operational_events := operational_events t;
     simulation_events := simulation_events t |}.
Definition with_exposures (x : gmap (string * string) (string * EntityExposureRecord)) (t : AlertTables) : AlertTables :=
  {| alerts := alerts t; lifecycle_events := lifecycle_events t; incidents := incidents t;
     incident_events := incident_events t; context_snapshots := context_snapshots t; usage_events :=
     usage_events t; delivery_attempts := delivery_attempts t; exposures := x; evidence_snapshots :=
     evidence_snapshots t; monitored_entities := monitored_entities t; hourly_limits := hourly_limits
     t; monthly_quotas := monthly_quotas t; operational_events := operational_events t;
     simulation_events := simulation_events t |}.
Definition with_evidence_snapshots (x : list AlertEvidenceSnapshotRecord) (t : AlertTables) : AlertTables :=
  {| alerts := alerts t; lifecycle_events := lifecycle_events t; incidents := incidents t;
     incident_events := incident_events t; context_snapshots := context_snapshots t; usage_events :=
     usage_events t; delivery_attempts := delivery_attempts t; exposures := exposures t;
     evidence_snapshots := x; monitored_entities := monitored_entities t; hourly_limits :=
     hourly_limits t; monthly_quotas := monthly_quotas t; operational_events := operational_events t;
     simulation_events := simulation_events t |}.

Implicit Types t : AlertTables.

(** ** Alerts *)

Definition alert_row (a : AlertEvent) (tenant_id : string) : AlertRow :=
  {| ar_incident_id := al_incident_id a; ar_tx_hash := al_tx_hash a;
     ar_chain := to_ascii_lowercase (chain_debug (al_chain a)); ar_chain_slug := al_chain_slug a;
     ar_protocol := al_protocol a; ar_block_number := wrap_i64 (al_block_number a);
     ar_subject_type := al_subject_type a; ar_subject_key := al_subject_key a;
     ar_tenant_id := tenant_id; ar_pattern_id := al_pattern_id a;
     ar_lifecycle_state := lifecycle_lower (al_lifecycle_state a);
     ar_severity := severity_lower (al_severity a); ar_risk_score := al_risk_score a;
     ar_payload := alert_to_value a; ar_is_simulated := al_is_simulated a;
     ar_simulation_run_id := al_simulation_run_id a |}.
(** [ON CONFLICT (id) DO UPDATE]: these four columns keep the first value *)
Definition merge_alert_row (old new : AlertRow) : AlertRow :=
  {| ar_incident_id := ar_incident_id new; ar_tx_hash := ar_tx_hash old;
     ar_chain := ar_chain old; ar_chain_slug := ar_chain_slug old;
     ar_protocol := ar_protocol old; ar_block_number := ar_block_number new;
     ar_subject_type := ar_subject_type new; ar_subject_key := ar_subject_key new;
     ar_tenant_id := ar_tenant_id new; ar_pattern_id := ar_pattern_id new;
     ar_lifecycle_state := ar_lifecycle_state new; ar_severity := ar_severity new;
     ar_risk_score := ar_risk_score new; ar_payload := ar_payload new;
     ar_is_simulated := ar_is_simulated new; ar_simulation_run_id := ar_simulation_run_id new |}.
Definition upsert_alert (id : string) (row : AlertRow) t : AlertTables :=
  with_alerts (<[id := match alerts t !! id with
                       | Some old => merge_alert_row old row
                       | None => row
                       end]> (alerts t)) t.
Definition lifecycle_row (a : AlertEvent) : LifecycleRow :=
  {| lr_alert_id := al_alert_id a; lr_incident_id := al_incident_id a;
     lr_event_key := al_event_key a; lr_tx_hash := al_tx_hash a;
     lr_block_number := wrap_i64 (al_block_number a);
     lr_lifecycle_state := lifecycle_lower (al_lifecycle_state a); lr_payload := alert_to_value a |}.
Definition insert_lifecycle (row : LifecycleRow) t : AlertTables :=
  with_lifecycle_events (lifecycle_events t ++ [row]) t.
(** ids are serial, so [ORDER BY id DESC LIMIT 1] is the last row appended *)
Definition latest_payload (event_key : string) t : option Value :=
  lr_payload <$> last (filter (fun r => lr_event_key r = Some event_key) (lifecycle_events t)).

(** ** Incidents *)

Definition CLOSED_STATUSES : list string := ["resolved"; "retracted"; "closed"; "cancelled"].
Definition is_open (r : IncidentRecord) : bool := bool_decide (ir_status r ∉ CLOSED_STATUSES).
Definition key_matches (key : IncidentKey) (r : IncidentRecord) : bool :=
  bool_decide (ir_tenant_id r = ik_tenant_id key) && bool_decide (ir_pattern_id r = ik_pattern_id key)
  && bool_decide (coalesce_text (ir_subject_type r) = coalesce_text (ik_subject_type key))
  && bool_decide (coalesce_text (ir_subject_key r) = coalesce_text (ik_subject_key key))
  && bool_decide (ir_chain_slug r = ik_chain_slug key).
Definition newer_incident (a b : IncidentRow) : bool := dt_le (in_updated_at b) (in_updated_at a).
Definition newest_incident (keep : IncidentRow -> bool) t : option IncidentRecord :=
  in_record <$> head (sort_by newer_incident
    (filter (fun r => keep r = true) (hash_values (incidents t)))).
Definition select_active_incident (key : IncidentKey) t : option IncidentRecord :=
  newest_incident (fun r => key_matches key (in_record r) && is_open (in_record r)) t.
(** the [EXISTS] over the alerts of a simulation run *)
Definition alerted_in_run (run_id : string) t (incident_id : string) : bool :=
  existsb (fun a => bool_decide (ar_incident_id a = Some incident_id) && ar_is_simulated a
                    && bool_decide (ar_simulation_run_id a = Some run_id)) (hash_values (alerts t)).
Definition select_active_incident_for_simulation (key : IncidentKey) (run_id : string) t
  : option IncidentRecord :=
  newest_incident (fun r => key_matches key (in_record r) && is_open (in_record r)
    && alerted_in_run run_id t (ir_incident_id (in_record r))) t.
Definition insert_incident (r : IncidentRecord) (opened_at : DateTime) t : AlertTables :=
  match incidents t !! ir_incident_id r with
  | Some _ => t
  | None => with_incidents (<[ir_incident_id r :=
              {| in_record := r; in_opened_at := opened_at; in_updated_at := opened_at;
                 in_closed_at := None |}]> (incidents t)) t
  end.
Definition set_incident_state (status severity : string) (updated_at : DateTime) (closed : bool)
    (row : IncidentRow) : IncidentRow :=
  let r := in_record row in
  {| in_record := {| ir_incident_id := ir_incident_id r; ir_tenant_id := ir_tenant_id r;
       ir_pattern_id := ir_pattern_id r; ir_subject_type := ir_subject_type r;
       ir_subject_key := ir_subject_key r; ir_chain_slug := ir_chain_slug r;
       ir_status := status; ir_current_severity := severity |};
     in_opened_at := in_opened_at row; in_updated_at := updated_at;
     in_closed_at := if closed then Some updated_at else in_closed_at row |}.
Definition update_incident (incident_id status severity : string) (updated_at : DateTime)
    (closed : bool) t : AlertTables :=
  with_incidents (alter (set_incident_state status severity updated_at closed) incident_id
                    (incidents t)) t.

(** rows that reference an incident *)
Definition fk_error : string := "violates foreign key constraint".
Definition referencing (incident_id : string) (write : AlertTables -> AlertTables) t
  : AlertTables * outcome unit :=
  match incidents t !! incident_id with
  | Some _ => (write t, Ret ())
  | None => (t, Err fk_error)
  end.
Definition insert_incident_event (row : IncidentEventRow) t : AlertTables * outcome unit :=
  referencing (ie_incident_id row) (fun t => with_incident_events (incident_events t ++ [row]) t) t.
Definition insert_context_snapshot (row : ContextSnapshotRow) t : AlertTables * outcome unit :=
  referencing (cs_incident_id row)
    (fun t => with_context_snapshots (context_snapshots t ++ [row]) t) t.

(** ** Usage, quotas, delivery *)

Definition insert_usage (row : UsageRow) t : AlertTables :=
  with_usage_events (usage_events t ++ [row]) t.
Definition usage_total (tenant_id event_type : string) (since : DateTime -> bool) t : Z :=
  foldr (fun r n => ue_quantity r + n) 0
    (filter (fun r => ue_tenant_id r = tenant_id /\ ue_event_type r = event_type
                      /\ since (ue_recorded_at r) = true) (usage_events t)).
Definition insert_delivery (row : DeliveryRow) t : AlertTables :=
  with_delivery_attempts (delivery_attempts t ++ [row]) t.

(** ** Exposures and evidence *)

Definition select_entities (tenant_id asset_symbol : string) t : list MonitoredEntityRow :=
  filter (fun e => me_tenant_id e = tenant_id /\ me_asset_symbol e = Some asset_symbol
                   /\ me_enabled e = true) (monitored_entities t).
Definition upsert_exposure (incident_id tenant_id : string) (ex : EntityExposureRecord) t
  : AlertTables :=
  let key := (incident_id, ex_entity_id ex) in
  with_exposures (<[key := (default tenant_id (fst <$> exposures t !! key), ex)]> (exposures t)) t.
Definition in_window (lo hi at_ : DateTime) : bool := dt_le lo at_ && dt_le at_ hi.
Definition opt_text_eq (o : option string) (s : string) : bool := bool_decide (o = Some s).
(** tables are listed in the order of their primary keys, the second sort key *)
Definition select_operational (tenant_id : string) (market_key : option string)
    (source_ids : list string) (window_start window_end : DateTime) (simulated : bool)
    (run_id : option string) t : list OperationalRow :=
  sort_by (fun a b => dt_le (op_observed_at a) (op_observed_at b))
    (filter (fun r => op_tenant_id r = tenant_id
       /\ in_window window_start window_end (op_observed_at r) = true
       /\ op_source_id r ∈ source_ids
       /\ match market_key with Some m => opt_text_eq (op_market_key r) m | None => true end = true
       /\ op_is_simulated r = simulated
       /\ match run_id with
          | Some run => opt_text_eq (op_simulation_run_id r) run
          | None => bool_decide (op_simulation_run_id r = None)
          end = true) (operational_events t)).
(** [payload->>'key'] *)
Definition json_text_at (key : string) (payload : option Value) : option string :=
  v ← payload ≫= vget key;
  match as_str v with
  | Some s => Some s
  | None => if bool_decide (value_to_string v = "null") then None else Some (value_to_string v)
  end.
(** [BTRIM] removes spaces *)
Definition btrim (s : string) : string :=
  let start := trim_by [" "%string] (String.length s) s in
  String.rev (trim_by [" "%string] (String.length start) (String.rev start)).
Definition nullif_empty (s : string) : option string := if is_empty s then None else Some s.
Definition simulation_source_id (r : SimulationRow) : option string :=
  nullif_empty (btrim (coalesce_text
    (match json_text_at "source_id" (si_published_payload r) with
     | Some s => Some s
     | None => json_text_at "source_id" (si_original_payload r)
     end))).
Definition select_simulation (run_id : string) (source_ids : list string)
    (window_start window_end : DateTime) t : list (string * SimulationRow) :=
  let rows := sort_by (fun a b => dt_le (si_event_ts a) (si_event_ts b))
    (filter (fun r => si_run_id r = run_id
       /\ in_window window_start window_end (si_event_ts r) = true
       /\ match simulation_source_id r with Some s => bool_decide (s ∈ source_ids) | None => false end
          = true) (simulation_events t)) in
  omap (fun r => s ← simulation_source_id r; Some (s, r)) rows.
Definition delete_evidence (tenant_id alert_id : string) t : AlertTables :=
  with_evidence_snapshots (filter (fun r => ~ (es_tenant_id r = tenant_id /\ es_alert_id r = alert_id))
                             (evidence_snapshots t)) t.
Definition insert_evidence (r : AlertEvidenceSnapshotRecord) t : AlertTables :=
  with_evidence_snapshots (evidence_snapshots t ++ [r]) t.
End alert_store.
