(* ===== verification/Notifier.v ===== *)
(** * Notification gateway client and sinks ([crates/notifier/src/lib.rs])

    The client posts an alert to the notifier gateway and reads its answer; the
    sinks send an alert to one channel, directly or through the gateway.  What
    carries a POST is the class [Gateway]; the body of a response may be absent
    (not JSON). *)
From S2P Require Import Prelude F64 Text Ports EventSchema AlertStore.

Section http.
Context `{SerdeJson}.
Record HttpResponse := { status : Z; body : option Value }.
Definition is_success (r : HttpResponse) : bool := (200 <=? status r) && (status r <? 300).
(** [error_for_status] fails on client and server errors only *)
Definition error_for_status (r : HttpResponse) : outcome HttpResponse :=
  if (400 <=? status r) && (status r <? 600) then Err "HTTP status error" else Ret r.
Class Gateway (W : Type) := { post : string -> Value -> ST W HttpResponse }.
End http.

(** texts of third-party formatters: [{}] of a float, a timestamp as serde writes it *)
Class Display `{Chrono} := {
  display_f64 : f64 -> string;
  serde_timestamp : DateTime -> string
}.

Section notifier.
Context `{Chrono} `{SerdeJson} `{!AlertCodec} `{!Display} {W : Type} `{!Gateway W}.

Definition VStrings (l : list string) : Value := VArray (VString <$> l).

(** ** The gateway client *)

Record GatewayChannelResult := {
  gc_channel : string;
  gc_delivered : bool;
  gc_reason : option string;
  gc_status_code : option Z
}.
Record GatewayDispatchResult := {
  gd_tenant_id : string;
  gd_delivered : bool;
  gd_reason : option string;
  gd_resolved_channels : list string;
  gd_results : list GatewayChannelResult
}.
(** [NOTIFIER_GATEWAY_URL] without trailing slashes *)
Definition DEFAULT_NOTIFIER_GATEWAY_URL : string := "http://localhost:3002".
Definition trim_end_slashes (s : string) : string :=
  String.rev (trim_by ["/"%string] (String.length s) (String.rev s)).
Definition endpoint_from_env (var : option string) : string :=
  trim_end_slashes (default DEFAULT_NOTIFIER_GATEWAY_URL var).

Definition items {A} (f : list Value -> list A) (o : option (list Value)) : list A :=
  match o with Some l => f l | None => [] end.
(** [v as u16] *)
Definition wrap_u16 (z : Z) : Z := z mod 2 ^ 16.
Definition parse_channel_result (entry : Value) : GatewayChannelResult :=
  {| gc_channel := default "unknown"%string (get_str "channel" entry);
     gc_delivered := default false (get_bool "delivered" entry);
     gc_reason := get_str "reason" entry;
     gc_status_code := wrap_u16 <$> (vget "status_code" entry ≫= as_u64) |}.
Definition parse_gateway_dispatch_result (value : Value) (tenant_id_fallback : string)
  : GatewayDispatchResult :=
  {| gd_tenant_id := default tenant_id_fallback (get_str "tenant_id" value);
     gd_delivered := default false (get_bool "delivered" value);
     gd_reason := get_str "reason" value;
     gd_resolved_channels := items (omap as_str) (vget "resolved_channels" value ≫= as_array);
     gd_results := items (fmap parse_channel_result) (vget "results" value ≫= as_array) |}.

Definition KNOWN_CHANNELS : list string := ["webhook"; "slack"; "telegram"; "discord"; "email"].
Definition requested_channels (a : AlertEvent) : list string :=
  filter (fun c => c ∈ KNOWN_CHANNELS) (al_channel_routes a).
Definition missing_tenant (a : AlertEvent) : string :=
  "missing tenant_id for alert " +:+ al_alert_id a.
Definition client_body (tenant_id : string) (a : AlertEvent) : Value :=
  VObj [("tenant_id"%string, VString tenant_id);
        ("dedup_key"%string, VOpt VString (al_dedup_key a));
        ("severity"%string, VString (severity_lower (al_severity a)));
        ("requested_channels"%string, VStrings (requested_channels a));
        ("payload"%string, alert_to_value a)].
Definition dispatch_url (endpoint : string) : string := endpoint +:+ "/dispatch".
(** an answer that is not JSON is read as [{}]; its status is only logged *)
Definition client_dispatch_alert (endpoint : string) (a : AlertEvent) : ST W GatewayDispatchResult :=
  tenant_id ← lift (of_option (missing_tenant a) (al_tenant_id a));
  response ← post (dispatch_url endpoint) (client_body tenant_id a);
  mret (parse_gateway_dispatch_result (default (VObj []) (body response)) tenant_id).

(** [NotifierGatewayHttp::dispatch]: one channel, an error status is an error *)
Definition http_dedup_key (channel : string) (a : AlertEvent) : string :=
  to_ascii_lowercase (chain_debug (al_chain a)) +:+ ":" +:+ al_protocol a +:+ ":" +:+ channel
    +:+ ":" +:+ al_tx_hash a.
Definition http_body (tenant_id channel : string) (a : AlertEvent) : Value :=
  VObj [("tenant_id"%string, VString tenant_id);
        ("dedup_key"%string, VString (http_dedup_key channel a));
        ("requested_channels"%string, VStrings [channel]);
        ("severity"%string, VString (severity_lower (al_severity a)));
        ("payload"%string, alert_to_value a)].
Definition http_dispatch (endpoint channel : string) (a : AlertEvent) : ST W unit :=
  tenant_id ← lift (of_option (missing_tenant a) (al_tenant_id a));
  response ← post (dispatch_url endpoint) (http_body tenant_id channel a);
  _ ← lift (error_for_status response); mret ().

(** [NotifierGatewaySink::send] *)
Definition gateway_sink_send (endpoint : string) (a : AlertEvent) : ST W unit :=
  result ← client_dispatch_alert endpoint a;
  if gd_delivered result then mret ()
  else lift (Err ("notifier-gateway dispatch failed for tenant " +:+ gd_tenant_id result +:+ ": "
                  +:+ default "all_channels_failed"%string (gd_reason result))).

(** ** Direct sinks *)

Definition nl : string := bytes [10%nat].
Definition severity_debug (s : Severity) : string :=
  match s with
  | Info => "Info" | Low => "Low" | Medium => "Medium" | High => "High" | Critical => "Critical"
  end.
Definition lifecycle_debug (s : LifecycleState) : string :=
  match s with
  | Provisional => "Provisional" | Confirmed => "Confirmed" | Retracted => "Retracted"
  | Suppressed => "Suppressed" | Resolved => "Resolved"
  end.
Definition severity_emoji (s : Severity) : string :=
  match s with
  | Critical => "🔴" | High => "🟠" | Medium => "🟡" | Low => "🟢" | Info => "ℹ️"
  end.
Definition mrkdwn (text : string) : Value :=
  VObj [("type"%string, VString "mrkdwn"); ("text"%string, VString text)].
Definition VInline (name value : string) : Value :=
  VObj [("name"%string, VString name); ("value"%string, VString value);
        ("inline"%string, VBool true)].

Definition webhook_payload (a : AlertEvent) : Value :=
  VObj [("alert_id"%string, VString (al_alert_id a));
        ("chain"%string, VString (chain_debug (al_chain a)));
        ("protocol"%string, VString (al_protocol a));
        ("severity"%string, VString (severity_debug (al_severity a)));
        ("risk_score"%string, VFloat (al_risk_score a));
        ("tx_hash"%string, VString (al_tx_hash a));
        ("block_number"%string, VInt (al_block_number a));
        ("actions_recommended"%string, VStrings (al_actions_recommended a));
        ("created_at"%string, VString (serde_timestamp (al_created_at a)))].
Definition slack_payload (a : AlertEvent) : Value :=
  let emoji := severity_emoji (al_severity a) in
  let section text := VObj [("type"%string, VString "section"); ("text"%string, mrkdwn text)] in
  VObj [("text"%string, VString (emoji +:+ " Raksha Alert: " +:+ al_protocol a +:+ " on "
                                 +:+ chain_debug (al_chain a)));
        ("blocks"%string, VArray [
           VObj [("type"%string, VString "header");
                 ("text"%string, VObj [("type"%string, VString "plain_text");
                    ("text"%string, VString (emoji +:+ " " +:+ severity_debug (al_severity a)
                                             +:+ " Alert"))])];
           VObj [("type"%string, VString "section");
                 ("fields"%string, VArray [
                    mrkdwn ("*Protocol:*" +:+ nl +:+ al_protocol a);
                    mrkdwn ("*Chain:*" +:+ nl +:+ chain_debug (al_chain a));
                    mrkdwn ("*Risk Score:*" +:+ nl +:+ display_f64 (al_risk_score a) +:+ "/100");
                    mrkdwn ("*Block:*" +:+ nl +:+ fmt_Z (al_block_number a))])];
           section ("*Transaction:*" +:+ nl +:+ "`" +:+ al_tx_hash a +:+ "`");
           section ("*Actions:*" +:+ nl +:+ String.concat (nl +:+ "• ") (al_actions_recommended a))])].
Definition telegram_message (a : AlertEvent) : string :=
  severity_emoji (al_severity a) +:+ " <b>" +:+ severity_debug (al_severity a) +:+ " Alert</b>"
  +:+ nl +:+ nl +:+ "<b>Protocol:</b> " +:+ al_protocol a +:+ nl
  +:+ "<b>Chain:</b> " +:+ chain_debug (al_chain a) +:+ nl
  +:+ "<b>Risk Score:</b> " +:+ display_f64 (al_risk_score a) +:+ "/100" +:+ nl
  +:+ "<b>Block:</b> " +:+ fmt_Z (al_block_number a) +:+ nl
  +:+ "<b>Transaction:</b> <code>" +:+ al_tx_hash a +:+ "</code>" +:+ nl +:+ nl
  +:+ "<b>Actions:</b>" +:+ nl
  +:+ String.concat nl ((fun x => "• " +:+ x) <$> al_actions_recommended a).
Definition telegram_payload (chat_id : string) (a : AlertEvent) : Value :=
  VObj [("chat_id"%string, VString chat_id); ("text"%string, VString (telegram_message a));
        ("parse_mode"%string, VString "HTML"); ("disable_web_page_preview"%string, VBool true)].
Definition discord_payload (a : AlertEvent) : Value :=
  let embed := VObj [
    ("title"%string, VString (severity_emoji (al_severity a) +:+ " "
                              +:+ severity_debug (al_severity a) +:+ " Alert"));
    ("description"%string, VString ("**Protocol:** " +:+ al_protocol a +:+ nl
       +:+ "**Chain:** " +:+ chain_debug (al_chain a) +:+ nl
       +:+ "**Risk Score:** " +:+ fmt_fixed 2 (al_risk_score a) +:+ "/100" +:+ nl
       +:+ "**Confidence:** " +:+ fmt_fixed 2 (al_confidence a) +:+ nl
       +:+ "**Tx:** `" +:+ al_tx_hash a +:+ "`"));
    ("fields"%string, VArray [VInline "Lifecycle" (lifecycle_debug (al_lifecycle_state a));
                              VInline "Block" (fmt_Z (al_block_number a))])] in
  VObj [("content"%string, VString ("Raksha Alert for " +:+ al_protocol a));
        ("embeds"%string, VArray [embed])].

(** [post(url).json(payload).send()?.error_for_status()?] *)
Definition post_direct (url : string) (payload : Value) : ST W unit :=
  response ← post url payload; _ ← lift (error_for_status response); mret ().
(** [send_direct] of the sinks configured by a URL *)
Definition send_direct_url (missing : string) (url : option string)
    (payload : AlertEvent -> Value) (a : AlertEvent) : ST W unit :=
  url ← lift (of_option missing url); post_direct url (payload a).
Definition telegram_send_direct (bot_token chat_id : option string) (a : AlertEvent) : ST W unit :=
  bot_token ← lift (of_option "No Telegram bot token configured"%string bot_token);
  chat_id ← lift (of_option "No Telegram chat ID configured"%string chat_id);
  post_direct ("https://api.telegram.org/bot" +:+ bot_token +:+ "/sendMessage")
              (telegram_payload chat_id a).

(** the environment variables decide the mode when a sink is created *)
Record UrlSink := { url_endpoint : string; webhook_url : option string; url_direct : bool }.
Definition url_sink_new (endpoint : string) (var : option string) : UrlSink :=
  {| url_endpoint := endpoint; webhook_url := var; url_direct := is_some var |}.
Record TelegramSink := {
  tg_endpoint : string; tg_bot_token : option string; tg_chat_id : option string; tg_direct : bool
}.
Definition telegram_sink_new (endpoint : string) (token chat : option string) : TelegramSink :=
  {| tg_endpoint := endpoint; tg_bot_token := token; tg_chat_id := chat;
     tg_direct := is_some token && is_some chat |}.

(** directly, and through the gateway when that fails *)
Definition direct_or_gateway (direct : bool) (send_direct : ST W unit) (endpoint channel : string)
    (a : AlertEvent) : ST W unit :=
  if direct then fun w =>
    match send_direct w with
    | (w', Err _) => http_dispatch endpoint channel a w'
    | r => r
    end
  else http_dispatch endpoint channel a.
(** the webhook sink does not fall back *)
Definition webhook_send (s : UrlSink) (a : AlertEvent) : ST W unit :=
  if url_direct s then
    send_direct_url "No webhook URL configured" (webhook_url s) webhook_payload a
  else http_dispatch (url_endpoint s) "webhook" a.
Definition slack_send (s : UrlSink) (a : AlertEvent) : ST W unit :=
  direct_or_gateway (url_direct s)
    (send_direct_url "No Slack webhook URL configured" (webhook_url s) slack_payload a)
    (url_endpoint s) "slack" a.
Definition telegram_send (s : TelegramSink) (a : AlertEvent) : ST W unit :=
  direct_or_gateway (tg_direct s) (telegram_send_direct (tg_bot_token s) (tg_chat_id s) a)
    (tg_endpoint s) "telegram" a.
Definition discord_send (s : UrlSink) (a : AlertEvent) : ST W unit :=
  direct_or_gateway (url_direct s)
    (send_direct_url "No Discord webhook URL configured" (webhook_url s) discord_payload a)
    (url_endpoint s) "discord" a.
End notifier.
