(* ===== verification/AlertIO.v ===== *)
(** * The orchestrator's environment and repository
    ([crates/state-manager/src/persistence.rs], [lib.rs])

    Everything outside the process answers through [Env]: the clock, fresh
    UUIDs, the outcome of each SQL statement, the notification gateway and
    Redis.  Every interaction has a number, so an environment is a function of
    it and a run is deterministic.  [World] is what the interactions leave
    behind: the tables, the requests sent, the entries published and
    acknowledged.  The methods of [PostgresRepository] are computations in
    [ST World]: a statement that fails is an [Err] and changes nothing. *)
From S2P Require Import Prelude F64 Text Ports EventSchema AlertStore Notifier.

Inductive SqlError := UndefinedTable | SqlFailure (msg : string).
Definition sql_message (e : SqlError) : string :=
  match e with UndefinedTable => "relation does not exist" | SqlFailure m => m end.

(** ** Computations that recover *)

(** [match m.await { Ok(v) => .., Err(e) => .. }]; a panic is not caught *)
Definition attempt {S A} (m : ST S A) : ST S (outcome A) := fun s =>
  match m s with
  | (s', Panic) => (s', Panic)
  | (s', o) => (s', Ret o)
  end.
(** [if let Err(e) = m.await { log_error!(..) }] *)
Definition log_error {S A} (m : ST S A) : ST S unit := _ ← attempt m; mret ().
(** [for x in xs { body }] *)
Definition iterate {S A} (f : A -> ST S unit) (l : list A) : ST S unit :=
  for_each (fun _ x => f x) l ().

(** a relation between the state before and after, whatever the outcome *)
Definition within {S A} (R : S -> S -> Prop) (m : ST S A) : Prop := forall s, R s (m s).1.
Section within.
Context {S : Type} (R : S -> S -> Prop) `{!PreOrder R}.
Lemma within_ret {A} (a : A) : within R (mret a).
Proof. intros s. reflexivity. Qed.
Lemma within_lift {A} (o : outcome A) : within R (lift o).
Proof. intros s. reflexivity. Qed.
Lemma within_bind {A B} (m : ST S A) (f : A -> ST S B) :
  within R m -> (forall a, within R (f a)) -> within R (m ≫= f).
Proof.
  intros Hm Hf s. unfold mbind, st_bind. specialize (Hm s).
  destruct (m s) as [s1 [a|e|]]; simpl in *; [|done..]. etrans; [exact Hm|apply Hf].
Qed.
Lemma within_attempt {A} (m : ST S A) : within R m -> within R (attempt m).
Proof. intros Hm s. specialize (Hm s). unfold attempt. by destruct (m s) as [s1 []]. Qed.
Lemma within_log_error {A} (m : ST S A) : within R m -> within R (log_error m).
Proof.
  intros Hm. apply within_bind; [by apply within_attempt|]. intros ?. apply within_ret.
Qed.
Lemma within_iterate {A} (f : A -> ST S unit) l :
  (forall x, within R (f x)) -> within R (iterate f l).
Proof.
  intros Hf. unfold iterate. generalize (). induction l as [|x l IH]; intros u;
    [apply within_ret|]. apply within_bind; [apply Hf|done].
Qed.
Lemma within_if {A} (b : bool) (m1 m2 : ST S A) :
  within R m1 -> within R m2 -> within R (if b then m1 else m2).
Proof. by destruct b. Qed.
Lemma within_option {A B} (o : option A) (f : A -> ST S B) (m : ST S B) :
  (forall a, within R (f a)) -> within R m ->
  within R (match o with Some a => f a | None => m end).
Proof. by destruct o. Qed.
End within.

(** what a recovered computation did *)
Lemma log_error_run {S A} (m : ST S A) s :
  log_error m s = ((m s).1, match (m s).2 with Panic => Panic | _ => Ret () end).
Proof. unfold log_error, attempt, mbind, st_bind. by destruct (m s) as [s1 []]. Qed.
(** computations whose errors are all recovered *)
Definition never_err {S A} (m : ST S A) : Prop := forall s e, (m s).2 <> Err e.
Lemma log_error_never_err {S A} (m : ST S A) : never_err (log_error m).
Proof. intros s e. rewrite log_error_run. simpl. by destruct (m s).2. Qed.
Lemma never_err_ret {S A} (a : A) : never_err (mret a : ST S A).
Proof. done. Qed.
Lemma never_err_bind {S A B} (m : ST S A) (f : A -> ST S B) :
  never_err m -> (forall a, never_err (f a)) -> never_err (m ≫= f).
Proof.
  intros Hm Hf s e. unfold mbind, st_bind. specialize (Hm s).
  destruct (m s) as [s1 [a|e'|]]; simpl in *; [apply Hf| |done]. by destruct (Hm e').
Qed.
Lemma attempt_never_err {S A} (m : ST S A) : never_err (attempt m).
Proof. intros s e. unfold attempt. by destruct (m s) as [? []]. Qed.
Lemma iterate_never_err {S A} (f : A -> ST S unit) l :
  (forall x, never_err (f x)) -> never_err (iterate f l).
Proof.
  intros Hf. unfold iterate. generalize (). induction l as [|x l IH]; intros u; [done|].
  by apply never_err_bind.
Qed.

Section io.
Context `{Chrono} `{SerdeJson} `{HashOrder} `{!AlertCodec}.

(** [http_send] is the response to a POST; [redis_error] the failure of an
    XADD or XACK; [month_start] is PostgreSQL's [date_trunc('month', _)] *)
Class Env := {
  clock : nat -> DateTime;
  new_v4 : nat -> string;
  sql_error : nat -> option SqlError;
  http_send : nat -> string -> Value -> outcome HttpResponse;
  redis_error : nat -> option string;
  month_start : DateTime -> DateTime
}.
Context `{!Env}.

Record World := {
  step : nat;
  tables : AlertTables;
  requests : list (string * Value);
  streamed : list (string * AlertEvent);
  acked : list (string * string)
}.
Notation IO := (ST World).

(** ** Interactions *)

Definition tick : IO nat := fun w =>
  ({| step := S (step w); tables := tables w; requests := requests w; streamed := streamed w;
      acked := acked w |}, Ret (step w)).
Definition set_tables (t : AlertTables) : IO unit := fun w =>
  ({| step := step w; tables := t; requests := requests w; streamed := streamed w;
      acked := acked w |}, Ret ()).
Definition utc_now : IO DateTime := n ← tick; mret (clock n).
Definition new_uuid : IO string := n ← tick; mret (new_v4 n).
(** a statement, given [NOW()]; the server may refuse it *)
Definition execute {A} (f : DateTime -> AlertTables -> AlertTables * outcome A)
  : IO (SqlError + A) :=
  n ← tick;
  match sql_error n with
  | Some e => mret (inl e)
  | None =>
      w ← get_st;
      let '(t, o) := f (clock n) (tables w) in
      match o with
      | Ret a => _ ← set_tables t; mret (inr a)
      | Err m => mret (inl (SqlFailure m))
      | Panic => lift Panic
      end
  end.
Definition or_sql_error {A} (m : IO (SqlError + A)) : IO A :=
  r ← m; lift (match r with inr a => Ret a | inl e => Err (sql_message e) end).
Definition run_write (f : AlertTables -> AlertTables) : IO unit :=
  or_sql_error (execute (fun _ t => (f t, Ret ()))).
Definition run_query {A} (f : AlertTables -> A) : IO A :=
  or_sql_error (execute (fun _ t => (t, Ret (f t)))).

#[export] Instance io_gateway : Gateway World :=
  {| post := fun url body =>
       n ← tick;
       _ ← (fun w => ({| step := step w; tables := tables w;
                         requests := requests w ++ [(url, body)];
                         streamed := streamed w; acked := acked w |}, Ret ())) : IO unit;
       lift (http_send n url body) |}.

Definition STREAM_ALERTS : string := "raksha:alerts".
Definition STREAM_ALERT_LIFECYCLE : string := "raksha:alerts:lifecycle".
Definition STREAM_DETECTIONS : string := "raksha:detections".
Definition STREAM_FINALITY_UPDATES : string := "raksha:finality-updates".
Definition redis (write : World -> World) : IO unit :=
  n ← tick;
  match redis_error n with
  | Some e => lift (Err e)
  | None => fun w => (write w, Ret ())
  end.
Definition publish_struct (stream : string) (a : AlertEvent) : IO unit :=
  redis (fun w => {| step := step w; tables := tables w; requests := requests w;
                     streamed := streamed w ++ [(stream, a)]; acked := acked w |}).
Definition publish_alert : AlertEvent -> IO unit := publish_struct STREAM_ALERTS.
Definition publish_alert_lifecycle : AlertEvent -> IO unit := publish_struct STREAM_ALERT_LIFECYCLE.
Definition ack (stream entry_id : string) : IO unit :=
  redis (fun w => {| step := step w; tables := tables w; requests := requests w;
                     streamed := streamed w; acked := acked w ++ [(stream, entry_id)] |}).
Definition ack_detection : string -> IO unit := ack STREAM_DETECTIONS.
Definition ack_finality_update : string -> IO unit := ack STREAM_FINALITY_UPDATES.

(** ** The repository *)

Definition save_alert (a : AlertEvent) : IO unit :=
  tenant_id ← lift (require_tenant_id (al_tenant_id a) ("alert " +:+ al_alert_id a));
  run_write (upsert_alert (al_alert_id a) (alert_row a tenant_id)).
Definition save_alert_lifecycle (a : AlertEvent) : IO unit :=
  run_write (insert_lifecycle (lifecycle_row a)).
Definition find_latest_alert_by_event_key (event_key : string) : IO (option AlertEvent) :=
  payload ← run_query (latest_payload event_key);
  match payload with
  | None => mret None
  | Some v => a ← lift (alert_from_value v); mret (Some a)
  end.
Definition find_active_incident (key : IncidentKey) : IO (option IncidentRecord) :=
  run_query (select_active_incident key).
Definition find_active_incident_for_simulation (key : IncidentKey) (run_id : string)
  : IO (option IncidentRecord) :=
  run_query (select_active_incident_for_simulation key run_id).
Definition create_incident (r : IncidentRecord) (opened_at : DateTime) : IO unit :=
  run_write (insert_incident r opened_at).
Definition update_incident_state (incident_id status severity : string) (updated_at : DateTime)
    (closed : bool) : IO unit :=
  run_write (update_incident incident_id status severity updated_at closed).
Definition append_incident_event (row : IncidentEventRow) : IO unit :=
  or_sql_error (execute (fun _ => insert_incident_event row)).
Definition append_incident_context_snapshot (row : ContextSnapshotRow) : IO unit :=
  or_sql_error (execute (fun _ => insert_context_snapshot row)).
Definition record_usage_event (tenant_id event_type alert_type : string) (chain_id : option Z)
    (quantity : Z) : IO unit :=
  or_sql_error (execute (fun now t =>
    (insert_usage {| ue_tenant_id := tenant_id; ue_event_type := event_type;
                     ue_alert_type := alert_type; ue_chain_id := chain_id;
                     ue_quantity := Z.max quantity 1; ue_recorded_at := now |} t, Ret ()))).
Definition count_usage_current_month (tenant_id event_type : string) : IO Z :=
  or_sql_error (execute (fun now t =>
    (t, Ret (usage_total tenant_id event_type (dt_le (month_start now)) t)))).
Definition past_hour (now recorded_at : DateTime) : bool :=
  ns now - 3600000000000 <=? ns recorded_at.
Definition count_usage_past_hour (tenant_id event_type : string) : IO Z :=
  or_sql_error (execute (fun now t =>
    (t, Ret (usage_total tenant_id event_type (past_hour now) t)))).
(** every failure of this query counts as no limit *)
Definition load_tenant_hourly_alert_limit (tenant_id : string) : IO (option Z) :=
  r ← execute (fun _ t => (t, Ret (hourly_limits t !! tenant_id)));
  mret (match r with inr limit => limit | inl _ => None end).
(** a missing table counts as no quota *)
Definition load_tenant_monthly_alert_quota (tenant_id : string) : IO (option Z) :=
  r ← execute (fun _ t => (t, Ret (monthly_quotas t !! tenant_id)));
  lift (match r with
        | inr row => Ret (mjoin row)
        | inl UndefinedTable => Ret None
        | inl e => Err (sql_message e)
        end).
Definition save_alert_delivery_attempt (row : DeliveryRow) : IO unit :=
  run_write (insert_delivery row).
Definition find_monitored_entities_for_alert (tenant_id asset_symbol : string)
  : IO (list MonitoredEntityRow) :=
  r ← execute (fun _ t => (t, Ret (select_entities tenant_id asset_symbol t)));
  lift (match r with
        | inr rows => Ret rows
        | inl UndefinedTable => Ret []
        | inl e => Err (sql_message e)
        end).
(** a missing table ends the batch, any other failure skips the entity *)
Fixpoint save_incident_entity_exposures (incident_id tenant_id : string)
    (exs : list EntityExposureRecord) : IO unit :=
  match exs with
  | [] => mret ()
  | ex :: rest =>
      r ← execute (fun _ t => (upsert_exposure incident_id tenant_id ex t, Ret ()));
      match r with
      | inl UndefinedTable => mret ()
      | _ => save_incident_entity_exposures incident_id tenant_id rest
      end
  end.
Definition load_operational_events_for_alert_evidence (tenant_id : string)
    (market_key : option string) (source_ids : list string) (window_start window_end : DateTime)
    (simulated : bool) (run_id : option string) : IO (list OperationalRow) :=
  match source_ids with
  | [] => mret []
  | _ => run_query (select_operational tenant_id market_key source_ids window_start window_end
                      simulated run_id)
  end.
Definition load_simulation_events_for_alert_evidence (run_id : string) (source_ids : list string)
    (window_start window_end : DateTime) : IO (list (string * SimulationRow)) :=
  match source_ids with
  | [] => mret []
  | _ =>
      r ← execute (fun _ t => (t, Ret (select_simulation run_id source_ids window_start window_end t)));
      lift (match r with
            | inr rows => Ret rows
            | inl UndefinedTable => Ret []
            | inl e => Err (sql_message e)
            end)
  end.
Definition save_alert_evidence_snapshot_batch (rs : list AlertEvidenceSnapshotRecord) : IO unit :=
  match rs with
  | [] => mret ()
  | r :: _ =>
      _ ← run_write (delete_evidence (es_tenant_id r) (es_alert_id r));
      iterate (fun r => run_write (insert_evidence r)) rs
  end.
End io.
Notation IO := (ST World).
