(* ===== verification/AlertEvidence.v ===== *)
(** * Alert evidence ([apps/orchestrator/src/main.rs])

    When an alert is stored, the quotes that contributed to it are looked up
    among the operational events of the tenant, simulated alerts also among the
    events of their run, and a snapshot of the evidence replaces the previous
    one.  A contributor without a matching event gets a synthetic record. *)
From S2P Require Import Prelude F64 Text Ports EventSchema AlertStore Notifier AlertIO.
From Stdlib Require Import Ascii.

Definition ALERT_EVIDENCE_BUFFER_BEFORE_MS : Z := 30000.
Definition ALERT_EVIDENCE_BUFFER_AFTER_MS : Z := 10000.

(** the rightmost [:]-separated segment *)
Definition last_segment (key : string) : string := default key (last (split_on ":"%char key)).
Definition extract_asset_symbol (subject_key : option string) : option string :=
  key ← subject_key;
  symbol ← head (split_on "/"%char (last_segment key));
  nullif_empty symbol.
Definition extract_market_key (subject_key : option string) (protocol : string) : option string :=
  let from_protocol :=
    rest ← strip_prefix "market:" protocol;
    if contains (trim rest) "/" then Some (trim rest) else None in
  match subject_key with
  | Some key => let part := trim (last_segment key) in
                if contains part "/" then Some part else from_protocol
  | None => from_protocol
  end.
Definition source_type_for_kind (source_kind : string) : string :=
  if bool_decide (source_kind = "oracle") then "oracle_api"
  else if bool_decide (source_kind = "cex") then "cex_websocket"
  else if bool_decide (source_kind = "dex") then "dex_api" else "custom_api".
Definition event_type_for_kind (source_kind : string) : string :=
  if bool_decide (source_kind = "oracle") then "oracle_update" else "quote".

(** [t - Duration::milliseconds(n)], [t + Duration::hours(n)] on in-range durations *)
Definition shift_ns `{Chrono} (t : DateTime) (d : Z) : outcome DateTime := or_panic (checked_add t d).
Definition millis (n : Z) : Z := n * 1000000.
Definition hours (n : Z) : Z := n * 3600000000000.

Section evidence.
Context `{Chrono} `{SerdeJson} `{HashOrder} `{!AlertCodec} `{!Env}.

Record EvidenceContributorTrace := {
  tr_source_id : string;
  tr_source_kind : string;
  tr_price : f64;
  tr_observed_at : DateTime;
  tr_age_ms : Z;
  tr_weight : f64;
  tr_divergence_pct : f64;
  tr_supports_alert_direction : bool;
  tr_contributes_to_quorum : bool;
  tr_confirms_oracle : bool;
  tr_contributes_to_breach : bool
}.
(** the derived codec of the trace *)
Class TraceCodec := {
  trace_to_value : EvidenceContributorTrace -> Value;
  traces_from_value : Value -> option (list EvidenceContributorTrace);
  traces_read_back : forall l,
    Forall (fun c => is_finite (tr_price c) = true /\ is_finite (tr_weight c) = true
                     /\ is_finite (tr_divergence_pct c) = true) l ->
    traces_from_value (VArray (trace_to_value <$> l)) = Some l
}.
Context `{!TraceCodec}.

Definition contributing_sources_from_alert (a : AlertEvent) : list EvidenceContributorTrace :=
  default [] (al_oracle_context a !! "contributing_sources"%string ≫= traces_from_value).

(** ** Matching and annotation *)

Definition same_operational_event (row : OperationalRow) (c : EvidenceContributorTrace) : bool :=
  bool_decide (op_source_id row = tr_source_id c)
  && bool_decide (op_observed_at row = tr_observed_at c)
  && match op_price row with
     | Some price => f64_lt (f64_abs (f64_sub price (tr_price c))) f64_epsilon
     | None => false
     end.
Definition evidence_object (trace : option EvidenceContributorTrace) (decision_input : bool)
  : list (string * Value) :=
  ("decision_input"%string, VBool decision_input) ::
  match trace with
  | None => []
  | Some c =>
      [("source_kind"%string, VString (tr_source_kind c)); ("age_ms"%string, VInt (tr_age_ms c));
       ("weight"%string, VFloat (tr_weight c));
       ("divergence_pct"%string, VFloat (tr_divergence_pct c));
       ("supports_alert_direction"%string, VBool (tr_supports_alert_direction c));
       ("contributes_to_quorum"%string, VBool (tr_contributes_to_quorum c));
       ("confirms_oracle"%string, VBool (tr_confirms_oracle c));
       ("contributes_to_breach"%string, VBool (tr_contributes_to_breach c))]
  end.
Definition annotate_evidence_fields (normalized_fields : Value)
    (trace : option EvidenceContributorTrace) (decision_input : bool) : Value :=
  VObject (<["__raksha_evidence"%string := VObj (evidence_object trace decision_input)]>
             (default ∅ (as_object normalized_fields))).
Definition contributor_key (c : EvidenceContributorTrace) : string :=
  tr_source_id c +:+ ":" +:+ to_rfc3339 (tr_observed_at c).

Definition synthetic_evidence_record (a : AlertEvent) (tenant_id : string)
    (market_key : option string) (c : EvidenceContributorTrace) : AlertEvidenceSnapshotRecord :=
  {| es_alert_id := al_alert_id a; es_incident_id := al_incident_id a; es_tenant_id := tenant_id;
     es_pattern_id := Some (al_pattern_id a); es_source_id := tr_source_id c;
     es_source_type := source_type_for_kind (tr_source_kind c);
     es_event_type := event_type_for_kind (tr_source_kind c); es_market_key := market_key;
     es_price := Some (tr_price c); es_observed_at := tr_observed_at c;
     es_event_ts := Some (tr_observed_at c); es_tx_hash := None; es_block_number := None;
     es_payload := VObj [("trace"%string, trace_to_value c);
                         ("captured_from"%string, VString "detector.quote_cache")];
     es_normalized_fields := annotate_evidence_fields (VObj []) (Some c) true;
     es_raw_ref_type := Some "detector.quote_cache"%string;
     es_raw_ref_id := Some (contributor_key c) |}.

(** [Iterator::min] and [max] of the times seen *)
Definition min_time (l : list DateTime) : option DateTime :=
  match l with [] => None | t :: ts => Some (foldl (fun m t => if dt_lt t m then t else m) t ts) end.
Definition max_time (l : list DateTime) : option DateTime :=
  match l with [] => None | t :: ts => Some (foldl (fun m t => if dt_lt t m then m else t) t ts) end.
Definition evidence_lookup_window (a : AlertEvent) (cs : list EvidenceContributorTrace)
  : outcome (DateTime * DateTime) :=
  required_start ← shift_ns (al_created_at a) (- millis ALERT_EVIDENCE_BUFFER_BEFORE_MS);
  required_end ← shift_ns (al_created_at a) (millis ALERT_EVIDENCE_BUFFER_AFTER_MS);
  match min_time (tr_observed_at <$> cs), max_time (tr_observed_at <$> cs) with
  | Some first_seen, Some last_seen =>
      before ← shift_ns first_seen (- millis ALERT_EVIDENCE_BUFFER_BEFORE_MS);
      after ← shift_ns last_seen (millis ALERT_EVIDENCE_BUFFER_AFTER_MS);
      Ret (if dt_le required_start before then required_start else before,
           if dt_lt after required_end then required_end else after)
  | _, _ => Ret (required_start, required_end)
  end.

(** ** Records *)

Definition row_payload (r : OperationalRow) : Value := default (VObj []) (op_payload r).
Definition row_fields (r : OperationalRow) : Value := default (VObj []) (op_normalized_fields r).
(** an event without a price whose payload reports an RPC error *)
Definition useless_row (r : OperationalRow) : bool :=
  match op_price r with Some _ => false | None => true end
  && match get_str "rpc_state_error" (row_payload r) with
     | Some s => negb (is_empty s)
     | None => false
     end.
Definition matching_contributor (r : OperationalRow) (cs : list EvidenceContributorTrace)
  : option EvidenceContributorTrace :=
  head (filter (fun c => same_operational_event r c = true) cs).
Definition or_market (o market_key : option string) : option string :=
  match o with Some m => Some m | None => market_key end.
Definition operational_record (a : AlertEvent) (tenant_id : string) (market_key : option string)
    (cs : list EvidenceContributorTrace) (r : OperationalRow) : AlertEvidenceSnapshotRecord :=
  let matched := matching_contributor r cs in
  {| es_alert_id := al_alert_id a; es_incident_id := al_incident_id a; es_tenant_id := tenant_id;
     es_pattern_id := Some (al_pattern_id a); es_source_id := op_source_id r;
     es_source_type := op_source_type r; es_event_type := op_event_type r;
     es_market_key := or_market (op_market_key r) market_key; es_price := op_price r;
     es_observed_at := op_observed_at r; es_event_ts := op_event_ts r; es_tx_hash := op_tx_hash r;
     es_block_number := op_block_number r; es_payload := row_payload r;
     es_normalized_fields := annotate_evidence_fields (row_fields r) matched (is_some matched);
     es_raw_ref_type := Some "catalog.ingest_operational_events"%string;
     es_raw_ref_id := Some (op_ingest_event_id r) |}.
Definition useful_rows (rows : list OperationalRow) : list OperationalRow :=
  filter (fun r => useless_row r = false) rows.
Definition matched_sources (cs : list EvidenceContributorTrace) (rows : list OperationalRow)
  : list string :=
  omap (fun r => contributor_key <$> matching_contributor r cs) (useful_rows rows).

Definition first_of {A} (o o' : option A) : option A := match o with Some a => Some a | None => o' end.
(** the published payload unless it is empty or not an object *)
Definition run_payload (r : SimulationRow) : Value :=
  let published := default (VObj []) (si_published_payload r) in
  match as_object published with
  | Some m => if bool_decide (m = ∅) then default (VObj []) (si_original_payload r) else published
  | None => default (VObj []) (si_original_payload r)
  end.
Definition simulation_record (a : AlertEvent) (tenant_id : string) (market_key : option string)
    (row : string * SimulationRow) : AlertEvidenceSnapshotRecord :=
  let '(source_id, r) := row in
  let payload := run_payload r in
  let num k := vget k payload ≫= as_f64 in
  {| es_alert_id := al_alert_id a; es_incident_id := al_incident_id a; es_tenant_id := tenant_id;
     es_pattern_id := Some (al_pattern_id a); es_source_id := source_id;
     es_source_type := "evm_chain"; es_event_type := si_event_type r; es_market_key := market_key;
     es_price := first_of (num "tvl_usd"%string) (first_of (num "utilization"%string) (num "price"%string));
     es_observed_at := si_event_ts r; es_event_ts := Some (si_event_ts r); es_tx_hash := None;
     es_block_number := vget "block_number" payload ≫= as_i64; es_payload := payload;
     es_normalized_fields := VObj [];
     es_raw_ref_type := Some "workbench.simulation_run_events"%string;
     es_raw_ref_id := Some (si_id r) |}.

Definition evidence_records (a : AlertEvent) (tenant_id : string) (market_key : option string)
    (cs : list EvidenceContributorTrace) (rows : list OperationalRow)
    (sim_rows : list (string * SimulationRow)) : list AlertEvidenceSnapshotRecord :=
  (operational_record a tenant_id market_key cs <$> useful_rows rows)
  ++ (simulation_record a tenant_id market_key <$> sim_rows)
  ++ (synthetic_evidence_record a tenant_id market_key <$>
        filter (fun c => contributor_key c ∉ matched_sources cs rows) cs).

(** a failed lookup of simulation events counts as none *)
Definition simulation_rows (a : AlertEvent) (source_ids : list string) (window : DateTime * DateTime)
  : IO (list (string * SimulationRow)) :=
  match al_is_simulated a, al_simulation_run_id a with
  | true, Some run_id =>
      window_start ← lift (shift_ns window.1 (- hours 1));
      window_end ← lift (shift_ns window.2 (hours 1));
      r ← attempt (load_simulation_events_for_alert_evidence run_id source_ids window_start window_end);
      mret (match r with Ret rows => rows | _ => [] end)
  | _, _ => mret []
  end.
Definition persist_alert_evidence_snapshot (a : AlertEvent) : IO unit :=
  let cs := contributing_sources_from_alert a in
  match cs with
  | [] => mret ()
  | _ =>
      tenant_id ← lift (require_tenant_id (al_tenant_id a) ("alert " +:+ al_alert_id a));
      let market_key := extract_market_key (al_subject_key a) (al_protocol a) in
      window ← lift (evidence_lookup_window a cs);
      let source_ids := tr_source_id <$> cs in
      rows ← load_operational_events_for_alert_evidence tenant_id market_key source_ids
               window.1 window.2 (al_is_simulated a) (al_simulation_run_id a);
      sim_rows ← simulation_rows a source_ids window;
      save_alert_evidence_snapshot_batch (evidence_records a tenant_id market_key cs rows sim_rows)
  end.
End evidence.
