(* ===== verification/Orchestrator.v ===== *)
(** * Orchestrator ([apps/orchestrator/src/main.rs])

    A detection becomes an alert, is attached to the incident of its subject,
    and is dispatched: suppressed when it repeats the latest alert of its event
    key or when the tenant's monthly quota is used up, otherwise handed to the
    notification gateway once; then it is stored, published and counted.
    Finality updates confirm or retract the latest alert of their event key and
    dispatch it again.  The alerts last dispatched are kept per event key in a
    bounded cache.  The main loop handles the entries of the two streams one
    after the other and acknowledges each. *)
From S2P Require Import Prelude F64 Text Numbers Ports EventSchema AlertStore Notifier AlertIO AlertEvidence CachePrune.

Definition ALL_NOTIFICATION_CHANNELS : list string :=
  ["webhook"; "slack"; "telegram"; "discord"; "email"].
Definition DEFAULT_DUPLICATE_SUPPRESSION_SECONDS : Z := 300.
Definition DEFAULT_ALERT_CONTEXT_TTL_HOURS : Z := 24.
Definition DEFAULT_ALERT_CONTEXT_MAX_ENTRIES : Z := 10000.

Definition incident_status_for_transition (t : IncidentTransition) : string :=
  match t with
  | Trigger => "triggered"
  | Escalate | Deescalate | Update => "active"
  | Resolve => "resolved"
  | Retract => "retracted"
  end.
Definition closes_incident (t : IncidentTransition) : bool :=
  match t with Resolve | Retract => true | _ => false end.
Definition classification_text (c : ContextClassification) : string :=
  match c with Isolated => "isolated" | Systemic => "systemic" | NoContext => "none" end.
Definition alert_chain_id (c : Chain) : option Z :=
  match c with
  | Ethereum => Some 1 | Arbitrum => Some 42161 | Optimism => Some 10 | Base => Some 8453
  | Polygon => Some 137 | Avalanche => Some 43114 | BSC => Some 56
  | Offchain | UnknownChain => None
  end.

Section orchestrator.
Context `{Chrono} `{SerdeJson} `{HashOrder} `{!AlertCodec} `{!Env} `{!TraceCodec}.

(** the derived serialiser of signals *)
Class DetectionCodec := { signals_to_value : list DetectionSignal -> Value }.
Context `{!DetectionCodec}.

(** the process's configuration; [repository] tells whether a database was
    configured, the variables are the raw environment variables *)
Record Config := {
  repository : bool;
  gateway_endpoint : string;
  duplicate_suppression_seconds : option string;
  use_consumer_group : bool;
  alert_context_ttl_hours : option string;
  alert_context_max_entries : option string
}.

(** ** Building and changing alerts *)

Definition alert_with (a : AlertEvent) (incident_id tenant_id : option string)
    (life : LifecycleState) (fin : FinalityStatus) (routes blast : list string)
    (summary context : gmap string Value) (created : DateTime) : AlertEvent :=
  {| al_alert_id := al_alert_id a; al_incident_id := incident_id; al_event_key := al_event_key a;
     al_subject_type := al_subject_type a; al_subject_key := al_subject_key a;
     al_tenant_id := tenant_id; al_pattern_id := al_pattern_id a; al_chain := al_chain a;
     al_chain_slug := al_chain_slug a; al_protocol := al_protocol a; al_lifecycle_state := life;
     al_finality_status := fin; al_severity := al_severity a; al_risk_score := al_risk_score a;
     al_confidence := al_confidence a; al_confidence_breakdown := al_confidence_breakdown a;
     al_rule_ids := al_rule_ids a; al_channel_routes := routes; al_dedup_key := al_dedup_key a;
     al_attribution := al_attribution a; al_blast_radius := blast;
     al_exposure_summary := summary; al_tx_hash := al_tx_hash a;
     al_block_number := al_block_number a; al_oracle_context := context;
     al_actions_recommended := al_actions_recommended a; al_is_simulated := al_is_simulated a;
     al_simulation_run_id := al_simulation_run_id a; al_detected_at := al_detected_at a;
     al_created_at := created |}.
Definition set_incident (id : string) (a : AlertEvent) : AlertEvent :=
  alert_with a (Some id) (al_tenant_id a) (al_lifecycle_state a) (al_finality_status a)
    (al_channel_routes a) (al_blast_radius a) (al_exposure_summary a) (al_oracle_context a)
    (al_created_at a).
Definition set_tenant (tenant_id : string) (a : AlertEvent) : AlertEvent :=
  alert_with a (al_incident_id a) (Some tenant_id) (al_lifecycle_state a) (al_finality_status a)
    (al_channel_routes a) (al_blast_radius a) (al_exposure_summary a) (al_oracle_context a)
    (al_created_at a).
Definition set_routes (routes : list string) (a : AlertEvent) : AlertEvent :=
  alert_with a (al_incident_id a) (al_tenant_id a) (al_lifecycle_state a) (al_finality_status a)
    routes (al_blast_radius a) (al_exposure_summary a) (al_oracle_context a) (al_created_at a).
Definition set_blast (blast : list string) (summary : gmap string Value) (a : AlertEvent)
  : AlertEvent :=
  alert_with a (al_incident_id a) (al_tenant_id a) (al_lifecycle_state a) (al_finality_status a)
    (al_channel_routes a) blast summary (al_oracle_context a) (al_created_at a).
Definition set_context (context : gmap string Value) (a : AlertEvent) : AlertEvent :=
  alert_with a (al_incident_id a) (al_tenant_id a) (al_lifecycle_state a) (al_finality_status a)
    (al_channel_routes a) (al_blast_radius a) (al_exposure_summary a) context (al_created_at a).
Definition set_lifecycle (life : LifecycleState) (fin : FinalityStatus) (created : DateTime)
    (a : AlertEvent) : AlertEvent :=
  alert_with a (al_incident_id a) (al_tenant_id a) life fin (al_channel_routes a)
    (al_blast_radius a) (al_exposure_summary a) (al_oracle_context a) created.

Definition alert_from_detection (d : DetectionResult) : IO AlertEvent :=
  alert_id ← new_uuid;
  tenant_id ← lift (require_tenant_id (det_tenant_id d) ("detection " +:+ detection_id d));
  now ← utc_now;
  mret {| al_alert_id := alert_id; al_incident_id := None; al_event_key := det_event_key d;
     al_subject_type := subject_type d; al_subject_key := subject_key d;
     al_tenant_id := Some tenant_id; al_pattern_id := pattern_id d; al_chain := det_chain d;
     al_chain_slug := det_chain_slug d; al_protocol := protocol d;
     al_lifecycle_state := det_lifecycle_state d; al_finality_status := Tentative;
     al_severity := severity d; al_risk_score := score (risk_score d);
     al_confidence := confidence (risk_score d);
     al_confidence_breakdown := confidence_breakdown d; al_rule_ids := triggered_rule_ids d;
     al_channel_routes := []; al_dedup_key := det_event_key d;
     al_attribution := attribution (risk_score d); al_blast_radius := [];
     al_exposure_summary := ∅; al_tx_hash := det_tx_hash d;
     al_block_number := wrap_u64 (det_block_number d); al_oracle_context := oracle_context d;
     al_actions_recommended := actions_recommended d; al_is_simulated := is_simulated d;
     al_simulation_run_id := simulation_run_id d; al_detected_at := detected_at d;
     al_created_at := now |}.

(** ** Blast radius *)

Definition f64_100 : f64 := f64_of_Z 100.
Definition exposure_of (d : DetectionResult) (current_price : f64) (e : MonitoredEntityRow)
  : EntityExposureRecord :=
  let quantity := default f64_zero (me_quantity e) in
  let divergence_pct := score (risk_score d) in
  let capital := if f64_lt f64_zero current_price then f64_mul quantity current_price
                 else default f64_zero (me_valuation_usd e) in
  {| ex_entity_id := me_entity_id e; ex_capital_at_risk_usd := capital;
     ex_liquidity_status := if bool_decide (severity d = Critical) then "at_risk" else "degraded";
     ex_estimated_slippage_pct := f64_min divergence_pct f64_100;
     ex_loss_scenario_5pct_usd := f64_mul capital (f64_lit 5 100);
     ex_loss_scenario_10pct_usd := f64_mul capital (f64_lit 10 100);
     ex_estimated_savings_usd :=
       f64_mul capital (f64_max (f64_div divergence_pct f64_100) f64_zero);
     ex_payload := VObj [("entity_type"%string, VString (me_entity_type e));
       ("display_name"%string, VOpt VString (me_display_name e));
       ("chain_slug"%string, VOpt VString (me_chain_slug e));
       ("asset_symbol"%string, VOpt VString (me_asset_symbol e));
       ("quantity"%string, VFloat quantity); ("current_price"%string, VFloat current_price);
       ("divergence_pct"%string, VFloat divergence_pct)] |}.
Definition current_price (d : DetectionResult) : f64 :=
  default f64_zero (oracle_context d !! "weighted_median_price"%string ≫= as_f64).
Definition exposure_summary (symbol : string) (exs : list EntityExposureRecord)
    (m : gmap string Value) : gmap string Value :=
  <["asset_symbol"%string := VString symbol]>
  (<["total_loss_scenario_10pct_usd"%string := VFloat (f64_sum (ex_loss_scenario_10pct_usd <$> exs))]>
  (<["total_loss_scenario_5pct_usd"%string := VFloat (f64_sum (ex_loss_scenario_5pct_usd <$> exs))]>
  (<["entity_count"%string := VInt (Z.of_nat (length exs))]>
  (<["total_capital_at_risk_usd"%string := VFloat (f64_sum (ex_capital_at_risk_usd <$> exs))]> m)))).
(** failures are logged and leave the blast radius empty *)
Definition attach_blast_radius (a : AlertEvent) (d : DetectionResult)
    (tenant_id incident_id : string) : IO AlertEvent :=
  match extract_asset_symbol (subject_key d) with
  | None => mret a
  | Some symbol =>
      r ← attempt (find_monitored_entities_for_alert tenant_id symbol);
      match r with
      | Ret ((_ :: _) as entities) =>
          let exs := exposure_of d (current_price d) <$> entities in
          _ ← log_error (save_incident_entity_exposures incident_id tenant_id exs);
          mret (set_blast (ex_entity_id <$> exs)
                  (exposure_summary symbol exs (al_exposure_summary a)) a)
      | _ => mret a
      end
  end.

(** ** Incidents *)

Definition incident_key (d : DetectionResult) (tenant_id : string) : IncidentKey :=
  {| ik_tenant_id := tenant_id; ik_pattern_id := pattern_id d; ik_subject_type := subject_type d;
     ik_subject_key := subject_key d; ik_chain_slug := det_chain_slug d |}.
Definition lookup_incident (d : DetectionResult) (key : IncidentKey) : IO (option IncidentRecord) :=
  match simulation_run_id d with
  | Some run_id => find_active_incident_for_simulation key run_id
  | None => find_active_incident key
  end.
Definition new_incident (d : DetectionResult) (tenant_id incident_id status : string)
  : IncidentRecord :=
  {| ir_incident_id := incident_id; ir_tenant_id := tenant_id; ir_pattern_id := pattern_id d;
     ir_subject_type := subject_type d; ir_subject_key := subject_key d;
     ir_chain_slug := det_chain_slug d; ir_status := status;
     ir_current_severity := severity_lower (severity d) |}.
(** the active incident, or a new one; [None] when the lookup failed *)
Definition find_or_create_incident (d : DetectionResult) (tenant_id status : string)
    (now : DateTime) : IO (option IncidentRecord) :=
  found ← attempt (lookup_incident d (incident_key d tenant_id));
  match found with
  | Ret (Some existing) => mret (Some existing)
  | Ret None =>
      incident_id ← new_uuid;
      let created := new_incident d tenant_id incident_id status in
      _ ← log_error (create_incident created now);
      mret (Some created)
  | _ => mret None
  end.
Definition confidence_to_value (m : gmap string f64) : Value := VObject (VFloat <$> m).
Definition detection_event_row (d : DetectionResult) (incident : IncidentRecord)
    (transition : IncidentTransition) (now : DateTime) : IncidentEventRow :=
  {| ie_incident_id := ir_incident_id incident; ie_transition_type := transition_lower transition;
     ie_from_state := Some (ir_status incident);
     ie_to_state := Some (incident_status_for_transition transition);
     ie_reason := description d;
     ie_payload := VObj [("pattern_id"%string, VString (pattern_id d));
       ("severity"%string, VString (severity_lower (severity d)));
       ("event_key"%string, VOpt VString (det_event_key d));
       ("context_classification"%string,
          VOpt (fun c => VString (classification_text c)) (context_classification d));
       ("confidence_breakdown"%string, confidence_to_value (confidence_breakdown d))];
     ie_created_at := now |}.
Definition detection_snapshot_row (d : DetectionResult) (incident : IncidentRecord) (now : DateTime)
  : ContextSnapshotRow :=
  {| cs_incident_id := ir_incident_id incident;
     cs_classification := classification_text <$> context_classification d;
     cs_score := Some (score (risk_score d)); cs_confidence := Some (confidence (risk_score d));
     cs_payload := VObj [("confidence_breakdown"%string, confidence_to_value (confidence_breakdown d));
                         ("signals"%string, signals_to_value (signals d))];
     cs_observed_at := now |}.
Definition attach_incident_context (cfg : Config) (a : AlertEvent) (d : DetectionResult)
  : IO AlertEvent :=
  if negb (repository cfg) then mret a
  else
    tenant_id ← lift (require_tenant_id (al_tenant_id a) ("alert " +:+ al_alert_id a));
    let transition := default Trigger (incident_transition d) in
    let status := incident_status_for_transition transition in
    now ← utc_now;
    incident ← find_or_create_incident d tenant_id status now;
    match incident with
    | None => mret a
    | Some incident =>
        let id := ir_incident_id incident in
        a ← attach_blast_radius (set_incident id a) d tenant_id id;
        _ ← log_error (update_incident_state id status (severity_lower (severity d)) now
                         (closes_incident transition));
        _ ← log_error (append_incident_event (detection_event_row d incident transition now));
        _ ← log_error (append_incident_context_snapshot (detection_snapshot_row d incident now));
        mret a
    end.

(** ** Suppression *)

(** the window, when the variable does not disable it *)
Definition duplicate_suppression_window (var : option string) : outcome (option Z) :=
  let seconds := default DEFAULT_DUPLICATE_SUPPRESSION_SECONDS (s ← var; parse_i64 s) in
  if 0 <? seconds then window ← or_panic (duration_seconds seconds); Ret (Some window)
  else Ret None.
Definition same_alert_subject (candidate existing : AlertEvent) : bool :=
  negb (bool_decide (al_alert_id candidate = al_alert_id existing))
  && is_some (al_event_key candidate)
  && bool_decide (al_event_key candidate = al_event_key existing)
  && bool_decide (al_tenant_id candidate = al_tenant_id existing)
  && bool_decide (al_pattern_id candidate = al_pattern_id existing)
  && bool_decide (al_severity candidate = al_severity existing)
  && bool_decide (al_lifecycle_state candidate = al_lifecycle_state existing)
  && bool_decide (al_simulation_run_id candidate = al_simulation_run_id existing).
Definition should_suppress_duplicate_alert (candidate existing : AlertEvent) (window : Z) : IO bool :=
  if same_alert_subject candidate existing then
    now ← utc_now;
    let age := ns now - ns (al_created_at existing) in
    mret ((age <? 0) || (age <=? window))
  else mret false.
Definition find_dispatch_duplicate (cfg : Config) (a : AlertEvent) : IO (option AlertEvent) :=
  match al_event_key a with
  | None => mret None
  | Some event_key =>
      window ← lift (duplicate_suppression_window (duplicate_suppression_seconds cfg));
      match window with
      | None => mret None
      | Some window =>
          previous ← find_latest_alert_by_event_key event_key;
          match previous with
          | None => mret None
          | Some existing =>
              dup ← should_suppress_duplicate_alert a existing window;
              mret (if dup : bool then Some existing else None)
          end
      end
  end.

(** non-critical, provisional or confirmed *)
Definition should_enforce_monthly_quota (a : AlertEvent) : bool :=
  negb (bool_decide (al_severity a = Critical))
  && match al_lifecycle_state a with Provisional | Confirmed => true | _ => false end.
Definition should_escalate_to_all_channels (tenant_id : string) (a : AlertEvent) : IO bool :=
  if should_enforce_monthly_quota a then
    limit ← load_tenant_hourly_alert_limit tenant_id;
    match limit with
    | None => mret false
    | Some limit =>
        if limit <? 0 then mret false
        else current_hour_alerts ← count_usage_past_hour tenant_id "alert_fired";
             mret (limit <=? current_hour_alerts)
    end
  else mret false.
Definition check_quota_exceeded (tenant_id : string) : IO (option (Z * Z)) :=
  limit ← load_tenant_monthly_alert_quota tenant_id;
  match limit with
  | None => mret None
  | Some limit =>
      if limit <? 0 then mret None
      else consumed ← count_usage_current_month tenant_id "alert_fired";
           mret (if limit <=? consumed then Some (limit, consumed) else None)
  end.
Definition alert_type (a : AlertEvent) : string :=
  if starts_with (coalesce_text (al_event_key a)) "depeg:" || starts_with (al_protocol a) "market:"
  then "depeg" else "generic".
Definition record_usage (tenant_id event_type : string) (a : AlertEvent) : IO unit :=
  log_error (record_usage_event tenant_id event_type (alert_type a) (alert_chain_id (al_chain a)) 1).

(** ** Dispatch *)

Definition channels_with_reason (reason : string) (r : GatewayDispatchResult) : list string :=
  gc_channel <$> filter (fun c => gc_reason c = Some reason) (gd_results r).
Definition blocked_context (flag key : string) (channels : list string) (m : gmap string Value)
  : gmap string Value :=
  match channels with
  | [] => m
  | _ => <[key := VStrings channels]> (<[flag := VBool true]> m)
  end.
Definition apply_dispatch_result_metadata (a : AlertEvent) (r : GatewayDispatchResult) : AlertEvent :=
  let context := al_oracle_context a in
  let context := <["dispatch_resolved_channels"%string := VStrings (gd_resolved_channels r)]> context in
  let context := <["dispatch_delivered"%string := VBool (gd_delivered r)]> context in
  let context := match gd_reason r with
                 | Some reason => <["dispatch_reason"%string := VString reason]> context
                 | None => context
                 end in
  let context := blocked_context "delivery_rate_limited" "delivery_rate_limited_channels"
                   (channels_with_reason "destination_rate_limit" r) context in
  let context := blocked_context "delivery_cooldown_blocked" "delivery_cooldown_channels"
                   (channels_with_reason "cooldown" r) context in
  set_context context (set_routes (gd_resolved_channels r) a).
(** store, record the lifecycle, snapshot the evidence when stored, publish *)
Definition persist_and_publish_alert (cfg : Config) (a : AlertEvent) : IO unit :=
  _ ← (if repository cfg then
         saved ← attempt (save_alert a);
         _ ← log_error (save_alert_lifecycle a);
         if is_return saved then log_error (persist_alert_evidence_snapshot a) else mret ()
       else mret ());
  _ ← log_error (publish_alert a);
  log_error (publish_alert_lifecycle a).
Definition suppress_for_quota (limit consumed : Z) (now : DateTime) (a : AlertEvent) : AlertEvent :=
  set_context (<["suppression_quota_used"%string := VInt consumed]>
               (<["suppression_quota_limit"%string := VInt limit]>
               (<["suppression_reason"%string := VString "monthly_alert_quota_exceeded"]>
                  (al_oracle_context a))))
    (set_lifecycle Suppressed (al_finality_status a) now a).
Definition delivery_row (a : AlertEvent) (r : GatewayDispatchResult) (c : GatewayChannelResult)
  : DeliveryRow :=
  {| da_alert_id := al_alert_id a; da_tenant_id := gd_tenant_id r; da_channel := gc_channel c;
     da_delivered := gc_delivered c; da_reason := gc_reason c; da_status_code := gc_status_code c |}.
Definition save_delivery_attempts (cfg : Config) (a : AlertEvent) (r : GatewayDispatchResult)
  : IO unit :=
  if repository cfg then
    iterate (fun c => log_error (save_alert_delivery_attempt (delivery_row a r c))) (gd_results r)
  else mret ().
(** the gateway call and its bookkeeping; an error is logged *)
Definition dispatch_to_gateway (cfg : Config) (a : AlertEvent) : IO AlertEvent :=
  r ← attempt (client_dispatch_alert (gateway_endpoint cfg) a);
  match r with
  | Ret result =>
      let a := apply_dispatch_result_metadata a result in
      _ ← save_delivery_attempts cfg a result;
      mret a
  | _ => mret a
  end.
Definition escalate_routes (tenant_id : string) (a : AlertEvent) : IO AlertEvent :=
  escalate ← attempt (should_escalate_to_all_channels tenant_id a);
  mret (match escalate with Ret true => set_routes ALL_NOTIFICATION_CHANNELS a | _ => a end).
(** a failure of the check lets the alert pass *)
Definition quota_exceeded (tenant_id : string) (a : AlertEvent) : IO (option (Z * Z)) :=
  if should_enforce_monthly_quota a then
    exceeded ← attempt (check_quota_exceeded tenant_id);
    mret (match exceeded with Ret r => r | _ => None end)
  else mret None.
Definition count_fired (cfg : Config) (tenant_id : string) (a : AlertEvent) : IO unit :=
  if repository cfg then record_usage tenant_id "alert_fired" a else mret ().
Definition send_alert (cfg : Config) (tenant_id : string) (a : AlertEvent) : IO AlertEvent :=
  a ← dispatch_to_gateway cfg a;
  _ ← persist_and_publish_alert cfg a;
  _ ← count_fired cfg tenant_id a;
  mret a.
Definition suppress_alert (cfg : Config) (tenant_id : string) (limit consumed : Z) (a : AlertEvent)
  : IO AlertEvent :=
  now ← utc_now;
  let suppressed := suppress_for_quota limit consumed now a in
  _ ← persist_and_publish_alert cfg suppressed;
  _ ← record_usage tenant_id "alert_suppressed_quota" suppressed;
  mret suppressed.
(** an alert that is not a duplicate *)
Definition escalate_and_send (cfg : Config) (tenant_id : string) (a : AlertEvent) : IO AlertEvent :=
  a ← escalate_routes tenant_id a;
  exceeded ← quota_exceeded tenant_id a;
  match exceeded with
  | Some (limit, consumed) => suppress_alert cfg tenant_id limit consumed a
  | None => send_alert cfg tenant_id a
  end.
Definition dispatch_alert (cfg : Config) (a : AlertEvent) : IO AlertEvent :=
  tenant_id ← lift (require_tenant_id (al_tenant_id a) ("alert " +:+ al_alert_id a));
  let a := set_tenant tenant_id a in
  if negb (repository cfg) then send_alert cfg tenant_id a
  else
    previous ← find_dispatch_duplicate cfg a;
    match previous with
    | Some previous =>
        _ ← record_usage tenant_id "alert_suppressed_duplicate" a;
        mret previous
    | None => escalate_and_send cfg tenant_id a
    end.

(** ** The cache of dispatched alerts *)

Notation alert_contexts := (gmap string AlertEvent).
Definition duration_hours (n : Z) : option Z :=
  if (i64_min <=? n * 3600) && (n * 3600 <=? i64_max) then duration_seconds (n * 3600) else None.
(** [filter(|v| *v > 0).unwrap_or(default)] *)
Definition positive_or (dflt : Z) (o : option Z) : Z :=
  match o with Some n => if 0 <? n then n else dflt | None => dflt end.
Definition alert_context_ttl (cfg : Config) : outcome Z :=
  or_panic (duration_hours (positive_or DEFAULT_ALERT_CONTEXT_TTL_HOURS
                              (s ← alert_context_ttl_hours cfg; parse_i64 s))).
Definition max_alert_contexts (cfg : Config) : Z :=
  positive_or DEFAULT_ALERT_CONTEXT_MAX_ENTRIES (s ← alert_context_max_entries cfg; parse_usize s).
Definition oldest_contexts (cache : alert_contexts) : list (string * DateTime) :=
  sort_by older_key ((fun kv => (kv.1, al_created_at kv.2)) <$> hash_entries cache).
Definition prune_alert_contexts (cache : alert_contexts) (now : DateTime) (ttl max_entries : Z)
  : outcome alert_contexts :=
  cutoff ← shift_ns now (- ttl);
  let cache := filter (fun kv => dt_le cutoff (al_created_at kv.2) = true) cache in
  if Z.of_nat (size cache) <=? max_entries then Ret cache
  else
    let remove_count := Z.to_nat (sat_sub (Z.of_nat (size cache)) max_entries) in
    Ret (foldl (fun c kt => delete kt.1 c) cache (take remove_count (oldest_contexts cache))).
(** the end of a handled entry *)
Definition remember_alert (cfg : Config) (ttl : Z) (cache : alert_contexts) (event_key : string)
    (a : AlertEvent) : IO alert_contexts :=
  now ← utc_now;
  lift (prune_alert_contexts (<[event_key := a]> cache) now ttl (max_alert_contexts cfg)).

(** ** The main loop *)

(** an acknowledgement, in consumer-group mode; its failure ends the loop *)
Definition ack_entry (cfg : Config) (send : string -> IO unit) (entry_id : string) : IO unit :=
  if use_consumer_group cfg then send entry_id else mret ().

Definition process_detection (cfg : Config) (d : DetectionResult) : IO AlertEvent :=
  a ← alert_from_detection d;
  a ← attach_incident_context cfg a d;
  dispatch_alert cfg a.
(** a detection without an event key or a rule, and one whose processing fails,
    is acknowledged and forgotten *)
Definition handle_detection (cfg : Config) (ttl : Z) (cache : alert_contexts)
    (entry : string * DetectionResult) : IO alert_contexts :=
  let '(entry_id, d) := entry in
  cache ← (match det_event_key d, triggered_rule_ids d with
           | Some event_key, _ :: _ =>
               r ← attempt (process_detection cfg d);
               match r with
               | Ret dispatched => remember_alert cfg ttl cache event_key dispatched
               | _ => mret cache
               end
           | _, _ => mret cache
           end);
  _ ← ack_entry cfg ack_detection entry_id;
  mret cache.

(** the alert a finality update is about: cached, or the latest stored *)
Definition known_alert (cfg : Config) (cache : alert_contexts) (event_key : string)
  : IO (option AlertEvent) :=
  match cache !! event_key with
  | Some a => mret (Some a)
  | None =>
      if repository cfg then
        r ← attempt (find_latest_alert_by_event_key event_key);
        mret (match r with Ret found => found | _ => None end)
      else mret None
  end.
Definition finality_of (life : LifecycleState) (old : FinalityStatus) : FinalityStatus :=
  match life with Confirmed => Finalized | Retracted => Tentative | _ => old end.
Definition finality_event_row (u : FinalityUpdate) (incident_id transition status reason : string)
    (now : DateTime) : IncidentEventRow :=
  {| ie_incident_id := incident_id; ie_transition_type := transition; ie_from_state := None;
     ie_to_state := Some status; ie_reason := Some reason;
     ie_payload := VObj [("event_key"%string, VString (fu_event_key u));
       ("lifecycle_state"%string, VString (lifecycle_lower (fu_lifecycle_state u)));
       ("block_number"%string, VInt (fu_block_number u))];
     ie_created_at := now |}.
(** transition, status, closing, reason *)
Definition finality_transition (life : LifecycleState) : string * string * bool * string :=
  match life with
  | Retracted => ("retract", "retracted", true, "finality_reorg_retraction")
  | Confirmed => ("update", "active", false, "finality_confirmation")
  | _ => ("update", "active", false, "finality_update")
  end%string.
Definition update_finality_incident (cfg : Config) (u : FinalityUpdate) (a : AlertEvent) : IO unit :=
  match repository cfg, al_incident_id a with
  | true, Some incident_id =>
      let '(transition, status, closes, reason) := finality_transition (fu_lifecycle_state u) in
      _ ← log_error (update_incident_state incident_id status (severity_lower (al_severity a))
                       (al_created_at a) closes);
      log_error (append_incident_event
                   (finality_event_row u incident_id transition status reason (al_created_at a)))
  | _, _ => mret ()
  end.
Definition apply_finality_update (cfg : Config) (ttl : Z) (cache : alert_contexts)
    (u : FinalityUpdate) (existing : AlertEvent) : IO alert_contexts :=
  now ← utc_now;
  let updated := set_lifecycle (fu_lifecycle_state u)
                   (finality_of (fu_lifecycle_state u) (al_finality_status existing)) now existing in
  _ ← update_finality_incident cfg u updated;
  r ← attempt (dispatch_alert cfg updated);
  match r with
  | Ret dispatched => remember_alert cfg ttl cache (fu_event_key u) dispatched
  | _ => mret cache
  end.
Definition is_final (life : LifecycleState) : bool :=
  match life with Confirmed | Retracted => true | _ => false end.
(** an update that is not final, concerns no known alert or changes nothing is
    acknowledged and dropped *)
Definition handle_finality_update (cfg : Config) (ttl : Z) (cache : alert_contexts)
    (entry : string * FinalityUpdate) : IO alert_contexts :=
  let '(entry_id, u) := entry in
  cache ← (if is_final (fu_lifecycle_state u) then
             existing ← known_alert cfg cache (fu_event_key u);
             match existing with
             | Some existing =>
                 if bool_decide (al_lifecycle_state existing = fu_lifecycle_state u) then mret cache
                 else apply_finality_update cfg ttl cache u existing
             | None => mret cache
             end
           else mret cache);
  _ ← ack_entry cfg ack_finality_update entry_id;
  mret cache.

(** one turn of the loop, given the entries read from the two streams *)
Definition orchestrate (cfg : Config) (ttl : Z) (detections : list (string * DetectionResult))
    (updates : list (string * FinalityUpdate)) (cache : alert_contexts) : IO alert_contexts :=
  cache ← for_each (handle_detection cfg ttl) detections cache;
  for_each (handle_finality_update cfg ttl) updates cache.
End orchestrator.
Notation alert_contexts := (gmap string AlertEvent).
