(* ===== verification/OrchestratorProofs.v ===== *)
(** * Theorems about the orchestrator

    Frames of the repository's operations; what a dispatch does in each of its
    cases; duplicate suppression and the monthly quota; incidents; the cache of
    dispatched alerts; acknowledgements.

    A relation between the worlds before and after that statements without
    effect on the incidents, clock readings, gateway calls and publications
    satisfy is satisfied by dispatching an alert and by most of what a detection
    causes.  The relation is a parameter. *)
From S2P Require Import Prelude F64 Text Numbers Ports EventSchema CachePrune AlertStore Notifier AlertIO AlertEvidence Orchestrator.

Section frames.
Context `{Chrono} `{SerdeJson} `{HashOrder} `{!AlertCodec} `{!Env} `{!TraceCodec} `{!DetectionCodec}.

(** ** What the operations leave alone *)

(** nothing was sent, published or acknowledged *)
Definition silent (w w' : World) : Prop :=
  requests w' = requests w /\ streamed w' = streamed w /\ acked w' = acked w.
#[global] Instance silent_preorder : PreOrder silent.
Proof.
  split; [by intros w|]. intros w1 w2 w3 (E1 & E2 & E3) (F1 & F2 & F3).
  split_and!; congruence.
Qed.
(** the tables an operation may write: [P] relates them before and after *)
Definition tables_rel (P : AlertTables -> AlertTables -> Prop) (w w' : World) : Prop :=
  P (tables w) (tables w').
#[global] Instance tables_rel_preorder P `{!PreOrder P} : PreOrder (tables_rel P).
Proof.
  split; [intros w; unfold tables_rel; reflexivity|].
  intros w1 w2 w3 E1 E2. unfold tables_rel in *. by etrans.
Qed.

Lemma execute_silent {A} (f : DateTime -> AlertTables -> AlertTables * outcome A) :
  within silent (execute f).
Proof.
  intros w. unfold execute, mbind, st_bind, tick, get_st, mret, st_ret, set_tables, lift.
  destruct (sql_error (step w)); [done|]. simpl. by destruct (f _ _) as [? []].
Qed.
Lemma execute_tables P `{!PreOrder P} {A} (f : DateTime -> AlertTables -> AlertTables * outcome A) :
  (forall now t, P t (f now t).1) -> within (tables_rel P) (execute f).
Proof.
  intros Hf w. unfold execute, mbind, st_bind, tick, get_st, mret, st_ret, set_tables, lift.
  destruct (sql_error (step w)); [unfold tables_rel; simpl; reflexivity|]. simpl.
  specialize (Hf (clock (step w)) (tables w)). destruct (f _ _) as [t' []]; simpl in *;
    unfold tables_rel; simpl; [done|reflexivity..].
Qed.
Lemma tick_silent : within silent tick.
Proof. done. Qed.
Lemma tick_tables P `{!PreOrder P} : within (tables_rel P) tick.
Proof. intros w. unfold tables_rel. simpl. reflexivity. Qed.
Lemma post_tables P `{!PreOrder P} url b : within (tables_rel P) (post url b).
Proof. intros w. unfold tables_rel. simpl. reflexivity. Qed.
Lemma redis_tables P `{!PreOrder P} f :
  (forall w, tables (f w) = tables w) -> within (tables_rel P) (redis f).
Proof.
  intros Hf w. unfold redis, mbind, st_bind, tick, lift, tables_rel.
  destruct (redis_error _); simpl; [reflexivity|]. rewrite Hf. simpl. reflexivity.
Qed.
End frames.

(** peel a computation into its statements, which [atom] closes *)
Ltac peel atom :=
  repeat first
    [ atom
    | apply within_ret; apply _
    | apply within_lift; apply _
    | apply within_log_error; [apply _|]
    | apply within_attempt
    | apply within_iterate; [apply _|intros ?]
    | apply within_bind; [apply _| |intros ?]
    | match goal with
      | |- within _ (let '(_, _) := ?x in _) => destruct x
      | |- within _ (if ?b then _ else _) => destruct b
      | |- within _ (match ?x with _ => _ end) => destruct x
      end ].

Section frames2.
Context `{Chrono} `{SerdeJson} `{HashOrder} `{!AlertCodec} `{!Env} `{!TraceCodec} `{!DetectionCodec}.

Ltac quiet := peel ltac:(first [apply execute_silent | apply tick_silent]).
(** the repository neither sends nor publishes *)
Lemma run_write_silent f : within silent (run_write f).
Proof. unfold run_write, or_sql_error. quiet. Qed.
Lemma run_query_silent {A} (f : AlertTables -> A) : within silent (run_query f).
Proof. unfold run_query, or_sql_error. quiet. Qed.
Definition ticked (w : World) : World := (tick w).1.
Lemma utc_now_run w : utc_now w = (ticked w, Ret (clock (step w))).
Proof. done. Qed.
Lemma utc_now_silent : within silent utc_now.
Proof. unfold utc_now. quiet. Qed.
Lemma new_uuid_silent : within silent new_uuid.
Proof. unfold new_uuid. quiet. Qed.
Lemma find_latest_silent k : within silent (find_latest_alert_by_event_key k).
Proof. unfold find_latest_alert_by_event_key. peel ltac:(apply run_query_silent). Qed.
Lemma record_usage_silent t e a : within silent (record_usage t e a).
Proof. unfold record_usage, record_usage_event, or_sql_error. quiet. Qed.
Lemma find_duplicate_silent cfg a : within silent (find_dispatch_duplicate cfg a).
Proof.
  unfold find_dispatch_duplicate, should_suppress_duplicate_alert.
  peel ltac:(first [apply find_latest_silent|apply utc_now_silent]).
Qed.
Lemma escalate_silent t a : within silent (escalate_routes t a).
Proof.
  unfold escalate_routes, should_escalate_to_all_channels, load_tenant_hourly_alert_limit,
    count_usage_past_hour, or_sql_error. quiet.
Qed.
Lemma quota_silent t a : within silent (quota_exceeded t a).
Proof.
  unfold quota_exceeded, check_quota_exceeded, load_tenant_monthly_alert_quota,
    count_usage_current_month, or_sql_error. quiet.
Qed.
Lemma evidence_silent a : within silent (persist_alert_evidence_snapshot a).
Proof.
  unfold persist_alert_evidence_snapshot, load_operational_events_for_alert_evidence,
    simulation_rows, load_simulation_events_for_alert_evidence, save_alert_evidence_snapshot_batch.
  peel ltac:(first [apply run_query_silent | apply run_write_silent | apply execute_silent]).
Qed.

(** ** Persisting and publishing *)

(** what publication may add to the streams *)
Definition published (a : AlertEvent) : list (list (string * AlertEvent)) :=
  let x := (STREAM_ALERTS, a) in let y := (STREAM_ALERT_LIFECYCLE, a) in [[]; [x]; [y]; [x; y]].
Lemma log_publish_run stream a w :
  let w' := (log_error (publish_struct stream a) w).1 in
  requests w' = requests w /\ acked w' = acked w /\ tables w' = tables w /\
  (streamed w' = streamed w \/ streamed w' = streamed w ++ [(stream, a)]) /\
  (redis_error (step w) = None -> streamed w' = streamed w ++ [(stream, a)]) /\
  step w' = S (step w) /\
  (log_error (publish_struct stream a) w).2 = Ret ().
Proof.
  rewrite log_error_run. unfold publish_struct, redis, mbind, st_bind, tick, lift. simpl.
  destruct (redis_error _); simpl; split_and!; auto; done.
Qed.
Lemma persist_and_publish_spec cfg a w w' o :
  persist_and_publish_alert cfg a w = (w', o) ->
  requests w' = requests w /\ acked w' = acked w /\
  exists l, l ∈ published a /\ streamed w' = streamed w ++ l.
Proof.
  unfold persist_and_publish_alert. set (m := if repository cfg then _ else _).
  assert (Hm : within silent m).
  { unfold m, save_alert, save_alert_lifecycle.
    peel ltac:(first [apply run_write_silent|apply evidence_silent]). }
  specialize (Hm w). unfold mbind, st_bind. destruct (m w) as [w1 [u|e|]]; simpl in Hm;
    destruct Hm as (E1 & E2 & E3).
  2,3: intros [= <- <-]; split_and!; auto; exists []; rewrite app_nil_r; split; [set_solver|done].
  pose proof (log_publish_run STREAM_ALERTS a w1) as (R1 & A1 & _ & S1 & _ & _ & O1).
  unfold publish_alert. destruct (log_error _ w1) as [w2 o2]; simpl in *; subst o2.
  pose proof (log_publish_run STREAM_ALERT_LIFECYCLE a w2) as (R2 & A2 & _ & S2 & _ & _ & O2).
  unfold publish_alert_lifecycle. destruct (log_error _ w2) as [w3 o3]; simpl in *; subst o3.
  intros [= <- <-]. split_and!; [congruence..|].
  destruct S1 as [S1|S1], S2 as [S2|S2]; rewrite S2, S1, E2;
    [exists []|eexists [_]|eexists [_]|eexists [_; _]]; rewrite <- ?app_assoc, ?app_nil_r;
    (split; [|done]); unfold published; repeat (rewrite elem_of_cons); auto.
Qed.

(** ** The gateway call *)

Lemma deliveries_silent cfg a r : within silent (save_delivery_attempts cfg a r).
Proof.
  unfold save_delivery_attempts, save_alert_delivery_attempt. peel ltac:(apply run_write_silent).
Qed.
Lemma deliveries_never_err cfg a r : never_err (save_delivery_attempts cfg a r).
Proof.
  unfold save_delivery_attempts. destruct (repository cfg); [|done].
  apply iterate_never_err. intros c. apply log_error_never_err.
Qed.
(** the metadata of a dispatch changes routes and context only *)
Definition rerouted (a b : AlertEvent) : Prop :=
  exists context routes, b = set_context context (set_routes routes a).
Lemma rerouted_refl a : rerouted a a.
Proof. exists (al_oracle_context a), (al_channel_routes a). by destruct a. Qed.
Lemma gateway_call cfg a tenant_id w w' o :
  al_tenant_id a = Some tenant_id -> dispatch_to_gateway cfg a w = (w', o) ->
  requests w' = requests w ++ [(dispatch_url (gateway_endpoint cfg), client_body tenant_id a)] /\
  streamed w' = streamed w /\ acked w' = acked w /\
  match o with Ret b => rerouted a b | Err _ => False | Panic => True end.
Proof.
  intros Ht. unfold dispatch_to_gateway, client_dispatch_alert, attempt. rewrite Ht.
  unfold mbind, st_bind, lift, post, io_gateway, mbind, st_bind, tick.
  cbn -[client_body save_delivery_attempts].
  destruct (http_send _ _ _) as [resp|e|]; cbn -[client_body save_delivery_attempts];
    [|(intros [= <- <-]; split_and!; auto using rerouted_refl) ..].
  set (result := parse_gateway_dispatch_result _ _).
  set (b := apply_dispatch_result_metadata a result). set (w1 := {| step := _ |}).
  pose proof (deliveries_silent cfg b result w1) as Hd.
  pose proof (deliveries_never_err cfg b result w1) as Hn.
  assert (Hb : rerouted a b) by (unfold rerouted, b, apply_dispatch_result_metadata; eauto).
  destruct (save_delivery_attempts cfg b result w1) as [w2 [u|e|]]; simpl in Hd, Hn;
    destruct Hd as (E1 & E2 & E3); intros [= <- <-];
    first [by destruct (Hn e)|split_and!; auto].
Qed.

(** ** The cases of a dispatch *)

Lemma require_tenant_not_panic o c : require_tenant_id o c <> Panic.
Proof. unfold require_tenant_id, of_option. by destruct (trimmed_nonempty o). Qed.
Lemma duplicate_same_subject cfg a w w' b :
  find_dispatch_duplicate cfg a w = (w', Ret (Some b)) -> same_alert_subject a b = true.
Proof.
  unfold find_dispatch_duplicate. destruct (al_event_key a); [|done]. intros Hf.
  apply st_bind_ret_inv in Hf as (w1 & [window|] & _ & Hf); [|done].
  apply st_bind_ret_inv in Hf as (w2 & [existing|] & _ & Hf); [|done].
  apply st_bind_ret_inv in Hf as (w3 & dup & Hd & Hf).
  unfold should_suppress_duplicate_alert in Hd.
  destruct (same_alert_subject a existing) eqn:Hs; [unfold mret, st_ret in Hf; destruct dup; by simplify_eq|].
  injection Hd as <- <-. done.
Qed.
Lemma escalate_cases tenant_id a w :
  exists w1, (escalate_routes tenant_id a w = (w1, Ret a) \/
              escalate_routes tenant_id a w = (w1, Ret (set_routes ALL_NOTIFICATION_CHANNELS a)) \/
              escalate_routes tenant_id a w = (w1, Panic)).
Proof.
  unfold escalate_routes, attempt, mbind, st_bind.
  destruct (should_escalate_to_all_channels tenant_id a w) as [w1 [[]|e|]]; eauto.
Qed.
Lemma check_quota_spec tenant_id w w' limit consumed :
  check_quota_exceeded tenant_id w = (w', Ret (Some (limit, consumed))) -> 0 <= limit <= consumed.
Proof.
  unfold check_quota_exceeded. intros Hf.
  apply st_bind_ret_inv in Hf as (w1 & [l|] & _ & Hf); [|done].
  destruct (l <? 0) eqn:Hl; [done|]. apply st_bind_ret_inv in Hf as (w2 & c & _ & Hf).
  unfold mret, st_ret in Hf. destruct (l <=? c) eqn:Hc; simplify_eq. bools. lia.
Qed.
Lemma quota_exceeded_spec tenant_id a w w' limit consumed :
  quota_exceeded tenant_id a w = (w', Ret (Some (limit, consumed))) ->
  should_enforce_monthly_quota a = true /\ 0 <= limit <= consumed.
Proof.
  unfold quota_exceeded. destruct (should_enforce_monthly_quota a); [|done]. intros Hf. split; [done|].
  unfold attempt, mbind, st_bind, mret, st_ret in Hf.
  destruct (check_quota_exceeded tenant_id w) as [w1 [r|e|]] eqn:Hc; simplify_eq.
  by eapply check_quota_spec.
Qed.
Lemma quota_never_err tenant_id a : never_err (quota_exceeded tenant_id a).
Proof.
  unfold quota_exceeded. destruct (should_enforce_monthly_quota a); [|done].
  apply never_err_bind; [apply attempt_never_err|done].
Qed.
Lemma persist_never_err cfg a : never_err (persist_and_publish_alert cfg a).
Proof.
  unfold persist_and_publish_alert. apply never_err_bind; [|intros _; apply never_err_bind;
    [|intros _]; apply log_error_never_err].
  destruct (repository cfg); [|done]. apply never_err_bind; [apply attempt_never_err|].
  intros saved. apply never_err_bind; [apply log_error_never_err|]. intros _.
  destruct (is_return saved); [apply log_error_never_err|done].
Qed.

(** how the dispatch of [a] can end and what it did *)
Inductive dispatched (cfg : Config) (a : AlertEvent) (w w' : World) : outcome AlertEvent -> Prop :=
  | Refused e : silent w w' -> dispatched cfg a w w' (Err e)
  | Repeated t b : require_tenant_id (al_tenant_id a) ("alert " +:+ al_alert_id a) = Ret t ->
      silent w w' -> same_alert_subject (set_tenant t a) b = true -> dispatched cfg a w w' (Ret b)
  | OverQuota a1 limit consumed now l :
      should_enforce_monthly_quota a = true -> 0 <= limit <= consumed ->
      requests w' = requests w -> acked w' = acked w ->
      l ∈ published (suppress_for_quota limit consumed now a1) -> streamed w' = streamed w ++ l ->
      dispatched cfg a w w' (Ret (suppress_for_quota limit consumed now a1))
  | Sent t a1 b l : require_tenant_id (al_tenant_id a) ("alert " +:+ al_alert_id a) = Ret t ->
      (a1 = set_tenant t a \/ a1 = set_routes ALL_NOTIFICATION_CHANNELS (set_tenant t a)) ->
      requests w' = requests w ++ [(dispatch_url (gateway_endpoint cfg), client_body t a1)] ->
      acked w' = acked w -> rerouted a1 b -> l ∈ published b -> streamed w' = streamed w ++ l ->
      dispatched cfg a w w' (Ret b)
  | Crashed : acked w' = acked w ->
      (requests w' = requests w \/ exists r, requests w' = requests w ++ [r]) ->
      dispatched cfg a w w' Panic.

Lemma record_usage_never_err t e a : never_err (record_usage t e a).
Proof. apply log_error_never_err. Qed.
Lemma fired_silent cfg t a :
  within silent (count_fired cfg t a).
Proof. unfold count_fired. peel ltac:(apply record_usage_silent). Qed.
Lemma gateway_never_err cfg a : never_err (dispatch_to_gateway cfg a).
Proof.
  apply never_err_bind; [apply attempt_never_err|]. intros [r|?|]; try done.
  apply never_err_bind; [apply deliveries_never_err|done].
Qed.
Lemma send_never_err cfg t a : never_err (send_alert cfg t a).
Proof.
  apply never_err_bind; [apply gateway_never_err|]. intros b.
  apply never_err_bind; [apply persist_never_err|]. intros _.
  apply never_err_bind; [|done]. unfold count_fired. destruct (repository cfg); [apply record_usage_never_err|done].
Qed.
Lemma suppress_never_err cfg t limit consumed a : never_err (suppress_alert cfg t limit consumed a).
Proof.
  apply never_err_bind; [done|]. intros now.
  apply never_err_bind; [apply persist_never_err|]. intros _.
  apply never_err_bind; [apply record_usage_never_err|done].
Qed.
Lemma escalate_and_send_never_err cfg t a : never_err (escalate_and_send cfg t a).
Proof.
  apply never_err_bind; [apply never_err_bind; [apply attempt_never_err|done]|]. intros a1.
  apply never_err_bind; [apply quota_never_err|].
  intros [[limit consumed]|]; [apply suppress_never_err|apply send_never_err].
Qed.
(** an alert that is sent *)
Lemma send_spec cfg t a w w' o :
  al_tenant_id a = Some t -> send_alert cfg t a w = (w', o) ->
  requests w' = requests w ++ [(dispatch_url (gateway_endpoint cfg), client_body t a)] /\
  acked w' = acked w /\
  match o with
  | Ret b => rerouted a b /\ exists l, l ∈ published b /\ streamed w' = streamed w ++ l
  | Err _ => False
  | Panic => True
  end.
Proof.
  intros Ht Hrun. pose proof (send_never_err cfg t a w) as Hn. rewrite Hrun in Hn. revert Hrun.
  unfold send_alert, mbind at 1, st_bind at 1.
  destruct (dispatch_to_gateway cfg a w) as [w1 o1] eqn:Hg.
  apply (gateway_call cfg a t) in Hg as (R1 & S1 & A1 & Ho); [|done].
  destruct o1 as [b|e|]; [|done|by intros [= <- <-]]. unfold mbind at 1, st_bind at 1.
  destruct (persist_and_publish_alert cfg b w1) as [w2 o2] eqn:Hp.
  apply persist_and_publish_spec in Hp as (R2 & A2 & l & Hl & S2).
  destruct o2 as [u|e|]; intros Hrun;
    [|injection Hrun as <- <-; by destruct (Hn e)
     |injection Hrun as <- <-; split_and!; first [congruence|done]].
  revert Hrun. unfold mbind, st_bind. pose proof (fired_silent cfg t b w2) as Hs.
  destruct (count_fired cfg t b w2) as [w3 o3]; simpl in Hs; destruct Hs as (R3 & S3 & A3).
  destruct o3 as [u'|e|]; intros [= <- <-]; [|by destruct (Hn e)|split_and!; first [congruence|done]].
  split; [congruence|]. split; [congruence|]. split; [done|]. exists l. split; [done|congruence].
Qed.
(** a dispatch once the routes are decided *)
Lemma after_escalation cfg a t a1 w w1 w' o :
  require_tenant_id (al_tenant_id a) ("alert " +:+ al_alert_id a) = Ret t ->
  (a1 = set_tenant t a \/ a1 = set_routes ALL_NOTIFICATION_CHANNELS (set_tenant t a)) ->
  silent w w1 ->
  (exceeded ← quota_exceeded t a1;
   match exceeded with
   | Some (limit, consumed) => suppress_alert cfg t limit consumed a1
   | None => send_alert cfg t a1
   end) w1 = (w', o) ->
  dispatched cfg a w w' o.
Proof.
  intros Ht Ha1 (R1 & S1 & A1). unfold mbind at 1, st_bind at 1.
  pose proof (quota_silent t a1 w1) as Hq. pose proof (quota_never_err t a1 w1) as Hn.
  assert (Hen : should_enforce_monthly_quota a1 = should_enforce_monthly_quota a /\
                al_tenant_id a1 = Some t) by (destruct Ha1; by subst).
  destruct (quota_exceeded t a1 w1) as [w2 [[[limit consumed]|]|e|]] eqn:Hx; simpl in Hq, Hn;
    destruct Hq as (R2 & S2 & A2); [| |by destruct (Hn e)|].
  - apply quota_exceeded_spec in Hx as [Hx Hlc]. rewrite (proj1 Hen) in Hx.
    unfold suppress_alert. rewrite (st_bind_run _ _ _ _ _ (utc_now_run w2)). set (w3 := ticked w2).
    set (b := suppress_for_quota _ _ _ _). unfold mbind at 1, st_bind at 1.
    pose proof (persist_never_err cfg b w3) as Hpn.
    destruct (persist_and_publish_alert cfg b w3) as [w4 o4] eqn:Hp.
    apply persist_and_publish_spec in Hp as (R4 & A4 & l & Hl & S4). simpl in R4, A4, S4, Hpn.
    destruct o4 as [u|e|]; [|by destruct (Hpn e)|].
    2: { intros [= <- <-]. apply Crashed; [congruence|left; congruence]. }
    unfold mbind, st_bind. pose proof (record_usage_silent t "alert_suppressed_quota" b w4) as Hu.
    pose proof (record_usage_never_err t "alert_suppressed_quota" b w4) as Hun.
    destruct (record_usage _ _ _ w4) as [w5 [u'|e|]]; simpl in Hu, Hun; destruct Hu as (R5 & S5 & A5);
      intros [= <- <-]; [| by destruct (Hun e) | apply Crashed; [congruence|left; congruence]].
    eapply OverQuota; [done..|congruence|congruence|done|congruence].
  - intros Hrun. apply (send_spec cfg t a1 w2) in Hrun as (R3 & A3 & Ho); [|by apply Hen].
    destruct o as [b|e|]; [|done|].
    + destruct Ho as (Hr & l & Hl & S3). eapply Sent; [done..|congruence|congruence|done|done|congruence].
    + apply Crashed; [congruence|right; eexists; by rewrite R3, R2, R1].
  - intros [= <- <-]. apply Crashed; [congruence|left; congruence].
Qed.

Lemma dispatch_cases_lemma cfg a w w' o :
  repository cfg = true -> dispatch_alert cfg a w = (w', o) -> dispatched cfg a w w' o.
Proof.
  intros Hrepo. unfold dispatch_alert. rewrite Hrepo. cbn [negb]. unfold mbind at 1, st_bind at 1, lift at 1.
  pose proof (require_tenant_not_panic (al_tenant_id a) ("alert " +:+ al_alert_id a)) as Hnp.
  destruct (require_tenant_id _ _) as [t|e|] eqn:Ht; [|intros [= <- <-]; by apply Refused|done].
  clear Hnp. set (a0 := set_tenant t a). unfold mbind at 1, st_bind at 1.
  pose proof (find_duplicate_silent cfg a0 w) as Hs.
  destruct (find_dispatch_duplicate cfg a0 w) as [w1 [[b|]|e|]] eqn:Hd; simpl in Hs.
  - apply duplicate_same_subject in Hd. unfold mbind, st_bind.
    pose proof (record_usage_silent t "alert_suppressed_duplicate" a0 w1) as Hu.
    pose proof (record_usage_never_err t "alert_suppressed_duplicate" a0 w1) as Hn.
    destruct (record_usage _ _ _ w1) as [w2 [u|e|]]; simpl in Hu, Hn; intros [= <- <-].
    + eapply Repeated; [done| |done]. by etrans.
    + by destruct (Hn e).
    + destruct Hs as (?&?&?), Hu as (?&?&?). apply Crashed; [congruence|left; congruence].
  - intros Hrun. unfold escalate_and_send, mbind at 1, st_bind at 1 in Hrun. pose proof (escalate_silent t a0 w1) as He.
    destruct (escalate_cases t a0 w1) as (w2 & [Hc|[Hc|Hc]]); rewrite Hc in He, Hrun; simpl in He;
      [apply (after_escalation cfg a t a0 w w2 w' o Ht); [by left|by etrans|exact Hrun]
      |apply (after_escalation cfg a t _ w w2 w' o Ht (or_intror eq_refl)); [by etrans|exact Hrun]|].
    injection Hrun as <- <-. destruct Hs as (?&?&?), He as (?&?&?).
    apply Crashed; [congruence|left; congruence].
  - intros [= <- <-]. by apply Refused.
  - intros [= <- <-]. destruct Hs as (?&?&?). apply Crashed; [done|by left].
Qed.

(** ** The rows a dispatch leaves, on a database that answers *)

Definition keeps_lifecycle (t t' : AlertTables) : Prop := lifecycle_events t' = lifecycle_events t.
Definition keeps_usage (t t' : AlertTables) : Prop :=
  usage_events t' = usage_events t /\ monthly_quotas t' = monthly_quotas t.
#[global] Instance keeps_lifecycle_preorder : PreOrder keeps_lifecycle.
Proof. split; [by intros t|]. unfold keeps_lifecycle. intros ???; congruence. Qed.
#[global] Instance keeps_usage_preorder : PreOrder keeps_usage.
Proof.
  split; [by intros t|]. unfold keeps_usage. intros ??? [E1 E2] [F1 F2]. split; congruence.
Qed.

Ltac tables_stmt := apply execute_tables; [apply _|done].
Ltac tables_atom :=
  first [ apply execute_tables; [apply _|intros; solve [reflexivity]]
        | apply tick_tables; apply _
        | apply post_tables; apply _
        | apply redis_tables; [apply _|intros; reflexivity] ].
Ltac keep_tables := peel ltac:(tables_atom).

Section both.
Context (P : AlertTables -> AlertTables -> Prop) `{!PreOrder P}.
Hypothesis P_alerts : forall x t, P t (with_alerts x t).
Hypothesis P_evidence : forall x t, P t (with_evidence_snapshots x t).
Hypothesis P_deliveries : forall x t, P t (with_delivery_attempts x t).

Lemma write_keeps f : (forall t, P t (f t)) -> within (tables_rel P) (run_write f).
Proof.
  intros Hf. unfold run_write, or_sql_error.
  peel ltac:(apply execute_tables; [apply _|intros; apply Hf]).
Qed.
Lemma query_keeps {A} (f : AlertTables -> A) : within (tables_rel P) (run_query f).
Proof. unfold run_query, or_sql_error. keep_tables. Qed.
Lemma duplicate_keeps cfg a : within (tables_rel P) (find_dispatch_duplicate cfg a).
Proof.
  unfold find_dispatch_duplicate, should_suppress_duplicate_alert, find_latest_alert_by_event_key, utc_now.
  peel ltac:(first [apply query_keeps|tables_atom]).
Qed.
Lemma escalate_keeps t a : within (tables_rel P) (escalate_routes t a).
Proof.
  unfold escalate_routes, should_escalate_to_all_channels, load_tenant_hourly_alert_limit,
    count_usage_past_hour, or_sql_error. keep_tables.
Qed.
Lemma quota_keeps t a : within (tables_rel P) (quota_exceeded t a).
Proof.
  unfold quota_exceeded, check_quota_exceeded, load_tenant_monthly_alert_quota,
    count_usage_current_month, or_sql_error. keep_tables.
Qed.
Lemma gateway_keeps cfg a : within (tables_rel P) (dispatch_to_gateway cfg a).
Proof.
  unfold dispatch_to_gateway, client_dispatch_alert, save_delivery_attempts, save_alert_delivery_attempt.
  peel ltac:(first [apply write_keeps; intros; apply P_deliveries|tables_atom]).
Qed.
Lemma save_keeps a : within (tables_rel P) (save_alert a).
Proof. unfold save_alert. peel ltac:(apply write_keeps; intros; apply P_alerts). Qed.
Lemma evidence_keeps a : within (tables_rel P) (persist_alert_evidence_snapshot a).
Proof.
  unfold persist_alert_evidence_snapshot, load_operational_events_for_alert_evidence,
    simulation_rows, load_simulation_events_for_alert_evidence, save_alert_evidence_snapshot_batch.
  peel ltac:(first [apply query_keeps | apply write_keeps; intros; apply P_evidence | tables_atom]).
Qed.
End both.

(** a database that answers every statement *)
Definition healthy : Prop := forall n, sql_error n = None.
Definition stepped (f : AlertTables -> AlertTables) (w : World) : World :=
  {| step := S (step w); tables := f (tables w); requests := requests w; streamed := streamed w;
     acked := acked w |}.
Lemma healthy_execute {A} (f : DateTime -> AlertTables -> AlertTables * outcome A) w t a :
  sql_error (step w) = None -> f (clock (step w)) (tables w) = (t, Ret a) ->
  execute f w = (stepped (fun _ => t) w, Ret (inr a)).
Proof.
  intros Hs Hf. unfold execute, mbind, st_bind, tick, get_st, mret, st_ret, set_tables.
  rewrite Hs. simpl. by rewrite Hf.
Qed.
Lemma healthy_write f w :
  sql_error (step w) = None -> run_write f w = (stepped f w, Ret ()).
Proof.
  intros Hs. unfold run_write, or_sql_error, mbind, st_bind.
  by rewrite (healthy_execute _ w (f (tables w)) ()) by done.
Qed.
Lemma healthy_query {A} (f : AlertTables -> A) w :
  sql_error (step w) = None -> run_query f w = (stepped id w, Ret (f (tables w))).
Proof.
  intros Hs. unfold run_query, or_sql_error, mbind, st_bind.
  by rewrite (healthy_execute _ w (tables w) (f (tables w))) by done.
Qed.

Definition usage_row (t event_type : string) (a : AlertEvent) (now : DateTime) : UsageRow :=
  {| ue_tenant_id := t; ue_event_type := event_type; ue_alert_type := alert_type a;
     ue_chain_id := alert_chain_id (al_chain a); ue_quantity := 1; ue_recorded_at := now |}.
Lemma record_usage_run t e a w :
  sql_error (step w) = None ->
  record_usage t e a w = (stepped (insert_usage (usage_row t e a (clock (step w)))) w, Ret ()).
Proof.
  intros Hs. unfold record_usage. rewrite log_error_run. unfold record_usage_event, or_sql_error.
  unfold mbind, st_bind. by rewrite (healthy_execute _ w _ ()) by done.
Qed.

Lemma log_error_within {S A} (R : S -> S -> Prop) `{!PreOrder R} (m : ST S A) :
  within R m -> within R (log_error m).
Proof. apply within_log_error. apply _. Qed.
Lemma publish_tables a w :
  tables ((_ ← log_error (publish_alert a); log_error (publish_alert_lifecycle a)) w).1 = tables w.
Proof.
  unfold mbind, st_bind.
  pose proof (log_publish_run STREAM_ALERTS a w) as (_ & _ & T1 & _ & _ & _ & O1).
  unfold publish_alert. destruct (log_error _ w) as [w2 o2]; simpl in *; subst o2.
  pose proof (log_publish_run STREAM_ALERT_LIFECYCLE a w2) as (_ & _ & T2 & _).
  unfold publish_alert_lifecycle. congruence.
Qed.
Lemma persist_rows cfg a w w' :
  healthy -> repository cfg = true -> persist_and_publish_alert cfg a w = (w', Ret ()) ->
  lifecycle_events (tables w') = lifecycle_events (tables w) ++ [lifecycle_row a] /\
  keeps_usage (tables w) (tables w').
Proof.
  intros Hh Hr. unfold persist_and_publish_alert. rewrite Hr. intros Hp.
  apply st_bind_ret_inv in Hp as (w3 & [] & Hp & Hpub).
  assert (Ht : tables w' = tables w3).
  { pose proof (publish_tables a w3) as Ht. by rewrite Hpub in Ht. }
  rewrite Ht. apply st_bind_ret_inv in Hp as (w1 & saved & Hsave & Hp).
  apply st_bind_ret_inv in Hp as (w2 & [] & Hl & Hev).
  assert (Hw1 : keeps_lifecycle (tables w) (tables w1) /\ keeps_usage (tables w) (tables w1)).
  { split; [pose proof (within_attempt _ _ (save_keeps keeps_lifecycle (fun _ _ => eq_refl) a) w) as Hk
           |pose proof (within_attempt _ _ (save_keeps keeps_usage (fun _ _ => conj eq_refl eq_refl) a) w) as Hk];
      by rewrite Hsave in Hk. }
  rewrite log_error_run in Hl. unfold save_alert_lifecycle in Hl.
  rewrite healthy_write in Hl by apply Hh. simpl in Hl. injection Hl as <-.
  assert (Hw3 : keeps_lifecycle (tables (stepped (insert_lifecycle (lifecycle_row a)) w1)) (tables w3)
             /\ keeps_usage (tables (stepped (insert_lifecycle (lifecycle_row a)) w1)) (tables w3)).
  { destruct (is_return saved); [|by injection Hev as <-].
    split; [pose proof (log_error_within _ _ (evidence_keeps keeps_lifecycle (fun _ _ => eq_refl) a)
                          (stepped (insert_lifecycle (lifecycle_row a)) w1)) as Hk
           |pose proof (log_error_within _ _ (evidence_keeps keeps_usage (fun _ _ => conj eq_refl eq_refl) a)
                          (stepped (insert_lifecycle (lifecycle_row a)) w1)) as Hk];
      by rewrite Hev in Hk. }
  destruct Hw1 as [L1 U1], Hw3 as [L3 U3]. split; [|by transitivity (tables w1)].
  unfold keeps_lifecycle in *. rewrite L3. simpl. by rewrite L1.
Qed.

Definition fired_total (t : string) (m : DateTime) (db : AlertTables) : Z :=
  usage_total t "alert_fired" (dt_le m) db.
Lemma load_quota_run t w :
  sql_error (step w) = None ->
  load_tenant_monthly_alert_quota t w = (stepped id w, Ret (mjoin (monthly_quotas (tables w) !! t))).
Proof.
  intros Hs. unfold load_tenant_monthly_alert_quota.
  by erewrite st_bind_run by (by apply (healthy_execute _ w (tables w) (monthly_quotas (tables w) !! t))).
Qed.
Lemma count_month_run t w :
  sql_error (step w) = None ->
  count_usage_current_month t "alert_fired" w =
    (stepped id w, Ret (fired_total t (month_start (clock (step w))) (tables w))).
Proof.
  intros Hs. unfold count_usage_current_month, or_sql_error.
  by erewrite st_bind_run by (by apply (healthy_execute _ w (tables w)
    (fired_total t (month_start (clock (step w))) (tables w)))).
Qed.
Lemma quota_passed t a w w' limit :
  healthy -> should_enforce_monthly_quota a = true ->
  monthly_quotas (tables w) !! t = Some (Some limit) -> 0 <= limit ->
  quota_exceeded t a w = (w', Ret None) ->
  exists n, fired_total t (month_start (clock n)) (tables w) < limit.
Proof.
  intros Hh He Hq Hl. unfold quota_exceeded. rewrite He. intros Hx.
  apply st_bind_ret_inv in Hx as (w1 & r & Hx & Hr). unfold attempt, check_quota_exceeded in Hx.
  erewrite st_bind_run in Hx by (by apply load_quota_run). rewrite Hq in Hx. cbn [mjoin option_join] in Hx.
  destruct (limit <? 0) eqn:Hneg; [bools; lia|].
  erewrite st_bind_run in Hx by (by apply count_month_run). exists (S (step w)).
  simpl in Hx. destruct (limit <=? fired_total _ _ _) eqn:Hc; [|bools; lia].
  injection Hx as <- <-. done.
Qed.

Lemma length_snoc_ne {A} (l : list A) x : l ++ [x] <> l.
Proof. intros E. apply (f_equal length) in E. rewrite length_app in E. simpl in E. lia. Qed.

(** the tail of a dispatch that is sent, on a healthy database *)
Lemma send_rows cfg t a w w' b :
  healthy -> repository cfg = true -> al_tenant_id a = Some t ->
  send_alert cfg t a w = (w', Ret b) ->
  (exists r, requests w' = requests w ++ [r]) /\
  lifecycle_events (tables w') = lifecycle_events (tables w) ++ [lifecycle_row b] /\
  monthly_quotas (tables w') = monthly_quotas (tables w) /\
  exists n, usage_events (tables w') =
    usage_events (tables w) ++ [usage_row t "alert_fired" b (clock n)].
Proof.
  intros Hh Hr Ht Hrun. pose proof Hrun as Hreq.
  apply (send_spec cfg t a w w' (Ret b) Ht) in Hreq as (Hreq & _). revert Hrun.
  unfold send_alert, count_fired. rewrite Hr. intros Hrun.
  apply st_bind_ret_inv in Hrun as (w1 & b1 & Hg & Hrun).
  apply st_bind_ret_inv in Hrun as (w2 & [] & Hp & Hrun).
  rewrite (st_bind_run _ _ _ _ _ (record_usage_run _ _ _ _ (Hh _))) in Hrun.
  injection Hrun as <- ->. apply (persist_rows cfg b w1 w2 Hh Hr) in Hp as [L2 [U2 Q2]].
  pose proof (gateway_keeps keeps_lifecycle (fun _ _ => eq_refl) cfg a w) as L1.
  pose proof (gateway_keeps keeps_usage (fun _ _ => conj eq_refl eq_refl) cfg a w) as [U1 Q1].
  unfold keeps_lifecycle, tables_rel in L1. rewrite Hg in L1, U1, Q1. simpl in L1, U1, Q1.
  split; [by eexists|]. simpl. rewrite L2, L1, U2, U1, Q2, Q1. split_and!; [done..|].
  by eexists.
Qed.

(** what a dispatch that returned has stored *)
Lemma dispatch_rows cfg t a w w' b :
  healthy -> repository cfg = true ->
  require_tenant_id (al_tenant_id a) ("alert " +:+ al_alert_id a) = Ret t ->
  dispatch_alert cfg a w = (w', Ret b) ->
  monthly_quotas (tables w') = monthly_quotas (tables w) /\
  ((requests w' = requests w /\ exists e b' n, e <> "alert_fired"%string /\
      usage_events (tables w') = usage_events (tables w) ++ [usage_row t e b' (clock n)])
   \/ ((exists r, requests w' = requests w ++ [r]) /\
      lifecycle_events (tables w') = lifecycle_events (tables w) ++ [lifecycle_row b] /\
      (exists n, usage_events (tables w') =
         usage_events (tables w) ++ [usage_row t "alert_fired" b (clock n)]) /\
      (should_enforce_monthly_quota a = true -> forall limit,
         monthly_quotas (tables w) !! t = Some (Some limit) -> 0 <= limit ->
         exists n, fired_total t (month_start (clock n)) (tables w) < limit))).
Proof.
  intros Hh Hr Ht Hrun. pose proof (dispatch_cases_lemma cfg a w w' (Ret b) Hr Hrun) as Hc.
  revert Hrun. unfold dispatch_alert. rewrite Ht, Hr. cbn [negb].
  rewrite (st_bind_run _ _ w w t) by done. intros Hrun.
  apply st_bind_ret_inv in Hrun as (w1 & dup & Hd & Hrun).
  pose proof (duplicate_keeps keeps_usage cfg (set_tenant t a) w) as [U1 Q1].
  pose proof (duplicate_keeps keeps_lifecycle cfg (set_tenant t a) w) as L1.
  pose proof (find_duplicate_silent cfg (set_tenant t a) w) as (R1 & _).
  unfold keeps_lifecycle, tables_rel in L1. rewrite Hd in U1, Q1, L1, R1. simpl in U1, Q1, L1, R1.
  destruct dup as [prev|].
  { rewrite (st_bind_run _ _ _ _ _ (record_usage_run _ _ _ _ (Hh _))) in Hrun.
    injection Hrun as <- <-. simpl. split; [done|]. left. split; [done|].
    rewrite U1. exists "alert_suppressed_duplicate"%string. by do 2 eexists. }
  unfold escalate_and_send in Hrun. apply st_bind_ret_inv in Hrun as (w2 & a1 & He & Hrun).
  pose proof (escalate_keeps keeps_usage t (set_tenant t a) w1) as [U2 Q2].
  pose proof (escalate_keeps keeps_lifecycle t (set_tenant t a) w1) as L2.
  pose proof (escalate_silent t (set_tenant t a) w1) as (R2 & _).
  unfold keeps_lifecycle, tables_rel in L2. rewrite He in U2, Q2, L2, R2. simpl in U2, Q2, L2, R2.
  assert (Ha1 : al_tenant_id a1 = Some t /\
                should_enforce_monthly_quota a1 = should_enforce_monthly_quota a).
  { destruct (escalate_cases t (set_tenant t a) w1) as (w2' & [Hx|[Hx|Hx]]);
      rewrite Hx in He; by simplify_eq. }
  destruct Ha1 as [Ha1 Hen].
  apply st_bind_ret_inv in Hrun as (w3 & exceeded & Hq & Hrun).
  pose proof (quota_keeps keeps_usage t a1 w2) as [U3 Q3].
  pose proof (quota_keeps keeps_lifecycle t a1 w2) as L3.
  pose proof (quota_silent t a1 w2) as (R3 & _).
  unfold keeps_lifecycle, tables_rel in L3. rewrite Hq in U3, Q3, L3, R3. simpl in U3, Q3, L3, R3.
  destruct exceeded as [[limit consumed]|].
  - unfold suppress_alert in Hrun. rewrite (st_bind_run _ _ _ _ _ (utc_now_run w3)) in Hrun.
    apply st_bind_ret_inv in Hrun as (w4 & [] & Hp & Hrun).
    rewrite (st_bind_run _ _ _ _ _ (record_usage_run _ _ _ _ (Hh _))) in Hrun.
    injection Hrun as <- <-. pose proof (persist_rows _ _ _ _ Hh Hr Hp) as [_ [U4 Q4]].
    apply persist_and_publish_spec in Hp as (R4 & _).
    unfold ticked in *. simpl in *. split; [congruence|]. left. split; [congruence|].
    rewrite U4, U3, U2, U1. exists "alert_suppressed_quota"%string. by do 2 eexists.
  - apply (send_rows cfg t a1 w3 w' b Hh Hr Ha1) in Hrun as ([r Rr] & L4 & Q4 & n & U4).
    split; [congruence|]. right. split_and!; [exists r; congruence|congruence|exists n; congruence|].
    intros Henf limit Hlim Hpos.
    destruct (quota_passed t a1 w2 w3 limit) as [n' Hn']; [done|congruence|congruence|done|done|].
    exists n'. unfold fired_total, usage_total in *. by rewrite U2, U1 in Hn'.
Qed.

Lemma dispatch_err_keeps cfg a w w' e :
  repository cfg = true -> dispatch_alert cfg a w = (w', Err e) ->
  requests w' = requests w /\ keeps_usage (tables w) (tables w').
Proof.
  intros Hr Hrun. pose proof (dispatch_cases_lemma cfg a w w' (Err e) Hr Hrun) as Hc.
  assert (Hreq : requests w' = requests w) by (inversion Hc as [? (E & _)| | | |]; exact E).
  split; [done|]. revert Hrun. unfold dispatch_alert. rewrite Hr. cbn [negb].
  destruct (require_tenant_id _ _) as [t|e'|]; [|by intros [= <- _]|done].
  rewrite (st_bind_run _ _ w w t) by done. unfold mbind at 1, st_bind at 1.
  pose proof (duplicate_keeps keeps_usage cfg (set_tenant t a) w) as Hk.
  destruct (find_dispatch_duplicate cfg (set_tenant t a) w) as [w1 [dup|e'|]];
    [|by intros [= <- _]|done]. intros Hrun. exfalso. revert Hrun.
  destruct dup as [prev|].
  - intros Hrun. pose proof (record_usage_never_err t "alert_suppressed_duplicate" (set_tenant t a)) as Hn.
    apply (never_err_bind _ (fun _ => mret prev)) in Hn; [|done]. specialize (Hn w1 e).
    by rewrite Hrun in Hn.
  - intros Hrun. pose proof (escalate_and_send_never_err cfg t (set_tenant t a) w1 e) as Hn.
    by rewrite Hrun in Hn.
Qed.

(** ** The monthly quota *)

Lemma fired_total_snoc t m db db' row :
  usage_events db' = usage_events db ++ [row] ->
  fired_total t m db' = fired_total t m db +
    (if bool_decide (ue_tenant_id row = t) && bool_decide (ue_event_type row = "alert_fired"%string)
        && dt_le m (ue_recorded_at row) then ue_quantity row else 0).
Proof.
  intros Hu. unfold fired_total, usage_total. rewrite Hu, filter_app, foldr_app. simpl.
  assert (Hf : forall l z, foldr (fun r n => ue_quantity r + n) z l =
             foldr (fun r n => ue_quantity r + n) 0 l + z).
  { induction l as [|r l IH]; intros z; simpl; [lia|]. rewrite IH. lia. }
  rewrite Hf. f_equal. rewrite filter_cons. case_decide as Hd; simpl.
  - destruct Hd as (-> & -> & ->). rewrite !bool_decide_eq_true_2 by done. simpl. lia.
  - repeat case_bool_decide; simpl; try done. destruct (dt_le m _) eqn:?; [|done].
    by destruct Hd.
Qed.

(** all clock readings of the run fall in the month that began at [m] *)
Definition within_month (m : DateTime) : Prop :=
  forall n, month_start (clock n) = m /\ dt_le m (clock n) = true.
(** dispatching a list of alerts, up to a panic, counting the gateway calls
    made for alerts of the tenant that are subject to the quota *)
Fixpoint quota_calls (cfg : Config) (t : string) (alerts_ : list AlertEvent) (w : World) : nat :=
  match alerts_ with
  | [] => 0
  | a :: rest =>
      let '(w', o) := dispatch_alert cfg a w in
      let calls := if bool_decide (trimmed_nonempty (al_tenant_id a) = Some t)
                      && should_enforce_monthly_quota a
                   then (length (requests w') - length (requests w))%nat else 0%nat in
      match o with Panic => 0 | _ => calls + quota_calls cfg t rest w' end
  end%nat.

Lemma require_tenant_trimmed o c t :
  require_tenant_id o c = Ret t <-> trimmed_nonempty o = Some t.
Proof. unfold require_tenant_id, of_option. destruct (trimmed_nonempty o); naive_solver. Qed.
Lemma fired_total_kept t m db db' :
  usage_events db' = usage_events db -> fired_total t m db' = fired_total t m db.
Proof. unfold fired_total, usage_total. by intros ->. Qed.

Lemma quota_step cfg t m limit a w w' o :
  healthy -> within_month m -> repository cfg = true -> dispatch_alert cfg a w = (w', o) ->
  monthly_quotas (tables w) !! t = Some (Some limit) -> 0 <= limit -> o <> Panic ->
  let counted := bool_decide (trimmed_nonempty (al_tenant_id a) = Some t)
                 && should_enforce_monthly_quota a in
  monthly_quotas (tables w') !! t = Some (Some limit) /\
  fired_total t m (tables w) <= fired_total t m (tables w') /\
  (requests w' = requests w \/
   (exists r, requests w' = requests w ++ [r]) /\
   (counted = true -> fired_total t m (tables w) < limit /\
      fired_total t m (tables w) + 1 <= fired_total t m (tables w'))).
Proof.
  intros Hh Hm Hr Hrun Hq Hl Hp counted. destruct o as [b|e|]; [| |done].
  2: { apply dispatch_err_keeps in Hrun as (R & U & Q); [|done]. rewrite Q.
       split; [done|]. rewrite (fired_total_kept t m _ _ U). split; [lia|by left]. }
  destruct (require_tenant_id (al_tenant_id a) ("alert " +:+ al_alert_id a)) as [t'|e|] eqn:Ht.
  2,3: unfold dispatch_alert in Hrun; rewrite Ht in Hrun; discriminate Hrun.
  destruct (dispatch_rows cfg t' a w w' b Hh Hr Ht Hrun) as (Q & Hcase). rewrite Q. split; [done|].
  destruct Hcase as [(R & e & b' & n & He & U)|((r & R) & _ & (n & U) & Hlim)];
    rewrite (fired_total_snoc t m _ _ _ U); simpl.
  - rewrite (bool_decide_eq_false_2 (e = _)) by done. rewrite andb_false_r. simpl. split; [lia|by left].
  - try rewrite (bool_decide_eq_true_2 ("alert_fired"%string = _)) by done.
    destruct (Hm n) as [_ ->]. rewrite !andb_true_r. split; [case_bool_decide; lia|]. right.
    split; [by eexists|]. intros Hc. unfold counted in Hc. bools.
    apply require_tenant_trimmed in Ht. assert (t' = t) as -> by congruence.
    rewrite bool_decide_eq_true_2 by done.
    match goal with Hen : should_enforce_monthly_quota a = true |- _ =>
      destruct (Hlim Hen limit Hq Hl) as [n' Hn'] end.
    rewrite (proj1 (Hm n')) in Hn'. split; lia.
Qed.

(** C9: on a database that answers, over any sequence of dispatches within a
    month the gateway is called for non-critical provisional or confirmed
    alerts of a tenant at most as often as its monthly quota still allows,
    whatever other alerts (critical ones, other tenants) are dispatched between. *)
Theorem monthly_quota_holds cfg t m limit alerts_ w :
  healthy -> within_month m -> repository cfg = true ->
  monthly_quotas (tables w) !! t = Some (Some limit) -> 0 <= limit ->
  Z.of_nat (quota_calls cfg t alerts_ w) <= Z.max 0 (limit - fired_total t m (tables w)).
Proof.
  intros Hh Hm Hr. revert w. induction alerts_ as [|a rest IH]; intros w Hq Hl; simpl; [lia|].
  destruct (dispatch_alert cfg a w) as [w' o] eqn:Hrun.
  assert (Ho : o = Panic \/ o <> Panic) by (destruct o; auto). destruct Ho as [->|Ho]; [lia|].
  destruct (quota_step cfg t m limit a w w' o Hh Hm Hr Hrun Hq Hl Ho) as (Q & Hmono & Hcase).
  specialize (IH w' Q Hl). set (counted := _ && _) in *.
  enough (Hc : Z.of_nat (if counted then length (requests w') - length (requests w) else 0)%nat +
               Z.of_nat (quota_calls cfg t rest w') <= Z.max 0 (limit - fired_total t m (tables w)))
    by (destruct o; [lia|lia|done]).
  destruct counted; [|lia]. destruct Hcase as [R|((r & R) & Hlim)]; rewrite R; [lia|].
  rewrite length_app. simpl. destruct Hlim; [done|]. lia.
Qed.

(** ** Duplicate suppression *)

(** what the codec reads back; an alert without a finite score is not *)
Definition storable (a : AlertEvent) : Prop :=
  uuid_text (al_alert_id a) = true /\ is_finite (al_risk_score a) = true /\
  is_finite (al_confidence a) = true /\
  map_Forall (fun _ x => is_finite x = true) (al_confidence_breakdown a) /\
  Forall (fun x => is_finite (contribution x) = true) (al_attribution a).
Lemma latest_after (b : AlertEvent) k db db' l :
  al_event_key b = Some k -> lifecycle_events db' = lifecycle_events db ++ lifecycle_row b :: l ->
  Forall (fun r => lr_event_key r <> Some k) l -> latest_payload k db' = Some (alert_to_value b).
Proof.
  intros Hk Hl Hf. unfold latest_payload. rewrite Hl, filter_app, filter_cons_True by done.
  assert (filter (fun r => lr_event_key r = Some k) l = []) as ->.
  { clear Hl. induction Hf as [|r l Hr Hf IH]; [done|]. by rewrite filter_cons_False by done. }
  by rewrite last_snoc.
Qed.
Lemma same_subject_header a b b' :
  al_alert_id b' = al_alert_id b -> al_event_key b' = al_event_key b ->
  al_tenant_id b' = al_tenant_id b -> al_pattern_id b' = al_pattern_id b ->
  al_severity b' = al_severity b -> al_lifecycle_state b' = al_lifecycle_state b ->
  al_simulation_run_id b' = al_simulation_run_id b ->
  same_alert_subject a b' = same_alert_subject a b.
Proof. unfold same_alert_subject. by intros -> -> -> -> -> -> ->. Qed.
Lemma find_duplicate_run cfg a k b b' window w :
  healthy -> duplicate_suppression_window (duplicate_suppression_seconds cfg) = Ret (Some window) ->
  al_event_key a = Some k -> latest_payload k (tables w) = Some (alert_to_value b) ->
  alert_from_value (alert_to_value b) = Ret b' -> same_alert_subject a b' = true ->
  ns (clock (S (step w))) <= ns (al_created_at b') + window ->
  exists w', find_dispatch_duplicate cfg a w = (w', Ret (Some b')).
Proof.
  intros Hh Hw Hk Hl Hb' Hs Hc. unfold find_dispatch_duplicate. rewrite Hk.
  rewrite (st_bind_run _ _ w w (Some window)) by (unfold lift; by rewrite Hw).
  unfold find_latest_alert_by_event_key.
  rewrite (st_bind_run _ _ w (stepped id w) (Some b')).
  2: { rewrite (st_bind_run _ _ _ _ _ (healthy_query _ _ (Hh _))). rewrite Hl.
       by rewrite (st_bind_run _ _ (stepped id w) (stepped id w) b') by (unfold lift; by rewrite Hb'). }
  unfold should_suppress_duplicate_alert. rewrite Hs.
  rewrite (st_bind_run _ _ (stepped id w) (ticked (stepped id w)) true); [by eexists|].
  rewrite (st_bind_run _ _ _ _ _ (utc_now_run _)). unfold mret, st_ret. do 2 f_equal.
  apply orb_true_iff. right. simpl. lia.
Qed.

(** another alert about the same thing: a different id, and the same event key,
    tenant, pattern, severity, lifecycle state and simulation run *)
Definition repeats (tenant : string) (a2 b : AlertEvent) : Prop :=
  al_alert_id a2 <> al_alert_id b /\
  (exists k, al_event_key a2 = Some k /\ al_event_key b = Some k) /\
  trimmed_nonempty (al_tenant_id a2) = Some tenant /\ al_tenant_id b = Some tenant /\
  al_pattern_id a2 = al_pattern_id b /\ al_severity a2 = al_severity b /\
  al_lifecycle_state a2 = al_lifecycle_state b /\
  al_simulation_run_id a2 = al_simulation_run_id b.
Lemma repeats_same_subject t a2 b : repeats t a2 b -> same_alert_subject (set_tenant t a2) b = true.
Proof.
  intros (Hid & (k & Hk & Hk') & _ & Ht & Hp & Hs & Hl & Hr). unfold same_alert_subject.
  cbn [al_alert_id al_event_key al_tenant_id al_pattern_id al_severity al_lifecycle_state
    al_simulation_run_id set_tenant alert_with].
  rewrite Hk, Hk', Ht, Hp, Hs, Hl, Hr. by rewrite bool_decide_eq_false_2, !bool_decide_eq_true_2.
Qed.

(** C19: on a database that answers, let a dispatch send an alert whose numbers
    are finite and whose id is a UUID, and let nothing be stored under its event
    key since.  An alert with another id and the same event key, tenant (as
    trimmed), pattern, severity, lifecycle state and simulation run that is
    dispatched within the suppression window is answered with the earlier alert
    and reaches neither the gateway nor the streams. *)
Theorem sent_alert_not_repeated cfg a a2 t2 w w1 w2 b window l :
  healthy -> repository cfg = true ->
  duplicate_suppression_window (duplicate_suppression_seconds cfg) = Ret (Some window) ->
  dispatch_alert cfg a w = (w1, Ret b) -> requests w1 <> requests w -> storable b ->
  lifecycle_events (tables w2) = lifecycle_events (tables w1) ++ l ->
  Forall (fun r => lr_event_key r <> al_event_key b) l ->
  repeats t2 a2 b -> ns (clock (S (step w2))) <= ns (al_created_at b) + window ->
  exists w3 b', dispatch_alert cfg a2 w2 = (w3, Ret b') /\ silent w2 w3 /\
    al_alert_id b' = al_alert_id b.
Proof.
  intros Hh Hr Hwin Hrun Hsent (S1 & S2 & S3 & S4 & S5) Hl Hf Hrep Hc.
  pose proof (repeats_same_subject _ _ _ Hrep) as Hsub. destruct Hrep as (_ & Hkeys & Ht2 & _).
  destruct (require_tenant_id (al_tenant_id a) ("alert " +:+ al_alert_id a)) as [t|e|] eqn:Ht.
  2,3: unfold dispatch_alert in Hrun; rewrite Ht in Hrun; discriminate Hrun.
  destruct (dispatch_rows cfg t a w w1 b Hh Hr Ht Hrun) as (_ & [(R & _)|(_ & L & _)]); [done|].
  destruct (alert_read_back b S1 S2 S3 S4 S5) as (b' & Hb' & E1 & E2 & E3 & E4 & E5 & E6 & E7 & E8).
  destruct Hkeys as (k & Hk & Hbk).
  assert (Hlatest : latest_payload k (tables w2) = Some (alert_to_value b)).
  { apply (latest_after b k (tables w) _ l); [done| |by rewrite <- Hbk].
    by rewrite Hl, L, <- app_assoc. }
  assert (Hs' : same_alert_subject (set_tenant t2 a2) b' = true)
    by (by rewrite (same_subject_header _ b)).
  destruct (find_duplicate_run cfg (set_tenant t2 a2) k b b' window w2) as [w3 Hd]; try done.
  { by rewrite E8. }
  pose proof (find_duplicate_silent cfg (set_tenant t2 a2) w2) as Hq. rewrite Hd in Hq.
  eexists _, b'. split; [|split; [|done]].
  - unfold dispatch_alert. rewrite Hr. cbn [negb].
    rewrite (st_bind_run _ _ w2 w2 t2) by (unfold lift; by rewrite (proj2 (require_tenant_trimmed _ _ _) Ht2)).
    rewrite (st_bind_run _ _ _ _ _ Hd). by rewrite (st_bind_run _ _ _ _ _ (record_usage_run _ _ _ _ (Hh _))).
  - destruct Hq as (Q1 & Q2 & Q3). by split_and!.
Qed.

(** C4: every dispatch with a database is refused without any effect outside,
    suppressed as a duplicate or over quota without a gateway call, or sent
    with exactly one gateway call, to the routes of the alert or to all
    channels; what it publishes is the alert it returns. *)
Theorem dispatch_cases cfg a w w' o :
  repository cfg = true -> dispatch_alert cfg a w = (w', o) -> dispatched cfg a w w' o.
Proof. apply dispatch_cases_lemma. Qed.
End frames2.

(** ** Frames of the operations *)

Section frame.
Context `{Chrono} `{SerdeJson} `{HashOrder} `{!AlertCodec} `{!Env} `{!TraceCodec} `{!DetectionCodec}.

Class IoFrame (R : World -> World -> Prop) := {
  io_preorder :: PreOrder R;
  io_execute : forall A (f : DateTime -> AlertTables -> AlertTables * outcome A),
    (forall now t, incidents (f now t).1 = incidents t) -> within R (execute f);
  io_tick : within R tick;
  io_post : forall url b, within R (post url b);
  io_publish : forall stream a, within R (publish_struct stream a)
}.
Context (R : World -> World -> Prop) `{!IoFrame R}.

Ltac io_atom :=
  first [ apply io_execute; intros; solve [reflexivity]
        | apply io_tick | apply io_post | apply io_publish ].
Lemma write_within f :
  (forall t, incidents (f t) = incidents t) -> within R (run_write f).
Proof.
  intros Hf. unfold run_write, or_sql_error.
  peel ltac:(apply io_execute; intros; apply Hf).
Qed.
Lemma query_within {A} (f : AlertTables -> A) : within R (run_query f).
Proof. unfold run_query, or_sql_error. peel ltac:(io_atom). Qed.
Ltac statement_atom :=
  first [ apply query_within | apply write_within; intros; solve [reflexivity]
        | io_atom ].
Ltac statements := peel ltac:(statement_atom).
Lemma persist_within cfg a : within R (persist_and_publish_alert cfg a).
Proof.
  unfold persist_and_publish_alert, save_alert, save_alert_lifecycle, persist_alert_evidence_snapshot,
    load_operational_events_for_alert_evidence, simulation_rows,
    load_simulation_events_for_alert_evidence, save_alert_evidence_snapshot_batch,
    publish_alert, publish_alert_lifecycle. statements.
Qed.
Lemma usage_within t e a : within R (record_usage t e a).
Proof. unfold record_usage, record_usage_event, or_sql_error. statements. Qed.
Lemma dispatch_within cfg a : within R (dispatch_alert cfg a).
Proof.
  unfold dispatch_alert, escalate_and_send, suppress_alert, send_alert, count_fired,
    dispatch_to_gateway, client_dispatch_alert, save_delivery_attempts, save_alert_delivery_attempt,
    find_dispatch_duplicate, should_suppress_duplicate_alert, find_latest_alert_by_event_key,
    escalate_routes, should_escalate_to_all_channels, load_tenant_hourly_alert_limit,
    count_usage_past_hour, quota_exceeded, check_quota_exceeded, load_tenant_monthly_alert_quota,
    count_usage_current_month, utc_now, or_sql_error.
  peel ltac:(first [apply persist_within | apply usage_within | statement_atom]).
Qed.
Lemma exposures_within id t exs :
  within R (save_incident_entity_exposures id t exs).
Proof.
  induction exs as [|ex exs IH]; simpl; [apply within_ret; apply _|].
  apply within_bind; [apply _|io_atom|]. intros [[]|]; [apply within_ret; apply _|done..].
Qed.
Lemma blast_within a d t id : within R (attach_blast_radius a d t id).
Proof.
  unfold attach_blast_radius, find_monitored_entities_for_alert.
  peel ltac:(first [apply exposures_within | statement_atom]).
Qed.
Lemma event_within row : within R (append_incident_event row).
Proof.
  unfold append_incident_event, or_sql_error.
  peel ltac:(apply io_execute; intros ? t'; unfold insert_incident_event, referencing;
             by destruct (incidents t' !! _)).
Qed.
Lemma snapshot_within row : within R (append_incident_context_snapshot row).
Proof.
  unfold append_incident_context_snapshot, or_sql_error.
  peel ltac:(apply io_execute; intros ? t'; unfold insert_context_snapshot, referencing;
             by destruct (incidents t' !! _)).
Qed.
Lemma from_detection_within d : within R (alert_from_detection d).
Proof. unfold alert_from_detection, new_uuid, utc_now. statements. Qed.
Lemma remember_within cfg ttl cache k a :
  within R (remember_alert cfg ttl cache k a).
Proof. unfold remember_alert, utc_now. statements. Qed.
End frame.

(** ** The evidence of an alert *)

Section evidence.
Context `{Chrono} `{SerdeJson} `{HashOrder} `{!AlertCodec} `{!Env} `{!TraceCodec} `{!DetectionCodec}.

(** a record marked as an input of the decision *)
Definition decision_input (r : AlertEvidenceSnapshotRecord) : Prop :=
  exists fields c, es_normalized_fields r = annotate_evidence_fields fields (Some c) true.
(** a record that shows the quote of a contributor *)
Definition shows (c : EvidenceContributorTrace) (r : AlertEvidenceSnapshotRecord) : Prop :=
  decision_input r /\
  es_source_id r +:+ ":" +:+ to_rfc3339 (es_observed_at r) = contributor_key c.

Lemma matching_contributor_Some r cs c :
  matching_contributor r cs = Some c -> c ∈ cs /\ same_operational_event r c = true.
Proof.
  unfold matching_contributor. intros Hm. apply head_Some_elem_of in Hm.
  by apply list_elem_of_filter in Hm as [? ?].
Qed.
Lemma records_show_contributors a t market cs rows sims c :
  c ∈ cs -> exists r, r ∈ evidence_records a t market cs rows sims /\ shows c r.
Proof.
  intros Hc. unfold evidence_records.
  destruct (decide (contributor_key c ∈ matched_sources cs rows)) as [Hm|Hm].
  - unfold matched_sources in Hm. apply list_elem_of_omap in Hm as (r & Hr & Hk).
    destruct (matching_contributor r cs) as [c'|] eqn:Hc'; [|done]. simpl in Hk. injection Hk as Hk.
    exists (operational_record a t market cs r). split.
    + apply elem_of_app. left. apply list_elem_of_fmap. by exists r.
    + apply matching_contributor_Some in Hc' as Hs. destruct Hs as [_ Hs].
      unfold same_operational_event in Hs. bools. split.
      * exists (row_fields r), c'. unfold operational_record. cbn [es_normalized_fields].
        by rewrite Hc'.
      * cbn [operational_record es_source_id es_observed_at]. rewrite <- Hk. unfold contributor_key.
        congruence.
  - exists (synthetic_evidence_record a t market c). split.
    + apply elem_of_app. right. apply elem_of_app. right. apply list_elem_of_fmap. exists c.
      split; [done|]. by apply list_elem_of_filter.
    + split; [by exists (VObj []), c|done].
Qed.
Lemma records_belong a t market cs rows sims r :
  r ∈ evidence_records a t market cs rows sims -> es_tenant_id r = t /\ es_alert_id r = al_alert_id a.
Proof.
  unfold evidence_records. rewrite !elem_of_app, !list_elem_of_fmap.
  intros [(x & -> & _)|[([s x] & -> & _)|(x & -> & _)]]; done.
Qed.

(** ** Writing the snapshot *)

Lemma insert_all_run rs w w' o :
  healthy -> iterate (fun r => run_write (insert_evidence r)) rs w = (w', o) ->
  evidence_snapshots (tables w') = evidence_snapshots (tables w) ++ rs.
Proof.
  intros Hh. unfold iterate. generalize (). revert w.
  induction rs as [|r rs IH]; intros w u; simpl; [intros [= <- _]; by rewrite app_nil_r|].
  rewrite (st_bind_run _ _ w (stepped (insert_evidence r) w) ()) by (apply healthy_write, Hh).
  intros Hrun. apply IH in Hrun. rewrite Hrun. cbn. by rewrite <- app_assoc.
Qed.
Lemma batch_run r rs w w' o :
  healthy -> save_alert_evidence_snapshot_batch (r :: rs) w = (w', o) ->
  evidence_snapshots (tables w') =
    filter (fun x => ~ (es_tenant_id x = es_tenant_id r /\ es_alert_id x = es_alert_id r))
      (evidence_snapshots (tables w)) ++ r :: rs.
Proof.
  intros Hh. unfold save_alert_evidence_snapshot_batch.
  rewrite (st_bind_run _ _ _ _ _ (healthy_write _ _ (Hh _))). intros Hrun.
  by apply insert_all_run in Hrun.
Qed.
Definition keeps_evidence (t t' : AlertTables) : Prop := evidence_snapshots t' = evidence_snapshots t.
#[export] Instance keeps_evidence_preorder : PreOrder keeps_evidence.
Proof. split; [by intros t|]. unfold keeps_evidence. intros ???; congruence. Qed.
Lemma lookups_keep_evidence a t market window ids :
  within (tables_rel keeps_evidence)
    (rows ← load_operational_events_for_alert_evidence t market ids window.1 window.2
              (al_is_simulated a) (al_simulation_run_id a);
     sims ← simulation_rows a ids window; mret (rows, sims)).
Proof.
  unfold load_operational_events_for_alert_evidence, simulation_rows,
    load_simulation_events_for_alert_evidence.
  peel ltac:(first [apply query_keeps; apply _ | apply execute_tables; [apply _|intros; solve [reflexivity]]]).
Qed.

(** Storing the evidence of an alert with contributors leaves, for every
    contributor, a record marked as decision input with its source and time, and
    replaces the earlier evidence of this alert only. *)
Theorem evidence_covers_contributors a t w w' :
  healthy -> trimmed_nonempty (al_tenant_id a) = Some t -> contributing_sources_from_alert a <> [] ->
  persist_alert_evidence_snapshot a w = (w', Ret ()) ->
  (forall c, c ∈ contributing_sources_from_alert a -> exists r, r ∈ evidence_snapshots (tables w') /\
     es_tenant_id r = t /\ es_alert_id r = al_alert_id a /\ shows c r) /\
  (forall r, ~ (es_tenant_id r = t /\ es_alert_id r = al_alert_id a) ->
     r ∈ evidence_snapshots (tables w') <-> r ∈ evidence_snapshots (tables w)).
Proof.
  intros Hh Ht Hne. unfold persist_alert_evidence_snapshot.
  set (cs := contributing_sources_from_alert a) in *.
  set (market := extract_market_key _ _). set (ids := tr_source_id <$> cs).
  destruct cs as [|c0 cs'] eqn:Hcs; [done|]. clear Hne.
  rewrite (st_bind_run _ _ w w t)
    by (unfold lift; by rewrite (proj2 (require_tenant_trimmed _ _ _) Ht)).
  intros Hrun. apply st_bind_ret_inv in Hrun as (w1 & window & Hw & Hrun).
  assert (w1 = w) as -> by (unfold lift in Hw; by injection Hw).
  apply st_bind_ret_inv in Hrun as (w1 & rows & Hrows & Hrun).
  apply st_bind_ret_inv in Hrun as (w2 & sims & Hsims & Hrun).
  pose proof (lookups_keep_evidence a t market window ids w) as Hk.
  rewrite (st_bind_run _ _ _ _ _ Hrows), (st_bind_run _ _ _ _ _ Hsims) in Hk. cbn [fst mret st_ret] in Hk.
  unfold tables_rel, keeps_evidence in Hk.
  set (rs := evidence_records _ _ _ _ _ _) in Hrun.
  assert (Hbelong : forall r, r ∈ rs -> es_tenant_id r = t /\ es_alert_id r = al_alert_id a)
    by (intros r; apply records_belong).
  assert (Hshow : forall c, c ∈ c0 :: cs' -> exists r, r ∈ rs /\ shows c r)
    by (intros c; apply records_show_contributors).
  destruct rs as [|r0 rs'] eqn:Hrs.
  { destruct (Hshow c0) as (r & Hr & _); [apply elem_of_cons; by left|]. by apply not_elem_of_nil in Hr. }
  apply batch_run in Hrun; [|done]. destruct (Hbelong r0) as [E1 E2]; [apply elem_of_cons; by left|].
  rewrite E1, E2, Hk in Hrun. split.
  - intros c Hc. destruct (Hshow c Hc) as (r & Hr & Hs). exists r.
    destruct (Hbelong r Hr). rewrite Hrun, elem_of_app. auto.
  - intros r Hno. rewrite Hrun, elem_of_app, list_elem_of_filter. split.
    + intros [[_ ?]|Hr]; [done|]. by destruct (Hno (Hbelong r Hr)).
    + intros Hr. by left.
Qed.
End evidence.
