(* ===== verification/IncidentProofs.v ===== *)
(** * Incidents of the orchestrator

    Over live detections at most one incident is active per subject, whatever
    statements fail; what a finality update does to the incident of its alert. *)
From S2P Require Import Prelude F64 Text Numbers Ports EventSchema AlertStore Notifier AlertIO AlertEvidence CachePrune Orchestrator OrchestratorProofs.

Section incidents.
Context `{Chrono} `{SerdeJson} `{HashOrder} `{!AlertCodec} `{!Env} `{!TraceCodec} `{!DetectionCodec}.

(** ** Frames *)

(** time goes on and the incidents are as they were *)
Definition keeps_incidents (w w' : World) : Prop :=
  (step w <= step w')%nat /\ incidents (tables w') = incidents (tables w).
#[global] Instance keeps_incidents_preorder : PreOrder keeps_incidents.
Proof.
  split; [by intros w|]. intros ??? [S1 E1] [S2 E2]. split; [lia|congruence].
Qed.
Lemma execute_keeps_incidents {A} (f : DateTime -> AlertTables -> AlertTables * outcome A) :
  (forall now t, incidents (f now t).1 = incidents t) -> within keeps_incidents (execute f).
Proof.
  intros Hf w. unfold execute, mbind, st_bind, tick, get_st, mret, st_ret, set_tables, lift.
  destruct (sql_error (step w)); [split; [simpl; lia|done]|]. simpl.
  specialize (Hf (clock (step w)) (tables w)). destruct (f _ _) as [t' []]; split; simpl in *;
    first [lia|done].
Qed.
Lemma tick_keeps_incidents : within keeps_incidents tick.
Proof. intros w. split; [simpl; lia|done]. Qed.
Lemma post_keeps_incidents url b : within keeps_incidents (post url b).
Proof. intros w. split; [simpl; lia|done]. Qed.
Lemma redis_keeps_incidents f :
  (forall w, tables (f w) = tables w /\ step (f w) = step w) -> within keeps_incidents (redis f).
Proof.
  intros Hf w. unfold redis, mbind, st_bind, tick, lift.
  destruct (redis_error _); simpl; [split; [simpl; lia|done]|].
  destruct (Hf (tick w).1) as [E1 E2]. simpl in E1, E2. split; [|by rewrite E1].
  rewrite E2. lia.
Qed.
#[export] Instance incidents_frame : IoFrame keeps_incidents.
Proof.
  split; [apply _|apply @execute_keeps_incidents|apply tick_keeps_incidents|
          apply post_keeps_incidents|].
  intros. apply redis_keeps_incidents. intros. by split.
Qed.
Lemma ack_keeps_incidents cfg stream id : within keeps_incidents (ack_entry cfg (ack stream) id).
Proof.
  unfold ack_entry, ack. peel ltac:(apply redis_keeps_incidents; intros; by split).
Qed.

(** ** One active incident per subject *)

Definition record_key (r : IncidentRecord) : IncidentKey :=
  {| ik_tenant_id := ir_tenant_id r; ik_pattern_id := ir_pattern_id r;
     ik_subject_type := ir_subject_type r; ik_subject_key := ir_subject_key r;
     ik_chain_slug := ir_chain_slug r |}.
Definition row_open (row : IncidentRow) : bool := is_open (in_record row).
Definition same_subject (a b : IncidentRow) : bool := key_matches (record_key (in_record a)) (in_record b).
Definition active_unique (m : gmap string IncidentRow) : Prop :=
  forall i j a b, m !! i = Some a -> m !! j = Some b -> row_open a = true -> row_open b = true ->
    same_subject a b = true -> i = j.
Definition keyed (m : gmap string IncidentRow) : Prop :=
  forall i a, m !! i = Some a -> ir_incident_id (in_record a) = i.
(** ids that will be drawn are not in use *)
Definition fresh_from (n : nat) (m : gmap string IncidentRow) : Prop :=
  forall k, (n <= k)%nat -> m !! new_v4 k = None.
Definition incidents_ok (w : World) : Prop :=
  keyed (incidents (tables w)) /\ active_unique (incidents (tables w)) /\
  fresh_from (step w) (incidents (tables w)).

Lemma same_subject_sym a b : same_subject a b = same_subject b a.
Proof.
  unfold same_subject, key_matches, record_key. simpl.
  repeat (f_equal; [|apply bool_decide_ext; split; congruence]). apply bool_decide_ext; split; congruence.
Qed.
Lemma incidents_ok_kept w w' : keeps_incidents w w' -> incidents_ok w -> incidents_ok w'.
Proof.
  intros [Hs Hi] (Hk & Hu & Hf). unfold incidents_ok. rewrite Hi. split_and!; [done..|].
  intros k Hle. apply Hf. lia.
Qed.
(** [within] for the invariant *)
Lemma kept_ok {A} (m : IO A) w : within keeps_incidents m -> incidents_ok w -> incidents_ok (m w).1.
Proof. intros Hm. by apply incidents_ok_kept. Qed.

(** an incident may change state when no other active one shares its subject *)
Definition sole_active (m : gmap string IncidentRow) (i : string) : Prop :=
  forall a j b, m !! i = Some a -> m !! j = Some b -> row_open b = true ->
    same_subject a b = true -> j = i.
Lemma alter_ok m i f :
  (forall a, ir_incident_id (in_record (f a)) = ir_incident_id (in_record a)) ->
  (forall a b, same_subject (f a) b = same_subject a b) ->
  keyed m -> active_unique m -> sole_active m i -> keyed (alter f i m) /\ active_unique (alter f i m).
Proof.
  intros Hid Hsub Hk Hu Hs. split.
  - intros j a Hj. rewrite lookup_alter in Hj. case_decide as Hd; [subst|by apply Hk].
    destruct (m !! j) as [a0|] eqn:Ha0; simplify_eq/=. rewrite Hid. by apply Hk.
  - assert (Hone : forall j a b, alter f i m !! i = Some a -> m !! j = Some b -> row_open b = true ->
              same_subject a b = true -> i = j).
    { intros j a b Ha Hb Hob Hab. rewrite lookup_alter in Ha. rewrite decide_True in Ha by done.
      destruct (m !! i) as [a0|] eqn:Ha0; simplify_eq/=. rewrite Hsub in Hab.
      symmetry. by eapply Hs. }
    intros j1 j2 a b Ha Hb Hoa Hob Hab. rewrite lookup_alter in Ha, Hb.
    destruct (decide (i = j1)) as [<-|N1], (decide (i = j2)) as [<-|N2]; [done|..].
    + eapply Hone; [|done..]. rewrite lookup_alter. by rewrite decide_True.
    + symmetry. eapply Hone; [|exact Ha|done|by rewrite same_subject_sym].
      rewrite lookup_alter. by rewrite decide_True.
    + by eapply Hu.
Qed.

Lemma newest_incident_spec keep t :
  match newest_incident keep t with
  | Some r => exists i row, incidents t !! i = Some row /\ in_record row = r /\ keep row = true
  | None => forall i row, incidents t !! i = Some row -> keep row = false
  end.
Proof.
  unfold newest_incident. set (l := filter _ _).
  assert (Hl : forall row, row ∈ sort_by newer_incident l <->
            keep row = true /\ exists i, incidents t !! i = Some row).
  { intros row. rewrite elem_of_sort_by. unfold l. rewrite list_elem_of_filter.
    by rewrite elem_of_hash_values. }
  destruct (sort_by newer_incident l) as [|row rest]; simpl.
  - intros i row Hi. destruct (keep row) eqn:Hk; [|done]. exfalso.
    apply (not_elem_of_nil row). apply Hl. eauto.
  - destruct (proj1 (Hl row)) as (Hk & i & Hi); [apply elem_of_cons; by left|]. eauto.
Qed.
Lemma key_matches_record d t r :
  key_matches (incident_key d t) r = key_matches (record_key (new_incident d t "" "")) r.
Proof. done. Qed.


(** a statement is run or refused *)
Lemma write_cases f w :
  run_write f w = (stepped f w, Ret ()) \/ exists e, run_write f w = (ticked w, Err e).
Proof.
  destruct (sql_error (step w)) as [e|] eqn:Hs; [right|left; by apply healthy_write].
  exists (sql_message e). unfold run_write, or_sql_error, execute, mbind, st_bind, tick. by rewrite Hs.
Qed.
Lemma query_cases {A} (f : AlertTables -> A) w :
  run_query f w = (stepped id w, Ret (f (tables w))) \/ exists e, run_query f w = (ticked w, Err e).
Proof.
  destruct (sql_error (step w)) as [e|] eqn:Hs; [right|left; by apply healthy_query].
  exists (sql_message e). unfold run_query, or_sql_error, execute, mbind, st_bind, tick. by rewrite Hs.
Qed.
Lemma ticked_ok w : incidents_ok w -> incidents_ok (ticked w).
Proof. apply incidents_ok_kept. split; simpl; [lia|done]. Qed.
(** the state update of a detection *)
Lemma update_ok i status sev now closed w :
  incidents_ok w -> sole_active (incidents (tables w)) i ->
  incidents_ok (log_error (update_incident_state i status sev now closed) w).1.
Proof.
  intros Hok Hs. rewrite log_error_run. unfold update_incident_state.
  destruct (write_cases (update_incident i status sev now closed) w) as [->|[e ->]]; cbn [fst];
    [|by apply ticked_ok]. destruct Hok as (Hk & Hu & Hf).
  destruct (alter_ok (incidents (tables w)) i (set_incident_state status sev now closed))
    as [Hk' Hu']; [done..|]. split; [exact Hk'|]. split; [exact Hu'|].
  intros k Hle. change (alter (set_incident_state status sev now closed) i (incidents (tables w))
    !! new_v4 k = None). rewrite lookup_alter. cbn [step stepped] in Hle.
  case_decide as Hd; [rewrite Hd|]; by rewrite (Hf k) by lia.
Qed.
Lemma create_ok r now w :
  incidents_ok w -> incidents (tables w) !! ir_incident_id r = None ->
  (forall k, (step w <= k)%nat -> new_v4 k <> ir_incident_id r) ->
  (forall j b, incidents (tables w) !! j = Some b -> row_open b = true ->
     key_matches (record_key r) (in_record b) = false) ->
  let w' := (log_error (create_incident r now) w).1 in
  incidents_ok w' /\ sole_active (incidents (tables w')) (ir_incident_id r).
Proof.
  intros Hok Hnone Hnew Hno. rewrite log_error_run. unfold create_incident. cbn [fst].
  destruct (write_cases (insert_incident r now) w) as [->|[e ->]]; cbn [fst].
  2: { split; [by apply ticked_ok|]. intros a j b Ha. cbn in Ha. by rewrite Hnone in Ha. }
  destruct Hok as (Hk & Hu & Hf). set (m := incidents (tables (stepped _ w))).
  set (row := {| in_record := r; in_opened_at := now; in_updated_at := now; in_closed_at := None |}).
  assert (Hm : m = <[ir_incident_id r := row]> (incidents (tables w))).
  { unfold m. cbn [tables stepped]. unfold insert_incident. by rewrite Hnone. }
  assert (Hsole : forall j b, m !! j = Some b ->
            row_open b = true -> same_subject row b = true -> j = ir_incident_id r).
  { intros j b Hb Hob Hab. destruct (decide (j = ir_incident_id r)) as [|Hne]; [done|].
    rewrite Hm, lookup_insert_ne in Hb by done. change (key_matches (record_key r) (in_record b) = true) in Hab.
    by rewrite (Hno j b) in Hab. }
  unfold incidents_ok. fold m. split; [split_and!|].
  - intros j a Ha. destruct (decide (j = ir_incident_id r)) as [->|Hne].
    + rewrite Hm, lookup_insert_eq in Ha. by simplify_eq.
    + rewrite Hm, lookup_insert_ne in Ha by done. by apply Hk.
  - intros i j a b Ha Hb Hoa Hob Hab. destruct (decide (i = ir_incident_id r)) as [->|Ni].
    { rewrite Hm, lookup_insert_eq in Ha. simplify_eq. symmetry. by eapply Hsole. }
    destruct (decide (j = ir_incident_id r)) as [->|Nj].
    { pose proof Hb as Hb'. rewrite Hm, lookup_insert_eq in Hb'. simplify_eq.
      eapply Hsole; [exact Ha|done|by rewrite same_subject_sym]. }
    rewrite Hm, lookup_insert_ne in Ha, Hb by done. by eapply Hu.
  - intros k Hle. cbn [step stepped] in Hle. rewrite Hm, lookup_insert_ne; [apply Hf; lia|].
    intros E. eapply (Hnew k); [lia|done].
  - intros a j b Ha. rewrite Hm, lookup_insert_eq in Ha. simplify_eq. intros Hb Hob Hab. by eapply Hsole.
Qed.

(** looking up the incident of a live detection *)
Lemma find_or_create_ok d t status now w w' o :
  (forall i j, new_v4 i = new_v4 j -> i = j) -> simulation_run_id d = None -> incidents_ok w ->
  find_or_create_incident d t status now w = (w', o) ->
  incidents_ok w' /\
  match o with Ret (Some r) => sole_active (incidents (tables w')) (ir_incident_id r) | _ => True end.
Proof.
  intros Hinj Hlive Hok. unfold find_or_create_incident, lookup_incident. rewrite Hlive.
  unfold find_active_incident, attempt, mbind at 1, st_bind at 1.
  destruct (query_cases (select_active_incident (incident_key d t)) w) as [->|[e ->]].
  2: { intros [= <- <-]. by split; [apply ticked_ok|]. }
  pose proof (newest_incident_spec (fun r => key_matches (incident_key d t) (in_record r)
    && is_open (in_record r)) (tables w)) as Hn.
  fold (select_active_incident (incident_key d t) (tables w)) in Hn.
  pose proof (ticked_ok w Hok) as Hok1.
  destruct (select_active_incident (incident_key d t) (tables w)) as [r|].
  - intros [= <- <-]. split; [exact Hok1|]. destruct Hn as (i & row & Hi & <- & Hkeep). bools.
    destruct Hok as (Hk & Hu & _). rewrite (Hk i row Hi). intros a j b Ha Hb Hob Hab.
    cbn in Ha, Hb. assert (a = row) as -> by congruence. symmetry. by eapply Hu.
  - set (w1 := stepped id w) in *. change (stepped id w) with w1 in Hok1.
    rewrite (st_bind_run _ _ w1 (ticked w1) (new_v4 (step w1))) by done.
    set (r := new_incident d t (new_v4 (step w1)) status).
    destruct (create_ok r now (ticked w1)) as [Hok2 Hsole].
    + by apply ticked_ok.
    + destruct Hok as (_ & _ & Hf). apply Hf. simpl. lia.
    + intros k Hle. intros E. apply Hinj in E. simpl in Hle, E. lia.
    + intros j b Hb Hob. cbn in Hb. specialize (Hn j b Hb).
      change (key_matches (record_key r) (in_record b)) with (key_matches (incident_key d t) (in_record b)).
      unfold row_open in Hob. rewrite Hob, andb_true_r in Hn. done.
    + unfold mbind, st_bind. pose proof (log_error_never_err (create_incident r now) (ticked w1)) as Hne.
      destruct (log_error (create_incident r now) (ticked w1)) as [w2 [u|e|]]; cbn [fst] in Hok2, Hsole;
        intros [= <- <-]; by split.
Qed.

Lemma within_run {A} (R : World -> World -> Prop) (m : IO A) w w' o :
  within R m -> m w = (w', o) -> R w w'.
Proof. intros Hm Hrun. specialize (Hm w). by rewrite Hrun in Hm. Qed.
Lemma attach_ok cfg a d w :
  (forall i j, new_v4 i = new_v4 j -> i = j) -> simulation_run_id d = None -> incidents_ok w ->
  incidents_ok (attach_incident_context cfg a d w).1.
Proof.
  intros Hinj Hlive Hok. unfold attach_incident_context. destruct (repository cfg); cbn [negb]; [|done].
  apply st_bind_inv; [done|]. intros t w1 Ht. unfold lift in Ht. injection Ht as <- _.
  apply st_bind_inv; [by apply ticked_ok|]. intros now w2 Hn.
  assert (Hok2 : incidents_ok w2) by (injection Hn as <- _; by apply ticked_ok). clear Hn.
  set (status := incident_status_for_transition _). set (closes := closes_incident _).
  destruct (find_or_create_incident d t status now w2) as [w3 o] eqn:Hfc.
  pose proof (find_or_create_ok d t status now w2 w3 o Hinj Hlive Hok2 Hfc) as [Hok3 Hsole].
  apply st_bind_inv; [by rewrite Hfc|]. intros [r|] w3' Hret; rewrite Hfc in Hret;
    injection Hret as <- ->; [|done].
  apply st_bind_inv; [apply kept_ok; [apply blast_within; apply _|done]|]. intros a1 w4 Hb.
  apply (within_run keeps_incidents) in Hb; [|apply blast_within; apply _].
  assert (Hok4 : incidents_ok w4) by (by eapply incidents_ok_kept).
  assert (Hs4 : sole_active (incidents (tables w4)) (ir_incident_id r))
    by (destruct Hb as [_ E]; by rewrite E).
  apply st_bind_inv; [by apply update_ok|]. intros u1 w5 Hu.
  assert (Hok5 : incidents_ok w5).
  { pose proof (update_ok (ir_incident_id r) status (severity_lower (severity d)) now closes w4 Hok4 Hs4)
      as Hx. by rewrite Hu in Hx. }
  apply (kept_ok (_ ← log_error (append_incident_event _); _ ← log_error _; mret a1)); [|done].
  peel ltac:(first [apply event_within; apply _|apply snapshot_within; apply _]).
Qed.
(** preserving the invariant *)
Definition ok_rel (w w' : World) : Prop := incidents_ok w -> incidents_ok w'.
#[local] Instance ok_rel_preorder : PreOrder ok_rel.
Proof. split; [intros w; exact id|]. unfold ok_rel. intros ???; auto. Qed.
Lemma kept_within_ok {A} (m : IO A) : within keeps_incidents m -> within ok_rel m.
Proof. intros Hm w Hok. by apply kept_ok. Qed.
Lemma handle_detection_ok cfg ttl cache entry :
  (forall i j, new_v4 i = new_v4 j -> i = j) -> simulation_run_id entry.2 = None ->
  within ok_rel (handle_detection cfg ttl cache entry).
Proof.
  intros Hinj Hlive. destruct entry as [id d]. unfold handle_detection, process_detection.
  peel ltac:(first [ solve [intros ? ?; by apply attach_ok]
    | apply kept_within_ok; first [ apply ack_keeps_incidents | apply remember_within; apply _
        | apply dispatch_within; apply _ | apply from_detection_within; apply _ ] ]).
Qed.
(** C10: over any sequence of live detections, whatever statements, gateway
    calls or publications fail, each subject (tenant, pattern, subject type and
    key, chain) has at most one active incident. *)
Theorem one_active_incident cfg ttl entries cache w :
  (forall i j, new_v4 i = new_v4 j -> i = j) ->
  Forall (fun e => simulation_run_id e.2 = None) entries -> incidents_ok w ->
  incidents_ok (for_each (handle_detection cfg ttl) entries cache w).1.
Proof.
  intros Hinj Hlive Hok. apply for_each_inv; [done|]. intros c e s Hin Hs.
  rewrite Forall_forall in Hlive. by apply handle_detection_ok; [|apply Hlive|].
Qed.

(** ** Finality updates and incidents *)

(** When a finality update confirms an alert, the incident of the alert is
    set active whatever its status was, a resolved or retracted one included,
    and its closing time stays. *)
Theorem confirmation_reactivates_incident cfg u a i row w w' o :
  healthy -> repository cfg = true -> al_incident_id a = Some i ->
  incidents (tables w) !! i = Some row -> fu_lifecycle_state u = Confirmed ->
  update_finality_incident cfg u a w = (w', o) ->
  exists row', incidents (tables w') !! i = Some row' /\ row_open row' = true /\
    in_closed_at row' = in_closed_at row /\ o = Ret ().
Proof.
  intros Hh Hr Hi Hrow Hu. unfold update_finality_incident. rewrite Hr, Hi, Hu. cbn [finality_transition].
  unfold mbind, st_bind. rewrite log_error_run. unfold update_incident_state.
  rewrite healthy_write by apply Hh. cbn [fst snd]. rewrite log_error_run.
  set (w1 := stepped _ w). set (ev := finality_event_row _ _ _ _ _ _).
  pose proof (event_within keeps_incidents ev w1) as [_ E]. intros [= <- <-].
  exists (set_incident_state "active" (severity_lower (al_severity a)) (al_created_at a) false row).
  rewrite E. unfold w1. cbn [tables stepped]. unfold update_incident. cbn [incidents with_incidents].
  rewrite lookup_alter, decide_True, Hrow by done. split_and!; try done.
  unfold append_incident_event, or_sql_error.
  unfold mbind, st_bind. rewrite (healthy_execute _ w1
    (with_incident_events (incident_events (tables w1) ++ [ev]) (tables w1)) ()); [done|apply Hh|].
  unfold insert_incident_event, referencing, w1. cbn [tables stepped]. unfold update_incident.
  cbn [incidents with_incidents ie_incident_id ev finality_event_row].
  by rewrite lookup_alter, decide_True, Hrow by done.
Qed.
End incidents.
