(* ===== verification/OrchestratorLoop.v ===== *)
(** * The orchestrator's loop: acknowledgements and the alert cache *)
From S2P Require Import Prelude F64 Text Numbers Ports EventSchema AlertStore Notifier AlertIO AlertEvidence CachePrune Orchestrator OrchestratorProofs.

Section cache.
Context `{Chrono} `{SerdeJson} `{HashOrder}.

Lemma oldest_contexts_keys (cache : alert_contexts) :
  (oldest_contexts cache).*1 ≡ₚ (hash_entries cache).*1.
Proof. unfold oldest_contexts. rewrite sort_by_perm, <- list_fmap_compose. done. Qed.
Lemma oldest_contexts_spec (cache : alert_contexts) k t :
  (k, t) ∈ oldest_contexts cache <-> exists a, cache !! k = Some a /\ t = al_created_at a.
Proof.
  unfold oldest_contexts. rewrite elem_of_sort_by, list_elem_of_fmap. split.
  - intros ([k' a] & [= -> ->] & Hin). apply elem_of_hash_entries in Hin. eauto.
  - intros (a & Ha & ->). exists (k, a). split; [done|]. by apply elem_of_hash_entries.
Qed.
Lemma oldest_contexts_nodup (cache : alert_contexts) : NoDup (oldest_contexts cache).*1.
Proof.
  rewrite oldest_contexts_keys, hash_entries_perm. apply NoDup_fst_map_to_list.
Qed.
Lemma length_oldest_contexts (cache : alert_contexts) : length (oldest_contexts cache) = size cache.
Proof. unfold oldest_contexts. by rewrite length_sort_by, length_fmap, length_hash_entries. Qed.

(** evicting the [n] oldest contexts *)
Lemma evict_contexts (c : alert_contexts) n :
  (n <= size c)%nat ->
  let c' := foldl (fun c kt => delete kt.1 c) c (take n (oldest_contexts c)) in
  c' ⊆ c /\ size c' = (size c - n)%nat /\
  (forall k a k' a', c !! k = Some a -> c' !! k = None -> c' !! k' = Some a' ->
     ns (al_created_at a) <= ns (al_created_at a')).
Proof.
  intros Hn c'. set (gone := take n (oldest_contexts c)) in *.
  assert (Hlook : forall k, c' !! k = if bool_decide (k ∈ gone.*1) then None else c !! k)
    by (intros; apply fold_delete_lookup).
  split_and!.
  - apply map_subseteq_spec. intros k a. rewrite Hlook. by case_bool_decide.
  - unfold c'. rewrite fold_delete_size.
    + unfold gone. rewrite length_take, length_oldest_contexts. lia.
    + unfold gone. rewrite fmap_take. eapply sublist_NoDup; [|apply sublist_take].
      apply oldest_contexts_nodup.
    + intros k Hk. apply list_elem_of_fmap in Hk as ([k0 t] & -> & Hin).
      eapply elem_of_sublist in Hin; [|apply sublist_take].
      apply oldest_contexts_spec in Hin as (a & Ha & _). by exists a.
  - intros k a k' a' Ha Hnone Hsome. rewrite Hlook in Hnone, Hsome.
    destruct (bool_decide_reflect (k ∈ gone.*1)) as [Hb|]; [|congruence]. clear Hnone.
    destruct (bool_decide (k' ∈ gone.*1)) eqn:Hb'; [done|]. apply bool_decide_eq_false in Hb'.
    assert (Hkin : (k, al_created_at a) ∈ gone).
    { apply list_elem_of_fmap in Hb as ([k0 t] & -> & Hin).
      pose proof Hin as Hin'. eapply elem_of_sublist in Hin'; [|apply sublist_take].
      apply oldest_contexts_spec in Hin' as (m0 & Hm0 & ->). simpl in Ha. by simplify_eq. }
    assert (Hk'in : (k', al_created_at a') ∈ drop n (oldest_contexts c)).
    { assert ((k', al_created_at a') ∈ oldest_contexts c) as Hin
        by (apply oldest_contexts_spec; by exists a').
      rewrite <- (take_drop n (oldest_contexts c)) in Hin.
      apply elem_of_app in Hin as [Hin|Hin]; [|done]. exfalso. apply Hb'.
      apply list_elem_of_fmap. by exists (k', al_created_at a'). }
    assert (Hs : sorted_by older_key (oldest_contexts c))
      by (apply sort_by_sorted; apply older_key_order).
    rewrite <- (take_drop n (oldest_contexts c)) in Hs.
    apply sorted_by_app_inv in Hs as (_ & _ & Hs). specialize (Hs _ _ Hkin Hk'in).
    unfold older_key, dt_le in Hs. simpl in Hs. lia.
Qed.

(** Pruning the alert cache keeps a part of it, within the bound, with
    nothing older than the time to live; it drops a young alert only for lack of
    room, and then none of those kept is older. *)
Theorem prune_alert_contexts_spec (cache cache' : alert_contexts) now ttl max_entries :
  0 <= max_entries -> prune_alert_contexts cache now ttl max_entries = Ret cache' ->
  cache' ⊆ cache /\ Z.of_nat (size cache') <= max_entries /\
  (forall k a, cache' !! k = Some a -> ns now - ttl <= ns (al_created_at a)) /\
  (forall k a, cache !! k = Some a -> ns now - ttl <= ns (al_created_at a) -> cache' !! k = None ->
     Z.of_nat (size cache') = max_entries /\
     forall k' a', cache' !! k' = Some a' -> ns (al_created_at a) <= ns (al_created_at a')).
Proof.
  intros Hpos. unfold prune_alert_contexts. intros Hp. inv_ret Hp. unfold shift_ns in Hm.
  apply or_panic_ret_inv in Hm. apply checked_add_spec in Hm. set (c1 := filter _ cache) in Hp.
  assert (Hc1 : forall k x, c1 !! k = Some x <-> cache !! k = Some x /\ ns now - ttl <= ns (al_created_at x)).
  { intros k x. unfold c1. rewrite map_lookup_filter_Some. simpl. unfold dt_le. rewrite Z.leb_le.
    by rewrite Hm, Z.add_opp_r. }
  assert (Hsub : c1 ⊆ cache) by apply map_filter_subseteq.
  destruct (_ <=? _) eqn:Hsize; injection Hp as <-; bools.
  - split_and!; [done|done|by intros k x [_ ?]%Hc1|]. intros k x Hk Hy Hnone.
    assert (c1 !! k = Some x) by (by apply Hc1). congruence.
  - unfold sat_sub. destruct (evict_contexts c1
      (Z.to_nat (Z.max 0 (Z.of_nat (size c1) - max_entries)))) as (E1 & E2 & E3); [lia|].
    set (c2 := foldl _ _ _) in *. split_and!; [by etrans|lia| |].
    + intros k x Hk. eapply Hc1. by eapply lookup_weaken.
    + intros k x Hk Hy Hnone. split; [lia|]. intros k' x' Hk'.
      apply (E3 k x k' x'); [by apply Hc1|done..].
Qed.
End cache.

Section loop.
Context `{Chrono} `{SerdeJson} `{HashOrder} `{!AlertCodec} `{!Env} `{!TraceCodec} `{!DetectionCodec}.

(** ** Acknowledgements *)

Definition same_acks (w w' : World) : Prop := acked w' = acked w.
#[export] Instance acks_frame : IoFrame same_acks.
Proof.
  split.
  - split; [by intros w|]. unfold same_acks. intros ???; congruence.
  - intros A f _ w. by destruct (execute_silent f w) as (_ & _ & E).
  - done.
  - done.
  - intros stream a w. unfold publish_struct, redis, mbind, st_bind, tick, lift.
    by destruct (redis_error _).
Qed.
Lemma incident_write_acks f : within same_acks (run_write f).
Proof. intros w. by destruct (run_write_silent f w) as (_ & _ & E). Qed.
Lemma attach_acks cfg a d : within same_acks (attach_incident_context cfg a d).
Proof.
  unfold attach_incident_context, find_or_create_incident, lookup_incident, find_active_incident,
    find_active_incident_for_simulation, create_incident, update_incident_state, utc_now, new_uuid.
  peel ltac:(first [ apply query_within; apply _ | apply incident_write_acks
    | apply blast_within; apply _ | apply event_within; apply _ | apply snapshot_within; apply _
    | apply (io_tick (R := same_acks)) ]).
Qed.
Lemma finality_incident_acks cfg u a : within same_acks (update_finality_incident cfg u a).
Proof.
  unfold update_finality_incident, update_incident_state.
  peel ltac:(first [apply incident_write_acks | apply event_within; apply _]).
Qed.
Lemma detection_acks cfg d : within same_acks (process_detection cfg d).
Proof.
  unfold process_detection. peel ltac:(first [apply attach_acks | apply dispatch_within; apply _
    | apply from_detection_within; apply _]).
Qed.
Lemma update_acks cfg ttl cache u a : within same_acks (apply_finality_update cfg ttl cache u a).
Proof.
  unfold apply_finality_update, utc_now.
  peel ltac:(first [apply finality_incident_acks | apply dispatch_within; apply _
    | apply remember_within; apply _ | apply (io_tick (R := same_acks))]).
Qed.
Lemma known_acks cfg cache k : within same_acks (known_alert cfg cache k).
Proof.
  unfold known_alert, find_latest_alert_by_event_key. peel ltac:(apply query_within; apply _).
Qed.

Lemma ack_run cfg stream i w w' :
  use_consumer_group cfg = true -> ack_entry cfg (ack stream) i w = (w', Ret ()) ->
  acked w' = acked w ++ [(stream, i)].
Proof.
  intros Hg. unfold ack_entry. rewrite Hg. unfold ack, redis, mbind, st_bind, tick, lift.
  destruct (redis_error _); [done|]. by intros [= <-].
Qed.
Lemma then_ack {A} cfg stream i (m : IO A) w w' c :
  use_consumer_group cfg = true -> within same_acks m ->
  (c ← m; _ ← ack_entry cfg (ack stream) i; mret c) w = (w', Ret c) ->
  acked w' = acked w ++ [(stream, i)].
Proof.
  intros Hg Hm Hrun. apply st_bind_ret_inv in Hrun as (w1 & c1 & Hrun & Hack).
  apply st_bind_ret_inv in Hack as (w2 & [] & Hack & Hret). injection Hret as <- _.
  specialize (Hm w). rewrite Hrun in Hm. unfold same_acks in Hm. simpl in Hm.
  apply ack_run in Hack; [|done]. congruence.
Qed.
Lemma detection_entry_acked cfg ttl cache e w w' c :
  use_consumer_group cfg = true -> handle_detection cfg ttl cache e w = (w', Ret c) ->
  acked w' = acked w ++ [(STREAM_DETECTIONS, e.1)].
Proof.
  intros Hg. destruct e as [i d]. apply then_ack; [done|].
  peel ltac:(first [apply detection_acks | apply remember_within; apply _]).
Qed.
Lemma update_entry_acked cfg ttl cache e w w' c :
  use_consumer_group cfg = true -> handle_finality_update cfg ttl cache e w = (w', Ret c) ->
  acked w' = acked w ++ [(STREAM_FINALITY_UPDATES, e.1)].
Proof.
  intros Hg. destruct e as [i u]. apply then_ack; [done|].
  peel ltac:(first [apply known_acks | apply update_acks]).
Qed.
Lemma each_entry_acked {A B} (f : A -> string * B -> IO A) stream l a w w' c :
  (forall a e w w' c, f a e w = (w', Ret c) -> acked w' = acked w ++ [(stream, e.1)]) ->
  for_each f l a w = (w', Ret c) -> acked w' = acked w ++ ((fun e => (stream, e.1)) <$> l).
Proof.
  intros Hf. revert a w. induction l as [|e l IH]; intros a w Hrun; simpl.
  - injection Hrun as <- _. by rewrite app_nil_r.
  - apply st_bind_ret_inv in Hrun as (w1 & a1 & He & Hrun). apply Hf in He. apply IH in Hrun.
    by rewrite Hrun, He, <- app_assoc.
Qed.

(** In consumer-group mode a turn of the loop that completes acknowledges
    every detection and every finality update read, once and in order, however
    their processing ended. *)
Theorem loop_acks_every_entry cfg ttl ds us cache w w' cache' :
  use_consumer_group cfg = true -> orchestrate cfg ttl ds us cache w = (w', Ret cache') ->
  acked w' = acked w ++ ((fun e => (STREAM_DETECTIONS, e.1)) <$> ds)
                     ++ ((fun e => (STREAM_FINALITY_UPDATES, e.1)) <$> us).
Proof.
  intros Hg Hrun. apply st_bind_ret_inv in Hrun as (w1 & c1 & Hd & Hu).
  apply (each_entry_acked _ STREAM_DETECTIONS) in Hd; [|intros; by eapply detection_entry_acked].
  apply (each_entry_acked _ STREAM_FINALITY_UPDATES) in Hu; [|intros; by eapply update_entry_acked].
  by rewrite Hu, Hd, <- app_assoc.
Qed.

(** ** Error containment *)

(** the only errors are failed acknowledgements *)
Definition ack_errors {A} (cfg : Config) (m : IO A) : Prop :=
  forall w e, (m w).2 = Err e -> use_consumer_group cfg = true /\ exists n, redis_error n = Some e.
Lemma ack_errors_bind {A B} cfg (m : IO A) (f : A -> IO B) :
  ack_errors cfg m -> (forall a, ack_errors cfg (f a)) -> ack_errors cfg (m ≫= f).
Proof.
  intros Hm Hf w e. unfold mbind, st_bind. specialize (Hm w).
  destruct (m w) as [w1 [a|e'|]]; cbn [snd] in *; [apply Hf|by intros [= <-]; apply Hm|done].
Qed.
Lemma never_err_ack_errors {A} cfg (m : IO A) : never_err m -> ack_errors cfg m.
Proof. intros Hm w e He. by destruct (Hm w e). Qed.
Lemma ack_entry_errors cfg stream i : ack_errors cfg (ack_entry cfg (ack stream) i).
Proof.
  intros w e. unfold ack_entry. destruct (use_consumer_group cfg); [|done].
  unfold ack, redis, mbind, st_bind, tick, lift.
  destruct (redis_error (step w)) eqn:Hr; [|done]. intros [= <-]. split; [done|by eexists].
Qed.
Lemma remember_never_err cfg ttl cache k a : never_err (remember_alert cfg ttl cache k a).
Proof.
  unfold remember_alert. apply never_err_bind; [done|]. intros now w e. unfold lift. cbn [snd].
  unfold prune_alert_contexts, shift_ns. destruct (checked_add now (- ttl)); [|done]. cbn [or_panic].
  unfold mbind, outcome_bind. by destruct (_ <=? _).
Qed.
Lemma finality_incident_never_err cfg u a : never_err (update_finality_incident cfg u a).
Proof.
  unfold update_finality_incident. destruct (repository cfg), (al_incident_id a); try done.
  destruct (finality_transition _) as [[[? ?] ?] ?].
  apply never_err_bind; [apply log_error_never_err|intros _; apply log_error_never_err].
Qed.
Lemma known_never_err cfg cache k : never_err (known_alert cfg cache k).
Proof.
  unfold known_alert. destruct (cache !! k); [done|]. destruct (repository cfg); [|done].
  apply never_err_bind; [apply attempt_never_err|done].
Qed.
Lemma detection_errors cfg ttl cache e : ack_errors cfg (handle_detection cfg ttl cache e).
Proof.
  destruct e as [i d]. apply ack_errors_bind.
  - apply never_err_ack_errors. destruct (det_event_key d), (triggered_rule_ids d); try done.
    apply never_err_bind; [apply attempt_never_err|]. intros []; [apply remember_never_err|done..].
  - intros c. apply ack_errors_bind; [apply ack_entry_errors|]. intros _. by apply never_err_ack_errors.
Qed.
Lemma finality_errors cfg ttl cache e : ack_errors cfg (handle_finality_update cfg ttl cache e).
Proof.
  destruct e as [i u]. apply ack_errors_bind.
  - apply never_err_ack_errors. destruct (is_final _); [|done].
    apply never_err_bind; [apply known_never_err|]. intros [x|]; [|done].
    destruct (bool_decide _); [done|]. apply never_err_bind; [done|]. intros now.
    apply never_err_bind; [apply finality_incident_never_err|]. intros _.
    apply never_err_bind; [apply attempt_never_err|]. intros []; [apply remember_never_err|done..].
  - intros c. apply ack_errors_bind; [apply ack_entry_errors|]. intros _. by apply never_err_ack_errors.
Qed.
Lemma for_each_errors {A B} cfg (f : A -> B -> IO A) l a :
  (forall a x, ack_errors cfg (f a x)) -> ack_errors cfg (for_each f l a).
Proof.
  intros Hf. revert a. induction l as [|x l IH]; intros a; [by apply never_err_ack_errors|].
  by apply ack_errors_bind.
Qed.

(** A turn of the loop only fails when an acknowledgement fails: no error of
    the database, the gateway, the streams or the data of an entry ends it. *)
Theorem loop_survives_errors cfg ttl ds us cache w w' e :
  orchestrate cfg ttl ds us cache w = (w', Err e) ->
  use_consumer_group cfg = true /\ exists n, redis_error n = Some e.
Proof.
  intros Hrun. apply (ack_errors_bind cfg (for_each (handle_detection cfg ttl) ds cache)
    (fun cache => for_each (handle_finality_update cfg ttl) us cache)) with w.
  - apply for_each_errors. intros. apply detection_errors.
  - intros c. apply for_each_errors. intros. apply finality_errors.
  - change ((orchestrate cfg ttl ds us cache w).2 = Err e). by rewrite Hrun.
Qed.
End loop.
