(* ===== verification/OrchestratorExamples.v ===== *)
(** * The orchestrator on concrete inputs

    Codecs, an environment whose services answer, one whose Redis does not, and
    runs on which the theorems are applied. *)
From stdpp Require Import strings pretty.
From S2P Require Import Prelude F64 Text Numbers Ports EventSchema AlertStore Notifier AlertIO AlertEvidence CachePrune Orchestrator OrchestratorProofs IncidentProofs OrchestratorLoop.

#[local] Existing Instance chrono_Z.
#[local] Existing Instance serde_json_tree.
#[local] Existing Instance canonical_order.

(** ** Codecs *)

Definition severity_code (s : Severity) : Z :=
  match s with Info => 0 | Low => 1 | Medium => 2 | High => 3 | Critical => 4 end.
Definition severity_of_code (z : Z) : Severity :=
  if z =? 0 then Info else if z =? 1 then Low else if z =? 2 then Medium
  else if z =? 3 then High else Critical.
Lemma severity_code_roundtrip s : severity_of_code (severity_code s) = s.
Proof. by destruct s. Qed.
Definition lifecycle_code (s : LifecycleState) : Z :=
  match s with Provisional => 0 | Confirmed => 1 | Retracted => 2 | Suppressed => 3 | Resolved => 4 end.
Definition lifecycle_of_code (z : Z) : LifecycleState :=
  if z =? 0 then Provisional else if z =? 1 then Confirmed else if z =? 2 then Retracted
  else if z =? 3 then Suppressed else Resolved.
Lemma lifecycle_code_roundtrip s : lifecycle_of_code (lifecycle_code s) = s.
Proof. by destruct s. Qed.

(** an alert with this header and nothing else *)
Definition bare_alert (id : string) (incident key tenant : option string) (pattern : string)
    (sev : Severity) (life : LifecycleState) (score : f64) (run : option string) (created : DateTime)
  : AlertEvent :=
  {| al_alert_id := id; al_incident_id := incident; al_event_key := key; al_subject_type := None;
     al_subject_key := None; al_tenant_id := tenant; al_pattern_id := pattern;
     al_chain := UnknownChain; al_chain_slug := "unknown"; al_protocol := "unknown";
     al_lifecycle_state := life; al_finality_status := default_finality_status; al_severity := sev;
     al_risk_score := score; al_confidence := f64_zero; al_confidence_breakdown := ∅;
     al_rule_ids := []; al_channel_routes := []; al_dedup_key := None; al_attribution := [];
     al_blast_radius := []; al_exposure_summary := ∅; al_tx_hash := ""; al_block_number := 0;
     al_oracle_context := ∅; al_actions_recommended := []; al_is_simulated := is_some run;
     al_simulation_run_id := run; al_detected_at := created; al_created_at := created |}.
(** the header as an array; a score that is not finite becomes [null] *)
Definition alert_to_json (a : AlertEvent) : json :=
  JArray [JString (al_alert_id a); opt_to_json JString (al_incident_id a);
    opt_to_json JString (al_event_key a); opt_to_json JString (al_tenant_id a);
    JString (al_pattern_id a); JInt (severity_code (al_severity a));
    JInt (lifecycle_code (al_lifecycle_state a)); float_to_json (al_risk_score a);
    opt_to_json JString (al_simulation_run_id a); time_to_json (al_created_at a)].
Definition alert_from_json (v : json) : outcome AlertEvent :=
  match v with
  | JArray [JString id; incident; key; tenant; JString pattern; JInt sev; JInt life; JFloat score;
            run; created] =>
      match json_time created with
      | Some t => Ret (bare_alert id (json_text incident) (json_text key) (json_text tenant) pattern
                         (severity_of_code sev) (lifecycle_of_code life) score (json_text run) t)
      | None => Err "invalid timestamp"
      end
  | _ => Err "invalid type"
  end.
#[local] Obligation Tactic := idtac.
#[local] Program Instance alert_codec_json : AlertCodec :=
  {| alert_to_value := alert_to_json : AlertEvent -> Value; alert_from_value := alert_from_json;
     uuid_text := fun _ => true |}.
Next Obligation.
  intros a _ Hs _ _ _. unfold alert_to_json, alert_from_json, float_to_json. rewrite Hs.
  rewrite json_time_roundtrip, !opt_text_roundtrip, severity_code_roundtrip, lifecycle_code_roundtrip.
  eexists. split; [reflexivity|]. by split_and!.
Qed.
Next Obligation.
  intros a Hs. unfold alert_to_json, alert_from_json, float_to_json. rewrite Hs. by eexists.
Qed.

Definition trace_to_json (c : EvidenceContributorTrace) : json :=
  JArray [JString (tr_source_id c); JString (tr_source_kind c); float_to_json (tr_price c);
    time_to_json (tr_observed_at c); JInt (tr_age_ms c); float_to_json (tr_weight c);
    float_to_json (tr_divergence_pct c); JBool (tr_supports_alert_direction c);
    JBool (tr_contributes_to_quorum c); JBool (tr_confirms_oracle c);
    JBool (tr_contributes_to_breach c)].
Definition trace_from_json (v : json) : option EvidenceContributorTrace :=
  match v with
  | JArray [JString id; JString kind; JFloat price; seen; JInt age; JFloat weight; JFloat div;
            JBool b1; JBool b2; JBool b3; JBool b4] =>
      match json_time seen with
      | Some t => Some {| tr_source_id := id; tr_source_kind := kind; tr_price := price; tr_observed_at := t;
              tr_age_ms := age; tr_weight := weight; tr_divergence_pct := div;
              tr_supports_alert_direction := b1; tr_contributes_to_quorum := b2;
              tr_confirms_oracle := b3; tr_contributes_to_breach := b4 |}
      | None => None
      end
  | _ => None
  end.
Lemma trace_roundtrip c :
  is_finite (tr_price c) = true -> is_finite (tr_weight c) = true ->
  is_finite (tr_divergence_pct c) = true -> trace_from_json (trace_to_json c) = Some c.
Proof.
  intros Hp Hw Hd. unfold trace_from_json, trace_to_json, float_to_json. rewrite Hp, Hw, Hd.
  rewrite json_time_roundtrip. by destruct c.
Qed.
Definition traces_from_json (v : json) : option (list EvidenceContributorTrace) :=
  match v with JArray l => mapM trace_from_json l | _ => None end.
#[local] Program Instance trace_codec_json : TraceCodec :=
  {| trace_to_value := trace_to_json : EvidenceContributorTrace -> Value;
     traces_from_value := traces_from_json |}.
Next Obligation.
  intros l Hl. unfold traces_from_json. change (@VArray serde_json_tree) with JArray. cbv beta iota.
  induction Hl as [|c l (Hp & Hw & Hd) Hl IH]; [done|]. cbn [fmap list_fmap mapM].
  rewrite trace_roundtrip by done. rewrite IH. done.
Qed.
#[local] Instance detection_codec_json : DetectionCodec :=
  {| signals_to_value := fun l => JInt (Z.of_nat (length l)) |}.

(** ** An environment whose services answer *)

Definition gateway_answer : HttpResponse :=
  {| status := 200;
     body := Some (VObj [("delivered"%string, VBool true);
                         ("resolved_channels"%string, VStrings ["slack"%string])]) |}.
#[local] Instance quiet_env : Env :=
  {| clock := fun _ => sec 1000; new_v4 := fun n => pretty (Z.of_nat n);
     sql_error := fun _ => None; http_send := fun _ _ _ => Ret gateway_answer;
     redis_error := fun _ => None; month_start := fun _ => sec 0 |}.
Lemma quiet_healthy : healthy.
Proof. done. Qed.
Lemma quiet_month : within_month (sec 0).
Proof. done. Qed.
Lemma quiet_uuids i j : new_v4 i = new_v4 j -> i = j.
Proof. intros E. apply (inj pretty) in E. lia. Qed.

Definition no_tables : AlertTables :=
  {| alerts := ∅; lifecycle_events := []; incidents := ∅; incident_events := [];
     context_snapshots := []; usage_events := []; delivery_attempts := []; exposures := ∅;
     evidence_snapshots := []; monitored_entities := []; hourly_limits := ∅;
     monthly_quotas := {[ "acme"%string := Some 1 ]}; operational_events := [];
     simulation_events := [] |}.
Definition start_with (t : AlertTables) : World :=
  {| step := 0; tables := t; requests := []; streamed := []; acked := [] |}.
Definition start : World := start_with no_tables.
Definition cfg : Config :=
  {| repository := true; gateway_endpoint := "http://gw"; duplicate_suppression_seconds := None;
     use_consumer_group := true; alert_context_ttl_hours := None;
     alert_context_max_entries := Some "1"%string |}.
Definition one_alert (id key : string) : AlertEvent :=
  bare_alert id None (Some key) (Some "acme"%string) "depeg" High Confirmed f64_zero None (sec 1000).

Definition first_run := dispatch_alert cfg (one_alert "a1" "k1") start.
Lemma dispatch_cases_witness : dispatched cfg (one_alert "a1" "k1") start first_run.1 first_run.2.
Proof.
  exact (dispatch_cases cfg (one_alert "a1" "k1") start first_run.1 first_run.2 eq_refl
    (surjective_pairing first_run)).
Defined.

(** with a quota of one, the second of two alerts is not sent *)
Definition two_alerts : list AlertEvent := [one_alert "a1" "k1"; one_alert "a2" "k2"].
Example one_call : quota_calls cfg "acme" two_alerts start = 1%nat.
Proof. vm_compute. reflexivity. Qed.
Lemma monthly_quota_holds_witness :
  Z.of_nat (quota_calls cfg "acme" two_alerts start)
  <= Z.max 0 (1 - fired_total "acme" (sec 0) (tables start)).
Proof.
  exact (monthly_quota_holds cfg "acme" (sec 0) 1 two_alerts start quiet_healthy quiet_month eq_refl
    eq_refl ltac:(lia)).
Defined.

(** the same subject again *)
Definition sent_ok : bool := is_return first_run.2.
Definition sent : AlertEvent := outcome_or (one_alert "" "") first_run.2.
Lemma first_run_eq : first_run = (first_run.1, Ret sent).
Proof.
  assert (E : sent_ok = true) by (vm_compute; reflexivity).
  exact (eq_trans (surjective_pairing first_run)
           (f_equal (pair first_run.1) (ret_or (one_alert "" "") first_run.2 E))).
Qed.
Definition requests_sent : nat := length (requests first_run.1).
Lemma first_sent : requests first_run.1 <> requests start.
Proof.
  assert (E : requests_sent = 1%nat) by (vm_compute; reflexivity).
  intros Hn. unfold requests_sent in E. rewrite Hn in E. discriminate E.
Qed.
Lemma sent_storable : storable sent.
Proof.
  unfold storable. split_and!; [vm_compute; reflexivity..|apply map_Forall_empty|constructor].
Qed.
Lemma sent_repeated : repeats "acme" (one_alert "a2" "k1") sent.
Proof.
  split_and!; [vm_compute; discriminate|exists "k1"%string; split; vm_compute; reflexivity|
    vm_compute; reflexivity..].
Qed.
Lemma sent_alert_not_repeated_witness :
  exists w3 b', dispatch_alert cfg (one_alert "a2" "k1") first_run.1 = (w3, Ret b') /\
    silent first_run.1 w3 /\ al_alert_id b' = al_alert_id sent.
Proof.
  apply (sent_alert_not_repeated cfg (one_alert "a1" "k1") (one_alert "a2" "k1") "acme" start
    first_run.1 first_run.1 sent 300000000000 [] quiet_healthy eq_refl).
  - vm_compute. reflexivity.
  - exact first_run_eq.
  - exact first_sent.
  - exact sent_storable.
  - symmetry. apply app_nil_r.
  - constructor.
  - exact sent_repeated.
  - vm_compute. discriminate.
Defined.

(** ** Incidents *)

Definition live_detection (id : string) : DetectionResult :=
  {| detection_id := id; pattern_id := "depeg"; det_event_key := Some "k1"%string;
     subject_type := Some "market"%string; subject_key := Some "acme:USDC/USD"%string;
     det_tenant_id := Some "acme"%string; det_chain := Ethereum; det_chain_slug := "ethereum";
     protocol := "market:USDC/USD"; det_lifecycle_state := Confirmed; requires_confirmation := false;
     attack_family := FamilyPegDeviation; severity := High; description := None;
     triggered_rule_ids := ["r1"%string]; det_tx_hash := "tx"; det_block_number := 7; signals := [];
     risk_score := RiskScore_default; incident_transition := None; context_classification := None;
     confidence_breakdown := ∅; oracle_context := ∅; actions_recommended := [];
     is_simulated := false; simulation_run_id := None; detected_at := sec 1000;
     created_at := sec 1000 |}.
Definition two_entries : list (string * DetectionResult) :=
  [("1", live_detection "d1"); ("2", live_detection "d2")]%string.
Lemma start_ok : incidents_ok start.
Proof.
  split; [|split].
  - intros i a Ha. discriminate Ha.
  - intros i j a b Ha. discriminate Ha.
  - intros k _. reflexivity.
Qed.
Lemma two_live : Forall (fun e : string * DetectionResult => simulation_run_id e.2 = None) two_entries.
Proof. by repeat constructor. Qed.
Definition ttl : Z := 86400000000000.
Definition run_two := for_each (handle_detection cfg ttl) two_entries ∅ start.
Definition incidents_after : nat := size (incidents (tables run_two.1)).
Example one_incident_created : incidents_after = 1%nat.
Proof. vm_compute. reflexivity. Qed.
Lemma one_active_incident_witness : incidents_ok run_two.1.
Proof. exact (one_active_incident cfg ttl two_entries ∅ start quiet_uuids two_live start_ok). Defined.

(** a resolved incident, its alert, and a late confirmation *)
Definition resolved_row : IncidentRow :=
  {| in_record := {| ir_incident_id := "i1"; ir_tenant_id := "acme"; ir_pattern_id := "depeg";
       ir_subject_type := None; ir_subject_key := None; ir_chain_slug := "ethereum";
       ir_status := "resolved"; ir_current_severity := "high" |};
     in_opened_at := sec 10; in_updated_at := sec 20; in_closed_at := Some (sec 20) |}.
Definition resolved_world : World :=
  start_with (with_incidents {[ "i1"%string := resolved_row ]} no_tables).
Definition confirmation : FinalityUpdate :=
  {| fu_chain := Ethereum; fu_event_key := "k1"; fu_block_number := 7; fu_block_hash := None;
     fu_lifecycle_state := Confirmed; fu_updated_at := sec 1000 |}.
Definition old_alert : AlertEvent :=
  bare_alert "a1" (Some "i1"%string) (Some "k1"%string) (Some "acme"%string) "depeg" High Provisional
    f64_zero None (sec 1000).
Definition confirmed_run := update_finality_incident cfg confirmation old_alert resolved_world.
Lemma confirmation_reactivates_incident_witness :
  row_open resolved_row = false /\
  exists row', incidents (tables confirmed_run.1) !! "i1"%string = Some row' /\
    row_open row' = true /\ in_closed_at row' = in_closed_at resolved_row /\ confirmed_run.2 = Ret ().
Proof.
  split; [vm_compute; reflexivity|].
  exact (confirmation_reactivates_incident cfg confirmation old_alert "i1" resolved_row resolved_world
    confirmed_run.1 confirmed_run.2 quiet_healthy eq_refl eq_refl eq_refl eq_refl
    (surjective_pairing confirmed_run)).
Defined.

(** ** The loop *)

Definition two_contexts : gmap string AlertEvent :=
  {[ "k1"%string := bare_alert "a1" None None None "p" High Confirmed f64_zero None (sec 10);
     "k2"%string := bare_alert "a2" None None None "p" High Confirmed f64_zero None (sec 20) ]}.
Definition pruned := prune_alert_contexts two_contexts (sec 100) ttl 1.
Definition pruned_ok : bool := is_return pruned.
Lemma prune_alert_contexts_spec_witness :
  exists cache', pruned = Ret cache' /\ cache' ⊆ two_contexts /\ Z.of_nat (size cache') <= 1.
Proof.
  assert (E : pruned_ok = true) by (vm_compute; reflexivity).
  exists (outcome_or ∅ pruned). split; [exact (ret_or _ _ E)|].
  destruct (prune_alert_contexts_spec two_contexts (outcome_or ∅ pruned) (sec 100) ttl 1 ltac:(lia)
    (ret_or _ _ E)) as (Hs & Hb & _). split; [exact Hs|exact Hb].
Defined.

Definition turn := orchestrate cfg ttl two_entries [("9"%string, confirmation)] ∅ start.
Definition turn_ok : bool := is_return turn.2.
Definition turn_acks : nat := length (acked turn.1).
Example three_acks : turn_acks = 3%nat.
Proof. vm_compute. reflexivity. Qed.
Lemma turn_runs (E : turn_ok = true) :
  orchestrate cfg ttl two_entries [("9"%string, confirmation)] ∅ start =
  (turn.1, Ret (outcome_or ∅ turn.2)).
Proof.
  unfold turn_ok in E. unfold turn in *. destruct (orchestrate _ _ _ _ _ _) as [w [c| |]]; done.
Qed.
Lemma loop_acks_every_entry_witness :
  acked turn.1 = [] ++ ((fun e : string * DetectionResult => (STREAM_DETECTIONS, e.1)) <$> two_entries)
    ++ ((fun e : string * FinalityUpdate => (STREAM_FINALITY_UPDATES, e.1)) <$>
          [("9"%string, confirmation)]).
Proof.
  assert (E : turn_ok = true) by (vm_compute; reflexivity).
  exact (loop_acks_every_entry cfg ttl two_entries [("9"%string, confirmation)] ∅ start turn.1
    (outcome_or ∅ turn.2) eq_refl (turn_runs E)).
Defined.

(** the same turn when Redis is down *)
Definition down_env : Env :=
  {| clock := fun _ => sec 1000; new_v4 := fun n => pretty (Z.of_nat n);
     sql_error := fun _ => Some UndefinedTable; http_send := fun _ _ _ => Err "no route";
     redis_error := fun _ => Some "connection refused"%string; month_start := fun _ => sec 0 |}.
Definition down_turn := @orchestrate _ _ _ _ down_env _ _ cfg ttl two_entries [] ∅ start.
Definition down_message : string := match down_turn.2 with Err e => e | _ => "" end.
Definition down_failed : bool := match down_turn.2 with Err _ => true | _ => false end.
Lemma err_or {A} (o : outcome A) :
  match o with Err _ => true | _ => false end = true ->
  o = Err (match o with Err e => e | _ => ""%string end).
Proof. by destruct o. Qed.
Lemma down_turn_runs (E : down_failed = true) :
  @orchestrate _ _ _ _ down_env _ _ cfg ttl two_entries [] ∅ start = (down_turn.1, Err down_message).
Proof.
  unfold down_failed in E. unfold down_message, down_turn in *.
  destruct (orchestrate _ _ _ _ _ _) as [w [c|e|]]; done.
Qed.
Lemma loop_survives_errors_witness :
  use_consumer_group cfg = true /\ exists n : nat, @redis_error _ _ down_env n = Some down_message.
Proof.
  assert (E : down_failed = true) by (vm_compute; reflexivity).
  exact (@loop_survives_errors _ _ _ _ down_env _ _ cfg ttl two_entries [] ∅ start down_turn.1
    down_message (down_turn_runs E)).
Defined.

(** ** Evidence *)

Definition quote_trace : EvidenceContributorTrace :=
  {| tr_source_id := "binance"; tr_source_kind := "cex"; tr_price := f64_zero;
     tr_observed_at := sec 990; tr_age_ms := 10; tr_weight := f64_zero; tr_divergence_pct := f64_zero;
     tr_supports_alert_direction := true; tr_contributes_to_quorum := true; tr_confirms_oracle := false;
     tr_contributes_to_breach := true |}.
Definition evidence_alert : AlertEvent :=
  set_context {[ "contributing_sources"%string := VArray [trace_to_value quote_trace] ]}
    (one_alert "a1" "k1").
Definition evidence_run := persist_alert_evidence_snapshot evidence_alert start.
Definition evidence_ok : bool := is_return evidence_run.2.
Lemma unit_ret (o : outcome unit) : is_return o = true -> o = Ret ().
Proof. by destruct o as [[]| |]. Qed.
Definition no_sources : bool :=
  match contributing_sources_from_alert evidence_alert with [] => true | _ => false end.
Lemma some_source : exists c, c ∈ contributing_sources_from_alert evidence_alert.
Proof.
  assert (N : no_sources = false) by (vm_compute; reflexivity). unfold no_sources in N.
  destruct (contributing_sources_from_alert evidence_alert) as [|c l]; [discriminate N|].
  exists c. apply elem_of_cons. by left.
Qed.
Lemma some_sources : contributing_sources_from_alert evidence_alert <> [].
Proof. destruct some_source as [c Hc]. intros Hn. rewrite Hn in Hc. by apply not_elem_of_nil in Hc. Qed.
Lemma evidence_covers_contributors_witness :
  exists c r, c ∈ contributing_sources_from_alert evidence_alert /\
    r ∈ evidence_snapshots (tables evidence_run.1) /\
    es_tenant_id r = "acme"%string /\ es_alert_id r = al_alert_id evidence_alert /\ shows c r.
Proof.
  assert (E : evidence_ok = true) by (vm_compute; reflexivity).
  destruct some_source as [c Hc].
  destruct (evidence_covers_contributors evidence_alert "acme" start evidence_run.1 quiet_healthy
    ltac:(vm_compute; reflexivity) some_sources
    (eq_trans (surjective_pairing evidence_run)
       (f_equal (pair evidence_run.1) (unit_ret evidence_run.2 E)))) as [Hcover _].
  destruct (Hcover c Hc) as (r & Hr). exists c, r. split; [exact Hc|exact Hr].
Defined.
