(* ===== verification/Hex.v ===== *)
(** * Hexadecimal words, casts and the 256-bit integers of log data

    The [from_str_radix] of the standard library, saturating float casts,
    UTF-8 validity and byte chunks, and the interface to [ethers]'s [U256],
    which is third-party code: the class carries the documented meaning of
    the four functions the stream parsers call.  The encoding of an integer as
    a two's-complement word of an EVM log, with the lemmas that decode it. *)
From Stdlib Require Import Floats.SpecFloat Ascii.
From stdpp Require Import pretty.
From S2P Require Import Prelude F64 Text Numbers.

(** ** Standard library *)

(** [char::to_digit(16)] *)
Definition hex_digit (c : ascii) : option Z :=
  let n := Z.of_nat (nat_of_ascii c) in
  if (48 <=? n) && (n <=? 57) then Some (n - 48)
  else if (97 <=? n) && (n <=? 102) then Some (n - 87)
  else if (65 <=? n) && (n <=? 70) then Some (n - 55)
  else None.
Fixpoint hex_fold (acc : Z) (s : string) : option Z :=
  match s with
  | EmptyString => Some acc
  | String c s => d ← hex_digit c; hex_fold (acc * 16 + d) s
  end.
Definition hex_number (s : string) : option Z := if is_empty s then None else hex_fold 0 s.
(** [i64::from_str_radix(s, 16)] and [u128::from_str_radix(s, 16)] *)
Definition i64_from_hex (s : string) : option Z :=
  in_range i64_min i64_max
    (match s with
     | String "+" s => hex_number s
     | String "-" s => Z.opp <$> hex_number s
     | _ => hex_number s
     end).
Definition u128_from_hex (s : string) : option Z :=
  in_range 0 u128_max (match s with String "+" s => hex_number s | _ => hex_number s end).

(** [x as iN]: toward zero, saturating, zero for NaN *)
Definition f64_trunc (x : f64) : Z :=
  match x with
  | S754_finite s m e =>
      let v := if 0 <=? e then Zpos m * 2 ^ e else Zpos m / 2 ^ (- e) in if s then - v else v
  | _ => 0
  end.
Definition f64_as (lo hi : Z) (x : f64) : Z :=
  match x with
  | S754_infinity s => if s then lo else hi
  | _ => Z.max lo (Z.min hi (f64_trunc x))
  end.
Definition as_i64_cast : f64 -> Z := f64_as i64_min i64_max.
Definition as_i128_cast : f64 -> Z := f64_as (- 2 ^ 127) (2 ^ 127 - 1).

(** [std::str::from_utf8(bytes).is_ok()]: the ranges the next bytes must be in *)
Fixpoint utf8_from (need : list (Z * Z)) (s : string) : bool :=
  match s with
  | EmptyString => bool_decide (need = [])
  | String c s =>
      let n := Z.of_nat (nat_of_ascii c) in
      let within lo hi := (lo <=? n) && (n <=? hi) in
      let tail := (128, 191) in
      match need with
      | (lo, hi) :: need => within lo hi && utf8_from need s
      | [] =>
          if n <? 128 then utf8_from [] s
          else if within 194 223 then utf8_from [tail] s
          else if n =? 224 then utf8_from [(160, 191); tail] s
          else if within 225 236 || within 238 239 then utf8_from [tail; tail] s
          else if n =? 237 then utf8_from [(128, 159); tail] s
          else if n =? 240 then utf8_from [(144, 191); tail; tail] s
          else if within 241 243 then utf8_from [tail; tail; tail] s
          else if n =? 244 then utf8_from [(128, 143); tail; tail] s
          else false
      end
  end.
Definition utf8_valid (s : string) : bool := utf8_from [] s.

(** [bytes.chunks(n)] *)
Fixpoint take_str (n : nat) (s : string) : string :=
  match n, s with
  | S n, String c s => String c (take_str n s)
  | _, _ => EmptyString
  end.
Fixpoint drop_str (n : nat) (s : string) : string :=
  match n, s with
  | S n, String _ s => drop_str n s
  | _, _ => s
  end.
Fixpoint chunks_fuel (fuel n : nat) (s : string) : list string :=
  match fuel, s with
  | S fuel, String _ _ => take_str n s :: chunks_fuel fuel n (drop_str n s)
  | _, _ => []
  end.
Definition chunks (n : nat) (s : string) : list string := chunks_fuel (String.length s) n s.
(** [s.trim_start_matches(p)] *)
Fixpoint trim_prefixes (fuel : nat) (p s : string) : string :=
  match fuel with
  | O => s
  | S fuel => match strip_prefix p s with Some s' => trim_prefixes fuel p s' | None => s end
  end.
Definition trim_start_matches (p s : string) : string := trim_prefixes (String.length s) p s.

(** ** [ethers::types::U256] *)
Class U256 := {
  u256_from_hex : string -> option Z;
  u256_from_hex_range : forall s v, u256_from_hex s = Some v -> 0 <= v < 2 ^ 256;
  u256_from_hex_digits : forall s v, (String.length s <= 64)%nat ->
    hex_number s = Some v -> u256_from_hex s = Some v;
  u256_not : Z -> Z;
  u256_not_spec : forall v, 0 <= v < 2 ^ 256 -> u256_not v = 2 ^ 256 - 1 - v;
  u256_overflowing_add : Z -> Z -> Z * bool;
  u256_add_spec : forall a b, 0 <= a < 2 ^ 256 -> 0 <= b < 2 ^ 256 ->
    u256_overflowing_add a b = ((a + b) mod 2 ^ 256, 2 ^ 256 <=? a + b);
  u256_to_string : Z -> string;
  u256_to_string_spec : forall v, 0 <= v < 2 ^ 256 -> u256_to_string v = fmt_Z v
}.

(** ** Lemmas *)

Lemma hex_digit_range c d : hex_digit c = Some d -> 0 <= d < 16.
Proof. unfold hex_digit. repeat case_match; intros [= <-]; bools; lia. Qed.
Lemma hex_fold_nonneg acc s v : 0 <= acc -> hex_fold acc s = Some v -> 0 <= v.
Proof.
  revert acc. induction s as [|c s IH]; simpl; intros acc Ha; [by intros [= <-]|].
  destruct (hex_digit c) as [d|] eqn:Hd; [|done]. simpl. apply IH.
  pose proof (hex_digit_range _ _ Hd). lia.
Qed.
Lemma hex_fold_bound acc s v : 0 <= acc -> hex_fold acc s = Some v ->
  v < (acc + 1) * 16 ^ Z.of_nat (String.length s).
Proof.
  revert acc. induction s as [|c s IH]; cbn [hex_fold String.length]; intros acc Ha.
  - intros [= <-]. lia.
  - destruct (hex_digit c) as [d|] eqn:Hd; [|done]. simpl. intros Hv.
    pose proof (hex_digit_range _ _ Hd). apply IH in Hv; [|lia].
    rewrite Nat2Z.inj_succ, Z.pow_succ_r by lia.
    pose proof (Z.pow_pos_nonneg 16 (Z.of_nat (String.length s)) ltac:(lia) ltac:(lia)). nia.
Qed.
Lemma hex_number_bound s v : (String.length s <= 64)%nat -> hex_number s = Some v ->
  0 <= v < 2 ^ 256.
Proof.
  unfold hex_number. case_match; [done|]. intros Hl Hv.
  pose proof (hex_fold_nonneg 0 _ _ ltac:(lia) Hv).
  pose proof (hex_fold_bound 0 _ _ ltac:(lia) Hv).
  assert (16 ^ Z.of_nat (String.length s) <= 16 ^ 64) by (apply Z.pow_le_mono_r; lia).
  change (2 ^ 256) with (16 ^ 64). lia.
Qed.

(** *** Printing and parsing an integer *)

(** a decidable fact about the first [n] integers, by computation *)
Lemma forall_below (P : Z -> Prop) `{forall z, Decision (P z)} n d :
  forallb (fun z => bool_decide (P z)) (seqZ 0 n) = true -> 0 <= d < n -> P d.
Proof.
  intros Hall Hd. rewrite forallb_forall in Hall.
  apply (bool_decide_eq_true_1 _), Hall, list_elem_of_In, elem_of_seqZ. lia.
Qed.
Lemma pretty_char_digit n : (n < 10)%N ->
  digit_of (pretty_N_char n) = Some (Z.of_N n).
Proof.
  intros Hn. rewrite <- (N2Z.id n) at 1.
  apply (forall_below (fun z => digit_of (pretty_N_char (Z.to_N z)) = Some z) 10); [reflexivity|lia].
Qed.
Lemma take_digits_pretty_go n acc cnt s : exists k, 0 <= k /\ ((0 < n)%N -> 0 < k) /\
  take_digits acc cnt (pretty_N_go n s) = take_digits (acc * 10 ^ k + Z.of_N n) (cnt + k) s.
Proof.
  revert acc cnt s. induction (N.lt_wf_0 n) as [n _ IH]. intros acc cnt s.
  destruct (decide (n = 0)%N) as [->|Hn].
  { exists 0. rewrite pretty_N_go_0. split_and!; [lia..|f_equal; lia]. }
  rewrite pretty_N_go_step by lia.
  destruct (IH (n / 10)%N ltac:(apply N.div_lt; lia) acc cnt
    (String (pretty_N_char (n `mod` 10)) s)) as (k & Hk & _ & ->).
  exists (k + 1). split_and!; [lia..|].
  cbn [take_digits]. rewrite pretty_char_digit by (apply N.mod_lt; lia).
  f_equal; [|lia]. rewrite Z.pow_add_r, N2Z.inj_div, N2Z.inj_mod by lia.
  pose proof (Z.div_mod (Z.of_N n) 10 ltac:(lia)). change (Z.of_N 10) with 10. lia.
Qed.
Lemma pretty_go_head n s : (0 < n)%N ->
  exists c s' d, pretty_N_go n s = String c s' /\ digit_of c = Some d.
Proof.
  revert s. induction (N.lt_wf_0 n) as [n _ IH]. intros s Hn.
  rewrite pretty_N_go_step by lia.
  destruct (decide (n / 10 = 0)%N) as [Hz|Hz].
  - rewrite Hz, pretty_N_go_0. do 3 eexists. split; [done|].
    apply pretty_char_digit, N.mod_lt. lia.
  - apply IH; [apply N.div_lt; lia|by apply N.neq_0_lt_0].
Qed.
Definition digit_chars : list ascii :=
  Eval vm_compute in (fun z => pretty_N_char (Z.to_N z)) <$> seqZ 0 10.
Lemma digit_in_chars c d : digit_of c = Some d -> c ∈ digit_chars.
Proof.
  intros Hd. apply (bool_decide_eq_true_1 _).
  destruct c as [[] [] [] [] [] [] [] []]; vm_compute in Hd |- *; congruence.
Qed.
(** text that starts with a digit is a decimal number *)
Lemma parse_f64_digit c d s : digit_of c = Some d ->
  parse_f64 (String c s) = parse_decimal false (String c s).
Proof.
  intros Hd%digit_in_chars. unfold digit_chars in Hd.
  repeat (apply elem_of_cons in Hd as [->|Hd]; [reflexivity|]).
  by apply elem_of_nil in Hd.
Qed.
Lemma parse_f64_fmt_Z v : 0 <= v -> parse_f64 (fmt_Z v) = Some (f64_of_Z v).
Proof.
  destruct v as [|p|p]; [reflexivity| |lia]. intros _.
  change (fmt_Z (Zpos p)) with (pretty (N.pos p)).
  unfold pretty, pretty_N. rewrite decide_False by done.
  destruct (pretty_go_head (N.pos p) "" ltac:(lia)) as (c & s & d & Hs & Hd).
  rewrite Hs, (parse_f64_digit _ _ _ Hd), <- Hs. unfold parse_decimal.
  destruct (take_digits_pretty_go (N.pos p) 0 0 "") as (k & Hk & Hp & ->).
  cbn [take_digits]. replace (0 <? 0 + k + 0) with true by (symmetry; apply Z.ltb_lt; lia).
  cbn [parse_exponent mbind option_bind]. f_equal.
  replace (0 * 10 ^ k + Z.of_N (N.pos p)) with (Zpos p) by lia. cbn. by rewrite ?Z.mul_1_r, ?Pos.mul_1_r.
Qed.
Lemma f64_of_Z_opp p : SFopp (f64_of_Z (Zpos p)) = f64_of_Z (Zneg p).
Proof.
  unfold f64_of_Z, binary_normalize, binary_round.
  destruct (shl_align _ _ _) as [m e]. unfold binary_round_aux.
  destruct (shr_fexp _ _ _ e _) as [mrs e']. destruct (shr_fexp _ _ _ e' _) as [mrs'' e''].
  by destruct (shr_m mrs''); [|case_match|].
Qed.

(** ** Words of an EVM log *)

(** the digit of a value below sixteen *)
Definition hex_char (d : Z) : ascii :=
  ascii_of_nat (Z.to_nat (if d <? 10 then 48 + d else 87 + d)).
Fixpoint hex_encode (n : nat) (v : Z) : string :=
  match n with
  | O => EmptyString
  | S n => String (hex_char (v / 16 ^ Z.of_nat n mod 16)) (hex_encode n v)
  end.
(** the 32-byte word of an unsigned or a two's-complement integer *)
Definition abi_word (z : Z) : string := hex_encode 64 (z mod 2 ^ 256).
(** the data of a log whose non-indexed values are [zs] *)
Definition abi_data (zs : list Z) : string := "0x" +:+ foldr String.app EmptyString (abi_word <$> zs).

(** the sixteen digits, to reason by computation *)
Definition hex_digits : list ascii := Eval vm_compute in hex_char <$> seqZ 0 16.

Lemma hex_char_in d : 0 <= d < 16 -> hex_char d ∈ hex_digits.
Proof.
  intros Hd. apply (list_elem_of_fmap_2' hex_char (seqZ 0 16) d); [|done].
  apply elem_of_seqZ. lia.
Qed.
Lemma hex_char_digit d : 0 <= d < 16 -> hex_digit (hex_char d) = Some d.
Proof. apply (forall_below (fun d => hex_digit (hex_char d) = Some d) 16). reflexivity. Qed.
Lemma hex_encode_length n v : String.length (hex_encode n v) = n.
Proof. induction n as [|n IH]; cbn [hex_encode String.length]; by f_equal. Qed.
Lemma hex_encode_chars n v : Forall (fun c => c ∈ hex_digits)
  (String.list_ascii_of_string (hex_encode n v)).
Proof.
  induction n as [|n IH]; simpl; constructor; [|done].
  apply hex_char_in, Z.mod_pos_bound. lia.
Qed.
Lemma hex_fold_encode n v acc : 0 <= v ->
  hex_fold acc (hex_encode n v) = Some (acc * 16 ^ Z.of_nat n + v mod 16 ^ Z.of_nat n).
Proof.
  intros Hv. revert acc. induction n as [|n IH]; intros acc; cbn [hex_encode hex_fold].
  - f_equal. change (16 ^ Z.of_nat 0) with 1. rewrite Z.mod_1_r. lia.
  - rewrite hex_char_digit by (apply Z.mod_pos_bound; lia). cbn [mbind option_bind].
    rewrite IH, Nat2Z.inj_succ, Z.pow_succ_r by lia. f_equal.
    set (k := 16 ^ Z.of_nat n).
    assert (0 < k) by (apply Z.pow_pos_nonneg; lia).
    rewrite (Z.mul_comm 16 k), Z.rem_mul_r by lia. lia.
Qed.
Lemma abi_word_number z : hex_number (abi_word z) = Some (z mod 2 ^ 256).
Proof.
  assert (0 <= z mod 2 ^ 256 < 2 ^ 256) by (apply Z.mod_pos_bound; lia).
  unfold hex_number, abi_word. cbn [hex_encode is_empty].
  change (String (hex_char (z mod 2 ^ 256 / 16 ^ Z.of_nat 63 mod 16)) _)
    with (hex_encode 64 (z mod 2 ^ 256)).
  rewrite hex_fold_encode by lia. f_equal.
  change (16 ^ Z.of_nat 64) with (2 ^ 256). by rewrite Z.mod_mod by lia.
Qed.
