(* ===== verification/StreamParser.v ===== *)
(** * Stream parsers: shared helpers ([apps/indexer/src/stream_parser/mod.rs])

    What a parser receives and returns, and the helpers of the parser module:
    numbers and timestamps of a payload, source identifiers, market keys,
    hexadecimal log data, price scaling.  [Utc::now], read when the payload
    carries no timestamp, is the variable [now].  The parsers of the exchange
    tickers are in [TickerParsers], those of chain and protocol payloads in
    [ChainParsers]. *)
From Stdlib Require Import Ascii.
From S2P Require Import Prelude F64 Text Numbers Ports FieldMapping Hex.

Record ParserInput `{SerdeJson} := {
  parser_name : string;
  in_event_type : string;
  market_key_hint : option string;
  asset_pair_hint : option string;
  payload_ts_path : option string;
  payload_ts_unit : string;
  filter_config : Value
}.
Record ParsedFeedEvent `{Chrono} `{SerdeJson} := {
  pf_event_type : string;
  pf_event_id : option string;
  pf_market_key : option string;
  pf_asset_pair : option string;
  pf_price : option f64;
  pf_chain_id : option Z;
  pf_block_number : option Z;
  pf_tx_hash : option string;
  pf_log_index : option Z;
  pf_topic0 : option string;
  pf_payload_event_ts : option DateTime;
  pf_observed_at : DateTime;
  pf_normalized_fields : Value
}.

(** [m.map_err(f)] *)
Definition map_err {A} (f : string -> string) (m : outcome A) : outcome A :=
  match m with Err e => Err (f e) | _ => m end.

Section helpers.
Context `{Chrono} `{SerdeJson} `{Powi} `{U256} (now : DateTime).

(** ** Numbers and timestamps *)

Definition parse_i64 (value : option Value) : option Z :=
  raw ← value;
  match as_i64 raw with
  | Some number => Some number
  | None =>
      text ← as_str raw;
      match strip_prefix "0x" text with
      | Some hex => i64_from_hex hex
      | None => Numbers.parse_i64 text
      end
  end.
Definition parse_f64 (value : option Value) : option f64 :=
  raw ← value;
  match as_f64 raw with
  | Some number => Some number
  | None => text ← as_str raw; Numbers.parse_f64 text
  end.
Definition parse_ts_value (value : Value) (unit : string) : option DateTime :=
  if bool_decide (unit = "iso8601") then as_str value ≫= parse_from_rfc3339
  else if bool_decide (unit = "s") then parse_i64 (Some value) ≫= timestamp_opt
  else parse_i64 (Some value) ≫= timestamp_millis_opt.
Definition parse_ts_from_path (payload : Value) (path : option string) (unit : string)
  : option DateTime :=
  path ← path;
  let path := default path (strip_prefix "$." path) in
  value ← vget path payload; parse_ts_value value unit.
Definition observed_at (payload_event_ts : option DateTime) : DateTime :=
  default now payload_event_ts.

(** ** Identifiers and market keys *)

(** [value.as_str().map(to_string).or_else(|| value.as_u64().map(..))] *)
Definition text_or_u64 (value : Value) : option string :=
  or_else (as_str value) (fmt_Z <$> as_u64 value).
Definition source_event_id (payload : Value) : option string :=
  or_else (get_str "id" payload)
    (or_else (get_str "event_id" payload)
      (or_else (vget "sequence_num" payload ≫= text_or_u64)
        (vget "socket_sequence" payload ≫= text_or_u64))).

(** the first two non-empty parts around a delimiter *)
Definition split_parts (delimiter : ascii) (cleaned : string) : option (string * string) :=
  match filter (fun part => is_empty part = false) (split_on delimiter cleaned) with
  | base :: quote :: _ => Some (base, quote)
  | _ => None
  end.
Definition strip_quote (cleaned suffix : string) : option (string * string) :=
  base ← strip_suffix suffix cleaned; if is_empty base then None else Some (base, suffix).
Definition has_char (c : ascii) (s : string) : bool := contains s (String c EmptyString).
Definition clean_symbol (symbol : string) : string :=
  remove_chars [":"%char; " "%char] (to_ascii_uppercase (trim symbol)).
Definition split_symbol_pair (symbol : string) : option (string * string) :=
  let cleaned := clean_symbol symbol in
  if is_empty cleaned then None
  else if has_char "/" cleaned then split_parts "/" cleaned
  else if has_char "-" cleaned then split_parts "-" cleaned
  else find_map (strip_quote cleaned) ["USDT"; "USDC"; "USD"].
Definition is_usd (quote : string) : bool :=
  bool_decide (quote = "USD") || bool_decide (quote = "USDT") || bool_decide (quote = "USDC").
(** [format!("{base}/USD")] for a dollar quote, [format!("{base}/{quote}")] otherwise *)
Definition market_key_of (base quote : string) : string :=
  if is_usd quote then base +:+ "/USD" else base +:+ "/" +:+ quote.
Definition symbol_to_market_key (symbol : string) : option string :=
  '(base, quote) ← split_symbol_pair symbol; Some (market_key_of base quote).
Definition extract_symbol_from_topic (topic : string) : option string :=
  value ← strip_prefix "tickers." (trim topic);
  if is_empty value then None else Some (to_ascii_uppercase value).

(** ** Log data *)

Definition decode_hex_words (data_hex : string) : list string :=
  match strip_prefix "0x" (trim data_hex) with
  | None => []
  | Some body =>
      if (String.length body <? 64)%nat then []
      else filter (fun chunk => utf8_valid chunk = true) (chunks 64 body)
  end.
Definition parse_u256_word_to_f64 (word : string) : option f64 :=
  value ← u256_from_hex (trim_start_matches "0x" word);
  Numbers.parse_f64 (u256_to_string value).
Definition first_digit (s : string) : option Z :=
  match s with String c _ => hex_digit c | EmptyString => None end.
Definition parse_i256_word_to_f64 (word : string) : option f64 :=
  let trimmed := trim_start_matches "0x" word in
  value ← u256_from_hex trimmed;
  let negative := match first_digit trimmed with Some digit => 8 <=? digit | None => false end in
  if negative then
    let magnitude := fst (u256_overflowing_add (u256_not value) 1) in
    SpecFloat.SFopp <$> Numbers.parse_f64 (u256_to_string magnitude)
  else Numbers.parse_f64 (u256_to_string value).
Definition scale_price (raw_value : f64) (decimals : Z) : option f64 :=
  if is_finite raw_value then
    let divisor := powi f64_ten decimals in
    if negb (is_finite divisor) || f64_eq divisor f64_zero then None
    else Some (f64_div raw_value divisor)
  else None.
(** [i64::try_from(_)] and [i32::try_from(_)] *)
Definition i64_of (z : Z) : option Z := in_range i64_min i64_max (Some z).
Definition i32_of (z : Z) : option Z := in_range (- 2 ^ 31) (2 ^ 31 - 1) (Some z).

(** ** Logs ([evm_log.rs]) *)

Definition payload_tx_hash (payload : Value) : option string :=
  or_else (get_str "transactionHash" payload) (get_str "tx_hash" payload).
Definition payload_block_number (payload : Value) : option Z :=
  parse_i64 (or_else (vget "blockNumber" payload) (vget "block_number" payload)).
Definition payload_log_index (payload : Value) : option Z :=
  parse_i64 (or_else (vget "logIndex" payload) (vget "log_index" payload)).
Definition payload_chain_id (payload : Value) : option Z :=
  parse_i64 (or_else (vget "chainId" payload) (vget "chain_id" payload)).
Definition payload_topic0 (payload : Value) : option string :=
  or_else (topics ← vget "topics" payload ≫= as_array; topics !! O ≫= as_str)
    (get_str "topic0" payload).

Definition evm_log_parse (input : ParserInput) (payload : Value) : outcome ParsedFeedEvent :=
  let payload_event_ts :=
    or_else (parse_ts_from_path payload (payload_ts_path input) (payload_ts_unit input))
      (parse_ts_from_path payload (Some "$.timestamp") "s") in
  let normalized := VObject
    (<["data" := default VNull (vget "data" payload)]>
      (<["topics" := default (VArray []) (vget "topics" payload)]>
        (<["address" := default VNull (vget "address" payload)]> ∅))) in
  Ret {| pf_event_type := in_event_type input;
         pf_event_id := source_event_id payload;
         pf_market_key := market_key_hint input;
         pf_asset_pair := asset_pair_hint input;
         pf_price := None;
         pf_chain_id := payload_chain_id payload;
         pf_block_number := payload_block_number payload;
         pf_tx_hash := payload_tx_hash payload;
         pf_log_index := payload_log_index payload;
         pf_topic0 := payload_topic0 payload;
         pf_payload_event_ts := payload_event_ts;
         pf_observed_at := observed_at payload_event_ts;
         pf_normalized_fields := normalized |}.
End helpers.
