(* ===== verification/TickerParsers.v ===== *)
(** * Parsers of the exchange tickers ([stream_parser/{binance,bybit,coinbase,
      kraken,okx,gate,gemini}*.rs])

    One definition per parser, composed of the shapes they share: a loop over
    the entries of a batch that fills the symbol and the price that are still
    missing and stops when both are known ([fill_missing]), and the event a
    ticker becomes ([ticker_event]). *)
From Stdlib Require Import Ascii.
From S2P Require Import Prelude F64 Text Numbers Ports FieldMapping Hex StreamParser.

(** [for entry in items { if a.is_none() { a = fa(entry) } if b.is_none() { b = fb(entry) }
    if a.is_some() && b.is_some() { break } }] *)
Fixpoint fill_missing {E A B} (fa : E -> option A) (fb : E -> option B) (items : list E)
    (a : option A) (b : option B) : option A * option B :=
  match items with
  | [] => (a, b)
  | entry :: items =>
      let a := or_else a (fa entry) in
      let b := or_else b (fb entry) in
      if is_some a && is_some b then (a, b) else fill_missing fa fb items a b
  end.

(** the nesting [serde_json] accepts when it parses a document *)
Definition recursion_limit : nat := 128.

Section tickers.
Context `{Chrono} `{SerdeJson} `{Powi} `{U256} `{HashOrder} (now : DateTime).
Implicit Types (input : ParserInput) (payload : Value).

Definition first_of (keys : list string) (v : Value) : option Value :=
  foldr (fun k rest => or_else (vget k v) rest) None keys.
Definition or_ts (payload : Value) (ts : option DateTime) (path unit : string) : option DateTime :=
  or_else ts (parse_ts_from_path payload (Some path) unit).
Definition config_ts (input : ParserInput) (payload : Value) : option DateTime :=
  parse_ts_from_path payload (payload_ts_path input) (payload_ts_unit input).

(** the event of a ticker for [symbol], with the fields of [normalized] *)
Definition ticker_event (input : ParserInput) (payload : Value) (symbol : string) (price : f64)
    (payload_event_ts : option DateTime) (normalized : list (string * Value)) : ParsedFeedEvent :=
  {| pf_event_type := in_event_type input;
     pf_event_id := source_event_id payload;
     pf_market_key := or_else (market_key_hint input) (symbol_to_market_key symbol);
     pf_asset_pair := Some symbol;
     pf_price := Some price;
     pf_chain_id := None; pf_block_number := None; pf_tx_hash := None; pf_log_index := None;
     pf_topic0 := None;
     pf_payload_event_ts := payload_event_ts;
     pf_observed_at := observed_at now payload_event_ts;
     pf_normalized_fields := VObj normalized |}.
Definition pair_fields (key symbol : string) (price : f64) : list (string * Value) :=
  [ (key, VString symbol); ("raw_price", VFloat price);
    ("quote_asset", VOpt VString (snd <$> split_symbol_pair symbol)) ].

Definition binance_parse (input : ParserInput) (payload : Value) : outcome ParsedFeedEvent :=
  symbol ← of_option "missing_binance_symbol"
    (or_else (first_of ["s"; "symbol"] payload ≫= as_str) (asset_pair_hint input));
  price ← of_option "missing_binance_price"
    (or_else (parse_f64 (vget "c" payload))
      (or_else (parse_f64 (vget "lastPrice" payload)) (parse_f64 (vget "price" payload))));
  let payload_event_ts :=
    or_ts payload (or_ts payload (config_ts input payload) "$.E" "ms") "$.closeTime" "ms" in
  Ret (ticker_event input payload symbol price payload_event_ts (pair_fields "symbol" symbol price)).

(** *** Bybit *)
Definition bybit_price (entry : Value) : option f64 :=
  parse_f64 (first_of ["lastPrice"; "last"] entry).
Definition bybit_data (payload : Value) (symbol : option string) (price : option f64)
  : option string * option f64 :=
  match vget "data" payload with
  | Some item =>
      if is_some (as_object item) then
        (or_else symbol (get_str "symbol" item), or_else price (bybit_price item))
      else match as_array item with
           | Some items => fill_missing (get_str "symbol") bybit_price items symbol price
           | None => (symbol, price)
           end
  | None => (symbol, price)
  end.
Definition bybit_result (payload : Value) (symbol : option string) (price : option f64)
  : option string * option f64 :=
  match result ← vget "result" payload; vget "list" result ≫= as_array with
  | Some items =>
      if is_some symbol && is_some price then (symbol, price)
      else fill_missing (get_str "symbol") bybit_price items symbol price
  | None => (symbol, price)
  end.
Definition bybit_parse (input : ParserInput) (payload : Value) : outcome ParsedFeedEvent :=
  let symbol := or_else (get_str "symbol" payload)
    (get_str "topic" payload ≫= extract_symbol_from_topic) in
  let '(symbol, price) := bybit_data payload symbol (bybit_price payload) in
  let '(symbol, price) := bybit_result payload symbol price in
  symbol ← of_option "missing_bybit_symbol" (or_else symbol (asset_pair_hint input));
  price ← of_option "missing_bybit_last_price" price;
  let payload_event_ts :=
    or_ts payload (or_ts payload (config_ts input payload) "$.ts" "ms") "$.time" "ms" in
  Ret (ticker_event input payload symbol price payload_event_ts (pair_fields "symbol" symbol price)).

(** *** Coinbase: the tickers of the events of a batch *)
Definition coinbase_price (ticker : Value) : option f64 :=
  parse_f64 (first_of ["price"; "last"] ticker).
Fixpoint coinbase_events (events : list Value) (product_id : option string) (price : option f64)
  : option string * option f64 :=
  match events with
  | [] => (product_id, price)
  | event :: events =>
      let '(product_id, price) :=
        match vget "tickers" event ≫= as_array with
        | Some tickers => fill_missing (get_str "product_id") coinbase_price tickers product_id price
        | None => (product_id, price)
        end in
      if is_some product_id && is_some price then (product_id, price)
      else coinbase_events events product_id price
  end.
Definition coinbase_parse (input : ParserInput) (payload : Value) : outcome ParsedFeedEvent :=
  let product_id := get_str "product_id" payload in
  let price := parse_f64 (vget "price" payload) in
  let '(product_id, price) :=
    match vget "events" payload ≫= as_array with
    | Some events =>
        if is_some product_id && is_some price then (product_id, price)
        else coinbase_events events product_id price
    | None => (product_id, price)
    end in
  product_id ← of_option "missing_coinbase_product_id" (or_else product_id (asset_pair_hint input));
  price ← of_option "missing_coinbase_price" price;
  let payload_event_ts :=
    or_ts payload (or_ts payload (config_ts input payload) "$.timestamp" "iso8601")
      "$.time" "iso8601" in
  Ret (ticker_event input payload product_id price payload_event_ts
         (pair_fields "product_id" product_id price)).

(** *** Kraken *)
(** the recursion of [extract_kraken_last], cut at [fuel] levels *)
Fixpoint extract_kraken_last (fuel : nat) (value : option Value) : option f64 :=
  match fuel with
  | O => None
  | S fuel =>
      raw ← value;
      match as_f64 raw with
      | Some number => Some number
      | None =>
          match as_str raw with
          | Some text => Numbers.parse_f64 text
          | None =>
              match vget "price" raw with
              | Some price => extract_kraken_last fuel (Some price)
              | None =>
                  match as_array raw with
                  | Some items => extract_kraken_last fuel (items !! O)
                  | None => None
                  end
              end
          end
      end
  end.
Definition kraken_last (value : option Value) : option f64 :=
  extract_kraken_last (S recursion_limit) value.
Definition kraken_data (payload : Value) (symbol : option string) (price : option f64)
  : option string * option f64 :=
  match vget "data" payload ≫= as_array with
  | Some items =>
      if is_some symbol && is_some price then (symbol, price)
      else fill_missing (get_str "symbol")
             (fun item => kraken_last (first_of ["last"; "last_price"; "price"] item))
             items symbol price
  | None => (symbol, price)
  end.
Definition kraken_result (payload : Value) (symbol : option string) (price : option f64)
  : option string * option f64 :=
  match vget "result" payload ≫= as_object with
  | Some result =>
      if is_some symbol && is_some price then (symbol, price)
      else fill_missing (fun entry => Some (fst entry))
             (fun entry => kraken_last (first_of ["last"; "c"; "last_price"; "price"] (snd entry)))
             (hash_entries result) symbol price
  | None => (symbol, price)
  end.
Definition kraken_parse (input : ParserInput) (payload : Value) : outcome ParsedFeedEvent :=
  let '(symbol, price) :=
    kraken_data payload (get_str "symbol" payload) (kraken_last (vget "last" payload)) in
  let '(symbol, price) := kraken_result payload symbol price in
  symbol ← of_option "missing_kraken_symbol" (or_else symbol (asset_pair_hint input));
  price ← of_option "missing_kraken_last" price;
  let payload_event_ts :=
    or_ts payload (or_ts payload (config_ts input payload) "$.time_in" "iso8601")
      "$.time_out" "iso8601" in
  Ret (ticker_event input payload symbol price payload_event_ts (pair_fields "symbol" symbol price)).

(** *** OKX: the loop also looks for the timestamp *)
Definition okx_price (item : Value) : option f64 := parse_f64 (first_of ["last"; "lastPrice"] item).
Fixpoint okx_items (items : list Value) (inst_id : option string) (price : option f64)
    (ts : option Value) : option string * option f64 * option Value :=
  match items with
  | [] => (inst_id, price, ts)
  | item :: items =>
      let inst_id := or_else inst_id (get_str "instId" item) in
      let price := or_else price (okx_price item) in
      let ts := or_else ts (vget "ts" item) in
      if is_some inst_id && is_some price then (inst_id, price, ts)
      else okx_items items inst_id price ts
  end.
Definition okx_parse (input : ParserInput) (payload : Value) : outcome ParsedFeedEvent :=
  let inst_id := get_str "instId" payload in
  let price := okx_price payload in
  let ts := vget "ts" payload in
  let '(inst_id, price, ts) :=
    match vget "data" payload ≫= as_array with
    | Some items =>
        if is_some inst_id && is_some price then (inst_id, price, ts)
        else okx_items items inst_id price ts
    | None => (inst_id, price, ts)
    end in
  inst_id ← of_option "missing_okx_inst_id" (or_else inst_id (asset_pair_hint input));
  price ← of_option "missing_okx_last" price;
  let payload_event_ts :=
    or_else (config_ts input payload) (value ← ts; parse_ts_value value "ms") in
  Ret (ticker_event input payload inst_id price payload_event_ts
         (pair_fields "inst_id" inst_id price)).

(** *** Gate.io *)
Definition normalise_gate_pair (pair : string) : string :=
  to_ascii_uppercase
    (map_string (fun c => if bool_decide (c = "_"%char) then "/"%char else c) pair).
(** the two parts of [splitn(2, '/')], both non-empty *)
Definition split_gate_pair (pair : string) : option (string * string) :=
  '(base, quote) ← split_once "/" (normalise_gate_pair pair);
  if is_empty base || is_empty quote then None else Some (base, quote).
Definition gate_ticker (payload : Value) : Value :=
  match vget "result" payload with
  | Some result =>
      if is_some (as_object result) then result
      else default payload (a ← as_array result; a !! O)
  | None => payload
  end.
Definition gate_parse (input : ParserInput) (payload : Value) : outcome ParsedFeedEvent :=
  let ticker := gate_ticker payload in
  raw_pair ← of_option "missing_gate_currency_pair"
    (or_else (get_str "currency_pair" ticker)
      (or_else (get_str "s" payload) (asset_pair_hint input)));
  price ← of_option "missing_gate_last_price"
    (or_else (parse_f64 (vget "last" ticker))
      (or_else (parse_f64 (vget "close" ticker)) (parse_f64 (vget "lastPrice" ticker))));
  let symbol := normalise_gate_pair raw_pair in
  '(base, quote) ← of_option ("unparseable_gate_pair:" +:+ raw_pair) (split_gate_pair raw_pair);
  let payload_event_ts :=
    or_ts payload (or_ts payload (config_ts input payload) "$.time_ms" "ms") "$.time" "s" in
  Ret (ticker_event input payload symbol price payload_event_ts
         [ ("decoded_by", VString "gate_ticker_v4"); ("symbol", VString symbol);
           ("raw_pair", VString raw_pair); ("raw_price", VFloat price);
           ("base_asset", VString base); ("quote_asset", VString quote) ]).

(** *** Gemini: the loop looks for the price and the timestamp *)
Definition gemini_price (event : Value) : option f64 :=
  parse_f64 (first_of ["price"; "last"; "last_price"] event).
Definition gemini_event_ts (input : ParserInput) (payload : Value) (event_ts : option Value)
  : option DateTime :=
  let payload_event_ts :=
    or_else (config_ts input payload)
      (value ← event_ts; or_else (parse_ts_value value "ms") (parse_ts_value value "s")) in
  or_else payload_event_ts
    (volume ← vget "volume" payload; value ← vget "timestamp" volume; parse_ts_value value "ms").
Definition gemini_parse (input : ParserInput) (payload : Value) : outcome ParsedFeedEvent :=
  symbol ← of_option "missing_gemini_symbol"
    (or_else (get_str "symbol" payload) (asset_pair_hint input));
  let price := gemini_price payload in
  let event_ts := vget "timestampms" payload in
  let '(price, event_ts) :=
    match vget "events" payload ≫= as_array with
    | Some events =>
        fill_missing gemini_price (first_of ["timestampms"; "timestamp"]) events price event_ts
    | None => (price, event_ts)
    end in
  price ← of_option "missing_gemini_price" price;
  Ret (ticker_event input payload symbol price (gemini_event_ts input payload event_ts)
         (pair_fields "symbol" symbol price)).
End tickers.
