(* ===== verification/ChainParsers.v ===== *)
(** * Parsers of oracle logs and swaps ([stream_parser/{chainlink_*,uniswap_*,aerodrome_*}.rs])

    Chainlink answers and data streams, Uniswap swaps with and without a price,
    and Aerodrome, which re-labels one of the two swap parsers. *)
From Stdlib Require Import Ascii.
From S2P Require Import Prelude F64 Text Numbers Ports FieldMapping Hex StreamParser TickerParsers.

Section chain.
Context `{Chrono} `{SerdeJson} `{Powi} `{U256} `{HashOrder} (now : DateTime).
Implicit Types (input : ParserInput) (payload : Value).

(** the hint, else the text under [key] of the configuration *)
Definition config_str (input : ParserInput) (key : string) : option string :=
  get_str key (filter_config input).

(** ** Chainlink ([chainlink_answer_updated.rs]) *)
Definition as_i32 (value : option Value) : option Z := raw ← value; z ← as_i64 raw; i32_of z.
Definition decoded_field (payload : Value) (key : string) : option Value :=
  decoded ← vget "decoded_json" payload; vget key decoded.
Definition parse_rfc3339_ts (value : option Value) : option DateTime :=
  raw ← value; s ← as_str raw; parse_from_rfc3339 s.
Definition topic_at (payload : Value) (i : nat) : option string :=
  topics ← vget "topics" payload ≫= as_array; topic ← topics !! i; as_str topic.
Definition data_words (payload : Value) : list string :=
  match get_str "data" payload with Some data => decode_hex_words data | None => [] end.

Definition raw_answer (payload : Value) : option f64 :=
  or_else (topic_at payload 1 ≫= parse_i256_word_to_f64)
    (or_else (data_words payload !! O ≫= parse_i256_word_to_f64)
      (decoded_field payload "raw_answer" ≫= as_f64)).
Definition round_id (payload : Value) : option f64 :=
  or_else (topic_at payload 2 ≫= parse_u256_word_to_f64)
    (or_else (data_words payload !! 1%nat ≫= parse_u256_word_to_f64)
      (decoded_field payload "round_id" ≫= as_f64)).
Definition updated_at (payload : Value) : option DateTime :=
  let updated_at_seconds :=
    or_else (parse_i64 (vget "updatedAt" payload))
      (word ← last (data_words payload); value ← parse_u256_word_to_f64 word;
       i64_of (as_i128_cast value)) in
  or_else (updated_at_seconds ≫= timestamp_opt)
    (parse_rfc3339_ts (decoded_field payload "updated_at")).
Definition answer_decimals (input : ParserInput) (payload : Value) : Z :=
  default 8
    (or_else (as_i32 (vget "decimals" (filter_config input)))
      (or_else (as_i32 (vget "price_decimals" (filter_config input)))
        (as_i32 (decoded_field payload "price_decimals")))).

Definition chainlink_answer_updated_parse (input : ParserInput) (payload : Value)
  : outcome ParsedFeedEvent :=
  parsed ← evm_log_parse now input payload;
  let decimals := answer_decimals input payload in
  let price :=
    or_else (raw ← raw_answer payload; scale_price raw decimals)
      (or_else (decoded_field payload "oracle_price" ≫= as_f64)
        (decoded_field payload "normalized_price_usd" ≫= as_f64)) in
  let payload_event_ts := or_else (pf_payload_event_ts parsed) (updated_at payload) in
  Ret {| pf_event_type := in_event_type input;
         pf_event_id := pf_event_id parsed;
         pf_market_key := or_else (market_key_hint input) (config_str input "market_key");
         pf_asset_pair := or_else (pf_asset_pair parsed)
           (or_else (asset_pair_hint input) (config_str input "asset_pair"));
         pf_price := price;
         pf_chain_id := pf_chain_id parsed;
         pf_block_number := pf_block_number parsed;
         pf_tx_hash := pf_tx_hash parsed;
         pf_log_index := pf_log_index parsed;
         pf_topic0 := pf_topic0 parsed;
         pf_payload_event_ts := payload_event_ts;
         pf_observed_at := observed_at now payload_event_ts;
         pf_normalized_fields := VObj
           [ ("decoded_by", VString "chainlink_answer_updated_v1");
             ("raw_answer", VOpt VFloat (raw_answer payload));
             ("price_decimals", VInt decimals);
             ("round_id", VOpt VFloat (round_id payload));
             ("updated_at", VOpt (fun ts => VString (to_rfc3339 ts)) (updated_at payload));
             ("quote_asset", VString "USD") ] |}.

(** ** Chainlink data streams ([chainlink_data_streams_v3.rs]) *)
Definition streams_decimals (input : ParserInput) (payload : Value) : Z :=
  default 8 (or_else (as_i32 (vget "price_decimals" (filter_config input)))
              (as_i32 (vget "price_decimals" payload))).
Definition seconds_at (key : string) (payload : Value) : option DateTime :=
  parse_i64 (vget key payload) ≫= timestamp_opt.
Definition chainlink_data_streams_parse (input : ParserInput) (payload : Value)
  : outcome ParsedFeedEvent :=
  let decimals := streams_decimals input payload in
  raw_benchmark_price ← of_option "chainlink_data_streams_v3 missing benchmark_price"
    (or_else (parse_f64 (vget "benchmark_price" payload)) (parse_f64 (vget "price" payload)));
  price ← of_option "chainlink_data_streams_v3 failed to scale benchmark_price"
    (scale_price raw_benchmark_price decimals);
  let bid := raw ← parse_f64 (vget "bid" payload); scale_price raw decimals in
  let ask := raw ← parse_f64 (vget "ask" payload); scale_price raw decimals in
  let payload_event_ts := seconds_at "observations_timestamp" payload in
  let valid_from_ts := seconds_at "valid_from_timestamp" payload in
  let feed_id := get_str "feed_id" payload in
  let event_id :=
    or_else (id ← feed_id; ts ← parse_i64 (vget "observations_timestamp" payload);
             Some (id +:+ ":" +:+ fmt_Z ts)) feed_id in
  Ret {| pf_event_type := in_event_type input;
         pf_event_id := event_id;
         pf_market_key := or_else (get_str "market_key" payload) (market_key_hint input);
         pf_asset_pair := or_else (get_str "asset_pair" payload) (asset_pair_hint input);
         pf_price := Some price;
         pf_chain_id := None; pf_block_number := None; pf_tx_hash := None; pf_log_index := None;
         pf_topic0 := None;
         pf_payload_event_ts := payload_event_ts;
         pf_observed_at := observed_at now payload_event_ts;
         pf_normalized_fields := VObj
           [ ("decoded_by", VString "chainlink_data_streams_v3");
             ("feed_id", VOpt VString feed_id);
             ("valid_from_timestamp", VOpt (fun ts => VString (to_rfc3339 ts)) valid_from_ts);
             ("observations_timestamp", VOpt (fun ts => VString (to_rfc3339 ts)) payload_event_ts);
             ("price_decimals", VInt decimals);
             ("benchmark_price_raw", VFloat raw_benchmark_price);
             ("bid_price_usd", VOpt VFloat bid);
             ("ask_price_usd", VOpt VFloat ask);
             ("quote_asset", VString "USD") ] |}.

(** ** Swaps *)

(** *** [uniswap_v2_swap.rs]: the amounts as text *)
Definition swap_amount (text : string) : string :=
  match u128_from_hex text with
  | Some amount => fmt_Z amount
  | None => "0x" +:+ text
  end.
Definition parse_swap_amounts (data_hex : option string) : Value :=
  match data_hex ≫= strip_prefix "0x" with
  | None => VArray []
  | Some body =>
      if (String.length body <? 64)%nat then VArray []
      else VArray ((fun text => VString (swap_amount text))
                     <$> filter (fun text => utf8_valid text = true) (take 4 (chunks 64 body)))
  end.
Definition with_fields (f : Value -> Value) (p : ParsedFeedEvent) : ParsedFeedEvent :=
  {| pf_event_type := pf_event_type p; pf_event_id := pf_event_id p;
     pf_market_key := pf_market_key p; pf_asset_pair := pf_asset_pair p; pf_price := pf_price p;
     pf_chain_id := pf_chain_id p; pf_block_number := pf_block_number p;
     pf_tx_hash := pf_tx_hash p; pf_log_index := pf_log_index p; pf_topic0 := pf_topic0 p;
     pf_payload_event_ts := pf_payload_event_ts p; pf_observed_at := pf_observed_at p;
     pf_normalized_fields := f (pf_normalized_fields p) |}.
Definition uniswap_v2_swap_parse (input : ParserInput) (payload : Value)
  : outcome ParsedFeedEvent :=
  parsed ← evm_log_parse now input payload;
  Ret (with_fields (fun fields =>
         VObject (<["decoded_by" := VString "uniswap_v2_swap_v1"]>
           (<["swap_amounts" := parse_swap_amounts (get_str "data" payload)]>
             (default ∅ (as_object fields))))) parsed).

(** *** Prices of swaps: what the two parsers share *)
Definition read_string (config : Value) (key default_value : string) : string :=
  default default_value (trimmed_nonempty (get_str key config)).
Definition read_i32 (config : Value) (key : string) (default_value : Z) : Z :=
  default default_value (as_i32 (vget key config)).
Record PoolConfig := {
  token0_symbol : string; token1_symbol : string; base_symbol : string;
  token0_decimals : Z; token1_decimals : Z
}.
Definition pool_config (config : Value) : PoolConfig :=
  let token0 := to_ascii_uppercase (read_string config "token0_symbol" "TOKEN0") in
  let token1 := to_ascii_uppercase (read_string config "token1_symbol" "TOKEN1") in
  {| token0_symbol := token0; token1_symbol := token1;
     base_symbol := to_ascii_uppercase (read_string config "base_symbol" token0);
     token0_decimals := read_i32 config "token0_decimals" 18;
     token1_decimals := read_i32 config "token1_decimals" 18 |}.
Definition f64_one : f64 := f64_of_Z 1.
(** the price in the quote asset, inverted when the base is token 1 *)
Definition quoted_price (pool : PoolConfig) (token0_price_in_token1 : f64) : f64 * string :=
  if bool_decide (base_symbol pool = token0_symbol pool) then
    (token0_price_in_token1, token1_symbol pool)
  else if bool_decide (base_symbol pool = token1_symbol pool) then
    (f64_div f64_one token0_price_in_token1, token0_symbol pool)
  else (token0_price_in_token1, token1_symbol pool).
(** the log event with its price, key, pair and fields *)
Definition swap_event (input : ParserInput) (pool : PoolConfig) (raw_price : f64)
    (quote_asset : string) (fields : list (string * Value)) (parsed : ParsedFeedEvent)
  : ParsedFeedEvent :=
  {| pf_event_type := in_event_type input; pf_event_id := pf_event_id parsed;
     pf_market_key := or_else (market_key_hint input)
       (Some (market_key_of (base_symbol pool) quote_asset));
     pf_asset_pair := or_else (pf_asset_pair parsed)
       (or_else (asset_pair_hint input) (Some (token0_symbol pool +:+ token1_symbol pool)));
     pf_price := Some raw_price;
     pf_chain_id := pf_chain_id parsed; pf_block_number := pf_block_number parsed;
     pf_tx_hash := pf_tx_hash parsed; pf_log_index := pf_log_index parsed;
     pf_topic0 := pf_topic0 parsed;
     pf_payload_event_ts := pf_payload_event_ts parsed; pf_observed_at := pf_observed_at parsed;
     pf_normalized_fields := VObj fields |}.
Definition pool_fields (decoded_by : string) (pool : PoolConfig) (quote_asset : string)
    (raw_price : f64) (amounts : list (string * Value)) : list (string * Value) :=
  [ ("decoded_by", VString decoded_by); ("token0_symbol", VString (token0_symbol pool));
    ("token1_symbol", VString (token1_symbol pool)); ("base_symbol", VString (base_symbol pool));
    ("quote_asset", VString quote_asset); ("raw_price", VFloat raw_price) ] ++ amounts ++
  [ ("token0_decimals", VInt (token0_decimals pool));
    ("token1_decimals", VInt (token1_decimals pool)) ].

(** *** [uniswap_v2_swap_price.rs] *)
Definition scale_amount (raw : f64) (decimals : Z) : option f64 := scale_price raw decimals.
Definition v2_price (amount0_in amount1_in amount0_out amount1_out : f64) : option f64 :=
  let pos := f64_lt f64_zero in
  let price :=
    if pos amount0_in && pos amount1_out then Some (f64_div amount1_out amount0_in)
    else if pos amount1_in && pos amount0_out then Some (f64_div amount1_in amount0_out)
    else
      let token0_total := f64_add amount0_in amount0_out in
      let token1_total := f64_add amount1_in amount1_out in
      if pos token0_total && pos token1_total then Some (f64_div token1_total token0_total)
      else None in
  price ≫= positive_finite.
Definition word_amount (words : list string) (i : nat) (err : string) : outcome f64 :=
  of_option err (words !! i ≫= parse_u256_word_to_f64).
Definition uniswap_v2_swap_price_parse (input : ParserInput) (payload : Value)
  : outcome ParsedFeedEvent :=
  parsed ← evm_log_parse now input payload;
  data_hex ← of_option "missing_uniswap_v2_swap_data" (get_str "data" payload);
  let words := decode_hex_words data_hex in
  if (length words <? 4)%nat then Err "invalid_uniswap_v2_swap_data" else
  amount0_in_raw ← word_amount words 0 "invalid_amount0_in";
  amount1_in_raw ← word_amount words 1 "invalid_amount1_in";
  amount0_out_raw ← word_amount words 2 "invalid_amount0_out";
  amount1_out_raw ← word_amount words 3 "invalid_amount1_out";
  let pool := pool_config (filter_config input) in
  amount0_in ← of_option "invalid_scaled_amount0_in"
    (scale_amount amount0_in_raw (token0_decimals pool));
  amount1_in ← of_option "invalid_scaled_amount1_in"
    (scale_amount amount1_in_raw (token1_decimals pool));
  amount0_out ← of_option "invalid_scaled_amount0_out"
    (scale_amount amount0_out_raw (token0_decimals pool));
  amount1_out ← of_option "invalid_scaled_amount1_out"
    (scale_amount amount1_out_raw (token1_decimals pool));
  token0_price_in_token1 ← of_option "unable_to_derive_uniswap_v2_price"
    (v2_price amount0_in amount1_in amount0_out amount1_out);
  let '(raw_price, quote_asset) := quoted_price pool token0_price_in_token1 in
  Ret (swap_event input pool raw_price quote_asset
         (pool_fields "uniswap_v2_swap_price_v1" pool quote_asset raw_price
            [ ("amount0_in", VFloat amount0_in); ("amount1_in", VFloat amount1_in);
              ("amount0_out", VFloat amount0_out); ("amount1_out", VFloat amount1_out) ]) parsed).

(** *** [uniswap_v3_swap_price.rs] *)
Definition derive_price_from_sqrt (sqrt_price_x96 : f64) (decimals0 decimals1 : Z) : option f64 :=
  sqrt_price_x96 ← positive_finite sqrt_price_x96;
  ratio_x192 ← positive_finite (f64_mul sqrt_price_x96 sqrt_price_x96);
  q192 ← positive_finite (powi (f64_of_Z 2) 192);
  let decimal_adjustment := powi f64_ten (wrap_i32 (decimals0 - decimals1)) in
  positive_finite (f64_mul (f64_div ratio_x192 q192) decimal_adjustment).
Definition v3_price (pool : PoolConfig) (amount0 amount1 sqrt_price_x96 : f64) : option f64 :=
  or_else (derive_price_from_sqrt sqrt_price_x96 (token0_decimals pool) (token1_decimals pool))
    (let abs0 := f64_div (f64_abs amount0) (powi f64_ten (token0_decimals pool)) in
     let abs1 := f64_div (f64_abs amount1) (powi f64_ten (token1_decimals pool)) in
     if f64_lt f64_zero abs0 && f64_lt f64_zero abs1 then Some (f64_div abs1 abs0) else None)
  ≫= positive_finite.
Definition uniswap_v3_swap_price_parse (input : ParserInput) (payload : Value)
  : outcome ParsedFeedEvent :=
  parsed ← evm_log_parse now input payload;
  data_hex ← of_option "missing_uniswap_v3_swap_data" (get_str "data" payload);
  let words := decode_hex_words data_hex in
  if (length words <? 3)%nat then Err "invalid_uniswap_v3_swap_data" else
  let pool := pool_config (filter_config input) in
  let amount0 := default f64_zero (words !! O ≫= parse_i256_word_to_f64) in
  let amount1 := default f64_zero (words !! 1%nat ≫= parse_i256_word_to_f64) in
  let sqrt_price_x96 := default f64_zero (words !! 2%nat ≫= parse_u256_word_to_f64) in
  token0_price_in_token1 ← of_option "unable_to_derive_uniswap_v3_price"
    (v3_price pool amount0 amount1 sqrt_price_x96);
  let '(raw_price, quote_asset) := quoted_price pool token0_price_in_token1 in
  Ret (swap_event input pool raw_price quote_asset
         (pool_fields "uniswap_v3_swap_price_v1" pool quote_asset raw_price
            [ ("amount0", VFloat amount0); ("amount1", VFloat amount1);
              ("sqrt_price_x96", VFloat sqrt_price_x96) ]) parsed).

(** *** [aerodrome_swap_price.rs] *)
Definition aerodrome_parse (input : ParserInput) (payload : Value) : outcome ParsedFeedEvent :=
  let pool_type := match config_str input "pool_type" with
                   | Some t => to_ascii_lowercase t
                   | None => "cl"
                   end in
  parsed ←
    (if bool_decide (pool_type ∈ ["basic"; "stable"; "volatile"]) then
       map_err (fun e => "aerodrome_basic_pool:" +:+ e) (uniswap_v2_swap_price_parse input payload)
     else map_err (fun e => "aerodrome_cl_pool:" +:+ e) (uniswap_v3_swap_price_parse input payload));
  Ret (with_fields (fun fields =>
         match as_object fields with
         | Some obj => VObject (<["chain" := VString "base"]>
             (<["pool_type" := VString pool_type]>
               (<["decoded_by" := VString "aerodrome_swap_price_v1"]> obj)))
         | None => fields
         end) parsed).
End chain.
