(* ===== verification/ProtocolParsers.v ===== *)
(** * Protocol metrics, Pyth updates and the dispatch ([stream_parser/{protocol_*,
      pyth_hermes_v2,mod}.rs])

    The parsers of the TVL, utilization and pause metrics, the two shapes of a
    Pyth update (a log and a Hermes feed), and [parse_payload], which selects
    the parser by its name. *)
From Stdlib Require Import Ascii.
From S2P Require Import Prelude F64 Text Numbers Ports FieldMapping Hex StreamParser TickerParsers ChainParsers.

Section protocol.
Context `{Chrono} `{SerdeJson} `{Powi} `{U256} `{HashOrder} (now : DateTime).
Implicit Types (input : ParserInput) (payload : Value).

(** ** Protocol metrics: what the three parsers share *)
Definition chain_slug_from_chain_id (chain_id : option Z) : option string :=
  match chain_id with
  | Some 1 => Some "ethereum"
  | Some 42161 => Some "arbitrum"
  | Some 10 => Some "optimism"
  | Some 8453 => Some "base"
  | Some 137 => Some "polygon"
  | Some 43114 => Some "avalanche"
  | Some 56 => Some "bsc"
  | _ => None
  end.
Definition value_to_f64 (value : Value) : option f64 :=
  match as_f64 value with
  | Some number => Some number
  | None => text ← as_str value; Numbers.parse_f64 (trim text)
  end.
Definition parse_i32 (s : string) : option Z := Numbers.parse_i64 s ≫= i32_of.
Definition value_to_i32 (value : Value) : option Z :=
  match as_i64 value with
  | Some number => i32_of number
  | None => text ← as_str value; parse_i32 (trim text)
  end.
Definition value_to_bool (value : Value) : option bool :=
  match as_bool value with
  | Some v => Some v
  | None =>
      match as_i64 value with
      | Some number => Some (negb (number =? 0))
      | None =>
          text ← as_str value;
          let normalized := to_ascii_lowercase (trim text) in
          if bool_decide (normalized ∈ ["true"; "1"; "paused"]) then Some true
          else if bool_decide (normalized ∈ ["false"; "0"; "unpaused"]) then Some false
          else None
      end
  end.
Definition protocol_id_of (payload : Value) : outcome string :=
  id ← of_option "missing_protocol_id"
    (trimmed_nonempty (first_of ["protocol_id"; "protocol"] payload ≫= as_str));
  Ret (to_ascii_lowercase id).
Definition chain_slug_of (payload : Value) : string :=
  default "unknown"
    (or_else (to_ascii_lowercase <$> trimmed_nonempty (get_str "chain_slug" payload))
      (chain_slug_from_chain_id (payload_chain_id payload))).
Definition market_id_of (payload : Value) : option string :=
  value ← trimmed_nonempty (get_str "market_id" payload);
  if eq_ignore_ascii_case value "all" then None else Some (to_ascii_lowercase value).
Definition metric_ts (input : ParserInput) (payload : Value) : option DateTime :=
  or_ts payload (config_ts input payload) "$.timestamp" "ms".
Definition metric_event (input : ParserInput) (payload : Value) (event_type : string)
    (fields : list (string * Value)) : ParsedFeedEvent :=
  let payload_event_ts := metric_ts input payload in
  {| pf_event_type := event_type;
     pf_event_id := source_event_id payload;
     pf_market_key := market_key_hint input;
     pf_asset_pair := asset_pair_hint input;
     pf_price := None;
     pf_chain_id := payload_chain_id payload;
     pf_block_number := parse_i64 (first_of ["block_number"; "blockNumber"] payload);
     pf_tx_hash := first_of ["tx_hash"; "transactionHash"] payload ≫= as_str;
     pf_log_index := parse_i64 (first_of ["log_index"; "logIndex"] payload);
     pf_topic0 := get_str "topic0" payload;
     pf_payload_event_ts := payload_event_ts;
     pf_observed_at := observed_at now payload_event_ts;
     pf_normalized_fields := VObj fields |}.
Definition payload_event_type (input : ParserInput) (payload : Value) : string :=
  default (in_event_type input) (trimmed_nonempty (get_str "event_type" payload)).

(** *** [protocol_tvl.rs] *)
Definition scale_by_decimals (raw : f64) (decimals : Z) : option f64 :=
  if is_finite raw then
    let divisor := powi f64_ten (Z.max decimals 0) in
    if negb (is_finite divisor) || f64_le divisor f64_zero then None
    else Some (f64_div raw divisor)
  else None.
Definition protocol_tvl_parse (input : ParserInput) (payload : Value) : outcome ParsedFeedEvent :=
  protocol_id ← protocol_id_of payload;
  let decimals := default 18 (first_of ["decimals"; "tvl_decimals"] payload ≫= value_to_i32) in
  let price_usd := v ← vget "price_usd" payload; x ← value_to_f64 v; positive_finite x in
  let tvl_raw := vget "tvl_raw" payload ≫= value_to_f64 in
  let tvl_native :=
    or_else (vget "tvl_native" payload ≫= value_to_f64)
      (raw ← tvl_raw; scale_by_decimals raw decimals) in
  tvl_usd ← of_option "missing_tvl_usd"
    (or_else (vget "tvl_usd" payload ≫= value_to_f64)
      (native ← tvl_native; price ← price_usd; Some (f64_mul native price)) ≫= positive_finite);
  Ret (metric_event input payload (payload_event_type input payload)
         [ ("metric", VString "tvl"); ("protocol_id", VString protocol_id);
           ("chain_slug", VString (chain_slug_of payload));
           ("market_id", VOpt VString (market_id_of payload));
           ("tvl_usd", VFloat tvl_usd); ("tvl_native", VOpt VFloat tvl_native);
           ("tvl_raw", VOpt VFloat tvl_raw); ("price_usd", VOpt VFloat price_usd);
           ("decimals", VInt decimals); ("quote_asset", VString "USD") ]).

(** *** [protocol_utilization.rs] *)
Definition as_percent (raw_utilization : f64) : f64 :=
  if f64_le raw_utilization f64_one then f64_mul raw_utilization (f64_of_Z 100)
  else raw_utilization.
Definition protocol_utilization_parse (input : ParserInput) (payload : Value)
  : outcome ParsedFeedEvent :=
  protocol_id ← protocol_id_of payload;
  raw_utilization ← of_option "missing_utilization"
    (first_of ["utilization"; "current_utilization"] payload ≫= value_to_f64);
  let utilization := as_percent raw_utilization in
  let number keys := VOpt VFloat (first_of keys payload ≫= value_to_f64) in
  Ret (metric_event input payload (payload_event_type input payload)
         [ ("metric", VString "utilization"); ("protocol_id", VString protocol_id);
           ("chain_slug", VString (chain_slug_of payload));
           ("market_id", VOpt VString (market_id_of payload));
           ("utilization_pct", VFloat utilization); ("utilization", VFloat utilization);
           ("tvl_usd", number ["tvl_usd"]);
           ("total_supplied_tokens", number ["total_supplied_tokens"; "total_supplied"]);
           ("total_borrowed_tokens", number ["total_borrowed_tokens"; "total_borrowed"]) ]).

(** *** [protocol_pause.rs] *)
Definition pause_event_type (input : ParserInput) (paused : bool) : string :=
  let configured := in_event_type input in
  if bool_decide (configured = "protocol_pause") && negb paused then "protocol_unpause"
  else if bool_decide (configured = "protocol_unpause") && paused then "protocol_pause"
  else if is_empty (trim configured) then
    if paused then "protocol_pause" else "protocol_unpause"
  else configured.
Definition protocol_pause_parse (input : ParserInput) (payload : Value)
  : outcome ParsedFeedEvent :=
  protocol_id ← protocol_id_of payload;
  paused ← of_option "missing_pause_state"
    (first_of ["paused"; "is_paused"] payload ≫= value_to_bool);
  let event_type :=
    default (pause_event_type input paused) (trimmed_nonempty (get_str "event_type" payload)) in
  Ret (metric_event input payload event_type
         [ ("metric", VString "pause"); ("protocol_id", VString protocol_id);
           ("chain_slug", VString (chain_slug_of payload));
           ("market_id", VOpt (fun m => VString (to_ascii_lowercase m)) (get_str "market_id" payload));
           ("paused", VBool paused) ]).

(** ** Pyth ([pyth_hermes_v2.rs]) *)
Definition decode_pyth_price (obj : Value) : option f64 :=
  mantissa_str ← get_str "price" obj;
  mantissa ← Numbers.parse_f64 mantissa_str;
  expo ← as_i32 (vget "expo" obj);
  positive_finite (f64_mul mantissa (powi f64_ten expo)).
Definition decode_pyth_ts (obj : Value) : option DateTime :=
  secs ← vget "publish_time" obj ≫= as_i64; timestamp_opt secs.
Record PythLog := {
  pl_feed_id : option string; pl_price : f64; pl_conf_usd : option f64; pl_expo : Z;
  pl_publish_time : option DateTime
}.
Definition finite (x : f64) : option f64 := if is_finite x then Some x else None.
Definition decode_pyth_log (payload : Value) : option PythLog :=
  topics ← vget "topics" payload ≫= as_array;
  data_hex ← get_str "data" payload;
  let words := decode_hex_words data_hex in
  if (length words <? 4)%nat then None else
  price_mantissa ← words !! O ≫= parse_i256_word_to_f64;
  let conf_mantissa := words !! 1%nat ≫= parse_u256_word_to_f64 in
  let expo := default (-8)
    (value ← words !! 2%nat ≫= parse_i256_word_to_f64; i32_of (as_i64_cast value)) in
  let publish_time :=
    value ← words !! 3%nat ≫= parse_u256_word_to_f64; timestamp_opt (as_i64_cast value) in
  let scale := powi f64_ten expo in
  if negb (is_finite scale) then None else
  price ← positive_finite (f64_mul price_mantissa scale);
  Some {| pl_feed_id := topics !! 1%nat ≫= as_str; pl_price := price;
          pl_conf_usd := value ← conf_mantissa; finite (f64_mul value scale);
          pl_expo := expo; pl_publish_time := publish_time |}.
Definition pyth_log_event_id (payload : Value) : option string :=
  tx_hash ← trimmed_nonempty (payload_tx_hash payload);
  Some (match payload_log_index payload with
        | Some index => tx_hash +:+ ":" +:+ fmt_Z index
        | None => tx_hash
        end).
(** [DateTime::timestamp] *)
Definition timestamp (t : DateTime) : Z := ns t / 1000000000.
Definition pyth_slot (feed : Value) : option Z :=
  metadata ← vget "metadata" feed; vget "slot" metadata ≫= as_i64.
Definition pyth_stream_event_id (feed : Value) (feed_id : option string)
    (payload_event_ts : option DateTime) : option string :=
  feed_id ← trimmed_nonempty feed_id;
  match pyth_slot feed with
  | Some slot => Some (feed_id +:+ ":" +:+ fmt_Z slot)
  | None => (fun ts => feed_id +:+ ":" +:+ fmt_Z (timestamp ts)) <$> payload_event_ts
  end.
(** [s.split('.').next_back()], in upper case *)
Definition pyth_pair (raw_symbol : string) : string :=
  to_ascii_uppercase (default raw_symbol (last (split_on "." raw_symbol))).
Definition market_key_from_pyth_symbol (raw_symbol : string) : string :=
  match split_once "/" (pyth_pair raw_symbol) with
  | Some (base, quote) => market_key_of base quote
  | None => pyth_pair raw_symbol
  end.
Definition pyth_log_event (input : ParserInput) (payload : Value) (log : PythLog)
  : ParsedFeedEvent :=
  {| pf_event_type := in_event_type input;
     pf_event_id := or_else (pyth_log_event_id payload) (source_event_id payload);
     pf_market_key := market_key_hint input; pf_asset_pair := asset_pair_hint input;
     pf_price := Some (pl_price log);
     pf_chain_id := payload_chain_id payload; pf_block_number := payload_block_number payload;
     pf_tx_hash := payload_tx_hash payload; pf_log_index := payload_log_index payload;
     pf_topic0 := payload_topic0 payload;
     pf_payload_event_ts := pl_publish_time log;
     pf_observed_at := observed_at now (pl_publish_time log);
     pf_normalized_fields := VObj
       [ ("decoded_by", VString "pyth_hermes_v2"); ("feed_id", VOpt VString (pl_feed_id log));
         ("price_type", VString "spot"); ("ema_price_usd", VNull);
         ("spot_price_usd", VFloat (pl_price log)); ("conf_usd", VOpt VFloat (pl_conf_usd log));
         ("expo", VInt (pl_expo log)) ] |}.

Definition pyth_feed (payload : Value) : Value :=
  match vget "price_feed" payload with
  | Some v => if is_some (as_object v) then v else payload
  | None => payload
  end.
Definition use_spot_price (input : ParserInput) : bool :=
  default false (get_bool "use_spot_price" (filter_config input)).
Definition pyth_price_object (input : ParserInput) (feed : Value) : option Value :=
  if use_spot_price input then first_of ["price"; "ema_price"] feed
  else first_of ["ema_price"; "price"] feed.
Definition pyth_feed_parse (input : ParserInput) (payload : Value) : outcome ParsedFeedEvent :=
  let feed := pyth_feed payload in
  price_obj ← of_option "missing_pyth_price_object" (pyth_price_object input feed);
  price ← of_option "invalid_pyth_price_mantissa_or_expo" (decode_pyth_price price_obj);
  let expo := default (-8) (as_i32 (vget "expo" price_obj)) in
  let conf_usd :=
    c ← get_str "conf" price_obj ≫= Numbers.parse_f64; finite (f64_mul c (powi f64_ten expo)) in
  let payload_event_ts := or_else (decode_pyth_ts price_obj) (decode_pyth_ts feed) in
  let raw_symbol :=
    or_else (metadata ← vget "metadata" feed; get_str "symbol" metadata) (get_str "symbol" feed) in
  let feed_id := get_str "id" feed in
  Ret {| pf_event_type := in_event_type input;
         pf_event_id := or_else (pyth_stream_event_id feed feed_id payload_event_ts) feed_id;
         pf_market_key := or_else (market_key_hint input) (market_key_from_pyth_symbol <$> raw_symbol);
         pf_asset_pair := or_else (asset_pair_hint input) (pyth_pair <$> raw_symbol);
         pf_price := Some price;
         pf_chain_id := None; pf_block_number := None; pf_tx_hash := None; pf_log_index := None;
         pf_topic0 := None;
         pf_payload_event_ts := payload_event_ts;
         pf_observed_at := observed_at now payload_event_ts;
         pf_normalized_fields := VObj
           [ ("decoded_by", VString "pyth_hermes_v2"); ("feed_id", VOpt VString feed_id);
             ("slot", VOpt VInt (pyth_slot feed)); ("raw_symbol", VOpt VString raw_symbol);
             ("price_type", VString (if use_spot_price input then "spot" else "ema"));
             ("ema_price_usd", VOpt VFloat (vget "ema_price" feed ≫= decode_pyth_price));
             ("spot_price_usd", VOpt VFloat (vget "price" feed ≫= decode_pyth_price));
             ("conf_usd", VOpt VFloat conf_usd); ("expo", VInt expo) ] |}.
Definition pyth_parse (input : ParserInput) (payload : Value) : outcome ParsedFeedEvent :=
  match decode_pyth_log payload with
  | Some log => Ret (pyth_log_event input payload log)
  | None => pyth_feed_parse input payload
  end.

(** ** The dispatch ([mod.rs]) *)
Definition parsers : list (string * (ParserInput -> Value -> outcome ParsedFeedEvent)) :=
  [ ("binance_miniticker_v1", binance_parse now); ("coinbase_ticker_v1", coinbase_parse now);
    ("kraken_ticker_v2", kraken_parse now); ("okx_tickers_v5", okx_parse now);
    ("bybit_tickers_v5", bybit_parse now); ("gate_ticker_v4", gate_parse now);
    ("gemini_marketdata_v1", gemini_parse now); ("evm_log_v1", evm_log_parse now);
    ("chainlink_answer_updated_v1", chainlink_answer_updated_parse now);
    ("chainlink_data_streams_v3", chainlink_data_streams_parse now);
    ("pyth_hermes_v2", pyth_parse); ("pyth_price_update_v1", pyth_parse);
    ("uniswap_v2_swap_v1", uniswap_v2_swap_parse now);
    ("uniswap_v2_swap_price_v1", uniswap_v2_swap_price_parse now);
    ("uniswap_v3_swap_price_v1", uniswap_v3_swap_price_parse now);
    ("aerodrome_swap_price_v1", aerodrome_parse now);
    ("protocol_tvl_v1", protocol_tvl_parse);
    ("protocol_utilization_v1", protocol_utilization_parse);
    ("protocol_pause_v1", protocol_pause_parse) ].
Definition parser_of (name : string)
  : option (ParserInput -> Value -> outcome ParsedFeedEvent) :=
  find_map (fun p => if bool_decide (fst p = name) then Some (snd p) else None) parsers.
Definition parse_payload (input : ParserInput) (payload : Value) : outcome ParsedFeedEvent :=
  match parser_of (parser_name input) with
  | Some parse => parse input payload
  | None => Err ("unsupported_parser:" +:+ parser_name input)
  end.
End protocol.
