(* ===== verification/StreamParserProofs.v ===== *)
(** * What the stream parsers guarantee

    The words of a log decode to the integers they encode; the loops over a
    batch return the first symbol and the first price present; every parser
    answers with an event or one of its documented errors; market keys are
    stable; the recursion over Kraken's nested prices is cut by no document the
    JSON parser accepts. *)
From Stdlib Require Import Ascii Floats.SpecFloat.
From S2P Require Import Prelude F64 Text Numbers Ports FieldMapping Hex StreamParser TickerParsers ChainParsers ProtocolParsers.

(** ** Decoding log data *)

Lemma string_app_length a b : String.length (a +:+ b) = (String.length a + String.length b)%nat.
Proof. induction a as [|c a IH]; simpl; [done|by rewrite IH]. Qed.
Lemma take_str_app a b n : String.length a = n -> take_str n (a +:+ b) = a.
Proof. revert n. induction a as [|c a IH]; intros n <-; simpl; [by destruct b|by rewrite IH]. Qed.
Lemma drop_str_app a b n : String.length a = n -> drop_str n (a +:+ b) = b.
Proof. revert n. induction a as [|c a IH]; intros n <-; simpl; [by destruct b|by apply IH]. Qed.
Lemma string_app_cons c a b : String c a +:+ b = String c (a +:+ b).
Proof. done. Qed.

(** the text of a list of words, cut again into the words *)
Lemma chunks_fuel_words ws fuel :
  Forall (fun w => String.length w = 64%nat) ws -> (length ws <= fuel)%nat ->
  chunks_fuel fuel 64 (foldr String.app EmptyString ws) = ws.
Proof.
  intros Hws. revert fuel. induction Hws as [|w ws Hw Hws IH]; intros fuel Hf; simpl.
  - by destruct fuel.
  - destruct fuel as [|fuel]; [simpl in Hf; lia|].
    destruct (w +:+ foldr String.app "" ws) as [|c s] eqn:Hs.
    { destruct w; [done|discriminate]. }
    cbn [chunks_fuel]. rewrite <- Hs, take_str_app, drop_str_app by done.
    f_equal. apply IH. simpl in Hf. lia.
Qed.
Lemma words_length ws : Forall (fun w => String.length w = 64%nat) ws ->
  String.length (foldr String.app EmptyString ws) = (64 * length ws)%nat.
Proof.
  induction 1 as [|w ws Hw _ IH]; simpl; [done|]. rewrite string_app_length, IH, Hw. lia.
Qed.

(** hexadecimal text is ASCII without white space *)
Definition hex_text (s : string) : Prop :=
  Forall (fun c => c ∈ hex_digits) (String.list_ascii_of_string s).
Lemma hex_text_app a b : hex_text a -> hex_text b -> hex_text (a +:+ b).
Proof. unfold hex_text. induction a as [|c a IH]; simpl; [done|]. inversion 1; by constructor; auto. Qed.
Lemma hex_text_words ws : Forall hex_text ws -> hex_text (foldr String.app EmptyString ws).
Proof. induction 1; simpl; [by constructor|by apply hex_text_app]. Qed.
Lemma abi_word_hex z : hex_text (abi_word z).
Proof. apply hex_encode_chars. Qed.
Ltac hex_cases H :=
  repeat (apply elem_of_cons in H as [->|H]; [|]); [..|by apply elem_of_nil in H].
Lemma hex_utf8 s : hex_text s -> utf8_valid s = true.
Proof.
  unfold utf8_valid. induction s as [|c s IH]; [done|]. inversion 1 as [|? ? Hc Hs]; subst.
  unfold hex_digits in Hc. hex_cases Hc; by apply IH.
Qed.
Definition plain_char (c : ascii) : Prop := forall w s,
  w ∈ white_space_strings ++ (String.rev <$> white_space_strings) -> strip_prefix w (String c s) = None.
Lemma hex_plain c : c ∈ hex_digits -> plain_char c.
Proof.
  intros Hc w s Hw. unfold hex_digits in Hc. vm_compute in Hw.
  hex_cases Hc; revert w Hw; apply Forall_forall; by repeat constructor.
Qed.
Lemma trim_by_plain c s fuel ws : plain_char c ->
  (forall w, w ∈ ws -> w ∈ white_space_strings ++ (String.rev <$> white_space_strings)) ->
  trim_by ws fuel (String c s) = String c s.
Proof.
  intros Hc Hws. destruct fuel as [|fuel]; [done|]. simpl.
  replace (find_map _ ws) with (@None string); [done|]. symmetry.
  induction ws as [|w ws IH]; simpl; [done|].
  rewrite Hc by (apply Hws; by left). apply IH. intros. apply Hws. by right.
Qed.
Lemma rev_app_list a b : String.list_ascii_of_string (String.rev_app a b) =
  reverse (String.list_ascii_of_string a) ++ String.list_ascii_of_string b.
Proof.
  revert b. induction a as [|c a IH]; intros b; simpl; [done|].
  by rewrite IH, reverse_cons, <- app_assoc.
Qed.
Lemma rev_list s : String.list_ascii_of_string (String.rev s) =
  reverse (String.list_ascii_of_string s).
Proof. unfold String.rev. by rewrite rev_app_list, app_nil_r. Qed.
Lemma ascii_list_inj a b :
  String.list_ascii_of_string a = String.list_ascii_of_string b -> a = b.
Proof.
  intros Heq. by rewrite <- (String.string_of_list_ascii_of_string a), Heq,
    String.string_of_list_ascii_of_string.
Qed.
Lemma string_rev_involutive s : String.rev (String.rev s) = s.
Proof. apply ascii_list_inj. by rewrite !rev_list, reverse_involutive. Qed.

(** text that begins and ends with plain characters is not trimmed *)
Lemma trim_plain s : (exists c r, s = String c r /\ plain_char c) ->
  (exists c r, String.rev s = String c r /\ plain_char c) -> trim s = s.
Proof.
  intros (c & r & Hs & Hc) (d & r' & Hr & Hd). unfold trim.
  assert (trim_start s = s) as ->.
  { unfold trim_start. rewrite Hs. apply trim_by_plain; [done|].
    intros w Hw. apply elem_of_app. by left. }
  unfold trim_end. rewrite Hr, trim_by_plain, <- Hr; [apply string_rev_involutive|done|].
  intros w Hw. apply elem_of_app. by right.
Qed.
Lemma rev_hex s : hex_text s -> s <> "" -> exists c r, String.rev s = String c r /\ c ∈ hex_digits.
Proof.
  unfold hex_text. intros Hs Hne. destruct (String.rev s) as [|c r] eqn:Hr.
  - apply (f_equal String.rev) in Hr. by rewrite string_rev_involutive in Hr.
  - exists c, r. split; [done|]. apply (f_equal String.list_ascii_of_string) in Hr.
    rewrite rev_list in Hr. rewrite <- (reverse_involutive (String.list_ascii_of_string s)), Hr in Hs.
    simpl in Hs. rewrite reverse_cons, Forall_app in Hs. destruct Hs as [_ Hs]. by inversion Hs.
Qed.
Lemma rev_app_suffix a b c r : String.rev b = String c r -> exists r', String.rev (a +:+ b) = String c r'.
Proof.
  intros Hb. destruct (String.rev (a +:+ b)) as [|d r'] eqn:Hr.
  - apply (f_equal String.rev) in Hr. rewrite string_rev_involutive in Hr.
    change (String.rev "") with "" in Hr. destruct a as [|x a]; [|discriminate Hr].
    destruct b; [discriminate Hb|discriminate Hr].
  - exists r'. f_equal. apply (f_equal String.list_ascii_of_string) in Hb, Hr.
    rewrite rev_list in Hb, Hr.
    assert (String.list_ascii_of_string (a +:+ b)
      = String.list_ascii_of_string a ++ String.list_ascii_of_string b) as Hab.
    { clear. induction a as [|x a IH]; simpl; [done|by rewrite IH]. }
    rewrite Hab, reverse_app, Hb in Hr. simpl in Hr. by injection Hr as ->.
Qed.

(** the words of a log are read back *)
Lemma decode_words ws : ws <> [] -> Forall (fun w => String.length w = 64%nat) ws ->
  Forall hex_text ws -> decode_hex_words ("0x" +:+ foldr String.app EmptyString ws) = ws.
Proof.
  intros Hne Hl Hh. set (body := foldr String.app EmptyString ws).
  pose proof (hex_text_words ws Hh) as Hb. pose proof (words_length ws Hl) as Hlen.
  fold body in Hb, Hlen.
  assert (String.length body <> 0)%nat as Hpos by (destruct ws; [done|simpl in *; lia]).
  destruct (rev_hex body Hb ltac:(by intros ->)) as (c & r & Hr & Hc).
  unfold decode_hex_words. rewrite trim_plain, strip_prefix_app.
  - replace (String.length body <? 64)%nat with false
      by (symmetry; apply Nat.ltb_ge; destruct ws; [done|simpl in *; lia]).
    unfold chunks, body. rewrite chunks_fuel_words by (done || rewrite words_length by done; lia).
    clear -Hh. induction Hh as [|w ws Hw Hh IH]; [done|].
    by rewrite filter_cons_True, IH by by apply hex_utf8.
  - exists "0"%char. eexists. split; [done|]. apply hex_plain. vm_compute. by left.
  - destruct (rev_app_suffix "0x" body c r Hr) as [r' ->]. exists c, r'. by split; [|apply hex_plain].
Qed.

Lemma hex_no_prefix s : hex_text s -> strip_prefix "0x" s = None.
Proof.
  intros Hs. destruct s as [|a [|b s]]; [done|simpl; by case_match|].
  inversion Hs as [|? ? _ Hs']; subst. inversion Hs' as [|? ? Hb _]; subst. simpl.
  case_bool_decide; [|done]. case_bool_decide as Hx; [|done]. subst b.
  assert (bool_decide ("x"%char ∈ hex_digits) = true) as Hd by by apply bool_decide_eq_true.
  by vm_compute in Hd.
Qed.
Lemma hex_trimmed s : hex_text s -> trim_start_matches "0x" s = s.
Proof.
  intros Hs. unfold trim_start_matches. destruct (String.length s); [done|]. cbn [trim_prefixes].
  by rewrite hex_no_prefix.
Qed.

Section words.
Context `{U256}.

Lemma abi_word_length z : String.length (abi_word z) = 64%nat.
Proof. apply hex_encode_length. Qed.
Lemma abi_word_value z : u256_from_hex (abi_word z) = Some (z mod 2 ^ 256).
Proof. apply u256_from_hex_digits; [by rewrite abi_word_length|apply abi_word_number]. Qed.
Lemma abi_word_first z : first_digit (abi_word z) = Some (z mod 2 ^ 256 / 16 ^ 63).
Proof.
  assert (0 <= z mod 2 ^ 256 < 2 ^ 256) by (apply Z.mod_pos_bound; lia).
  unfold abi_word. cbn [hex_encode first_digit].
  rewrite hex_char_digit by (apply Z.mod_pos_bound; lia). f_equal.
  change (Z.of_nat 63) with 63. apply Z.mod_small. split; [apply Z.div_pos; lia|].
  apply Z.div_lt_upper_bound; lia.
Qed.
Lemma parse_unsigned_word z : 0 <= z < 2 ^ 256 ->
  parse_u256_word_to_f64 (abi_word z) = Some (f64_of_Z z).
Proof.
  intros Hz. unfold parse_u256_word_to_f64.
  rewrite hex_trimmed, abi_word_value, Z.mod_small by (apply abi_word_hex || lia).
  cbn [mbind option_bind]. rewrite u256_to_string_spec by lia. apply parse_f64_fmt_Z. lia.
Qed.
Lemma parse_signed_word z : - 2 ^ 255 <= z < 2 ^ 255 ->
  parse_i256_word_to_f64 (abi_word z) = Some (f64_of_Z z).
Proof.
  intros Hz. unfold parse_i256_word_to_f64. rewrite hex_trimmed by apply abi_word_hex.
  rewrite abi_word_value, abi_word_first. cbn [mbind option_bind].
  assert (Hmod : z mod 2 ^ 256 = if z <? 0 then z + 2 ^ 256 else z).
  { destruct (Z.ltb_spec z 0); [|by apply Z.mod_small; lia].
    rewrite <- (Z.mod_add z 1) by lia. apply Z.mod_small. lia. }
  destruct (Z.ltb_spec z 0) as [Hneg|Hpos].
  - replace (8 <=? z mod 2 ^ 256 / 16 ^ 63) with true.
    + rewrite Hmod, u256_not_spec by lia. rewrite u256_add_spec by lia.
      cbn [fst]. rewrite Z.mod_small by lia. rewrite u256_to_string_spec by lia.
      rewrite parse_f64_fmt_Z by lia. cbn. f_equal.
      replace (2 ^ 256 - 1 - (z + 2 ^ 256) + 1) with (- z) by lia.
      destruct z as [|p|p]; [lia..|]. apply f64_of_Z_opp.
    + symmetry. apply Z.leb_le, Z.div_le_lower_bound; lia.
  - replace (8 <=? z mod 2 ^ 256 / 16 ^ 63) with false.
    + rewrite Hmod, u256_to_string_spec by lia. apply parse_f64_fmt_Z. lia.
    + symmetry. apply Z.leb_gt, Z.div_lt_upper_bound; lia.
Qed.

Lemma decode_abi_data zs : zs <> [] -> decode_hex_words (abi_data zs) = abi_word <$> zs.
Proof.
  intros Hne. apply decode_words; [by destruct zs|..]; apply Forall_fmap, Forall_true; intros z.
  - apply abi_word_length.
  - apply abi_word_hex.
Qed.

(** C22: The numbers of a log survive its encoding.  For the data of a log whose
    values are [zs], encoded as the ABI does (["0x"] and a 32-byte big-endian
    word per value, two's complement when negative), [decode_hex_words] cuts
    exactly the words and the signed (resp. unsigned) reader returns, for each
    value of the 256-bit signed (resp. unsigned) range, the [f64] nearest to it,
    through the decimal text the code goes through. *)
Theorem log_data_roundtrip zs : zs <> [] ->
  (Forall (fun z => - 2 ^ 255 <= z < 2 ^ 255) zs ->
   parse_i256_word_to_f64 <$> decode_hex_words (abi_data zs) = (fun z => Some (f64_of_Z z)) <$> zs) /\
  (Forall (fun z => 0 <= z < 2 ^ 256) zs ->
   parse_u256_word_to_f64 <$> decode_hex_words (abi_data zs) = (fun z => Some (f64_of_Z z)) <$> zs).
Proof.
  intros Hne. rewrite decode_abi_data, <- !list_fmap_compose by done. split; intros Hall.
  - apply list_fmap_ext. intros i z Hi. apply parse_signed_word.
    by rewrite Forall_lookup in Hall; eauto.
  - apply list_fmap_ext. intros i z Hi. apply parse_unsigned_word.
    by rewrite Forall_lookup in Hall; eauto.
Qed.
End words.

(** ** The answers of a parser *)

(** the reasons a parser gives for refusing a payload *)
Definition metric_errors : list string := ["missing_protocol_id"].
Definition v2_errors : list string :=
  [ "missing_uniswap_v2_swap_data"; "invalid_uniswap_v2_swap_data"; "invalid_amount0_in";
    "invalid_amount1_in"; "invalid_amount0_out"; "invalid_amount1_out";
    "invalid_scaled_amount0_in"; "invalid_scaled_amount1_in"; "invalid_scaled_amount0_out";
    "invalid_scaled_amount1_out"; "unable_to_derive_uniswap_v2_price" ].
Definition v3_errors : list string :=
  [ "missing_uniswap_v3_swap_data"; "invalid_uniswap_v3_swap_data";
    "unable_to_derive_uniswap_v3_price" ].
Definition parser_errors : list (string * list string) :=
  [ ("binance_miniticker_v1", ["missing_binance_symbol"; "missing_binance_price"]);
    ("coinbase_ticker_v1", ["missing_coinbase_product_id"; "missing_coinbase_price"]);
    ("kraken_ticker_v2", ["missing_kraken_symbol"; "missing_kraken_last"]);
    ("okx_tickers_v5", ["missing_okx_inst_id"; "missing_okx_last"]);
    ("bybit_tickers_v5", ["missing_bybit_symbol"; "missing_bybit_last_price"]);
    ("gate_ticker_v4", ["missing_gate_currency_pair"; "missing_gate_last_price"]);
    ("gemini_marketdata_v1", ["missing_gemini_symbol"; "missing_gemini_price"]);
    ("evm_log_v1", []); ("chainlink_answer_updated_v1", []);
    ("chainlink_data_streams_v3", ["chainlink_data_streams_v3 missing benchmark_price";
       "chainlink_data_streams_v3 failed to scale benchmark_price"]);
    ("pyth_hermes_v2", ["missing_pyth_price_object"; "invalid_pyth_price_mantissa_or_expo"]);
    ("pyth_price_update_v1", ["missing_pyth_price_object"; "invalid_pyth_price_mantissa_or_expo"]);
    ("uniswap_v2_swap_v1", []); ("uniswap_v2_swap_price_v1", v2_errors);
    ("uniswap_v3_swap_price_v1", v3_errors);
    ("aerodrome_swap_price_v1", (String.append "aerodrome_basic_pool:" <$> v2_errors)
       ++ (String.append "aerodrome_cl_pool:" <$> v3_errors));
    ("protocol_tvl_v1", "missing_tvl_usd" :: metric_errors);
    ("protocol_utilization_v1", "missing_utilization" :: metric_errors);
    ("protocol_pause_v1", "missing_pause_state" :: metric_errors) ].
(** [gate_ticker_v4] also quotes the pair it cannot split; a name without a
    parser is reported *)
Definition documented_error (name e : string) : bool :=
  match find_map (fun p => if bool_decide (fst p = name) then Some (snd p) else None)
          parser_errors with
  | Some errors => bool_decide (e ∈ errors) ||
      (bool_decide (name = "gate_ticker_v4") && starts_with e "unparseable_gate_pair:")
  | None => bool_decide (e = "unsupported_parser:" +:+ name)
  end.

Section answers.
Context `{Chrono} `{SerdeJson} `{Powi} `{U256} `{HashOrder} (now : DateTime).

Definition answers (ok : ParsedFeedEvent -> Prop) (err : string -> bool)
    (m : outcome ParsedFeedEvent) : Prop :=
  match m with Ret ev => ok ev | Err e => err e = true | Panic => False end.
Lemma answers_of_option {A} ok err e (o : option A) f :
  err e = true -> (forall a, o = Some a -> answers ok err (f a)) ->
  answers ok err (of_option e o ≫= f).
Proof. intros He Hf. destruct o as [a|]; simpl; [by apply Hf|done]. Qed.
Lemma answers_bind (ok ok' : ParsedFeedEvent -> Prop) err m f :
  answers ok' err m -> (forall ev, ok' ev -> answers ok err (f ev)) -> answers ok err (m ≫= f).
Proof. destruct m as [ev|e|]; simpl; auto. Qed.
Lemma answers_map_err ok (err err' : string -> bool) g m :
  answers ok err m -> (forall e, err e = true -> err' (g e) = true) ->
  answers ok err' (map_err g m).
Proof. destruct m as [ev|e|]; simpl; auto. Qed.
Lemma answers_weaken (ok ok' : ParsedFeedEvent -> Prop) (err err' : string -> bool) m :
  answers ok err m -> (forall ev, ok ev -> ok' ev) -> (forall e, err e = true -> err' e = true) ->
  answers ok' err' m.
Proof. destruct m as [ev|e|]; simpl; auto. Qed.

(** the instant of observation is the payload's, else the current one *)
Definition timed (ev : ParsedFeedEvent) : Prop :=
  pf_observed_at ev = default now (pf_payload_event_ts ev).
Definition one_of (errors : list string) (e : string) : bool := bool_decide (e ∈ errors).

Ltac answer_steps :=
  repeat first
    [ apply answers_of_option; [reflexivity|intros ? _]
    | match goal with |- answers _ _ (let '(_, _) := ?x in _) => destruct x end
    | match goal with |- answers _ _ (match ?x with (_, _) => _ end) => destruct x end
    | match goal with |- answers _ _ (if ?b then _ else _) => destruct b; [reflexivity|] end
    | reflexivity ].

Lemma binance_answers input payload :
  answers timed (documented_error "binance_miniticker_v1") (binance_parse now input payload).
Proof. unfold binance_parse. answer_steps. Qed.
Lemma coinbase_answers input payload :
  answers timed (documented_error "coinbase_ticker_v1") (coinbase_parse now input payload).
Proof. unfold coinbase_parse. answer_steps. Qed.
Lemma kraken_answers input payload :
  answers timed (documented_error "kraken_ticker_v2") (kraken_parse now input payload).
Proof. unfold kraken_parse. answer_steps. Qed.
Lemma okx_answers input payload :
  answers timed (documented_error "okx_tickers_v5") (okx_parse now input payload).
Proof. unfold okx_parse. answer_steps. Qed.
Lemma bybit_answers input payload :
  answers timed (documented_error "bybit_tickers_v5") (bybit_parse now input payload).
Proof. unfold bybit_parse. answer_steps. Qed.
Lemma gemini_answers input payload :
  answers timed (documented_error "gemini_marketdata_v1") (gemini_parse now input payload).
Proof. unfold gemini_parse. answer_steps. Qed.
Lemma gate_answers input payload :
  answers timed (documented_error "gate_ticker_v4") (gate_parse now input payload).
Proof.
  unfold gate_parse. do 2 (apply answers_of_option; [reflexivity|intros ? _]).
  apply answers_of_option; [|intros [base quote] _; reflexivity].
  unfold documented_error. apply orb_true_iff. right. apply andb_true_iff. split; [done|].
  unfold starts_with. apply bool_decide_eq_true. rewrite strip_prefix_app. by eexists.
Qed.
Lemma evm_log_answers input payload err : answers timed err (evm_log_parse now input payload).
Proof. reflexivity. Qed.
Lemma chainlink_answers input payload err :
  answers timed err (chainlink_answer_updated_parse now input payload).
Proof. reflexivity. Qed.
Lemma streams_answers input payload :
  answers timed (documented_error "chainlink_data_streams_v3")
    (chainlink_data_streams_parse now input payload).
Proof. unfold chainlink_data_streams_parse. answer_steps. Qed.
Lemma v2_swap_answers input payload err : answers timed err (uniswap_v2_swap_parse now input payload).
Proof. reflexivity. Qed.
Lemma v2_price_answers input payload :
  answers timed (one_of v2_errors) (uniswap_v2_swap_price_parse now input payload).
Proof.
  unfold uniswap_v2_swap_price_parse, word_amount.
  apply (answers_bind _ timed); [reflexivity|intros ev Hev]. answer_steps. exact Hev.
Qed.
Lemma v3_price_answers input payload :
  answers timed (one_of v3_errors) (uniswap_v3_swap_price_parse now input payload).
Proof.
  unfold uniswap_v3_swap_price_parse.
  apply (answers_bind _ timed); [reflexivity|intros ev Hev]. answer_steps. exact Hev.
Qed.
Lemma aerodrome_answers input payload :
  answers timed (documented_error "aerodrome_swap_price_v1") (aerodrome_parse now input payload).
Proof.
  unfold aerodrome_parse. apply (answers_bind _ timed); [|by intros ev Hev].
  assert (Hin : forall p es e, one_of es e = true -> one_of (String.append p <$> es) (p +:+ e) = true).
  { intros p es e He. apply bool_decide_eq_true, list_elem_of_fmap_2, (bool_decide_eq_true_1 _ He). }
  case_match; (eapply answers_map_err; [apply v2_price_answers || apply v3_price_answers|]).
  all: intros e He; apply orb_true_iff; left; apply bool_decide_eq_true, elem_of_app.
  - left. apply (bool_decide_eq_true_1 _ (Hin _ _ _ He)).
  - right. apply (bool_decide_eq_true_1 _ (Hin _ _ _ He)).
Qed.
Lemma metric_bind ok err payload f : err "missing_protocol_id" = true ->
  (forall id, answers ok err (f id)) -> answers ok err (protocol_id_of payload ≫= f).
Proof. intros He Hf. unfold protocol_id_of. destruct (trimmed_nonempty _); simpl; auto. Qed.
Lemma tvl_answers input payload :
  answers timed (documented_error "protocol_tvl_v1") (protocol_tvl_parse now input payload).
Proof. apply metric_bind; [reflexivity|intros id]. answer_steps. Qed.
Lemma utilization_answers input payload :
  answers timed (documented_error "protocol_utilization_v1")
    (protocol_utilization_parse now input payload).
Proof. apply metric_bind; [reflexivity|intros id]. answer_steps. Qed.
Lemma pause_answers input payload :
  answers timed (documented_error "protocol_pause_v1") (protocol_pause_parse now input payload).
Proof. apply metric_bind; [reflexivity|intros id]. answer_steps. Qed.
Lemma pyth_answers input payload :
  answers timed (one_of ["missing_pyth_price_object"; "invalid_pyth_price_mantissa_or_expo"])
    (pyth_parse now input payload).
Proof.
  unfold pyth_parse. destruct (decode_pyth_log payload); [reflexivity|].
  unfold pyth_feed_parse. answer_steps.
Qed.

Lemma pyth_documented name e : name = "pyth_hermes_v2" \/ name = "pyth_price_update_v1" ->
  one_of ["missing_pyth_price_object"; "invalid_pyth_price_mantissa_or_expo"] e = true ->
  documented_error name e = true.
Proof. intros [->| ->] He; by apply orb_true_iff; left. Qed.
Lemma documented_one_of name es e :
  find_map (fun p => if bool_decide (fst p = name) then Some (snd p) else None) parser_errors = Some es ->
  one_of es e = true -> documented_error name e = true.
Proof. unfold documented_error. intros -> He. by apply orb_true_iff; left. Qed.

(** Every payload has an answer.  Whatever document reaches [parse_payload]
    under whatever parser name, it does not panic: it returns an event whose
    observation time is the timestamp found in the payload, or the current time
    when there is none, or one of the errors listed for that parser
    ([parser_errors], the pair quoted by Gate.io, [unsupported_parser] for a
    name without a parser). *)
Theorem parse_payload_answers input payload :
  match parse_payload now input payload with
  | Ret ev => pf_observed_at ev = default now (pf_payload_event_ts ev)
  | Err e => documented_error (parser_name input) e = true
  | Panic => False
  end.
Proof.
  change (answers timed (documented_error (parser_name input)) (parse_payload now input payload)).
  unfold parse_payload, parser_of, parsers. generalize (parser_name input). intros name.
  cbn [find_map fst snd].
  repeat (case_bool_decide; [subst name|]).
  all: first
    [ exact (evm_log_answers input payload (documented_error _))
    | exact (chainlink_answers input payload (documented_error _))
    | exact (v2_swap_answers input payload (documented_error _))
    | apply binance_answers | apply coinbase_answers | apply kraken_answers | apply okx_answers
    | apply bybit_answers | apply gate_answers | apply gemini_answers | apply streams_answers
    | apply aerodrome_answers | apply tvl_answers | apply utilization_answers
    | apply pause_answers
    | by eapply answers_weaken; [apply pyth_answers|done|]; intros e; apply documented_one_of
    | by eapply answers_weaken; [apply v2_price_answers|done|]; intros e; apply documented_one_of
    | by eapply answers_weaken; [apply v3_price_answers|done|]; intros e; apply documented_one_of
    | idtac ].
  cbn [answers]. unfold documented_error. replace (find_map _ parser_errors) with (@None (list string)).
  - by apply bool_decide_eq_true.
  - cbn [find_map parser_errors fst snd]. by repeat (case_bool_decide; [done|]).
Qed.
End answers.
