(* ===== verification/TickerProofs.v ===== *)
(** * Ticker batches, nested prices and market keys

    The loops that stop early agree with the search they abbreviate, the
    recursion over Kraken's nested prices is exhausted by no document within the
    nesting limit of the JSON parser, and a market key is a normal form. *)
From Stdlib Require Import Ascii Floats.SpecFloat.
From S2P Require Import Prelude F64 Text Numbers Ports FieldMapping Hex StreamParser TickerParsers ChainParsers ProtocolParsers StreamParserProofs.

(** ** Loops over a batch *)

Lemma fill_missing_first {E A B} (fa : E -> option A) (fb : E -> option B) items a b :
  fill_missing fa fb items a b = (or_else a (find_map fa items), or_else b (find_map fb items)).
Proof.
  revert a b. induction items as [|x items IH]; intros a b; [by destruct a, b|].
  cbn [fill_missing find_map]. rewrite IH. by destruct a, (fa x), b, (fb x).
Qed.
Lemma or_else_assoc {A} (a b c : option A) : or_else (or_else a b) c = or_else a (or_else b c).
Proof. by destruct a. Qed.
Lemma find_map_app {A B} (f : A -> option B) l k :
  find_map f (l ++ k) = or_else (find_map f l) (find_map f k).
Proof. induction l as [|x l IH]; simpl; [done|]. by destruct (f x). Qed.
Lemma or_else_none {A} (a : option A) : or_else a None = a.
Proof. by destruct a. Qed.

Section batches.
Context `{Chrono} `{SerdeJson} `{Powi} `{U256} `{HashOrder} (now : DateTime).

(** the entries a parser looks at, in order *)
Definition entries_of (v : option Value) : list Value := default [] (v ≫= as_array).
Definition bybit_entries (payload : Value) : list Value :=
  match vget "data" payload with
  | Some item => if is_some (as_object item) then [item] else entries_of (Some item)
  | None => []
  end ++ entries_of (result ← vget "result" payload; vget "list" result).
Definition coinbase_tickers (payload : Value) : list Value :=
  entries_of (vget "events" payload) ≫= fun event => entries_of (vget "tickers" event).

Lemma skip_filled {A B} (a : option A) (b : option B) x y :
  (if is_some a && is_some b then (a, b) else (or_else a x, or_else b y)) = (or_else a x, or_else b y).
Proof. by destruct a, b. Qed.
Lemma coinbase_events_first events a b :
  let tickers := events ≫= fun event => entries_of (vget "tickers" event) in
  coinbase_events events a b =
    (or_else a (find_map (get_str "product_id") tickers), or_else b (find_map coinbase_price tickers)).
Proof.
  cbv zeta. revert a b. induction events as [|event events IH]; intros a b; [by destruct a, b|].
  cbn [coinbase_events mbind list_bind]. rewrite !find_map_app, <- !or_else_assoc.
  change (entries_of (vget "tickers" event)) with (default [] (vget "tickers" event ≫= as_array)).
  destruct (vget "tickers" event ≫= as_array) as [l|]; cbn [default find_map].
  - rewrite fill_missing_first, IH. apply skip_filled.
  - rewrite !or_else_none, IH. apply skip_filled.
Qed.

(** A batch yields its first symbol and its first price.  The loops of the
    Bybit and Coinbase parsers, which carry two optional values through nested
    arrays, two message shapes and several early exits, compute for each of the
    two independently what it was, or else the first occurrence among the
    entries of the message in order. *)
Theorem batch_first_quote payload symbol price :
  (let '(s, p) := bybit_data payload symbol price in bybit_result payload s p) =
    (or_else symbol (find_map (get_str "symbol") (bybit_entries payload)),
     or_else price (find_map bybit_price (bybit_entries payload))) /\
  match vget "events" payload ≫= as_array with
  | Some events =>
      if is_some symbol && is_some price then (symbol, price)
      else coinbase_events events symbol price
  | None => (symbol, price)
  end = (or_else symbol (find_map (get_str "product_id") (coinbase_tickers payload)),
         or_else price (find_map coinbase_price (coinbase_tickers payload))).
Proof.
  split.
  - unfold bybit_entries. rewrite !find_map_app, <- !or_else_assoc.
    assert (bybit_data payload symbol price =
      (or_else symbol (find_map (get_str "symbol") (match vget "data" payload with
         | Some item => if is_some (as_object item) then [item] else entries_of (Some item)
         | None => [] end)),
       or_else price (find_map bybit_price (match vget "data" payload with
         | Some item => if is_some (as_object item) then [item] else entries_of (Some item)
         | None => [] end)))) as ->.
    { unfold bybit_data. destruct (vget "data" payload) as [item|]; [|simpl; by rewrite !or_else_none].
      destruct (is_some (as_object item)).
      - simpl. by destruct (get_str "symbol" item), (bybit_price item).
      - unfold entries_of. simpl. destruct (as_array item); [apply fill_missing_first|simpl].
        by rewrite !or_else_none. }
    unfold bybit_result, entries_of.
    destruct (result ← vget "result" payload; vget "list" result ≫= as_array) as [l|] eqn:Hl.
    all: destruct (vget "result" payload) as [r|]; simpl in *; rewrite ?Hl; simpl.
    all: by rewrite ?fill_missing_first, ?skip_filled, ?or_else_none.
  - unfold coinbase_tickers.
    change (entries_of (vget "events" payload)) with (default [] (vget "events" payload ≫= as_array)).
    destruct (vget "events" payload ≫= as_array) as [events|]; cbn [default].
    + rewrite coinbase_events_first. apply skip_filled.
    + simpl. by rewrite !or_else_none.
Qed.
End batches.

(** ** Nested prices *)
Section nesting.
Context `{SerdeJson}.

Definition child (c v : Value) : Prop :=
  (exists k, vget k v = Some c) \/ (exists l i, as_array v = Some l /\ l !! i = Some c).
(** [v] has at most [n] levels, a scalar having one *)
Inductive nests : nat -> Value -> Prop :=
  | nests_S n v : (forall c, child c v -> nests n c) -> nests (S n) v.

Lemma extract_absent fuel : extract_kraken_last fuel None = None.
Proof. by destruct fuel. Qed.
Lemma extract_fuel_enough n v fuel : nests n v -> (n <= fuel)%nat ->
  extract_kraken_last fuel (Some v) = extract_kraken_last n (Some v).
Proof.
  revert v fuel. induction n as [|n IH]; intros v fuel Hn Hf; [by inversion Hn|].
  inversion Hn as [? ? Hc]; subst. destruct fuel as [|fuel]; [lia|]. simpl.
  destruct (as_f64 v); [done|]. destruct (as_str v); [done|].
  destruct (vget "price" v) as [c|] eqn:Hp.
  - apply IH; [|lia]. apply Hc. left. by exists "price".
  - destruct (as_array v) as [l|] eqn:Hl; [|done].
    destruct (l !! 0%nat) as [c|] eqn:Hi; [|by rewrite !extract_absent].
    apply IH; [|lia]. apply Hc. right. by exists l, 0%nat.
Qed.

(** The recursion into a nested Kraken price terminates with its result.  On
    a document of at most [recursion_limit] levels, the nesting the JSON parser
    accepts, the bound on the recursion is never what stops it: any larger
    bound gives the same answer. *)
Theorem kraken_recursion_bounded v fuel :
  nests recursion_limit v -> (S recursion_limit <= fuel)%nat ->
  extract_kraken_last fuel (Some v) = kraken_last (Some v).
Proof.
  intros Hv Hf. unfold kraken_last.
  rewrite (extract_fuel_enough recursion_limit v fuel) by (done || lia).
  by rewrite (extract_fuel_enough recursion_limit v (S recursion_limit)) by (done || lia).
Qed.
End nesting.

(** ** Market keys *)

Definition all_chars (P : ascii -> Prop) (s : string) : Prop :=
  Forall P (String.list_ascii_of_string s).
(** upper case, without the characters [clean_symbol] removes *)
Definition clean_char (c : ascii) : Prop := ascii_upper c = c /\ c ∉ [":"; " "]%char.

Lemma all_chars_app P a b : all_chars P (a +:+ b) <-> all_chars P a /\ all_chars P b.
Proof.
  unfold all_chars. induction a as [|c a IH]; simpl.
  - split; [by split; [constructor|]|by intros [_ ?]].
  - rewrite !Forall_cons, IH. tauto.
Qed.
Lemma ascii_upper_idemp c : ascii_upper (ascii_upper c) = ascii_upper c.
Proof. destruct c as [[] [] [] [] [] [] [] []]; reflexivity. Qed.
Lemma upper_chars s : all_chars (fun c => ascii_upper c = c) (to_ascii_uppercase s).
Proof.
  unfold all_chars, to_ascii_uppercase. induction s as [|c s IH]; simpl; constructor; [|done].
  apply ascii_upper_idemp.
Qed.
Lemma clean_chars s : all_chars clean_char (clean_symbol s).
Proof.
  unfold clean_symbol. pose proof (upper_chars (trim s)) as Hu.
  unfold all_chars in *. induction (to_ascii_uppercase (trim s)) as [|c t IH]; simpl; [constructor|].
  inversion Hu; subst. case_bool_decide; [by apply IH|]. constructor; [by split|by apply IH].
Qed.
Lemma clean_id s : all_chars clean_char s -> trim s = s -> clean_symbol s = s.
Proof.
  unfold clean_symbol, all_chars, to_ascii_uppercase. intros Hs ->.
  induction s as [|c s IH]; simpl; [done|]. inversion Hs as [|? ? [Hu Hn] Hs']; subst.
  rewrite Hu, bool_decide_false by done. by rewrite IH.
Qed.
Lemma split_on_chars P d s :
  all_chars P s -> Forall (all_chars (fun c => P c /\ c <> d)) (split_on d s).
Proof.
  unfold all_chars. induction s as [|c s IH]; simpl; [by repeat constructor|].
  inversion 1 as [|? ? Hc Hs]; subst. case_bool_decide as Hd.
  - constructor; [constructor|by apply IH].
  - specialize (IH Hs). destruct (split_on d s) as [|x xs]; simpl.
    + by repeat constructor.
    + inversion IH; subst. constructor; [by constructor|done].
Qed.
Lemma has_char_false d s : has_char d s = false -> all_chars (fun c => c <> d) s.
Proof.
  unfold has_char, all_chars. induction s as [|c s IH]; simpl; [constructor|].
  intros [Hc Hs]%orb_false_iff. constructor; [|by apply IH].
  intros ->. apply bool_decide_eq_false in Hc. apply Hc. simpl.
  rewrite bool_decide_true by done. by destruct s; eexists.
Qed.
Lemma split_on_none d s : all_chars (fun c => c <> d) s -> split_on d s = [s].
Proof.
  unfold all_chars. induction s as [|c s IH]; simpl; [done|]. inversion 1; subst.
  by rewrite bool_decide_false, IH.
Qed.
Lemma split_on_pair d a b : all_chars (fun c => c <> d) a -> all_chars (fun c => c <> d) b ->
  split_on d (a +:+ String d b) = [a; b].
Proof.
  unfold all_chars. intros Ha Hb. induction a as [|c a IH]; simpl.
  - rewrite bool_decide_true by done. by rewrite split_on_none.
  - inversion Ha; subst. by rewrite bool_decide_false, IH.
Qed.
Lemma has_char_mid d a b : has_char d (a +:+ String d b) = true.
Proof.
  unfold has_char. induction a as [|c a IH]; simpl; apply orb_true_iff.
  - left. apply bool_decide_eq_true. simpl. rewrite bool_decide_true by done. by destruct b; eexists.
  - by right.
Qed.
Lemma app_list a b : String.list_ascii_of_string (a +:+ b) =
  String.list_ascii_of_string a ++ String.list_ascii_of_string b.
Proof. induction a as [|x a IH]; simpl; [done|by rewrite IH]. Qed.
Lemma strip_suffix_Some p s r : strip_suffix p s = Some r -> s = r +:+ p.
Proof.
  unfold strip_suffix. destruct (strip_prefix _ _) as [x|] eqn:Hx; intros [= <-].
  apply strip_prefix_Some in Hx. apply ascii_list_inj.
  apply (f_equal String.list_ascii_of_string) in Hx. rewrite app_list, !rev_list in Hx.
  rewrite app_list, rev_list, <- (reverse_involutive (String.list_ascii_of_string s)), Hx.
  by rewrite reverse_app, reverse_involutive.
Qed.

Ltac by_mem := apply (bool_decide_eq_true_1 _); reflexivity.
(** a part of a pair: not empty, clean, without the separator of a key *)
Definition key_part (s : string) : Prop :=
  s <> "" /\ all_chars (fun c => clean_char c /\ c <> "/"%char) s.
Lemma all_chars_impl (P Q : ascii -> Prop) s : (forall c, P c -> Q c) -> all_chars P s -> all_chars Q s.
Proof. intros HPQ Hs. by apply (Forall_impl P Q). Qed.
Lemma all_chars_and P Q s : all_chars P s -> all_chars Q s -> all_chars (fun c => P c /\ Q c) s.
Proof. intros HP HQ. apply Forall_and. by split. Qed.
Lemma split_parts_key d s b q :
  Forall (all_chars (fun c => clean_char c /\ c <> "/"%char)) (split_on d s) ->
  split_parts d s = Some (b, q) -> key_part b /\ key_part q.
Proof.
  intros Hall. unfold split_parts. destruct (filter _ _) as [|x [|y l]] eqn:Hf; intros [= -> ->].
  assert (forall z, z ∈ [b; q] -> key_part z) as Hz.
  { intros z Hz. assert (z ∈ filter (fun part => is_empty part = false) (split_on d s)) as Hin.
    { rewrite Hf. change (b :: q :: l) with ([b; q] ++ l). apply elem_of_app. by left. }
    apply list_elem_of_filter in Hin as [He Hin]. split; [by intros ->|].
    by rewrite Forall_forall in Hall; apply Hall. }
  split; apply Hz; set_solver.
Qed.
Lemma split_symbol_pair_parts s b q :
  split_symbol_pair s = Some (b, q) -> key_part b /\ key_part q.
Proof.
  unfold split_symbol_pair. pose proof (clean_chars s) as Hc.
  destruct (is_empty (clean_symbol s)); [done|].
  destruct (has_char "/" (clean_symbol s)) eqn:Hslash.
  { apply split_parts_key. by apply split_on_chars. }
  apply has_char_false in Hslash. pose proof (all_chars_and _ _ _ Hc Hslash) as Hcs.
  destruct (has_char "-" (clean_symbol s)) eqn:Hdash.
  { apply split_parts_key. eapply Forall_impl; [by apply split_on_chars|].
    intros x. apply all_chars_impl. tauto. }
  assert (forall suffix, suffix ∈ ["USDT"; "USDC"; "USD"] ->
    strip_quote (clean_symbol s) suffix = Some (b, q) -> key_part b /\ key_part q) as Hsuf.
  { intros suffix Hs. unfold strip_quote.
    destruct (strip_suffix suffix (clean_symbol s)) as [x|] eqn:Hx; [|done]. simpl.
    destruct (is_empty x) eqn:He; intros [= <- <-]. apply strip_suffix_Some in Hx.
    rewrite Hx in Hcs. apply all_chars_app in Hcs as [Hb Hq].
    split; (split; [|done]); [by intros ->|]. intros ->. by apply (bool_decide_eq_true_2 _) in Hs. }
  cbn [find_map].
  destruct (strip_quote _ "USDT") as [r|] eqn:H1; [intros [= ->]; eapply Hsuf; [|exact H1]; by_mem|].
  destruct (strip_quote _ "USDC") as [r|] eqn:H2; [intros [= ->]; eapply Hsuf; [|exact H2]; by_mem|].
  destruct (strip_quote _ "USD") as [r|] eqn:H3; [intros [= ->]; eapply Hsuf; [|exact H3]; by_mem|].
  done.
Qed.

(** the text of a market key that is its own key *)
Lemma key_of_key b q : key_part b -> key_part q -> trim (b +:+ "/" +:+ q) = b +:+ "/" +:+ q ->
  split_symbol_pair (b +:+ "/" +:+ q) = Some (b, q).
Proof.
  intros [Hbn Hb] [Hqn Hq] Ht. unfold split_symbol_pair.
  assert (forall x, all_chars (fun c => clean_char c /\ c <> "/"%char) x -> all_chars clean_char x) as Hcl
    by (intros x; apply all_chars_impl; tauto).
  assert (forall x, all_chars (fun c => clean_char c /\ c <> "/"%char) x ->
    all_chars (fun c => c <> "/"%char) x) as Hns by (intros x; apply all_chars_impl; tauto).
  rewrite clean_id; [|apply all_chars_app; split; [by apply Hcl|]|done].
  - replace (is_empty (b +:+ "/" +:+ q)) with false by (by destruct b).
    change (b +:+ "/" +:+ q) with (b +:+ String "/" q). rewrite has_char_mid.
    unfold split_parts. rewrite split_on_pair by auto.
    rewrite !filter_cons_True by (first [by destruct b|by destruct q]). done.
  - apply all_chars_app. split; [|by apply Hcl].
    unfold all_chars, clean_char. by_mem.
Qed.

(** C40: market keys are in normal form.  A key derived from whatever spelling
    ([BTC-USDT], [btcusdc], [Eth/Usd], ..) is a base, one slash and a quote; both
    parts are not empty and hold no slash, colon, space or lower-case ASCII
    letter, and the quote is neither USDT nor USDC.  A clean pair [BASE/QUOTE] that
    neither starts nor ends with white space has its key, in which a quote of USDT
    or USDC becomes USD; so a key that neither starts nor ends with white space is
    its own key. *)
Theorem market_key_normal :
  (forall symbol key, symbol_to_market_key symbol = Some key ->
     exists base quote, key = base +:+ "/" +:+ quote /\ key_part base /\ key_part quote /\
       quote <> "USDT" /\ quote <> "USDC") /\
  (forall base quote, key_part base -> key_part quote ->
     trim (base +:+ "/" +:+ quote) = base +:+ "/" +:+ quote ->
     symbol_to_market_key (base +:+ "/" +:+ quote) =
       Some (base +:+ "/" +:+ if bool_decide (quote = "USDT" \/ quote = "USDC") then "USD" else quote)).
Proof.
  split.
  - intros symbol key. unfold symbol_to_market_key.
    destruct (split_symbol_pair symbol) as [[b q]|] eqn:Hs; [|done]. intros [= <-].
    apply split_symbol_pair_parts in Hs as [Hb Hq]. unfold market_key_of.
    destruct (is_usd q) eqn:Hu.
    + exists b, "USD". split_and!; try done. split; [done|]. unfold all_chars, clean_char. by_mem.
    + exists b, q. unfold is_usd in Hu. bools. by split_and!.
  - intros b q Hb Hq Ht. unfold symbol_to_market_key. rewrite key_of_key by done. simpl.
    unfold market_key_of, is_usd. f_equal. repeat case_bool_decide; simpl; naive_solver.
Qed.
