(* ===== verification/SwapProofs.v ===== *)
(** * Prices read from chain events

    From the ABI encoding of a swap to the published price, and the sign of
    every price that a log or a Pyth update yields. *)
From Stdlib Require Import Ascii Floats.SpecFloat.
From S2P Require Import Prelude F64 Text Numbers Ports FieldMapping Hex StreamParser TickerParsers ChainParsers ProtocolParsers StreamParserProofs.

Section swaps.
Context `{Chrono} `{SerdeJson} `{Powi} `{U256} `{HashOrder} (now : DateTime).
Implicit Types (input : ParserInput) (payload : Value).

Lemma of_option_ret {A} e (o : option A) a : of_option e o = Ret a -> o = Some a.
Proof. by destruct o; intros [= ->]. Qed.
Lemma word_amount_abi zs i z err : zs !! i = Some z -> 0 <= z < 2 ^ 256 ->
  word_amount (abi_word <$> zs) i err = Ret (f64_of_Z z).
Proof.
  intros Hz Hr. unfold word_amount. rewrite list_lookup_fmap, Hz. simpl.
  by rewrite parse_unsigned_word.
Qed.

(** the price of a swap of raw amounts, [None] when an amount cannot be scaled *)
Definition swap_price (pool : PoolConfig) (a0_in a1_in a0_out a1_out : Z) : option f64 :=
  let amount0 a := scale_price (f64_of_Z a) (token0_decimals pool) in
  let amount1 a := scale_price (f64_of_Z a) (token1_decimals pool) in
  x0 ← amount0 a0_in; x1 ← amount1 a1_in; y0 ← amount0 a0_out; y1 ← amount1 a1_out;
  v2_price x0 x1 y0 y1.
(** the price of one unit of the base asset: inverted when the base is token 1 *)
Definition base_price (pool : PoolConfig) (p : f64) : f64 :=
  if bool_decide (base_symbol pool = token0_symbol pool) then p
  else if bool_decide (base_symbol pool = token1_symbol pool) then f64_div f64_one p else p.
Lemma quoted_price_fst pool p : fst (quoted_price pool p) = base_price pool p.
Proof. unfold quoted_price, base_price. by repeat case_bool_decide. Qed.

(** A Uniswap v2 swap is published at the price of its amounts.  When the
    data of a log is the ABI encoding of four 256-bit amounts, the parser
    returns an event exactly when the amounts scaled by the configured decimals
    determine a positive finite price, and then the event carries that price
    (inverted when the base is token 1) and the pool's market key unless one is
    configured. *)
Theorem v2_swap_log_priced input payload a0_in a1_in a0_out a1_out :
  let pool := pool_config (filter_config input) in
  get_str "data" payload = Some (abi_data [a0_in; a1_in; a0_out; a1_out]) ->
  Forall (fun a => 0 <= a < 2 ^ 256) [a0_in; a1_in; a0_out; a1_out] ->
  match swap_price pool a0_in a1_in a0_out a1_out with
  | Some p => exists ev, uniswap_v2_swap_price_parse now input payload = Ret ev /\
      pf_price ev = Some (base_price pool p) /\
      pf_market_key ev = or_else (market_key_hint input)
        (Some (market_key_of (base_symbol pool) (snd (quoted_price pool p))))
  | None => is_return (uniswap_v2_swap_price_parse now input payload) = false
  end.
Proof.
  cbv zeta. intros Hd Hr. unfold uniswap_v2_swap_price_parse. rewrite Hd.
  cbn [of_option mbind outcome_bind evm_log_parse]. rewrite decode_abi_data by done.
  rewrite length_fmap. change (length [a0_in; a1_in; a0_out; a1_out] <? 4)%nat with false.
  rewrite !Forall_cons in Hr. destruct Hr as (H0i & H1i & H0o & H1o & _). cbv iota.
  rewrite (word_amount_abi _ 0 a0_in), (word_amount_abi _ 1 a1_in), (word_amount_abi _ 2 a0_out),
    (word_amount_abi _ 3 a1_out) by done.
  unfold swap_price, scale_amount. cbn [mbind outcome_bind].
  repeat (match goal with |- context [scale_price ?a ?b] =>
    destruct (scale_price a b); cbn [of_option mbind outcome_bind option_bind]; [|reflexivity] end).
  destruct (v2_price _ _ _ _) as [p|]; cbn [of_option mbind outcome_bind]; [|reflexivity].
  rewrite <- quoted_price_fst. destruct (quoted_price _ p) as [raw quote]. by eexists.
Qed.

(** ** Signs *)
Definition positive (x : f64) : Prop := is_finite x = true /\ f64_lt f64_zero x = true.
Lemma positive_finite_positive o (x : f64) : o ≫= positive_finite = Some x -> positive x.
Proof.
  destruct o as [y|]; simpl; [|done]. unfold positive_finite.
  destruct (is_finite y && f64_lt f64_zero y) eqn:Hp; intros [= <-]. by bools.
Qed.
(** a positive finite price, or the inverse of one when the base is token 1 *)
Definition chain_price (input : ParserInput) (ev : ParsedFeedEvent) : Prop :=
  exists p, positive p /\ pf_price ev = Some (base_price (pool_config (filter_config input)) p).

Lemma v2_chain_price input payload ev :
  uniswap_v2_swap_price_parse now input payload = Ret ev -> chain_price input ev.
Proof.
  unfold uniswap_v2_swap_price_parse. intros Hp. repeat (case_hyp Hp; [done|] || inv_ret Hp).
  match goal with Hv : of_option _ (v2_price _ _ _ _) = Ret ?p |- _ =>
    apply of_option_ret, positive_finite_positive in Hv; exists p; split; [exact Hv|] end.
  rewrite <- quoted_price_fst. destruct (quoted_price _ _). by injection Hp as <-.
Qed.
Lemma v3_chain_price input payload ev :
  uniswap_v3_swap_price_parse now input payload = Ret ev -> chain_price input ev.
Proof.
  unfold uniswap_v3_swap_price_parse. intros Hp. repeat (case_hyp Hp; [done|] || inv_ret Hp).
  match goal with Hv : of_option _ (v3_price _ _ _ _) = Ret ?p |- _ =>
    apply of_option_ret, positive_finite_positive in Hv; exists p; split; [exact Hv|] end.
  rewrite <- quoted_price_fst. destruct (quoted_price _ _). by injection Hp as <-.
Qed.
Lemma map_err_ret {A} f (m : outcome A) a : map_err f m = Ret a -> m = Ret a.
Proof. by destruct m. Qed.
Lemma aerodrome_chain_price input payload ev :
  aerodrome_parse now input payload = Ret ev -> chain_price input ev.
Proof.
  unfold aerodrome_parse. intros Hp. inv_ret Hp. injection Hp as <-.
  case_match; apply map_err_ret in Hm; [apply v2_chain_price in Hm|apply v3_chain_price in Hm].
  all: destruct Hm as (p & Hp & Hpr); by exists p.
Qed.
Lemma pyth_positive input payload ev :
  pyth_parse now input payload = Ret ev -> exists p, positive p /\ pf_price ev = Some p.
Proof.
  unfold pyth_parse. destruct (decode_pyth_log payload) as [log|] eqn:Hl.
  - intros [= <-]. exists (pl_price log). split; [|done]. unfold decode_pyth_log in Hl.
    repeat match type of Hl with
    | (mbind _ ?o) = _ => destruct o eqn:?; cbn [mbind option_bind] in Hl; [|done]
    | (if ?b then _ else _) = _ => destruct b; [done|]
    end.
    injection Hl as <-. by eapply (positive_finite_positive (Some _)).
  - unfold pyth_feed_parse. intros Hp. inv_ret Hp. inv_ret Hp.
    match goal with Hd : of_option _ (decode_pyth_price _) = Ret ?p |- _ =>
      apply of_option_ret in Hd; exists p; rename Hd into Hprice end.
    injection Hp as <-. split; [|done]. unfold decode_pyth_price in Hprice.
    repeat (match type of Hprice with
    | (mbind _ ?o) = _ => destruct o; cbn [mbind option_bind] in Hprice; [|done] end).
    by eapply (positive_finite_positive (Some _)).
Qed.
(** the price of a base asset is a number and not negative *)
Lemma base_price_nonneg pool p : positive p -> f64_nonneg (base_price pool p).
Proof.
  intros [Hf Hp]. unfold base_price.
  repeat case_bool_decide; try by apply f64_lt_nonneg.
  apply f64_div_nonneg; [reflexivity|done|reflexivity].
Qed.

(** the parsers whose price is read from the chain *)
Definition chain_parsers : list string :=
  [ "uniswap_v2_swap_price_v1"; "uniswap_v3_swap_price_v1"; "aerodrome_swap_price_v1";
    "pyth_hermes_v2"; "pyth_price_update_v1" ].

(** C28: A price read from the chain is a usable number.  Every event of the swap
    parsers and of Pyth carries a price that is neither NaN nor negative; it is
    positive and finite, except that when the base asset is token 1 it is the
    inverse of a positive finite price, which the code does not check again. *)
Theorem chain_prices_positive input payload ev :
  parser_name input ∈ chain_parsers -> parse_payload now input payload = Ret ev ->
  exists x, pf_price ev = Some x /\ f64_nonneg x /\
    (positive x \/ exists p, positive p /\ x = f64_div f64_one p /\
       let pool := pool_config (filter_config input) in base_symbol pool = token1_symbol pool).
Proof.
  intros Hn Hp.
  assert (chain_price input ev \/ exists p, positive p /\ pf_price ev = Some p) as Hc.
  { unfold parse_payload in Hp. unfold chain_parsers in Hn.
    repeat (apply elem_of_cons in Hn as [Hn|Hn]; [rewrite Hn in Hp|]).
    - left. apply (v2_chain_price input payload), Hp.
    - left. apply (v3_chain_price input payload), Hp.
    - left. apply (aerodrome_chain_price input payload), Hp.
    - right. apply (pyth_positive input payload), Hp.
    - right. apply (pyth_positive input payload), Hp.
    - by apply elem_of_nil in Hn. }
  destruct Hc as [(p & Hpos & Hpr)|(p & Hpos & Hpr)].
  - exists (base_price (pool_config (filter_config input)) p).
    split_and!; [done|by apply base_price_nonneg|]. unfold base_price.
    repeat case_bool_decide; [by left| |by left]. right. by exists p.
  - exists p. split_and!; [done|apply f64_lt_nonneg, Hpos|by left].
Qed.
End swaps.
