(* ===== verification/StreamExamples.v ===== *)
(** * The stream parsers on concrete payloads

    An instance of the 256-bit integers, payloads of the exchanges and of a
    pool, the witnesses of the theorems, and two behaviours worth knowing: a
    Bybit batch can pair the symbol of one entry with the price of another, and
    a utilization of at most one is always read as a fraction. *)
From Stdlib Require Import Ascii.
From S2P Require Import Prelude F64 Text Numbers Ports FieldMapping Hex StreamParser TickerParsers ChainParsers ProtocolParsers StreamParserProofs TickerProofs SwapProofs.

Definition u256_hex (s : string) : option Z :=
  if (String.length s <=? 64)%nat then hex_number s else None.
Lemma u256_hex_range s v : u256_hex s = Some v -> 0 <= v < 2 ^ 256.
Proof.
  unfold u256_hex. destruct (Nat.leb_spec (String.length s) 64); [|done]. by apply hex_number_bound.
Qed.
Lemma u256_hex_digits s v : (String.length s <= 64)%nat -> hex_number s = Some v -> u256_hex s = Some v.
Proof. unfold u256_hex. intros Hl. by apply Nat.leb_le in Hl as ->. Qed.
Definition u256_Z : U256 :=
  {| u256_from_hex := u256_hex;
     u256_from_hex_range := u256_hex_range;
     u256_from_hex_digits := u256_hex_digits;
     u256_not := fun v => 2 ^ 256 - 1 - v;
     u256_not_spec := fun v _ => eq_refl;
     u256_overflowing_add := fun a b => ((a + b) mod 2 ^ 256, 2 ^ 256 <=? a + b);
     u256_add_spec := fun a b _ _ => eq_refl;
     u256_to_string := fmt_Z;
     u256_to_string_spec := fun v _ => eq_refl |}.

Section examples.
#[local] Existing Instance chrono_Z.
#[local] Existing Instance serde_json_tree.
#[local] Existing Instance powi_squaring.
#[local] Existing Instance u256_Z.
#[local] Existing Instance canonical_order.

Definition now : DateTime := sec 1800000000.
Definition input_of (name : string) (config : Value) : ParserInput :=
  {| parser_name := name; in_event_type := "market_ticker"; market_key_hint := None;
     asset_pair_hint := None; payload_ts_path := None; payload_ts_unit := "ms";
     filter_config := config |}.
Definition price_of (m : outcome ParsedFeedEvent) : option f64 :=
  match m with Ret ev => pf_price ev | _ => None end.
Definition key_of (m : outcome ParsedFeedEvent) : option string :=
  match m with Ret ev => pf_market_key ev | _ => None end.

(** *** Words *)
Lemma log_data_roundtrip_witness :
  (fun w => is_some (parse_i256_word_to_f64 w)) <$> decode_hex_words (abi_data [99985000; -8; 0]) =
    [true; true; true] /\
  parse_i256_word_to_f64 <$> decode_hex_words (abi_data [99985000; -8; 0]) =
    (fun z => Some (f64_of_Z z)) <$> [99985000; -8; 0].
Proof.
  split; [vm_compute; reflexivity|].
  refine (proj1 (log_data_roundtrip [99985000; -8; 0] _) _); [discriminate|]. by repeat constructor.
Defined.

(** *** A Uniswap v2 swap of 1000 USDC for half a WETH *)
Definition pool_json : Value :=
  VObj [("token0_symbol", JString "usdc"); ("token1_symbol", JString "weth");
        ("token0_decimals", JInt 6); ("token1_decimals", JInt 18)].
Definition swap_payload : Value :=
  VObj [("data", JString (abi_data [1000000000; 0; 0; 500000000000000000]));
        ("blockNumber", JString "0x10"); ("logIndex", JInt 3)].
Definition swap_input : ParserInput := input_of "uniswap_v2_swap_price_v1" pool_json.
Example swap_is_priced :
  price_of (parse_payload now swap_input swap_payload) = Some (f64_lit 5 10000) /\
  key_of (parse_payload now swap_input swap_payload) = Some "USDC/WETH".
Proof. split; vm_compute; reflexivity. Qed.
Lemma v2_swap_log_priced_witness :
  let pool := pool_config pool_json in
  is_some (swap_price pool 1000000000 0 0 500000000000000000) = true /\
  match swap_price pool 1000000000 0 0 500000000000000000 with
  | Some p => exists ev, uniswap_v2_swap_price_parse now swap_input swap_payload = Ret ev /\
      pf_price ev = Some (base_price pool p) /\
      pf_market_key ev = or_else (market_key_hint swap_input)
        (Some (market_key_of (base_symbol pool) (snd (quoted_price pool p))))
  | None => is_return (uniswap_v2_swap_price_parse now swap_input swap_payload) = false
  end.
Proof.
  split; [vm_compute; reflexivity|].
  apply (v2_swap_log_priced now swap_input swap_payload 1000000000 0 0 500000000000000000);
    [vm_compute; reflexivity|by repeat constructor].
Defined.

(** *** Chain prices *)
Definition pyth_log_payload : Value :=
  VObj [("topics", JArray [JString "0xd06a"; JString "0xfeed"]);
        ("data", JString (abi_data [99985000; 68000; -8; 1713984280]))].
Definition pyth_input : ParserInput := input_of "pyth_price_update_v1" (VObj []).
Definition blank_event : ParsedFeedEvent :=
  {| pf_event_type := ""; pf_event_id := None; pf_market_key := None; pf_asset_pair := None;
     pf_price := None; pf_chain_id := None; pf_block_number := None; pf_tx_hash := None;
     pf_log_index := None; pf_topic0 := None; pf_payload_event_ts := None;
     pf_observed_at := now; pf_normalized_fields := VNull |}.
Definition pyth_event : ParsedFeedEvent :=
  outcome_or blank_event (parse_payload now pyth_input pyth_log_payload).
Lemma pyth_log_returns : is_return (parse_payload now pyth_input pyth_log_payload) = true.
Proof. vm_compute. reflexivity. Qed.
Lemma chain_prices_positive_witness :
  exists x, pf_price pyth_event = Some x /\ f64_nonneg x /\
    (positive x \/ exists p, positive p /\ x = f64_div f64_one p /\
       let pool := pool_config (filter_config pyth_input) in base_symbol pool = token1_symbol pool).
Proof.
  apply (chain_prices_positive now pyth_input pyth_log_payload pyth_event).
  - apply (bool_decide_eq_true_1 _). vm_compute. reflexivity.
  - exact (ret_or blank_event _ pyth_log_returns).
Defined.

(** *** Market keys *)
Example keys_of_symbols :
  symbol_to_market_key <$> ["BTCUSDT"; "eth-usdc"; "Dai/Usd"; "WBTC/ETH"; "BTC/"; "XYZ"] =
    [Some "BTC/USD"; Some "ETH/USD"; Some "DAI/USD"; Some "WBTC/ETH"; None; None].
Proof. vm_compute. reflexivity. Qed.
Lemma btc_part : key_part "BTC".
Proof. split; [done|]. unfold all_chars, clean_char. by_mem. Qed.
Lemma usdt_part : key_part "USDT".
Proof. split; [done|]. unfold all_chars, clean_char. by_mem. Qed.
Lemma market_key_normal_witness :
  (exists base quote, "BTC/USD" = base +:+ "/" +:+ quote /\ key_part base /\ key_part quote /\
     quote <> "USDT" /\ quote <> "USDC") /\
  symbol_to_market_key "BTC/USDT" = Some "BTC/USD".
Proof.
  split.
  - apply (proj1 market_key_normal "btc-usdt" "BTC/USD"). vm_compute. reflexivity.
  - exact (proj2 market_key_normal "BTC" "USDT" btc_part usdt_part eq_refl).
Defined.

(** *** Kraken *)
Definition kraken_price : Value := VArray [VObj [("price", JString "63000.5")]; JString "1.0"].
Lemma scalar_nests n v : as_object v = None -> as_array v = None -> nests (S n) v.
Proof.
  intros Ho Ha. constructor. intros c [(k & Hk)|(l & i & Hl & _)]; [|by rewrite Ha in Hl].
  unfold vget in Hk. by rewrite Ho in Hk.
Qed.
Lemma kraken_price_nests : nests recursion_limit kraken_price.
Proof.
  constructor. intros c [(k & Hk)|(l & i & Hl & Hi)]; [done|]. injection Hl as <-.
  destruct i as [|[|i]]; [injection Hi as <-|injection Hi as <-; by apply scalar_nests|done].
  constructor. intros d [(k & Hk)|(l & i & Hl & _)]; [|done].
  unfold vget in Hk. cbn [as_object mbind option_bind] in Hk.
  destruct (decide (k = "price")) as [->|Hne].
  - injection Hk as <-. by apply scalar_nests.
  - simpl in Hk. by rewrite lookup_insert_ne in Hk.
Qed.
Lemma kraken_recursion_bounded_witness :
  kraken_last (Some kraken_price) = Some (f64_lit 126001 2) /\
  extract_kraken_last 1000 (Some kraken_price) = kraken_last (Some kraken_price).
Proof.
  split; [vm_compute; reflexivity|].
  apply (kraken_recursion_bounded kraken_price 1000); [exact kraken_price_nests|].
  apply Nat.leb_le. reflexivity.
Defined.

(** *** Behaviours worth knowing *)
Definition mixed_batch : Value :=
  VObj [("data", VArray [VObj [("symbol", JString "BTCUSDT")];
                         VObj [("symbol", JString "ETHUSDT"); ("lastPrice", JString "3000")]])].
(** the price of ETH is published under BTC *)
Example bybit_mixes_entries :
  let m := parse_payload now (input_of "bybit_tickers_v5" VNull) mixed_batch in
  key_of m = Some "BTC/USD" /\ price_of m = Some (f64_of_Z 3000).
Proof. split; vm_compute; reflexivity. Qed.
(** 1% and 100% of utilization are the same reading, 1.01% is another one *)
Example utilization_threshold :
  as_percent (f64_of_Z 1) = f64_of_Z 100 /\ as_percent (f64_lit 101 100) = f64_lit 101 100.
Proof. split; vm_compute; reflexivity. Qed.
(** a textual [NaN] is a ticker price *)
Example ticker_price_nan :
  let m := parse_payload now (input_of "binance_miniticker_v1" VNull)
             (VObj [("s", JString "BTCUSDT"); ("c", JString "NaN")]) in
  (is_nan <$> price_of m) = Some true.
Proof. vm_compute. reflexivity. Qed.
(** a partial last word is kept as a word *)
Example partial_word : length (decode_hex_words (abi_data [1] +:+ "ff")) = 2%nat.
Proof. vm_compute. reflexivity. Qed.
End examples.
