(* ===== verification/FinalityService.v ===== *)
(** * The finality service ([apps/finality/src/main.rs])

    The loop that feeds the trackers of [Finality]: it reads normalized events
    and reorg notices from Redis, keeps one tracker per chain, publishes the
    updates and the notices the trackers emit, acknowledges what it has
    processed and stores the trackers in PostgreSQL.

    The service and what it leaves behind form one state [Service].  A Redis
    stream is the list of its entries with the number already delivered to the
    group: reading with [>] delivers the next ones.  The notices the service
    publishes and those it reads are one stream
    ([crates/state-manager/src/lib.rs]).  The environment answers by the number
    of the interaction: failures of Redis and of PostgreSQL, the readings of the
    clock, the identifiers of the entries.  Trimming by [MAXLEN], the start of
    the process and the health endpoint are left out. *)
From S2P Require Import Prelude F64 Text Numbers Ports EventSchema Finality AlertIO.

Definition chain_index (c : Chain) : nat :=
  match c with
  | Ethereum => 0 | Arbitrum => 1 | Optimism => 2 | Base => 3 | Polygon => 4 | Avalanche => 5
  | BSC => 6 | Offchain => 7 | UnknownChain => 8
  end%nat.
Definition chain_of_index (n : nat) : Chain :=
  match n with
  | 0 => Ethereum | 1 => Arbitrum | 2 => Optimism | 3 => Base | 4 => Polygon | 5 => Avalanche
  | 6 => BSC | 7 => Offchain | _ => UnknownChain
  end%nat.
#[global] Instance Chain_countable : Countable Chain.
Proof. apply (inj_countable' chain_index chain_of_index). by intros []. Defined.

Definition DEFAULT_BATCH_SIZE : Z := 100.
Definition PERSISTENCE_INTERVAL : Z := 100.
Definition STREAM_NORMALIZED_EVENTS : string := "raksha:normalized-events".
Definition STREAM_REORG_NOTICES : string := "raksha:reorg-notices".

(** a stream and what the group has been delivered of it *)
Record Stream (A : Type) := { stream_entries : list A; delivered : nat }.
Arguments stream_entries {A}. Arguments delivered {A}. Arguments Build_Stream {A}.
Definition xadd {A} (a : A) (s : Stream A) : Stream A :=
  Build_Stream (stream_entries s ++ [a]) (delivered s).
Definition next_entries {A} (count : nat) (s : Stream A) : list (nat * A) :=
  take (Nat.max count 1)
    (drop (delivered s) (zip (seq 0 (length (stream_entries s))) (stream_entries s))).
Definition deliver {A} (n : nat) (s : Stream A) : Stream A :=
  Build_Stream (stream_entries s) (delivered s + n).

Section service.
Context `{Chrono} `{SerdeJson} `{HashOrder}.

(** the derived codec of the two maps of [FinalityTrackerState] *)
Class TrackerCodec := {
  blocks_to_value : gmap Z BlockEntry -> Value;
  blocks_from_value : Value -> option (gmap Z BlockEntry);
  blocks_roundtrip : forall m, blocks_from_value (blocks_to_value m) = Some m;
  states_to_value : gmap string LifecycleState -> Value;
  states_from_value : Value -> option (gmap string LifecycleState);
  states_roundtrip : forall m, states_from_value (states_to_value m) = Some m
}.
Class FinalityEnv := {
  fin_clock : nat -> nat -> DateTime;   (* the readings during an interaction *)
  fin_redis_error : nat -> option string;
  fin_sql_error : nat -> option string;
  fin_entry_id : string -> nat -> string;
  env_var : string -> option string
}.
Context `{!TrackerCodec} `{!FinalityEnv}.

(** ** The stored state of a tracker *)
Record FinalityStateRow := {
  fs_chain : string;
  fs_head_block : Z;
  fs_confirmation_depth : Z;
  fs_blocks : Value;
  fs_states : Value
}.

Record Config := { batch_size : nat; use_consumer_group : bool; has_repository : bool }.
Record Service := {
  sv_step : nat;
  trackers : gmap Chain ChainFinalityTracker;
  engine : InMemoryFinalityEngine;
  event_count : Z;
  sv_processed : Z;
  normalized : Stream NormalizedEvent;
  reorgs : Stream ReorgNotice;
  published : list FinalityUpdate;
  sv_acked : list (string * string);
  finality_rows : gmap string FinalityStateRow
}.
Notation IO := (ST Service).

(** *** Field updates *)
Definition upd_step (n : nat) (s : Service) : Service :=
  {| sv_step := n; trackers := trackers s; engine := engine s; event_count := event_count s;
     sv_processed := sv_processed s; normalized := normalized s; reorgs := reorgs s;
     published := published s; sv_acked := sv_acked s; finality_rows := finality_rows s |}.
Definition upd_trackers (f : gmap Chain ChainFinalityTracker -> gmap Chain ChainFinalityTracker)
    (s : Service) : Service :=
  {| sv_step := sv_step s; trackers := f (trackers s); engine := engine s;
     event_count := event_count s; sv_processed := sv_processed s; normalized := normalized s;
     reorgs := reorgs s; published := published s; sv_acked := sv_acked s;
     finality_rows := finality_rows s |}.
Definition upd_engine (f : InMemoryFinalityEngine -> InMemoryFinalityEngine) (s : Service)
  : Service :=
  {| sv_step := sv_step s; trackers := trackers s; engine := f (engine s);
     event_count := event_count s; sv_processed := sv_processed s; normalized := normalized s;
     reorgs := reorgs s; published := published s; sv_acked := sv_acked s;
     finality_rows := finality_rows s |}.
Definition upd_counts (events processed : Z) (s : Service) : Service :=
  {| sv_step := sv_step s; trackers := trackers s; engine := engine s; event_count := events;
     sv_processed := processed; normalized := normalized s; reorgs := reorgs s;
     published := published s; sv_acked := sv_acked s; finality_rows := finality_rows s |}.
Definition upd_normalized (f : Stream NormalizedEvent -> Stream NormalizedEvent) (s : Service)
  : Service :=
  {| sv_step := sv_step s; trackers := trackers s; engine := engine s;
     event_count := event_count s; sv_processed := sv_processed s;
     normalized := f (normalized s); reorgs := reorgs s; published := published s;
     sv_acked := sv_acked s; finality_rows := finality_rows s |}.
Definition upd_reorgs (f : Stream ReorgNotice -> Stream ReorgNotice) (s : Service) : Service :=
  {| sv_step := sv_step s; trackers := trackers s; engine := engine s;
     event_count := event_count s; sv_processed := sv_processed s; normalized := normalized s;
     reorgs := f (reorgs s); published := published s; sv_acked := sv_acked s;
     finality_rows := finality_rows s |}.
Definition upd_published (f : list FinalityUpdate -> list FinalityUpdate) (s : Service) : Service :=
  {| sv_step := sv_step s; trackers := trackers s; engine := engine s;
     event_count := event_count s; sv_processed := sv_processed s; normalized := normalized s;
     reorgs := reorgs s; published := f (published s); sv_acked := sv_acked s;
     finality_rows := finality_rows s |}.
Definition upd_acked (f : list (string * string) -> list (string * string)) (s : Service)
  : Service :=
  {| sv_step := sv_step s; trackers := trackers s; engine := engine s;
     event_count := event_count s; sv_processed := sv_processed s; normalized := normalized s;
     reorgs := reorgs s; published := published s; sv_acked := f (sv_acked s);
     finality_rows := finality_rows s |}.
Definition upd_rows (f : gmap string FinalityStateRow -> gmap string FinalityStateRow)
    (s : Service) : Service :=
  {| sv_step := sv_step s; trackers := trackers s; engine := engine s;
     event_count := event_count s; sv_processed := sv_processed s; normalized := normalized s;
     reorgs := reorgs s; published := published s; sv_acked := sv_acked s;
     finality_rows := f (finality_rows s) |}.

(** ** Interactions *)
Definition modify (f : Service -> Service) : IO unit := fun s => (f s, Ret ()).
Definition fin_tick : IO nat := fun s => (upd_step (S (sv_step s)) s, Ret (sv_step s)).
Definition redis_write (f : Service -> Service) : IO unit :=
  n ← fin_tick; match fin_redis_error n with Some e => lift (Err e) | None => modify f end.
Definition sql {A} (m : IO A) : IO A :=
  n ← fin_tick; match fin_sql_error n with Some e => lift (Err e) | None => m end.

Definition publish_reorg_notice (notice : ReorgNotice) : IO unit :=
  redis_write (upd_reorgs (xadd notice)).
Definition publish_finality_update (update : FinalityUpdate) : IO unit :=
  redis_write (upd_published (fun us => us ++ [update])).
Definition fin_ack (stream entry_id : string) : IO unit :=
  redis_write (upd_acked (fun a => a ++ [(stream, entry_id)])).
Definition read_normalized_events_group (count : nat) : IO (list (string * NormalizedEvent)) :=
  s ← get_st;
  let entries := next_entries count (normalized s) in
  _ ← redis_write (upd_normalized (deliver (length entries)));
  mret ((fun e => (fin_entry_id STREAM_NORMALIZED_EVENTS (fst e), snd e)) <$> entries).
Definition read_reorg_notices_group (count : nat) : IO (list (string * ReorgNotice)) :=
  s ← get_st;
  let entries := next_entries count (reorgs s) in
  _ ← redis_write (upd_reorgs (deliver (length entries)));
  mret ((fun e => (fin_entry_id STREAM_REORG_NOTICES (fst e), snd e)) <$> entries).

Definition save_finality_state (row : FinalityStateRow) : IO unit :=
  sql (modify (upd_rows (<[fs_chain row := row]>))).
Definition load_finality_state (chain : string) : IO (option FinalityStateRow) :=
  sql (s ← get_st; mret (finality_rows s !! chain)).

(** ** Trackers *)
Definition depth_variable (c : Chain) : string :=
  match c with
  | Ethereum => "ETH_CONFIRMATION_DEPTH" | Arbitrum => "ARB_CONFIRMATION_DEPTH"
  | Optimism => "OP_CONFIRMATION_DEPTH" | Base => "BASE_CONFIRMATION_DEPTH"
  | Polygon => "POLYGON_CONFIRMATION_DEPTH" | Avalanche => "AVAX_CONFIRMATION_DEPTH"
  | BSC => "BSC_CONFIRMATION_DEPTH" | Offchain => "OFFCHAIN_CONFIRMATION_DEPTH"
  | UnknownChain => "CONFIRMATION_DEPTH"
  end.
Definition default_confirmation_depth_for_chain (c : Chain) : Z :=
  Z.max 1
    (default (match c with Base => 64 | Offchain => 1 | _ => 3 end)
       (value ← env_var (depth_variable c); parse_u64 value)).
Definition new_tracker (c : Chain) : ChainFinalityTracker :=
  tracker_new c (default_confirmation_depth_for_chain c).
Definition chain_str (c : Chain) : string := to_ascii_lowercase (chain_debug c).

(** [from_json], on the row put back together: the head must be a [u64] *)
Definition tracker_from_row (c : Chain) (row : FinalityStateRow) : outcome ChainFinalityTracker :=
  if fs_head_block row <? 0 then Err "invalid value: integer, expected u64" else
  bs ← of_option "invalid blocks" (blocks_from_value (fs_blocks row));
  ss ← of_option "invalid states" (states_from_value (fs_states row));
  Ret {| chain := c; default_confirmation_depth := wrap_u64 (fs_confirmation_depth row);
         head_block := fs_head_block row; blocks := bs; states := ss |}.
Definition load_tracker_from_db (c : Chain) : IO (option ChainFinalityTracker) :=
  state ← load_finality_state (chain_str c);
  match state with
  | None => mret None
  | Some row => t ← lift (tracker_from_row c row); mret (Some t)
  end.
(** [to_json] and the columns taken from it: [as_i64().unwrap_or(0)] of the head *)
Definition row_of_tracker (c : Chain) (t : ChainFinalityTracker) : FinalityStateRow :=
  {| fs_chain := chain_str c;
     fs_head_block := if head_block t <=? i64_max then head_block t else 0;
     fs_confirmation_depth := wrap_i32 (default_confirmation_depth_for_chain c);
     fs_blocks := blocks_to_value (blocks t);
     fs_states := states_to_value (states t) |}.
Definition persist_tracker (c : Chain) (t : ChainFinalityTracker) : IO unit :=
  save_finality_state (row_of_tracker c t).

Section run.
Variable cfg : Config.

(** the tracker of an event: the one in memory, else the stored one, else a new one *)
Definition ensure_tracker (c : Chain) : IO unit :=
  s ← get_st;
  match trackers s !! c with
  | Some _ => mret ()
  | None =>
      t ← (if has_repository cfg then
             r ← attempt (load_tracker_from_db c);
             mret (match r with Ret (Some t) => t | _ => new_tracker c end)
           else mret (new_tracker c));
      modify (upd_trackers (<[c := t]>))
  end.
Definition publish_update (update : FinalityUpdate) : IO unit :=
  _ ← publish_finality_update update;
  _ ← modify (upd_engine (fun e => engine_apply_update e update));
  modify (fun s => upd_counts (event_count s) (sv_processed s + 1) s).
Definition fin_readings : IO (nat -> DateTime) := n ← fin_tick; mret (fin_clock n).

(** one normalized event; the tracker keeps its new state even when a
    publication fails *)
Definition handle_normalized (entry : string * NormalizedEvent) : IO unit :=
  let '(entry_id, event) := entry in
  let c := ne_chain event in
  _ ← ensure_tracker c;
  s ← get_st;
  tracker ← lift (or_panic (trackers s !! c));
  clock ← fin_readings;
  noticed ← fin_readings;
  let '(tracker, batch) := observe_event tracker clock (noticed O) event in
  _ ← modify (upd_trackers (<[c := tracker]>));
  _ ← match reorg_notice batch with
      | Some notice =>
          _ ← publish_reorg_notice notice;
          modify (upd_engine (fun e => engine_handle_reorg_notice e notice))
      | None => mret ()
      end;
  _ ← iterate publish_update (updates batch);
  if use_consumer_group cfg then fin_ack STREAM_NORMALIZED_EVENTS entry_id else mret ().

(** [trackers.entry(chain).or_insert_with(new)]: the database is not asked *)
Definition handle_reorg (entry : string * ReorgNotice) : IO unit :=
  let '(entry_id, notice) := entry in
  let c := rn_chain notice in
  s ← get_st;
  let tracker := default (new_tracker c) (trackers s !! c) in
  clock ← fin_readings;
  let '(tracker, updates) := apply_reorg_notice tracker clock notice in
  _ ← modify (upd_trackers (<[c := tracker]>));
  _ ← modify (upd_engine (fun e => engine_handle_reorg_notice e notice));
  _ ← iterate publish_update updates;
  if use_consumer_group cfg then fin_ack STREAM_REORG_NOTICES entry_id else mret ().

Definition persist_all : IO unit :=
  s ← get_st;
  iterate (fun ct => log_error (persist_tracker (fst ct) (snd ct))) (hash_entries (trackers s)).
Definition persist_periodically : IO unit :=
  s ← get_st;
  let count := event_count s + sv_processed s in
  _ ← modify (upd_counts count (sv_processed s));
  if (PERSISTENCE_INTERVAL <=? count) && has_repository cfg then
    _ ← persist_all; modify (fun s => upd_counts 0 (sv_processed s) s)
  else mret ().

(** one turn of the loop; [true] when it goes on *)
Definition turn (shutdown run_once : bool) : IO bool :=
  _ ← modify (fun s => upd_counts (event_count s) 0 s);
  normalized_entries ← read_normalized_events_group (batch_size cfg);
  _ ← iterate handle_normalized normalized_entries;
  reorg_entries ← read_reorg_notices_group (batch_size cfg);
  _ ← iterate handle_reorg reorg_entries;
  _ ← persist_periodically;
  if shutdown then
    _ ← (if has_repository cfg then persist_all else mret ()); mret false
  else mret (negb run_once).
(** the turns until a shutdown; the flags are those read at each turn *)
Fixpoint run (flags : list (bool * bool)) : IO unit :=
  match flags with
  | [] => mret ()
  | (shutdown, run_once) :: flags =>
      go_on ← turn shutdown run_once; if (go_on : bool) then run flags else mret ()
  end.
End run.

Definition service_start (events : list NormalizedEvent) (notices : list ReorgNotice)
    (rows : gmap string FinalityStateRow) : Service :=
  {| sv_step := 0; trackers := ∅; engine := engine_new; event_count := 0; sv_processed := 0;
     normalized := Build_Stream events 0; reorgs := Build_Stream notices 0; published := [];
     sv_acked := []; finality_rows := rows |}.
End service.
