(* ===== verification/FinalityServiceProofs.v ===== *)
(** * The finality service: published updates, stored trackers, echoed notices

    What a successful handler does to the trackers, the streams and the table,
    and from it: the updates published for a chain rebuild the states of its
    tracker; a stored tracker is restored; a notice the service publishes comes
    back to it and removes the canonical block.

    A codec, an environment without failures, a short chain with a
    reorganisation, and the witnesses of [FinalityServiceProofs]. *)
From S2P Require Import Prelude F64 Text Numbers Ports EventSchema Finality AlertIO FinalityService.

Section proofs.
Context `{Chrono} `{SerdeJson} `{HashOrder} `{!TrackerCodec} `{!FinalityEnv}.
Notation IO := (ST Service).

(** ** The part of the service the theorems are about *)
Record Core := {
  c_trackers : gmap Chain ChainFinalityTracker;
  c_normalized : Stream NormalizedEvent;
  c_reorgs : Stream ReorgNotice;
  c_published : list FinalityUpdate;
  c_rows : gmap string FinalityStateRow
}.
Definition core (s : Service) : Core :=
  {| c_trackers := trackers s; c_normalized := normalized s; c_reorgs := reorgs s;
     c_published := published s; c_rows := finality_rows s |}.
(** on success the core changes by [f] *)
Definition moves {A} (f : Core -> Core) (m : IO A) : Prop :=
  forall s s' a, m s = (s', Ret a) -> core s' = f (core s).
Lemma moves_ret {A} (a : A) : moves id (mret a : IO A).
Proof. by intros s s' a' [= <- _]. Qed.
Lemma moves_bind {A B} f g (m : IO A) (k : A -> IO B) :
  moves f m -> (forall a, moves g (k a)) -> moves (fun c => g (f c)) (m ≫= k).
Proof.
  intros Hm Hk s s' b (s1 & a & Ha & Hb)%st_bind_ret_inv.
  by rewrite (Hk a _ _ _ Hb), (Hm _ _ _ Ha).
Qed.
Lemma moves_modify f g : (forall s, core (f s) = g (core s)) -> moves g (modify f).
Proof. intros Hf s s' a [= <- _]. apply Hf. Qed.
Lemma moves_redis f g : (forall s, core (f s) = g (core s)) -> moves g (redis_write f).
Proof.
  intros Hf s s' a. unfold redis_write, mbind, st_bind, fin_tick.
  destruct (fin_redis_error _); [done|]. intros [= <- _]. by rewrite Hf.
Qed.
Lemma moves_ext {A} f g (m : IO A) : moves f m -> (forall c, f c = g c) -> moves g m.
Proof. intros Hm Hfg s s' a Hs. by rewrite (Hm _ _ _ Hs). Qed.

(** *** Changes of the core *)
Definition put_tracker (c : Chain) (t : ChainFinalityTracker) (k : Core) : Core :=
  {| c_trackers := <[c := t]> (c_trackers k); c_normalized := c_normalized k;
     c_reorgs := c_reorgs k; c_published := c_published k; c_rows := c_rows k |}.
Definition put_updates (us : list FinalityUpdate) (k : Core) : Core :=
  {| c_trackers := c_trackers k; c_normalized := c_normalized k; c_reorgs := c_reorgs k;
     c_published := c_published k ++ us; c_rows := c_rows k |}.
Definition put_notice (n : option ReorgNotice) (k : Core) : Core :=
  {| c_trackers := c_trackers k; c_normalized := c_normalized k;
     c_reorgs := match n with Some n => xadd n (c_reorgs k) | None => c_reorgs k end;
     c_published := c_published k; c_rows := c_rows k |}.

Lemma ack_moves stream id : moves (fun c => c) (fin_ack stream id).
Proof. by apply moves_redis. Qed.
Lemma publish_update_moves u : moves (put_updates [u]) (publish_update u).
Proof.
  unfold publish_update. eapply moves_ext.
  - apply moves_bind; [by apply (moves_redis _ (put_updates [u]))|]. intros _.
    apply moves_bind; [by apply (moves_modify _ id)|]. intros _. by apply (moves_modify _ id).
  - done.
Qed.
Lemma publish_updates_moves us : moves (put_updates us) (iterate publish_update us).
Proof.
  unfold iterate. generalize (). induction us as [|u us IH]; intros x; cbn [for_each].
  - eapply moves_ext; [apply moves_ret|]. intros c. unfold put_updates. rewrite app_nil_r. by destruct c.
  - eapply moves_ext; [apply moves_bind; [apply publish_update_moves|intros y; apply IH]|].
    intros c. unfold put_updates. simpl. by rewrite <- app_assoc.
Qed.
Lemma notice_moves n : moves (put_notice n)
  (match n with
   | Some notice => _ ← publish_reorg_notice notice;
       modify (upd_engine (fun e => engine_handle_reorg_notice e notice))
   | None => mret ()
   end).
Proof.
  destruct n as [notice|].
  - eapply moves_ext; [apply moves_bind;
      [by apply (moves_redis _ (put_notice (Some notice)))|intros _; by apply (moves_modify _ id)]|done].
  - eapply moves_ext; [apply moves_ret|]. by intros [].
Qed.

(** a handler is a computed prefix and a move of the core *)
Lemma readings_ret s s' r : fin_readings s = (s', Ret r) -> core s' = core s.
Proof. by intros [= <- _]. Qed.

(** the tracker a chain starts with *)
Definition starts_as (cfg : Config) (rows : gmap string FinalityStateRow) (c : Chain)
    (t : ChainFinalityTracker) : Prop :=
  t = new_tracker c \/
  has_repository cfg = true /\ exists row, rows !! chain_str c = Some row /\
    tracker_from_row c row = Ret t.
Lemma load_tracker_cases c s s' o :
  attempt (load_tracker_from_db c) s = (s', Ret o) ->
  core s' = core s /\
  (forall t, o = Ret (Some t) -> exists row, finality_rows s !! chain_str c = Some row /\
     tracker_from_row c row = Ret t).
Proof.
  unfold attempt, load_tracker_from_db, load_finality_state, sql, fin_tick, get_st, lift, mbind,
    st_bind, mret, st_ret. simpl.
  destruct (fin_sql_error _); simpl; [intros [= <- <-]; by split|].
  destruct (finality_rows s !! chain_str c) as [row|] eqn:Hr; simpl;
    [|intros [= <- <-]; split; [done|by intros]].
  destruct (tracker_from_row c row) as [t|e|] eqn:Ht; simpl; intros [= <- <-]; split; try done.
  intros t' [= <-]. by exists row.
Qed.
Lemma ensure_tracker_cases cfg c s s' u :
  ensure_tracker cfg c s = (s', Ret u) ->
  exists t, trackers s' !! c = Some t /\ core s' = put_tracker c t (core s) /\
    (trackers s !! c = Some t \/ trackers s !! c = None /\ starts_as cfg (finality_rows s) c t).
Proof.
  unfold ensure_tracker. intros (s0 & x & [= <- <-] & Hs)%st_bind_ret_inv.
  destruct (trackers s !! c) as [t|] eqn:Ht.
  - injection Hs as <- _. exists t. split_and!; [done| |by left].
    unfold put_tracker, core. simpl. by rewrite insert_id.
  - apply st_bind_ret_inv in Hs as (s1 & t & Hs1 & Hs). injection Hs as <- _.
    exists t. simpl. rewrite lookup_insert_eq. split; [done|].
    destruct (has_repository cfg) eqn:Hrep.
    + apply st_bind_ret_inv in Hs1 as (s2 & o & Ha & Hs1). injection Hs1 as -> Ht'.
      apply load_tracker_cases in Ha as [Hc Hl].
      unfold core in Hc. injection Hc as Hc1 Hc2 Hc3 Hc4 Hc5.
      split; [unfold core, put_tracker; simpl; by rewrite Hc1, Hc2, Hc3, Hc4, Hc5|].
      right. split; [done|]. destruct o as [[t0|]|e|]; subst t; [|by left..].
      right. split; [done|]. by apply Hl.
    + injection Hs1 as <- <-. split; [done|]. right. split; [done|by left].
Qed.

(** what a handled event and a handled notice did *)
Lemma handle_normalized_ret cfg id ev s s' u :
  handle_normalized cfg (id, ev) s = (s', Ret u) ->
  exists t clock noticed, let r := observe_event t clock noticed ev in let c := ne_chain ev in
    (trackers s !! c = Some t \/ trackers s !! c = None /\ starts_as cfg (finality_rows s) c t) /\
    core s' = put_updates (updates r.2) (put_notice (reorg_notice r.2) (put_tracker c r.1 (core s))).
Proof.
  unfold handle_normalized.
  intros (s1 & u1 & (t & Ht & Hc1 & Hor)%ensure_tracker_cases & Hs)%st_bind_ret_inv.
  apply st_bind_ret_inv in Hs as (s2 & x & [= <- <-] & Hs).
  rewrite Ht in Hs. apply st_bind_ret_inv in Hs as (s2 & t0 & [= <- <-] & Hs).
  apply st_bind_ret_inv in Hs as (s3 & clock & Hr3%readings_ret & Hs).
  apply st_bind_ret_inv in Hs as (s4 & noticed & Hr4%readings_ret & Hs).
  exists t, clock, (noticed O). destruct (observe_event t clock (noticed O) ev) as [t' b].
  cbv zeta. split; [exact Hor|]. cbn [fst snd].
  revert Hs. assert (core s4 = put_tracker (ne_chain ev) t (core s)) as Hc4 by congruence.
  set (m := (_ ≫= _)). assert (moves (fun k => put_updates (updates b)
    (put_notice (reorg_notice b) (put_tracker (ne_chain ev) t' k))) m) as Hm.
  { unfold m. eapply moves_ext.
    - apply moves_bind; [by apply (moves_modify _ (put_tracker (ne_chain ev) t'))|]. intros _.
      apply moves_bind; [apply notice_moves|]. intros _.
      apply moves_bind; [apply publish_updates_moves|]. intros _.
      instantiate (1 := fun c => c).
      destruct (use_consumer_group cfg); [apply ack_moves|apply moves_ret].
    - done. }
  intros Hs. rewrite (Hm _ _ _ Hs), Hc4. unfold put_updates, put_notice, put_tracker. simpl.
  by rewrite insert_insert_eq.
Qed.
Lemma handle_reorg_ret cfg id n s s' u :
  handle_reorg cfg (id, n) s = (s', Ret u) ->
  exists clock, let c := rn_chain n in
    let r := apply_reorg_notice (default (new_tracker c) (trackers s !! c)) clock n in
    core s' = put_updates r.2 (put_tracker c r.1 (core s)).
Proof.
  unfold handle_reorg. intros (s1 & x & [= <- <-] & Hs)%st_bind_ret_inv.
  apply st_bind_ret_inv in Hs as (s2 & clock & Hr%readings_ret & Hs).
  exists clock. cbv zeta. destruct (apply_reorg_notice _ clock n) as [t' us]. cbn [fst snd].
  rewrite <- Hr. revert Hs.
  set (m := (_ ≫= _)).
  assert (moves (fun k => put_updates us (put_tracker (rn_chain n) t' k)) m) as Hm.
  { unfold m. eapply moves_ext.
    - apply moves_bind; [by apply (moves_modify _ (put_tracker (rn_chain n) t'))|]. intros _.
      apply moves_bind; [by apply (moves_modify _ (fun k => k))|]. intros _.
      apply moves_bind; [apply publish_updates_moves|]. intros _.
      instantiate (1 := fun c => c).
      destruct (use_consumer_group cfg); [apply ack_moves|apply moves_ret].
    - done. }
  intros Hs. by rewrite (Hm _ _ _ Hs).
Qed.

(** ** Updates carry the chain of their tracker *)
Definition of_chain (c : Chain) (us : list FinalityUpdate) : Prop := Forall (fun u => fu_chain u = c) us.
Lemma of_chain_update c clock us key b h st : of_chain c us -> of_chain c (mk_update c clock us key b h st).
Proof. intros Hu. apply Forall_app. split; [done|by repeat constructor]. Qed.
Lemma retract_keys_chain c clock b h keys acc :
  of_chain c acc.2 -> of_chain c (foldl (retract_key c clock b h) acc keys).2.
Proof.
  intros Ha. apply (foldl_inv (fun acc => of_chain c acc.2)); [done|].
  intros [st us] k _ Hus. simpl. case_bool_decide; [done|by apply of_chain_update].
Qed.
Lemma handle_conflict_chain t clock noticed ev t' b :
  handle_conflict t clock noticed ev = (t', b) -> chain t' = chain t /\ of_chain (chain t) (updates b).
Proof.
  unfold handle_conflict. destruct (detect_conflicting_hash _ _ _) as [h|]; [|intros [= <- <-]; split; [done|constructor]].
  destruct (collect_affected_event_keys _ _) as [|k ks]; [intros [= <- <-]; split; [done|constructor]|].
  pose proof (retract_keys_chain (chain t) clock (ne_block_number ev) (Some h) (k :: ks) (states t, []))
    as Hr. change (chain (rollback_from_block t (ne_block_number ev))) with (chain t).
  change (states (rollback_from_block t (ne_block_number ev))) with (states t).
  destruct (foldl _ _ _) as [st us]. intros [= <- <-]. split; [done|]. apply Hr. constructor.
Qed.
Lemma observe_event_chain t clock noticed ev t' b :
  observe_event t clock noticed ev = (t', b) -> chain t' = chain t /\ of_chain (chain t) (updates b).
Proof.
  unfold observe_event. case_bool_decide; simpl; [|intros [= <- <-]; split; [done|constructor]].
  destruct (handle_conflict t clock noticed ev) as [t1 b1] eqn:Hc.
  apply handle_conflict_chain in Hc as [Hc1 Hu1].
  assert (forall t2 us, mark_provisional (record_event t1 ev) clock ev (updates b1) = (t2, us) ->
    chain t2 = chain t /\ of_chain (chain t) us) as Hm.
  { unfold mark_provisional. intros t2 us. simpl. rewrite Hc1.
    case_match; intros [= <- <-]; (split; [done|]); [done|by apply of_chain_update]. }
  destruct (mark_provisional _ _ _ _) as [t2 us] eqn:Hmp. destruct (Hm _ _ eq_refl) as [Hc2 Hu2].
  rewrite Hc2. set (height := sat_sub _ _).
  pose proof (confirm_blocks_inv (fun acc => of_chain (chain t) acc.2) (chain t) clock height
    (btree_entries (blocks t2)) (states t2, us) Hu2) as Hf.
  destruct (confirm_blocks _ _ _ _ _) as [st us']. intros [= <- <-]. split; [exact Hc2|].
  apply Hf. intros n e k [st0 us0] _ _ _ Ha. simpl. case_bool_decide; [by apply of_chain_update|done].
Qed.
Lemma apply_reorg_notice_chain t clock n t' us :
  apply_reorg_notice t clock n = (t', us) -> chain t' = chain t /\ of_chain (chain t) us.
Proof.
  unfold apply_reorg_notice. case_bool_decide; simpl; [|intros [= <- <-]; split; [done|constructor]].
  pose proof (retract_keys_chain (chain t) clock (orphaned_from_block n) None
    (affected_event_keys n) (states t, [])) as Hr.
  destruct (foldl _ _ _) as [st us0]. intros [= <- <-]. split; [done|]. apply Hr. constructor.
Qed.

(** ** The updates rebuild the trackers *)
Definition updates_of (c : Chain) (us : list FinalityUpdate) : list FinalityUpdate :=
  filter (fun u => fu_chain u = c) us.
(** the states a tracker started from: none, or those stored for its chain *)
Definition stored_or_none (rows : gmap string FinalityStateRow) (c : Chain)
    (s0 : gmap string LifecycleState) : Prop :=
  s0 = ∅ \/ exists row, rows !! chain_str c = Some row /\ states_from_value (fs_states row) = Some s0.
Definition rebuilt (rows0 : gmap string FinalityStateRow) (k : Core) : Prop := forall c,
  match c_trackers k !! c with
  | Some t => chain t = c /\ exists s0, stored_or_none rows0 c s0 /\
      replay s0 (updates_of c (c_published k)) = states t
  | None => updates_of c (c_published k) = [] /\ c_rows k !! chain_str c = rows0 !! chain_str c
  end.

Lemma updates_of_same c us : of_chain c us -> updates_of c us = us.
Proof. induction 1 as [|u us Hu _ IH]; [done|]. unfold updates_of in *. by rewrite filter_cons_True, IH. Qed.
Lemma updates_of_other c c' us : c <> c' -> of_chain c us -> updates_of c' us = [].
Proof.
  intros Hne. induction 1 as [|u us Hu _ IH]; [done|]. unfold updates_of in *.
  rewrite filter_cons_False; [done|]. congruence.
Qed.
Lemma chain_str_inj c c' : chain_str c = chain_str c' -> c = c'.
Proof. by destruct c, c'; vm_compute. Qed.
Lemma starts_as_spec cfg rows c t : starts_as cfg rows c t ->
  chain t = c /\ (states t = ∅ \/ exists row, rows !! chain_str c = Some row /\
    states_from_value (fs_states row) = Some (states t)).
Proof.
  intros [->|(_ & row & Hrow & Ht)]; [split; [done|by left]|].
  unfold tracker_from_row in Ht. destruct (fs_head_block row <? 0); [done|].
  destruct (blocks_from_value _) as [bs|]; [|done]. simpl in Ht.
  destruct (states_from_value (fs_states row)) as [ss|] eqn:Hss; [|done]. injection Ht as <-.
  split; [done|]. right. by exists row.
Qed.

(** a tracker step whose updates are published keeps the relation *)
Lemma rebuilt_step cfg rows0 k n c t t' us :
  rebuilt rows0 k ->
  (c_trackers k !! c = Some t \/ c_trackers k !! c = None /\ starts_as cfg (c_rows k) c t) ->
  chain t' = chain t -> of_chain (chain t) us -> replay (states t) us = states t' ->
  rebuilt rows0 (put_updates us (put_notice n (put_tracker c t' k))).
Proof.
  intros Hk Hor Hc Hus Hr c'.
  assert (chain t = c) as Hct.
  { specialize (Hk c). destruct Hor as [Ht|[Ht Hst]]; [rewrite Ht in Hk; apply Hk|].
    by apply starts_as_spec in Hst as [? _]. }
  simpl. unfold updates_of. rewrite filter_app.
  fold (updates_of c' (c_published k)). fold (updates_of c' us). specialize (Hk c').
  destruct (decide (c' = c)) as [->|Hne].
  - rewrite lookup_insert_eq. split; [congruence|].
    rewrite (updates_of_same c us) by (by rewrite <- Hct).
    destruct Hor as [Ht|[Ht Hst]]; rewrite Ht in Hk.
    + destruct Hk as (_ & s0 & Hs0 & Hrep). exists s0. split; [done|]. by rewrite replay_app, Hrep.
    + destruct Hk as [Hnil Hrow]. apply starts_as_spec in Hst as [_ Hst].
      exists (states t). rewrite Hnil. split; [|exact Hr]. unfold stored_or_none. by rewrite <- Hrow.
  - rewrite lookup_insert_ne by done.
    by rewrite (updates_of_other (chain t) c' us), app_nil_r by congruence || done.
Qed.

(** *** Through a turn of the loop *)
Definition keeps {A} (P : Core -> Prop) (m : IO A) : Prop :=
  forall s s' a, P (core s) -> m s = (s', Ret a) -> P (core s').
Lemma keeps_bind {A B} P (m : IO A) (f : A -> IO B) :
  keeps P m -> (forall a, keeps P (f a)) -> keeps P (m ≫= f).
Proof. intros Hm Hf s s' b Hs (s1 & a & Ha & Hb)%st_bind_ret_inv. by eapply Hf; [eapply Hm|]. Qed.
Lemma keeps_moves {A} P f (m : IO A) : moves f m -> (forall k, P k -> P (f k)) -> keeps P m.
Proof. intros Hm Hf s s' a Hs Ha. rewrite (Hm _ _ _ Ha). by apply Hf. Qed.
Lemma keeps_iterate {A} P (f : A -> IO unit) l :
  (forall x, x ∈ l -> keeps P (f x)) -> keeps P (iterate f l).
Proof.
  unfold iterate. generalize (). induction l as [|x l IH]; intros u Hf; cbn [for_each].
  - eapply keeps_moves; [apply moves_ret|done].
  - apply keeps_bind; [apply Hf; by left|]. intros v. apply IH. intros y Hy. apply Hf. by right.
Qed.

Lemma rebuilt_streams rows0 k k' :
  c_trackers k' = c_trackers k -> c_published k' = c_published k -> c_rows k' = c_rows k ->
  rebuilt rows0 k -> rebuilt rows0 k'.
Proof. intros Ht Hp Hr Hk c. rewrite Ht, Hp, Hr. apply Hk. Qed.
Lemma handle_normalized_keeps cfg rows0 entry : keeps (rebuilt rows0) (handle_normalized cfg entry).
Proof.
  destruct entry as [id ev]. intros s s' u Hk (t & clock & noticed & Hor & ->)%handle_normalized_ret.
  destruct (observe_event t clock noticed ev) as [t' b] eqn:Ho. cbn [fst snd] in *.
  pose proof (observe_event_chain _ _ _ _ _ _ Ho) as [Hc Hu].
  apply observe_event_ok in Ho as [Hr _]. by eapply rebuilt_step.
Qed.
Lemma handle_reorg_keeps cfg rows0 entry : keeps (rebuilt rows0) (handle_reorg cfg entry).
Proof.
  destruct entry as [id n]. intros s s' u Hk (clock & ->)%handle_reorg_ret.
  destruct (apply_reorg_notice _ clock n) as [t' us] eqn:Ho. cbn [fst snd].
  pose proof (apply_reorg_notice_chain _ _ _ _ _ Ho) as [Hc Hu].
  apply apply_reorg_notice_ok in Ho as [Hr _].
  refine (rebuilt_step cfg rows0 (core s) None (rn_chain n) _ t' us Hk _ Hc Hu Hr).
  simpl. destruct (trackers s !! rn_chain n) as [t|]; [by left|right].
  split; [done|by left].
Qed.

(** storing trackers writes the rows of chains that have one *)
Definition with_trackers (ts : gmap Chain ChainFinalityTracker) (P : Core -> Prop) (k : Core) : Prop :=
  c_trackers k = ts /\ P k.
Definition put_row (row : FinalityStateRow) (k : Core) : Core :=
  {| c_trackers := c_trackers k; c_normalized := c_normalized k; c_reorgs := c_reorgs k;
     c_published := c_published k; c_rows := <[fs_chain row := row]> (c_rows k) |}.
Lemma persist_item_keeps P c t : (forall k, P k -> P (put_row (row_of_tracker c t) k)) ->
  keeps P (log_error (persist_tracker c t)).
Proof.
  intros HP s s' u Hk Hs. rewrite log_error_run in Hs.
  unfold persist_tracker, save_finality_state, sql, fin_tick, modify, lift, mbind, st_bind in Hs.
  destruct (fin_sql_error _); injection Hs as <-; [exact Hk|]. apply (HP _ Hk).
Qed.
Lemma persist_keeps rows0 ts c t : ts !! c = Some t ->
  keeps (with_trackers ts (rebuilt rows0)) (log_error (persist_tracker c t)).
Proof.
  intros Hc. apply persist_item_keeps. intros k [Hts Hk]. split; [exact Hts|].
  intros c'. specialize (Hk c'). simpl in *. destruct (c_trackers k !! c') as [t'|] eqn:Ht; [exact Hk|].
  destruct Hk as [Hp Hr]. split; [exact Hp|]. rewrite lookup_insert_ne; [exact Hr|].
  intros He%chain_str_inj. subst c'. by rewrite <- Hts, Ht in Hc.
Qed.
Lemma persist_all_keeps rows0 : keeps (rebuilt rows0) persist_all.
Proof.
  intros s s' u Hk (s1 & x & [= <- <-] & Hs)%st_bind_ret_inv.
  apply (keeps_iterate (with_trackers (trackers s) (rebuilt rows0))) in Hs; [apply Hs| |by split].
  intros [c t] Hin. apply persist_keeps. by apply elem_of_hash_entries.
Qed.
Lemma get_keeps {A} P (f : Service -> IO A) : (forall s, keeps P (f s)) -> keeps P (s ← get_st; f s).
Proof. intros Hf. apply keeps_bind; [by intros s s' a Hs [= <- _]|done]. Qed.
Lemma counts_keeps P f g : keeps P (modify (fun s => upd_counts (f s) (g s) s)).
Proof. by intros s s' a Hs [= <- _]. Qed.
Lemma counts_const_keeps P x y : keeps P (modify (upd_counts x y)).
Proof. by intros s s' a Hs [= <- _]. Qed.
Lemma periodic_keeps cfg rows0 : keeps (rebuilt rows0) (persist_periodically cfg).
Proof.
  apply get_keeps. intros s0. apply keeps_bind; [apply counts_const_keeps|]. intros _.
  destruct (_ && _).
  - apply keeps_bind; [apply persist_all_keeps|]. intros _. apply counts_keeps.
  - eapply keeps_moves; [apply moves_ret|done].
Qed.
Definition put_streams (f : Stream NormalizedEvent -> Stream NormalizedEvent)
    (g : Stream ReorgNotice -> Stream ReorgNotice) (k : Core) : Core :=
  {| c_trackers := c_trackers k; c_normalized := f (c_normalized k); c_reorgs := g (c_reorgs k);
     c_published := c_published k; c_rows := c_rows k |}.
Lemma read_normalized_keeps rows0 n : keeps (rebuilt rows0) (read_normalized_events_group n).
Proof.
  apply get_keeps. intros s0. apply keeps_bind.
  - eapply keeps_moves; [by apply (moves_redis _ (put_streams (deliver (length (next_entries n (normalized s0)))) id))|].
    intros k. by apply rebuilt_streams.
  - intros _. eapply keeps_moves; [apply moves_ret|done].
Qed.
Lemma read_reorg_keeps rows0 n : keeps (rebuilt rows0) (read_reorg_notices_group n).
Proof.
  apply get_keeps. intros s0. apply keeps_bind.
  - eapply keeps_moves; [by apply (moves_redis _ (put_streams id (deliver (length (next_entries n (reorgs s0))))))|].
    intros k. by apply rebuilt_streams.
  - intros _. eapply keeps_moves; [apply moves_ret|done].
Qed.
Lemma turn_keeps cfg rows0 shutdown run_once : keeps (rebuilt rows0) (turn cfg shutdown run_once).
Proof.
  unfold turn. apply keeps_bind; [apply counts_keeps|]. intros _.
  apply keeps_bind; [apply read_normalized_keeps|]. intros events.
  apply keeps_bind; [apply keeps_iterate; intros; apply handle_normalized_keeps|]. intros _.
  apply keeps_bind; [apply read_reorg_keeps|]. intros notices.
  apply keeps_bind; [apply keeps_iterate; intros; apply handle_reorg_keeps|]. intros _.
  apply keeps_bind; [apply periodic_keeps|]. intros _.
  destruct shutdown; [|eapply keeps_moves; [apply moves_ret|done]].
  apply keeps_bind; [|intros _; eapply keeps_moves; [apply moves_ret|done]].
  destruct (has_repository cfg); [apply persist_all_keeps|eapply keeps_moves; [apply moves_ret|done]].
Qed.
Lemma run_keeps cfg rows0 flags : keeps (rebuilt rows0) (run cfg flags).
Proof.
  induction flags as [|[shutdown run_once] flags IH]; [eapply keeps_moves; [apply moves_ret|done]|].
  apply keeps_bind; [apply turn_keeps|]. intros []; [exact IH|eapply keeps_moves; [apply moves_ret|done]].
Qed.

(** C13: The published updates rebuild every tracker.  Over any number of turns
    of the service that end without an error, with events and notices of several
    chains interleaved, trackers loaded from the database or new, notices echoed
    and trackers stored in between: replaying the updates published for a chain,
    on the states stored for it when the service started (or on none), gives
    exactly the states of the tracker of that chain, and a chain without a
    tracker has no update. *)
Theorem published_updates_rebuild cfg events notices rows flags s :
  run cfg flags (service_start events notices rows) = (s, Ret ()) ->
  forall c, match trackers s !! c with
    | Some t => exists s0, stored_or_none rows c s0 /\
        replay s0 (updates_of c (published s)) = states t
    | None => updates_of c (published s) = []
    end.
Proof.
  intros Hr c. eapply run_keeps with (rows0 := rows) in Hr.
  - specialize (Hr c). unfold core in Hr. simpl in Hr.
    destruct (trackers s !! c); apply Hr.
  - by intros c'.
Qed.

(** ** A stored tracker is restored *)
Definition restored (c : Chain) (t : ChainFinalityTracker) : ChainFinalityTracker :=
  {| chain := c; default_confirmation_depth := default_confirmation_depth_for_chain c;
     head_block := head_block t; blocks := blocks t; states := states t |}.
Lemma row_restored c t :
  0 <= head_block t <= i64_max -> default_confirmation_depth_for_chain c < 2 ^ 31 ->
  tracker_from_row c (row_of_tracker c t) = Ret (restored c t).
Proof.
  intros Hh Hd. unfold tracker_from_row, row_of_tracker, restored. simpl.
  replace (head_block t <=? i64_max) with true by (symmetry; apply Z.leb_le; lia).
  replace (head_block t <? 0) with false by (symmetry; apply Z.ltb_ge; lia).
  rewrite blocks_roundtrip, states_roundtrip. simpl. do 2 f_equal.
  assert (1 <= default_confirmation_depth_for_chain c) by apply Z.le_max_l.
  unfold wrap_i32, wrap_u64. rewrite (Z.mod_small (_ + _)), Z.add_simpl_r by lia.
  apply Z.mod_small. lia.
Qed.

(** A stored tracker is restored.  Once [persist_tracker] has stored the
    tracker of a chain, a service that has no tracker for the chain yet (one
    that restarted) and receives an event of it continues with the same head,
    blocks and states, when the database answers, the head fits 64 bits signed
    and the configured depth 32. *)
Theorem persisted_tracker_restored cfg c t s1 s2 s3 s4 u :
  has_repository cfg = true -> (forall n, fin_sql_error n = None) ->
  0 <= head_block t <= i64_max -> default_confirmation_depth_for_chain c < 2 ^ 31 ->
  persist_tracker c t s1 = (s2, Ret ()) ->
  finality_rows s3 = finality_rows s2 -> trackers s3 !! c = None ->
  ensure_tracker cfg c s3 = (s4, Ret u) ->
  trackers s4 = <[c := restored c t]> (trackers s3).
Proof.
  intros Hrep Hsql Hh Hd Hp Hrows Hnone He.
  unfold persist_tracker, save_finality_state, sql, fin_tick, modify, mbind, st_bind in Hp.
  rewrite Hsql in Hp. injection Hp as <-. simpl in Hrows.
  unfold ensure_tracker, get_st, mbind, st_bind in He. rewrite Hnone, Hrep in He.
  unfold attempt, load_tracker_from_db, load_finality_state, sql, fin_tick, get_st, mbind, st_bind in He.
  rewrite Hsql in He. unfold mret, st_ret, lift in He. cbn [finality_rows upd_step] in He.
  rewrite Hrows, lookup_insert_eq, row_restored in He by done.
  by injection He as <- _.
Qed.

(** ** The service reads its own notices *)
Lemma next_after_xadd {A} count (a : A) (st : Stream A) :
  delivered st = length (stream_entries st) ->
  next_entries count (xadd a st) = [(length (stream_entries st), a)].
Proof.
  intros Hd. unfold next_entries, xadd. cbn [stream_entries delivered].
  rewrite length_app. simpl length. rewrite Nat.add_1_r, seq_S, zip_with_app by by rewrite length_seq.
  rewrite Hd, drop_app_length' by (rewrite length_zip_with, length_seq; lia).
  rewrite take_ge; [done|simpl; lia].
Qed.
Lemma iterate_one {A} (f : A -> IO unit) x s s' u :
  iterate f [x] s = (s', Ret u) -> exists v, f x s = (s', Ret v).
Proof. unfold iterate. simpl. intros (s1 & v & Hf & [= <- _])%st_bind_ret_inv. by exists v. Qed.
Lemma read_normalized_ret n s s' l : read_normalized_events_group n s = (s', Ret l) ->
  core s' = put_streams (deliver (length (next_entries n (normalized s)))) id (core s) /\
  l = (fun e => (fin_entry_id STREAM_NORMALIZED_EVENTS (fst e), snd e)) <$> next_entries n (normalized s).
Proof.
  intros (s1 & x & [= <- <-] & (s2 & y & Hw & [= <- <-])%st_bind_ret_inv)%st_bind_ret_inv.
  split; [|done]. by eapply moves_redis in Hw.
Qed.
Lemma read_reorg_ret n s s' l : read_reorg_notices_group n s = (s', Ret l) ->
  core s' = put_streams id (deliver (length (next_entries n (reorgs s)))) (core s) /\
  l = (fun e => (fin_entry_id STREAM_REORG_NOTICES (fst e), snd e)) <$> next_entries n (reorgs s).
Proof.
  intros (s1 & x & [= <- <-] & (s2 & y & Hw & [= <- <-])%st_bind_ret_inv)%st_bind_ret_inv.
  split; [|done]. by eapply moves_redis in Hw.
Qed.
Lemma turn_tail_keeps cfg ts shutdown run_once :
  keeps (fun k => c_trackers k = ts)
    (_ ← persist_periodically cfg;
     if (shutdown : bool) then
       _ ← (if has_repository cfg then persist_all else mret ()); mret false
     else mret (negb run_once)).
Proof.
  assert (keeps (fun k => c_trackers k = ts) persist_all) as Hall.
  { apply get_keeps. intros s0. apply keeps_iterate. intros x _. by apply persist_item_keeps. }
  assert (forall A (a : A), keeps (fun k => c_trackers k = ts) (mret a : IO A)) as Hret
    by (intros A a; eapply keeps_moves; [apply moves_ret|done]).
  apply keeps_bind.
  - apply get_keeps. intros s0. apply keeps_bind; [apply counts_const_keeps|]. intros _.
    destruct (_ && _); [|apply Hret]. apply keeps_bind; [exact Hall|intros _; apply counts_keeps].
  - intros _. destruct shutdown; [|apply Hret]. apply keeps_bind; [|intros _; apply Hret].
    destruct (has_repository cfg); [exact Hall|apply Hret].
Qed.

(** a block recorded with another hash *)
Definition conflicts (t : ChainFinalityTracker) (ev : NormalizedEvent) : Prop :=
  exists e0 h0 h1, blocks t !! ne_block_number ev = Some e0 /\ block_hash e0 = Some h0 /\
    ne_block_hash ev = Some h1 /\ h0 <> h1.
Lemma conflict_notice t clock noticed ev :
  tracker_inv t -> ne_chain ev = chain t -> conflicts t ev ->
  exists notice, reorg_notice (observe_event t clock noticed ev).2 = Some notice /\
    rn_chain notice = ne_chain ev /\ orphaned_from_block notice = ne_block_number ev /\
    chain (observe_event t clock noticed ev).1 = ne_chain ev /\
    head_block (observe_event t clock noticed ev).1 = ne_block_number ev.
Proof.
  intros Hi Hc (e0 & h0 & h1 & He0 & Hh0 & Hh1 & Hne).
  destruct (observe_event_frame t clock noticed ev Hc)
    as (t1 & b & t3 & us & Hcf & _ & _ & _ & Hh & _ & Hn & _).
  assert (Hdet : detect_conflicting_hash t (ne_block_number ev) (ne_block_hash ev) = Some h1).
  { unfold detect_conflicting_hash. rewrite He0. simpl. rewrite Hh0, Hh1. simpl.
    by rewrite bool_decide_eq_false_2. }
  destruct (handle_conflict_reorg t clock noticed ev h1 t1 b Hdet Hcf) as (_ & Hr & _ & Hhead).
  { intros Hnil. destruct Hi as (_ & _ & _ & Hi). specialize (Hi _ _ He0).
    destruct (event_keys e0) as [|k ks] eqn:Hks; [done|].
    assert (k ∈ []) as Hin; [|by apply not_elem_of_nil in Hin].
    rewrite <- Hnil. apply elem_of_affected. exists (ne_block_number ev), e0. rewrite Hks.
    split_and!; [done|done|]. apply elem_of_cons. by left. }
  eexists. split; [rewrite Hn; exact Hr|]. split_and!; [done|done| |].
  - destruct (observe_event t clock noticed ev) as [t' b'] eqn:Ho.
    apply observe_event_chain in Ho as [Ho _]. simpl. congruence.
  - rewrite Hh, Hhead. destruct Hi as (Hi & _). specialize (Hi _ _ He0).
    destruct (last_key_spec (filter (fun kv : Z * BlockEntry => kv.1 < ne_block_number ev) (blocks t)))
      as [_ [[_ ->]|[x Hx]]]; [lia|].
    apply map_lookup_filter_Some in Hx as [_ Hx]. simpl in Hx. lia.
Qed.
(** a key seen for the first time is not confirmed by the observation that
    returns the head to its block, and is recorded nowhere below it *)
Lemma first_seen_at_head t clock noticed ev :
  tracker_inv t -> ne_chain ev = chain t -> states t !! ne_event_key ev = None ->
  let t' := (observe_event t clock noticed ev).1 in
  head_block t' = ne_block_number ev -> 0 < ne_block_number ev ->
  0 < confirmation_depth_for t ev ->
  states t' !! ne_event_key ev <> Some Confirmed /\
  forall m e, blocks t' !! m = Some e -> m < ne_block_number ev -> ne_event_key ev ∉ event_keys e.
Proof.
  intros (_ & _ & Hi & _) Hc Hnone t' Hh Hn Hd.
  assert (Hlow : forall m e, blocks t' !! m = Some e -> m < ne_block_number ev ->
    ne_event_key ev ∉ event_keys e).
  { intros m e Hm Hlt Hk.
    destruct (observed_blocks t clock noticed ev m e _ Hc Hm Hk) as [[-> _]|(e0 & He0 & Hk0)]; [lia|].
    destruct (Hi m e0 _ He0 Hk0) as [st Hst]. congruence. }
  split; [|done]. intros Hconf.
  destruct (confirmed_is_recorded t clock noticed ev _ Hc Hconf) as (m & e & Hm & Hle & Hk);
    [congruence|]. fold t' in Hm, Hle. rewrite Hh in Hle. unfold sat_sub in Hle.
  by apply (Hlow m e); [|lia|].
Qed.
Lemma notice_empties t clock n m e :
  rn_chain n = chain t -> blocks (apply_reorg_notice t clock n).1 !! m = Some e ->
  m < orphaned_from_block n.
Proof.
  intros Hc. unfold apply_reorg_notice. rewrite bool_decide_eq_true_2 by done. simpl.
  destruct (foldl _ _ _) as [st us]. simpl. by intros [_ Hm]%map_lookup_filter_Some.
Qed.

(** a turn that delivers a conflicting event ends with the tracker that observed
    it and then applied its own notice *)
Lemma echoed_turn cfg s s' ev i t shutdown run_once b :
  next_entries (batch_size cfg) (normalized s) = [(i, ev)] ->
  delivered (reorgs s) = length (stream_entries (reorgs s)) ->
  trackers s !! ne_chain ev = Some t -> chain t = ne_chain ev -> tracker_inv t -> conflicts t ev ->
  turn cfg shutdown run_once s = (s', Ret b) ->
  exists clock clock' noticed notice,
    let t1 := (observe_event t clock noticed ev).1 in
    trackers s' !! ne_chain ev = Some (apply_reorg_notice t1 clock' notice).1 /\
    rn_chain notice = ne_chain ev /\ orphaned_from_block notice = ne_block_number ev /\
    chain t1 = ne_chain ev /\ head_block t1 = ne_block_number ev.
Proof.
  intros Hnext Hdel Ht Hc Hi Hconf. unfold turn.
  intros (s1 & u & [= <- _] & Hs)%st_bind_ret_inv.
  apply st_bind_ret_inv in Hs as (s2 & l & Hread%read_normalized_ret & Hs).
  destruct Hread as [Hc2 ->]. cbn [normalized upd_counts] in Hc2, Hs. rewrite Hnext in Hc2, Hs.
  apply st_bind_ret_inv in Hs as (s3 & u1 & (u2 & Hh)%iterate_one & Hs).
  apply handle_normalized_ret in Hh as (t0 & clock & noticed & Hor & Hc3).
  injection Hc2 as Ht2 Hn2 Hr2 Hp2 Hrow2.
  assert (t0 = t) as ->.
  { cbn [fst snd] in Hor. rewrite Ht2, Ht in Hor. destruct Hor as [[= ->]|[? _]]; done. }
  destruct (conflict_notice t clock noticed ev Hi (eq_sym Hc) Hconf)
    as (notice & Hn & Hnc & Ho & Hch & Hhd).
  cbn [fst snd] in Hc3. rewrite Hn in Hc3. injection Hc3 as Ht3 Hn3 Hr3 Hp3 Hrow3.
  rewrite Hr2 in Hr3.
  apply st_bind_ret_inv in Hs as (s4 & l & Hread%read_reorg_ret & Hs). destruct Hread as [Hc4 ->].
  rewrite Hr3 in Hc4, Hs. rewrite next_after_xadd in Hc4, Hs by done.
  apply st_bind_ret_inv in Hs as (s5 & u3 & (u4 & Hh)%iterate_one & Hs).
  apply handle_reorg_ret in Hh as (clock' & Hc5).
  injection Hc4 as Ht4 _ _ _ _. injection Hc5 as Ht5 _ _ _ _.
  cbn [fst snd] in Ht5. rewrite Hnc, Ht4, Ht3, lookup_insert_eq in Ht5.
  change (default (new_tracker (ne_chain ev)) (Some (observe_event t clock noticed ev).1))
    with (observe_event t clock noticed ev).1 in Ht5.
  assert (trackers s' = trackers s5) as Hts.
  { apply (turn_tail_keeps cfg (trackers s5) shutdown run_once) in Hs; [exact Hs|done]. }
  exists clock, clock', noticed, notice. by rewrite Hts, Ht5, lookup_insert_eq.
Qed.

(** C30: A detected reorganisation also removes the canonical block.  Let the
    turn of the loop deliver one event, alone, of a key not seen before, whose
    positive block is recorded with another hash, with a positive confirmation
    depth, and let the service have read its own reorg stream to the end.  The
    notice it publishes is the next entry of that stream, which it reads in the
    same turn: when the turn succeeds, the tracker is left without any block at
    or above that of the event, the one just recorded included, and whatever
    events with other keys and notices the tracker meets from then on, the event
    is not confirmed. *)
Theorem echoed_notice_removes_canonical cfg s s' ev i t shutdown run_once b ins :
  next_entries (batch_size cfg) (normalized s) = [(i, ev)] ->
  delivered (reorgs s) = length (stream_entries (reorgs s)) ->
  trackers s !! ne_chain ev = Some t -> chain t = ne_chain ev -> tracker_inv t -> conflicts t ev ->
  states t !! ne_event_key ev = None ->
  0 < ne_block_number ev -> 0 < confirmation_depth_for t ev ->
  turn cfg shutdown run_once s = (s', Ret b) ->
  Forall (fun ci => forall noticed ev', ci.2 = Observe noticed ev' ->
    ne_event_key ev' <> ne_event_key ev) ins ->
  exists t', trackers s' !! ne_chain ev = Some t' /\
    (forall m e, blocks t' !! m = Some e -> m < ne_block_number ev) /\
    states (tracker_run t' ins).1 !! ne_event_key ev <> Some Confirmed.
Proof.
  intros Hnext Hdel Ht Hc Hi Hconf Hnone Hn0 Hd0 Hturn Hins.
  destruct (echoed_turn cfg s s' ev i t shutdown run_once b Hnext Hdel Ht Hc Hi Hconf Hturn)
    as (clock & clock' & noticed & notice & Hs' & Hnc & Ho & Hch & Hh).
  eexists. split; [exact Hs'|].
  assert (Hempty : forall m e, blocks (apply_reorg_notice (observe_event t clock noticed ev).1
    clock' notice).1 !! m = Some e -> m < ne_block_number ev).
  { intros m e Hm. apply notice_empties in Hm; [by rewrite Ho in Hm|congruence]. }
  destruct (first_seen_at_head t clock noticed ev Hi (eq_sym Hc) Hnone Hh Hn0 Hd0) as [Hnc' Hlow].
  destruct (notice_frame (observe_event t clock noticed ev).1 clock' notice (ne_event_key ev))
    as [Hb Hst].
  split; [done|]. apply unrecorded_never_confirmed; [|by intros Hk; apply Hnc', Hst|done].
  intros m e Hm. apply (Hlow m e); [by apply Hb|by eapply Hempty].
Qed.

(** A notice before the first event discards the stored tracker.  When a
    reorg notice is the first entry of its chain after a restart, the tracker is
    built without asking the database: it has no block, knows the affected
    events only, and replaces the stored one in memory and, at the next
    persistence, in the database. *)
Theorem early_notice_discards_stored cfg id n s s' u :
  trackers s !! rn_chain n = None -> handle_reorg cfg (id, n) s = (s', Ret u) ->
  exists t, trackers s' !! rn_chain n = Some t /\ blocks t = ∅ /\
    forall k, is_Some (states t !! k) -> k ∈ affected_event_keys n.
Proof.
  intros Hnone (clock & Hc)%handle_reorg_ret. cbv zeta in Hc. rewrite Hnone in Hc. cbn [default] in Hc.
  injection Hc as Ht _ _ _ _. rewrite Ht, lookup_insert_eq. eexists. split; [done|].
  unfold apply_reorg_notice. rewrite bool_decide_eq_true_2 by done. cbn [negb].
  pose proof (foldl_inv (fun acc : gmap string LifecycleState * list FinalityUpdate =>
      forall k, is_Some (acc.1 !! k) -> k ∈ affected_event_keys n)
    (retract_key (rn_chain n) clock (orphaned_from_block n) None) (affected_event_keys n) (∅, [])) as Hf.
  cbn [chain new_tracker tracker_new rollback_from_block states blocks] in *.
  change (chain (rollback_from_block (new_tracker (rn_chain n)) (orphaned_from_block n))) with (rn_chain n).
  change (states (rollback_from_block (new_tracker (rn_chain n)) (orphaned_from_block n)))
    with (∅ : gmap string LifecycleState).
  destruct (foldl _ _ _) as [st us]. split; [done|]. apply Hf.
  - intros k [x Hx]. simpl in Hx. by rewrite lookup_empty in Hx.
  - intros [st0 us0] k Hk Ha k'. simpl. destruct (decide (k = k')) as [->|Hne]; [done|].
    rewrite lookup_insert_ne by done. apply Ha.
Qed.
End proofs.

(** ** A concrete run *)

Section examples.
#[local] Existing Instance chrono_Z.
#[local] Existing Instance serde_json_tree.
#[local] Existing Instance canonical_order.

(** ** Codec *)
Definition lifecycle_names : list (LifecycleState * string) :=
  [ (Provisional, "provisional"); (Confirmed, "confirmed"); (Retracted, "retracted");
    (Suppressed, "suppressed"); (Resolved, "resolved") ].
Definition lifecycle_of (s : string) : option LifecycleState :=
  find_map (fun p => if bool_decide (snd p = s) then Some (fst p) else None) lifecycle_names.
Definition state_to_json (p : string * LifecycleState) : json :=
  JArray [JString (fst p); JString (lifecycle_lower (snd p))].
Definition state_of_json (v : json) : option (string * LifecycleState) :=
  match v with JArray [JString k; JString s] => st ← lifecycle_of s; Some (k, st) | _ => None end.
Definition block_to_json (p : Z * BlockEntry) : json :=
  JArray [JInt (fst p); opt_to_json JString (block_hash (snd p));
          JArray (JString <$> event_keys (snd p))].
Definition block_of_json (v : json) : option (Z * BlockEntry) :=
  match v with
  | JArray [JInt n; h; JArray ks] =>
      keys ← mapM json_text ks; Some (n, {| block_hash := json_text h; event_keys := keys |})
  | _ => None
  end.
Lemma lifecycle_json_roundtrip p : state_of_json (state_to_json p) = Some p.
Proof. by destruct p as [k []]. Qed.
Lemma keys_json_roundtrip ks : mapM json_text (JString <$> ks) = Some ks.
Proof. apply mapM_Some. induction ks as [|k ks IH]; simpl; constructor; done. Qed.
Lemma block_json_roundtrip p : block_of_json (block_to_json p) = Some p.
Proof.
  destruct p as [n [h ks]]. unfold block_of_json, block_to_json. cbn [fst snd event_keys block_hash].
  rewrite keys_json_roundtrip. cbn [mbind option_bind]. by rewrite opt_text_roundtrip.
Qed.
(** a finite map as the array of its entries *)
Definition map_to_json {K V} `{Countable K} (f : K * V -> json) (m : gmap K V) : json :=
  JArray (f <$> map_to_list m).
Definition map_of_json {K V} `{Countable K} (f : json -> option (K * V)) (v : json)
  : option (gmap K V) :=
  match v with JArray l => ps ← mapM f l; Some (list_to_map ps) | _ => None end.
Lemma map_json_roundtrip {K V} `{Countable K} (to : K * V -> json) from (m : gmap K V) :
  (forall p, from (to p) = Some p) -> map_of_json from (map_to_json to m) = Some m.
Proof.
  intros Hp. unfold map_of_json, map_to_json.
  replace (mapM from (to <$> map_to_list m)) with (Some (map_to_list m)).
  - simpl. by rewrite list_to_map_to_list.
  - symmetry. apply mapM_Some. induction (map_to_list m); simpl; by constructor.
Qed.
Definition tracker_codec : TrackerCodec :=
  {| blocks_to_value := map_to_json block_to_json : gmap Z BlockEntry -> Value;
     blocks_from_value := map_of_json block_of_json : Value -> option (gmap Z BlockEntry);
     blocks_roundtrip := fun m => map_json_roundtrip _ _ m block_json_roundtrip;
     states_to_value := map_to_json state_to_json : gmap string LifecycleState -> Value;
     states_from_value := map_of_json state_of_json : Value -> option (gmap string LifecycleState);
     states_roundtrip := fun m => map_json_roundtrip _ _ m lifecycle_json_roundtrip |}.
#[local] Existing Instance tracker_codec.
Definition quiet_env : FinalityEnv :=
  {| fin_clock := fun n i => at_ns (Z.of_nat (n + i)); fin_redis_error := fun _ => None;
     fin_sql_error := fun _ => None; fin_entry_id := fun stream n => stream +:+ fmt_Z (Z.of_nat n);
     env_var := fun v => if bool_decide (v = "ETH_CONFIRMATION_DEPTH") then Some "2" else None |}.
#[local] Existing Instance quiet_env.

(** ** A reorganisation at block 101 *)
Definition ev (key : string) (block : Z) (hash : string) : NormalizedEvent :=
  sample_event key block hash false 0.
Definition cfg : Config := {| batch_size := 2; use_consumer_group := true; has_repository := true |}.
Definition reorg_events : list NormalizedEvent :=
  [ev "a" 100 "h100"; ev "b" 101 "h101"; ev "c" 101 "other"; ev "d" 102 "h102";
   ev "e" 103 "h103"; ev "f" 104 "h104"; ev "g" 109 "h109"; ev "h" 110 "h110"].
Definition reorg_run : Service * outcome unit :=
  run cfg (repeat (false, false) 4) (service_start reorg_events [] ∅).
Definition state_of (s : Service) (key : string) : option LifecycleState :=
  t ← trackers s !! Ethereum; states t !! key.
(** the event of the canonical block stays provisional nine blocks later *)
Example canonical_never_confirmed :
  state_of reorg_run.1 "a" = Some Confirmed /\ state_of reorg_run.1 "b" = Some Retracted /\
  state_of reorg_run.1 "c" = Some Provisional /\ state_of reorg_run.1 "e" = Some Confirmed.
Proof. vm_compute. done. Qed.

Lemma reorg_run_ret : reorg_run.2 = Ret ().
Proof. vm_compute. reflexivity. Qed.
Lemma published_updates_rebuild_witness :
  match trackers reorg_run.1 !! Ethereum with
  | Some t => exists s0, stored_or_none ∅ Ethereum s0 /\
      replay s0 (updates_of Ethereum (published reorg_run.1)) = states t
  | None => updates_of Ethereum (published reorg_run.1) = []
  end.
Proof.
  apply (published_updates_rebuild cfg reorg_events [] ∅ (repeat (false, false) 4) reorg_run.1).
  exact (eq_trans (surjective_pairing reorg_run) (f_equal (pair reorg_run.1) reorg_run_ret)).
Defined.

(** ** A tracker with two blocks *)
Definition with_tracker (events : list NormalizedEvent) : Service :=
  {| sv_step := 0; trackers := {[Ethereum := sample_tracker]}; engine := engine_new;
     event_count := 0; sv_processed := 0; normalized := Build_Stream events 0;
     reorgs := Build_Stream [] 0; published := []; sv_acked := []; finality_rows := ∅ |}.
Definition reorg_turn : Service * outcome bool := turn cfg false false (with_tracker [ev "c" 101 "other"]).
Lemma reorg_turn_ret : reorg_turn.2 = Ret true.
Proof. vm_compute. reflexivity. Qed.
Lemma sample_conflicts : conflicts sample_tracker (ev "c" 101 "other").
Proof.
  exists {| block_hash := Some "h101"; event_keys := ["b"] |}, "h101", "other".
  split_and!; reflexivity || done.
Qed.
Definition later_events : list ((nat -> DateTime) * input) :=
  (fun n => (sample_clock, Observe (at_ns 9) (ev (fmt_Z n) n "later"))) <$> [102; 103; 104; 110].
Lemma echoed_notice_removes_canonical_witness :
  exists t', trackers reorg_turn.1 !! Ethereum = Some t' /\
    (forall m e, blocks t' !! m = Some e -> m < 101) /\
    states (tracker_run t' later_events).1 !! "c" <> Some Confirmed.
Proof.
  apply (echoed_notice_removes_canonical cfg (with_tracker [ev "c" 101 "other"]) reorg_turn.1
    (ev "c" 101 "other") 0 sample_tracker false false true).
  - reflexivity.
  - reflexivity.
  - reflexivity.
  - reflexivity.
  - apply tracker_index_invariant. repeat constructor; simpl; lia.
  - exact sample_conflicts.
  - reflexivity.
  - reflexivity.
  - reflexivity.
  - exact (eq_trans (surjective_pairing reorg_turn) (f_equal (pair reorg_turn.1) reorg_turn_ret)).
  - repeat constructor; simpl; intros noticed ev' [= _ <-]; discriminate.
Defined.

(** ** Stored and restored *)
Definition stored : Service * outcome unit := persist_tracker Ethereum sample_tracker (with_tracker []).
Definition restarted : Service := service_start [] [] (finality_rows stored.1).
Definition continued : Service * outcome unit := ensure_tracker cfg Ethereum restarted.
Lemma stored_ret : stored.2 = Ret ().
Proof. vm_compute. reflexivity. Qed.
Lemma continued_ret : continued.2 = Ret ().
Proof. vm_compute. reflexivity. Qed.
Lemma persisted_tracker_restored_witness :
  is_some (trackers continued.1 !! Ethereum) = true /\
  trackers continued.1 = <[Ethereum := restored Ethereum sample_tracker]> (trackers restarted).
Proof.
  split; [vm_compute; reflexivity|].
  apply (persisted_tracker_restored cfg Ethereum sample_tracker (with_tracker []) stored.1 restarted
    continued.1 ()).
  - reflexivity.
  - done.
  - change (head_block sample_tracker) with 101. unfold i64_max. lia.
  - change (default_confirmation_depth_for_chain Ethereum) with 2. lia.
  - exact (eq_trans (surjective_pairing stored) (f_equal (pair stored.1) stored_ret)).
  - reflexivity.
  - reflexivity.
  - exact (eq_trans (surjective_pairing continued) (f_equal (pair continued.1) continued_ret)).
Defined.

(** ** A notice before any event *)
Definition early_notice : ReorgNotice :=
  {| rn_chain := Ethereum; orphaned_from_block := 50; common_ancestor_block := 49;
     affected_event_keys := ["z"]; noticed_at := at_ns 0 |}.
Definition early : Service * outcome unit := handle_reorg cfg ("0-1", early_notice) restarted.
Lemma early_ret : early.2 = Ret ().
Proof. vm_compute. reflexivity. Qed.
Lemma early_notice_discards_stored_witness :
  is_some (finality_rows restarted !! "ethereum") = true /\
  exists t, trackers early.1 !! Ethereum = Some t /\ blocks t = ∅ /\
    forall k, is_Some (states t !! k) -> k ∈ ["z"].
Proof.
  split; [vm_compute; reflexivity|].
  apply (early_notice_discards_stored cfg "0-1" early_notice restarted early.1 ()); [reflexivity|].
  exact (eq_trans (surjective_pairing early) (f_equal (pair early.1) early_ret)).
Defined.
End examples.
