(* ===== verification/IngestStore.v ===== *)
(** * The ingestion tables ([crates/state-manager/src/persistence.rs],
    [crates/state-manager/src/raw_repository.rs])

    The rows the indexer writes and reads: the operational events with their two
    unique indexes ([infra/sql/bootstrap/core_schema.sql]), the health of the
    sources, the raw tables keyed by idempotency key, the catalogue of stream
    configurations.  A statement is a function of the tables and of [NOW()];
    failures belong to the environment of the caller ([WorkerIO]).  Identifiers
    generated by the database are arguments. *)
From S2P Require Import Prelude F64 Text Ports EventSchema.

Section records.
Context `{Chrono} `{SerdeJson}.

Record IngestOperationalEventRecord := {
  oe_stream_id : option string;
  oe_source_id : string;
  oe_source_type : string;
  oe_tenant_id : option string;
  oe_event_type : string;
  oe_event_id : option string;
  oe_market_key : option string;
  oe_asset_pair : option string;
  oe_chain_id : option Z;
  oe_block_number : option Z;
  oe_tx_hash : option string;
  oe_log_index : option Z;
  oe_topic0 : option string;
  oe_price : option f64;
  oe_payload_event_ts : option DateTime;
  oe_observed_at : DateTime;
  oe_parse_status : string;
  oe_parse_error : option string;
  oe_payload : Value;
  oe_normalized_fields : Value;
  oe_dedup_key : option string;
  oe_raw_ref_type : option string;
  oe_raw_ref_id : option string;
  oe_raw_s3_uri : option string;
  oe_is_simulated : bool;
  oe_simulation_run_id : option string
}.
Definition with_tenant (t : option string) (r : IngestOperationalEventRecord)
  : IngestOperationalEventRecord :=
  {| oe_stream_id := oe_stream_id r; oe_source_id := oe_source_id r;
     oe_source_type := oe_source_type r; oe_tenant_id := t; oe_event_type := oe_event_type r;
     oe_event_id := oe_event_id r; oe_market_key := oe_market_key r;
     oe_asset_pair := oe_asset_pair r; oe_chain_id := oe_chain_id r;
     oe_block_number := oe_block_number r; oe_tx_hash := oe_tx_hash r;
     oe_log_index := oe_log_index r; oe_topic0 := oe_topic0 r; oe_price := oe_price r;
     oe_payload_event_ts := oe_payload_event_ts r; oe_observed_at := oe_observed_at r;
     oe_parse_status := oe_parse_status r; oe_parse_error := oe_parse_error r;
     oe_payload := oe_payload r; oe_normalized_fields := oe_normalized_fields r;
     oe_dedup_key := oe_dedup_key r; oe_raw_ref_type := oe_raw_ref_type r;
     oe_raw_ref_id := oe_raw_ref_id r; oe_raw_s3_uri := oe_raw_s3_uri r;
     oe_is_simulated := oe_is_simulated r; oe_simulation_run_id := oe_simulation_run_id r |}.

Record SourceEnvelopeV1 := {
  ev_envelope_id : string;
  ev_source_id : string;
  ev_source_type : string;
  ev_stream_id : string;
  ev_schema_version : string;
  ev_event_type : string;
  ev_event_ts : DateTime;
  ev_observed_at : DateTime;
  ev_partition_key : string;
  ev_idempotency_key : string;
  ev_payload : Value;
  ev_chain_id : option Z;
  ev_block_number : option Z;
  ev_tx_hash : option string;
  ev_log_index : option Z;
  ev_topic0 : option string;
  ev_market_key : option string;
  ev_price : option f64;
  ev_is_simulated : bool;
  ev_simulation_run_id : option string
}.
Record RawRecordPointer := { raw_ref_type : string; raw_ref_id : string }.
Record IngestFailureRecord := {
  fl_stream_id : option string;
  fl_source_id : string;
  fl_source_type : string;
  fl_event_type : option string;
  fl_payload_excerpt : Value;
  fl_error_kind : string;
  fl_error_message : string;
  fl_retryable : bool;
  fl_observed_at : DateTime
}.
Record OperationalSourcePrice := {
  os_source_id : string;
  os_price : f64;
  os_observed_at : DateTime
}.
Record EffectiveStreamConfig := {
  sc_stream_config_id : string;
  sc_source_id : string;
  sc_source_type : string;
  sc_source_name : string;
  sc_source_scope_kind : string;
  sc_owner_tenant_id : option string;
  sc_connection_config : Value;
  sc_connector_mode : string;
  sc_operating_mode_profile : string;
  sc_stream_name : string;
  sc_subscription_key : option string;
  sc_event_type : string;
  sc_parser_name : string;
  sc_market_key : option string;
  sc_asset_pair : option string;
  sc_filter_config : Value;
  sc_auth_secret_ref : option string;
  sc_auth_config : Value;
  sc_payload_ts_path : option string;
  sc_payload_ts_unit : string;
  sc_poll_interval_ms : option Z
}.

(** ** Tables *)

Record HealthRow := {
  hr_healthy : bool;
  hr_last_message_at : option DateTime;
  hr_last_error : option string;
  hr_updated_at : DateTime
}.
(** a row of [chain_events], [dex_events] or [cex_ticks]; a column the table
    does not have is [None] *)
Record RawRow := {
  rr_id : string;
  rr_source_id : string;
  rr_stream_id : string;
  rr_event_type : string;
  rr_event_ts : DateTime;
  rr_observed_at : DateTime;
  rr_market_key : option string;
  rr_chain_id : option Z;
  rr_block_number : option Z;
  rr_tx_hash : option string;
  rr_log_index : option Z;
  rr_topic0 : option string;
  rr_price_last : option f64;
  rr_sequence : option string;
  rr_provider : option string;
  rr_request_window : option string;
  rr_payload : Value;
  rr_schema_version : string;
  rr_is_simulated : bool;
  rr_simulation_run_id : option string
}.
(** the columns of [source_stream_configs] and [data_sources] that are read *)
Record StreamConfigRow := {
  scr_config : EffectiveStreamConfig;   (* the columns of the stream itself *)
  scr_enabled : bool;
  scr_connection_config_override : option Value
}.
Record DataSourceRow := {
  ds_source_type : string;
  ds_source_name : string;
  ds_scope_kind : option string;
  ds_scope : string;
  ds_owner_tenant_id : option string;
  ds_connection_config : Value;
  ds_enabled : bool
}.
Record TenantTargetRow := { tt_stream_config_id : string; tt_tenant_id : string; tt_enabled : bool }.

Record IngestTables := {
  operational : list (IngestOperationalEventRecord * DateTime);   (* with [created_at] *)
  source_health : gmap (string * string) HealthRow;
  chain_events : gmap string RawRow;
  dex_events : gmap string RawRow;
  cex_ticks : gmap string RawRow;
  ingest_failures : list (IngestFailureRecord * DateTime);
  (** read here, written by other services *)
  stream_configs : list StreamConfigRow;
  data_sources : gmap string DataSourceRow;
  tenant_targets_table : list TenantTargetRow
}.
Implicit Types t : IngestTables.
Definition with_operational (x : list (IngestOperationalEventRecord * DateTime)) t : IngestTables :=
  {| operational := x; source_health := source_health t; chain_events := chain_events t;
     dex_events := dex_events t; cex_ticks := cex_ticks t; ingest_failures := ingest_failures t;
     stream_configs := stream_configs t; data_sources := data_sources t;
     tenant_targets_table := tenant_targets_table t |}.
Definition with_health (x : gmap (string * string) HealthRow) t : IngestTables :=
  {| operational := operational t; source_health := x; chain_events := chain_events t;
     dex_events := dex_events t; cex_ticks := cex_ticks t; ingest_failures := ingest_failures t;
     stream_configs := stream_configs t; data_sources := data_sources t;
     tenant_targets_table := tenant_targets_table t |}.
Definition with_raw (chain dex cex : gmap string RawRow) t : IngestTables :=
  {| operational := operational t; source_health := source_health t; chain_events := chain;
     dex_events := dex; cex_ticks := cex; ingest_failures := ingest_failures t;
     stream_configs := stream_configs t; data_sources := data_sources t;
     tenant_targets_table := tenant_targets_table t |}.
Definition with_failures (x : list (IngestFailureRecord * DateTime)) t : IngestTables :=
  {| operational := operational t; source_health := source_health t; chain_events := chain_events t;
     dex_events := dex_events t; cex_ticks := cex_ticks t; ingest_failures := x;
     stream_configs := stream_configs t; data_sources := data_sources t;
     tenant_targets_table := tenant_targets_table t |}.

(** ** Operational events *)

(** equal values that are not [NULL] *)
Definition same_some (a b : option string) : bool :=
  match a, b with Some x, Some y => bool_decide (x = y) | _, _ => false end.
(** [uq_ingest_operational_event_id], [uq_ingest_operational_dedup] *)
Definition violates_unique (r row : IngestOperationalEventRecord) : bool :=
  same_some (oe_event_id r) (oe_event_id row) || same_some (oe_dedup_key r) (oe_dedup_key row).
Definition PARSE_STATUSES : list string := ["parsed"; "partial"; "raw_only"; "error"].
(** [INSERT .. ON CONFLICT DO NOTHING]; whether a row was inserted *)
Definition insert_ingest_operational_event (now : DateTime) (r : IngestOperationalEventRecord) t
  : IngestTables * outcome bool :=
  if bool_decide (oe_parse_status r ∉ PARSE_STATUSES) then
    (t, Err "violates check constraint")
  else if existsb (fun row => violates_unique r row.1) (operational t) then (t, Ret false)
  else (with_operational (operational t ++ [(r, now)]) t, Ret true).

(** [observed_at >= NOW() - s seconds] *)
Definition fresh (now : DateTime) (seconds : Z) (at_ : DateTime) : bool :=
  ns now - seconds * 1000000000 <=? ns at_.
Definition priced_row (now : DateTime) (market_key : string) (seconds : Z)
    (row : IngestOperationalEventRecord * DateTime) : bool :=
  bool_decide (oe_market_key row.1 = Some market_key) &&
  match oe_price row.1 with Some _ => true | None => false end &&
  (bool_decide (oe_parse_status row.1 = "parsed") || bool_decide (oe_parse_status row.1 = "partial")) &&
  fresh now seconds (oe_observed_at row.1).
Definition newest_first (a b : IngestOperationalEventRecord * DateTime) : bool :=
  dt_le (oe_observed_at b.1) (oe_observed_at a.1).
Definition priced_rows (now : DateTime) (market_key : string) (max_age_seconds : Z) t
  : list (IngestOperationalEventRecord * DateTime) :=
  sort_by newest_first
    (List.filter (priced_row now market_key (Z.max max_age_seconds 1)) (operational t)).
(** [ORDER BY observed_at DESC LIMIT 1] *)
Definition latest_operational_market_price (now : DateTime) (market_key : string)
    (max_age_seconds : Z) t : option f64 :=
  row ← priced_rows now market_key max_age_seconds t !! O; oe_price row.1.
Definition source_price (row : IngestOperationalEventRecord * DateTime)
  : option OperationalSourcePrice :=
  p ← oe_price row.1;
  Some {| os_source_id := oe_source_id row.1; os_price := p; os_observed_at := oe_observed_at row.1 |}.
(** [DISTINCT ON (source_id) .. ORDER BY source_id, observed_at DESC] *)
Fixpoint first_per_source (seen : list string)
    (rows : list (IngestOperationalEventRecord * DateTime)) : list OperationalSourcePrice :=
  match rows with
  | [] => []
  | row :: rows =>
      if bool_decide (oe_source_id row.1 ∈ seen) then first_per_source seen rows
      else match source_price row with
           | Some p => p :: first_per_source (oe_source_id row.1 :: seen) rows
           | None => first_per_source seen rows
           end
  end.
Definition latest_operational_source_prices (now : DateTime) (market_key : string)
    (max_age_seconds : Z) t : list OperationalSourcePrice :=
  first_per_source [] (priced_rows now market_key max_age_seconds t).

(** [created_at < NOW() - s seconds] *)
Definition older (now : DateTime) (seconds : Z) (at_ : DateTime) : bool :=
  ns at_ <? ns now - seconds * 1000000000.
Definition purge_old_tick_events (now : DateTime) (retention_seconds : Z) t : IngestTables :=
  let seconds := Z.max retention_seconds 0 in
  let old row := (bool_decide (oe_event_type row.1 = "quote")
                  || bool_decide (oe_event_type row.1 = "trade")) && older now seconds row.2 in
  with_operational (List.filter (fun row => negb (old row)) (operational t)) t.

(** ** Source health *)
Definition update_source_health (now : DateTime) (tenant_id source_id : string) (healthy : bool)
    (error : option string) t : IngestTables :=
  let key := (tenant_id, source_id) in
  let last := match source_health t !! key with
              | Some old => hr_last_message_at old
              | None => None
              end in
  let row := {| hr_healthy := healthy;
                hr_last_message_at := if healthy then Some now else last;
                hr_last_error := error; hr_updated_at := now |} in
  with_health (<[key := row]> (source_health t)) t.

(** ** Raw tables *)

Definition raw_row (id : string) (e : SourceEnvelopeV1) (market_key : option string)
    (chain_id block_number : option Z) (tx_hash : option string) (log_index : option Z)
    (topic0 : option string) (price : option f64) (sequence provider request_window : option string)
  : RawRow :=
  {| rr_id := id; rr_source_id := ev_source_id e; rr_stream_id := ev_stream_id e;
     rr_event_type := ev_event_type e; rr_event_ts := ev_event_ts e;
     rr_observed_at := ev_observed_at e; rr_market_key := market_key; rr_chain_id := chain_id;
     rr_block_number := block_number; rr_tx_hash := tx_hash; rr_log_index := log_index;
     rr_topic0 := topic0; rr_price_last := price; rr_sequence := sequence;
     rr_provider := provider; rr_request_window := request_window; rr_payload := ev_payload e;
     rr_schema_version := ev_schema_version e; rr_is_simulated := ev_is_simulated e;
     rr_simulation_run_id := ev_simulation_run_id e |}.
Definition chain_event_row (id : string) (e : SourceEnvelopeV1) : RawRow :=
  raw_row id e None (ev_chain_id e) (ev_block_number e) (ev_tx_hash e) (ev_log_index e)
    (ev_topic0 e) None None (Some (ev_source_id e)) (Some (ev_partition_key e)).
Definition dex_event_row (id : string) (e : SourceEnvelopeV1) : RawRow :=
  raw_row id e (ev_market_key e) (ev_chain_id e) None (ev_tx_hash e) None None None None None None.
Definition cex_tick_row (id : string) (e : SourceEnvelopeV1) : RawRow :=
  raw_row id e (ev_market_key e) None None None None None (ev_price e) (Some (ev_envelope_id e))
    None None.
(** [ON CONFLICT (idempotency_key) DO UPDATE] of three columns *)
Definition merge_raw (new old : RawRow) : RawRow :=
  {| rr_id := rr_id old; rr_source_id := rr_source_id old; rr_stream_id := rr_stream_id old;
     rr_event_type := rr_event_type old; rr_event_ts := rr_event_ts old;
     rr_observed_at := rr_observed_at new; rr_market_key := rr_market_key old;
     rr_chain_id := rr_chain_id old; rr_block_number := rr_block_number old;
     rr_tx_hash := rr_tx_hash old; rr_log_index := rr_log_index old; rr_topic0 := rr_topic0 old;
     rr_price_last := rr_price_last old; rr_sequence := rr_sequence old;
     rr_provider := rr_provider old; rr_request_window := rr_request_window old;
     rr_payload := rr_payload old; rr_schema_version := rr_schema_version old;
     rr_is_simulated := rr_is_simulated new; rr_simulation_run_id := rr_simulation_run_id new |}.
Definition upsert_raw (key : string) (new : RawRow) (m : gmap string RawRow)
  : gmap string RawRow * string :=
  let row := match m !! key with Some old => merge_raw new old | None => new end in
  (<[key := row]> m, rr_id row).

(** the insert of [write_source_envelope]; [id] is generated by the database *)
Definition insert_chain_event (id : string) (e : SourceEnvelopeV1) t
  : IngestTables * RawRecordPointer :=
  let '(m, id) := upsert_raw (ev_idempotency_key e) (chain_event_row id e) (chain_events t) in
  (with_raw m (dex_events t) (cex_ticks t) t,
   {| raw_ref_type := "rawdb:raw_ingest.chain_events"; raw_ref_id := id |}).
Definition insert_dex_event (id : string) (e : SourceEnvelopeV1) t
  : IngestTables * RawRecordPointer :=
  let '(m, id) := upsert_raw (ev_idempotency_key e) (dex_event_row id e) (dex_events t) in
  (with_raw (chain_events t) m (cex_ticks t) t,
   {| raw_ref_type := "rawdb:raw_ingest.dex_events"; raw_ref_id := id |}).
Definition insert_cex_tick (id : string) (e : SourceEnvelopeV1) t
  : IngestTables * RawRecordPointer :=
  let '(m, id) := upsert_raw (ev_idempotency_key e) (cex_tick_row id e) (cex_ticks t) in
  (with_raw (chain_events t) (dex_events t) m t,
   {| raw_ref_type := "rawdb:raw_ingest.cex_ticks"; raw_ref_id := id |}).
Definition insert_envelope (id : string) (e : SourceEnvelopeV1) t
  : IngestTables * RawRecordPointer :=
  if bool_decide (ev_source_type e = "evm_chain") then insert_chain_event id e t
  else if bool_decide (ev_source_type e = "cex_websocket") then insert_cex_tick id e t
  else insert_dex_event id e t.
Definition insert_ingest_failure (now : DateTime) (f : IngestFailureRecord) t : IngestTables :=
  with_failures (ingest_failures t ++ [(f, now)]) t.

(** rows older than the retention go, simulated ones stay *)
Definition purge_raw (now : DateTime) (retention_seconds : Z) (m : gmap string RawRow)
  : gmap string RawRow :=
  let seconds := Z.max retention_seconds 0 in
  filter (fun kv => older now seconds (rr_observed_at kv.2) && negb (rr_is_simulated kv.2) = false) m.
Definition purge_old_cex_ticks (now : DateTime) (retention : Z) t : IngestTables :=
  with_raw (chain_events t) (dex_events t) (purge_raw now retention (cex_ticks t)) t.
Definition purge_old_chain_events (now : DateTime) (retention : Z) t : IngestTables :=
  with_raw (purge_raw now retention (chain_events t)) (dex_events t) (cex_ticks t) t.
Definition purge_old_dex_events (now : DateTime) (retention : Z) t : IngestTables :=
  with_raw (chain_events t) (purge_raw now retention (dex_events t)) (cex_ticks t) t.
(** the failures are written with the default [is_simulated = FALSE] *)
Definition purge_old_ingest_failures (now : DateTime) (retention_seconds : Z) t : IngestTables :=
  with_failures
    (List.filter (fun row => negb (older now (Z.max retention_seconds 0) row.2)) (ingest_failures t)) t.

(** ** The catalogue *)

Definition scope_kind (ds : DataSourceRow) : string :=
  default (if bool_decide (ds_scope ds = "tenant") then "tenant" else "platform") (ds_scope_kind ds).
Definition effective_config (row : StreamConfigRow) (ds : DataSourceRow) : EffectiveStreamConfig :=
  let c := scr_config row in
  {| sc_stream_config_id := sc_stream_config_id c; sc_source_id := sc_source_id c;
     sc_source_type := ds_source_type ds; sc_source_name := ds_source_name ds;
     sc_source_scope_kind := scope_kind ds; sc_owner_tenant_id := ds_owner_tenant_id ds;
     sc_connection_config := default (ds_connection_config ds) (scr_connection_config_override row);
     sc_connector_mode := sc_connector_mode c;
     sc_operating_mode_profile := sc_operating_mode_profile c; sc_stream_name := sc_stream_name c;
     sc_subscription_key := sc_subscription_key c; sc_event_type := sc_event_type c;
     sc_parser_name := sc_parser_name c; sc_market_key := sc_market_key c;
     sc_asset_pair := sc_asset_pair c; sc_filter_config := sc_filter_config c;
     sc_auth_secret_ref := sc_auth_secret_ref c; sc_auth_config := sc_auth_config c;
     sc_payload_ts_path := sc_payload_ts_path c; sc_payload_ts_unit := sc_payload_ts_unit c;
     sc_poll_interval_ms := sc_poll_interval_ms c |}.
Definition is_effective (row : StreamConfigRow) (ds : DataSourceRow) : bool :=
  let profile := sc_operating_mode_profile (scr_config row) in
  scr_enabled row &&
  (bool_decide (profile = "live") || bool_decide (profile = "test")) &&
  (bool_decide (profile = "test") || ds_enabled ds).
Definition joined (ds : gmap string DataSourceRow) (row : StreamConfigRow)
  : option EffectiveStreamConfig :=
  source ← ds !! sc_source_id (scr_config row);
  if is_effective row source then Some (effective_config row source) else None.
(** the [ORDER BY], under the collation of the database; [NULLS FIRST] *)
Definition lex (c : comparison) (d : comparison) : comparison :=
  match c with Eq => d | _ => c end.
Definition compare_opt (collate : string -> string -> comparison) (a b : option string) : comparison :=
  match a, b with
  | None, None => Eq
  | None, Some _ => Lt
  | Some _, None => Gt
  | Some x, Some y => collate x y
  end.
Definition config_le (collate : string -> string -> comparison) (a b : EffectiveStreamConfig) : bool :=
  match lex (collate (sc_source_id a) (sc_source_id b))
          (lex (collate (sc_operating_mode_profile a) (sc_operating_mode_profile b))
            (lex (collate (sc_stream_name a) (sc_stream_name b))
              (compare_opt collate (sc_asset_pair a) (sc_asset_pair b)))) with
  | Gt => false
  | _ => true
  end.
Definition select_effective_stream_configs (collate : string -> string -> comparison) t
  : list EffectiveStreamConfig :=
  sort_by (config_le collate) (omap (joined (data_sources t)) (stream_configs t)).
Definition text_le (collate : string -> string -> comparison) (a b : string) : bool :=
  match collate a b with Gt => false | _ => true end.
Definition select_stream_tenant_targets (collate : string -> string -> comparison)
    (stream_config_id : string) t : list string :=
  sort_by (text_le collate)
    (tt_tenant_id <$>
      List.filter (fun row => bool_decide (tt_stream_config_id row = stream_config_id)
                              && tt_enabled row) (tenant_targets_table t)).
End records.
