(* ===== verification/WorkerConfig.v ===== *)
(** * Stream workers: configuration and endpoints
    ([apps/indexer/src/stream_worker.rs])

    The runtime configuration of a stream, its poll interval and the resolution
    of its endpoint: the template of the connection configuration, filled from
    the credentials and from the environment of the process.  [url::Url] and
    the environment variables are interfaces. *)
From Stdlib Require Import Ascii.
From S2P Require Import Prelude F64 Text Numbers Ports FieldMapping StreamParser.

(** [Url::parse] and what is read of its result *)
Class Urls := {
  Url : Type;
  url_parse : string -> option Url;
  host_str : Url -> option string;
  url_path : Url -> string;
  query_pairs : Url -> list (string * string)
}.
(** [std::env::var(_).ok()] *)
Class ProcessEnv := { env_var : string -> option string }.

(** ** Text *)

(** [s.replace(pat, rep)] for a pattern that is not empty *)
Fixpoint replace_fuel (fuel : nat) (pat rep s : string) : string :=
  match fuel, s with
  | O, _ => s
  | _, EmptyString => EmptyString
  | S fuel, String c s' =>
      match strip_prefix pat s with
      | Some rest => rep +:+ replace_fuel fuel pat rep rest
      | None => String c (replace_fuel fuel pat rep s')
      end
  end.
Definition replace_all (pat rep s : string) : string := replace_fuel (String.length s) pat rep s.
Definition braced (key : string) : string := "{" +:+ key +:+ "}".
Definition is_ascii_alphanumeric (c : ascii) : bool :=
  let n := nat_of_ascii c in
  (48 <=? n)%nat && (n <=? 57)%nat || (65 <=? n)%nat && (n <=? 90)%nat
  || (97 <=? n)%nat && (n <=? 122)%nat.
Fixpoint all_chars (f : ascii -> bool) (s : string) : bool :=
  match s with EmptyString => true | String c s => f c && all_chars f s end.

Section config.
Context `{SerdeJson}.

Record RuntimeStreamConfig := {
  rc_stream_config_id : string;
  rc_source_id : string;
  rc_source_type : string;
  rc_source_name : string;
  rc_source_scope_kind : string;
  rc_owner_tenant_id : option string;
  rc_connection_config : Value;
  rc_operating_mode_profile : string;
  rc_auth_secret_ref : option string;
  rc_auth_config : Value;
  rc_connector_mode : string;
  rc_stream_name : string;
  rc_subscription_key : option string;
  rc_event_type : string;
  rc_parser_name : string;
  rc_market_key : option string;
  rc_asset_pair : option string;
  rc_filter_config : Value;
  rc_payload_ts_path : option string;
  rc_payload_ts_unit : string;
  rc_poll_interval_ms : option Z;
  rc_tenant_targets : list string
}.

(** a [serde_json::Map] is read in the order of its keys *)
Definition map_entries (m : gmap string Value) : list (string * Value) :=
  sort_by (fun a b => String.leb a.1 b.1) (map_to_list m).

(** ** Placeholders *)

Definition placeholder_char (c : ascii) : bool :=
  is_ascii_alphanumeric c || bool_decide (c = "_"%char) || bool_decide (c = "-"%char).
Definition is_placeholder (key : string) : bool := negb (is_empty key) && all_chars placeholder_char key.
Definition push_new (x : string) (l : list string) : list string :=
  if bool_decide (x ∈ l) then l else l ++ [x].
(** each round skips at least the two braces *)
Fixpoint placeholders_from (fuel : nat) (found : list string) (s : string) : list string :=
  match fuel with
  | O => found
  | S fuel =>
      match split_once "{" s with
      | None => found
      | Some (_, rest) =>
          match split_once "}" rest with
          | None => found
          | Some (key, rest) =>
              placeholders_from fuel (if is_placeholder key then push_new key found else found) rest
          end
      end
  end.
Definition collect_unresolved_placeholders (endpoint : string) : list string :=
  placeholders_from (String.length endpoint) [] endpoint.

(** [Value::String], [Number] and [Bool]; a number always has an [f64] *)
Definition auth_placeholder_value (value : Value) : option string :=
  match as_str value with
  | Some text => trimmed_nonempty (Some text)
  | None =>
      match as_f64 value, as_bool value with
      | Some _, _ => Some (value_to_string value)
      | None, Some b => Some (if b then "true" else "false")
      | None, None => None
      end
  end.
Fixpoint first_key (keys : list string) (object : gmap string Value) : option string :=
  match keys with
  | [] => None
  | key :: keys =>
      value ← object !! key;   (* [?]: the search ends at a missing key *)
      match auth_placeholder_value value with
      | Some parsed => Some parsed
      | None => first_key keys object
      end
  end.
Definition ALCHEMY_KEYS : list string := ["alchemy_api_key"; "api_key"; "apikey"].
Definition extract_alchemy_key (auth_config : Value) : option string :=
  as_object auth_config ≫= first_key ALCHEMY_KEYS.

Section environment.
Context `{!ProcessEnv}.

Definition first_env (keys : list string) : option string :=
  find_map (fun key => trimmed_nonempty (env_var key)) keys.
Definition load_alchemy_key_from_env : option string :=
  first_env ["ALCHEMY_API_KEY"; "INDEXER_ALCHEMY_API_KEY"].
Definition env_name_char (c : ascii) : ascii :=
  if is_ascii_alphanumeric c then ascii_upper c else "_"%char.
Definition resolve_placeholder_from_env (placeholder : string) : option string :=
  let normalized := map_string env_name_char placeholder in
  first_env [normalized; "INDEXER_" +:+ normalized].

Definition substitute (endpoint key replacement : string) : string :=
  replace_all (braced key) replacement endpoint.
Definition fill_from_auth (auth_config : Value) (endpoint : string) : string :=
  match as_object auth_config with
  | None => endpoint
  | Some auth_values =>
      foldl (fun endpoint kv =>
               match auth_placeholder_value kv.2 with
               | Some replacement => substitute endpoint kv.1 replacement
               | None => endpoint
               end) endpoint (map_entries auth_values)
  end.
Definition ALCHEMY_TOKEN : string := "YOUR_ALCHEMY_KEY".
Definition alchemy_error : string :=
  "missing auth_config.alchemy_api_key (or auth_config.api_key) for endpoint template".
Definition fill_alchemy (auth_config : Value) (endpoint : string) : outcome string :=
  if contains endpoint ALCHEMY_TOKEN then
    match or_else (extract_alchemy_key auth_config) load_alchemy_key_from_env with
    | Some value => Ret (replace_all ALCHEMY_TOKEN value endpoint)
    | None => Err alchemy_error
    end
  else Ret endpoint.
Definition fill_from_env (endpoint : string) : string :=
  foldl (fun endpoint placeholder =>
           if bool_decide (placeholder = "subscription_key") then endpoint
           else match resolve_placeholder_from_env placeholder with
                | Some value => substitute endpoint placeholder value
                | None => endpoint
                end) endpoint (collect_unresolved_placeholders endpoint).
Definition unresolved (endpoint : string) : list string :=
  List.filter (fun key => negb (bool_decide (key = "subscription_key")))
    (collect_unresolved_placeholders endpoint).
Fixpoint join (sep : string) (l : list string) : string :=
  match l with
  | [] => EmptyString
  | [x] => x
  | x :: xs => x +:+ sep +:+ join sep xs
  end.
Definition resolve_endpoint_template (endpoint_template : string) (auth_config : Value)
    (auth_secret_ref : option string) : outcome string :=
  endpoint ← fill_alchemy auth_config (fill_from_auth auth_config (trim endpoint_template));
  let endpoint := fill_from_env endpoint in
  match unresolved endpoint with
  | [] => Ret endpoint
  | keys =>
      Err ("missing auth_config values for endpoint template placeholders: " +:+ join ", " keys +:+
           match auth_secret_ref with
           | Some secret_ref => " (auth_secret_ref=" +:+ secret_ref +:+ ")"
           | None => ""
           end)
  end.

Definition ENDPOINT_KEYS : list string := ["ws_endpoint"; "rpc_url"; "ws_url"; "endpoint"; "http_url"].
Definition endpoint_from_connection_config (config : Value) : outcome string :=
  of_option "missing source endpoint in connection_config"
    (find_map (fun key => trimmed_nonempty (get_str key config)) ENDPOINT_KEYS).
Definition endpoint_from_runtime_config (config : RuntimeStreamConfig) : outcome string :=
  template ← endpoint_from_connection_config (rc_connection_config config);
  endpoint ← resolve_endpoint_template template (rc_auth_config config) (rc_auth_secret_ref config);
  if bool_decide (rc_connector_mode config = "websocket") then Ret endpoint
  else if contains endpoint (braced "subscription_key") then
    match trimmed_nonempty (rc_subscription_key config) with
    | Some subscription_key => Ret (substitute endpoint "subscription_key" subscription_key)
    | None =>
        Err ("missing subscription_key for endpoint template placeholder in stream_config_id="
             +:+ rc_stream_config_id config)
    end
  else Ret endpoint.
End environment.

(** ** What an endpoint says about the simulation *)
Record EndpointLogContext := {
  ep_host : option string;
  ep_path : string;
  ep_is_mock_endpoint : bool;
  ep_tenant_id : option string;
  ep_stream_name : option string;
  ep_simulation_run_id : option string
}.
Definition MOCK_PATH : string := "/api/simulation/mock/".
(** the last value of a key that is not blank *)
Definition last_query (key : string) (pairs : list (string * string)) : option string :=
  foldl (fun found kv =>
           if bool_decide (kv.1 = key) then or_else (trimmed_nonempty (Some kv.2)) found else found)
    None pairs.
Definition endpoint_log_context `{!Urls} (endpoint : string) : EndpointLogContext :=
  match url_parse endpoint with
  | None =>
      {| ep_host := None; ep_path := endpoint; ep_is_mock_endpoint := contains endpoint MOCK_PATH;
         ep_tenant_id := None; ep_stream_name := None; ep_simulation_run_id := None |}
  | Some parsed =>
      {| ep_host := host_str parsed; ep_path := url_path parsed;
         ep_is_mock_endpoint := contains (url_path parsed) MOCK_PATH;
         ep_tenant_id := last_query "tenant_id" (query_pairs parsed);
         ep_stream_name := last_query "stream_name" (query_pairs parsed);
         ep_simulation_run_id := last_query "simulation_run_id" (query_pairs parsed) |}
  end.

(** ** Poll intervals, in milliseconds *)
Definition DEFAULT_RPC_LOGS_POLL_INTERVAL_MS : Z := 2000.
Definition DEFAULT_RPC_STATE_POLL_INTERVAL_MS : Z := 5000.
Definition DEFAULT_HTTP_POLL_INTERVAL_MS : Z := 5000.
Definition TEST_MODE_MOCK_POLL_INTERVAL_MS : Z := 200.
Definition MIN_POLL_INTERVAL_MS : Z := 200.
Definition MAX_POLL_INTERVAL_MS : Z := 60000.
Definition resolve_poll_interval_duration (configured_ms : option Z) (default_ms : Z) : Z :=
  Z.min (Z.max (default default_ms configured_ms) MIN_POLL_INTERVAL_MS) MAX_POLL_INTERVAL_MS.
Definition resolve_runtime_poll_interval_duration (config : RuntimeStreamConfig)
    (endpoint_context : EndpointLogContext) (default_ms : Z) : Z :=
  let mock := bool_decide (rc_operating_mode_profile config = "test")
              && ep_is_mock_endpoint endpoint_context in
  let configured_ms :=
    if mock then
      Some (Z.min (default default_ms (rc_poll_interval_ms config)) TEST_MODE_MOCK_POLL_INTERVAL_MS)
    else rc_poll_interval_ms config in
  let effective_default_ms :=
    if mock then Z.min default_ms TEST_MODE_MOCK_POLL_INTERVAL_MS else default_ms in
  resolve_poll_interval_duration configured_ms effective_default_ms.
End config.
