(* ===== verification/StreamWorker.v ===== *)
(** * Stream workers: shaping an event ([apps/indexer/src/stream_worker.rs])

    The pure steps between a parsed payload and what is stored and published:
    simulation metadata, the configured overrides, suppression of repeated
    quotes, conversion of USDT quotes, the market truth, deduplication keys, the
    records, the payload of the published event.  SHA-256 and the text of a date
    are interfaces. *)
From Stdlib Require Import Ascii.
From S2P Require Import Prelude F64 Text Numbers Ports EventSchema FieldMapping Hex StreamParser ChainParsers IngestStore WorkerConfig.

(** [hex::encode(Sha256::digest(text))] *)
Class Sha256 := { sha256_hex : string -> string }.
(** [date_naive().to_string()] *)
Class Dates `{Chrono} := { date_naive : DateTime -> string }.

Definition f64_eq_dec (x y : f64) : {x = y} + {x <> y}.
Proof. repeat decide equality. Defined.
#[global] Instance f64_eq_decision : EqDecision f64 := f64_eq_dec.

Section shaping.
Context `{Chrono} `{SerdeJson} `{!FieldCodec} `{Unicode} `{Powi}.

(** ** Assignments to the parsed event *)

Definition set_market_key (k : option string) (p : ParsedFeedEvent) : ParsedFeedEvent :=
  Build_ParsedFeedEvent _ _ (pf_event_type p) (pf_event_id p) k (pf_asset_pair p) (pf_price p)
    (pf_chain_id p) (pf_block_number p) (pf_tx_hash p) (pf_log_index p) (pf_topic0 p)
    (pf_payload_event_ts p) (pf_observed_at p) (pf_normalized_fields p).
Definition set_asset_pair (a : option string) (p : ParsedFeedEvent) : ParsedFeedEvent :=
  Build_ParsedFeedEvent _ _ (pf_event_type p) (pf_event_id p) (pf_market_key p) a (pf_price p)
    (pf_chain_id p) (pf_block_number p) (pf_tx_hash p) (pf_log_index p) (pf_topic0 p)
    (pf_payload_event_ts p) (pf_observed_at p) (pf_normalized_fields p).
Definition set_price (x : option f64) (p : ParsedFeedEvent) : ParsedFeedEvent :=
  Build_ParsedFeedEvent _ _ (pf_event_type p) (pf_event_id p) (pf_market_key p) (pf_asset_pair p) x
    (pf_chain_id p) (pf_block_number p) (pf_tx_hash p) (pf_log_index p) (pf_topic0 p)
    (pf_payload_event_ts p) (pf_observed_at p) (pf_normalized_fields p).
Definition set_chain (c b : option Z) (h : option string) (p : ParsedFeedEvent) : ParsedFeedEvent :=
  Build_ParsedFeedEvent _ _ (pf_event_type p) (pf_event_id p) (pf_market_key p) (pf_asset_pair p)
    (pf_price p) c b h (pf_log_index p) (pf_topic0 p) (pf_payload_event_ts p) (pf_observed_at p)
    (pf_normalized_fields p).
Definition set_times (ts : option DateTime) (at_ : DateTime) (p : ParsedFeedEvent) : ParsedFeedEvent :=
  Build_ParsedFeedEvent _ _ (pf_event_type p) (pf_event_id p) (pf_market_key p) (pf_asset_pair p)
    (pf_price p) (pf_chain_id p) (pf_block_number p) (pf_tx_hash p) (pf_log_index p) (pf_topic0 p)
    ts at_ (pf_normalized_fields p).
Definition set_fields (v : Value) (p : ParsedFeedEvent) : ParsedFeedEvent :=
  Build_ParsedFeedEvent _ _ (pf_event_type p) (pf_event_id p) (pf_market_key p) (pf_asset_pair p)
    (pf_price p) (pf_chain_id p) (pf_block_number p) (pf_tx_hash p) (pf_log_index p) (pf_topic0 p)
    (pf_payload_event_ts p) (pf_observed_at p) v.
(** [.filter(|v| v.is_finite() && *v > 0.0)] *)
Definition usable (price : option f64) : option f64 := price ≫= positive_finite.
(** [obj.insert(k, v)] of the entries in turn *)
Definition put_all (entries : list (string * Value)) (obj : gmap string Value) : gmap string Value :=
  foldl (fun obj kv => <[kv.1 := kv.2]> obj) obj entries.
Definition entry_if {A} (k : string) (f : A -> Value) (o : option A) : list (string * Value) :=
  match o with Some a => [(k, f a)] | None => [] end.

(** ** Simulation metadata *)

Definition simulation_metadata_from_payload (payload : Value) : bool * option string :=
  let simulation := vget "simulation" payload ≫= as_object in
  let run_id := trimmed_nonempty
    (meta ← simulation; or_else (meta !! "run_id") (meta !! "simulation_run_id") ≫= as_str) in
  let is_simulated :=
    default false (meta ← simulation; meta !! "is_simulated" ≫= as_bool)
    || default false (get_bool "is_simulated" payload)
    || bool_decide (is_Some run_id) in
  (is_simulated, run_id).
Definition effective_simulation_metadata (payload : Value) (simulation_run_id_hint : option string)
  : bool * option string :=
  let '(is_simulated, simulation_run_id) := simulation_metadata_from_payload payload in
  let resolved_run_id := or_else simulation_run_id (trimmed_nonempty simulation_run_id_hint) in
  (is_simulated || bool_decide (is_Some resolved_run_id), resolved_run_id).
Definition parse_simulation_timestamp_value (value : Value) : option DateTime :=
  match as_str value with
  | Some raw => parse_from_rfc3339 (trim raw)
  | None => as_i64 value ≫= timestamp_millis_opt
  end.
Definition speed_factor_of (simulation : gmap string Value) : f64 :=
  default f64_one
    (value ← simulation !! "speed_factor";
     or_else (as_f64 value) (raw ← as_str value; Numbers.parse_f64 (trim raw))).
Definition accelerated_simulation_timestamp (payload : Value) (simulation_run_id_hint : option string)
  : option DateTime :=
  let '(is_simulated, simulation_run_id) :=
    effective_simulation_metadata payload simulation_run_id_hint in
  if negb is_simulated && bool_decide (simulation_run_id = None) then None
  else
    simulation ← vget "simulation" payload ≫= as_object;
    let speed_factor := speed_factor_of simulation in
    if negb (is_finite speed_factor) || f64_le speed_factor f64_one then None
    else
      or_else (simulation !! "event_ts" ≫= parse_simulation_timestamp_value)
        (or_else (simulation !! "event_timestamp" ≫= parse_simulation_timestamp_value)
          (simulation !! "event_ts_ms" ≫= parse_simulation_timestamp_value)).
Definition apply_accelerated_simulation_timestamp (payload : Value)
    (simulation_run_id_hint : option string) (parsed : ParsedFeedEvent) : ParsedFeedEvent :=
  match accelerated_simulation_timestamp payload simulation_run_id_hint with
  | None => parsed
  | Some replay_ts =>
      set_times (Some (default replay_ts (pf_payload_event_ts parsed))) replay_ts parsed
  end.

(** ** Overrides of the configuration *)

Definition apply_runtime_field_mapping_overrides (config : RuntimeStreamConfig) (payload : Value)
    (parsed : ParsedFeedEvent) : ParsedFeedEvent :=
  match resolve_field_mappings (rc_parser_name config) (Some (rc_filter_config config)) with
  | [] => parsed
  | mappings =>
      let mapped := apply_mappings mappings payload (Some (rc_filter_config config)) in
      let parsed :=
        match trimmed_nonempty (mf_market_key mapped) with
        | Some k => set_market_key (Some k) parsed
        | None => parsed
        end in
      let parsed :=
        match usable (mf_price mapped) with
        | Some price => set_price (Some price) parsed
        | None => parsed
        end in
      let parsed :=
        match mf_timestamp mapped with
        | Some ts => set_times (Some ts) ts parsed
        | None => parsed
        end in
      let parsed :=
        match mf_block_number mapped ≫= i64_of with
        | Some n => set_chain (pf_chain_id parsed) (Some n) (pf_tx_hash parsed) parsed
        | None => parsed
        end in
      match mf_tx_hash mapped with
      | Some tx_hash =>
          if is_empty (trim tx_hash) then parsed
          else set_chain (pf_chain_id parsed) (pf_block_number parsed) (Some tx_hash) parsed
      | None => parsed
      end
  end.

Definition quote_suffix (cleaned : string) : option string :=
  find_map (fun suffix => if ends_with cleaned suffix then Some suffix else None)
    ["USDT"; "USDC"; "USD"].
(** the second part of the pair that is not empty *)
Definition quote_part (cleaned : string) (delimiter : ascii) : option string :=
  if has_char delimiter cleaned then snd <$> split_parts delimiter cleaned else None.
Definition quote_asset_from_asset_pair (asset_pair : string) : option string :=
  let cleaned := to_ascii_uppercase (trim asset_pair) in
  or_else (quote_part cleaned "/") (or_else (quote_part cleaned "-") (quote_suffix cleaned)).
Definition object_or_empty (v : Value) : gmap string Value := default ∅ (as_object v).

Definition apply_inverted_price_override (config : RuntimeStreamConfig) (parsed : ParsedFeedEvent)
  : ParsedFeedEvent :=
  match as_object (rc_filter_config config) with
  | None => parsed
  | Some filter =>
      if negb (default false (filter !! "invert_price" ≫= as_bool)) then parsed
      else match usable (pf_price parsed) with
      | None => parsed
      | Some source_price =>
          let inverted_price := f64_div f64_one source_price in
          if negb (is_finite inverted_price) || f64_le inverted_price f64_zero then parsed
          else
            let source_asset_pair := pf_asset_pair parsed in
            let parsed := set_price (Some inverted_price) parsed in
            let parsed :=
              match trimmed_nonempty (filter !! "output_asset_pair" ≫= as_str) with
              | Some output_pair => set_asset_pair (Some output_pair) parsed
              | None => parsed
              end in
            let output_quote_asset :=
              or_else
                (to_ascii_uppercase <$> trimmed_nonempty (filter !! "output_quote_asset" ≫= as_str))
                (pf_asset_pair parsed ≫= quote_asset_from_asset_pair) in
            set_fields (VObject (put_all
              ([("price_inverted", VBool true); ("source_raw_price", VFloat source_price)]
                 ++ entry_if "source_asset_pair" VString source_asset_pair
                 ++ entry_if "quote_asset" VString output_quote_asset)
              (object_or_empty (pf_normalized_fields parsed)))) parsed
      end
  end.

(** ** Repeated quotes *)

Record RecentQuoteState := { last_price_bits : option f64; last_emitted_at_ms : option Z }.
Definition timestamp_millis (t : DateTime) : Z := ns t / 1000000.
Definition DEFAULT_GEMINI_DUPLICATE_QUOTE_WINDOW_MS : Z := 250.
Definition duplicate_quote_window_ms (config : RuntimeStreamConfig) : option Z :=
  match vget "dedupe_same_price_window_ms" (rc_filter_config config) ≫= as_u64 with
  | Some configured_ms => if 0 <? configured_ms then Some configured_ms else None
  | None =>
      if bool_decide (rc_operating_mode_profile config = "live")
         && bool_decide (rc_parser_name config = "gemini_marketdata_v1")
      then Some DEFAULT_GEMINI_DUPLICATE_QUOTE_WINDOW_MS else None
  end.
Definition within_window (window_ms observed_at_ms last_emitted_at_ms : Z) : bool :=
  observed_at_ms - last_emitted_at_ms <? default i64_max (i64_of window_ms).
(** the bits of two positive numbers are equal when the numbers are *)
Definition repeats (window_ms : Z) (price : f64) (observed_at_ms : Z) (state : RecentQuoteState) : bool :=
  match last_price_bits state, last_emitted_at_ms state with
  | Some last_price, Some last_ms =>
      if bool_decide (last_price = price) && (last_ms <=? observed_at_ms) then
        within_window window_ms observed_at_ms last_ms
      else false
  | _, _ => false
  end.
Definition should_skip_duplicate_quote (config : RuntimeStreamConfig) (parsed : ParsedFeedEvent)
    (state : RecentQuoteState) : RecentQuoteState * bool :=
  match duplicate_quote_window_ms config with
  | None => (state, false)
  | Some window_ms =>
      if negb (bool_decide (pf_event_type parsed = "quote")) then (state, false)
      else match usable (pf_price parsed) with
      | None => (state, false)
      | Some price =>
          let observed_at_ms := timestamp_millis (pf_observed_at parsed) in
          if repeats window_ms price observed_at_ms state then (state, true)
          else ({| last_price_bits := Some price; last_emitted_at_ms := Some observed_at_ms |}, false)
      end
  end.

(** ** USDT quotes *)

Definition ensure_object_payload (payload : Value) : gmap string Value :=
  match as_object payload with
  | Some obj => obj
  | None => {["raw_payload" := payload]}
  end.
Definition normalization_entries (raw_quote_price : option f64) (quote_asset : option string)
    (normalized_price_usd fx_rate_usdt_usd : option f64) (fx_adjusted : bool)
  : list (string * Value) :=
  [ ("raw_quote_price", VOpt VFloat raw_quote_price); ("quote_asset", VOpt VString quote_asset);
    ("normalized_price_usd", VOpt VFloat normalized_price_usd);
    ("fx_rate_usdt_usd", VOpt VFloat fx_rate_usdt_usd); ("fx_adjusted", VBool fx_adjusted) ].
Definition upsert_normalized_metadata (entries : list (string * Value)) (parsed : ParsedFeedEvent)
  : ParsedFeedEvent :=
  set_fields (VObject (put_all entries (object_or_empty (pf_normalized_fields parsed)))) parsed.
Definition upsert_payload (entries : list (string * Value)) (payload : Value) : Value :=
  VObject (put_all entries (ensure_object_payload payload)).
Definition market_key_quote (market_key : string) : option string :=
  part ← split_on "/" market_key !! 1%nat;
  let quote := to_ascii_uppercase (trim part) in
  if is_empty quote then None else Some quote.
Definition derive_quote_asset (parsed : ParsedFeedEvent) : option string :=
  or_else (to_ascii_uppercase <$> trimmed_nonempty (get_str "quote_asset" (pf_normalized_fields parsed)))
    (or_else (pf_asset_pair parsed ≫= quote_asset_from_asset_pair)
      (pf_market_key parsed ≫= market_key_quote)).
Definition FX_LOOKUP_MARKET_KEY : string := "USDT/USD".
Definition fallback_usdt_usd_rate (parsed : ParsedFeedEvent) (quote_asset : option string) : option f64 :=
  if negb (bool_decide (quote_asset = Some "USDT")) then None
  else
    market_key ← pf_market_key parsed;
    let market_key := to_ascii_uppercase (trim market_key) in
    if bool_decide (market_key = FX_LOOKUP_MARKET_KEY) then None
    else if negb (ends_with market_key "/USD") then None
    else Some f64_one.

(** ** The market truth *)

Record MarketTruthSnapshot := {
  mt_market_key : string;
  mt_median_price : f64;
  mt_deviation_pct : f64;
  mt_source_count : Z;
  mt_peg_target : f64
}.
Definition MARKET_TRUTH_PEG_TARGET : f64 := f64_one.
(** [partial_cmp(..).unwrap_or(Equal)] is not [Greater] *)
Definition price_le (a b : f64) : bool := negb (f64_lt b a).
Definition compute_median (values : list f64) : option f64 :=
  let values := sort_by price_le values in
  let mid := Nat.div2 (length values) in
  match values with
  | [] => None
  | _ =>
      if Nat.even (length values) then
        a ← values !! (mid - 1)%nat; b ← values !! mid;
        Some (f64_div (f64_add a b) (f64_of_Z 2))
      else values !! mid
  end.
Definition build_market_truth_snapshot `{HashOrder} (market_key : string)
    (source_prices : gmap string f64) : option MarketTruthSnapshot :=
  let values := omap (fun price => positive_finite price) (hash_values source_prices) in
  median_price ← compute_median values;
  let deviation_pct :=
    f64_mul (f64_div (f64_abs (f64_sub median_price MARKET_TRUTH_PEG_TARGET)) MARKET_TRUTH_PEG_TARGET)
      (f64_of_Z 100) in
  Some {| mt_market_key := market_key; mt_median_price := median_price;
          mt_deviation_pct := deviation_pct; mt_source_count := Z.of_nat (length values);
          mt_peg_target := MARKET_TRUTH_PEG_TARGET |}.
Definition market_truth_entries (s : MarketTruthSnapshot) : list (string * Value) :=
  [ ("median_price", VFloat (mt_median_price s)); ("deviation_pct", VFloat (mt_deviation_pct s));
    ("true_price_median", VFloat (mt_median_price s));
    ("true_price_deviation_pct", VFloat (mt_deviation_pct s));
    ("true_price_peg_target", VFloat (mt_peg_target s));
    ("true_price_source_count", VInt (mt_source_count s));
    ("true_price_scope", VString "platform_global");
    ("true_price_market_key", VString (mt_market_key s)) ].
Definition platform_context (s : MarketTruthSnapshot) : Value :=
  VObj [("market_truth", VObj
    [ ("market_key", VString (mt_market_key s)); ("median_price", VFloat (mt_median_price s));
      ("deviation_pct", VFloat (mt_deviation_pct s)); ("peg_target", VFloat (mt_peg_target s));
      ("source_count", VInt (mt_source_count s)); ("scope", VString "platform_global") ])].
Definition upsert_market_truth_payload (s : MarketTruthSnapshot) (payload : Value) : Value :=
  upsert_payload (market_truth_entries s ++ [("platform_context", platform_context s)]) payload.
Definition upsert_market_truth_normalized_fields (s : MarketTruthSnapshot) (parsed : ParsedFeedEvent)
  : ParsedFeedEvent := upsert_normalized_metadata (market_truth_entries s) parsed.
(** the map of usable prices by source; the current event comes last *)
Definition collect_source_prices (latest : list OperationalSourcePrice) (source_id : string)
    (current_price : f64) : gmap string f64 :=
  <[source_id := current_price]>
    (foldl (fun m item => match positive_finite (os_price item) with
                          | Some price => <[os_source_id item := price]> m
                          | None => m
                          end) ∅ latest).

(** ** Identifiers *)

Definition scoped_simulation_event_id (event_id simulation_run_id : option string) : option string :=
  normalized_event_id ← trimmed_nonempty event_id;
  Some match trimmed_nonempty simulation_run_id with
       | Some run_id => normalized_event_id +:+ ":sim:" +:+ run_id
       | None => normalized_event_id
       end.
Definition index_value (value : Value) : option Z :=
  match as_str value with
  | None => as_i64 value
  | Some raw =>
      let token := trim raw in
      if is_empty token then None
      else match strip_prefix "0x" token with
           | Some hex => i64_from_hex hex
           | None => Numbers.parse_i64 token
           end
  end.
(** the suffixes of a provider key *)
Definition key_suffix (payload_event_ts : option DateTime) (is_simulated : bool)
    (simulation_run_id : option string) : string :=
  match payload_event_ts with
  | Some ts => ":ts:" +:+ fmt_Z (timestamp_millis ts)
  | None => ""
  end +:+
  (if is_simulated then
     match simulation_run_id with Some run_id => ":sim:" +:+ run_id | None => "" end
   else "").
Definition provider_prefix (config : RuntimeStreamConfig) : string :=
  "provider:" +:+ rc_source_id config +:+ ":" +:+ rc_stream_config_id config +:+ ":".

Section hashing.
Context `{!Sha256}.

Definition build_dedup_key (config : RuntimeStreamConfig) (parsed : ParsedFeedEvent) (payload : Value)
    (simulation_run_id_hint : option string) : option string :=
  let '(is_simulated, simulation_run_id) :=
    effective_simulation_metadata payload simulation_run_id_hint in
  let payload_tx_hash := trimmed_nonempty
    (or_else (vget "transactionHash" payload) (vget "transaction_hash" payload) ≫= as_str) in
  let payload_log_index :=
    or_else (vget "logIndex" payload) (vget "log_index" payload) ≫= index_value in
  let tx_hash :=
    or_else (h ← pf_tx_hash parsed; if is_empty h then None else Some h) payload_tx_hash in
  let log_index := or_else (pf_log_index parsed) payload_log_index in
  let suffix := key_suffix (pf_payload_event_ts parsed) is_simulated simulation_run_id in
  match tx_hash with
  | Some tx_hash =>
      Some (provider_prefix config +:+ tx_hash +:+ ":" +:+ fmt_Z (default 0 log_index) +:+ suffix)
  | None =>
      match pf_event_id parsed with
      | Some event_id => Some (provider_prefix config +:+ event_id +:+ suffix)
      | None =>
          Some (sha256_hex (join "|"
            [ rc_source_id config; rc_stream_config_id config; pf_event_type parsed;
              default "" (pf_tx_hash parsed); fmt_Z (default 0 (pf_log_index parsed));
              fmt_Z (timestamp_millis (pf_observed_at parsed)); default "" (pf_asset_pair parsed);
              default "" (pf_market_key parsed); default "" (pf_topic0 parsed);
              if is_simulated then default "" simulation_run_id else ""; value_to_string payload ]))
      end
  end.
Definition hash_payload_only (config : RuntimeStreamConfig) (payload : Value) (observed_at : DateTime)
    (simulation_run_id_hint : option string) : string :=
  let '(is_simulated, simulation_run_id) :=
    effective_simulation_metadata payload simulation_run_id_hint in
  sha256_hex (join "|"
    [ rc_source_id config; rc_stream_config_id config; rc_event_type config;
      fmt_Z (timestamp_millis observed_at);
      if is_simulated then default "" simulation_run_id else ""; value_to_string payload ]).
End hashing.

(** ** Records *)

Inductive RawLandingStatus := Persisted | Deferred | Disabled | TimedOut | Failed.
Definition status_str (s : RawLandingStatus) : string :=
  match s with
  | Persisted => "persisted" | Deferred => "deferred" | Disabled => "disabled"
  | TimedOut => "timed_out" | Failed => "failed"
  end.
Definition persisted (s : RawLandingStatus) : bool := match s with Persisted => true | _ => false end.
Record RawLandingOutcome := {
  rl_pointer : option RawRecordPointer;
  rl_status : RawLandingStatus;
  rl_error : option string
}.
(** an error that is not blank, verbatim *)
Definition error_entry (error : option string) : list (string * Value) :=
  match error with
  | Some e => if is_empty (trim e) then [] else [("raw_landing_error", VString e)]
  | None => []
  end.
Definition annotate_ingestion_meta (processing_mode : string) (status : RawLandingStatus)
    (error : option string) (normalized_fields : Value) : Value :=
  let meta := put_all
    ([("processing_mode", VString processing_mode); ("raw_landing_status", VString (status_str status));
      ("raw_persisted", VBool (persisted status))] ++ error_entry error) ∅ in
  VObject (<["ingestion_meta" := VObject meta]> (object_or_empty normalized_fields)).

(** [(targets.len() == 1).then(|| targets[0])] *)
Definition only_target (config : RuntimeStreamConfig) : option string :=
  match rc_tenant_targets config with [t] => Some t | _ => None end.
Definition to_operational_record (config : RuntimeStreamConfig) (parsed : ParsedFeedEvent)
    (payload : Value) (dedup_key : option string) (parse_status : string) (parse_error : option string)
    (raw_pointer : option RawRecordPointer) (observed_at : DateTime) (is_simulated : bool)
    (simulation_run_id : option string) : IngestOperationalEventRecord :=
  {| oe_stream_id := Some (rc_stream_config_id config); oe_source_id := rc_source_id config;
     oe_source_type := rc_source_type config; oe_tenant_id := only_target config;
     oe_event_type := pf_event_type parsed;
     oe_event_id := scoped_simulation_event_id (pf_event_id parsed) simulation_run_id;
     oe_market_key := pf_market_key parsed; oe_asset_pair := pf_asset_pair parsed;
     oe_chain_id := pf_chain_id parsed; oe_block_number := pf_block_number parsed;
     oe_tx_hash := pf_tx_hash parsed; oe_log_index := pf_log_index parsed;
     oe_topic0 := pf_topic0 parsed; oe_price := pf_price parsed;
     oe_payload_event_ts := pf_payload_event_ts parsed; oe_observed_at := observed_at;
     oe_parse_status := parse_status; oe_parse_error := parse_error; oe_payload := payload;
     oe_normalized_fields := pf_normalized_fields parsed; oe_dedup_key := dedup_key;
     oe_raw_ref_type := raw_ref_type <$> raw_pointer; oe_raw_ref_id := raw_ref_id <$> raw_pointer;
     oe_raw_s3_uri := None; oe_is_simulated := is_simulated;
     oe_simulation_run_id := simulation_run_id |}.
(** [id] and [fresh_key] are the identifiers generated on the way *)
Definition to_source_envelope `{!Dates} (id fresh_key : string) (config : RuntimeStreamConfig)
    (parsed : ParsedFeedEvent) (payload : Value) (dedup_key : option string) (observed_at : DateTime)
    (is_simulated : bool) (simulation_run_id : option string) : SourceEnvelopeV1 :=
  {| ev_envelope_id := id; ev_source_id := rc_source_id config;
     ev_source_type := rc_source_type config; ev_stream_id := rc_stream_config_id config;
     ev_schema_version := "v1"; ev_event_type := pf_event_type parsed;
     ev_event_ts := default observed_at (pf_payload_event_ts parsed); ev_observed_at := observed_at;
     ev_partition_key := date_naive observed_at; ev_idempotency_key := default fresh_key dedup_key;
     ev_payload := payload; ev_chain_id := pf_chain_id parsed;
     ev_block_number := pf_block_number parsed; ev_tx_hash := pf_tx_hash parsed;
     ev_log_index := pf_log_index parsed; ev_topic0 := pf_topic0 parsed;
     ev_market_key := pf_market_key parsed; ev_price := pf_price parsed;
     ev_is_simulated := is_simulated; ev_simulation_run_id := simulation_run_id |}.

Definition map_source_type (source_type : string) : SourceType :=
  let s := to_ascii_lowercase source_type in
  if bool_decide (s = "cex_websocket") then CexWebsocket
  else if bool_decide (s = "evm_chain") then EvmChain
  else if bool_decide (s = "dex_api") then DexApi
  else if bool_decide (s = "oracle_api") then OracleApi
  else CustomApi.

(** ** The payload of the published event *)
Record UnifiedEventMeta := {
  um_dedup_key : option string;
  um_ingest_persisted : bool;
  um_raw_landing_status : RawLandingStatus;
  um_raw_landing_error : option string;
  um_is_simulated : bool;
  um_simulation_run_id : option string
}.
Definition simulation_entries (run_id : option string) : list (string * Value) :=
  ("is_simulated", VBool true) ::
  match run_id with
  | Some run_id => [("run_id", VString run_id); ("simulation_run_id", VString run_id)]
  | None => []
  end.
Definition mark_simulated (meta : UnifiedEventMeta) (obj : gmap string Value) : gmap string Value :=
  if um_is_simulated meta then
    let simulation := default ∅ (obj !! "simulation" ≫= as_object) in
    <["simulation" := VObject (put_all (simulation_entries (um_simulation_run_id meta)) simulation)]>
      (<["is_simulated" := VBool true]> obj)
  else obj.
Definition enrich_payload_for_unified (config : RuntimeStreamConfig) (payload : Value)
    (parsed : ParsedFeedEvent) (meta : UnifiedEventMeta) : Value :=
  VObject (put_all
    ([ ("raw_persisted", VBool (persisted (um_raw_landing_status meta)));
       ("ingest_persisted", VBool (um_ingest_persisted meta));
       ("raw_landing_status", VString (status_str (um_raw_landing_status meta))) ]
       ++ error_entry (um_raw_landing_error meta)
       ++ [ ("processing_mode", VString "realtime");
            ("stream_config_id", VString (rc_stream_config_id config));
            ("source_id", VString (rc_source_id config));
            ("parser_name", VString (rc_parser_name config)) ]
       ++ entry_if "market_key" VString (pf_market_key parsed)
       ++ entry_if "asset_pair" VString (pf_asset_pair parsed)
       ++ entry_if "price" VFloat (pf_price parsed)
       ++ entry_if "chainId" VInt (pf_chain_id parsed)
       ++ entry_if "dedup_key" VString (um_dedup_key meta))
    (mark_simulated meta (ensure_object_payload payload))).
Definition unified_event (config : RuntimeStreamConfig) (payload : Value) (parsed : ParsedFeedEvent)
    (meta : UnifiedEventMeta) (id tenant : string) : UnifiedEvent :=
  {| event_id := id; tenant_id := tenant; source_id := rc_source_id config;
     source_type := map_source_type (rc_source_type config); event_type := pf_event_type parsed;
     timestamp := pf_observed_at parsed;
     payload := enrich_payload_for_unified config payload parsed meta;
     chain_id := pf_chain_id parsed; block_number := pf_block_number parsed;
     tx_hash := pf_tx_hash parsed; market_key := pf_market_key parsed; price := pf_price parsed |}.

(** ** Batches *)
Definition is_pyth_hermes_parser (parser_name : string) : bool :=
  bool_decide (parser_name = "pyth_hermes_v2") || bool_decide (parser_name = "pyth_price_update_v1").
Definition http_poll_payload_items (parser_name : string) (payload : Value) : list Value :=
  match as_array payload with
  | Some items => items
  | None =>
      if is_null payload then []
      else match vget "events" payload ≫= as_array with
      | Some items => items
      | None =>
          match (if is_pyth_hermes_parser parser_name then vget "parsed" payload ≫= as_array
                 else None) with
          | Some items => items
          | None => [payload]
          end
      end
  end.
End shaping.
