(* ===== verification/WorkerIO.v ===== *)
(** * Stream workers: processing a payload ([apps/indexer/src/stream_worker.rs])

    [process_payload] over the ingestion tables and the stream of unified events,
    as a computation whose interactions are numbered and answered by the
    environment [IngestEnv]: the clock, identifiers, failing statements and
    publications, the outcome of a raw write.  The state is what every worker
    shares ([Shared]) and what one worker keeps between payloads ([Local]).
    Raw writes that are not waited for are recorded in [deferred]; nothing here
    reads what they write.  The logging of payloads is left out. *)
From S2P Require Import Prelude F64 Text Numbers Ports EventSchema FieldMapping Hex StreamParser ChainParsers ProtocolParsers AlertIO IngestStore WorkerConfig StreamWorker.

(** what became of a raw write: done, refused by the server, or not finished in
    time, and whether it was executed all the same *)
Inductive RawAnswer := RawDone | RawRefused | RawTimeout (executed : bool).

Record CachedFxRate := { fx_rate : f64; cached_at_ms : Z }.
Record SourceHealthReportState := {
  last_success_report_at : option Z;   (* nanoseconds of the monotonic clock *)
  last_failure_report_at : option Z;
  last_failure_message : option string;
  last_reported_healthy : option bool
}.
Definition health_default : SourceHealthReportState :=
  {| last_success_report_at := None; last_failure_report_at := None;
     last_failure_message := None; last_reported_healthy := None |}.

Section worker.
Context `{Chrono} `{SerdeJson} `{!FieldCodec} `{Unicode} `{Powi} `{U256} `{HashOrder}.
Context `{!Sha256} `{!Dates} `{!ProcessEnv}.

Class IngestEnv := {
  ie_clock : nat -> DateTime;
  ie_instant : nat -> Z;
  ie_uuid : nat -> string;
  ie_sql_error : nat -> option string;
  ie_raw : nat -> RawAnswer;
  ie_redis_error : nat -> option string
}.
Context `{!IngestEnv}.

Record Shared := {
  sh_step : nat;
  sh_tables : IngestTables;
  unified_events : list UnifiedEvent;   (* raksha:unified-events *)
  deferred : list SourceEnvelopeV1
}.
Record Local := {
  fx_cache : option CachedFxRate;
  recent_quote_state : RecentQuoteState;
  health_state : SourceHealthReportState;
  waits : list Z   (* the sleeps between attempts, in seconds *)
}.
Record WorkerState := { shared : Shared; local : Local }.
Definition local_default : Local :=
  {| fx_cache := None; recent_quote_state := {| last_price_bits := None; last_emitted_at_ms := None |};
     health_state := health_default; waits := [] |}.
Notation IO := (ST WorkerState).

Definition modify_shared (f : Shared -> Shared) : IO unit := fun w =>
  ({| shared := f (shared w); local := local w |}, Ret ()).
Definition modify_local (f : Local -> Local) : IO unit := fun w =>
  ({| shared := shared w; local := f (local w) |}, Ret ()).
Definition on_tables (f : IngestTables -> IngestTables) (s : Shared) : Shared :=
  {| sh_step := sh_step s; sh_tables := f (sh_tables s); unified_events := unified_events s;
     deferred := deferred s |}.
Definition set_fx (c : CachedFxRate) (l : Local) : Local :=
  {| fx_cache := Some c; recent_quote_state := recent_quote_state l; health_state := health_state l;
     waits := waits l |}.
Definition set_recent (r : RecentQuoteState) (l : Local) : Local :=
  {| fx_cache := fx_cache l; recent_quote_state := r; health_state := health_state l;
     waits := waits l |}.
Definition set_health (h : SourceHealthReportState) (l : Local) : Local :=
  {| fx_cache := fx_cache l; recent_quote_state := recent_quote_state l; health_state := h;
     waits := waits l |}.
Definition add_wait (d : Z) (l : Local) : Local :=
  {| fx_cache := fx_cache l; recent_quote_state := recent_quote_state l;
     health_state := health_state l; waits := waits l ++ [d] |}.

(** ** Interactions *)

Definition step_on (s : Shared) : Shared :=
  {| sh_step := S (sh_step s); sh_tables := sh_tables s; unified_events := unified_events s;
     deferred := deferred s |}.
Definition tick : IO nat := fun w =>
  ({| shared := step_on (shared w); local := local w |}, Ret (sh_step (shared w))).
Definition utc_now : IO DateTime := n ← tick; mret (ie_clock n).
Definition instant_now : IO Z := n ← tick; mret (ie_instant n).
Definition new_uuid : IO string := n ← tick; mret (ie_uuid n).
(** a statement, given [NOW()]; one that fails changes nothing *)
Definition statement {A} (f : DateTime -> IngestTables -> IngestTables * outcome A) : IO A :=
  n ← tick;
  match ie_sql_error n with
  | Some e => lift (Err e)
  | None => fun w =>
      let '(t, o) := f (ie_clock n) (sh_tables (shared w)) in
      ({| shared := on_tables (fun _ => t) (shared w); local := local w |}, o)
  end.
Definition query {A} (f : DateTime -> IngestTables -> A) : IO A :=
  statement (fun now t => (t, Ret (f now t))).
Definition write (f : DateTime -> IngestTables -> IngestTables) : IO unit :=
  statement (fun now t => (f now t, Ret ())).
Definition insert_event (r : IngestOperationalEventRecord) : IO bool :=
  statement (fun now => insert_ingest_operational_event now r).
Definition publish_unified_event (e : UnifiedEvent) : IO unit :=
  n ← tick;
  match ie_redis_error n with
  | Some e => lift (Err e)
  | None => modify_shared (fun s => {| sh_step := sh_step s; sh_tables := sh_tables s;
                                       unified_events := unified_events s ++ [e];
                                       deferred := deferred s |})
  end.

(** ** Raw landing *)

Definition DEFAULT_RAW_LANDING_TIMEOUT_MS : Z := 150.
Definition raw_landing_timeout_ms : Z :=
  Z.max (default DEFAULT_RAW_LANDING_TIMEOUT_MS
           (env_var "RAW_LANDING_TIMEOUT_MS" ≫= Numbers.parse_u64)) 1.
Definition raw_landing_required : bool :=
  match env_var "RAW_LANDING_REQUIRED" with
  | Some value => bool_decide (value = "1") || eq_ignore_ascii_case value "true"
  | None => false
  end.
(** an insert that the server refuses is logged and yields no pointer *)
Definition execute_raw (id : string) (answer : RawAnswer) (e : SourceEnvelopeV1)
  : IO (RawAnswer * option RawRecordPointer) := fun w =>
  let '(t, pointer) := insert_envelope id e (sh_tables (shared w)) in
  ({| shared := on_tables (fun _ => t) (shared w); local := local w |}, Ret (answer, Some pointer)).
Definition write_source_envelope (e : SourceEnvelopeV1) : IO (RawAnswer * option RawRecordPointer) :=
  n ← tick;
  match ie_raw n with
  | RawRefused => mret (RawRefused, None)
  | RawTimeout false => mret (RawTimeout false, None)
  | answer => execute_raw (ie_uuid n) answer e
  end.
Definition landing (pointer : option RawRecordPointer) (status : RawLandingStatus)
    (error : option string) : RawLandingOutcome :=
  {| rl_pointer := pointer; rl_status := status; rl_error := error |}.
Definition not_configured : RawLandingOutcome := landing None Disabled (Some "raw_repo_not_configured").
Definition persist_raw_envelope (raw_repo : bool) (e : SourceEnvelopeV1) : IO RawLandingOutcome :=
  if raw_repo then
    '(answer, pointer) ← write_source_envelope e;
    mret match answer, pointer with
         | RawTimeout _, _ =>
             landing None TimedOut
               (Some ("raw_landing_timeout_ms=" +:+ fmt_Z raw_landing_timeout_ms))
         | _, Some pointer => landing (Some pointer) Persisted None
         | _, None => landing None Failed (Some "raw_pointer_missing")
         end
  else mret not_configured.
(** the task is spawned; it runs [write_source_envelope] on its own *)
Definition defer_raw_envelope_persist (e : SourceEnvelopeV1) : IO unit :=
  modify_shared (fun s => {| sh_step := sh_step s; sh_tables := sh_tables s;
                             unified_events := unified_events s; deferred := deferred s ++ [e] |}).
Definition start_raw_landing (raw_repo : bool) (e : SourceEnvelopeV1) : IO RawLandingOutcome :=
  if raw_landing_required then persist_raw_envelope raw_repo e
  else if raw_repo then _ ← defer_raw_envelope_persist e; mret (landing None Deferred None)
  else mret not_configured.
Definition landing_error (config : RuntimeStreamConfig) (raw : RawLandingOutcome) : string :=
  "raw_landing_required_but_not_persisted status=" +:+ status_str (rl_status raw) +:+
  " source_id=" +:+ rc_source_id config +:+ " stream_config_id=" +:+ rc_stream_config_id config +:+
  " error=" +:+ default "unknown" (rl_error raw).
Definition land (raw_repo : bool) (config : RuntimeStreamConfig) (e : SourceEnvelopeV1)
  : IO RawLandingOutcome :=
  raw ← start_raw_landing raw_repo e;
  if raw_landing_required && negb (persisted (rl_status raw)) then lift (Err (landing_error config raw))
  else mret raw.

(** ** Source health *)

Definition SOURCE_HEALTH_REPORT_INTERVAL_NS : Z := 30 * 1000000000.
Definition should_skip_source_health_updates (config : RuntimeStreamConfig) : bool :=
  negb (bool_decide (rc_operating_mode_profile config = "live"))
  || bool_decide (rc_tenant_targets config = []).
Definition elapsed_since (now : Z) (reported_at : option Z) : bool :=
  match reported_at with
  | Some at_ => SOURCE_HEALTH_REPORT_INTERVAL_NS <=? now - at_
  | None => true
  end.
Definition should_report_source_health_success (now : Z) (state : SourceHealthReportState) : bool :=
  negb (bool_decide (last_reported_healthy state = Some true))
  || elapsed_since now (last_success_report_at state).
Definition should_report_source_health_failure (now : Z) (state : SourceHealthReportState)
    (failure_message : string) : bool :=
  negb (bool_decide (last_reported_healthy state = Some false))
  || negb (bool_decide (last_failure_message state = Some failure_message))
  || elapsed_since now (last_failure_report_at state).
Definition report_all (config : RuntimeStreamConfig) (healthy : bool) (error : option string) : IO unit :=
  iterate (fun tenant => log_error (write (fun now =>
             update_source_health now tenant (rc_source_id config) healthy error)))
    (rc_tenant_targets config).
Definition report_source_health_success (config : RuntimeStreamConfig) : IO unit :=
  now ← instant_now;
  w ← get_st;
  if should_skip_source_health_updates config
     || negb (should_report_source_health_success now (health_state (local w))) then mret ()
  else
    _ ← report_all config true None;
    now ← instant_now;
    modify_local (set_health {| last_success_report_at := Some now; last_failure_report_at := None;
                                last_failure_message := None; last_reported_healthy := Some true |}).
Definition report_source_health_failure (config : RuntimeStreamConfig) (failure_message : string)
  : IO unit :=
  now ← instant_now;
  w ← get_st;
  let state := health_state (local w) in
  if should_skip_source_health_updates config
     || negb (should_report_source_health_failure now state failure_message) then mret ()
  else
    _ ← report_all config false (Some failure_message);
    now ← instant_now;
    modify_local (set_health {| last_success_report_at := last_success_report_at state;
                                last_failure_report_at := Some now;
                                last_failure_message := Some failure_message;
                                last_reported_healthy := Some false |}).

(** ** Prices *)

Definition FX_LOOKUP_FRESHNESS_SECONDS : Z := 30.
Definition FX_CACHE_TTL_SECONDS : Z := 3.
Definition MARKET_TRUTH_FRESHNESS_SECONDS : Z := 30.
Definition cached_rate (now_ms : Z) (cache : option CachedFxRate) : option f64 :=
  match cache with
  | Some c => if now_ms - cached_at_ms c <=? FX_CACHE_TTL_SECONDS * 1000 then Some (fx_rate c) else None
  | None => None
  end.
Definition lookup_usdt_usd_rate : IO (option f64) :=
  now ← utc_now;
  let now_ms := timestamp_millis now in
  w ← get_st;
  match cached_rate now_ms (fx_cache (local w)) with
  | Some rate => mret (Some rate)
  | None =>
      latest ← query (fun now =>
        latest_operational_market_price now FX_LOOKUP_MARKET_KEY FX_LOOKUP_FRESHNESS_SECONDS);
      match usable latest with
      | Some rate =>
          _ ← modify_local (set_fx {| fx_rate := rate; cached_at_ms := now_ms |});
          mret (Some rate)
      | None => mret None
      end
  end.
(** the event, the stored payload, and whether the event is published *)
Record Normalized := {
  nz_parsed : ParsedFeedEvent;
  nz_payload : Value;
  nz_status : string;
  nz_error : option string;
  nz_fanout : bool
}.
Definition normalized_as (parsed : ParsedFeedEvent) (payload : Value) (status : string)
    (error : option string) (fanout : bool) (entries : list (string * Value)) : Normalized :=
  {| nz_parsed := upsert_normalized_metadata entries parsed; nz_payload := upsert_payload entries payload;
     nz_status := status; nz_error := error; nz_fanout := fanout |}.
Definition apply_usdt_normalization (parsed : ParsedFeedEvent) (payload : Value) : IO Normalized :=
  match pf_price parsed with
  | None => mret {| nz_parsed := parsed; nz_payload := payload; nz_status := "parsed";
                    nz_error := None; nz_fanout := true |}
  | Some raw_price =>
      let quote_asset := derive_quote_asset parsed in
      if negb (bool_decide (quote_asset = Some "USDT")) then
        mret (normalized_as parsed payload "parsed" None true
                (normalization_entries (Some raw_price) quote_asset (Some raw_price) None false))
      else
        fx_rate ← lookup_usdt_usd_rate;
        mret match or_else fx_rate (fallback_usdt_usd_rate parsed quote_asset) with
             | None =>
                 normalized_as (set_price None parsed) payload "partial"
                   (Some "missing_fresh_usdt_usd_rate") false
                   (normalization_entries (Some raw_price) quote_asset None None true)
             | Some fx_rate =>
                 let normalized_price := f64_mul raw_price fx_rate in
                 normalized_as (set_price (Some normalized_price) parsed) payload "parsed" None true
                   (normalization_entries (Some raw_price) quote_asset (Some normalized_price)
                      (Some fx_rate) true)
             end
  end.
Definition apply_market_truth_context (config : RuntimeStreamConfig) (parsed : ParsedFeedEvent)
    (payload : Value) : IO (ParsedFeedEvent * Value) :=
  match pf_market_key parsed, usable (pf_price parsed) with
  | Some market_key, Some current_price =>
      latest ← query (fun now =>
        latest_operational_source_prices now market_key MARKET_TRUTH_FRESHNESS_SECONDS);
      mret match build_market_truth_snapshot market_key
                   (collect_source_prices latest (rc_source_id config) current_price) with
           | Some snapshot =>
               (upsert_market_truth_normalized_fields snapshot parsed,
                upsert_market_truth_payload snapshot payload)
           | None => (parsed, payload)
           end
  | _, _ => mret (parsed, payload)
  end.

(** ** Storing and publishing *)

(** one insert per target when there are several *)
Definition insert_for_targets (config : RuntimeStreamConfig) (record : IngestOperationalEventRecord)
  : IO bool :=
  if (1 <? length (rc_tenant_targets config))%nat then
    for_each (fun any_inserted tenant =>
                inserted ← insert_event (with_tenant (Some tenant) record);
                mret (inserted || any_inserted)) (rc_tenant_targets config) false
  else insert_event record.
Definition fanout_unified_events (config : RuntimeStreamConfig) (payload : Value)
    (parsed : ParsedFeedEvent) (meta : UnifiedEventMeta) : IO unit :=
  iterate (fun tenant =>
             id ← match scoped_simulation_event_id (pf_event_id parsed) (um_simulation_run_id meta) with
                  | Some id => mret id
                  | None => new_uuid
                  end;
             publish_unified_event (unified_event config payload parsed meta id tenant))
    (rc_tenant_targets config).

(** the hints of the connector *)
Record Hints := { chain_id_hint : option Z; simulation_run_id_hint : option string }.
Section payload.
Context (config : RuntimeStreamConfig) (raw_repo : bool) (hints : Hints).

Definition parser_input : ParserInput :=
  {| parser_name := rc_parser_name config; in_event_type := rc_event_type config;
     market_key_hint := rc_market_key config; asset_pair_hint := rc_asset_pair config;
     payload_ts_path := rc_payload_ts_path config; payload_ts_unit := rc_payload_ts_unit config;
     filter_config := rc_filter_config config |}.
Definition overridden (payload : Value) (parsed : ParsedFeedEvent) : ParsedFeedEvent :=
  let parsed := set_chain (or_else (pf_chain_id parsed) (chain_id_hint hints))
                  (pf_block_number parsed) (pf_tx_hash parsed) parsed in
  apply_accelerated_simulation_timestamp payload (simulation_run_id_hint hints)
    (apply_inverted_price_override config
       (apply_runtime_field_mapping_overrides config payload parsed)).
Definition check_duplicate (parsed : ParsedFeedEvent) : IO bool := fun w =>
  let '(state, skip) :=
    should_skip_duplicate_quote config parsed (recent_quote_state (local w)) in
  ({| shared := shared w; local := set_recent state (local w) |}, Ret skip).

(** from the landed envelope on: the row, the fan-out, the health of the source *)
Definition store_and_publish (n : Normalized) (parsed : ParsedFeedEvent) (stored_payload : Value)
    (dedup_key : option string) (raw : RawLandingOutcome) (is_simulated : bool)
    (simulation_run_id : option string) : IO unit :=
  let parsed := set_fields (annotate_ingestion_meta "realtime" (rl_status raw) (rl_error raw)
                              (pf_normalized_fields parsed)) parsed in
  let record := to_operational_record config parsed stored_payload dedup_key (nz_status n) (nz_error n)
                  (rl_pointer raw) (pf_observed_at parsed) is_simulated simulation_run_id in
  inserted ← insert_for_targets config record;
  if negb inserted then mret ()
  else
    _ ← (if nz_fanout n then
           fanout_unified_events config stored_payload parsed
             {| um_dedup_key := dedup_key; um_ingest_persisted := inserted;
                um_raw_landing_status := rl_status raw; um_raw_landing_error := rl_error raw;
                um_is_simulated := is_simulated; um_simulation_run_id := simulation_run_id |}
         else mret ());
    report_source_health_success config.
Definition process_parsed (payload : Value) (parsed : ParsedFeedEvent) : IO unit :=
  let parsed := overridden payload parsed in
  skip ← check_duplicate parsed;
  if (skip : bool) then mret ()
  else
    let '(is_simulated, simulation_run_id) :=
      effective_simulation_metadata payload (simulation_run_id_hint hints) in
    n ← apply_usdt_normalization parsed payload;
    '(parsed, stored_payload) ← apply_market_truth_context config (nz_parsed n) (nz_payload n);
    let dedup_key := build_dedup_key config parsed payload (simulation_run_id_hint hints) in
    id ← new_uuid;
    fresh_key ← new_uuid;
    raw ← land raw_repo config
            (to_source_envelope id fresh_key config parsed stored_payload dedup_key
               (pf_observed_at parsed) is_simulated simulation_run_id);
    store_and_publish n parsed stored_payload dedup_key raw is_simulated simulation_run_id.

Definition failed_envelope (id : string) (payload : Value) (observed_at : DateTime) (dedup_key : string)
    (is_simulated : bool) (simulation_run_id : option string) : SourceEnvelopeV1 :=
  {| ev_envelope_id := id; ev_source_id := rc_source_id config;
     ev_source_type := rc_source_type config; ev_stream_id := rc_stream_config_id config;
     ev_schema_version := "v1"; ev_event_type := rc_event_type config; ev_event_ts := observed_at;
     ev_observed_at := observed_at; ev_partition_key := date_naive observed_at;
     ev_idempotency_key := dedup_key; ev_payload := payload; ev_chain_id := chain_id_hint hints;
     ev_block_number := None; ev_tx_hash := None; ev_log_index := None; ev_topic0 := None;
     ev_market_key := rc_market_key config; ev_price := None; ev_is_simulated := is_simulated;
     ev_simulation_run_id := simulation_run_id |}.
Definition failed_record (payload : Value) (observed_at : DateTime) (dedup_key parse_error : string)
    (raw : RawLandingOutcome) (is_simulated : bool) (simulation_run_id : option string)
  : IngestOperationalEventRecord :=
  {| oe_stream_id := Some (rc_stream_config_id config); oe_source_id := rc_source_id config;
     oe_source_type := rc_source_type config; oe_tenant_id := only_target config;
     oe_event_type := rc_event_type config; oe_event_id := None;
     oe_market_key := rc_market_key config; oe_asset_pair := rc_asset_pair config;
     oe_chain_id := chain_id_hint hints; oe_block_number := None; oe_tx_hash := None;
     oe_log_index := None; oe_topic0 := None; oe_price := None; oe_payload_event_ts := None;
     oe_observed_at := observed_at; oe_parse_status := "error"; oe_parse_error := Some parse_error;
     oe_payload := payload;
     oe_normalized_fields :=
       annotate_ingestion_meta "realtime" (rl_status raw) (rl_error raw) (VObject ∅);
     oe_dedup_key := Some dedup_key; oe_raw_ref_type := raw_ref_type <$> rl_pointer raw;
     oe_raw_ref_id := raw_ref_id <$> rl_pointer raw; oe_raw_s3_uri := None;
     oe_is_simulated := is_simulated; oe_simulation_run_id := simulation_run_id |}.
Definition failure_of (payload : Value) (parse_error : string) (observed_at : DateTime)
  : IngestFailureRecord :=
  {| fl_stream_id := Some (rc_stream_config_id config); fl_source_id := rc_source_id config;
     fl_source_type := rc_source_type config; fl_event_type := Some (rc_event_type config);
     fl_payload_excerpt := payload; fl_error_kind := "parse"; fl_error_message := parse_error;
     fl_retryable := false; fl_observed_at := observed_at |}.
Definition process_unparsed (payload : Value) (parse_error : string) : IO unit :=
  now ← utc_now;
  let observed_at :=
    default now (accelerated_simulation_timestamp payload (simulation_run_id_hint hints)) in
  let dedup_key := hash_payload_only config payload observed_at (simulation_run_id_hint hints) in
  let '(is_simulated, simulation_run_id) :=
    effective_simulation_metadata payload (simulation_run_id_hint hints) in
  id ← new_uuid;
  raw ← land raw_repo config
          (failed_envelope id payload observed_at dedup_key is_simulated simulation_run_id);
  _ ← insert_for_targets config
        (failed_record payload observed_at dedup_key parse_error raw is_simulated simulation_run_id);
  _ ← (if raw_repo then
         log_error (write (fun now => insert_ingest_failure now (failure_of payload parse_error observed_at)))
       else mret ());
  report_source_health_success config.
Definition process_payload (payload : Value) : IO unit :=
  now ← utc_now;
  match parse_payload now parser_input payload with
  | Ret parsed => process_parsed payload parsed
  | Err parse_error => process_unparsed payload parse_error
  | Panic => lift Panic
  end.
(** the items of a batch in order, up to the first error *)
Definition process_http_poll_payload (payload : Value) : IO unit :=
  iterate process_payload (http_poll_payload_items (rc_parser_name config) payload).
End payload.
End worker.
