(* ===== verification/WorkerProofs.v ===== *)
(** * Stream workers: what is stored and published

    Every interaction that is neither an insert nor a publication leaves the
    operational events and the stream of unified events alone ([quiet]); the
    insert of a payload adds at most one row, whatever the number of tenants; and
    what is published describes the row that was stored first. *)
From S2P Require Import Prelude F64 Text Numbers Ports EventSchema FieldMapping Hex StreamParser ChainParsers ProtocolParsers AlertIO IngestStore WorkerConfig StreamWorker WorkerIO.

Section proofs.
Context `{Chrono} `{SerdeJson} `{!FieldCodec} `{Unicode} `{Powi} `{U256} `{HashOrder}.
Context `{!Sha256} `{!Dates} `{!ProcessEnv} `{!IngestEnv}.
Notation IO := (ST WorkerState).
Implicit Types (w : WorkerState) (config : RuntimeStreamConfig).

Definition rows w : list (IngestOperationalEventRecord * DateTime) :=
  operational (sh_tables (shared w)).
Definition published w : list UnifiedEvent := unified_events (shared w).

(** ** Interactions that leave both alone *)

Definition quiet w w' : Prop := rows w' = rows w /\ published w' = published w.
#[export] Instance quiet_preorder : PreOrder quiet.
Proof.
  split; [done|]. intros w1 w2 w3 [Ha Hb] [Hc Hd]. split; by etrans.
Qed.

Lemma tick_quiet : within quiet tick.
Proof. done. Qed.
Lemma modify_local_quiet f : within quiet (modify_local f).
Proof. done. Qed.
Lemma get_st_quiet : within quiet (get_st : IO WorkerState).
Proof. done. Qed.
Lemma clock_quiet : within quiet utc_now.
Proof. apply within_bind; [typeclasses eauto|done|]. intros n. by apply within_ret; typeclasses eauto. Qed.
Lemma instant_quiet : within quiet instant_now.
Proof. apply within_bind; [typeclasses eauto|done|]. intros n. by apply within_ret; typeclasses eauto. Qed.
Lemma uuid_quiet : within quiet new_uuid.
Proof. apply within_bind; [typeclasses eauto|done|]. intros n. by apply within_ret; typeclasses eauto. Qed.
Lemma statement_quiet {A} (f : DateTime -> IngestTables -> IngestTables * outcome A) :
  (forall now t, operational (f now t).1 = operational t) -> within quiet (statement f).
Proof.
  intros Hf. apply within_bind; [typeclasses eauto|done|]. intros n w.
  destruct (ie_sql_error n); [done|]. specialize (Hf (ie_clock n) (sh_tables (shared w))).
  unfold quiet, rows, published. by destruct (f (ie_clock n) (sh_tables (shared w))).
Qed.
Lemma query_quiet {A} (f : DateTime -> IngestTables -> A) : within quiet (query f).
Proof. by apply statement_quiet. Qed.
Lemma write_quiet f : (forall now t, operational (f now t) = operational t) -> within quiet (write f).
Proof. intros Hf. by apply statement_quiet. Qed.
Lemma insert_envelope_operational id e t : operational (insert_envelope id e t).1 = operational t.
Proof.
  unfold insert_envelope, insert_chain_event, insert_cex_tick, insert_dex_event.
  repeat case_match; by simplify_eq.
Qed.

Create HintDb quiet.
#[local] Hint Resolve tick_quiet modify_local_quiet get_st_quiet clock_quiet instant_quiet uuid_quiet
  query_quiet : quiet.
(** decompose a computation whose parts are quiet *)
Ltac quietly := repeat first
  [ solve [auto with quiet nocore]
  | apply within_ret; typeclasses eauto | apply within_lift; typeclasses eauto
  | apply within_log_error; [typeclasses eauto|]
  | apply within_iterate; [typeclasses eauto|intros ?]
  | apply write_quiet; [done]
  | apply within_bind; [typeclasses eauto| |intros ?]
  | apply within_if | apply within_option; [intros ?|] | case_match ].

Lemma write_source_envelope_quiet e : within quiet (write_source_envelope e).
Proof.
  assert (Hraw : forall id answer, within quiet (execute_raw id answer e)).
  { intros id answer w. unfold execute_raw, quiet, rows, published.
    pose proof (insert_envelope_operational id e (sh_tables (shared w))) as Hi.
    by destruct (insert_envelope id e (sh_tables (shared w))). }
  unfold write_source_envelope. quietly; apply Hraw.
Qed.
#[local] Hint Resolve write_source_envelope_quiet : quiet.
Lemma land_quiet raw_repo config e : within quiet (land raw_repo config e).
Proof.
  unfold land, start_raw_landing, persist_raw_envelope, defer_raw_envelope_persist.
  quietly.
Qed.
Lemma report_success_quiet config : within quiet (report_source_health_success config).
Proof. unfold report_source_health_success, report_all. quietly. Qed.
Lemma report_failure_quiet config m : within quiet (report_source_health_failure config m).
Proof. unfold report_source_health_failure, report_all. quietly. Qed.
Lemma normalization_quiet parsed payload : within quiet (apply_usdt_normalization parsed payload).
Proof. unfold apply_usdt_normalization, lookup_usdt_usd_rate. quietly. Qed.
Lemma market_truth_quiet config parsed payload :
  within quiet (apply_market_truth_context config parsed payload).
Proof. unfold apply_market_truth_context. quietly. Qed.
Lemma check_duplicate_quiet config parsed : within quiet (check_duplicate config parsed).
Proof. intros w. unfold check_duplicate. by case_match. Qed.
#[local] Hint Resolve land_quiet report_success_quiet report_failure_quiet normalization_quiet
  market_truth_quiet check_duplicate_quiet : quiet.

(** where a computation that begins with a quiet one ends *)
Lemma quiet_bind {A B} (m : IO A) (f : A -> IO B) (P : WorkerState -> outcome B -> Prop) w :
  within quiet m ->
  (forall w1, quiet w w1 -> forall o, (forall b, o <> Ret b) -> P w1 o) ->
  (forall a w1, m w = (w1, Ret a) -> quiet w w1 -> P (f a w1).1 (f a w1).2) ->
  P ((m ≫= f) w).1 ((m ≫= f) w).2.
Proof.
  intros Hm Hfail Hf. specialize (Hm w). unfold mbind, st_bind.
  destruct (m w) as [w1 [a|e|]]; simpl in *; [by apply Hf|by apply Hfail..].
Qed.

(** ** Inserts *)

(** the keys of the unique indexes *)
Definition dedup_keys (l : list (IngestOperationalEventRecord * DateTime)) : list string :=
  omap (fun row => oe_dedup_key row.1) l.
Lemma violates_dedup r row k :
  oe_dedup_key r = Some k -> oe_dedup_key row = Some k -> violates_unique r row = true.
Proof.
  intros Hr Hrow. unfold violates_unique, same_some at 2. rewrite Hr, Hrow.
  rewrite bool_decide_eq_true_2 by done. apply orb_true_r.
Qed.
Lemma violates_tenant t r row : violates_unique (with_tenant t r) row = violates_unique r row.
Proof. done. Qed.

Definition conflict r w : bool := existsb (fun row => violates_unique r row.1) (rows w).
Lemma conflict_rows r w w' : rows w' = rows w -> conflict r w' = conflict r w.
Proof. unfold conflict. by intros ->. Qed.
Lemma conflict_key r w k :
  oe_dedup_key r = Some k -> k ∈ dedup_keys (rows w) -> conflict r w = true.
Proof.
  intros Hr Hk. apply list_elem_of_omap in Hk as (row & Hin & Hrow). apply existsb_exists.
  exists row. split; [by apply list_elem_of_In|by eapply violates_dedup].
Qed.

(** what one insert does *)
Inductive inserted_row r w w' : outcome bool -> Prop :=
  | IrFailed e : quiet w w' -> inserted_row r w w' (Err e)
  | IrConflict : quiet w w' -> conflict r w = true -> inserted_row r w w' (Ret false)
  | IrRow now : rows w' = rows w ++ [(r, now)] -> published w' = published w ->
      conflict r w = false -> inserted_row r w w' (Ret true).
Lemma insert_event_cases r w w' o : insert_event r w = (w', o) -> inserted_row r w w' o.
Proof.
  unfold insert_event, statement, mbind, st_bind, tick. simpl.
  destruct (ie_sql_error _); [intros [= <- <-]; by apply IrFailed|].
  unfold insert_ingest_operational_event. case_bool_decide; [intros [= <- <-]; by apply IrFailed|].
  destruct (existsb _ _) eqn:He; intros [= <- <-]; [by apply IrConflict|].
  by apply (IrRow _ _ _ (ie_clock (sh_step (shared w)))).
Qed.
(** once the keys of a record are taken, it is not inserted for any tenant *)
Definition insert_tenants r (any : bool) (ts : list string) : IO bool :=
  for_each (fun any_inserted tenant =>
              inserted ← insert_event (with_tenant (Some tenant) r);
              mret (inserted || any_inserted)) ts any.
Lemma insert_tenants_none r ts any w w' o :
  conflict r w = true -> insert_tenants r any ts w = (w', o) -> quiet w w' /\ o <> Ret (negb any).
Proof.
  unfold insert_tenants. revert w. induction ts as [|t ts IH]; intros w Hc; simpl.
  { intros [= <- <-]. split; [done|]. intros [= Ha]. by destruct any. }
  unfold mbind, st_bind. destruct (insert_event _ w) as [w1 o1] eqn:Hi.
  apply insert_event_cases in Hi as [e Hq|Hq _|now _ _ Hn]; simpl.
  - by intros [= <- <-].
  - intros Hrun. apply IH in Hrun as [Hq1 Ho]; [split; [by etrans|done]|].
    by rewrite (conflict_rows r w w1 (proj1 Hq)).
  - change (conflict r w = false) in Hn. congruence.
Qed.

(** the row a payload stores: for its only target, or for the first one *)
Definition stored_row config r : IngestOperationalEventRecord :=
  match rc_tenant_targets config with
  | t :: _ :: _ => with_tenant (Some t) r
  | _ => r
  end.
Inductive stored_one r w w' : outcome bool -> Prop :=
  | SoNone o : quiet w w' -> o <> Ret true -> stored_one r w w' o
  | SoRow now o : rows w' = rows w ++ [(r, now)] -> published w' = published w ->
      conflict r w = false -> o <> Ret false -> stored_one r w w' o.
Lemma insert_for_targets_cases config r k w w' o :
  oe_dedup_key r = Some k -> insert_for_targets config r w = (w', o) ->
  stored_one (stored_row config r) w w' o.
Proof.
  intros Hr. unfold insert_for_targets, stored_row.
  assert (Hone : forall r, insert_event r w = (w', o) -> stored_one r w w' o).
  { intros r' Hi. apply insert_event_cases in Hi as [e Hq|Hq _|now Hrows Hpub Hn];
      [by apply SoNone..|by apply (SoRow _ _ _ now)]. }
  destruct (rc_tenant_targets config) as [|t [|t' ts]]; [apply Hone..|]. simpl length.
  cbn [Nat.ltb Nat.leb]. change (insert_tenants r false (t :: t' :: ts) w = (w', o) -> 
    stored_one (with_tenant (Some t) r) w w' o).
  unfold insert_tenants. cbn [for_each]. unfold mbind at 1, st_bind at 1. unfold mbind at 1, st_bind at 1.
  destruct (insert_event (with_tenant (Some t) r) w) as [w1 o1] eqn:Hi.
  apply insert_event_cases in Hi as [e Hq|Hq Hc|now Hrows Hpub Hn].
  - intros [= <- <-]. by apply SoNone.
  - intros Hrun. apply (insert_tenants_none r (t' :: ts) false w1) in Hrun as [Hq1 Ho].
    + apply SoNone; [by etrans|done].
    + rewrite (conflict_rows r w w1 (proj1 Hq)). exact Hc.
  - intros Hrun. apply (insert_tenants_none r (t' :: ts) true w1) in Hrun as [[Hr1 Hp1] Ho].
    + apply (SoRow _ _ _ now); [congruence..|done].
    + apply (conflict_key r w1 k Hr). apply list_elem_of_omap.
      exists (with_tenant (Some t) r, now). split; [|done]. rewrite Hrows. apply elem_of_app. right.
      by apply list_elem_of_singleton.
Qed.

(** ** The fan-out *)

(** the events of a prefix of the targets, in order *)
Inductive fanned config payload parsed meta w w' (o : outcome unit) : Prop :=
  | Fanned ts rest es : rc_tenant_targets config = ts ++ rest ->
      Forall2 (fun t e => exists id, e = unified_event config payload parsed meta id t) ts es ->
      rows w' = rows w -> published w' = published w ++ es ->
      (o = Ret () -> rest = []) -> fanned config payload parsed meta w w' o.
Lemma publish_cases e w w' o :
  publish_unified_event e w = (w', o) ->
  rows w' = rows w /\ ((exists m, o = Err m) /\ published w' = published w \/
                       o = Ret () /\ published w' = published w ++ [e]).
Proof.
  unfold publish_unified_event, mbind, st_bind, tick. simpl.
  destruct (ie_redis_error _) as [m|]; intros [= <- <-]; split; eauto.
Qed.
Lemma publish_all_cases (id : IO string) (f : string -> string -> UnifiedEvent) ts w w' o :
  within quiet id ->
  iterate (fun tenant => i ← id; publish_unified_event (f i tenant)) ts w = (w', o) ->
  exists done rest es, ts = done ++ rest /\ Forall2 (fun t e => exists i, e = f i t) done es /\
    rows w' = rows w /\ published w' = published w ++ es /\ (o = Ret () -> rest = []).
Proof.
  intros Hid. unfold iterate. revert w. generalize () at 1. induction ts as [|t ts IH]; intros u w; simpl.
  { intros [= <- <-]. exists [], [], []. rewrite ?app_nil_r. split_and!; done || constructor. }
  unfold mbind at 1, st_bind at 1. unfold mbind at 1, st_bind at 1.
  pose proof (Hid w) as Hq. destruct (id w) as [w1 [i|e|]]; destruct Hq as [Hr1 Hp1]; simpl in *;
    try (intros [= <- <-]; exists [], (t :: ts), []; rewrite ?app_nil_r; split_and!; done || constructor).
  destruct (publish_unified_event (f i t) w1) as [w2 o2] eqn:Hpub.
  apply publish_cases in Hpub as [Hr2 [[[m ->] Hp2]|[-> Hp2]]].
  { intros [= <- <-]. exists [], (t :: ts), []. rewrite ?app_nil_r.
    split_and!; done || constructor || congruence. }
  intros Hrun. apply IH in Hrun as (ts1 & rest & es & -> & Hes & Hr & Hp & Ho).
  exists (t :: ts1), rest, (f i t :: es). split_and!; try done.
  - constructor; [by exists i|done].
  - congruence.
  - rewrite Hp, Hp2, Hp1. by rewrite <- app_assoc.
Qed.
Lemma fanout_cases config payload parsed meta w w' o :
  fanout_unified_events config payload parsed meta w = (w', o) ->
  fanned config payload parsed meta w w' o.
Proof.
  intros Hrun. apply (publish_all_cases _ (fun i t => unified_event config payload parsed meta i t))
    in Hrun as (ts & rest & es & Hts & Hes & Hr & Hp & Ho).
  - by apply (Fanned _ _ _ _ _ _ _ ts rest es).
  - case_match; [apply within_ret; typeclasses eauto|apply uuid_quiet].
Qed.

(** ** One payload *)

(** what reaches the tables and the stream *)
Record delivery := {
  dl_normalized : Normalized;
  dl_fields : Value;
  dl_payload : Value;
  dl_key : string;
  dl_raw : RawLandingOutcome;
  dl_is_simulated : bool;
  dl_run_id : option string
}.
Definition dl_event (d : delivery) : ParsedFeedEvent := set_fields (dl_fields d) (nz_parsed (dl_normalized d)).
Definition dl_record config (d : delivery) : IngestOperationalEventRecord :=
  to_operational_record config (dl_event d) (dl_payload d) (Some (dl_key d))
    (nz_status (dl_normalized d)) (nz_error (dl_normalized d)) (rl_pointer (dl_raw d))
    (pf_observed_at (dl_event d)) (dl_is_simulated d) (dl_run_id d).
Definition dl_meta (d : delivery) : UnifiedEventMeta :=
  {| um_dedup_key := Some (dl_key d); um_ingest_persisted := true;
     um_raw_landing_status := rl_status (dl_raw d); um_raw_landing_error := rl_error (dl_raw d);
     um_is_simulated := dl_is_simulated d; um_simulation_run_id := dl_run_id d |}.
Definition dl_published config (d : delivery) (tenant : string) (e : UnifiedEvent) : Prop :=
  exists id, e = unified_event config (dl_payload d) (dl_event d) (dl_meta d) id tenant.

(** a row and the events of a prefix of the targets, all of them in the end *)
Inductive delivers config (d : delivery) w w' (o : outcome unit) : Prop :=
  | Delivers now ts rest es :
      rows w' = rows w ++ [(stored_row config (dl_record config d), now)] ->
      conflict (stored_row config (dl_record config d)) w = false ->
      published w' = published w ++ es ->
      rc_tenant_targets config = ts ++ rest -> Forall2 (dl_published config d) ts es ->
      (o = Ret () -> nz_fanout (dl_normalized d) = true -> rest = []) ->
      (nz_fanout (dl_normalized d) = false -> es = []) ->
      delivers config d w w' o.

Lemma fan_then_report config (fanout : bool) payload parsed meta w w' o :
  ((if fanout then fanout_unified_events config payload parsed meta else mret ())
     ≫= fun _ => report_source_health_success config) w = (w', o) ->
  exists ts rest es, rc_tenant_targets config = ts ++ rest /\
    Forall2 (fun t e => exists id, e = unified_event config payload parsed meta id t) ts es /\
    rows w' = rows w /\ published w' = published w ++ es /\
    (o = Ret () -> fanout = true -> rest = []) /\ (fanout = false -> es = []).
Proof.
  unfold mbind, st_bind. destruct fanout; simpl.
  - destruct (fanout_unified_events _ _ _ _ w) as [w1 o1] eqn:Hf.
    apply fanout_cases in Hf as [ts rest es Hts Hes Hr Hp Hret].
    pose proof (report_success_quiet config w1) as [Hr1 Hp1].
    intros Hrun. exists ts, rest, es. assert (Hw : rows w' = rows w1 /\ published w' = published w1).
    { destruct o1 as [[]|e|]; [rewrite Hrun in Hr1, Hp1; done|by injection Hrun as <- _..]. }
    destruct Hw as [-> ->]. split_and!; try done. intros Ho _. apply Hret.
    destruct o1 as [[]|e|]; [done|by injection Hrun as _ <-..].
  - intros Hrun. pose proof (report_success_quiet config w) as [Hr1 Hp1].
    rewrite Hrun in Hr1, Hp1. exists [], (rc_tenant_targets config), []. rewrite ?app_nil_r.
    split_and!; done || constructor.
Qed.

Lemma store_and_publish_cases config n parsed sp key raw sim run w w' o :
  store_and_publish config n parsed sp (Some key) raw sim run w = (w', o) ->
  (exists v, parsed = set_fields v (nz_parsed n)) ->
  quiet w w' \/ exists v, delivers config
    {| dl_normalized := n; dl_fields := v; dl_payload := sp; dl_key := key; dl_raw := raw;
       dl_is_simulated := sim; dl_run_id := run |} w w' o.
Proof.
  intros Hrun [v0 ->]. unfold store_and_publish in Hrun. cbv zeta in Hrun.
  set (v := annotate_ingestion_meta _ _ _ _) in Hrun.
  set (d := {| dl_normalized := n; dl_fields := v; dl_payload := sp; dl_key := key; dl_raw := raw;
       dl_is_simulated := sim; dl_run_id := run |}).
  change (set_fields v (set_fields v0 (nz_parsed n))) with (dl_event d) in Hrun.
  unfold mbind at 1, st_bind at 1 in Hrun.
  destruct (insert_for_targets _ _ w) as [w1 o1] eqn:Hi.
  apply (insert_for_targets_cases _ _ key) in Hi; [|done].
  destruct Hi as [o1 Hq Ho1|now o1 Hrows Hpub Hn Ho1].
  { left. destruct o1 as [[]|e|]; [done|by injection Hrun as <- _..]. }
  right. exists v. fold d.
  change (stored_row config _) with (stored_row config (dl_record config d)) in Hrows, Hn.
  destruct o1 as [[]|e|]; [|done| |]; simpl in Hrun;
    [|injection Hrun as <- <-; apply (Delivers _ _ _ _ _ now [] (rc_tenant_targets config) []);
       rewrite ?app_nil_r; done || constructor..].
  apply fan_then_report in Hrun as (ts & rest & es & Hts & Hes & Hr & Hp & Hret & Hno).
  apply (Delivers _ _ _ _ _ now ts rest es); try done; congruence.
Qed.

Lemma truth_same_event config parsed payload w w' p sp :
  apply_market_truth_context config parsed payload w = (w', Ret (p, sp)) ->
  exists v, p = set_fields v parsed.
Proof.
  assert (Hself : exists v, parsed = set_fields v parsed).
  { exists (pf_normalized_fields parsed). by destruct parsed. }
  unfold apply_market_truth_context.
  destruct (pf_market_key parsed); [|by intros [= _ <- _]].
  destruct (usable (pf_price parsed)); [|by intros [= _ <- _]].
  intros Hrun. apply st_bind_ret_inv in Hrun as (w1 & latest & _ & Hrun).
  destruct (build_market_truth_snapshot _ _); injection Hrun as _ <- _; [|done]. by eexists.
Qed.

(** what one parsed payload did: nothing, or one delivery *)
Definition same_fx w w' : Prop := shared w' = shared w /\ fx_cache (local w') = fx_cache (local w).
Inductive processed config hints payload parsed w w' (o : outcome unit) : Prop :=
  | PrQuiet : quiet w w' -> processed config hints payload parsed w w' o
  | PrDelivered d w1 w2 w3 : delivers config d w3 w' o ->
      apply_usdt_normalization (overridden config hints payload parsed) payload w1
        = (w2, Ret (dl_normalized d)) ->
      same_fx w w1 -> quiet w w1 -> quiet w2 w3 ->
      build_dedup_key config (dl_event d) payload (simulation_run_id_hint hints) = Some (dl_key d) ->
      effective_simulation_metadata payload (simulation_run_id_hint hints)
        = (dl_is_simulated d, dl_run_id d) ->
      processed config hints payload parsed w w' o.
Lemma dedup_key_fields config v p payload hint :
  build_dedup_key config (set_fields v p) payload hint = build_dedup_key config p payload hint.
Proof. done. Qed.
Lemma dedup_key_some config p payload hint : is_Some (build_dedup_key config p payload hint).
Proof. unfold build_dedup_key. repeat case_match; by eexists. Qed.

Lemma process_parsed_cases config raw_repo hints payload parsed w w' o :
  process_parsed config raw_repo hints payload parsed w = (w', o) ->
  processed config hints payload parsed w w' o.
Proof.
  unfold process_parsed. cbv zeta. unfold mbind at 1, st_bind at 1.
  unfold check_duplicate. destruct (should_skip_duplicate_quote _ _ _) as [recent [|]].
  { intros [= <- <-]. by apply PrQuiet. }
  destruct (effective_simulation_metadata _ _) as [sim run] eqn:Hsim.
  set (w1 := {| shared := shared w; local := set_recent recent (local w) |}).
  intros Hrun. unfold mbind at 1, st_bind at 1 in Hrun.
  pose proof (normalization_quiet (overridden config hints payload parsed) payload w1) as Hqn.
  destruct (apply_usdt_normalization _ _ w1) as [w2 [n|e|]] eqn:Hn;
    [|injection Hrun as <- _; by apply PrQuiet..].
  unfold mbind at 1, st_bind at 1 in Hrun.
  pose proof (market_truth_quiet config (nz_parsed n) (nz_payload n) w2) as Hqt.
  destruct (apply_market_truth_context _ _ _ w2) as [w3 [[p sp]|e|]] eqn:Ht;
    [|injection Hrun as <- _; apply PrQuiet; by etrans..].
  apply truth_same_event in Ht as Hp.
  destruct (dedup_key_some config p payload (simulation_run_id_hint hints)) as [key Hkey].
  rewrite Hkey in Hrun.
  do 2 (unfold mbind at 1, st_bind at 1 in Hrun; simpl in Hrun).
  unfold mbind at 1, st_bind at 1 in Hrun.
  match type of Hrun with context [land ?r ?c ?e ?w4] =>
    pose proof (land_quiet r c e w4) as Hql; destruct (land r c e w4) as [w5 [raw|e'|]] end;
    [|injection Hrun as <- _; apply PrQuiet; etrans; [exact Hqn|]; etrans; [exact Hqt|]; exact Hql..].
  apply store_and_publish_cases in Hrun as [Hq|[v Hd]]; [..|exact Hp].
  { apply PrQuiet. etrans; [exact Hqn|]. etrans; [exact Hqt|]. etrans; [exact Hql|exact Hq]. }
  apply (PrDelivered _ _ _ _ _ _ _ _ w1 w2 w5 Hd); try done.
  - etrans; [exact Hqt|exact Hql].
  - destruct Hp as [v0 ->]. exact Hkey.
Qed.

(** a payload that does not parse leaves a row and publishes nothing *)
Inductive failed_row config w w' : Prop :=
  | FailedRow r now : rows w' = rows w ++ [(stored_row config r, now)] -> published w' = published w ->
      conflict (stored_row config r) w = false -> oe_parse_status r = "error" -> oe_price r = None ->
      failed_row config w w'.
Definition failure_tail config (raw_repo : bool) (f : IngestFailureRecord) : IO unit :=
  _ ← (if raw_repo then log_error (write (fun now => insert_ingest_failure now f)) else mret ());
  report_source_health_success config.
Lemma failure_tail_quiet config raw_repo f : within quiet (failure_tail config raw_repo f).
Proof. unfold failure_tail. quietly. Qed.
Lemma process_unparsed_cases config raw_repo hints payload e w w' o :
  process_unparsed config raw_repo hints payload e w = (w', o) -> quiet w w' \/ failed_row config w w'.
Proof.
  unfold process_unparsed. unfold mbind at 1, st_bind at 1.
  pose proof (clock_quiet w) as Hq1. destruct (utc_now w) as [w1 [now|e'|]];
    [|intros [= <- _]; by left..].
  cbv zeta. set (observed := default now _). set (key := hash_payload_only _ _ _ _).
  destruct (effective_simulation_metadata _ _) as [sim run].
  unfold mbind at 1, st_bind at 1. pose proof (uuid_quiet w1) as Hq2.
  destruct (new_uuid w1) as [w2 [id|e'|]];
    [|intros [= <- _]; left; etrans; [exact Hq1|exact Hq2]..].
  simpl in Hq1, Hq2. unfold mbind at 1, st_bind at 1.
  match goal with |- context [land ?r ?c ?env w2] =>
    pose proof (land_quiet r c env w2) as Hq3; destruct (land r c env w2) as [w3 [raw|e'|]] end;
    simpl in Hq3;
    (assert (Hq : quiet w w3) by (etrans; [exact Hq1|]; etrans; [exact Hq2|exact Hq3]));
    [|intros [= <- _]; by left..].
  unfold mbind at 1, st_bind at 1. set (r := failed_record _ _ _ _ _ _ _ _ _).
  destruct (insert_for_targets config r w3) as [w4 o4] eqn:Hi.
  apply (insert_for_targets_cases _ _ key) in Hi; [|done].
  pose proof (failure_tail_quiet config raw_repo (failure_of config payload e observed) w4) as Hrest.
  destruct Hi as [o4 Hq4 _|now4 o4 Hrows Hpub Hn _].
  - intros Hrun. left. etrans; [exact Hq|]. etrans; [exact Hq4|].
    destruct o4 as [b|e4|]; [|by injection Hrun as <- _..]. cbv beta iota in Hrun.
    unfold failure_tail in Hrest. by rewrite Hrun in Hrest.
  - intros Hrun. right. assert (Hq5 : quiet w4 w').
    { destruct o4 as [b|e4|]; [|by injection Hrun as <- _..]. cbv beta iota in Hrun.
      unfold failure_tail in Hrest. by rewrite Hrun in Hrest. }
    destruct Hq as [Hra Hpa], Hq5 as [Hrb Hpb].
    apply (FailedRow _ _ _ r now4); [congruence..| |done|done].
    by rewrite <- (conflict_rows _ w w3 Hra).
Qed.

(** [process_payload], whatever its outcome *)
Inductive outcome_of config hints payload w w' (o : outcome unit) : Prop :=
  | OutQuiet : quiet w w' -> outcome_of config hints payload w w' o
  | OutFailed : failed_row config w w' -> outcome_of config hints payload w w' o
  | OutParsed now parsed w1 : parse_payload now (parser_input config) payload = Ret parsed ->
      rows w1 = rows w /\ fx_cache (local w1) = fx_cache (local w) -> quiet w w1 ->
      processed config hints payload parsed w1 w' o -> outcome_of config hints payload w w' o.
Lemma process_payload_cases config raw_repo hints payload w w' o :
  process_payload config raw_repo hints payload w = (w', o) -> outcome_of config hints payload w w' o.
Proof.
  unfold process_payload, utc_now, tick, mbind, st_bind. simpl.
  set (w1 := {| shared := step_on (shared w); local := local w |}).
  destruct (parse_payload _ _ _) as [parsed|e|] eqn:Hp.
  - intros Hrun. apply process_parsed_cases in Hrun. by apply (OutParsed _ _ _ _ _ _ _ parsed w1 Hp).
  - intros Hrun. apply process_unparsed_cases in Hrun as [Hq|Hf]; [by apply OutQuiet|].
    destruct Hf as [r now Hr Hpub Hc Hs Hpr]. apply OutFailed. by apply (FailedRow _ _ _ r now).
  - intros [= <- _]. by apply OutQuiet.
Qed.
End proofs.
