(* ===== verification/IngestProofs.v ===== *)
(** * Stream workers: theorems on processed payloads

    Over any sequence of payloads, of any workers on the same tables: what is
    published was stored first and is published once per tenant; a row is
    stored for one tenant only; a USDT quote is published in dollars or not at
    all; an event whose identifier is taken by any source is lost. *)
From S2P Require Import Prelude F64 Text Numbers Ports EventSchema FieldMapping Hex StreamParser ChainParsers ProtocolParsers AlertIO IngestStore WorkerConfig StreamWorker WorkerIO WorkerProofs.

Section theorems.
Context `{Chrono} `{SerdeJson} `{!FieldCodec} `{Unicode} `{Powi} `{U256} `{HashOrder}.
Context `{!Sha256} `{!Dates} `{!ProcessEnv} `{!IngestEnv}.
Implicit Types (w : WorkerState) (config : RuntimeStreamConfig).

(** ** Runs *)

(** a payload handed to a worker, with what this worker keeps *)
Record Job := {
  jb_config : RuntimeStreamConfig;
  jb_raw_repo : bool;
  jb_hints : Hints;
  jb_payload : Value;
  jb_local : Local
}.
Definition run_job (s : Shared) (j : Job) : Shared :=
  shared (process_payload (jb_config j) (jb_raw_repo j) (jb_hints j) (jb_payload j)
            {| shared := s; local := jb_local j |}).1.
Definition run_jobs (jobs : list Job) (s : Shared) : Shared := foldl run_job s jobs.

(** ** What is published was stored, once *)

Definition published_key (e : UnifiedEvent) : string * option string :=
  (tenant_id e, get_str "dedup_key" (payload e)).
(** the event tells what the row tells *)
Definition describes (row : IngestOperationalEventRecord) (e : UnifiedEvent) : Prop :=
  get_str "dedup_key" (payload e) = oe_dedup_key row /\ is_Some (oe_dedup_key row) /\
  source_id e = oe_source_id row /\ event_type e = oe_event_type row /\
  market_key e = oe_market_key row /\ price e = oe_price row /\
  EventSchema.timestamp e = oe_observed_at row /\ chain_id e = oe_chain_id row /\
  block_number e = oe_block_number row /\ tx_hash e = oe_tx_hash row.

Lemma put_all_app l1 l2 (m : gmap string Value) : put_all (l1 ++ l2) m = put_all l2 (put_all l1 m).
Proof. apply foldl_app. Qed.
Lemma put_all_one k v (m : gmap string Value) : put_all [(k, v)] m = <[k := v]> m.
Proof. done. Qed.
Lemma enriched_key config sp p meta :
  get_str "dedup_key" (enrich_payload_for_unified config sp p meta) =
  match um_dedup_key meta with
  | Some k => Some k
  | None => get_str "dedup_key" (enrich_payload_for_unified config sp p meta)
  end.
Proof.
  destruct (um_dedup_key meta) as [k|] eqn:Hk; [|done].
  unfold get_str, vget, enrich_payload_for_unified. rewrite as_object_VObject.
  cbn [mbind option_bind].
  rewrite Hk. change (entry_if "dedup_key" VString (Some k)) with [("dedup_key", VString k)].
  rewrite !put_all_app, put_all_one, lookup_insert_eq. simpl. by rewrite as_str_VString.
Qed.
Lemma published_describes config d t e :
  dl_published config d t e ->
  published_key e = (t, Some (dl_key d)) /\ describes (stored_row config (dl_record config d)) e.
Proof.
  intros [id ->]. unfold published_key. simpl. rewrite enriched_key. simpl. split; [done|].
  unfold describes. simpl. rewrite enriched_key. simpl.
  unfold stored_row. by repeat case_match.
Qed.

Definition accounted (s : Shared) : Prop :=
  NoDup (published_key <$> unified_events s) /\
  Forall (fun e => exists row, row ∈ operational (sh_tables s) /\ describes row.1 e) (unified_events s).
Lemma delivers_accounted config d w w' o :
  NoDup (rc_tenant_targets config) -> delivers config d w w' o ->
  accounted (shared w) -> accounted (shared w').
Proof.
  intros Hts [now ts rest es Hrows Hn Hpub Htargets Hes _ _] [Hnd Hall].
  unfold accounted. unfold rows, published in *. rewrite Hpub, Hrows.
  assert (Hkeys : published_key <$> es = (fun t => (t, Some (dl_key d))) <$> ts).
  { clear Htargets Hpub. induction Hes as [|t e ts es He _ IH]; [done|].
    apply published_describes in He as [He _]. rewrite !fmap_cons, He. f_equal. exact IH. }
  split.
  - rewrite fmap_app. apply NoDup_app. split_and!; [done| |].
    + intros k Hk Hk'. rewrite Hkeys in Hk'. apply list_elem_of_fmap in Hk' as (t & -> & _).
      apply list_elem_of_fmap in Hk as (e & He & Hin). rewrite Forall_forall in Hall.
      destruct (Hall e Hin) as (row & Hrow & Hkey & _). injection He as _ He.
      apply not_true_iff_false in Hn. apply Hn. unfold conflict, rows. apply existsb_exists.
      exists row. split; [by apply list_elem_of_In|]. apply (violates_dedup _ _ (dl_key d)).
      * unfold stored_row. by repeat case_match.
      * by rewrite <- Hkey, <- He.
    + rewrite Hkeys. rewrite Htargets in Hts. apply NoDup_app in Hts as (Hts & _ & _).
      apply NoDup_fmap_2; [|done]. by intros t t' [= ->].
  - apply Forall_app. split.
    + eapply Forall_impl; [exact Hall|]. intros e (row & Hin & Hd). exists row. split; [|done].
      apply elem_of_app. by left.
    + clear Htargets Hpub Hkeys. induction Hes as [|t e ts es He _ IH]; [done|].
      constructor; [|done]. apply published_describes in He as [_ Hd].
      exists (stored_row config (dl_record config d), now). split; [|done].
      apply elem_of_app. right. by apply list_elem_of_singleton.
Qed.
Lemma grows_accounted w w' l :
  rows w' = rows w ++ l -> published w' = published w -> accounted (shared w) -> accounted (shared w').
Proof.
  unfold accounted, rows, published. intros -> -> [Hnd Hall]. split; [done|].
  eapply Forall_impl; [exact Hall|]. intros e (row & Hin & Hd). exists row. split; [|done].
  apply elem_of_app. by left.
Qed.
Lemma quiet_accounted w w' : quiet w w' -> accounted (shared w) -> accounted (shared w').
Proof. intros [Hr Hp]. apply (grows_accounted w w' []); [by rewrite app_nil_r|done]. Qed.

Lemma run_job_accounted s j :
  NoDup (rc_tenant_targets (jb_config j)) -> accounted s -> accounted (run_job s j).
Proof.
  intros Hts Hs. unfold run_job. destruct (process_payload _ _ _ _ _) as [w' o] eqn:Hrun. simpl.
  apply process_payload_cases in Hrun as [Hq|[r now Hr Hp _ _ _]|now parsed w1 _ _ Hq1 Hpr].
  - by apply (quiet_accounted _ w' Hq).
  - by apply (grows_accounted _ w' _ Hr Hp).
  - apply (quiet_accounted _ w1 Hq1) in Hs.
    destruct Hpr as [Hq|d wa wb wc Hd Hn _ Hqa Hqb _ _]; [by apply (quiet_accounted _ w' Hq)|].
    apply (delivers_accounted _ d wc w' o Hts Hd), (quiet_accounted _ wc Hqb).
    pose proof (normalization_quiet (overridden (jb_config j) (jb_hints j) (jb_payload j) parsed)
                  (jb_payload j) wa) as Hqn. rewrite Hn in Hqn.
    apply (quiet_accounted _ wb Hqn), (quiet_accounted _ wa Hqa), Hs.
Qed.

(** C5: what is published was stored first, and is published once per tenant.
    Over any sequence of payloads handed to any workers on the same tables,
    whatever fails, times out or repeats: every unified event carries the
    deduplication key of a stored operational event and agrees with it on source,
    type, market, price, time and chain data; and no tenant is sent two events
    with one key. *)
Theorem published_once jobs s :
  Forall (fun j => NoDup (rc_tenant_targets (jb_config j))) jobs -> unified_events s = [] ->
  let s' := run_jobs jobs s in
  NoDup (published_key <$> unified_events s') /\
  Forall (fun e => exists row, row ∈ operational (sh_tables s') /\ describes row.1 e)
    (unified_events s').
Proof.
  intros Hjobs Hs. unfold run_jobs. assert (Ha : accounted s).
  { unfold accounted. rewrite Hs. split; constructor. }
  clear Hs. revert s Ha. induction Hjobs as [|j jobs Hj _ IH]; intros s Ha; [exact Ha|].
  apply IH. by apply run_job_accounted.
Qed.

(** ** One row, many events *)

(** what one payload appends *)
Lemma payload_appends config raw_repo hints payload w w' o :
  process_payload config raw_repo hints payload w = (w', o) ->
  exists l es, rows w' = rows w ++ l /\ published w' = published w ++ es /\
    (length l <= 1)%nat /\
    Forall (fun row => exists r, row.1 = stored_row config r) l /\
    (o = Ret () -> es <> [] -> tenant_id <$> es = rc_tenant_targets config).
Proof.
  intros Hrun. apply process_payload_cases in Hrun as [[Hr Hp]|[r now Hr Hp _ _ _]|now parsed w1 _ _ [Hr1 Hp1] Hpr].
  - exists [], []. rewrite ?app_nil_r. split_and!; done || (simpl; lia).
  - exists [(stored_row config r, now)], []. rewrite ?app_nil_r. split_and!; try done.
    repeat constructor. by exists r.
  - destruct Hpr as [[Hr Hp]|d wa wb wc Hd Hn _ [Hra Hpa] [Hrb Hpb] _ _].
    { exists [], []. rewrite ?app_nil_r. split_and!; try (simpl; lia); done || congruence. }
    pose proof (normalization_quiet (overridden config hints payload parsed) payload wa) as Hqn.
    rewrite Hn in Hqn. destruct Hqn as [Hrn Hpn], Hd as [at_ ts rest es Hrows _ Hpub Hts Hes Hret Hno].
    simpl in Hrn, Hpn. exists [(stored_row config (dl_record config d), at_)], es. split_and!.
    + congruence.
    + congruence.
    + done.
    + repeat constructor. by eexists.
    + intros Ho Hne. assert (Hf : nz_fanout (dl_normalized d) = true).
      { destruct (nz_fanout _); [done|]. by rewrite Hno in Hne. }
      rewrite (Hret Ho Hf), app_nil_r in Hts. rewrite Hts.
      clear -Hes. induction Hes as [|t e ts es [id ->] _ IH]; [done|]. by rewrite fmap_cons, IH.
Qed.

(** A stream with several tenants stores its events for the first one only.
    Whatever happens while a payload is processed, at most one row is added and
    its tenant is the first target: the inserts for the others meet the unique
    index on the deduplication key.  The events published, when the call ends
    without an error, go to every target all the same. *)
Theorem several_tenants_one_row config raw_repo hints payload w w' o t1 t2 ts :
  rc_tenant_targets config = t1 :: t2 :: ts ->
  process_payload config raw_repo hints payload w = (w', o) ->
  exists l es, rows w' = rows w ++ l /\ published w' = published w ++ es /\
    (length l <= 1)%nat /\ Forall (fun row => oe_tenant_id row.1 = Some t1) l /\
    (o = Ret () -> es <> [] -> tenant_id <$> es = t1 :: t2 :: ts).
Proof.
  intros Hts Hrun. apply payload_appends in Hrun as (l & es & Hr & Hp & Hl & Hrow & Ho).
  exists l, es. rewrite <- Hts. split_and!; try done.
  eapply Forall_impl; [exact Hrow|]. intros row [r ->]. unfold stored_row. by rewrite Hts.
Qed.

(** ** Identifiers *)

Lemma mapping_event_id config payload p :
  pf_event_id (apply_runtime_field_mapping_overrides config payload p) = pf_event_id p.
Proof. unfold apply_runtime_field_mapping_overrides. by repeat case_match. Qed.
Lemma inverted_event_id config p : pf_event_id (apply_inverted_price_override config p) = pf_event_id p.
Proof. unfold apply_inverted_price_override. cbv zeta. by repeat case_match. Qed.
Lemma overridden_event_id config hints payload p :
  pf_event_id (overridden config hints payload p) = pf_event_id p.
Proof.
  unfold overridden, apply_accelerated_simulation_timestamp. cbv zeta.
  case_match; simpl; by rewrite inverted_event_id, mapping_event_id.
Qed.

(** *** The rate of a quote in USDT *)

(** a finite number above zero *)
Definition usable_rate (x : f64) : Prop := is_finite x = true /\ f64_lt f64_zero x = true.
(** the rate cached by the worker, at most three seconds old *)
Definition cached_for w (now : DateTime) (rate : f64) : Prop :=
  exists c, fx_cache (local w) = Some c /\ fx_rate c = rate /\
    timestamp_millis now - cached_at_ms c <= 3000.
(** a stored USDT/USD price observed no earlier than thirty seconds ago *)
Definition fx_row (now : DateTime) (row : IngestOperationalEventRecord * DateTime) : Prop :=
  oe_market_key row.1 = Some "USDT/USD" /\ is_Some (oe_price row.1) /\
  (oe_parse_status row.1 = "parsed" \/ oe_parse_status row.1 = "partial") /\
  ns now - 30 * 1000000000 <= ns (oe_observed_at row.1).
(** the newest of them has this price *)
Definition latest_rate w (now : DateTime) (rate : f64) : Prop :=
  exists row, row ∈ rows w /\ fx_row now row /\ oe_price row.1 = Some rate /\
    forall row', row' ∈ rows w -> fx_row now row' ->
      ns (oe_observed_at row'.1) <= ns (oe_observed_at row.1).
Definition no_latest_rate w (now : DateTime) : Prop :=
  (forall row, row ∈ rows w -> ~ fx_row now row) \/
  exists rate, latest_rate w now rate /\ ~ usable_rate rate.
(** a market against USD, that of USDT itself apart, is taken at par *)
Definition at_par (p : ParsedFeedEvent) : Prop :=
  exists key, pf_market_key p = Some key /\
    to_ascii_uppercase (trim key) <> "USDT/USD" /\
    ends_with (to_ascii_uppercase (trim key)) "/USD" = true.
(** the rate of a quote processed from [w], whose clock is read at [now] and
    whose query runs at [then_]: the cached one, else the newest stored one, else
    1 at par, else none *)
Definition rate_for w (now then_ : DateTime) (p : ParsedFeedEvent) (rate : option f64) : Prop :=
  match rate with
  | Some r =>
      cached_for w now r \/
      (forall c, ~ cached_for w now c) /\
      (latest_rate w then_ r /\ usable_rate r \/ no_latest_rate w then_ /\ at_par p /\ r = f64_one)
  | None => (forall c, ~ cached_for w now c) /\ no_latest_rate w then_ /\ ~ at_par p
  end.

Lemma positive_finite_rate x : positive_finite x = Some x <-> usable_rate x.
Proof.
  unfold positive_finite, usable_rate. rewrite <- andb_true_iff. by destruct (_ && _).
Qed.
Lemma priced_row_spec now row :
  priced_row now FX_LOOKUP_MARKET_KEY (Z.max FX_LOOKUP_FRESHNESS_SECONDS 1) row = true <-> fx_row now row.
Proof.
  unfold priced_row, fx_row, fresh. change FX_LOOKUP_MARKET_KEY with "USDT/USD"%string.
  change (Z.max FX_LOOKUP_FRESHNESS_SECONDS 1) with 30.
  rewrite !andb_true_iff, orb_true_iff, !bool_decide_eq_true, Z.leb_le.
  assert (match oe_price row.1 with Some _ => true | None => false end = true <-> is_Some (oe_price row.1)) as ->.
  { destruct (oe_price row.1); split; try done. }
  tauto.
Qed.
Lemma latest_price_cases w now o :
  latest_operational_market_price now FX_LOOKUP_MARKET_KEY FX_LOOKUP_FRESHNESS_SECONDS
    (sh_tables (shared w)) = o ->
  match o with
  | Some rate => latest_rate w now rate
  | None => forall row, row ∈ rows w -> ~ fx_row now row
  end.
Proof.
  unfold latest_operational_market_price. set (l := priced_rows _ _ _ _).
  assert (Hl : forall row, row ∈ l <-> row ∈ rows w /\ fx_row now row).
  { intros row. unfold l, priced_rows. rewrite elem_of_sort_by, list_elem_of_In, filter_In, priced_row_spec.
    by rewrite <- list_elem_of_In. }
  assert (Hs : sorted_by newest_first l).
  { apply sort_by_sorted; unfold newest_first, dt_le; intros; lia. }
  destruct l as [|row l]; simpl; intros <-.
  - intros row Hin Hf. by apply (not_elem_of_nil row), Hl.
  - assert (Hrow : row ∈ rows w /\ fx_row now row) by (apply Hl, elem_of_cons; by left).
    destruct Hrow as [Hin Hf]. pose proof Hf as (_ & [rate Hr] & _). rewrite Hr.
    exists row. split_and!; [done|done|done|]. intros row' Hin' Hf'.
    assert (Hc : row' ∈ row :: l) by (by apply Hl). apply elem_of_cons in Hc as [->|Hc]; [lia|].
    inversion Hs as [|? ? _ Hall]; subst. apply (proj1 (list.Forall_forall _ _) Hall) in Hc.
    unfold newest_first, dt_le in Hc. lia.
Qed.
Lemma cached_rate_cases w now :
  match cached_rate (timestamp_millis now) (fx_cache (local w)) with
  | Some r => cached_for w now r
  | None => forall c, ~ cached_for w now c
  end.
Proof.
  unfold cached_rate, cached_for. destruct (fx_cache (local w)) as [c|]; [|by intros ? (? & ? & _)].
  change (FX_CACHE_TTL_SECONDS * 1000) with 3000. destruct (_ <=? _) eqn:Hle; bools; [by exists c|].
  intros r (? & [= <-] & _ & ?). lia.
Qed.
Lemma fallback_cases p :
  fallback_usdt_usd_rate p (Some "USDT") = Some f64_one /\ at_par p \/
  fallback_usdt_usd_rate p (Some "USDT") = None /\ ~ at_par p.
Proof.
  unfold fallback_usdt_usd_rate, at_par. cbv zeta. simpl.
  change FX_LOOKUP_MARKET_KEY with "USDT/USD"%string.
  destruct (pf_market_key p) as [key|]; simpl; [|right; split; [done|by intros (? & ? & _)]].
  case_bool_decide as Hk; [right; split; [done|]; by intros (? & [= <-] & ? & _)|].
  destruct (ends_with _ _) eqn:He; simpl; [left; split; [done|by exists key]|].
  right. split; [done|]. intros (? & [= <-] & _ & ?). congruence.
Qed.
(** the clock at the [n]th interaction after [w] *)
Definition clock_after w (n : nat) : DateTime := ie_clock (n + sh_step (shared w)).
Lemma lookup_rate_cases p w w' r :
  lookup_usdt_usd_rate w = (w', Ret r) ->
  rate_for w (clock_after w 0) (clock_after w 1) p (or_else r (fallback_usdt_usd_rate p (Some "USDT"))).
Proof.
  unfold lookup_usdt_usd_rate, utc_now, tick, mbind, st_bind. simpl. unfold get_st.
  pose proof (cached_rate_cases w (clock_after w 0)) as Hc. unfold clock_after at 1 in Hc. simpl in Hc.
  destruct (cached_rate _ _) as [rate|]; [by intros [= _ <-]; left|].
  unfold query, statement, tick, mbind, st_bind. simpl.
  destruct (ie_sql_error _); [done|].
  pose proof (latest_price_cases w (clock_after w 1) _ eq_refl) as Hl.
  unfold clock_after at 1 in Hl. simpl in Hl.
  change (ie_clock (S (sh_step (shared w)))) with (clock_after w 1) in *.
  set (latest := latest_operational_market_price _ _ _ _) in *.
  assert (Hu : match usable latest with
               | Some x => latest_rate w (clock_after w 1) x /\ usable_rate x
               | None => no_latest_rate w (clock_after w 1) end).
  { destruct latest as [x|]; simpl; [|by left]. pose proof (positive_finite_rate x) as Hp.
    unfold positive_finite in *. destruct (_ && _); [split; [done|by apply Hp]|].
    right. exists x. split; [done|]. intros Hx. by apply Hp in Hx. }
  destruct (usable latest) as [x|]; simpl.
  - intros [= _ <-]. simpl. right. split; [done|]. by left.
  - intros [= _ <-]. simpl. destruct (fallback_cases p) as [[-> Hp]|[-> Hp]]; simpl; [|done].
    right. split; [done|]. by right.
Qed.

(** what a normalized event may be *)
Inductive normalizes w p (n : Normalized) : Prop :=
  | NzPlain : pf_price p = None \/ derive_quote_asset p <> Some "USDT" ->
      pf_price (nz_parsed n) = pf_price p -> nz_fanout n = true -> normalizes w p n
  | NzRate raw rate : pf_price p = Some raw -> derive_quote_asset p = Some "USDT" ->
      pf_price (nz_parsed n) = Some (f64_mul raw rate) -> nz_fanout n = true ->
      rate_for w (clock_after w 0) (clock_after w 1) p (Some rate) -> normalizes w p n
  | NzNoRate raw : pf_price p = Some raw -> derive_quote_asset p = Some "USDT" ->
      pf_price (nz_parsed n) = None -> nz_status n = "partial" -> nz_fanout n = false ->
      rate_for w (clock_after w 0) (clock_after w 1) p None -> normalizes w p n.

Lemma normalization_cases p payload w w' n :
  apply_usdt_normalization p payload w = (w', Ret n) ->
  normalizes w p n /\ exists v x, nz_parsed n = set_fields v (set_price x p).
Proof.
  unfold apply_usdt_normalization. destruct (pf_price p) as [raw|] eqn:Hp.
  2: { intros [= _ <-]. split; [apply NzPlain; auto|]. exists (pf_normalized_fields p), None. simpl.
       rewrite <- Hp. by destruct p. }
  destruct (bool_decide _) eqn:Hd; simpl; bools.
  - intros Hrun. apply st_bind_ret_inv in Hrun as (w1 & fx & Hl & Hrun). injection Hrun as _ <-.
    apply (lookup_rate_cases p) in Hl. rewrite Hd.
    destruct (or_else _ _) as [rate|] eqn:Hr; (split; [|by repeat eexists]).
    + by apply (NzRate _ _ _ raw rate).
    + by apply (NzNoRate _ _ _ raw).
  - intros [= _ <-]. split; [by apply NzPlain; [right|..]|].
    exists (VObject (put_all (normalization_entries (Some raw) (derive_quote_asset p) (Some raw) None false)
              (object_or_empty (pf_normalized_fields p)))), (Some raw).
    rewrite <- Hp. by destruct p.
Qed.

(** An event whose identifier is taken is lost.  When a row of the
    operational events, of whatever source, has the identifier the parsed event
    would be stored under, processing the payload stores nothing and publishes
    nothing. *)
Theorem taken_event_id_is_lost config raw_repo hints payload parsed w w' o id :
  parse_payload (ie_clock (sh_step (shared w))) (parser_input config) payload = Ret parsed ->
  scoped_simulation_event_id (pf_event_id parsed)
    (effective_simulation_metadata payload (simulation_run_id_hint hints)).2 = Some id ->
  Exists (fun row => oe_event_id row.1 = Some id) (rows w) ->
  process_payload config raw_repo hints payload w = (w', o) ->
  rows w' = rows w /\ published w' = published w.
Proof.
  intros Hparse Hid Hrow Hrun. unfold process_payload, utc_now, tick, mbind, st_bind in Hrun.
  simpl in Hrun. rewrite Hparse in Hrun.
  set (w1 := {| shared := step_on (shared w); local := local w |}) in Hrun.
  apply process_parsed_cases in Hrun as [Hq|d wa wb wc Hd Hn _ [Hra _] [Hrb _] _ Hsim]; [exact Hq|].
  exfalso. destruct Hd as [at_ ts rest es _ Hc _ _ _ _ _]. revert Hc.
  apply normalization_cases in Hn as Hnc. destruct Hnc as [_ (v & x & Hev)].
  pose proof (normalization_quiet (overridden config hints payload parsed) payload wa) as Hqn.
  rewrite Hn in Hqn. destruct Hqn as [Hrn _]. simpl in Hrn.
  assert (Hre : oe_event_id (stored_row config (dl_record config d)) = Some id).
  { rewrite Hsim in Hid. simpl in Hid. rewrite <- Hid. unfold stored_row. repeat case_match; simpl;
      by rewrite Hev; simpl; rewrite overridden_event_id. }
  apply Exists_exists in Hrow as (row & Hin & Hrid). apply not_false_iff_true, existsb_exists.
  exists row. split.
  - apply list_elem_of_In. rewrite Hrb, Hrn, Hra. exact Hin.
  - unfold violates_unique, same_some at 1. rewrite Hre, Hrid. by rewrite bool_decide_eq_true_2.
Qed.

(** C21: a USDT quote is published in dollars or not at all.  When a payload
    parses, after the overrides, to a price whose quote asset is USDT, either
    nothing is stored or published; or every row stored and every event published
    has that price times the rate for it; or there is no rate, the row is stored
    as partial, without a price, and nothing is published.  The rate is the one
    the worker cached, when it is at most three seconds old at the clock of the
    lookup; else the newest USDT/USD price observed no earlier than thirty
    seconds before the query, when it is finite and positive; else 1 for a market
    against USD other than USDT/USD. *)
Theorem usdt_quote_in_dollars config raw_repo hints payload parsed raw w w' o :
  parse_payload (clock_after w 0) (parser_input config) payload = Ret parsed ->
  let p := overridden config hints payload parsed in
  pf_price p = Some raw -> derive_quote_asset p = Some "USDT" ->
  process_payload config raw_repo hints payload w = (w', o) ->
  let rate_is := rate_for w (clock_after w 1) (clock_after w 2) p in
  exists l es, rows w' = rows w ++ l /\ published w' = published w ++ es /\
    (l = [] /\ es = [] \/
     (exists rate, rate_is (Some rate) /\
        Forall (fun row => oe_price row.1 = Some (f64_mul raw rate)) l /\
        Forall (fun e => price e = Some (f64_mul raw rate)) es) \/
     rate_is None /\ es = [] /\
        Forall (fun row => oe_price row.1 = None /\ oe_parse_status row.1 = "partial") l).
Proof.
  intros Hparse p Hraw Husdt Hrun. unfold process_payload, utc_now, tick, mbind, st_bind in Hrun.
  change (ie_clock (sh_step (shared w))) with (clock_after w 0) in Hrun. simpl in Hrun.
  rewrite Hparse in Hrun.
  set (w1 := {| shared := step_on (shared w); local := local w |}) in Hrun.
  apply process_parsed_cases in Hrun as [[Hr Hp]|d wa wb wc Hd Hn [Hsa Hfx] [Hra Hpa] [Hrb Hpb] _ _].
  { exists [], []. rewrite ?app_nil_r. split_and!; try done. by left. }
  pose proof (normalization_quiet p payload wa) as Hqn. unfold p in Hqn. rewrite Hn in Hqn.
  destruct Hqn as [Hrn Hpn], Hd as [at_ ts rest es Hrows _ Hpub _ Hes _ Hno]. simpl in Hrn, Hpn.
  exists [(stored_row config (dl_record config d), at_)], es.
  assert (Hsp : oe_price (stored_row config (dl_record config d)) = pf_price (nz_parsed (dl_normalized d))
     /\ oe_parse_status (stored_row config (dl_record config d)) = nz_status (dl_normalized d)).
  { unfold stored_row. by repeat case_match. }
  destruct Hsp as [Hsp Hss]. apply normalization_cases in Hn as [Hn _].
  rewrite Hrb, Hrn, Hra in Hrows. rewrite Hpb, Hpn, Hpa in Hpub.
  split_and!; [done..|].
  assert (Hrate : forall r, rate_for wa (clock_after wa 0) (clock_after wa 1) p r ->
    rate_for w (clock_after w 1) (clock_after w 2) p r).
  { intros r. unfold rate_for, cached_for, no_latest_rate, latest_rate, clock_after. rewrite Hsa, Hfx, Hra.
    simpl. done. }
  destruct Hn as [[Hnone|Hq] _ _|r rate Hr _ Hprice _ Hsrc|r _ _ Hprice Hst Hf Hsrc].
  - unfold p in Hraw. congruence.
  - done.
  - right. left. exists rate. fold p in Hr. assert (r = raw) as -> by congruence. split_and!.
    + by apply Hrate.
    + repeat constructor. simpl. by rewrite Hsp.
    + clear -Hes Hprice. induction Hes as [|t e ts es [id ->] _ IH]; constructor; [done|exact IH].
  - right. right. split; [by apply Hrate|]. split; [by apply Hno|]. repeat constructor; simpl; congruence.
Qed.
End theorems.
