(* ===== verification/WorkerLoop.v ===== *)
(** * Stream workers: connector loops and reconnects
    ([apps/indexer/src/stream_worker.rs])

    A worker runs the loop of its connector mode until the loop fails or the
    worker is told to stop, and reconnects after a wait that doubles up to thirty
    seconds.  What the runtime and the connectors answer is given per attempt:
    the connection, the branch each [select!] takes, the payloads.  A loop given
    too few answers is still running.

    The waits of a worker between its attempts double from one second to thirty
    and never start again; only a stop or a configuration that cannot work ends
    a worker. *)
From S2P Require Import Prelude F64 Text Numbers Ports EventSchema FieldMapping AlertIO Hex StreamParser ChainParsers ProtocolParsers IngestStore WorkerConfig StreamWorker WorkerIO.

Section loops.
Context `{Chrono} `{SerdeJson} `{!FieldCodec} `{Unicode} `{Powi} `{U256} `{HashOrder}.
Context `{!Sha256} `{!Dates} `{!ProcessEnv} `{!IngestEnv} `{!Urls}.
Notation IO := (ST WorkerState).

(** a branch of [select!]: the shutdown channel changed, or a payload came *)
Inductive Select := Changed (stop : bool) | Next (raw : outcome Value).
(** a turn of the polling loops: the wait was ended by a stop; the answer *)
Record PollTurn := { pt_stop : bool; pt_fetched : outcome (option Value) }.
Record Attempt := {
  at_before : bool;   (* [*shutdown.borrow()] before the attempt *)
  at_open : outcome (option Z);   (* creating and connecting: the chain identifier *)
  at_selects : list Select;
  at_polls : list PollTurn;
  at_after : bool;    (* [*shutdown.borrow()] after the attempt *)
  at_stop : bool      (* the wait was ended by a stop *)
}.
(** [None]: the answers ran out *)
Definition Running (A : Type) : Type := option A.

Section loop.
Context (config : RuntimeStreamConfig) (raw_repo : bool).

Fixpoint select_loop (handle : Value -> IO unit) (inputs : list Select) : IO (Running unit) :=
  match inputs with
  | [] => mret None
  | Changed true :: _ => mret (Some ())
  | Changed false :: inputs => select_loop handle inputs
  | Next raw :: inputs => payload ← lift raw; _ ← handle payload; select_loop handle inputs
  end.
(** the first turn fetches without waiting; a failed fetch is logged *)
Fixpoint poll_loop (first_fetch : bool) (handle : Value -> IO unit) (turns : list PollTurn)
  : IO (Running unit) :=
  match turns with
  | [] => mret None
  | turn :: turns =>
      if negb first_fetch && pt_stop turn then mret (Some ())
      else
        _ ← match pt_fetched turn with
            | Ret (Some payload) => handle payload
            | Ret None | Err _ => mret ()
            | Panic => lift Panic
            end;
        poll_loop false handle turns
  end.

Definition hints_of (chain_id : option Z) (context : EndpointLogContext) : Hints :=
  {| chain_id_hint := chain_id; simulation_run_id_hint := ep_simulation_run_id context |}.
Definition chain_id_entry (chain_id : option Z) (keep : bool) (payload : Value) : Value :=
  match chain_id, as_object payload with
  | Some c, Some map =>
      if keep then match map !! "chainId" with Some _ => payload | None => VObject (<["chainId" := VInt c]> map) end
      else VObject (<["chainId" := VInt c]> map)
  | _, _ => payload
  end.
Definition run_websocket_loop (a : Attempt) : IO (Running unit) :=
  endpoint ← lift (endpoint_from_runtime_config config);
  let context := endpoint_log_context endpoint in
  _ ← lift (at_open a);
  select_loop (process_payload config raw_repo (hints_of None context)) (at_selects a).
Definition run_rpc_logs_loop (a : Attempt) : IO (Running unit) :=
  endpoint ← lift (endpoint_from_runtime_config config);
  let context := endpoint_log_context endpoint in
  chain_id ← lift (at_open a);
  select_loop (fun payload => process_payload config raw_repo (hints_of chain_id context)
                                (chain_id_entry chain_id false payload)) (at_selects a).
Definition run_rpc_state_loop (a : Attempt) : IO (Running unit) :=
  endpoint ← lift (endpoint_from_runtime_config config);
  let context := endpoint_log_context endpoint in
  chain_id ← lift (at_open a);
  select_loop (fun payload => process_payload config raw_repo (hints_of chain_id context)
                                (chain_id_entry chain_id true payload)) (at_selects a).
Definition run_http_sse_loop (a : Attempt) : IO (Running unit) :=
  endpoint ← lift (endpoint_from_runtime_config config);
  let context := endpoint_log_context endpoint in
  _ ← lift (at_open a);
  select_loop (process_http_poll_payload config raw_repo (hints_of None context)) (at_selects a).
Definition run_http_poll_loop (a : Attempt) : IO (Running unit) :=
  endpoint ← lift (endpoint_from_runtime_config config);
  let context := endpoint_log_context endpoint in
  _ ← lift (at_open a);
  poll_loop true (process_http_poll_payload config raw_repo (hints_of None context)) (at_polls a).
Definition run_mode (a : Attempt) : IO (Running unit) :=
  let mode := rc_connector_mode config in
  if bool_decide (mode = "websocket") then run_websocket_loop a
  else if bool_decide (mode = "rpc_logs") then run_rpc_logs_loop a
  else if bool_decide (mode = "rpc_state") then run_rpc_state_loop a
  else if bool_decide (mode = "http_poll") then run_http_poll_loop a
  else if bool_decide (mode = "http_sse") then run_http_sse_loop a
  else lift (Err ("unsupported_connector_mode:" +:+ mode)).

Definition is_static_worker_config_error (message : string) : bool :=
  contains message "rpc_state connector missing calls configuration"
  || contains message "unsupported_connector_mode:".
Definition INITIAL_BACKOFF : Z := 1.
Definition MAX_BACKOFF : Z := 30.
Definition next_backoff (backoff : Z) : Z := Z.min (backoff * 2) MAX_BACKOFF.

(** why a worker ended *)
Inductive WorkerEnd := Stopped | InvalidConfiguration.
Definition sleep (backoff : Z) : IO unit := modify_local (add_wait backoff).
Fixpoint run_stream_worker (backoff : Z) (attempts : list Attempt) : IO (Running WorkerEnd) :=
  match attempts with
  | [] => mret None
  | a :: attempts =>
      if at_before a then mret (Some Stopped)
      else
        let reconnect : IO (Running WorkerEnd) :=
          _ ← sleep backoff;
          if at_stop a then mret (Some Stopped)
          else run_stream_worker (next_backoff backoff) attempts in
        result ← attempt (run_mode a);
        match result with
        | Ret None => mret None
        | Ret (Some _) => if at_after a then mret (Some Stopped) else reconnect
        | Err error =>
            if at_after a then mret (Some Stopped)
            else
              _ ← report_source_health_failure config error;
              if is_static_worker_config_error error then mret (Some InvalidConfiguration)
              else reconnect
        | Panic => lift Panic
        end
  end.
End loop.
End loops.

(** ** Theorems *)

Section proofs.
Context `{Chrono} `{SerdeJson} `{!FieldCodec} `{Unicode} `{Powi} `{U256} `{HashOrder}.
Context `{!Sha256} `{!Dates} `{!ProcessEnv} `{!IngestEnv} `{!Urls}.
Notation IO := (ST WorkerState).
Implicit Types (w : WorkerState) (config : RuntimeStreamConfig).

(** ** Computations that do not wait *)

Definition same_waits w w' : Prop := waits (local w') = waits (local w).
#[export] Instance same_waits_preorder : PreOrder same_waits.
Proof. split; [done|]. intros w1 w2 w3 Ha Hb. by etrans. Qed.
Definition waitless {A} (m : IO A) : Prop := within same_waits m.
Lemma waitless_ret {A} (a : A) : waitless (mret a).
Proof. done. Qed.
Lemma waitless_lift {A} (o : outcome A) : waitless (lift o).
Proof. done. Qed.
Lemma waitless_bind {A B} (m : IO A) (f : A -> IO B) :
  waitless m -> (forall a, waitless (f a)) -> waitless (m ≫= f).
Proof. apply within_bind; typeclasses eauto. Qed.
Lemma waitless_log_error {A} (m : IO A) : waitless m -> waitless (log_error m).
Proof. apply within_log_error; typeclasses eauto. Qed.
Lemma waitless_for_each {A B} (f : A -> B -> IO A) l a :
  (forall a x, waitless (f a x)) -> waitless (for_each f l a).
Proof.
  intros Hf. revert a. induction l as [|x l IH]; intros a; [done|]. by apply waitless_bind.
Qed.
Lemma waitless_shared f : waitless (modify_shared f).
Proof. done. Qed.
Lemma waitless_tick : waitless tick.
Proof. done. Qed.
Lemma waitless_get : waitless (get_st : IO WorkerState).
Proof. done. Qed.
Lemma waitless_fx c : waitless (modify_local (set_fx c)).
Proof. done. Qed.
Lemma waitless_health h : waitless (modify_local (set_health h)).
Proof. done. Qed.
Lemma waitless_statement {A} (f : DateTime -> IngestTables -> IngestTables * outcome A) :
  waitless (statement f).
Proof.
  apply waitless_bind; [done|]. intros n w. destruct (ie_sql_error n); [done|].
  unfold same_waits. by destruct (f _ _).
Qed.
Lemma waitless_duplicate config p : waitless (check_duplicate config p).
Proof. intros w. unfold check_duplicate. by case_match. Qed.
Lemma waitless_raw id answer e : waitless (execute_raw id answer e).
Proof. intros w. unfold execute_raw, same_waits. by destruct (insert_envelope _ _ _). Qed.
Create HintDb waitless.
#[local] Hint Resolve waitless_ret waitless_lift waitless_shared waitless_tick waitless_get waitless_fx
  waitless_health waitless_statement waitless_duplicate waitless_raw : waitless.
Ltac waitless := repeat first
  [ solve [auto with waitless nocore] | apply waitless_log_error
  | apply waitless_for_each; intros ? ? | apply waitless_bind; [|intros ?] | case_match ].

Lemma waitless_success config : waitless (report_source_health_success config).
Proof.
  unfold report_source_health_success, report_all, instant_now, write, iterate. waitless.
Qed.
Lemma waitless_failure config e : waitless (report_source_health_failure config e).
Proof.
  unfold report_source_health_failure, report_all, instant_now, write, iterate. waitless.
Qed.
Lemma waitless_land raw config e : waitless (land raw config e).
Proof.
  unfold land, start_raw_landing, persist_raw_envelope, write_source_envelope,
    defer_raw_envelope_persist. waitless.
Qed.
Lemma waitless_insert config r : waitless (insert_for_targets config r).
Proof. unfold insert_for_targets, insert_event. waitless. Qed.
#[local] Hint Resolve waitless_success waitless_failure waitless_land waitless_insert : waitless.
Lemma waitless_payload config raw hints payload : waitless (process_payload config raw hints payload).
Proof.
  unfold process_payload, process_parsed, process_unparsed, store_and_publish, fanout_unified_events,
    publish_unified_event, apply_usdt_normalization, lookup_usdt_usd_rate,
    apply_market_truth_context, utc_now, new_uuid, query, write, iterate. cbv zeta. waitless.
Qed.
#[local] Hint Resolve waitless_payload : waitless.
Lemma waitless_select handle inputs :
  (forall v, waitless (handle v)) -> waitless (select_loop handle inputs).
Proof.
  intros Hh. induction inputs as [|[[]|raw] inputs IH]; simpl; try done.
  apply waitless_bind; [done|]. intros v. apply waitless_bind; [apply Hh|done].
Qed.
Lemma waitless_poll first handle turns :
  (forall v, waitless (handle v)) -> waitless (poll_loop first handle turns).
Proof.
  intros Hh. revert first. induction turns as [|turn turns IH]; intros first; simpl; [done|].
  destruct (negb first && pt_stop turn); [done|]. apply waitless_bind; [|intros _; apply IH].
  destruct (pt_fetched turn) as [[v|]|e|]; [apply Hh|done..].
Qed.
Lemma waitless_mode config raw a : waitless (run_mode config raw a).
Proof.
  unfold run_mode, run_websocket_loop, run_rpc_logs_loop, run_rpc_state_loop, run_http_poll_loop,
    run_http_sse_loop, process_http_poll_payload, iterate. cbv zeta.
  repeat first [ apply waitless_select; intros ? | apply waitless_poll; intros ? | progress waitless ].
Qed.

(** ** The waits *)

Fixpoint wait_seq (backoff : Z) (n : nat) : list Z :=
  match n with O => [] | S n => backoff :: wait_seq (next_backoff backoff) n end.
Lemma wait_seq_powers k n :
  wait_seq (Z.min (2 ^ Z.of_nat k) MAX_BACKOFF) n =
  (fun i => Z.min (2 ^ Z.of_nat i) MAX_BACKOFF) <$> seq k n.
Proof.
  revert k. induction n as [|n IH]; intros k; [done|]. cbn [seq wait_seq]. rewrite fmap_cons. f_equal.
  rewrite <- IH. f_equal. unfold next_backoff. rewrite Nat2Z.inj_succ, Z.pow_succ_r by lia.
  unfold MAX_BACKOFF. lia.
Qed.
(** an error that names a configuration with which no attempt can work *)
Definition names_configuration (e : string) : Prop :=
  contains e "rpc_state connector missing calls configuration" = true \/
  contains e "unsupported_connector_mode:" = true.
Lemma static_error_spec e : is_static_worker_config_error e = true <-> names_configuration e.
Proof. apply orb_true_iff. Qed.
(** the attempt came to its end, and another one follows *)
Definition lost config raw (a : Attempt) : Prop :=
  at_before a = false /\ at_after a = false /\
  exists w, (run_mode config raw a w).2 = Ret (Some ()) \/
            exists e, (run_mode config raw a w).2 = Err e /\ ~ names_configuration e.
(** how a worker ends after [n] attempts were lost *)
Inductive worker_end config raw (attempts : list Attempt) (n : nat)
  : outcome (Running WorkerEnd) -> Prop :=
  | we_over : n = length attempts -> worker_end config raw attempts n (Ret None)
  | we_running a w :
      attempts !! n = Some a -> (run_mode config raw a w).2 = Ret None ->
      worker_end config raw attempts n (Ret None)
  | we_told a :
      attempts !! n = Some a -> at_before a = true \/ at_after a = true ->
      worker_end config raw attempts n (Ret (Some Stopped))
  | we_told_waiting m a :
      n = S m -> attempts !! m = Some a -> at_stop a = true ->
      worker_end config raw attempts n (Ret (Some Stopped))
  | we_invalid a w e :
      attempts !! n = Some a -> (run_mode config raw a w).2 = Err e -> names_configuration e ->
      worker_end config raw attempts n (Ret (Some InvalidConfiguration))
  | we_panic a w :
      attempts !! n = Some a -> (run_mode config raw a w).2 = Panic ->
      worker_end config raw attempts n Panic.

(** what a run of attempts does: [n] of them are lost, and each is followed by
    a wait *)
Definition reconnects config raw (backoff : Z) (attempts : list Attempt) w w' o : Prop :=
  exists n, waits (local w') = waits (local w) ++ wait_seq backoff n /\
    Forall (lost config raw) (take n attempts) /\ worker_end config raw attempts n o.
Lemma worker_end_later config raw a attempts n o :
  worker_end config raw attempts n o -> worker_end config raw (a :: attempts) (S n) o.
Proof.
  intros He; inversion He; subst; [by apply we_over|by eapply we_running|by eapply we_told| |
    by eapply we_invalid|by eapply we_panic]. by eapply (we_told_waiting _ _ _ _ (S m)).
Qed.
Lemma reconnects_now config raw backoff attempts w w' o :
  same_waits w w' -> worker_end config raw attempts 0 o ->
  reconnects config raw backoff attempts w w' o.
Proof. intros Hw He. exists O. by rewrite app_nil_r. Qed.
Lemma reconnects_later config raw backoff a attempts w w1 w' o :
  waits (local w1) = waits (local w) ++ [backoff] -> lost config raw a ->
  reconnects config raw (next_backoff backoff) attempts w1 w' o ->
  reconnects config raw backoff (a :: attempts) w w' o.
Proof.
  intros Hw Ha (n & Hws & Hl & He). exists (S n). split; [|split].
  - by rewrite Hws, Hw, <- app_assoc.
  - by constructor.
  - by apply worker_end_later.
Qed.
Lemma reconnects_stopped config raw backoff a attempts w w' :
  waits (local w') = waits (local w) ++ [backoff] -> lost config raw a -> at_stop a = true ->
  reconnects config raw backoff (a :: attempts) w w' (Ret (Some Stopped)).
Proof.
  intros Hw Ha Hs. exists 1%nat. split; [done|]. split; [by constructor|].
  by apply (we_told_waiting _ _ _ _ 0%nat a).
Qed.
(** what is reported about a failure cannot fail *)
Lemma log_error_returns {A} (m : IO A) w : (m w).2 <> Panic -> (log_error m w).2 = Ret ().
Proof. rewrite log_error_run. simpl. by destruct (m w).2. Qed.
Lemma report_all_runs config healthy error w : (report_all config healthy error w).2 = Ret ().
Proof.
  unfold report_all, iterate. generalize () at 1. revert w.
  induction (rc_tenant_targets config) as [|t ts IH]; intros w u; simpl; [by destruct u|].
  unfold mbind, st_bind. match goal with |- context [log_error ?m w] =>
    pose proof (log_error_returns m w) as Hl; destruct (log_error m w) as [w1 o1] end.
  simpl in Hl. rewrite Hl; [apply IH|]. unfold write, statement, mbind, st_bind, tick. simpl.
  by destruct (ie_sql_error _).
Qed.
Lemma report_failure_runs config e w : (report_source_health_failure config e w).2 = Ret ().
Proof.
  unfold report_source_health_failure, instant_now, get_st, tick, mbind, st_bind. simpl.
  case_match; [done|]. match goal with |- context [report_all ?c ?h ?m ?w1] =>
    pose proof (report_all_runs c h m w1) as Hr; destruct (report_all c h m w1) as [w2 o2] end.
  simpl in Hr. by rewrite Hr.
Qed.
Lemma run_worker_reconnects config raw backoff attempts w w' o :
  run_stream_worker config raw backoff attempts w = (w', o) ->
  reconnects config raw backoff attempts w w' o.
Proof.
  revert backoff w. induction attempts as [|a attempts IH]; intros backoff w; simpl.
  { intros [= <- <-]. apply reconnects_now; [done|by apply we_over]. }
  destruct (at_before a) eqn:Hb.
  { intros [= <- <-]. apply reconnects_now; [done|]. apply (we_told _ _ _ _ a); [done|by left]. }
  (* the wait, then the stop or the next attempt *)
  assert (Hwait : forall w0, same_waits w w0 -> lost config raw a ->
    (_ ← sleep backoff;
     if at_stop a then mret (Some Stopped)
     else run_stream_worker config raw (next_backoff backoff) attempts) w0 = (w', o) ->
    reconnects config raw backoff (a :: attempts) w w' o).
  { intros w0 Hw0 Hlost Hrun. unfold mbind, st_bind in Hrun. simpl in Hrun.
    destruct (at_stop a) eqn:Hst.
    - injection Hrun as <- <-. apply reconnects_stopped; [by simpl; rewrite Hw0|done..].
    - apply IH in Hrun. eapply reconnects_later; [|done|exact Hrun]. by simpl; rewrite Hw0. }
  unfold mbind at 1, st_bind at 1, attempt. pose proof (waitless_mode config raw a w) as Hm.
  destruct (run_mode config raw a w) as [w1 [[[]|]|e|]] eqn:Hrun; simpl in Hm.
  - destruct (at_after a) eqn:Haf.
    + intros [= <- <-]. apply reconnects_now; [done|]. apply (we_told _ _ _ _ a); [done|by right].
    + apply Hwait; [done|]. split_and!; [done|done|]. exists w. left. by rewrite Hrun.
  - intros [= <- <-]. apply reconnects_now; [done|].
    apply (we_running _ _ _ _ a w); [done|by rewrite Hrun].
  - destruct (at_after a) eqn:Haf.
    { intros [= <- <-]. apply reconnects_now; [done|]. apply (we_told _ _ _ _ a); [done|by right]. }
    unfold mbind at 1, st_bind at 1. pose proof (waitless_failure config e w1) as Hf.
    pose proof (report_failure_runs config e w1) as Hret.
    destruct (report_source_health_failure config e w1) as [w2 o2]. simpl in Hf, Hret. subst o2.
    pose proof (static_error_spec e) as Hst.
    destruct (is_static_worker_config_error e) eqn:He.
    + intros [= <- <-]. apply reconnects_now; [by etrans|].
      apply (we_invalid _ _ _ _ a w e); [done|by rewrite Hrun|by apply Hst].
    + apply Hwait; [by etrans|]. split_and!; [done|done|]. exists w. right. exists e.
      rewrite Hrun. split; [done|]. intros Hn. by apply Hst in Hn.
  - intros [= <- <-]. apply reconnects_now; [done|].
    apply (we_panic _ _ _ _ a w); [done|by rewrite Hrun].
Qed.

(** C31: a worker waits once after every lost attempt, and the waits double from
    one second to thirty without ever starting again.  Whatever its attempts do,
    the worker loses the first [n] of them, each ending by itself or with an
    error that does not name the configuration, asks in between and after the
    last for the first [n] waits of 1, 2, 4, 8, 16, 30, 30, .. seconds, however
    long the attempts lasted, and then no attempt is left, or the next one is
    still running, or the worker was told to stop there, or it ended because that
    attempt's error names the configuration or the attempt panicked; it never
    ends with an error. *)
Theorem worker_reconnects config raw attempts w w' o :
  run_stream_worker config raw INITIAL_BACKOFF attempts w = (w', o) ->
  exists n, waits (local w') = waits (local w) ++ ((fun i => Z.min (2 ^ Z.of_nat i) 30) <$> seq 0 n) /\
    Forall (lost config raw) (take n attempts) /\ worker_end config raw attempts n o.
Proof.
  intros Hrun. apply run_worker_reconnects in Hrun as (n & Hw & Hl & He).
  exists n. split; [|by split]. rewrite Hw. f_equal. apply (wait_seq_powers 0).
Qed.
End proofs.
