(* ===== verification/StreamSupervisor.v ===== *)
(** * The stream supervisor ([apps/indexer/src/stream_supervisor.rs])

    It keeps one worker per configured stream: [reconcile] compares the
    configurations in the database with the running workers, by the hash of the
    runtime configuration, and starts, restarts and stops workers.  A spawned
    task is an entry of [tasks]; a task may also end on its own.  The loop
    answers the periodic tick, the notifications of the database, commands and
    the purge tick.  Other services write the catalogue between two turns.  What
    is logged is left out, and so are the connection of the listener and the
    start-up of the raw repository.

    A running task always belongs to the worker of its stream, so a stream never
    has two; a reconciliation that ends without an error leaves exactly the
    workers the catalogue asks for and does not touch those whose configuration
    is the same. *)
From S2P Require Import Prelude F64 Text Numbers Ports FieldMapping AlertIO StreamParser ChainParsers IngestStore WorkerConfig StreamWorker.

Definition NOTIFY_CONNECTED_RECONCILE_INTERVAL_SECS : Z := 600.
Definition NOTIFY_DEGRADED_RECONCILE_INTERVAL_SECS : Z := 30.
Definition build_reconcile_tick (listener_connected : bool) : Z :=
  if listener_connected then NOTIFY_CONNECTED_RECONCILE_INTERVAL_SECS
  else NOTIFY_DEGRADED_RECONCILE_INTERVAL_SECS.

Inductive NotifySignal := Connected | ChangedConfig | Disconnected.
Inductive SupervisorCommand := ReconcileNow.

Section supervisor.
Context `{Chrono} `{SerdeJson} `{!Sha256} `{!Urls}.

(** ** Configurations *)

Definition SKIP_KEYS : list string := ["ws_endpoint"; "rpc_url"; "http_url"; "endpoint"].
Definition has_query (key : string) (url : Url) : bool :=
  existsb (fun kv => bool_decide (kv.1 = key) && negb (is_empty (trim kv.2))) (query_pairs url).
Definition skipped_endpoint_reason (endpoint : string) : option string :=
  if contains endpoint "{" && contains endpoint "}" then Some "unresolved endpoint placeholder"
  else
    parsed ← url_parse endpoint;
    if contains (url_path parsed) MOCK_PATH
       && negb (has_query "tenant_id" parsed && has_query "stream_name" parsed)
    then Some "deprecated simulation replay endpoint"
    else None.
Definition skipped_test_stream_reason (cfg : EffectiveStreamConfig) : option string :=
  if negb (bool_decide (sc_operating_mode_profile cfg = "test")) then None
  else find_map (fun key => trimmed_nonempty (get_str key (sc_connection_config cfg))
                              ≫= skipped_endpoint_reason) SKIP_KEYS.
Definition skipped_stream_reason (cfg : EffectiveStreamConfig) (live_streams_enabled : bool)
  : option string :=
  if bool_decide (sc_operating_mode_profile cfg = "live") && negb live_streams_enabled then
    Some "live streams disabled by configuration"
  else skipped_test_stream_reason cfg.
Definition to_runtime_config (cfg : EffectiveStreamConfig) (tenant_targets : list string)
  : RuntimeStreamConfig :=
  {| rc_stream_config_id := sc_stream_config_id cfg; rc_source_id := sc_source_id cfg;
     rc_source_type := sc_source_type cfg; rc_source_name := sc_source_name cfg;
     rc_source_scope_kind := sc_source_scope_kind cfg;
     rc_owner_tenant_id := sc_owner_tenant_id cfg;
     rc_connection_config := sc_connection_config cfg;
     rc_operating_mode_profile := sc_operating_mode_profile cfg;
     rc_auth_secret_ref := sc_auth_secret_ref cfg; rc_auth_config := sc_auth_config cfg;
     rc_connector_mode := sc_connector_mode cfg; rc_stream_name := sc_stream_name cfg;
     rc_subscription_key := sc_subscription_key cfg; rc_event_type := sc_event_type cfg;
     rc_parser_name := sc_parser_name cfg; rc_market_key := sc_market_key cfg;
     rc_asset_pair := sc_asset_pair cfg; rc_filter_config := sc_filter_config cfg;
     rc_payload_ts_path := sc_payload_ts_path cfg; rc_payload_ts_unit := sc_payload_ts_unit cfg;
     rc_poll_interval_ms := (value ← sc_poll_interval_ms cfg; if 0 <=? value then Some value else None);
     rc_tenant_targets := tenant_targets |}.
Definition runtime_json (cfg : RuntimeStreamConfig) : Value := VObj
  [ ("stream_config_id", VString (rc_stream_config_id cfg)); ("source_id", VString (rc_source_id cfg));
    ("source_type", VString (rc_source_type cfg)); ("source_name", VString (rc_source_name cfg));
    ("source_scope_kind", VString (rc_source_scope_kind cfg));
    ("owner_tenant_id", VOpt VString (rc_owner_tenant_id cfg));
    ("connection_config", rc_connection_config cfg);
    ("operating_mode_profile", VString (rc_operating_mode_profile cfg));
    ("auth_secret_ref", VOpt VString (rc_auth_secret_ref cfg)); ("auth_config", rc_auth_config cfg);
    ("connector_mode", VString (rc_connector_mode cfg)); ("stream_name", VString (rc_stream_name cfg));
    ("subscription_key", VOpt VString (rc_subscription_key cfg));
    ("event_type", VString (rc_event_type cfg)); ("parser_name", VString (rc_parser_name cfg));
    ("market_key", VOpt VString (rc_market_key cfg)); ("asset_pair", VOpt VString (rc_asset_pair cfg));
    ("filter_config", rc_filter_config cfg);
    ("payload_ts_path", VOpt VString (rc_payload_ts_path cfg));
    ("payload_ts_unit", VString (rc_payload_ts_unit cfg));
    ("poll_interval_ms", VOpt VInt (rc_poll_interval_ms cfg));
    ("tenant_targets", VArray (VString <$> rc_tenant_targets cfg)) ].
Definition hash_runtime_config (cfg : RuntimeStreamConfig) : string :=
  sha256_hex (value_to_string (runtime_json cfg)).

(** ** State *)

Inductive TaskState := TaskRunning | TaskEnded.
Record Task := { task_config : RuntimeStreamConfig; task_state : TaskState }.
Record WorkerHandle := { config_hash : string; task : nat }.
Record Supervisor := {
  sp_step : nat;
  sp_tables : IngestTables;
  workers : gmap string WorkerHandle;
  tasks : list Task;
  listener_connected : bool;
  reconcile_every : Z   (* the period of the reconcile tick, in seconds *)
}.
(** failures of the statements, the clock of the database, its collation *)
Class SupervisorEnv := {
  sp_sql_error : nat -> option SqlError;
  sp_now : nat -> DateTime;
  sp_collate : string -> string -> comparison
}.
Context `{!SupervisorEnv} `{HashOrder}.
Notation IO := (ST Supervisor).

Definition sp_modify (f : Supervisor -> Supervisor) : IO unit := fun s => (f s, Ret ()).
Definition set_sp_tables (t : IngestTables) (s : Supervisor) : Supervisor :=
  {| sp_step := sp_step s; sp_tables := t; workers := workers s; tasks := tasks s;
     listener_connected := listener_connected s; reconcile_every := reconcile_every s |}.
Definition set_workers (w : gmap string WorkerHandle) (ts : list Task) (s : Supervisor) : Supervisor :=
  {| sp_step := sp_step s; sp_tables := sp_tables s; workers := w; tasks := ts;
     listener_connected := listener_connected s; reconcile_every := reconcile_every s |}.
Definition set_listener (connected : bool) (s : Supervisor) : Supervisor :=
  {| sp_step := sp_step s; sp_tables := sp_tables s; workers := workers s; tasks := tasks s;
     listener_connected := connected; reconcile_every := build_reconcile_tick connected |}.
Definition sp_tick : IO nat := fun s =>
  ({| sp_step := S (sp_step s); sp_tables := sp_tables s; workers := workers s; tasks := tasks s;
      listener_connected := listener_connected s; reconcile_every := reconcile_every s |},
   Ret (sp_step s)).
(** a list read from the catalogue; a missing table is an empty list *)
Definition catalogue {A} (f : IngestTables -> list A) : IO (list A) :=
  n ← sp_tick;
  match sp_sql_error n with
  | Some UndefinedTable => mret []
  | Some e => lift (Err (sql_message e))
  | None => s ← get_st; mret (f (sp_tables s))
  end.
Definition list_effective_stream_configs : IO (list EffectiveStreamConfig) :=
  catalogue (select_effective_stream_configs sp_collate).
Definition list_stream_tenant_targets (stream_config_id : string) : IO (list string) :=
  catalogue (select_stream_tenant_targets sp_collate stream_config_id).
Definition resolve_runtime_tenant_targets (cfg : EffectiveStreamConfig) : IO (list string) :=
  if bool_decide (sc_source_scope_kind cfg = "tenant") then mret (option_list (sc_owner_tenant_id cfg))
  else list_stream_tenant_targets (sc_stream_config_id cfg).

(** ** Tasks *)

Definition end_task (i : nat) (ts : list Task) : list Task :=
  alter (fun t => {| task_config := task_config t; task_state := TaskEnded |}) i ts.
(** the stop is sent and the task is waited for *)
Definition stop_worker (stream_config_id : string) (h : WorkerHandle) (s : Supervisor) : Supervisor :=
  set_workers (delete stream_config_id (workers s)) (end_task (task h) (tasks s)) s.
Definition stop_if_known (stream_config_id : string) (s : Supervisor) : Supervisor :=
  match workers s !! stream_config_id with
  | Some previous => stop_worker stream_config_id previous s
  | None => s
  end.
Definition spawn_worker (cfg : RuntimeStreamConfig) (s : Supervisor) : Supervisor :=
  set_workers
    (<[rc_stream_config_id cfg :=
        {| config_hash := hash_runtime_config cfg; task := length (tasks s) |}]> (workers s))
    (tasks s ++ [{| task_config := cfg; task_state := TaskRunning |}]) s.
Definition up_to_date (cfg : RuntimeStreamConfig) (s : Supervisor) : bool :=
  match workers s !! rc_stream_config_id cfg with
  | Some existing => bool_decide (config_hash existing = hash_runtime_config cfg)
  | None => false
  end.
Definition ensure_worker (cfg : RuntimeStreamConfig) (s : Supervisor) : Supervisor :=
  if up_to_date cfg s then s
  else spawn_worker cfg (stop_if_known (rc_stream_config_id cfg) s).

(** ** Reconciliation *)

Section reconcile.
Context (live_streams_enabled : bool).

(** the configuration to run, if the stream is not skipped *)
Definition desired_config (cfg : EffectiveStreamConfig) : IO (option RuntimeStreamConfig) :=
  match skipped_stream_reason cfg live_streams_enabled with
  | Some _ => mret None
  | None =>
      targets ← resolve_runtime_tenant_targets cfg;
      if bool_decide (sc_operating_mode_profile cfg = "live") && bool_decide (targets = [])
      then mret None else mret (Some (to_runtime_config cfg targets))
  end.
Definition reconcile_config (desired_ids : list string) (cfg : EffectiveStreamConfig)
  : IO (list string) :=
  wanted ← desired_config cfg;
  match wanted with
  | None => mret desired_ids
  | Some runtime_cfg =>
      _ ← sp_modify (ensure_worker runtime_cfg);
      mret (desired_ids ++ [rc_stream_config_id runtime_cfg])
  end.
Definition stop_stale (desired_ids : list string) (s : Supervisor) : Supervisor :=
  let stale_ids :=
    List.filter (fun id => negb (bool_decide (id ∈ desired_ids))) (hash_entries (workers s)).*1 in
  foldl (fun s id => stop_if_known id s) s stale_ids.
Definition reconcile : IO unit :=
  effective ← list_effective_stream_configs;
  desired_ids ← for_each reconcile_config effective [];
  sp_modify (stop_stale desired_ids).

(** ** The loop *)

Inductive SupervisorInput :=
  | ReconcileTick
  | Notify (signal : option NotifySignal)
  | Command (command : option SupervisorCommand)
  | PurgeTick
  | TaskEnds (i : nat).   (* a task ends on its own, or panics *)

Context (purge_enabled raw_repo : bool) (purge_retention_seconds : Z).

Definition sp_write (f : DateTime -> IngestTables -> IngestTables) : IO unit :=
  n ← sp_tick;
  match sp_sql_error n with
  | Some e => lift (Err (sql_message e))
  | None => sp_modify (fun s => set_sp_tables (f (sp_now n) (sp_tables s)) s)
  end.
Definition purge : IO unit :=
  let run f := log_error (sp_write (fun now => f now purge_retention_seconds)) in
  _ ← run (fun now r t => purge_old_tick_events now r t);
  if raw_repo then
    _ ← run (fun now r t => purge_old_cex_ticks now r t);
    _ ← run (fun now r t => purge_old_chain_events now r t);
    _ ← run (fun now r t => purge_old_dex_events now r t);
    run (fun now r t => purge_old_ingest_failures now r t)
  else mret ().
Definition on_notify (signal : option NotifySignal) : IO unit :=
  s ← get_st;
  match signal with
  | Some Connected =>
      _ ← (if listener_connected s then mret () else sp_modify (set_listener true));
      log_error reconcile
  | Some ChangedConfig => log_error reconcile
  | Some Disconnected | None =>
      if listener_connected s then sp_modify (set_listener false) else mret ()
  end.
Definition on_input (input : SupervisorInput) : IO unit :=
  match input with
  | ReconcileTick => log_error reconcile
  | Notify signal => on_notify signal
  | Command (Some ReconcileNow) => log_error reconcile
  | Command None => mret ()
  | PurgeTick => if purge_enabled then purge else mret ()
  | TaskEnds i => sp_modify (fun s => set_workers (workers s) (end_task i (tasks s)) s)
  end.
(** before each input the other services write the tables *)
Definition supervise (inputs : list ((IngestTables -> IngestTables) * SupervisorInput)) : IO unit :=
  iterate (fun i => _ ← sp_modify (fun s => set_sp_tables (fst i (sp_tables s)) s); on_input (snd i))
    inputs.
Definition supervisor_start (t : IngestTables) : Supervisor :=
  {| sp_step := 0; sp_tables := t; workers := ∅; tasks := []; listener_connected := false;
     reconcile_every := build_reconcile_tick false |}.
(** the first reconciliation must succeed *)
Definition run_stream_supervisor
    (inputs : list ((IngestTables -> IngestTables) * SupervisorInput)) : IO unit :=
  _ ← reconcile; supervise inputs.
End reconcile.
End supervisor.

(** ** Theorems *)

Section proofs.
Context `{Chrono} `{SerdeJson} `{!Sha256} `{!Urls} `{!SupervisorEnv} `{HashOrder}.
Notation IO := (ST Supervisor).
Implicit Types (s : Supervisor) (cfg : RuntimeStreamConfig).

(** ** Workers and tasks *)

Record consistent s : Prop := {
  handle_has_task : forall id h, workers s !! id = Some h -> exists t,
    tasks s !! task h = Some t /\ rc_stream_config_id (task_config t) = id /\
    config_hash h = hash_runtime_config (task_config t);
  running_has_handle : forall i t, tasks s !! i = Some t -> task_state t = TaskRunning ->
    exists h, workers s !! rc_stream_config_id (task_config t) = Some h /\ task h = i
}.
Lemma end_task_lookup i j ts t :
  end_task i ts !! j = Some t -> exists t0, ts !! j = Some t0 /\ task_config t = task_config t0 /\
    (task_state t = TaskRunning -> i <> j /\ task_state t0 = TaskRunning).
Proof.
  unfold end_task. destruct (decide (i = j)) as [->|Hne].
  - rewrite list_lookup_alter_eq. intros Ht. apply fmap_Some in Ht as (t0 & Ht0 & ->).
    by exists t0.
  - rewrite list_lookup_alter_ne by done. intros Ht. by exists t.
Qed.
Lemma end_task_config i j ts t :
  ts !! j = Some t -> exists t', end_task i ts !! j = Some t' /\ task_config t' = task_config t.
Proof.
  unfold end_task. intros Ht. destruct (decide (i = j)) as [->|Hne].
  - rewrite list_lookup_alter_eq, Ht. by eexists.
  - rewrite list_lookup_alter_ne by done. by exists t.
Qed.
Lemma task_ends_consistent i s :
  consistent s -> consistent (set_workers (workers s) (end_task i (tasks s)) s).
Proof.
  intros [Hh Hr]. split; simpl.
  - intros id h Hid. destruct (Hh id h Hid) as (t & Ht & Hc & Hhash).
    destruct (end_task_config i _ _ _ Ht) as (t' & Ht' & Htc). exists t'. by rewrite Htc.
  - intros j t Ht Hrun. apply end_task_lookup in Ht as (t0 & Ht0 & -> & Hs).
    destruct (Hs Hrun) as [_ Hrun0]. by apply Hr.
Qed.
Lemma stop_if_known_consistent id s : consistent s -> consistent (stop_if_known id s).
Proof.
  intros [Hh Hr]. unfold stop_if_known. destruct (workers s !! id) as [h|] eqn:Hid; [|by split].
  split; unfold stop_worker; simpl.
  - intros id' h' Hid'. apply lookup_delete_Some in Hid' as [Hne Hid'].
    destruct (Hh _ _ Hid') as (t & Ht & Hc & Hhash).
    destruct (end_task_config (task h) _ _ _ Ht) as (t' & Ht' & Htc). exists t'. by rewrite Htc.
  - intros j t Ht Hrun. apply end_task_lookup in Ht as (t0 & Ht0 & Htc & Hs).
    destruct (Hs Hrun) as [Hne Hrun0]. destruct (Hr _ _ Ht0 Hrun0) as (h' & Hh' & Hj).
    exists h'. rewrite Htc. split; [|done]. apply lookup_delete_Some. split; [|done].
    intros ->. rewrite Hid in Hh'. congruence.
Qed.
Lemma stop_if_known_gone id s : workers (stop_if_known id s) !! id = None.
Proof.
  unfold stop_if_known. destruct (workers s !! id) eqn:Hid; [|done]. apply lookup_delete_eq.
Qed.
Lemma spawn_consistent cfg s :
  workers s !! rc_stream_config_id cfg = None -> consistent s -> consistent (spawn_worker cfg s).
Proof.
  intros Hnone [Hh Hr]. split; unfold spawn_worker; simpl.
  - intros id h Hid. apply lookup_insert_Some in Hid as [[<- <-]|[Hne Hid]]; simpl.
    + exists {| task_config := cfg; task_state := TaskRunning |}.
      by rewrite lookup_app_r, Nat.sub_diag by lia.
    + destruct (Hh _ _ Hid) as (t & Ht & Hc & Hhash). exists t. split; [|done].
      by apply lookup_app_l_Some.
  - intros i t Ht Hrun. apply lookup_app_Some in Ht as [Ht|[Hi Ht]].
    + destruct (Hr _ _ Ht Hrun) as (h & Hid & Hi). exists h. split; [|done].
      rewrite lookup_insert_ne; [done|]. intros Heq. congruence.
    + apply list_lookup_singleton_Some in Ht as [Hz <-]. simpl.
      eexists. rewrite lookup_insert_eq. split; [done|]. simpl. lia.
Qed.
Lemma ensure_consistent cfg s : consistent s -> consistent (ensure_worker cfg s).
Proof.
  intros Hs. unfold ensure_worker. destruct (up_to_date cfg s); [done|].
  apply spawn_consistent; [apply stop_if_known_gone|by apply stop_if_known_consistent].
Qed.
Lemma stop_stale_consistent ids s : consistent s -> consistent (stop_stale ids s).
Proof.
  unfold stop_stale. generalize (List.filter (fun id => negb (bool_decide (id ∈ ids)))
    (hash_entries (workers s)).*1) as l. intros l. revert s.
  induction l as [|id l IH]; intros s Hs; [done|]. apply IH. by apply stop_if_known_consistent.
Qed.

(** ** Computations of the supervisor *)

Definition preserves {A} (m : IO A) : Prop := forall s, consistent s -> consistent (m s).1.
Lemma preserves_ret {A} (a : A) : preserves (mret a).
Proof. by intros s Hs. Qed.
Lemma preserves_bind {A B} (m : IO A) (f : A -> IO B) :
  preserves m -> (forall a, preserves (f a)) -> preserves (m ≫= f).
Proof.
  intros Hm Hf s Hs. specialize (Hm s Hs). unfold mbind, st_bind.
  destruct (m s) as [s1 [a|e|]]; simpl in *; [by apply Hf|done..].
Qed.
Lemma preserves_log_error {A} (m : IO A) : preserves m -> preserves (log_error m).
Proof. intros Hm s Hs. rewrite log_error_run. by apply Hm. Qed.
Lemma preserves_lift {A} (o : outcome A) : preserves (lift o).
Proof. by intros s Hs. Qed.
Lemma preserves_get : preserves (get_st : IO Supervisor).
Proof. by intros s Hs. Qed.
Lemma preserves_tick : preserves sp_tick.
Proof. by intros s []. Qed.
Lemma preserves_for_each {A B} (f : A -> B -> IO A) l a :
  (forall a x, preserves (f a x)) -> preserves (for_each f l a).
Proof.
  intros Hf. revert a. induction l as [|x l IH]; intros a; [apply preserves_ret|].
  apply preserves_bind; [apply Hf|done].
Qed.
Lemma preserves_modify f : (forall s, consistent s -> consistent (f s)) -> preserves (sp_modify f).
Proof. intros Hf s Hs. by apply Hf. Qed.
Lemma preserves_tables f : preserves (sp_modify (fun s => set_sp_tables (f s) s)).
Proof. by intros s []. Qed.
Lemma preserves_listener b : preserves (sp_modify (set_listener b)).
Proof. by intros s []. Qed.
Create HintDb preserves.
#[local] Hint Resolve preserves_ret preserves_lift preserves_get preserves_tick preserves_tables
  preserves_listener : preserves.
Ltac preserving := repeat first
  [ solve [auto with preserves nocore] | apply preserves_log_error
  | apply preserves_for_each; intros ? ? | apply preserves_bind; [|intros ?] | case_match ].

Lemma preserves_catalogue {A} (f : IngestTables -> list A) : preserves (catalogue f).
Proof. unfold catalogue. preserving. Qed.
#[local] Hint Resolve preserves_catalogue : preserves.
Lemma preserves_desired live (e : EffectiveStreamConfig) : preserves (desired_config live e).
Proof.
  unfold desired_config, resolve_runtime_tenant_targets, list_stream_tenant_targets. preserving.
Qed.
#[local] Hint Resolve preserves_desired : preserves.
Lemma preserves_reconcile live : preserves (reconcile live).
Proof.
  unfold reconcile, list_effective_stream_configs, reconcile_config. preserving.
  - apply preserves_modify. by apply ensure_consistent.
  - apply preserves_modify. by apply stop_stale_consistent.
Qed.
#[local] Hint Resolve preserves_reconcile : preserves.
Lemma preserves_write f : preserves (sp_write f).
Proof. unfold sp_write. preserving. Qed.
#[local] Hint Resolve preserves_write : preserves.
Lemma preserves_input live purge_on raw retention i : preserves (on_input live purge_on raw retention i).
Proof.
  destruct i as [|signal|[[]|]| |i]; unfold on_input, on_notify, purge; cbv zeta; preserving.
  apply preserves_modify. intros s. apply task_ends_consistent.
Qed.

Lemma run_consistent live purge_on raw retention inputs t s o :
  run_stream_supervisor live purge_on raw retention inputs (supervisor_start t) = (s, o) -> consistent s.
Proof.
  intros Hrun. assert (Hp : preserves (run_stream_supervisor live purge_on raw retention inputs)).
  { apply preserves_bind; [apply preserves_reconcile|]. intros _. apply preserves_for_each.
    intros _ i. apply preserves_bind; [apply preserves_tables|]. intros _. apply preserves_input. }
  specialize (Hp (supervisor_start t)). rewrite Hrun in Hp. apply Hp.
  by split; intros ? ?; rewrite ?lookup_empty, ?lookup_nil.
Qed.

(** C12: a stream never has two workers.  Whatever the catalogue, the
    notifications, the commands, the failing statements and the tasks that end on
    their own: after any run of the supervisor every running task is the worker
    of its stream, two running tasks belong to two streams, and every worker has
    a task with its stream and the hash of its configuration. *)
Theorem one_worker_per_stream live purge_on raw retention inputs t s o :
  run_stream_supervisor live purge_on raw retention inputs (supervisor_start t) = (s, o) ->
  (forall i t, tasks s !! i = Some t -> task_state t = TaskRunning ->
     exists h, workers s !! rc_stream_config_id (task_config t) = Some h /\ task h = i) /\
  (forall i j ti tj, tasks s !! i = Some ti -> tasks s !! j = Some tj ->
     task_state ti = TaskRunning -> task_state tj = TaskRunning ->
     rc_stream_config_id (task_config ti) = rc_stream_config_id (task_config tj) -> i = j) /\
  (forall id h, workers s !! id = Some h -> exists t, tasks s !! task h = Some t /\
     rc_stream_config_id (task_config t) = id /\ config_hash h = hash_runtime_config (task_config t)).
Proof.
  intros Hrun. apply run_consistent in Hrun as [Hh Hr]. split_and!; [done| |done].
  intros i j ti tj Hi Hj Hri Hrj Heq.
  destruct (Hr _ _ Hi Hri) as (hi & Hwi & <-), (Hr _ _ Hj Hrj) as (hj & Hwj & <-).
  rewrite Heq in Hwi. congruence.
Qed.

(** ** What a reconciliation leaves *)

Definition hashes s : gmap string string := config_hash <$> workers s.
Definition want (m : gmap string string) cfg : gmap string string :=
  <[rc_stream_config_id cfg := hash_runtime_config cfg]> m.
Lemma stop_if_known_workers id s : workers (stop_if_known id s) = delete id (workers s).
Proof.
  unfold stop_if_known. destruct (workers s !! id) eqn:Hid; [done|]. symmetry. by apply delete_id.
Qed.
Lemma ensure_hashes cfg s : hashes (ensure_worker cfg s) = want (hashes s) cfg.
Proof.
  unfold ensure_worker, up_to_date, hashes, want.
  destruct (workers s !! rc_stream_config_id cfg) as [h|] eqn:Hid; [case_bool_decide as Hh|].
  - symmetry. apply insert_id. by rewrite lookup_fmap, Hid, <- Hh.
  - simpl. rewrite fmap_insert, stop_if_known_workers, fmap_delete. simpl. apply insert_delete_eq.
  - simpl. rewrite fmap_insert, stop_if_known_workers, fmap_delete. simpl. apply insert_delete_eq.
Qed.
Definition ensure_all (desired : list RuntimeStreamConfig) s : Supervisor :=
  foldl (fun s cfg => ensure_worker cfg s) s desired.
Lemma ensure_all_hashes desired s : hashes (ensure_all desired s) = foldl want (hashes s) desired.
Proof.
  revert s. induction desired as [|cfg desired IH]; intros s; [done|]. simpl.
  by rewrite IH, ensure_hashes.
Qed.
Lemma stop_all_workers l s id :
  workers (foldl (fun s id => stop_if_known id s) s l) !! id =
  if bool_decide (id ∈ l) then None else workers s !! id.
Proof.
  revert s. induction l as [|x l IH]; intros s; [done|]. simpl foldl.
  rewrite IH, stop_if_known_workers. destruct (decide (id = x)) as [->|Hne].
  - rewrite (bool_decide_eq_true_2 (x ∈ x :: l)) by (apply elem_of_cons; by left).
    rewrite lookup_delete_eq. by case_match.
  - rewrite lookup_delete_ne by done. rewrite (bool_decide_ext (id ∈ x :: l) (id ∈ l)); [done|].
    rewrite elem_of_cons. split; [by intros [->|]|by right].
Qed.
Lemma stop_stale_workers ids s id :
  workers (stop_stale ids s) !! id = if bool_decide (id ∈ ids) then workers s !! id else None.
Proof.
  unfold stop_stale. rewrite stop_all_workers.
  destruct (workers s !! id) as [h|] eqn:Hid; [|by repeat case_bool_decide].
  assert (Hkey : id ∈ (hash_entries (workers s)).*1).
  { apply list_elem_of_fmap. exists (id, h). split; [done|]. by apply elem_of_hash_entries. }
  case_bool_decide as Hin; case_bool_decide as Hids; try done.
  - apply list_elem_of_In, filter_In in Hin as [_ Hin]. by rewrite bool_decide_eq_true_2 in Hin.
  - destruct Hin. apply list_elem_of_In, filter_In. split; [by apply list_elem_of_In|].
    by rewrite bool_decide_eq_false_2.
Qed.
Lemma foldl_want_lookup desired m id :
  foldl want m desired !! id =
  if bool_decide (id ∈ rc_stream_config_id <$> desired) then foldl want ∅ desired !! id else m !! id.
Proof.
  revert m. induction desired as [|cfg desired IH] using rev_ind; intros m.
  { done. }
  rewrite !foldl_app. simpl. unfold want at 1 3. rewrite fmap_app. simpl.
  destruct (decide (id = rc_stream_config_id cfg)) as [->|Hne].
  - rewrite bool_decide_eq_true_2; [by rewrite !lookup_insert_eq|].
    apply elem_of_app. right. by apply list_elem_of_singleton.
  - rewrite !lookup_insert_ne by done. rewrite (IH m), (IH ∅).
    rewrite (bool_decide_ext (id ∈ (rc_stream_config_id <$> desired) ++ [rc_stream_config_id cfg])
               (id ∈ rc_stream_config_id <$> desired)); [by case_match|].
    rewrite elem_of_app, list_elem_of_singleton. split; [by intros [|]|by left].
Qed.
Lemma converged_hashes desired s :
  hashes (stop_stale (rc_stream_config_id <$> desired) (ensure_all desired s)) = foldl want ∅ desired.
Proof.
  apply map_eq. intros id. unfold hashes. rewrite lookup_fmap, stop_stale_workers.
  rewrite (foldl_want_lookup desired ∅).
  case_bool_decide as Hin; [|done].
  pose proof (ensure_all_hashes desired s) as Hh. apply (f_equal (lookup id)) in Hh.
  unfold hashes in Hh at 1. rewrite lookup_fmap, foldl_want_lookup in Hh.
  by rewrite bool_decide_eq_true_2 in Hh.
Qed.

(** ** A reconciliation as a function of the catalogue *)

(** the numbering of the interactions apart *)
Definition same_work s1 s2 : Prop := workers s1 = workers s2 /\ tasks s1 = tasks s2.
#[export] Instance same_work_equivalence : Equivalence same_work.
Proof.
  split; [done|by intros ? ? []|]. intros s1 s2 s3 [Ha Hb] [Hc Hd]. split; by etrans.
Qed.
#[export] Instance stop_if_known_proper : Proper (eq ==> same_work ==> same_work) stop_if_known.
Proof.
  intros id _ <- s1 s2 [Hw Ht]. unfold stop_if_known. rewrite Hw.
  destruct (workers s2 !! id); [|by split]. split; simpl; congruence.
Qed.
#[export] Instance ensure_proper : Proper (eq ==> same_work ==> same_work) ensure_worker.
Proof.
  intros cfg _ <- s1 s2 Hs. unfold ensure_worker, up_to_date. rewrite (proj1 Hs).
  case_match; [case_match; [done|]|].
  all: destruct (stop_if_known_proper (rc_stream_config_id cfg) _ eq_refl s1 s2 Hs) as [Hw Ht].
  all: unfold spawn_worker; split; simpl; by rewrite Hw, Ht || congruence.
Qed.
#[export] Instance ensure_all_proper : Proper (eq ==> same_work ==> same_work) ensure_all.
Proof.
  intros l _ <- s1 s2 Hs. revert s1 s2 Hs. induction l as [|cfg l IH]; intros s1 s2 Hs; [done|].
  apply IH. by apply ensure_proper.
Qed.
#[export] Instance stop_stale_proper : Proper (eq ==> same_work ==> same_work) stop_stale.
Proof.
  intros ids _ <- s1 s2 Hs. unfold stop_stale. rewrite (proj1 Hs).
  generalize (List.filter (fun id => negb (bool_decide (id ∈ ids))) (hash_entries (workers s2)).*1).
  intros l. revert s1 s2 Hs. induction l as [|id l IH]; intros s1 s2 Hs; [done|].
  apply IH. by apply stop_if_known_proper.
Qed.

Definition targets_of (t : IngestTables) (e : EffectiveStreamConfig) : list string :=
  if bool_decide (sc_source_scope_kind e = "tenant") then option_list (sc_owner_tenant_id e)
  else select_stream_tenant_targets sp_collate (sc_stream_config_id e) t.
Definition desired_of (live : bool) (t : IngestTables) (e : EffectiveStreamConfig)
  : option RuntimeStreamConfig :=
  match skipped_stream_reason e live with
  | Some _ => None
  | None =>
      if bool_decide (sc_operating_mode_profile e = "live") && bool_decide (targets_of t e = [])
      then None else Some (to_runtime_config e (targets_of t e))
  end.
(** the configurations the catalogue asks for *)
Definition desired_configs (live : bool) (t : IngestTables) : list RuntimeStreamConfig :=
  omap (desired_of live t) (select_effective_stream_configs sp_collate t).

Section no_failures.
Context (Hok : forall n, sp_sql_error n = None) (live : bool).
Lemma catalogue_run {A} (f : IngestTables -> list A) s :
  exists s', catalogue f s = (s', Ret (f (sp_tables s))) /\ same_work s' s /\ sp_tables s' = sp_tables s.
Proof. eexists. unfold catalogue, mbind, st_bind, sp_tick. simpl. by rewrite Hok. Qed.
Lemma desired_run e s :
  exists s', desired_config live e s = (s', Ret (desired_of live (sp_tables s) e)) /\
    same_work s' s /\ sp_tables s' = sp_tables s.
Proof.
  unfold desired_config, desired_of, resolve_runtime_tenant_targets, targets_of.
  destruct (skipped_stream_reason e live); [by exists s|].
  destruct (bool_decide (sc_source_scope_kind e = "tenant")).
  - exists s. split; [|done]. unfold mbind, st_bind. simpl. by destruct (_ && _).
  - destruct (catalogue_run (select_stream_tenant_targets sp_collate (sc_stream_config_id e)) s)
      as (s' & Hrun & Hw). exists s'. split; [|done].
    unfold list_stream_tenant_targets. erewrite st_bind_run by exact Hrun. by destruct (_ && _).
Qed.
Lemma ensure_tables c s : sp_tables (ensure_worker c s) = sp_tables s.
Proof. unfold ensure_worker, stop_if_known. by repeat case_match. Qed.
Lemma config_run ids e s :
  let wanted := option_list (desired_of live (sp_tables s) e) in
  exists s', reconcile_config live ids e s = (s', Ret (ids ++ (rc_stream_config_id <$> wanted))) /\
    same_work s' (ensure_all wanted s) /\ sp_tables s' = sp_tables s.
Proof.
  destruct (desired_run e s) as (s1 & Hrun & Hw & Ht). cbv zeta. unfold reconcile_config.
  erewrite st_bind_run by exact Hrun. destruct (desired_of live (sp_tables s) e) as [c|].
  - exists (ensure_worker c s1). split_and!; [done| |by rewrite ensure_tables].
    by apply ensure_proper.
  - exists s1. by rewrite app_nil_r.
Qed.
Lemma configs_run es ids s :
  let wanted := omap (desired_of live (sp_tables s)) es in
  exists s', for_each (reconcile_config live) es ids s
      = (s', Ret (ids ++ (rc_stream_config_id <$> wanted))) /\
    same_work s' (ensure_all wanted s) /\ sp_tables s' = sp_tables s.
Proof.
  cbv zeta. revert ids s. induction es as [|e es IH]; intros ids s; simpl.
  { exists s. by rewrite app_nil_r. }
  destruct (config_run ids e s) as (s1 & Hrun & Hw & Ht). erewrite st_bind_run by exact Hrun.
  destruct (IH (ids ++ (rc_stream_config_id <$> option_list (desired_of live (sp_tables s) e))) s1)
    as (s2 & Hrun2 & Hw2 & Ht2).
  rewrite Ht in Hrun2, Hw2, Ht2. exists s2. rewrite Hrun2.
  destruct (desired_of live (sp_tables s) e) as [c|]; simpl in *.
  - rewrite <- app_assoc. split_and!; [done| |done]. etrans; [exact Hw2|]. by apply ensure_all_proper.
  - rewrite app_nil_r. split_and!; [done| |done]. etrans; [exact Hw2|]. by apply ensure_all_proper.
Qed.
Lemma reconcile_run s :
  let desired := desired_configs live (sp_tables s) in
  exists s', reconcile live s = (s', Ret ()) /\
    same_work s' (stop_stale (rc_stream_config_id <$> desired) (ensure_all desired s)).
Proof.
  cbv zeta. unfold reconcile, desired_configs.
  destruct (catalogue_run (select_effective_stream_configs sp_collate) s) as (s1 & Hrun & Hw & Ht).
  unfold list_effective_stream_configs. erewrite st_bind_run by exact Hrun.
  destruct (configs_run (select_effective_stream_configs sp_collate (sp_tables s)) [] s1)
    as (s2 & Hrun2 & Hw2 & Ht2).
  rewrite Ht in Hrun2, Hw2. erewrite st_bind_run by exact Hrun2. eexists. split; [done|].
  simpl. by rewrite Hw2, Hw.
Qed.
End no_failures.

Lemma ensure_keeps cfg s id h :
  workers s !! id = Some h ->
  rc_stream_config_id cfg <> id \/ config_hash h = hash_runtime_config cfg -> consistent s ->
  workers (ensure_worker cfg s) !! id = Some h /\ tasks (ensure_worker cfg s) !! task h = tasks s !! task h.
Proof.
  intros Hid Hor [Hh _]. unfold ensure_worker, up_to_date.
  destruct (Hh _ _ Hid) as (t & Ht & Htid & _).
  destruct (decide (rc_stream_config_id cfg = id)) as [<-|Hne].
  - destruct Hor as [|Heq]; [done|]. by rewrite Hid, bool_decide_eq_true_2.
  - assert (Hspawn : forall s', workers s' = delete (rc_stream_config_id cfg) (workers s) ->
      tasks s' !! task h = tasks s !! task h ->
      workers (spawn_worker cfg s') !! id = Some h /\ tasks (spawn_worker cfg s') !! task h = tasks s !! task h).
    { intros s' Hw Hts. simpl. rewrite Hw, lookup_insert_ne, lookup_delete_ne by done. split; [done|].
      rewrite <- Hts. rewrite lookup_app_l; [done|]. apply lookup_lt_is_Some. rewrite Hts. by eexists. }
    assert (Hstop : tasks (stop_if_known (rc_stream_config_id cfg) s) !! task h = tasks s !! task h).
    { unfold stop_if_known. destruct (workers s !! rc_stream_config_id cfg) as [h'|] eqn:Hid'; [|done].
      simpl. unfold end_task. rewrite list_lookup_alter_ne; [done|]. intros Heq.
      destruct (Hh _ _ Hid') as (t' & Ht' & Htid' & _). congruence. }
    destruct (workers s !! rc_stream_config_id cfg); [case_bool_decide; [done|]|];
      (apply Hspawn; [apply stop_if_known_workers|exact Hstop]).
Qed.

Lemma ensure_all_keeps desired s id h :
  workers s !! id = Some h -> consistent s ->
  (forall c, c ∈ desired -> rc_stream_config_id c = id -> config_hash h = hash_runtime_config c) ->
  workers (ensure_all desired s) !! id = Some h /\
  tasks (ensure_all desired s) !! task h = tasks s !! task h.
Proof.
  revert s. induction desired as [|c desired IH]; intros s Hid Hs Hc; [done|]. simpl.
  destruct (ensure_keeps c s id h Hid) as [Hw Ht]; [|done|].
  { destruct (decide (rc_stream_config_id c = id)) as [He|He]; [right|by left].
    apply Hc; [apply elem_of_cons; by left|done]. }
  destruct (IH (ensure_worker c s) Hw) as [Hw' Ht'].
  - by apply ensure_consistent.
  - intros c' Hin. apply Hc. apply elem_of_cons. by right.
  - split; [done|congruence].
Qed.
Lemma ensure_all_consistent desired s : consistent s -> consistent (ensure_all desired s).
Proof.
  revert s. induction desired as [|c desired IH]; intros s Hs; [done|]. apply IH.
  by apply ensure_consistent.
Qed.
Lemma stop_if_known_task id id' h s :
  workers s !! id = Some h -> id' <> id -> consistent s ->
  tasks (stop_if_known id' s) !! task h = tasks s !! task h.
Proof.
  intros Hid Hne [Hh _]. unfold stop_if_known. destruct (workers s !! id') as [h'|] eqn:Hid'; [|done].
  simpl. unfold end_task. rewrite list_lookup_alter_ne; [done|]. intros Heq.
  destruct (Hh _ _ Hid) as (t & Ht & Htid & _), (Hh _ _ Hid') as (t' & Ht' & Htid' & _). congruence.
Qed.
Lemma stop_stale_keeps ids s id h :
  workers s !! id = Some h -> id ∈ ids -> consistent s ->
  tasks (stop_stale ids s) !! task h = tasks s !! task h.
Proof.
  intros Hid Hin Hs. unfold stop_stale.
  assert (Hl : Forall (fun x => x <> id)
    (List.filter (fun id => negb (bool_decide (id ∈ ids))) (hash_entries (workers s)).*1)).
  { apply Forall_forall. intros x Hx -> . apply list_elem_of_In, filter_In in Hx as [_ Hx].
    by rewrite bool_decide_eq_true_2 in Hx. }
  revert Hl. generalize (List.filter (fun id => negb (bool_decide (id ∈ ids))) (hash_entries (workers s)).*1).
  intros l Hl. revert s Hid Hs. induction Hl as [|x l Hx _ IH]; intros s Hid Hs; [done|]. simpl.
  rewrite IH.
  - by apply (stop_if_known_task id).
  - rewrite stop_if_known_workers. by rewrite lookup_delete_ne.
  - by apply stop_if_known_consistent.
Qed.
Lemma foldl_want_in desired c :
  NoDup (rc_stream_config_id <$> desired) -> c ∈ desired ->
  foldl want ∅ desired !! rc_stream_config_id c = Some (hash_runtime_config c).
Proof.
  induction desired as [|d desired IH] using rev_ind; intros Hnd Hin; [by apply not_elem_of_nil in Hin|].
  rewrite fmap_app in Hnd. apply NoDup_app in Hnd as (Hnd & Hdis & _). rewrite foldl_app. simpl.
  unfold want at 1. apply elem_of_app in Hin as [Hin|Hin].
  - rewrite lookup_insert_ne; [by apply IH|]. intros Heq.
    apply (Hdis (rc_stream_config_id c)); [by apply list_elem_of_fmap_2|].
    apply list_elem_of_singleton. by rewrite Heq.
  - apply list_elem_of_singleton in Hin as ->. by rewrite lookup_insert_eq.
Qed.

(** C15: a reconciliation reaches the catalogue.  When no statement fails,
    [reconcile] ends without an error from any state, and the workers are then
    exactly the streams the catalogue asks for, each under the hash of the
    configuration it asks for: the effective configurations that are not skipped
    and, for live ones, have a target. *)
Theorem reconcile_converges live s :
  (forall n, sp_sql_error n = None) ->
  exists s', reconcile live s = (s', Ret ()) /\
    config_hash <$> workers s' =
    foldl (fun m cfg => <[rc_stream_config_id cfg := hash_runtime_config cfg]> m) ∅
      (desired_configs live (sp_tables s)).
Proof.
  intros Hok. destruct (reconcile_run Hok live s) as (s' & Hrun & [Hw _]). exists s'. split; [done|].
  rewrite Hw. apply converged_hashes.
Qed.

(** A worker whose stream has not changed is left alone.  When the catalogue
    asks, under the hash the worker was started with, for a stream that has a
    worker, a reconciliation without failures keeps the worker and its task as
    they are: a running task is not interrupted, and a task that has ended is not
    started again. *)
Theorem unchanged_worker_untouched live s s' id h c :
  (forall n, sp_sql_error n = None) -> consistent s ->
  NoDup (rc_stream_config_id <$> desired_configs live (sp_tables s)) ->
  workers s !! id = Some h -> c ∈ desired_configs live (sp_tables s) ->
  rc_stream_config_id c = id -> hash_runtime_config c = config_hash h ->
  reconcile live s = (s', Ret ()) ->
  workers s' !! id = Some h /\ tasks s' !! task h = tasks s !! task h.
Proof.
  intros Hok Hs Hnd Hid Hin Hcid Hhash Hrun.
  destruct (reconcile_run Hok live s) as (s1 & Hrun1 & [Hw Ht]).
  rewrite Hrun in Hrun1. injection Hrun1 as <-. rewrite Hw, Ht.
  set (desired := desired_configs live (sp_tables s)) in *.
  assert (Hids : id ∈ rc_stream_config_id <$> desired) by (rewrite <- Hcid; by apply list_elem_of_fmap_2).
  destruct (ensure_all_keeps desired s id h Hid Hs) as [Hw' Ht'].
  { intros d Hd Hdid. rewrite <- Hhash. pose proof (foldl_want_in desired c Hnd Hin) as Hc.
    pose proof (foldl_want_in desired d Hnd Hd) as Hdd. rewrite Hcid in Hc. rewrite Hdid in Hdd. congruence. }
  split.
  - rewrite stop_stale_workers, bool_decide_eq_true_2 by done. exact Hw'.
  - rewrite <- Ht'. apply (stop_stale_keeps _ _ id h); [done..|].
    by apply ensure_all_consistent.
Qed.
End proofs.
