(* ===== verification/ShapingProofs.v ===== *)
(** * Stream workers: prices and repeated quotes

    The market truth does not depend on the order in which a hash map is read;
    the suppression of repeated quotes is a function of the quotes emitted
    before. *)
From Stdlib Require Import Floats.SpecFloat.
From S2P Require Import Prelude F64 Text Numbers Ports EventSchema FieldMapping Hex StreamParser ChainParsers IngestStore WorkerConfig StreamWorker AlertIO ProtocolParsers WorkerIO.

(** ** Usable prices are ordered *)

Definition usable_price (x : f64) : Prop := positive_finite x = Some x.
Lemma usable_price_shape x : usable_price x -> exists m e, x = S754_finite false m e.
Proof.
  intros Hx. apply positive_finite_Some in Hx as (_ & Hf & Hl).
  destruct x as [[]|[]| |[] m e]; try done. by exists m, e.
Qed.
Lemma price_le_cases m1 e1 m2 e2 :
  price_le (S754_finite false m1 e1) (S754_finite false m2 e2) = true <->
  e1 < e2 \/ e1 = e2 /\ (m1 <= m2)%positive.
Proof.
  unfold price_le, f64_lt, SFltb, SFcompare.
  change (Pos.compare_cont Eq m2 m1) with (Pos.compare m2 m1).
  destruct (Z.compare_spec e2 e1) as [->|Hlt|Hlt]; [destruct (Pos.compare_spec m2 m1)|..];
    simpl; split; intros; try done; lia.
Qed.
Lemma price_le_total x y : usable_price x -> usable_price y -> price_le x y = true \/ price_le y x = true.
Proof.
  intros (m1 & e1 & ->)%usable_price_shape (m2 & e2 & ->)%usable_price_shape.
  rewrite !price_le_cases. lia.
Qed.
Lemma price_le_trans x y z : usable_price x -> usable_price y -> usable_price z ->
  price_le x y = true -> price_le y z = true -> price_le x z = true.
Proof.
  intros (m1 & e1 & ->)%usable_price_shape (m2 & e2 & ->)%usable_price_shape
    (m3 & e3 & ->)%usable_price_shape. rewrite !price_le_cases. lia.
Qed.
Lemma price_le_antisym x y : usable_price x -> usable_price y ->
  price_le x y = true -> price_le y x = true -> x = y.
Proof.
  intros (m1 & e1 & ->)%usable_price_shape (m2 & e2 & ->)%usable_price_shape.
  rewrite !price_le_cases. intros. assert (m1 = m2 /\ e1 = e2) as [-> ->] by lia. done.
Qed.
Lemma sorted_prices_unique l1 l2 :
  Forall usable_price l1 -> l1 ≡ₚ l2 -> sort_by price_le l1 = sort_by price_le l2.
Proof.
  intros H1 Hp. assert (H2 : Forall usable_price l2) by by rewrite <- Hp.
  apply (StronglySorted_unique_strong (fun x y => price_le x y = true)).
  - intros x y Hx Hy. rewrite elem_of_sort_by in Hx, Hy. rewrite Forall_forall in H1, H2.
    apply price_le_antisym; auto.
  - by apply (sort_by_sorted_on usable_price); eauto using price_le_total, price_le_trans.
  - by apply (sort_by_sorted_on usable_price); eauto using price_le_total, price_le_trans.
  - by rewrite !sort_by_perm.
Qed.
Lemma median_perm l1 l2 :
  Forall usable_price l1 -> l1 ≡ₚ l2 -> compute_median l1 = compute_median l2.
Proof. intros H1 Hp. unfold compute_median. by rewrite (sorted_prices_unique l1 l2). Qed.

(** ** The market truth *)

Lemma positive_finite_usable x y : positive_finite x = Some y -> usable_price y.
Proof. intros Hx. pose proof Hx as Hy. apply positive_finite_Some in Hx as (-> & _ & _). exact Hy. Qed.
Lemma usable_values (l : list f64) : Forall usable_price (omap positive_finite l).
Proof.
  apply Forall_forall. intros y Hy. apply list_elem_of_omap in Hy as (x & _ & Hx).
  by eapply positive_finite_usable.
Qed.
Lemma usable_values_filter (l : list f64) :
  omap positive_finite l = filter (fun x => usable_price x) l.
Proof.
  induction l as [|x l IH]; simpl; [done|]. rewrite filter_cons.
  destruct (decide (usable_price x)) as [Hx|Hx]; [by rewrite Hx, <- IH|].
  destruct (positive_finite x) eqn:Hy; [|done].
  pose proof Hy as Hu. apply positive_finite_Some in Hu as (-> & _ & _). done.
Qed.
(** the number of prices of a map that are usable *)
Definition usable_count (source_prices : gmap string f64) : Z :=
  Z.of_nat (length (filter (fun x => usable_price x) (map_to_list source_prices).*2)).
Lemma values_perm `{HashOrder} (m : gmap string f64) :
  omap positive_finite (hash_values m) ≡ₚ omap positive_finite (map_to_list m).*2.
Proof. unfold hash_values. by rewrite hash_entries_perm. Qed.
Lemma median_None l : compute_median l = None <-> l = [].
Proof.
  unfold compute_median. rewrite <- (sort_by_nil_iff price_le l).
  pose proof (Nat.div2_odd (length (sort_by price_le l))) as Hodd.
  destruct (sort_by price_le l) as [|a l'] eqn:Hs; [done|]. rewrite <- Hs in *.
  assert (Hpos : (0 < length (sort_by price_le l))%nat) by (rewrite Hs; simpl; lia).
  split; [|by rewrite Hs]. rewrite <- Nat.negb_odd. destruct (Nat.odd _); simpl in *; intros Hm.
  - apply lookup_ge_None in Hm. lia.
  - destruct (lookup_lt_is_Some_2 (sort_by price_le l) (Nat.div2 (length (sort_by price_le l)) - 1)) as [b Hb];
      [lia|].
    destruct (lookup_lt_is_Some_2 (sort_by price_le l) (Nat.div2 (length (sort_by price_le l)))) as [c Hc];
      [lia|].
    by rewrite Hb, Hc in Hm.
Qed.
Lemma Nat2Z_odd n : Z.odd (Z.of_nat n) = Nat.odd n.
Proof.
  induction n as [|n IH]; [done|].
  by rewrite Nat2Z.inj_succ, Z.odd_succ, Nat.odd_succ, <- Z.negb_odd, IH, Nat.negb_odd.
Qed.
Lemma median_odd l x : Nat.odd (length l) = true -> compute_median l = Some x -> x ∈ l.
Proof.
  unfold compute_median. rewrite length_sort_by, <- Nat.negb_odd. intros ->. simpl.
  destruct (sort_by price_le l) as [|a l'] eqn:Hs; [done|]. intros Hx.
  apply (elem_of_sort_by price_le). rewrite Hs. by eapply list_elem_of_lookup_2.
Qed.

(** C32: the market truth is a function of the prices by source.  Two programs
    whose hash maps are read in different orders compute the same snapshot; there
    is none exactly when no price is finite and positive; its count is the number
    of usable prices, and when that is odd its median is one of them. *)
Theorem market_truth_order_free (o1 o2 : HashOrder) market_key source_prices :
  let r := @build_market_truth_snapshot o1 market_key source_prices in
  r = @build_market_truth_snapshot o2 market_key source_prices /\
  (r = None <-> usable_count source_prices = 0) /\
  match r with
  | None => True
  | Some s =>
      mt_market_key s = market_key /\ mt_source_count s = usable_count source_prices /\
      (Z.odd (mt_source_count s) = true ->
       exists source, source_prices !! source = Some (mt_median_price s) /\
                      usable_price (mt_median_price s))
  end.
Proof.
  unfold build_market_truth_snapshot, usable_count. rewrite <- usable_values_filter.
  change (fun price => positive_finite price) with positive_finite. cbv zeta.
  pose proof (@values_perm o1 source_prices) as H1. pose proof (@values_perm o2 source_prices) as H2.
  assert (H12 : omap positive_finite (@hash_values o1 _ _ _ _ source_prices)
                ≡ₚ omap positive_finite (@hash_values o2 _ _ _ _ source_prices)) by by rewrite H1, H2.
  rewrite <- (median_perm _ _ (usable_values _) H12), <- (Permutation_length H12).
  rewrite <- (Permutation_length H1). set (l := omap _ (@hash_values o1 _ _ _ _ _)) in *.
  destruct (compute_median l) as [x|] eqn:Hm; cbn [mbind option_bind].
  - assert (Hne : l <> []) by (intros Hl; by apply median_None in Hl; congruence).
    split_and!; [done| |done..|].
    + split; [done|]. destruct l; simpl; [done|lia].
    + cbn [mt_source_count mt_median_price]. intros Hodd. rewrite Nat2Z_odd in Hodd.
      apply median_odd in Hm; [|done]. unfold l in Hm.
      apply list_elem_of_omap in Hm as (y & Hy & Hx). pose proof Hx as Hu.
      apply positive_finite_usable in Hu. apply positive_finite_Some in Hx as (-> & _ & _).
      apply elem_of_hash_values in Hy as [k Hk]. by exists k.
  - apply median_None in Hm. rewrite Hm. by split_and!.
Qed.

(** ** Repeated quotes *)

Section quotes.
Context `{Chrono} `{SerdeJson} `{!FieldCodec} `{Unicode} `{Powi}.
Implicit Types (config : RuntimeStreamConfig) (p q : ParsedFeedEvent) (before after : list ParsedFeedEvent).

Definition no_quote_yet : RecentQuoteState :=
  {| last_price_bits := None; last_emitted_at_ms := None |}.
(** the price and time by which an event counts as a quote *)
Definition quote_at (p : ParsedFeedEvent) : option (f64 * Z) :=
  if bool_decide (pf_event_type p = "quote") then
    x ← usable (pf_price p); Some (x, timestamp_millis (pf_observed_at p))
  else None.
Definition state_after config before : RecentQuoteState :=
  foldl (fun s p => (should_skip_duplicate_quote config p s).1) no_quote_yet before.
(** whether [p] is skipped when it comes after [before] *)
Definition skipped config before p : bool :=
  (should_skip_duplicate_quote config p (state_after config before)).2.
(** [q] at [x], [ms] is the last quote of [before] that is not skipped *)
Definition last_emitted config before (x : f64) (ms : Z) : Prop :=
  exists l q after, before = l ++ q :: after /\ quote_at q = Some (x, ms) /\
    skipped config l q = false /\
    forall l' k after', after = l' ++ k :: after' -> is_Some (quote_at k) ->
      skipped config (l ++ q :: l') k = true.

Lemma state_after_snoc config before p :
  state_after config (before ++ [p]) =
  (should_skip_duplicate_quote config p (state_after config before)).1.
Proof. unfold state_after. by rewrite foldl_app. Qed.
Lemma skip_step config window_ms p s : duplicate_quote_window_ms config = Some window_ms ->
  should_skip_duplicate_quote config p s =
  match quote_at p with
  | None => (s, false)
  | Some (x, ms) =>
      if repeats window_ms x ms s then (s, true)
      else ({| last_price_bits := Some x; last_emitted_at_ms := Some ms |}, false)
  end.
Proof.
  intros Hw. unfold should_skip_duplicate_quote, quote_at. rewrite Hw.
  destruct (bool_decide _); simpl; [|done]. by destruct (usable _).
Qed.
Lemma last_emitted_snoc config window_ms before p x ms :
  duplicate_quote_window_ms config = Some window_ms ->
  last_emitted config (before ++ [p]) x ms <->
  (skipped config before p = false /\ quote_at p = Some (x, ms)) \/
  ((skipped config before p = true \/ quote_at p = None) /\ last_emitted config before x ms).
Proof.
  intros Hw. split.
  - intros (l & q & after & Hb & Hq & Hl & Hk). destruct after as [|k after _] using rev_ind.
    + apply app_inj_tail in Hb as [-> ->]. by left.
    + rewrite app_comm_cons, app_assoc in Hb. apply app_inj_tail in Hb as [-> ->]. right. split.
      * destruct (quote_at k) eqn:Hqk; [left|by right]. by apply (Hk after k []).
      * exists l, q, after. split_and!; try done. intros l' k' after' -> Hk'.
        apply (Hk l' k' (after' ++ [k])); [|done]. by rewrite <- app_assoc.
  - intros [[Hs Hq]|[Hs (l & q & after & -> & Hq & Hl & Hk)]].
    + exists before, p, []. split_and!; try done. by intros [].
    + exists l, q, (after ++ [p]). split_and!; try done.
      { by rewrite <- app_assoc. }
      intros l' k after' Ha Hsome. destruct after' as [|z after' _] using rev_ind.
      * apply app_inj_tail in Ha as [<- <-]. destruct Hs as [Hs|Hs]; [done|].
        rewrite Hs in Hsome. by destruct Hsome.
      * rewrite app_comm_cons, app_assoc in Ha. apply app_inj_tail in Ha as [-> _].
        by apply (Hk l' k after').
Qed.
Lemma state_is_last_emitted config window_ms before x ms :
  duplicate_quote_window_ms config = Some window_ms ->
  last_emitted config before x ms <->
  state_after config before = {| last_price_bits := Some x; last_emitted_at_ms := Some ms |}.
Proof.
  intros Hw. revert x ms. induction before as [|p before IH] using rev_ind; intros x ms.
  { split; [|done]. intros (l & q & after & Hb & _). by destruct l. }
  rewrite (last_emitted_snoc _ window_ms), state_after_snoc, IH by done. unfold skipped.
  rewrite (skip_step _ window_ms) by done.
  destruct (quote_at p) as [[y n]|]; [destruct (repeats _ _ _ _)|]; simpl;
    (split; [intros [[? ?]|[[?|?] ?]]|intros ?]); simplify_eq; auto; try done.
  all: left; by split.
Qed.

(** Which quotes are suppressed depends on the last quote let through only.
    When a window is configured, an event is skipped exactly when it is a quote
    with a usable price and the last quote that was not skipped has the same
    price, is not later, and is less than the window old, whatever market or
    pair either of them is for. *)
Theorem repeated_quotes_by_history config window_ms before p :
  duplicate_quote_window_ms config = Some window_ms ->
  skipped config before p = true <->
  exists x ms ms', quote_at p = Some (x, ms) /\ last_emitted config before x ms' /\
    ms' <= ms < ms' + default i64_max (i64_of window_ms).
Proof.
  intros Hw. unfold skipped. rewrite (skip_step _ window_ms) by done. split.
  - destruct (quote_at p) as [[x ms]|]; [|done]. destruct (repeats _ _ _ _) eqn:Hr; [intros _|done].
    unfold repeats, within_window in Hr. destruct (state_after _ _) as [[y|] [ms'|]] eqn:Hs; try done.
    simpl in Hr. case_match eqn:Hc; [|done]. bools. simplify_eq. eexists _, ms, ms'. split; [done|].
    split; [by apply (state_is_last_emitted _ window_ms)|lia].
  - intros (x & ms & ms' & -> & Hl & Hms). apply (state_is_last_emitted _ window_ms) in Hl; [|done].
    rewrite Hl. unfold repeats, within_window. simpl. rewrite bool_decide_eq_true_2 by done.
    rewrite (proj2 (Z.leb_le ms' ms)) by lia. rewrite (proj2 (Z.ltb_lt (ms - ms') _)) by lia. done.
Qed.
End quotes.

(** ** Market keys *)

Section keys.
Context `{Chrono} `{SerdeJson} `{!FieldCodec} `{Unicode} `{Powi}.
Implicit Types (config : RuntimeStreamConfig) (p : ParsedFeedEvent) (m : FieldMapping).

Lemma mapped_market_key ms payload cfg m raw :
  NoDup (canonical_field <$> ms) -> m ∈ ms -> canonical_field m = MarketKey ->
  eval_jsonpath payload (source_field m) = Some raw ->
  mf_market_key (apply_mappings ms payload cfg) = Some (market_key_from_mapping raw m).
Proof.
  intros Hnd Hin Hc Hraw. unfold apply_mappings. set (d := mapping_decimals cfg).
  induction ms as [|k ms IH] using rev_ind; [by apply elem_of_nil in Hin|].
  rewrite fmap_app in Hnd. apply NoDup_app in Hnd as (Hnd & Hdis & _).
  rewrite foldl_snoc, market_key_step. unfold field_source. apply elem_of_app in Hin as [Hin|Hin].
  - assert (Hk : canonical_field k <> MarketKey).
    { intros Hk. apply (Hdis MarketKey); [rewrite <- Hc; by apply list_elem_of_fmap_2|].
      rewrite <- Hk. by apply list_elem_of_singleton. }
    rewrite bool_decide_eq_false_2 by done. by apply IH.
  - apply list_elem_of_singleton in Hin as <-. by rewrite Hc, bool_decide_eq_true_2, Hraw.
Qed.
Lemma default_fields_distinct parser : NoDup (canonical_field <$> default_mappings_for_parser parser).
Proof.
  pose proof (default_mappings_effective parser) as Ht. unfold table_ok in Ht.
  apply andb_true_iff in Ht as [_ Ht]. by apply bool_decide_eq_true in Ht.
Qed.
Lemma inverted_market_key config p :
  pf_market_key (apply_inverted_price_override config p) = pf_market_key p.
Proof. unfold apply_inverted_price_override. cbv zeta. by repeat case_match. Qed.
Lemma overridden_market_key config hints payload p :
  exists p', pf_market_key (overridden config hints payload p) =
    pf_market_key (apply_runtime_field_mapping_overrides config payload p').
Proof.
  unfold overridden, apply_accelerated_simulation_timestamp. eexists.
  destruct (accelerated_simulation_timestamp _ _); simpl; apply inverted_market_key.
Qed.

(** The built-in mapping of a ticker decides its market, whatever the parser
    read and the stream is configured for.  For a stream without field mappings of
    its own, of a parser whose defaults take the market from a symbol: when the
    mapping does not know the symbol, that is for every pair other than USDC, USDT
    and DAI in dollars that is not written with a slash, the market key of the
    event is the symbol itself. *)
Theorem default_mapping_replaces_market_key config hints payload p m sym :
  vget "field_mappings" (rc_filter_config config) = None ->
  m ∈ default_mappings_for_parser (rc_parser_name config) ->
  canonical_field m = MarketKey -> transform m = SymbolToMarketKey ->
  eval_jsonpath payload (source_field m) = Some (VString sym) ->
  FieldMapping.symbol_to_market_key sym = None -> trim sym <> EmptyString ->
  pf_market_key (overridden config hints payload p) = Some (trim sym).
Proof.
  intros Hown Hm Hc Ht Hsym Hunknown Hne.
  destruct (overridden_market_key config hints payload p) as [p' ->].
  unfold apply_runtime_field_mapping_overrides, resolve_field_mappings. simpl. rewrite Hown. simpl.
  pose proof (mapped_market_key _ payload (Some (rc_filter_config config)) m _
    (default_fields_distinct _) Hm Hc Hsym) as Hk.
  destruct (default_mappings_for_parser _) as [|m0 ms]; [by apply elem_of_nil in Hm|].
  rewrite Hk. unfold market_key_from_mapping. rewrite Ht, as_str_VString.
  cbn [default from_option id]. rewrite Hunknown. unfold trimmed_nonempty. cbn [default from_option id].
  destruct (trim sym) as [|c r] eqn:Htrim; [done|]. cbn [is_empty]. by repeat case_match.
Qed.
End keys.
