(* ===== verification/WorkerExamples.v ===== *)
(** * The indexer on concrete runs

    Instances of the interfaces, a stream of an exchange with two tenants, runs
    of a worker and of the supervisor, the witnesses of the theorems. *)
From Stdlib Require Import Ascii.
From S2P Require Import Prelude F64 Text Numbers Ports EventSchema FieldMapping Hex StreamParser TickerParsers ChainParsers ProtocolParsers StreamExamples AlertIO IngestStore WorkerConfig StreamWorker WorkerIO WorkerProofs IngestProofs WorkerLoop StreamSupervisor ShapingProofs.

Section examples.
#[local] Existing Instance chrono_Z.
#[local] Existing Instance serde_json_tree.
#[local] Existing Instance field_codec_json.
#[local] Existing Instance powi_squaring.
#[local] Existing Instance unicode_ascii.
#[local] Existing Instance u256_Z.
#[local] Existing Instance canonical_order.
(** an injective digest, a fixed day, an empty environment *)
#[local] Instance sha_text : Sha256 := {| sha256_hex := fun s => s |}.
#[local] Instance one_day : Dates := {| date_naive := fun _ => "2027-01-15" |}.
#[local] Instance empty_environment : ProcessEnv := {| env_var := fun _ => None |}.
#[local] Instance plain_urls : Urls :=
  {| Url := string; url_parse := fun s => Some s; host_str := fun _ => None;
     url_path := fun s => s; query_pairs := fun _ => [] |}.
(** one interaction a second; nothing fails *)
#[local] Instance quiet_ingest : IngestEnv :=
  {| ie_clock := fun n => sec (1800000000 + Z.of_nat n); ie_instant := fun n => Z.of_nat n * 1000000000;
     ie_uuid := fun n => "id-" +:+ fmt_Z (Z.of_nat n); ie_sql_error := fun _ => None;
     ie_raw := fun _ => RawDone; ie_redis_error := fun _ => None |}.
#[local] Instance quiet_supervisor : SupervisorEnv :=
  {| sp_sql_error := fun _ => None; sp_now := fun n => sec (1800000000 + Z.of_nat n);
     sp_collate := String.compare |}.

Definition empty_tables : IngestTables :=
  {| operational := []; source_health := ∅; chain_events := ∅; dex_events := ∅; cex_ticks := ∅;
     ingest_failures := []; stream_configs := []; data_sources := ∅; tenant_targets_table := [] |}.
Definition nothing : Shared :=
  {| sh_step := 0; sh_tables := empty_tables; unified_events := []; deferred := [] |}.
Definition idle : WorkerState := {| shared := nothing; local := local_default |}.

(** ** A stream of Binance tickers for two tenants *)
Definition binance : RuntimeStreamConfig :=
  {| rc_stream_config_id := "s1"; rc_source_id := "binance"; rc_source_type := "cex_websocket";
     rc_source_name := "Binance"; rc_source_scope_kind := "platform"; rc_owner_tenant_id := None;
     rc_connection_config := VObj [("ws_endpoint", JString "wss://stream.binance.com")];
     rc_operating_mode_profile := "live"; rc_auth_secret_ref := None; rc_auth_config := VObj [];
     rc_connector_mode := "websocket"; rc_stream_name := "ticker"; rc_subscription_key := None;
     rc_event_type := "market_ticker"; rc_parser_name := "binance_miniticker_v1";
     rc_market_key := None; rc_asset_pair := None; rc_filter_config := VObj [];
     rc_payload_ts_path := None; rc_payload_ts_unit := "ms"; rc_poll_interval_ms := None;
     rc_tenant_targets := ["acme"; "globex"] |}.
Definition no_hints : Hints := {| chain_id_hint := None; simulation_run_id_hint := None |}.
Definition ticker (symbol price : string) (at_ms : Z) : Value :=
  VObj [("s", JString symbol); ("c", JString price); ("E", JInt at_ms)].
Definition usdc (price : string) (at_ms : Z) : Value := ticker "USDCUSDT" price at_ms.
Definition job (p : Value) : Job :=
  {| jb_config := binance; jb_raw_repo := true; jb_hints := no_hints; jb_payload := p;
     jb_local := local_default |}.
(** a reading, the same once more, the next one *)
Definition readings : list Job :=
  [job (usdc "0.9998" 1800000000000); job (usdc "0.9998" 1800000000000);
   job (usdc "0.9997" 1800000001000)].
Definition after_readings : Shared := run_jobs readings nothing.
Lemma distinct_tenants : NoDup ["acme"; "globex"].
Proof. apply (bool_decide_eq_true_1 _). vm_compute. reflexivity. Qed.
Lemma published_once_witness :
  length (unified_events after_readings) = 4%nat /\
  NoDup (published_key <$> unified_events after_readings) /\
  Forall (fun e => exists row, row ∈ operational (sh_tables after_readings) /\ describes row.1 e)
    (unified_events after_readings).
Proof.
  split; [vm_compute; reflexivity|].
  apply (published_once readings nothing); [|reflexivity].
  repeat (apply Forall_cons; split; [exact distinct_tenants|]). by apply Forall_nil.
Defined.

Definition first_run := process_payload binance true no_hints (usdc "0.9998" 1800000000000) idle.
Lemma first_runs :
  process_payload binance true no_hints (usdc "0.9998" 1800000000000) idle = (first_run.1, first_run.2).
Proof. unfold first_run. apply surjective_pairing. Qed.
Lemma several_tenants_one_row_witness :
  length (published first_run.1) = 2%nat /\
  exists l es, rows first_run.1 = rows idle ++ l /\ published first_run.1 = published idle ++ es /\
    (length l <= 1)%nat /\ Forall (fun row => oe_tenant_id row.1 = Some "acme") l /\
    (first_run.2 = Ret () -> es <> [] -> tenant_id <$> es = ["acme"; "globex"]).
Proof.
  split; [vm_compute; reflexivity|].
  exact (several_tenants_one_row binance true no_hints (usdc "0.9998" 1800000000000) idle
           first_run.1 first_run.2 "acme" "globex" [] eq_refl first_runs).
Defined.

(** *** Quotes in USDT *)
Definition parsed_of (p : Value) : ParsedFeedEvent :=
  outcome_or blank_event (parse_payload (ie_clock 0) (parser_input binance) p).
Definition usdc_event : ParsedFeedEvent := parsed_of (usdc "0.9998" 1800000000000).
Lemma usdc_parses :
  is_return (parse_payload (ie_clock 0) (parser_input binance) (usdc "0.9998" 1800000000000)) = true.
Proof. vm_compute. reflexivity. Qed.
Definition usdc_price : f64 := f64_lit 9998 10000.
Lemma usdt_quote_in_dollars_witness :
  (pf_price usdc_event, pf_market_key usdc_event) = (Some usdc_price, Some "USDC/USD") /\
  let p := overridden binance no_hints (usdc "0.9998" 1800000000000) usdc_event in
  let rate_is := rate_for idle (clock_after idle 1) (clock_after idle 2) p in
  exists l es, rows first_run.1 = rows idle ++ l /\ published first_run.1 = published idle ++ es /\
    (l = [] /\ es = [] \/
     (exists rate, rate_is (Some rate) /\
        Forall (fun row => oe_price row.1 = Some (f64_mul usdc_price rate)) l /\
        Forall (fun e => price e = Some (f64_mul usdc_price rate)) es) \/
     rate_is None /\ es = [] /\
        Forall (fun row => oe_price row.1 = None /\ oe_parse_status row.1 = "partial") l).
Proof.
  split; [vm_compute; reflexivity|].
  apply (usdt_quote_in_dollars binance true no_hints (usdc "0.9998" 1800000000000) usdc_event usdc_price
           idle first_run.1 first_run.2).
  - exact (ret_or blank_event _ usdc_parses).
  - vm_compute. reflexivity.
  - vm_compute. reflexivity.
  - exact first_runs.
Defined.

(** *** A pair the built-in mapping does not know *)
Definition btc : Value := ticker "BTCUSDT" "63000" 1800000000000.
Definition btc_event : ParsedFeedEvent := parsed_of btc.
Lemma default_mapping_replaces_market_key_witness :
  pf_market_key btc_event = Some "BTC/USD" /\
  pf_market_key (overridden binance no_hints btc btc_event) = Some "BTCUSDT".
Proof.
  split; [vm_compute; reflexivity|].
  apply (default_mapping_replaces_market_key binance no_hints btc btc_event
           (fm "$.s" MarketKey SymbolToMarketKey "Symbol → market key") "BTCUSDT").
  - vm_compute. reflexivity.
  - apply elem_of_cons. right. apply elem_of_cons. by left.
  - reflexivity.
  - reflexivity.
  - vm_compute. reflexivity.
  - vm_compute. reflexivity.
  - vm_compute. discriminate.
Defined.
(** so, without a rate in the table, the quote is stored without a price and
    not published, although its market is against dollars *)
Definition btc_run := process_payload binance true no_hints btc idle.
Example btc_is_not_published :
  (is_return btc_run.2, length (published btc_run.1),
   (fun row => (oe_parse_status row.1, oe_price row.1)) <$> rows btc_run.1) =
  (true, 0%nat, [("partial", None)]).
Proof. vm_compute. reflexivity. Qed.

(** *** An identifier that is taken *)
(** Coinbase numbers the messages of a connection from zero; the number is the
    identifier of the event, so the first message of the next connection is lost *)
Definition coinbase : RuntimeStreamConfig :=
  {| rc_stream_config_id := "s2"; rc_source_id := "coinbase"; rc_source_type := "cex_websocket";
     rc_source_name := "Coinbase"; rc_source_scope_kind := "platform"; rc_owner_tenant_id := None;
     rc_connection_config := VObj [("ws_endpoint", JString "wss://ws.coinbase.com")];
     rc_operating_mode_profile := "live"; rc_auth_secret_ref := None; rc_auth_config := VObj [];
     rc_connector_mode := "websocket"; rc_stream_name := "ticker"; rc_subscription_key := None;
     rc_event_type := "market_ticker"; rc_parser_name := "coinbase_ticker_v1";
     rc_market_key := None; rc_asset_pair := None; rc_filter_config := VObj [];
     rc_payload_ts_path := None; rc_payload_ts_unit := "ms"; rc_poll_interval_ms := None;
     rc_tenant_targets := ["acme"] |}.
Definition message (number : Z) (price : string) : Value :=
  VObj [("product_id", JString "USDC-USD"); ("price", JString price); ("sequence_num", JInt number)].
Definition connected : WorkerState :=
  (process_payload coinbase true no_hints (message 0 "0.9998") idle).1.
Definition reconnected := process_payload coinbase true no_hints (message 0 "0.91") connected.
Definition message_parsed :=
  parse_payload (ie_clock (sh_step (shared connected))) (parser_input coinbase) (message 0 "0.91").
Definition message_event : ParsedFeedEvent := outcome_or blank_event message_parsed.
Lemma message_parses : is_return message_parsed = true.
Proof. vm_compute. reflexivity. Qed.
Lemma zero_is_taken : existsb (fun row => bool_decide (oe_event_id row.1 = Some "0")) (rows connected) = true.
Proof. vm_compute. reflexivity. Qed.
Lemma taken_event_id_is_lost_witness :
  (length (rows connected) = 1%nat /\ is_return reconnected.2 = true) /\
  rows reconnected.1 = rows connected /\ published reconnected.1 = published connected.
Proof.
  split; [vm_compute; split; reflexivity|].
  apply (taken_event_id_is_lost coinbase true no_hints (message 0 "0.91") message_event
           connected reconnected.1 reconnected.2 "0").
  - exact (ret_or blank_event _ message_parses).
  - vm_compute. reflexivity.
  - apply Exists_exists. pose proof zero_is_taken as Ht. apply existsb_exists in Ht as (row & Hin & Hrow).
    exists row. split; [by apply list_elem_of_In|]. by apply bool_decide_eq_true in Hrow.
  - exact (surjective_pairing reconnected).
Defined.

(** *** Reconnects *)
(** the connection is refused six times, then the worker is stopped *)
Definition refused : Attempt :=
  {| at_before := false; at_open := Err "connection refused"; at_selects := []; at_polls := [];
     at_after := false; at_stop := false |}.
Definition refused_and_stopped : Attempt :=
  {| at_before := false; at_open := Err "connection refused"; at_selects := []; at_polls := [];
     at_after := false; at_stop := true |}.
Definition outage : list Attempt := repeat refused 6 ++ [refused_and_stopped].
Definition through_outage := run_stream_worker coinbase true INITIAL_BACKOFF outage idle.
Lemma outage_runs :
  run_stream_worker coinbase true INITIAL_BACKOFF outage idle = (through_outage.1, through_outage.2).
Proof. unfold through_outage. apply surjective_pairing. Qed.
Lemma worker_reconnects_witness :
  waits (local through_outage.1) = [1; 2; 4; 8; 16; 30; 30] /\
  exists n,
    waits (local through_outage.1) = waits (local idle) ++ ((fun i => Z.min (2 ^ Z.of_nat i) 30) <$> seq 0 n) /\
    Forall (lost coinbase true) (take n outage) /\
    worker_end coinbase true outage n through_outage.2.
Proof.
  split; [vm_compute; reflexivity|].
  exact (worker_reconnects coinbase true outage idle through_outage.1 through_outage.2
           outage_runs).
Defined.

(** *** The supervisor *)
Definition catalogue_row (id : string) (filter_config : Value) : StreamConfigRow :=
  {| scr_config :=
       {| sc_stream_config_id := id; sc_source_id := "coinbase"; sc_source_type := "cex_websocket";
          sc_source_name := "Coinbase"; sc_source_scope_kind := "platform"; sc_owner_tenant_id := None;
          sc_connection_config := VObj []; sc_connector_mode := "websocket";
          sc_operating_mode_profile := "live"; sc_stream_name := id; sc_subscription_key := None;
          sc_event_type := "market_ticker"; sc_parser_name := "coinbase_ticker_v1";
          sc_market_key := None; sc_asset_pair := None; sc_filter_config := filter_config;
          sc_auth_secret_ref := None; sc_auth_config := VObj []; sc_payload_ts_path := None;
          sc_payload_ts_unit := "ms"; sc_poll_interval_ms := None |};
     scr_enabled := true; scr_connection_config_override := None |}.
Definition coinbase_source : DataSourceRow :=
  {| ds_source_type := "cex_websocket"; ds_source_name := "Coinbase"; ds_scope_kind := Some "platform";
     ds_scope := "platform"; ds_owner_tenant_id := None; ds_connection_config := VObj [];
     ds_enabled := true |}.
Definition catalogue_of (configs : list StreamConfigRow) : IngestTables :=
  {| operational := []; source_health := ∅; chain_events := ∅; dex_events := ∅; cex_ticks := ∅;
     ingest_failures := []; stream_configs := configs;
     data_sources :=
       {[ "coinbase" := coinbase_source ]};
     tenant_targets_table :=
       (fun id => {| tt_stream_config_id := id; tt_tenant_id := "acme"; tt_enabled := true |})
         <$> ["s2"; "s3"] |}.
Definition two_streams : IngestTables := catalogue_of [catalogue_row "s2" (VObj []); catalogue_row "s3" (VObj [])].
(** a stream is removed and another one changed *)
Definition one_changed : IngestTables := catalogue_of [catalogue_row "s3" (VObj [("invert_price", VBool true)])].
Definition days_work : list ((IngestTables -> IngestTables) * SupervisorInput) :=
  [ (id, Notify (Some Connected)); (id, TaskEnds 0); (fun _ => one_changed, Notify (Some ChangedConfig));
    (id, ReconcileTick); (id, Notify None); (id, PurgeTick) ].
Definition after_day := run_stream_supervisor true true true 86400 days_work (supervisor_start two_streams).
Lemma one_worker_per_stream_witness :
  (length (tasks after_day.1) = 3%nat /\ size (workers after_day.1) = 1%nat /\
   reconcile_every after_day.1 = 30) /\
  (forall i t, tasks after_day.1 !! i = Some t -> task_state t = TaskRunning ->
     exists h, workers after_day.1 !! rc_stream_config_id (task_config t) = Some h /\ task h = i) /\
  (forall i j ti tj, tasks after_day.1 !! i = Some ti -> tasks after_day.1 !! j = Some tj ->
     task_state ti = TaskRunning -> task_state tj = TaskRunning ->
     rc_stream_config_id (task_config ti) = rc_stream_config_id (task_config tj) -> i = j) /\
  (forall id h, workers after_day.1 !! id = Some h -> exists t, tasks after_day.1 !! task h = Some t /\
     rc_stream_config_id (task_config t) = id /\ config_hash h = hash_runtime_config (task_config t)).
Proof.
  split; [vm_compute; split_and!; reflexivity|].
  exact (one_worker_per_stream true true true 86400 days_work two_streams after_day.1 after_day.2
           (surjective_pairing after_day)).
Defined.
Definition started := reconcile true (supervisor_start two_streams).
Lemma reconcile_converges_witness :
  size (workers started.1) = 2%nat /\
  exists s', reconcile true (supervisor_start two_streams) = (s', Ret ()) /\
    config_hash <$> workers s' =
    foldl (fun m cfg => <[rc_stream_config_id cfg := hash_runtime_config cfg]> m) ∅
      (desired_configs true two_streams).
Proof.
  split; [vm_compute; reflexivity|].
  exact (reconcile_converges true (supervisor_start two_streams) (fun _ => eq_refl)).
Defined.
(** the worker of the first stream has ended; nothing in the catalogue changed *)
Definition ended_worker : Supervisor :=
  (run_stream_supervisor true true true 86400 [(id, TaskEnds 0)] (supervisor_start two_streams)).1.
Lemma ended_worker_consistent : consistent ended_worker.
Proof.
  apply (run_consistent true true true 86400 [(id, TaskEnds 0)] two_streams ended_worker
    (run_stream_supervisor true true true 86400 [(id, TaskEnds 0)] (supervisor_start two_streams)).2).
  apply surjective_pairing.
Qed.
Definition first_config : RuntimeStreamConfig :=
  to_runtime_config (effective_config (catalogue_row "s2" (VObj [])) coinbase_source) ["acme"].
Definition first_handle : WorkerHandle :=
  {| config_hash := hash_runtime_config first_config; task := 0 |}.
Definition next_reconcile := reconcile true ended_worker.
Lemma catalogue_asks : desired_configs true (sp_tables ended_worker) !! O = Some first_config.
Proof. vm_cast_no_check (eq_refl (Some first_config)). Qed.
Lemma reconcile_returns : is_return next_reconcile.2 = true.
Proof. vm_compute. reflexivity. Qed.
Lemma next_reconciles : reconcile true ended_worker = (next_reconcile.1, Ret ()).
Proof.
  pose proof reconcile_returns as Hr. unfold next_reconcile in *.
  destruct (reconcile true ended_worker) as [s [[]| |]]; [done|discriminate Hr..].
Qed.
Lemma unchanged_worker_untouched_witness :
  option_map (fun t => match task_state t with TaskEnded => true | TaskRunning => false end)
    (tasks ended_worker !! O) = Some true /\
  workers next_reconcile.1 !! "s2" = Some first_handle /\
  tasks next_reconcile.1 !! O = tasks ended_worker !! O.
Proof.
  split; [vm_compute; reflexivity|].
  apply (unchanged_worker_untouched true ended_worker next_reconcile.1 "s2" first_handle first_config).
  - exact (fun _ => eq_refl).
  - exact ended_worker_consistent.
  - apply (bool_decide_eq_true_1 _). vm_compute. reflexivity.
  - vm_compute. reflexivity.
  - exact (list_elem_of_lookup_2 _ _ _ catalogue_asks).
  - reflexivity.
  - reflexivity.
  - exact next_reconciles.
Defined.

(** *** Repeated quotes *)
Definition gemini : RuntimeStreamConfig :=
  {| rc_stream_config_id := "s4"; rc_source_id := "gemini"; rc_source_type := "cex_websocket";
     rc_source_name := "Gemini"; rc_source_scope_kind := "platform"; rc_owner_tenant_id := None;
     rc_connection_config := VObj []; rc_operating_mode_profile := "live"; rc_auth_secret_ref := None;
     rc_auth_config := VObj []; rc_connector_mode := "websocket"; rc_stream_name := "ticker";
     rc_subscription_key := None; rc_event_type := "quote"; rc_parser_name := "gemini_marketdata_v1";
     rc_market_key := None; rc_asset_pair := None; rc_filter_config := VObj [];
     rc_payload_ts_path := None; rc_payload_ts_unit := "ms"; rc_poll_interval_ms := None;
     rc_tenant_targets := ["acme"] |}.
Definition gemini_quote (market : string) (price : f64) (at_ms : Z) : ParsedFeedEvent :=
  {| pf_event_type := "quote"; pf_event_id := None; pf_market_key := Some market; pf_asset_pair := None;
     pf_price := Some price; pf_chain_id := None; pf_block_number := None; pf_tx_hash := None;
     pf_log_index := None; pf_topic0 := None; pf_payload_event_ts := None;
     pf_observed_at := at_ns (at_ms * 1000000); pf_normalized_fields := VNull |}.
Definition quotes_before : list ParsedFeedEvent :=
  [gemini_quote "USDC/USD" f64_one 1000; gemini_quote "USDC/USD" f64_one 1200].
(** a quote of another market, with the same price, is suppressed *)
Definition other_market : ParsedFeedEvent := gemini_quote "DAI/USD" f64_one 1249.
Lemma repeated_quotes_by_history_witness :
  skipped gemini quotes_before other_market = true /\
  (skipped gemini quotes_before other_market = true <->
   exists x ms ms', quote_at other_market = Some (x, ms) /\ last_emitted gemini quotes_before x ms' /\
     ms' <= ms < ms' + default i64_max (i64_of 250)).
Proof.
  split; [vm_compute; reflexivity|].
  apply (repeated_quotes_by_history gemini 250 quotes_before other_market). vm_compute. reflexivity.
Defined.

(** *** A credential under its second name *)
Definition template : string := "https://eth.example.com/v2/YOUR_ALCHEMY_KEY".
(** the error names [api_key], but a credential that has it and no
    [alchemy_api_key] is not used *)
Example api_key_not_used :
  resolve_endpoint_template template (VObj [("api_key", JString "k")]) None = Err alchemy_error /\
  resolve_endpoint_template template
    (VObj [("alchemy_api_key", JString " "); ("api_key", JString "k")]) None =
    Ret "https://eth.example.com/v2/k".
Proof. split; vm_compute; reflexivity. Qed.
(** a brace before a placeholder hides it: the endpoint counts as resolved *)
Example placeholder_hidden :
  resolve_endpoint_template "https://h.example.com/{ {api_key}" (VObj []) None =
    Ret "https://h.example.com/{ {api_key}".
Proof. vm_compute. reflexivity. Qed.
End examples.
