(* ===== verification/JsonLaws.v ===== *)
(** * Reading back documents the code has written

    The entries of an object literal, and scalar values read as what they were
    made of. *)
From S2P Require Import Prelude F64 Text Ports FieldMapping.

(** scalar values of [serde_json] are read as what they were made of; a number
    that is not finite becomes [null] *)
Class JsonScalars `{SerdeJson} := {
  as_f64_VFloat : forall x, as_f64 (VFloat x) = if is_finite x then Some x else None;
  as_str_VFloat : forall x, as_str (VFloat x) = None;
  as_f64_VNull : as_f64 VNull = None;
  as_str_VNull : as_str VNull = None;
  as_f64_VString : forall s, as_f64 (VString s) = None;
  as_i64_VString : forall s, as_i64 (VString s) = None;
  as_i64_VInt : forall z, i64_min <= z <= i64_max -> as_i64 (VInt z) = Some z
}.

(** the entry of a list of entries *)
Fixpoint entry {A} (k : string) (l : list (string * A)) : option A :=
  match l with
  | [] => None
  | (k', v) :: l => if bool_decide (k' = k) then Some v else entry k l
  end.
Section laws.
Context `{SerdeJson}.
Lemma vget_VObj k l : vget k (VObj l) = entry k l.
Proof.
  unfold vget, VObj. rewrite as_object_VObject. cbn [mbind option_bind].
  induction l as [|[k' v] l IH]; [done|]. simpl. case_bool_decide as Hk.
  - subst k'. by rewrite lookup_insert_eq.
  - by rewrite lookup_insert_ne.
Qed.
Lemma get_str_VObj k l : get_str k (VObj l) = entry k l ≫= as_str.
Proof. unfold get_str. by rewrite vget_VObj. Qed.
Lemma as_str_VOpt `{!JsonScalars} (o : option string) : as_str (VOpt VString o) = o.
Proof. destruct o; simpl; [apply as_str_VString|apply as_str_VNull]. Qed.
End laws.

Lemma nonfinite_mul x y : is_finite x = false -> is_finite (f64_mul x y) = false.
Proof. by destruct x, y. Qed.
Lemma positive_finite_nonfinite x : is_finite x = false -> positive_finite x = None.
Proof. unfold positive_finite. by intros ->. Qed.
