(* ===== verification/SseConnector.v ===== *)
(** * The server-sent-events connector
    ([apps/indexer/src/stream_connector/http_sse.rs])

    Bytes come in chunks of any size; lines are cut from a buffer, decoded, and
    collected into events.  What the connection answers is a list of reads; a
    [serde_json] document is read by the interface [JsonText].  The theorem: the
    payloads do not depend on how the bytes are cut into chunks.

    The payloads of a connection are those of its text, read line by line, and
    do not depend on the chunks the bytes arrive in. *)
From Stdlib Require Import Ascii.
From S2P Require Import Prelude F64 Text Ports FieldMapping Hex WorkerConfig.

(** [serde_json::from_str] *)
Class JsonText `{SerdeJson} := { from_str : string -> option Value }.

(** ** [String::from_utf8_lossy] *)

(** the ranges of the bytes that must follow a first byte *)
Definition utf8_need (n : Z) : option (list (Z * Z)) :=
  let within lo hi := (lo <=? n) && (n <=? hi) in
  let tail := (128, 191) in
  if n <? 128 then Some []
  else if within 194 223 then Some [tail]
  else if n =? 224 then Some [(160, 191); tail]
  else if within 225 236 || within 238 239 then Some [tail; tail]
  else if n =? 237 then Some [(128, 159); tail]
  else if n =? 240 then Some [(144, 191); tail; tail]
  else if within 241 243 then Some [tail; tail; tail]
  else if n =? 244 then Some [(128, 143); tail; tail]
  else None.
Definition byte_in (c : ascii) (range : Z * Z) : bool :=
  let n := Z.of_nat (nat_of_ascii c) in (fst range <=? n) && (n <=? snd range).
Definition one_char (c : ascii) : string := String c EmptyString.
(** U+FFFD *)
Definition REPLACEMENT : string := String.string_of_list_ascii (ascii_of_nat <$> [239; 191; 189]%nat).
(** [held] is the beginning of a sequence that still needs [need]; a sequence
    that breaks off is replaced by one character *)
Fixpoint lossy_from (held : string) (need : list (Z * Z)) (s : string) : string :=
  match s with
  | EmptyString => if bool_decide (need = []) then EmptyString else REPLACEMENT
  | String c s =>
      let begin :=
        match utf8_need (Z.of_nat (nat_of_ascii c)) with
        | Some [] => String c (lossy_from EmptyString [] s)
        | Some need => lossy_from (one_char c) need s
        | None => REPLACEMENT +:+ lossy_from EmptyString [] s
        end in
      match need with
      | [] => begin
      | range :: need =>
          if byte_in c range then
            match need with
            | [] => held +:+ String c (lossy_from EmptyString [] s)
            | _ => lossy_from (held +:+ one_char c) need s
            end
          else REPLACEMENT +:+ begin
      end
  end.
Definition from_utf8_lossy (s : string) : string := lossy_from EmptyString [] s.

(** ** The connector *)

Section sse.
Context `{!SerdeJson} `{!JsonText}.

Record HttpSseConnector := {
  sse_endpoint : string;
  sse_connected : bool;
  line_buffer : string;
  pending_data_lines : list string
}.
(** what the request of [connect] comes to *)
Inductive HttpAnswer := Accepted | RequestFailed | BadStatus.
(** what a read within a second comes to *)
Inductive Read := Chunk (bytes : string) | TimedOut | ReadFailed | Ended.

Definition sse_new (endpoint : string) : HttpSseConnector :=
  {| sse_endpoint := endpoint; sse_connected := false; line_buffer := ""; pending_data_lines := [] |}.
Definition sse_connect (answer : HttpAnswer) (c : HttpSseConnector) : HttpSseConnector * outcome unit :=
  match answer with
  | RequestFailed => (c, Err ("http_sse request failed for " +:+ sse_endpoint c))
  | BadStatus => (c, Err ("http_sse returned non-success status for " +:+ sse_endpoint c))
  | Accepted =>
      ({| sse_endpoint := sse_endpoint c; sse_connected := true; line_buffer := "";
          pending_data_lines := [] |}, Ret ())
  end.
Definition buffered (buffer : string) (pending : list string) (c : HttpSseConnector)
  : HttpSseConnector :=
  {| sse_endpoint := sse_endpoint c; sse_connected := sse_connected c; line_buffer := buffer;
     pending_data_lines := pending |}.
Definition newline : ascii := "010"%char.
Definition carriage_return : ascii := "013"%char.
Definition next_line (buffer : string) : option (string * string) :=
  '(line, rest) ← split_once newline buffer; Some (from_utf8_lossy line, rest).
(** what a line does to the data lines held: an event, or the lines held next *)
Definition take_line (line : string) (pending : list string) : string + list string :=
  let line := trim_end_matches carriage_return line in
  if is_empty line then
    match pending with [] => inr [] | _ => inl (join (one_char newline) pending) end
  else if starts_with line ":" then inr pending
  else match strip_prefix "data:" line with
       | Some data => inr (pending ++ [trim_start data])
       | None => inr pending
       end.
Definition invalid_json (raw_event : string) : string := "invalid http_sse JSON payload: " +:+ raw_event.
(** every round takes at least the newline from the buffer *)
Fixpoint parse_buffered (fuel : nat) (buffer : string) (pending : list string)
  : (string * list string) * outcome (option Value) :=
  match fuel with
  | O => ((buffer, pending), Ret None)
  | S fuel =>
      match next_line buffer with
      | None => ((buffer, pending), Ret None)
      | Some (line, buffer) =>
          match take_line line pending with
          | inr pending => parse_buffered fuel buffer pending
          | inl raw_event =>
              ((buffer, []), match from_str raw_event with
                             | Some payload => Ret (Some payload)
                             | None => Err (invalid_json raw_event)
                             end)
          end
      end
  end.
Definition try_parse_buffered_event (c : HttpSseConnector)
  : HttpSseConnector * outcome (option Value) :=
  let '((buffer, pending), o) :=
    parse_buffered (String.length (line_buffer c)) (line_buffer c) (pending_data_lines c) in
  (buffered buffer pending c, o).
(** the reads left, and the answer; [None]: the reads ran out *)
Fixpoint next_payload (reads : list Read) (c : HttpSseConnector)
  : (HttpSseConnector * list Read) * option (outcome Value) :=
  match try_parse_buffered_event c with
  | (c, Ret (Some payload)) => ((c, reads), Some (Ret payload))
  | (c, Err e) => ((c, reads), Some (Err e))
  | (c, Panic) => ((c, reads), Some Panic)
  | (c, Ret None) =>
      if negb (sse_connected c) then ((c, reads), Some (Err "http_sse stream is not connected"))
      else match reads with
           | [] => ((c, []), None)
           | TimedOut :: reads => next_payload reads c
           | ReadFailed :: reads => ((c, reads), Some (Err ("http_sse read failed for " +:+ sse_endpoint c)))
           | Ended :: reads => ((c, reads), Some (Err "http_sse stream ended"))
           | Chunk bytes :: reads =>
               next_payload reads (buffered (line_buffer c +:+ bytes) (pending_data_lines c) c)
           end
  end.
(** the payloads of the calls up to the first that fails or has to wait *)
Inductive delivers : list Read -> HttpSseConnector -> list Value -> option (outcome Value) -> Prop :=
  | DlLast reads c c' rest o : next_payload reads c = ((c', rest), o) ->
      (forall v, o <> Some (Ret v)) -> delivers reads c [] o
  | DlPayload reads c c' rest v vs o : next_payload reads c = ((c', rest), Some (Ret v)) ->
      delivers rest c' vs o -> delivers reads c (v :: vs) o.
End sse.

(** ** Theorems *)

(** ** Lines *)

(** the lines of a text that end in a newline, without it; [cur] comes before *)
Fixpoint lines_of (cur s : string) : list string :=
  match s with
  | EmptyString => []
  | String c s =>
      if bool_decide (c = newline) then cur :: lines_of EmptyString s
      else lines_of (cur +:+ one_char c) s
  end.
Lemma string_app_assoc (a b c : string) : (a +:+ b) +:+ c = a +:+ (b +:+ c).
Proof. induction a as [|x a IH]; [done|]. exact (f_equal (String x) IH). Qed.
Lemma string_app_nil_r (a : string) : a +:+ "" = a.
Proof. induction a as [|x a IH]; [done|]. exact (f_equal (String x) IH). Qed.
Lemma lines_of_none cur b t : split_once newline b = None ->
  lines_of cur (b +:+ t) = lines_of (cur +:+ b) t.
Proof.
  revert cur. induction b as [|c b IH]; intros cur; simpl.
  - intros _. by rewrite string_app_nil_r.
  - destruct (bool_decide _); [done|]. destruct (split_once newline b) as [[]|] eqn:Hs; [done|].
    intros _. rewrite IH by done. by rewrite string_app_assoc.
Qed.
Lemma lines_of_some cur b l r t : split_once newline b = Some (l, r) ->
  lines_of cur (b +:+ t) = (cur +:+ l) :: lines_of "" (r +:+ t).
Proof.
  revert cur l. induction b as [|c b IH]; intros cur l; simpl; [done|].
  destruct (bool_decide _).
  - intros [= <- <-]. by rewrite string_app_nil_r.
  - destruct (split_once newline b) as [[x y]|] eqn:Hs; [|done]. intros [= <- <-].
    rewrite (IH _ x) by done. by rewrite string_app_assoc.
Qed.
Lemma split_once_shorter c s l r : split_once c s = Some (l, r) ->
  (String.length r < String.length s)%nat.
Proof.
  revert l. induction s as [|a s IH]; intros l; simpl; [done|].
  destruct (bool_decide _); [intros [= _ <-]; lia|].
  destruct (split_once c s) as [[x y]|]; [|done]. intros [= _ <-]. specialize (IH x eq_refl). lia.
Qed.

(** valid text is read as it is *)
Lemma utf8_from_need need c s :
  utf8_from need (String c s) =
  match need with
  | [] => match utf8_need (Z.of_nat (nat_of_ascii c)) with Some n => utf8_from n s | None => false end
  | range :: need => byte_in c range && utf8_from need s
  end.
Proof.
  destruct need as [|[lo hi] need]; [|done]. unfold utf8_need. simpl. by repeat case_match.
Qed.
Lemma lossy_from_valid held need s : utf8_from need s = true ->
  (need = [] -> held = "") -> lossy_from held need s = held +:+ s.
Proof.
  revert held need. induction s as [|c s IH]; intros held need Hv Hh.
  - apply bool_decide_eq_true in Hv. simpl. rewrite bool_decide_eq_true_2 by done.
    by rewrite Hh.
  - rewrite utf8_from_need in Hv. simpl. destruct need as [|range need].
    + rewrite Hh by done. destruct (utf8_need _) as [[|r n]|]; [| |done]; by rewrite IH.
    + apply andb_true_iff in Hv as [-> Hv]. destruct need as [|r need]; rewrite IH by done; [done|].
      by rewrite string_app_assoc.
Qed.
Lemma from_utf8_lossy_valid s : utf8_valid s = true -> from_utf8_lossy s = s.
Proof. intros Hv. by apply (lossy_from_valid "" []). Qed.

Section sse.
Context `{!SerdeJson} `{!JsonText}.
Implicit Types (c : HttpSseConnector) (reads rest : list Read).

(** ** The text of a connection *)

(** the raw events of complete lines, after the data lines held *)
Fixpoint events_of (pending : list string) (lines : list string) : list string :=
  match lines with
  | [] => []
  | line :: lines =>
      match take_line (from_utf8_lossy line) pending with
      | inl raw_event => raw_event :: events_of [] lines
      | inr pending => events_of pending lines
      end
  end.
(** the payloads up to the first event that is not JSON, else [fin] *)
Fixpoint payloads_of (fin : option (outcome Value)) (events : list string)
  : list Value * option (outcome Value) :=
  match events with
  | [] => ([], fin)
  | raw_event :: events =>
      match from_str raw_event with
      | Some v => let '(vs, o) := payloads_of fin events in (v :: vs, o)
      | None => ([], Some (Err (invalid_json raw_event)))
      end
  end.
(** the bytes of the chunks up to the end of the connection *)
Fixpoint text_of reads : string :=
  match reads with
  | Chunk bytes :: reads => bytes +:+ text_of reads
  | TimedOut :: reads => text_of reads
  | _ => ""
  end.
Fixpoint end_of (endpoint : string) reads : option (outcome Value) :=
  match reads with
  | [] => None
  | (Chunk _ | TimedOut) :: reads => end_of endpoint reads
  | ReadFailed :: _ => Some (Err ("http_sse read failed for " +:+ endpoint))
  | Ended :: _ => Some (Err "http_sse stream ended")
  end.
(** the payloads of a text that comes after a buffer and the data lines held *)
Definition spec_of c (text : string) (fin : option (outcome Value))
  : list Value * option (outcome Value) :=
  payloads_of fin (events_of (pending_data_lines c) (lines_of "" (line_buffer c +:+ text))).

(** ** One call *)

Lemma parse_buffered_spec fuel b p b' p' o :
  (String.length b <= fuel)%nat -> parse_buffered fuel b p = ((b', p'), o) ->
  match o with
  | Ret None => forall t, events_of p (lines_of "" (b +:+ t)) = events_of p' (lines_of "" (b' +:+ t))
      /\ lines_of "" b' = []
  | Ret (Some v) => exists e, from_str e = Some v /\
      forall t, events_of p (lines_of "" (b +:+ t)) = e :: events_of p' (lines_of "" (b' +:+ t))
  | Err m => exists e, from_str e = None /\ m = invalid_json e /\
      forall t, exists es, events_of p (lines_of "" (b +:+ t)) = e :: es
  | Panic => False
  end.
Proof.
  revert b p. induction fuel as [|fuel IH]; intros b p Hlen; simpl.
  - intros [= <- <- <-]. by destruct b; [|simpl in Hlen; lia].
  - unfold next_line. destruct (split_once newline b) as [[l r]|] eqn:Hs; simpl.
    + pose proof (split_once_shorter _ _ _ _ Hs) as Hlt.
      assert (Hl : forall t, lines_of "" (b +:+ t) = l :: lines_of "" (r +:+ t))
        by (intros t; by apply (lines_of_some "")).
      destruct (take_line (from_utf8_lossy l) p) as [e|q] eqn:Ht.
      * destruct (from_str e) as [v|] eqn:Hv; intros [= <- <- <-]; exists e; split_and!; try done;
          intros t; rewrite Hl; simpl; rewrite Ht; by eauto.
      * intros Hp. apply IH in Hp; [|lia]. destruct o as [[v|]|m|]; try done.
        -- destruct Hp as (e & He & Hp). exists e. split; [done|]. intros t. rewrite Hl. simpl.
           by rewrite Ht.
        -- intros t. rewrite Hl. simpl. rewrite Ht. apply Hp.
        -- destruct Hp as (e & He & -> & Hp). exists e. split_and!; [done..|]. intros t.
           destruct (Hp t) as [es Hes]. exists es. rewrite Hl. simpl. by rewrite Ht.
    + intros [= <- <- <-] t. split; [done|].
      pose proof (lines_of_none "" b "" Hs) as Hn. rewrite string_app_nil_r in Hn. by rewrite Hn.
Qed.
Definition same_connection c c' : Prop :=
  sse_endpoint c' = sse_endpoint c /\ sse_connected c' = sse_connected c.
Lemma next_payload_spec reads c c' rest o :
  sse_connected c = true -> next_payload reads c = ((c', rest), o) ->
  let text := text_of reads in let fin := end_of (sse_endpoint c) reads in
  match o with
  | Some (Ret v) => same_connection c c' /\
      spec_of c text fin =
        (let '(vs, o) := spec_of c' (text_of rest) (end_of (sse_endpoint c) rest) in (v :: vs, o))
  | o => spec_of c text fin = ([], o)
  end.
Proof.
  revert c. induction reads as [|rd reads IH]; intros c Hc; simpl.
  all: unfold try_parse_buffered_event;
    destruct (parse_buffered _ _ _) as [[b p] q] eqn:Hp; apply parse_buffered_spec in Hp; [|done];
    destruct q as [[v|]|m|]; [| | |done].
  all: try (destruct Hp as (e & He & Hp); intros [= <- <- <-]; split; [done|];
    unfold spec_of; rewrite Hp; simpl; by rewrite He).
  all: try (destruct Hp as (e & He & -> & Hp); intros [= <- <- <-]; unfold spec_of;
    match goal with |- context [line_buffer ?x +:+ ?t] => destruct (Hp t) as [es Hes] end;
    rewrite Hes; simpl; by rewrite He).
  - change (sse_connected (buffered b p c)) with (sse_connected c). rewrite Hc. simpl. intros [= <- <- <-]. unfold spec_of. destruct (Hp "") as [-> Hn].
    by rewrite string_app_nil_r, Hn.
  - change (sse_connected (buffered b p c)) with (sse_connected c). rewrite Hc. simpl.
    assert (Hend : forall fin, spec_of c "" fin = ([], fin)).
    { intros fin. unfold spec_of. destruct (Hp "") as [-> Hn]. by rewrite string_app_nil_r, Hn. }
    destruct rd as [bytes| | |].
    + intros Hn. apply IH in Hn; [|done]. simpl in Hn.
      assert (E : forall fin, spec_of (buffered (b +:+ bytes) p (buffered b p c)) (text_of reads) fin =
                spec_of c (bytes +:+ text_of reads) fin).
      { intros fin. unfold spec_of. simpl. by rewrite string_app_assoc, (proj1 (Hp _)). }
      by rewrite !E in Hn.
    + intros Hn. apply IH in Hn; [|done]. simpl in Hn.
      assert (E : forall fin, spec_of (buffered b p c) (text_of reads) fin =
                spec_of c (text_of reads) fin).
      { intros fin. unfold spec_of. simpl. by rewrite (proj1 (Hp _)). }
      by rewrite !E in Hn.
    + intros [= <- <- <-]. apply Hend.
    + intros [= <- <- <-]. apply Hend.
Qed.

(** ** A connection *)

Lemma delivers_spec reads c vs o : sse_connected c = true -> delivers reads c vs o ->
  spec_of c (text_of reads) (end_of (sse_endpoint c) reads) = (vs, o).
Proof.
  intros Hc Hd. induction Hd as [reads c c' rest o Hn Ho|reads c c' rest v vs o Hn Hd IH];
    apply next_payload_spec in Hn; try done.
  - destruct o as [[v| |]|]; try done. by destruct (Ho v).
  - destruct Hn as [[He Hcc] ->]. rewrite <- He, IH; [done|]. by rewrite Hcc.
Qed.
Lemma delivers_exists reads c : sse_connected c = true -> exists vs o, delivers reads c vs o.
Proof.
  intros Hc. remember (spec_of c (text_of reads) (end_of (sse_endpoint c) reads)) as sp eqn:Hsp.
  destruct sp as [vs o]. symmetry in Hsp. revert reads c Hc o Hsp.
  induction vs as [|v vs IH]; intros reads c Hc o Hsp;
    destruct (next_payload reads c) as [[c' rest] a] eqn:Hn; pose proof Hn as Hs;
    apply next_payload_spec in Hs; try done;
    destruct a as [[w| |]|]; try (eexists _, _; by eapply DlLast).
  - destruct Hs as [_ Hs]. rewrite Hsp in Hs. by destruct (spec_of c' _ _).
  - destruct Hs as [[He Hcc] Hs]. rewrite Hsp in Hs.
    destruct (spec_of c' _ _) as [us q] eqn:Hq. injection Hs as <- <- <-.
    rewrite <- He in Hq. destruct (IH rest c' ltac:(by rewrite Hcc) o Hq) as (xs & r & Hd).
    exists (v :: xs), r. by eapply DlPayload.
Qed.

(** C20: the payloads of a connection do not depend on how its bytes are cut into
    chunks.  After a successful [connect] the calls of [next_payload] end, and
    what they deliver is determined by the text received and by how the
    connection ended: the events of its complete lines that are JSON, in order,
    up to the first that is not; no byte is lost between two chunks or two
    calls, and a line that a chunk cuts is read as a whole. *)
Theorem sse_chunks_irrelevant reads c c' :
  sse_connect Accepted c = (c', Ret ()) ->
  (exists vs o, delivers reads c' vs o) /\
  forall vs o, delivers reads c' vs o <->
    payloads_of (end_of (sse_endpoint c) reads) (events_of [] (lines_of "" (text_of reads))) = (vs, o).
Proof.
  intros [= <-]. match goal with |- context [delivers reads ?x] => set (c1 := x) end.
  destruct (delivers_exists reads c1 eq_refl) as (vs & o & Hd). split; [by exists vs, o|].
  pose proof (delivers_spec reads c1 vs o eq_refl Hd) as Hs. unfold spec_of in Hs. simpl in Hs.
  intros vs' o'. split.
  - intros Hd'. apply delivers_spec in Hd'; [exact Hd'|done].
  - intros Heq. assert (Heq2 : (vs, o) = (vs', o')) by (etrans; [symmetry; exact Hs|exact Heq]).
    by injection Heq2 as <- <-.
Qed.
End sse.
