(* ===== verification/RpcLogs.v ===== *)
(** * The log connector ([apps/indexer/src/stream_connector/rpc_logs.rs])

    It asks a node for the logs of the blocks it has not asked for yet, under a
    filter of addresses and topics, and hands them out one by one.  The types
    [Address] and [H256] of [ethers] are an interface; what the node answers in a
    round is a parameter.

    A connection asks for the logs of every block from two below the first head
    to the last one, and hands them out in order. *)
From Stdlib Require Import Ascii.
From S2P Require Import Prelude F64 Text Numbers Ports FieldMapping Hex WorkerConfig StreamWorker.

(** [ethers::types::{Address, H256}] and their [FromStr] *)
Class EthersTypes := {
  Address : Type;
  parse_address : string -> option Address;
  H256 : Type;
  parse_h256 : string -> option H256
}.

(** ** Simulation metadata of the endpoint *)

Record TransportSimulationMetadata := {
  is_simulated : bool;
  simulation_run_id : option string
}.
Definition metadata_default : TransportSimulationMetadata :=
  {| is_simulated := false; simulation_run_id := None |}.
Definition query_metadata (metadata : TransportSimulationMetadata) (pair : string * string)
  : TransportSimulationMetadata :=
  let '(key, value) := pair in
  if bool_decide (key = "is_simulated") then
    {| is_simulated := bool_decide (to_ascii_lowercase (trim value) ∈ ["1"; "true"; "yes"; "on"]);
       simulation_run_id := simulation_run_id metadata |}
  else if bool_decide (key = "simulation_run_id") then
    {| is_simulated := is_simulated metadata;
       simulation_run_id := if is_empty (trim value) then simulation_run_id metadata
                            else Some (trim value) |}
  else metadata.
Definition parse_transport_simulation_metadata `{!Urls} (endpoint : string)
  : TransportSimulationMetadata :=
  match url_parse endpoint with
  | None => metadata_default
  | Some url => foldl query_metadata metadata_default (query_pairs url)
  end.

Section rpc_logs.
Context `{!SerdeJson} `{!EthersTypes}.

(** the simulation entry of a payload that is an object *)
Definition inject_simulation_metadata (metadata : TransportSimulationMetadata) (payload : Value)
  : Value :=
  if negb (is_simulated metadata) && negb (is_some (simulation_run_id metadata)) then payload
  else match as_object payload with
       | None => payload
       | Some object =>
           let simulation := VObject (put_all
             (("is_simulated", VBool (is_simulated metadata || is_some (simulation_run_id metadata)))
              :: entry_if "run_id" VString (simulation_run_id metadata)) ∅) in
           VObject (<["simulation" := simulation]> object)
       end.

(** ** The filter *)

Inductive ValueOrArray (A : Type) := OneValue (a : A) | ManyValues (l : list A).
Arguments OneValue {A} a.
Arguments ManyValues {A} l.
(** what [Filter]'s builder is given *)
Record Filter := {
  from_block : Z;
  to_block : Z;
  address : option (list Address);
  filter_topics : list (option (ValueOrArray H256))
}.
Definition ADDRESS_KEYS : list string := ["addresses"; "contracts"; "contract_addresses"].
Definition invalid_address (item : string) : string :=
  "invalid contract address in filter config: " +:+ item.
Fixpoint parse_addresses (items : list string) : outcome (list Address) :=
  match items with
  | [] => Ret []
  | item :: items =>
      a ← of_option (invalid_address item) (parse_address item);
      rest ← parse_addresses items; Ret (a :: rest)
  end.
(** the first of the keys that gives an address *)
Fixpoint addresses_of (keys : list string) (filter_config : Value) : outcome (list Address) :=
  match keys with
  | [] => Ret []
  | key :: keys =>
      match vget key filter_config ≫= as_array with
      | None => addresses_of keys filter_config
      | Some items =>
          addresses ← parse_addresses (omap as_str items);
          match addresses with [] => addresses_of keys filter_config | _ => Ret addresses end
      end
  end.
Definition topic_name (index : Z) : string := "topic" +:+ fmt_Z index.
(** the characters of a text: its bytes that do not continue a sequence *)
Fixpoint char_count (s : string) : nat :=
  match s with
  | EmptyString => O
  | String c s =>
      let n := Z.of_nat (nat_of_ascii c) in
      (if (128 <=? n)%Z && (n <=? 191)%Z then O else 1) + char_count s
  end%nat.
Definition parse_topic_hash (raw : string) (index : Z) : outcome H256 :=
  let trimmed := trim raw in
  let body := default trimmed (strip_prefix "0x" trimmed) in
  let invalid := "invalid " +:+ topic_name index +:+ " in filter config: " +:+ trimmed in
  if is_empty body || (64 <? String.length body)%nat then Err invalid
  else of_option invalid (parse_h256 ("0x" +:+ zeros (64 - char_count body) +:+ body)).
Fixpoint parse_topic_items (items : list Value) (index : Z) : outcome (list H256) :=
  match items with
  | [] => Ret []
  | item :: items =>
      raw ← of_option ("invalid " +:+ topic_name index
                       +:+ " entry in filter config: expected string values") (as_str item);
      h ← parse_topic_hash raw index; rest ← parse_topic_items items index; Ret (h :: rest)
  end.
Definition parse_topic_filter (value : option Value) (index : Z)
  : outcome (option (ValueOrArray H256)) :=
  match value with
  | None => Ret None
  | Some value =>
      if is_null value then Ret None
      else match as_str value with
           | Some raw => h ← parse_topic_hash raw index; Ret (Some (OneValue h))
           | None =>
               match as_array value with
               | Some items =>
                   topics ← parse_topic_items items index;
                   Ret (match topics with [] => None | _ => Some (ManyValues topics) end)
               | None => Err ("invalid " +:+ topic_name index
                              +:+ " in filter config: expected string, array, or null")
               end
           end
  end.
Definition parse_topics (filter_config : Value) : outcome (list (option (ValueOrArray H256))) :=
  match vget "topics" filter_config ≫= as_array with
  | None => Ret []
  | Some topics =>
      topic0 ← parse_topic_filter (topics !! 0%nat) 0;
      topic1 ← parse_topic_filter (topics !! 1%nat) 1;
      topic2 ← parse_topic_filter (topics !! 2%nat) 2;
      topic3 ← parse_topic_filter (topics !! 3%nat) 3;
      Ret [topic0; topic1; topic2; topic3]
  end.
Definition build_filter (filter_config : Value) (from to : Z) : outcome Filter :=
  addresses ← addresses_of ADDRESS_KEYS filter_config;
  topics ← parse_topics filter_config;
  Ret {| from_block := from; to_block := to;
         address := match addresses with [] => None | _ => Some addresses end;
         filter_topics := topics |}.

(** ** The connector *)

Record RpcLogsConnector := {
  rl_endpoint : string;
  rl_filter_config : Value;
  rl_poll_interval : Z;
  rl_provider : bool;
  rl_pending : list Value;
  last_block : option Z;
  rl_chain_id : option Z;
  simulation_metadata : TransportSimulationMetadata
}.
Definition rl_new `{!Urls} (endpoint : string) (filter_config : Value) (poll_interval : Z)
  : RpcLogsConnector :=
  {| rl_endpoint := endpoint; rl_filter_config := filter_config; rl_poll_interval := poll_interval;
     rl_provider := false; rl_pending := []; last_block := None; rl_chain_id := None;
     simulation_metadata := parse_transport_simulation_metadata endpoint |}.
(** what connecting comes to, and the chain the node names ([U256]) *)
Inductive ConnectAnswer := ConnectFailed | Connected (chainid : option Z).
(** [value.as_u64() as i64]; the conversion of a [U256] panics *)
Definition chain_id_as_i64 (v : Z) : outcome Z :=
  if v <=? u64_max then Ret (wrap_i64 v) else Panic.
Definition connected_chain (chainid : option Z) : outcome (option Z) :=
  match chainid with None => Ret None | Some v => id ← chain_id_as_i64 v; Ret (Some id) end.
Definition rl_connect (answer : ConnectAnswer) (c : RpcLogsConnector)
  : RpcLogsConnector * outcome unit :=
  match answer with
  | ConnectFailed => (c, Err ("failed connecting rpc websocket endpoint: " +:+ rl_endpoint c))
  | Connected chainid =>
      match connected_chain chainid with
      | Ret chain_id =>
          ({| rl_endpoint := rl_endpoint c; rl_filter_config := rl_filter_config c;
              rl_poll_interval := rl_poll_interval c; rl_provider := true;
              rl_pending := rl_pending c; last_block := last_block c; rl_chain_id := chain_id;
              simulation_metadata := simulation_metadata c |}, Ret ())
      | Err e => (c, Err e)
      | Panic => (c, Panic)
      end
  end.
(** a round of polling: the head the node names, and its answer to a filter, in
    which a log that cannot be serialised is [None] *)
Record Round := {
  rd_head : option Z;
  rd_logs : Filter -> option (list (option Value))
}.
Definition set_last (b : Z) (c : RpcLogsConnector) : RpcLogsConnector :=
  {| rl_endpoint := rl_endpoint c; rl_filter_config := rl_filter_config c;
     rl_poll_interval := rl_poll_interval c; rl_provider := rl_provider c;
     rl_pending := rl_pending c; last_block := Some b; rl_chain_id := rl_chain_id c;
     simulation_metadata := simulation_metadata c |}.
Definition set_pending (l : list Value) (c : RpcLogsConnector) : RpcLogsConnector :=
  {| rl_endpoint := rl_endpoint c; rl_filter_config := rl_filter_config c;
     rl_poll_interval := rl_poll_interval c; rl_provider := rl_provider c;
     rl_pending := l; last_block := last_block c; rl_chain_id := rl_chain_id c;
     simulation_metadata := simulation_metadata c |}.
(** a log as it is handed out *)
Definition log_payload (c : RpcLogsConnector) (payload : Value) : Value :=
  let payload :=
    match rl_chain_id c, as_object payload with
    | Some chain_id, Some object => VObject (<["chainId" := VInt chain_id]> object)
    | _, _ => payload
    end in
  inject_simulation_metadata (simulation_metadata c) payload.
Fixpoint push_logs (logs : list (option Value)) (c : RpcLogsConnector)
  : RpcLogsConnector * outcome unit :=
  match logs with
  | [] => (c, Ret ())
  | None :: _ => (c, Err "failed to serialize log payload")
  | Some payload :: logs => push_logs logs (set_pending (rl_pending c ++ [log_payload c payload]) c)
  end.
(** the first block of a round *)
Definition next_from (c : RpcLogsConnector) (head : Z) : Z :=
  match last_block c with
  | Some block => Z.min u64_max (block + 1)
  | None => sat_sub head 2
  end.
Definition refresh_pending_logs (r : Round) (c : RpcLogsConnector)
  : RpcLogsConnector * outcome unit :=
  if negb (rl_provider c) then (c, Err "rpc_logs connector is not connected")
  else match rd_head r with
       | None => (c, Err "failed to fetch latest block for rpc_logs connector")
       | Some head =>
           let from := next_from c head in
           if head <? from then (set_last head c, Ret ())
           else match build_filter (rl_filter_config c) from head with
                | Err e => (c, Err e)
                | Panic => (c, Panic)
                | Ret filter =>
                    match rd_logs r filter with
                    | None => (c, Err "failed to fetch logs for rpc_logs connector")
                    | Some logs => push_logs logs (set_last head c)
                    end
                end
       end.
(** the rounds left, and the answer; [None]: the rounds ran out *)
Fixpoint rl_next_payload (rounds : list Round) (c : RpcLogsConnector)
  : (RpcLogsConnector * list Round) * option (outcome Value) :=
  match rl_pending c with
  | payload :: pending => ((set_pending pending c, rounds), Some (Ret payload))
  | [] =>
      match rounds with
      | [] => ((c, []), None)
      | r :: rounds =>
          match refresh_pending_logs r c with
          | (c, Err e) => ((c, rounds), Some (Err e))
          | (c, Panic) => ((c, rounds), Some Panic)
          | (c, Ret _) =>
              match rl_pending c with
              | payload :: pending => ((set_pending pending c, rounds), Some (Ret payload))
              | [] => rl_next_payload rounds c
              end
          end
      end
  end.
(** the payloads of the calls up to the first that fails or has to wait *)
Inductive rl_delivers : list Round -> RpcLogsConnector -> list Value -> option (outcome Value) -> Prop :=
  | RlLast rounds c c' rest o : rl_next_payload rounds c = ((c', rest), o) ->
      (forall v, o <> Some (Ret v)) -> rl_delivers rounds c [] o
  | RlPayload rounds c c' rest v vs o : rl_next_payload rounds c = ((c', rest), Some (Ret v)) ->
      rl_delivers rest c' vs o -> rl_delivers rounds c (v :: vs) o.
End rpc_logs.

(** ** Theorems *)

(** ** Blocks *)

Definition blocks_between (from to : Z) : list Z := seqZ from (to - from + 1).
(** the blocks asked for in rounds with these heads, after [last] *)
Definition first_asked (last : option Z) (head : Z) : Z :=
  match last with Some block => Z.min u64_max (block + 1) | None => sat_sub head 2 end.
Fixpoint asked (last : option Z) (heads : list Z) : list Z :=
  match heads with
  | [] => []
  | head :: heads => blocks_between (first_asked last head) head ++ asked (Some head) heads
  end.
Definition last_head (last : option Z) (heads : list Z) : option Z :=
  foldl (fun _ head => Some head) last heads.
Lemma asked_app last hs1 hs2 : asked last (hs1 ++ hs2) = asked last hs1 ++ asked (last_head last hs1) hs2.
Proof.
  revert last. induction hs1 as [|h hs1 IH]; intros last; simpl; [done|].
  by rewrite IH, (assoc_L (++)).
Qed.
Lemma elem_blocks_between b from to : b ∈ blocks_between from to <-> from <= b <= to.
Proof. unfold blocks_between. rewrite elem_of_seqZ. lia. Qed.
Lemma blocks_between_app a b c : a <= b + 1 -> b <= c ->
  blocks_between a b ++ blocks_between (b + 1) c = blocks_between a c.
Proof.
  intros Hab Hbc. unfold blocks_between.
  replace (c - a + 1) with ((b - a + 1) + (c - (b + 1) + 1)) by lia.
  rewrite (seqZ_app a (b - a + 1)) by lia. by replace (a + (b - a + 1)) with (b + 1) by lia.
Qed.
Definition is_head (h : Z) : Prop := 0 <= h < u64_max.
Lemma asked_after_covers last heads h b : is_head last -> Forall is_head heads ->
  h ∈ heads -> last < b <= h -> b ∈ asked (Some last) heads.
Proof.
  intros Hl Hh Hin Hb. revert last Hl Hb. induction Hh as [|h' heads Hh' Hh IH]; intros last Hl Hb;
    [by apply elem_of_nil in Hin|].
  unfold is_head in *. cbn [asked first_asked]. apply elem_of_app. rewrite elem_blocks_between.
  destruct (decide (b <= h')); [left; lia|].
  right. apply elem_of_cons in Hin as [->|Hin]; [lia|]. apply IH; [done|lia..].
Qed.
Lemma asked_covers h0 heads h b : Forall is_head (h0 :: heads) -> h ∈ h0 :: heads ->
  sat_sub h0 2 <= b <= h -> b ∈ asked None (h0 :: heads).
Proof.
  intros Hh Hin Hb. apply Forall_cons in Hh as [Hh0 Hh]. cbn [asked first_asked].
  apply elem_of_app. rewrite elem_blocks_between.
  destruct (decide (b <= h0)); [left; lia|].
  right. apply elem_of_cons in Hin as [->|Hin]; [lia|]. eapply asked_after_covers; [done..|lia].
Qed.
Lemma last_default h heads (d : Z) : List.last (h :: heads) d = List.last heads h.
Proof.
  revert h d. induction heads as [|x heads IH]; intros h d; [done|].
  change (List.last (h :: x :: heads) d) with (List.last (x :: heads) d). by rewrite !IH.
Qed.
Lemma sorted_last_le h heads : Sorted Z.le (h :: heads) -> h <= List.last heads h.
Proof.
  revert h. induction heads as [|x heads IH]; intros h Hs; [simpl; lia|].
  apply Sorted_inv in Hs as [Hs Hr]. apply HdRel_inv in Hr. specialize (IH x Hs).
  rewrite last_default. lia.
Qed.
Lemma asked_after_once last heads : is_head last -> Forall is_head heads ->
  Sorted Z.le (last :: heads) -> asked (Some last) heads = blocks_between (last + 1) (List.last heads last).
Proof.
  intros Hl Hh. revert last Hl. induction Hh as [|h heads Hh' Hh IH]; intros last Hl Hs.
  - simpl. unfold blocks_between. by replace (last - (last + 1) + 1) with 0 by lia.
  - apply Sorted_inv in Hs as [Hs Hr]. apply HdRel_inv in Hr. pose proof (sorted_last_le _ _ Hs).
    unfold is_head in *. cbn [asked first_asked]. rewrite IH by done. rewrite Z.min_r by lia.
    rewrite last_default. apply blocks_between_app; lia.
Qed.
Lemma asked_once h0 heads : Forall is_head (h0 :: heads) -> Sorted Z.le (h0 :: heads) ->
  asked None (h0 :: heads) = blocks_between (sat_sub h0 2) (List.last heads h0).
Proof.
  intros Hh Hs. pose proof (sorted_last_le _ _ Hs). apply Forall_cons in Hh as [Hh0 Hh].
  cbn [asked first_asked]. rewrite asked_after_once by done. unfold is_head, sat_sub in *.
  apply blocks_between_app; lia.
Qed.

(** ** One round and one call *)

Section rpc_logs.
Context `{!SerdeJson} `{!EthersTypes}.
(** the serialised logs of a block that match addresses and topics *)
Variable chain : option (list Address) -> list (option (ValueOrArray H256)) -> Z -> list Value.
Implicit Types (c : RpcLogsConnector) (rounds rest : list Round).

(** a node that answers a filter, answers with the logs of the blocks, in order *)
Definition serves (r : Round) : Prop := forall f logs, rd_logs r f = Some logs ->
  logs = Some <$> (blocks_between (from_block f) (to_block f) ≫= chain (address f) (filter_topics f)).
Definition head_ok (r : Round) : Prop := forall h, rd_head r = Some h -> is_head h.
(** what a connector is connected to and asks for *)
Definition setup c : bool * Value * option Z * TransportSimulationMetadata :=
  (rl_provider c, rl_filter_config c, rl_chain_id c, simulation_metadata c).
Lemma log_payload_setup c c' v : setup c' = setup c -> log_payload c' v = log_payload c v.
Proof. unfold setup, log_payload. by intros [= _ _ -> ->]. Qed.
Lemma push_logs_spec logs c :
  push_logs (Some <$> logs) c = (set_pending (rl_pending c ++ (log_payload c <$> logs)) c, Ret ()).
Proof.
  revert c. induction logs as [|v logs IH]; intros c; cbn [fmap list_fmap push_logs].
  - rewrite app_nil_r. by destruct c.
  - rewrite IH. simpl. by rewrite <- (assoc_L (++)).
Qed.
Lemma build_filter_parts cfg from to f : build_filter cfg from to = Ret f ->
  from_block f = from /\ to_block f = to /\
  forall from' to', build_filter cfg from' to' =
    Ret {| from_block := from'; to_block := to'; address := address f; filter_topics := filter_topics f |}.
Proof.
  unfold build_filter. intros Hf. inv_ret Hf. inv_ret Hf. injection Hf as <-. split_and!; [done..|].
  intros from' to'. by rewrite Hm, Hm0.
Qed.

(** the filter of the configuration, and the payloads of a list of blocks *)
Variable f0 : Filter.
Definition payloads c (blocks : list Z) : list Value :=
  log_payload c <$> (blocks ≫= chain (address f0) (filter_topics f0)).
Definition ready c : Prop :=
  rl_provider c = true /\ build_filter (rl_filter_config c) 0 0 = Ret f0.
Lemma ready_setup c c' : setup c' = setup c -> ready c -> ready c'.
Proof. unfold setup, ready. by intros [= -> -> _ _]. Qed.
Lemma payloads_setup c c' blocks : setup c' = setup c -> payloads c' blocks = payloads c blocks.
Proof.
  intros Hs. apply list_fmap_ext. intros i v _. by apply log_payload_setup.
Qed.
Lemma payloads_app c xs ys : payloads c (xs ++ ys) = payloads c xs ++ payloads c ys.
Proof. unfold payloads. by rewrite bind_app, fmap_app. Qed.

Lemma refresh_spec r c c' : ready c -> serves r ->
  refresh_pending_logs r c = (c', Ret ()) ->
  exists head, rd_head r = Some head /\ setup c' = setup c /\ last_block c' = Some head /\
    rl_pending c' = rl_pending c ++ payloads c (blocks_between (first_asked (last_block c) head) head).
Proof.
  intros [Hp Hf] Hsv. unfold refresh_pending_logs. rewrite Hp. simpl.
  destruct (rd_head r) as [head|]; [|done]. intros Hr. exists head. split; [done|].
  change (next_from c head) with (first_asked (last_block c) head) in Hr.
  destruct (head <? _) eqn:Hlt; bools.
  - injection Hr as <-. split_and!; [done..|]. unfold payloads, blocks_between. simpl.
    rewrite seqZ_nil by lia. by rewrite app_nil_r.
  - rewrite (proj2 (proj2 (build_filter_parts _ _ _ _ Hf))) in Hr.
    destruct (rd_logs r _) as [logs|] eqn:Hl; [|done]. apply Hsv in Hl as ->. simpl in Hr.
    rewrite push_logs_spec in Hr. injection Hr as <-. by split_and!.
Qed.
(** a round in which the node does not answer *)
Definition fails (r : Round) : Prop := rd_head r = None \/ exists f, rd_logs r f = None.
Lemma refresh_fails r c c' o : ready c -> serves r -> refresh_pending_logs r c = (c', o) ->
  o <> Ret () -> fails r /\ exists e, o = Err e.
Proof.
  intros [Hp Hf] Hsv. unfold refresh_pending_logs, fails. rewrite Hp. simpl.
  destruct (rd_head r) as [head|]; [|intros [= _ <-]; by eauto].
  case_one; [by intros [= _ <-]|].
  rewrite (proj2 (proj2 (build_filter_parts _ _ _ _ Hf))).
  destruct (rd_logs r _) as [logs|] eqn:Hl; [|intros [= _ <-]; by eauto].
  apply Hsv in Hl as ->. rewrite push_logs_spec. by intros [= _ <-].
Qed.
(** the successful rounds of a call, and their heads *)
Definition polled rounds (heads : list Z) rest : Prop :=
  exists passed, rounds = passed ++ rest /\ rd_head <$> passed = Some <$> heads.
(** what a call hands out, and where it leaves the connector *)
Definition handed c rounds (heads : list Z) c' rest (o : option (outcome Value)) : Prop :=
  let all := rl_pending c ++ payloads c (asked (last_block c) heads) in
  match o with
  | Some (Ret v) => polled rounds heads rest /\ setup c' = setup c /\
      last_block c' = last_head (last_block c) heads /\ all = v :: rl_pending c'
  | Some (Err _) => all = [] /\ exists r, fails r /\ polled rounds heads (r :: rest)
  | Some Panic => False
  | None => all = [] /\ polled rounds heads []
  end.
Lemma pop_handed c v p rounds : rl_pending c = v :: p ->
  handed c rounds [] (set_pending p c) rounds (Some (Ret v)).
Proof.
  intros Hp. unfold handed. rewrite Hp. split_and!; [by exists []|done|done|].
  simpl. by rewrite app_nil_r.
Qed.
(** a round that succeeds and the call after it *)
Lemma handed_cons c c1 r rounds heads c' rest o : ready c -> serves r -> rl_pending c = [] ->
  refresh_pending_logs r c = (c1, Ret ()) -> handed c1 rounds heads c' rest o ->
  exists head, handed c (r :: rounds) (head :: heads) c' rest o.
Proof.
  intros Hr Hs Hp Hq H1. pose proof (refresh_spec _ _ _ Hr Hs Hq) as (head & Hh & Hset & Hlast & Hpend).
  rewrite Hp in Hpend. exists head. revert H1. unfold handed. cbn zeta.
  assert (Hcons : forall tail, polled rounds heads tail -> polled (r :: rounds) (head :: heads) tail).
  { intros tail (passed & -> & Hm). exists (r :: passed). split; [done|]. by rewrite fmap_cons, Hh, Hm. }
  assert (Hall : rl_pending c ++ payloads c (asked (last_block c) (head :: heads)) =
    rl_pending c1 ++ payloads c1 (asked (last_block c1) heads)).
  { cbn [asked]. by rewrite payloads_app, Hpend, Hlast, Hp, (payloads_setup c c1). }
  rewrite Hall, <- Hset. simpl last_head. rewrite Hlast.
  destruct o as [[w|e|]|]; [| |done|].
  - intros (Hpo & Hse & Hla & Hw). split_and!; [by apply Hcons|done..].
  - intros (Hw & r' & Hf & Hpo). split; [done|]. exists r'. split; [done|by apply Hcons].
  - intros (Hw & Hpo). split; [done|by apply Hcons].
Qed.
Lemma rl_next_payload_spec rounds c c' rest o : ready c -> Forall serves rounds ->
  rl_next_payload rounds c = ((c', rest), o) -> exists heads, handed c rounds heads c' rest o.
Proof.
  intros Hr Hsv. revert c Hr.
  induction Hsv as [|r rounds Hs Hsv IH]; intros c Hr; simpl;
    destruct (rl_pending c) as [|v p] eqn:Hp.
  1: intros [= <- <- <-]; exists []; unfold handed; rewrite Hp; split; [done|by exists []].
  1, 3: intros [= <- <- <-]; exists []; by apply pop_handed.
  destruct (refresh_pending_logs r c) as [c1 q] eqn:Hq.
  assert (q = Ret () \/ q <> Ret ()) as [->|Hne] by (destruct q as [[]| |]; [by left|by right..]).
  2: { destruct (refresh_fails _ _ _ _ Hr Hs Hq Hne) as [Hf [e ->]]. intros [= <- <- <-].
       exists []. unfold handed. rewrite Hp. split; [done|]. exists r. split; [done|]. by exists []. }
  pose proof (refresh_spec _ _ _ Hr Hs Hq) as (head & _ & Hset & _).
  assert (Hhand : forall heads, handed c1 rounds heads c' rest o ->
    exists heads, handed c (r :: rounds) heads c' rest o).
  { intros heads Hn. destruct (handed_cons _ _ _ _ _ _ _ _ Hr Hs Hp Hq Hn) as [h Hh]. by exists (h :: heads). }
  destruct (rl_pending c1) as [|v p] eqn:Hp1; intros Hn.
  - destruct (IH _ (ready_setup _ _ Hset Hr) Hn) as [heads Hh]. by eapply Hhand.
  - injection Hn as <- <- <-. eapply Hhand. by apply pop_handed.
Qed.

(** ** A connection *)

Lemma polled_app rounds heads1 rest heads2 tail : polled rounds heads1 rest ->
  polled rest heads2 tail -> polled rounds (heads1 ++ heads2) tail.
Proof.
  intros (p1 & -> & H1) (p2 & -> & H2). exists (p1 ++ p2). split; [by rewrite (assoc_L (++))|].
  by rewrite !fmap_app, H1, H2.
Qed.
Lemma polled_rest rounds heads rest : polled rounds heads rest -> Forall serves rounds -> Forall serves rest.
Proof. intros (p & -> & _) Hs. by apply Forall_app in Hs as [_ Hs]. Qed.
(** how the calls ended: in a round without answer, or waiting *)
Definition ended rounds (heads : list Z) (o : option (outcome Value)) : Prop :=
  match o with
  | None => polled rounds heads []
  | Some (Err _) => exists r rest, fails r /\ polled rounds heads (r :: rest)
  | _ => False
  end.
Lemma rl_delivers_spec rounds c vs o : ready c -> Forall serves rounds -> rl_delivers rounds c vs o ->
  exists heads, ended rounds heads o /\ vs = rl_pending c ++ payloads c (asked (last_block c) heads).
Proof.
  intros Hr Hsv Hd. induction Hd as [rounds c c' rest o Hn Ho|rounds c c' rest v vs o Hn Hd IH];
    destruct (rl_next_payload_spec _ _ _ _ _ Hr Hsv Hn) as [heads Hh]; unfold handed in Hh.
  - exists heads. destruct o as [[v|e|]|]; [by destruct (Ho v)| |done|].
    + destruct Hh as (-> & r & Hf & Hp). split; [by exists r, rest|done].
    + destruct Hh as (-> & Hp). by split.
  - destruct Hh as (Hp & Hset & Hlast & Hv).
    destruct (IH (ready_setup _ _ Hset Hr) (polled_rest _ _ _ Hp Hsv)) as (heads2 & He & ->).
    exists (heads ++ heads2). split.
    + destruct o as [[w|e|]|]; try done; [|by eapply polled_app].
      destruct He as (r & tail & Hf & Hp2). exists r, tail. split; [done|by eapply polled_app].
    + by rewrite asked_app, payloads_app, (assoc_L (++)), Hv, Hlast, (payloads_setup c c').
Qed.
Lemma rl_delivers_exists rounds c : ready c -> Forall serves rounds -> exists vs o, rl_delivers rounds c vs o.
Proof.
  intros Hr Hsv.
  remember (length rounds) as n eqn:Hlen. revert rounds c Hlen Hr Hsv.
  induction n as [n IHn] using (well_founded_induction lt_wf). intros rounds c ->.
  remember (rl_pending c) as p eqn:Hp. revert c Hp.
  induction p as [|w p IHp]; intros c Hp Hr Hsv;
    destruct (rl_next_payload rounds c) as [[c' rest] o] eqn:Hn.
  - destruct (rl_next_payload_spec _ _ _ _ _ Hr Hsv Hn) as [heads Hh]. unfold handed in Hh.
    destruct o as [[v|e|]|]; try (eexists _, _; by eapply RlLast).
    destruct Hh as (Hpo & Hset & _ & Hv). pose proof (polled_rest _ _ _ Hpo Hsv) as Hrest.
    pose proof (ready_setup _ _ Hset Hr) as Hr'.
    destruct Hpo as ([|r passed] & -> & Hm).
    { destruct heads; [|done]. rewrite <- Hp in Hv. done. }
    destruct (IHn (length rest) ltac:(rewrite length_app; simpl; lia) rest c' eq_refl Hr' Hrest)
      as (vs & o & Hd). exists (v :: vs), o. by eapply RlPayload.
  - assert (Hpop : rl_next_payload rounds c = ((set_pending p c, rounds), Some (Ret w)))
      by (destruct rounds; simpl; by rewrite <- Hp).
    destruct (IHp (set_pending p c) eq_refl Hr Hsv) as (vs & q & Hd).
    exists (w :: vs), q. by eapply RlPayload.
Qed.

(** C16: on one connection the log connector asks for every block from two below
    the first head it sees up to the last, and hands out their matching logs in
    order.  The calls end when the node does not answer a round, which is an
    error, or when there is nothing new; until then the payloads are the logs of
    the blocks asked for, each with the chain and the simulation of the endpoint;
    no block up to a head seen is missing, however the heads move, and none is
    asked for twice when the heads never go back. *)
Theorem rpc_logs_complete `{!Urls} endpoint filter_config interval chainid c rounds :
  rl_connect (Connected chainid) (rl_new endpoint filter_config interval) = (c, Ret ()) ->
  build_filter filter_config 0 0 = Ret f0 ->
  Forall serves rounds -> Forall head_ok rounds ->
  (exists vs o, rl_delivers rounds c vs o) /\
  forall vs o, rl_delivers rounds c vs o -> exists heads,
    ended rounds heads o /\ vs = payloads c (asked None heads) /\
    (forall h0 h b, head heads = Some h0 -> h ∈ heads -> sat_sub h0 2 <= b <= h -> b ∈ asked None heads) /\
    (forall h0, head heads = Some h0 -> Sorted Z.le heads ->
       asked None heads = blocks_between (sat_sub h0 2) (List.last heads h0)).
Proof.
  unfold rl_connect. intros Hc Hf Hsv Hok. destruct (connected_chain chainid) as [id| |]; try done.
  injection Hc as <-. match goal with |- context [rl_delivers rounds ?x] => set (c1 := x) end.
  assert (Hr : ready c1) by by split. split; [by apply rl_delivers_exists|]. intros vs o Hd.
  destruct (rl_delivers_spec _ _ _ _ Hr Hsv Hd) as (heads & He & ->). exists heads.
  assert (Hh : Forall is_head heads).
  { assert (exists tail, polled rounds heads tail) as (tail & passed & -> & Hm)
      by (destruct o as [[]|]; try done; [destruct He as (r & rest & _ & Hp); eauto|eauto]).
    apply Forall_app in Hok as [Hok _]. clear -Hok Hm. revert heads Hm.
    induction Hok as [|r passed Hr Hok IH]; intros [|h heads]; try done; intros [= H1 H2].
    constructor; [by apply Hr|by apply IH]. }
  split_and!; [done|done| |].
  - intros h0 h b Hh0 Hin Hb. destruct heads as [|x heads]; [done|]. injection Hh0 as ->.
    by eapply asked_covers.
  - intros h0 Hh0 Hs. destruct heads as [|x heads]; [done|]. injection Hh0 as ->.
    rewrite asked_once by done. by rewrite last_default.
Qed.
End rpc_logs.
