(* ===== verification/RpcState.v ===== *)
(** * The state connector ([apps/indexer/src/stream_connector/rpc_state.rs])

    It calls contracts at a node and turns each answer, one word of ABI data or a
    JSON document of the simulator, into the payload of a protocol metric.  The
    answers of the node are a parameter.

    A word read from a contract becomes the event of its value: what the
    connector writes into the payload is what the protocol parsers read. *)
From Stdlib Require Import Ascii.
From S2P Require Import Prelude F64 Text Numbers Ports FieldMapping Hex StreamParser TickerParsers ProtocolParsers StreamParserProofs WorkerConfig StreamWorker JsonLaws SseConnector RpcLogs.

Section rpc_state.
Context `{Chrono} `{SerdeJson} `{Powi} `{U256} `{!JsonText}.

Record StateCallSpec := {
  sc_protocol_id : string;
  sc_chain_slug : option string;
  sc_market_id : option string;
  contract_address : string;
  call_data : string;
  block_tag : Value;
  sc_decimals : Z;
  sc_price_usd : option f64;
  sc_metric : string;
  sc_event_type : option string
}.

(** ** Reading the configuration *)

Definition read_str (value : option Value) : option string := trimmed_nonempty (value ≫= as_str).
Definition read_f64 (value : option Value) : option f64 :=
  or_else (value ≫= as_f64) (item ← value ≫= as_str; Numbers.parse_f64 (trim item)).
Definition read_i32 (value : option Value) : option Z :=
  or_else (number ← value ≫= as_i64; i32_of number) (item ← value ≫= as_str; parse_i32 (trim item)).
(** the keys in the call, then in the defaults *)
Definition either (keys : list string) (candidate defaults : Value) : option Value :=
  or_else (first_of keys candidate) (first_of keys defaults).
Definition TO_KEYS : list string := ["to"; "contract_address"; "address"].
Definition DATA_KEYS : list string := ["data"; "calldata"; "function_selector"].
Definition parse_state_call (candidate defaults : Value) : outcome (option StateCallSpec) :=
  let get keys := either keys candidate defaults in
  match as_object candidate with
  | None => Ret None
  | Some _ =>
      let protocol_id := default "unknown" (read_str (get ["protocol_id"])) in
      let contract := default "" (read_str (get TO_KEYS)) in
      let data := default "" (read_str (get DATA_KEYS)) in
      if is_empty (trim protocol_id) || is_empty (trim contract) || is_empty (trim data) then Ret None
      else Ret (Some
        {| sc_protocol_id := to_ascii_lowercase protocol_id;
           sc_chain_slug := to_ascii_lowercase <$> read_str (get ["chain_slug"]);
           sc_market_id := value ← read_str (get ["market_id"]);
             if eq_ignore_ascii_case value "all" then None else Some (to_ascii_lowercase value);
           contract_address := contract;
           call_data := data;
           block_tag := default (VString "latest") (get ["block_tag"]);
           sc_decimals := default 18 (read_i32 (get ["decimals"; "tvl_decimals"]));
           sc_price_usd := read_f64 (get ["price_usd"]);
           sc_metric := to_ascii_lowercase (default "tvl" (read_str (get ["metric"])));
           sc_event_type := read_str (get ["event_type"]) |})
  end.
Fixpoint parse_calls (items : list Value) (filter_config : Value) : outcome (list StateCallSpec) :=
  match items with
  | [] => Ret []
  | item :: items =>
      spec ← parse_state_call item filter_config;
      rest ← parse_calls items filter_config;
      Ret (match spec with Some spec => spec :: rest | None => rest end)
  end.
Definition parse_state_call_specs (filter_config : Value) : outcome (list StateCallSpec) :=
  match vget "calls" filter_config ≫= as_array with
  | Some items => parse_calls items filter_config
  | None =>
      match vget "markets" filter_config ≫= as_array with
      | Some items => parse_calls items filter_config
      | None => parse_calls [filter_config] filter_config
      end
  end.
Definition normalize_rpc_state_http_endpoint (endpoint : string) : string :=
  let trimmed := trim endpoint in
  match strip_prefix "wss://" trimmed with
  | Some rest => "https://" +:+ rest
  | None =>
      match strip_prefix "ws://" trimmed with
      | Some rest => "http://" +:+ rest
      | None => trimmed
      end
  end.

(** ** The payload of a word *)

Definition parse_hex_to_u256 (raw : string) : option Z :=
  let body := trim (default raw (strip_prefix "0x" raw)) in
  if is_empty body then None else u256_from_hex body.
Definition u256_to_scaled_f64 (value : Z) (decimals : Z) : option f64 :=
  raw ← Numbers.parse_f64 (u256_to_string value);
  let divisor := powi f64_ten (Z.max decimals 0) in
  if negb (is_finite divisor) || f64_le divisor f64_zero then None
  else Some (f64_div raw divisor).
(** when and where the calls of a round are made *)
Record CallContext := {
  cc_chain_id : option Z;
  cc_block_number : Z;
  cc_observed_at_millis : Z
}.
Definition is_metric (spec : StateCallSpec) (name : string) : bool :=
  eq_ignore_ascii_case (sc_metric spec) name.
Definition paused_of (spec : StateCallSpec) (raw_u256 : option Z) : option bool :=
  if is_metric spec "pause" || is_metric spec "protocol_pause" then
    (fun value => negb (value =? 0)) <$> raw_u256
  else None.
Definition state_event_type (spec : StateCallSpec) (paused : option bool) : string :=
  default (match paused with
           | Some true => "protocol_pause"
           | Some false => "protocol_unpause"
           | None => "protocol_state"
           end) (sc_event_type spec).
Definition word_payload (spec : StateCallSpec) (raw_trimmed : string) (cc : CallContext) : Value :=
  let raw_u256 := parse_hex_to_u256 raw_trimmed in
  let tvl_native := value ← raw_u256; u256_to_scaled_f64 value (sc_decimals spec) in
  let tvl_usd :=
    native ← tvl_native; price_usd ← sc_price_usd spec;
    if is_finite price_usd then Some (f64_mul native price_usd) else None in
  let utilization := if is_metric spec "utilization" then tvl_native else None in
  let paused := paused_of spec raw_u256 in
  VObj [ ("event_type", VString (state_event_type spec paused));
         ("metric", VString (sc_metric spec));
         ("protocol_id", VString (sc_protocol_id spec));
         ("chain_slug", VOpt VString (sc_chain_slug spec));
         ("market_id", VOpt VString (sc_market_id spec));
         ("contract_address", VString (contract_address spec));
         ("call_data", VString (call_data spec));
         ("eth_call_result", VString raw_trimmed);
         ("tvl_raw", VOpt (fun value => VString (u256_to_string value)) raw_u256);
         ("tvl_native", VOpt VFloat tvl_native);
         ("price_usd", VOpt VFloat (sc_price_usd spec));
         ("tvl_usd", VOpt VFloat tvl_usd);
         ("utilization", VOpt VFloat utilization);
         ("current_utilization", VOpt VFloat utilization);
         ("paused", VOpt VBool paused);
         ("decimals", VInt (sc_decimals spec));
         ("chainId", VOpt VInt (cc_chain_id cc));
         ("block_number", VInt (cc_block_number cc));
         ("timestamp", VInt (cc_observed_at_millis cc)) ].

(** ** The payload of a simulated answer *)

Definition parse_mock_state_payload (raw : string) : option Value :=
  let trimmed := trim raw in
  if negb (starts_with trimmed "{") then None
  else v ← from_str trimmed; if is_some (as_object v) then Some v else None.
Definition read_timestamp_millis (value : option Value) : option Z :=
  match value ≫= as_i64 with
  | Some number => Some number
  | None =>
      text ← value ≫= as_str;
      if is_empty (trim text) then None
      else match Numbers.parse_i64 (trim text) with
           | Some number => Some number
           | None => timestamp_millis <$> parse_from_rfc3339 (trim text)
           end
  end.
Definition inferred_tvl_usd (payload : gmap string Value) (price_usd : option f64) : option f64 :=
  or_else (read_f64 (payload !! "tvl_usd"))
    (or_else (read_f64 (payload !! "total_supplied_tokens"))
      (or_else (read_f64 (payload !! "total_supplied"))
        (native ← read_f64 (payload !! "tvl_native");
         price ← or_else price_usd (read_f64 (payload !! "price_usd"));
         if negb (is_finite price) || f64_le price f64_zero then None
         else Some (f64_mul native price)))).
(** [object.entry(key).or_insert_with(|| v)] *)
Definition or_insert (key : string) (v : Value) (object : gmap string Value) : gmap string Value :=
  match object !! key with Some _ => object | None => <[key := v]> object end.
Definition or_insert_opt {A} (key : string) (f : A -> Value) (o : option A) (object : gmap string Value)
  : gmap string Value :=
  match o with Some a => or_insert key (f a) object | None => object end.
Definition with_utilization (object : gmap string Value) : gmap string Value :=
  match or_else (read_f64 (object !! "utilization")) (read_f64 (object !! "current_utilization")) with
  | Some utilization =>
      or_insert "current_utilization" (VFloat utilization)
        (or_insert "utilization" (VFloat utilization) object)
  | None => object
  end.
Definition with_tvl_usd (spec : StateCallSpec) (object : gmap string Value) : gmap string Value :=
  or_insert_opt "tvl_usd" VFloat (inferred_tvl_usd object (sc_price_usd spec)) object.
Definition described (spec : StateCallSpec) (object : gmap string Value) : gmap string Value :=
  let object := or_insert "event_type" (VString (default "protocol_state" (sc_event_type spec))) object in
  let object := or_insert "metric" (VString (sc_metric spec)) object in
  let object := or_insert "protocol_id" (VString (sc_protocol_id spec)) object in
  let object := or_insert_opt "chain_slug" VString (sc_chain_slug spec) object in
  let object := or_insert_opt "market_id" VString (sc_market_id spec) object in
  let object := or_insert "contract_address" (VString (contract_address spec)) object in
  or_insert "call_data" (VString (call_data spec)) object.
Definition build_mock_state_payload (spec : StateCallSpec) (raw_result : string) (cc : CallContext)
  : option Value :=
  object ← parse_mock_state_payload raw_result ≫= as_object;
  let object := described spec object in
  let object := <["chainId" := VOpt VInt (cc_chain_id cc)]> object in
  let object := <["block_number" := VInt (cc_block_number cc)]> object in
  let object := <["timestamp" := VInt (default (cc_observed_at_millis cc)
                    (read_timestamp_millis (object !! "timestamp")))]> object in
  let object := or_insert "decimals" (VInt (sc_decimals spec)) object in
  let object := or_insert_opt "price_usd" VFloat (sc_price_usd spec) object in
  Some (VObject (if is_metric spec "utilization" then with_tvl_usd spec (with_utilization object)
                 else if is_metric spec "tvl" then with_tvl_usd spec object
                 else object)).

(** ** The connector *)

Record RpcStateConnector := {
  rs_endpoint : string;
  rs_filter_config : Value;
  rs_poll_interval : Z;
  rs_provider : bool;
  rs_pending : list Value;
  rs_chain_id : option Z
}.
Definition rs_new (endpoint : string) (filter_config : Value) (poll_interval : Z) : RpcStateConnector :=
  {| rs_endpoint := endpoint; rs_filter_config := filter_config; rs_poll_interval := poll_interval;
     rs_provider := false; rs_pending := []; rs_chain_id := None |}.
Definition rs_connect (answer : ConnectAnswer) (c : RpcStateConnector) : RpcStateConnector * outcome unit :=
  match answer with
  | ConnectFailed =>
      (c, Err ("failed connecting rpc http endpoint: "
               +:+ normalize_rpc_state_http_endpoint (rs_endpoint c)))
  | Connected chainid =>
      match connected_chain chainid with
      | Ret chain_id =>
          ({| rs_endpoint := rs_endpoint c; rs_filter_config := rs_filter_config c;
              rs_poll_interval := rs_poll_interval c; rs_provider := true;
              rs_pending := rs_pending c; rs_chain_id := chain_id |}, Ret ())
      | Err e => (c, Err e)
      | Panic => (c, Panic)
      end
  end.
(** a round: the latest block, the time, the answers to the calls by contract,
    data and block; [None]: the call failed *)
Record CallRound := {
  cr_block : option Z;
  cr_now : DateTime;
  eth_call : string -> string -> Value -> option string
}.
Definition rs_with_pending (l : list Value) (c : RpcStateConnector) : RpcStateConnector :=
  {| rs_endpoint := rs_endpoint c; rs_filter_config := rs_filter_config c;
     rs_poll_interval := rs_poll_interval c; rs_provider := rs_provider c; rs_pending := l;
     rs_chain_id := rs_chain_id c |}.
(** the payload of a call; a call that failed has none *)
Definition call_payload (r : CallRound) (cc : CallContext) (spec : StateCallSpec) : option Value :=
  raw_result ← eth_call r (contract_address spec) (call_data spec) (block_tag spec);
  let raw_trimmed := trim raw_result in
  Some (default (word_payload spec raw_trimmed cc) (build_mock_state_payload spec raw_trimmed cc)).
Definition refresh_pending_calls (r : CallRound) (c : RpcStateConnector)
  : RpcStateConnector * outcome unit :=
  if negb (rs_provider c) then (c, Err "rpc_state connector is not connected")
  else match parse_state_call_specs (rs_filter_config c) with
       | Err e => (c, Err e)
       | Panic => (c, Panic)
       | Ret [] => (c, Err "rpc_state connector missing calls configuration")
       | Ret call_specs =>
           match cr_block r with
           | None => (c, Err "failed to fetch latest block for rpc_state connector")
           | Some block_number =>
               let cc := {| cc_chain_id := rs_chain_id c; cc_block_number := block_number;
                            cc_observed_at_millis := timestamp_millis (cr_now r) |} in
               (rs_with_pending (rs_pending c ++ omap (call_payload r cc) call_specs) c, Ret ())
           end
       end.
Fixpoint rs_next_payload (rounds : list CallRound) (c : RpcStateConnector)
  : (RpcStateConnector * list CallRound) * option (outcome Value) :=
  match rs_pending c with
  | payload :: pending => ((rs_with_pending pending c, rounds), Some (Ret payload))
  | [] =>
      match rounds with
      | [] => ((c, []), None)
      | r :: rounds =>
          match refresh_pending_calls r c with
          | (c, Err e) => ((c, rounds), Some (Err e))
          | (c, Panic) => ((c, rounds), Some Panic)
          | (c, Ret _) =>
              match rs_pending c with
              | payload :: pending => ((rs_with_pending pending c, rounds), Some (Ret payload))
              | [] => rs_next_payload rounds c
              end
          end
      end
  end.
End rpc_state.

(** ** Theorems *)

Section rpc_state.
Context `{Chrono} `{SerdeJson} `{Powi} `{U256} `{!HashOrder} `{!JsonText} `{!JsonScalars} (now : DateTime).
Implicit Types (spec : StateCallSpec) (cc : CallContext).

(** ** The result of a call *)

(** the ABI encoding of one unsigned word *)
Definition abi_result (v : Z) : string := "0x" +:+ abi_word v.
Lemma abi_word_trim v : trim (abi_word v) = abi_word v.
Proof.
  pose proof (abi_word_hex v) as Hh. pose proof (abi_word_length v) as Hl.
  assert (Hne : abi_word v <> "") by (intros He; by rewrite He in Hl).
  destruct (rev_hex _ Hh Hne) as (c & r & Hr & Hc).
  apply trim_plain; [|exists c, r; split; [done|by apply hex_plain]].
  destruct (abi_word v) as [|d s]; [done|]. exists d, s. split; [done|].
  unfold hex_text in Hh. simpl in Hh. inversion Hh; subst. by apply hex_plain.
Qed.
Lemma abi_result_trim v : trim (abi_result v) = abi_result v.
Proof.
  assert (Hne : abi_word v <> "") by (intros He; pose proof (abi_word_length v) as Hl; by rewrite He in Hl).
  destruct (rev_hex _ (abi_word_hex v) Hne) as (c & r & Hr & Hc). apply trim_plain.
  - exists "0"%char. eexists. split; [done|]. apply hex_plain. vm_compute. by left.
  - destruct (rev_app_suffix "0x" _ c r Hr) as [r' Hr']. exists c, r'. split; [done|by apply hex_plain].
Qed.
Lemma parse_abi_result v : 0 <= v < 2 ^ 256 -> parse_hex_to_u256 (abi_result v) = Some v.
Proof.
  intros Hv. unfold parse_hex_to_u256, abi_result. rewrite strip_prefix_app. simpl.
  rewrite abi_word_trim, abi_word_value, Z.mod_small by done.
  pose proof (abi_word_length v) as Hl. by destruct (abi_word v).
Qed.
Lemma call_word_payload r cc spec v :
  eth_call r (contract_address spec) (call_data spec) (block_tag spec) = Some (abi_result v) ->
  call_payload r cc spec = Some (word_payload spec (abi_result v) cc).
Proof.
  intros Hc. unfold call_payload. rewrite Hc. simpl. rewrite abi_result_trim. do 2 f_equal.
  unfold build_mock_state_payload, parse_mock_state_payload. by rewrite abi_result_trim.
Qed.

(** ** What the parsers read *)

(** the value of a word with the decimals of the call *)
Definition scaled spec (v : Z) : f64 :=
  f64_div (f64_of_Z v) (powi f64_ten (Z.max (sc_decimals spec) 0)).
(** the parts of a specification that a document can give it *)
Definition spec_ok spec : Prop :=
  is_empty (trim (sc_protocol_id spec)) = false /\ sc_event_type spec = None /\
  - 2 ^ 31 <= sc_decimals spec <= 2 ^ 31 - 1 /\
  let divisor := powi f64_ten (Z.max (sc_decimals spec) 0) in
  is_finite divisor = true /\ f64_le divisor f64_zero = false.
Definition field_of (m : outcome ParsedFeedEvent) (k : string) : option Value :=
  match m with Ret ev => vget k (pf_normalized_fields ev) | _ => None end.
Definition type_of (m : outcome ParsedFeedEvent) : option string :=
  match m with Ret ev => Some (pf_event_type ev) | _ => None end.

Lemma scaled_spec spec v : spec_ok spec -> 0 <= v < 2 ^ 256 ->
  u256_to_scaled_f64 v (sc_decimals spec) = Some (scaled spec v).
Proof.
  intros (_ & _ & _ & Hf & Hp) Hv. unfold u256_to_scaled_f64. rewrite u256_to_string_spec by done.
  rewrite parse_f64_fmt_Z by lia. simpl. by rewrite Hf, Hp.
Qed.
Lemma first_VObj keys l :
  first_of keys (VObj l) = foldr (fun k rest => or_else (entry k l) rest) None keys.
Proof. unfold first_of. induction keys as [|k keys IH]; [done|]. cbn [foldr]. by rewrite IH, vget_VObj. Qed.
(** a number of the payload, [null] when it is not finite *)
Lemma value_to_f64_VOpt (o : option f64) : value_to_f64 (VOpt VFloat o) = o ≫= finite.
Proof.
  unfold value_to_f64. destruct o as [x|]; simpl; [|by rewrite as_f64_VNull, as_str_VNull].
  rewrite as_f64_VFloat, as_str_VFloat. unfold finite. by case_match.
Qed.

Lemma payload_type input spec v cc : sc_event_type spec = None ->
  0 <= v < 2 ^ 256 ->
  payload_event_type input (word_payload spec (abi_result v) cc) =
  state_event_type spec (paused_of spec (Some v)).
Proof.
  intros Hs Hv. unfold payload_event_type, word_payload. rewrite get_str_VObj. simpl.
  rewrite as_str_VString, parse_abi_result by done. unfold state_event_type. rewrite Hs. simpl.
  by destruct (paused_of spec (Some v)) as [[]|].
Qed.
Lemma payload_protocol spec v cc : is_empty (trim (sc_protocol_id spec)) = false ->
  protocol_id_of (word_payload spec (abi_result v) cc) =
  Ret (to_ascii_lowercase (trim (sc_protocol_id spec))).
Proof.
  intros Hs. unfold protocol_id_of, word_payload. rewrite first_VObj. simpl.
  rewrite as_str_VString. simpl. by rewrite Hs.
Qed.

(** the value of a TVL word: the amount times the price *)
Definition word_usd spec (v : Z) : option f64 :=
  price ← sc_price_usd spec;
  if is_finite price then positive_finite (f64_mul (scaled spec v) price) else None.
(** the parser computes again what the connector computed *)
Lemma usd_once spec v : word_usd spec v =
  (or_else (price ← sc_price_usd spec;
            if is_finite price then finite (f64_mul (scaled spec v) price) else None)
    (native ← Some (scaled spec v); price ← sc_price_usd spec ≫= positive_finite;
     Some (f64_mul native price)) ≫= positive_finite).
Proof.
  unfold word_usd. destruct (sc_price_usd spec) as [x|]; [|done]. simpl.
  destruct (is_finite x) eqn:Hx; [|by rewrite positive_finite_nonfinite].
  unfold finite. destruct (is_finite (f64_mul (scaled spec v) x)) eqn:Hf; [done|].
  rewrite positive_finite_nonfinite by done. destruct (positive_finite x) as [y|] eqn:Hy; [|done].
  unfold positive_finite in Hy. case_match; [|done]. injection Hy as <-. simpl.
  by rewrite positive_finite_nonfinite.
Qed.
Lemma tvl_word input spec v cc : spec_ok spec -> 0 <= v < 2 ^ 256 ->
  is_finite (scaled spec v) = true ->
  let m := protocol_tvl_parse now input (word_payload spec (abi_result v) cc) in
  match word_usd spec v with
  | Some usd => type_of m = Some (state_event_type spec (paused_of spec (Some v))) /\
      field_of m "tvl_usd" = Some (VFloat usd) /\
      field_of m "tvl_native" = Some (VFloat (scaled spec v))
  | None => m = Err "missing_tvl_usd"
  end.
Proof.
  intros Hs Hv Hfin m. pose proof (scaled_spec spec v Hs Hv) as Hsc.
  destruct Hs as (Hid & Het & Hd & Hf & Hp). unfold m, protocol_tvl_parse.
  rewrite payload_protocol by done. cbn [mbind outcome_bind].
  set (p := word_payload spec (abi_result v) cc).
  assert (Hn : vget "tvl_native" p ≫= value_to_f64 = Some (scaled spec v)).
  { unfold p, word_payload. rewrite vget_VObj. simpl. rewrite parse_abi_result by done. simpl.
    rewrite Hsc. etrans; [exact (value_to_f64_VOpt (Some _))|]. simpl. unfold finite. by rewrite Hfin. }
  assert (Hpr : (v ← vget "price_usd" p; x ← value_to_f64 v; positive_finite x)
    = sc_price_usd spec ≫= positive_finite).
  { unfold p, word_payload. rewrite vget_VObj. simpl.
    rewrite value_to_f64_VOpt. destruct (sc_price_usd spec) as [x|]; [|done]. simpl.
    unfold finite, positive_finite. destruct (is_finite x) eqn:Hx; simpl; by rewrite ?Hx. }
  assert (Hu : vget "tvl_usd" p ≫= value_to_f64 =
    (price ← sc_price_usd spec; if is_finite price then finite (f64_mul (scaled spec v) price) else None)).
  { unfold p, word_payload. rewrite vget_VObj. simpl. rewrite parse_abi_result by done. simpl.
    rewrite Hsc. simpl. rewrite value_to_f64_VOpt.
    destruct (sc_price_usd spec) as [x|]; [|done]. simpl. by destruct (is_finite x). }
  rewrite Hn, Hpr, Hu, <- usd_once. cbn [or_else].
  destruct (word_usd spec v) as [usd|]; [|done]. simpl. unfold field_of. simpl. rewrite !vget_VObj.
  split; [|by split]. f_equal. by apply payload_type.
Qed.
Lemma utilization_word input spec v cc : spec_ok spec -> 0 <= v < 2 ^ 256 ->
  is_finite (scaled spec v) = true -> is_metric spec "utilization" = true ->
  let m := protocol_utilization_parse now input (word_payload spec (abi_result v) cc) in
  type_of m = Some (state_event_type spec (paused_of spec (Some v))) /\
  field_of m "utilization_pct" = Some (VFloat (as_percent (scaled spec v))).
Proof.
  intros Hs Hv Hfin Hm m. pose proof (scaled_spec spec v Hs Hv) as Hsc.
  destruct Hs as (Hid & Het & _). unfold m, protocol_utilization_parse.
  rewrite payload_protocol by done. cbn [mbind outcome_bind].
  assert (Hu : first_of ["utilization"; "current_utilization"] (word_payload spec (abi_result v) cc)
    ≫= value_to_f64 = Some (scaled spec v)).
  { unfold word_payload. rewrite first_VObj. simpl. rewrite parse_abi_result by done. simpl.
    rewrite Hsc, Hm. etrans; [exact (value_to_f64_VOpt (Some _))|]. simpl. unfold finite. by rewrite Hfin. }
  rewrite Hu. simpl. unfold field_of. simpl. rewrite !vget_VObj.
  split; [|done]. f_equal. by apply payload_type.
Qed.
Lemma pause_word input spec v cc : spec_ok spec -> 0 <= v < 2 ^ 256 ->
  is_metric spec "pause" || is_metric spec "protocol_pause" = true ->
  let m := protocol_pause_parse now input (word_payload spec (abi_result v) cc) in
  type_of m = Some (if v =? 0 then "protocol_unpause" else "protocol_pause") /\
  field_of m "paused" = Some (VBool (negb (v =? 0))).
Proof.
  intros Hs Hv Hm m. destruct Hs as (Hid & Het & _). unfold m, protocol_pause_parse.
  rewrite payload_protocol by done. cbn [mbind outcome_bind].
  assert (Hpa : paused_of spec (Some v) = Some (negb (v =? 0))) by (unfold paused_of; by rewrite Hm).
  assert (Hb : first_of ["paused"; "is_paused"] (word_payload spec (abi_result v) cc)
    ≫= value_to_bool = Some (negb (v =? 0))).
  { unfold word_payload. rewrite first_VObj. simpl. rewrite parse_abi_result by done. simpl.
    rewrite Hpa. simpl. unfold value_to_bool. by rewrite as_bool_VBool. }
  rewrite Hb. simpl. unfold field_of, type_of. simpl. rewrite !vget_VObj. split; [|done].
  unfold word_payload. rewrite get_str_VObj. simpl. rewrite as_str_VString, parse_abi_result by done.
  rewrite Hpa. unfold state_event_type. rewrite Het. by destruct (v =? 0).
Qed.

(** A contract read by the state connector becomes the event of the word it
    answers with.  When a call returns the ABI encoding of an unsigned 256-bit
    integer, the payload it puts in the queue is parsed, under the parser of its
    metric, to the amount with the decimals of the call: the TVL parser publishes
    the amount times the configured price when that is positive and finite, and
    refuses the payload otherwise; the utilization parser publishes the amount
    as a percentage; the pause parser publishes a pause exactly when the word is
    not zero. *)
Theorem contract_word_published input r cc spec v : spec_ok spec -> 0 <= v < 2 ^ 256 ->
  is_finite (scaled spec v) = true ->
  eth_call r (contract_address spec) (call_data spec) (block_tag spec) = Some (abi_result v) ->
  exists payload, call_payload r cc spec = Some payload /\
  (let m := protocol_tvl_parse now input payload in
   match word_usd spec v with
   | Some usd => type_of m = Some (state_event_type spec (paused_of spec (Some v))) /\
       field_of m "tvl_usd" = Some (VFloat usd) /\
       field_of m "tvl_native" = Some (VFloat (scaled spec v))
   | None => m = Err "missing_tvl_usd"
   end) /\
  (is_metric spec "utilization" = true ->
   let m := protocol_utilization_parse now input payload in
   type_of m = Some (state_event_type spec (paused_of spec (Some v))) /\
   field_of m "utilization_pct" = Some (VFloat (as_percent (scaled spec v)))) /\
  (is_metric spec "pause" || is_metric spec "protocol_pause" = true ->
   let m := protocol_pause_parse now input payload in
   type_of m = Some (if v =? 0 then "protocol_unpause" else "protocol_pause") /\
   field_of m "paused" = Some (VBool (negb (v =? 0)))).
Proof.
  intros Hs Hv Hfin Hc. exists (word_payload spec (abi_result v) cc).
  split_and!; [by apply call_word_payload|by apply tvl_word| |]; intros Hm;
    [by apply utilization_word|by apply pause_word].
Qed.
End rpc_state.
