(* ===== verification/Websocket.v ===== *)
(** * The websocket connector ([apps/indexer/src/stream_connector/websocket.rs])

    The endpoint, the messages that subscribe, and the loop that reads payloads
    and keeps a heartbeat.  What the socket does and when is a parameter: a
    [Turn] of the loop has the instants (monotonic nanoseconds) at which the code
    asks for the time.

    When a silent connection is noticed, and what a subscription that is a
    document of the configuration becomes. *)
From Stdlib Require Import Ascii.
From S2P Require Import Prelude F64 Text Numbers Ports FieldMapping Hex StreamParser TickerParsers TickerProofs WorkerConfig SseConnector.

(** [Duration::from_secs_f64] of a positive finite number, in nanoseconds; it
    panics when the seconds do not fit in a [u64] *)
Definition from_secs_f64 (secs : f64) : outcome Z :=
  let nanos :=
    match secs with
    | SpecFloat.S754_finite _ m e =>
        if 0 <=? e then Zpos m * 2 ^ e * 1000000000
        else div_half_even (Zpos m * 1000000000) (2 ^ (- e))
    | _ => 0
    end in
  if nanos / 1000000000 <=? u64_max then Ret nanos else Panic.

Section websocket.
Context `{SerdeJson} `{!JsonText}.

(** ** Messages *)

Inductive Message :=
  | MText (text : string) | MBinary (bytes : string) | MPing (payload : string)
  | MPong (payload : string) | MFrame | MClose (frame : string).
Definition to_websocket_message (value : Value) : Message :=
  match as_str value with
  | Some text => MText text
  | None => if is_null value then MPing "" else MText (value_to_string value)
  end.
Definition SUBSCRIPTION_KEY : string := braced "subscription_key".
(** the strings of a document, down to the depth of [fuel] *)
Fixpoint template_at (fuel : nat) (subscription_key : string) (value : Value) : Value :=
  match fuel with
  | O => value
  | S fuel =>
      match as_str value with
      | Some text => VString (replace_all SUBSCRIPTION_KEY subscription_key text)
      | None =>
          match as_array value with
          | Some items => VArray (template_at fuel subscription_key <$> items)
          | None =>
              match as_object value with
              | Some entries => VObject (template_at fuel subscription_key <$> entries)
              | None => value
              end
          end
      end
  end.
Definition template_value (value : Value) (subscription_key : option string) : Value :=
  match subscription_key with
  | None => value
  | Some subscription_key => template_at (S recursion_limit) subscription_key value
  end.
Definition resolve_endpoint (endpoint : string) (subscription_key : option string) : string :=
  let endpoint := trim_end_matches "/" endpoint in
  match trimmed_nonempty subscription_key with
  | None => endpoint
  | Some subscription_key =>
      if contains endpoint SUBSCRIPTION_KEY then replace_all SUBSCRIPTION_KEY subscription_key endpoint
      else if contains endpoint "binance.com" && contains endpoint "/ws" then
        endpoint +:+ "/" +:+ subscription_key
      else endpoint
  end.
Definition config_symbols (key : string) (filter_config : Value) : list string :=
  match vget key filter_config ≫= as_array with Some items => omap as_str items | None => [] end.
Definition ticker_param (stream_name symbol : string) : string :=
  if has_char "@" symbol then to_ascii_lowercase symbol
  else to_ascii_lowercase symbol +:+ "@" +:+ stream_name.
Definition subscribe_params (stream_name : string) (subscription_key : option string)
    (symbols : list string) : list string :=
  if eq_ignore_ascii_case stream_name "miniTicker" || eq_ignore_ascii_case stream_name "ticker" then
    ticker_param stream_name <$> symbols
  else match subscription_key with Some key => [key] | None => symbols end.
Definition build_subscribe_messages (stream_name : string) (subscription_key : option string)
    (filter_config : Value) : list Value :=
  let subscription_key := trimmed_nonempty subscription_key in
  match vget "subscribe_message" filter_config with
  | Some custom_message =>
      match as_array custom_message with
      | Some items => (fun item => template_value item subscription_key) <$> items
      | None => if is_some (as_object custom_message) then [template_value custom_message subscription_key]
                else []
      end
  | None =>
      let symbols := config_symbols "symbols" filter_config in
      let symbols := match symbols with [] => config_symbols "market_symbols" filter_config | _ => symbols end in
      match symbols with
      | [] => []
      | _ =>
          let params := subscribe_params stream_name subscription_key symbols in
          [template_value (VObj [("method", VString "SUBSCRIBE"); ("params", VArray (VString <$> params));
                                 ("id", VInt 1)]) subscription_key]
      end
  end.

(** ** The connector *)

Record WebsocketStreamConnector := {
  ws_endpoint : string;
  ws_stream_name : string;
  ws_subscription_key : option string;
  ws_filter_config : Value;
  ping_message : option Value;
  ping_interval : option Z;
  pong_timeout : option Z;
  pending_ping_sent_at : option Z;
  ws_open : bool;
  ws_sent : list Message    (** what went out on the socket *)
}.
Definition parse_duration_from_seconds (value : option Value) : outcome (option Z) :=
  let secs :=
    raw ← value;
    or_else (as_f64 raw) (text ← as_str raw; Numbers.parse_f64 text) in
  match secs ≫= positive_finite with
  | None => Ret None
  | Some secs => d ← from_secs_f64 secs; Ret (Some d)
  end.
Definition ws_new (endpoint stream_name : string) (subscription_key : option string)
    (filter_config : Value) : outcome WebsocketStreamConnector :=
  interval ← parse_duration_from_seconds (vget "ping_interval_sec" filter_config);
  timeout ← parse_duration_from_seconds (vget "pong_timeout_sec" filter_config);
  Ret {| ws_endpoint := endpoint; ws_stream_name := stream_name;
         ws_subscription_key := subscription_key; ws_filter_config := filter_config;
         ping_message := vget "ping_message" filter_config; ping_interval := interval;
         pong_timeout := timeout; pending_ping_sent_at := None; ws_open := false; ws_sent := [] |}.
Definition set_ping (at_ : option Z) (c : WebsocketStreamConnector) : WebsocketStreamConnector :=
  {| ws_endpoint := ws_endpoint c; ws_stream_name := ws_stream_name c;
     ws_subscription_key := ws_subscription_key c; ws_filter_config := ws_filter_config c;
     ping_message := ping_message c; ping_interval := ping_interval c; pong_timeout := pong_timeout c;
     pending_ping_sent_at := at_; ws_open := ws_open c; ws_sent := ws_sent c |}.
Definition set_socket (open : bool) (sent : list Message) (c : WebsocketStreamConnector)
  : WebsocketStreamConnector :=
  {| ws_endpoint := ws_endpoint c; ws_stream_name := ws_stream_name c;
     ws_subscription_key := ws_subscription_key c; ws_filter_config := ws_filter_config c;
     ping_message := ping_message c; ping_interval := ping_interval c; pong_timeout := pong_timeout c;
     pending_ping_sent_at := pending_ping_sent_at c; ws_open := open; ws_sent := sent |}.
Definition send (m : Message) (c : WebsocketStreamConnector) : WebsocketStreamConnector :=
  set_socket (ws_open c) (ws_sent c ++ [m]) c.
(** the subscriptions, until one cannot be sent; [sends]: how many can *)
Fixpoint subscribe (messages : list Value) (sends : nat) (c : WebsocketStreamConnector)
  : WebsocketStreamConnector * outcome unit :=
  match messages with
  | [] => (c, Ret ())
  | m :: messages =>
      match sends with
      | O => (c, Err "failed to send websocket subscription payload")
      | S sends => subscribe messages sends (send (MText (value_to_string m)) c)
      end
  end.
(** [None]: the connection fails *)
Definition ws_connect (answer : option nat) (c : WebsocketStreamConnector)
  : WebsocketStreamConnector * outcome unit :=
  match answer with
  | None => (c, Err ("failed to connect websocket endpoint: "
                     +:+ resolve_endpoint (ws_endpoint c) (ws_subscription_key c)))
  | Some sends =>
      subscribe (build_subscribe_messages (ws_stream_name c) (ws_subscription_key c) (ws_filter_config c))
        sends (set_ping None (set_socket true [] c))
  end.

(** ** The heartbeat *)

(** what a read within a second comes to *)
Inductive WsRead := NoMessage | StreamEnded | WsReadFailed | Received (m : Message).
(** a turn of the loop: when it looks whether a ping is due, whether the ping and
    a pong can be sent and when the ping was, when it looks for the timeout, and
    what it reads *)
Record Turn := {
  tn_due : Z;
  tn_ping_ok : bool;
  tn_sent_at : Z;
  tn_check : Z;
  tn_read : WsRead;
  tn_pong_ok : bool
}.
(** [sent_at.elapsed()] at [now] *)
Definition elapsed (sent_at now : Z) : Z := sat_sub now sent_at.
Definition ping_due (due : Z) (c : WebsocketStreamConnector) : bool :=
  match ping_interval c with
  | None => false
  | Some interval =>
      match pending_ping_sent_at c with
      | Some sent_at => interval <=? elapsed sent_at due
      | None => true
      end && ws_open c
  end.
Definition heartbeat_message (c : WebsocketStreamConnector) : Message :=
  match ping_message c with Some m => to_websocket_message m | None => MPing "" end.
Definition send_heartbeat_if_due (t : Turn) (c : WebsocketStreamConnector)
  : WebsocketStreamConnector * outcome unit :=
  if negb (ping_due (tn_due t) c) then (c, Ret ())
  else if tn_ping_ok t then (set_ping (Some (tn_sent_at t)) (send (heartbeat_message c) c), Ret ())
  else (c, Err "failed sending websocket heartbeat ping").
Definition heartbeat_error (timeout : Z) : string :=
  "websocket heartbeat timeout exceeded (>" +:+ fmt_Z (timeout / 1000000000) +:+ "s)".
Definition ensure_heartbeat_not_timed_out (check : Z) (c : WebsocketStreamConnector) : outcome unit :=
  match pong_timeout c, pending_ping_sent_at c with
  | Some timeout, Some sent_at =>
      if timeout <? elapsed sent_at check then Err (heartbeat_error timeout) else Ret ()
  | _, _ => Ret ()
  end.
(** [serde_json::from_slice] *)
Definition from_slice (bytes : string) : option Value := if utf8_valid bytes then from_str bytes else None.
(** what a message does: go on, or return *)
Definition on_message (t : Turn) (m : Message) (c : WebsocketStreamConnector)
  : WebsocketStreamConnector * option (outcome Value) :=
  match m with
  | MText text =>
      match from_str text with
      | Some payload => (set_ping None c, Some (Ret payload))
      | None => (c, Some (Err ("invalid websocket JSON payload: " +:+ text)))
      end
  | MBinary bytes =>
      match from_slice bytes with
      | Some payload => (set_ping None c, Some (Ret payload))
      | None => (c, Some (Err "invalid websocket binary JSON payload"))
      end
  | MPing payload =>
      if negb (ws_open c) then (c, Some (Err "websocket connector disconnected while sending pong"))
      else if tn_pong_ok t then (set_ping None (send (MPong payload) c), None)
      else (c, Some (Err "failed to send websocket pong"))
  | MPong _ => (set_ping None c, None)
  | MFrame => (c, None)
  | MClose frame => (c, Some (Err ("websocket closed: " +:+ frame)))
  end.
Definition on_read (t : Turn) (c : WebsocketStreamConnector)
  : WebsocketStreamConnector * option (outcome Value) :=
  if negb (ws_open c) then (c, Some (Err "websocket stream ended"))
  else match tn_read t with
       | NoMessage => (c, None)
       | StreamEnded => (c, Some (Err "websocket stream ended"))
       | WsReadFailed => (c, Some (Err "websocket read failed"))
       | Received m => on_message t m c
       end.
Definition turn (t : Turn) (c : WebsocketStreamConnector)
  : WebsocketStreamConnector * option (outcome Value) :=
  match send_heartbeat_if_due t c with
  | (c, Ret _) =>
      match ensure_heartbeat_not_timed_out (tn_check t) c with
      | Ret _ => on_read t c
      | Err e => (c, Some (Err e))
      | Panic => (c, Some Panic)
      end
  | (c, Err e) => (c, Some (Err e))
  | (c, Panic) => (c, Some Panic)
  end.
(** the turns left, and the answer; [None]: the turns ran out *)
Fixpoint ws_next_payload (turns : list Turn) (c : WebsocketStreamConnector)
  : (WebsocketStreamConnector * list Turn) * option (outcome Value) :=
  match turns with
  | [] => ((c, []), None)
  | t :: turns =>
      match turn t c with
      | (c, Some o) => ((c, turns), Some o)
      | (c, None) => ws_next_payload turns c
      end
  end.
End websocket.

(** ** Theorems *)

Section websocket.
Context `{SerdeJson} `{!JsonText}.
Implicit Types (c : WebsocketStreamConnector) (t : Turn).

(** ** Silence *)

(** the turn at [now] on a socket on which nothing arrives *)
Definition silent_turn (now : Z) : Turn :=
  {| tn_due := now; tn_ping_ok := true; tn_sent_at := now; tn_check := now; tn_read := NoMessage;
     tn_pong_ok := true |}.
(** [n] turns, a period apart *)
Definition silence (start period : Z) (n : nat) : list Turn :=
  (fun k => silent_turn (start + Z.of_nat k * period)) <$> seq 0 n.
Definition noticed (turns : list Turn) c : Prop :=
  exists e, (ws_next_payload turns c).2 = Some (Err e).

(** a socket with a heartbeat whose last ping was sent at [sent_at] *)
Definition beating (interval timeout sent_at : Z) c : Prop :=
  ping_interval c = Some interval /\ pong_timeout c = Some timeout /\ ws_open c = true /\
  pending_ping_sent_at c = Some sent_at.
Lemma turn_pings interval timeout now c :
  ping_interval c = Some interval -> pong_timeout c = Some timeout -> ws_open c = true -> 0 < timeout ->
  match pending_ping_sent_at c with Some s => interval <= elapsed s now | None => True end ->
  exists c', turn (silent_turn now) c = (c', None) /\ beating interval timeout now c'.
Proof.
  intros Hi Hp Ho Ht Hd. exists (set_ping (Some now) (send (heartbeat_message c) c)).
  assert (Hdue : ping_due now c = true).
  { unfold ping_due. rewrite Hi, Ho, andb_true_r. revert Hd.
    destruct (pending_ping_sent_at c); [by intros ?%Z.leb_le|done]. }
  unfold turn, send_heartbeat_if_due. cbn [tn_due silent_turn]. rewrite Hdue. simpl. unfold ensure_heartbeat_not_timed_out. simpl. rewrite Hp.
  replace (timeout <? elapsed now now) with false
    by (symmetry; apply Z.ltb_ge; unfold elapsed, sat_sub; lia).
  unfold on_read. simpl. rewrite Ho. split; [done|]. by split_and!.
Qed.
Lemma turn_waits interval timeout s now c : beating interval timeout s c -> elapsed s now < interval ->
  turn (silent_turn now) c =
  (c, if timeout <? elapsed s now then Some (Err (heartbeat_error timeout)) else None).
Proof.
  intros (Hi & Hp & Ho & Hs) Hd. unfold turn, send_heartbeat_if_due, ping_due. rewrite Hi, Hs, Ho. simpl.
  replace (interval <=? elapsed s now) with false by (symmetry; by apply Z.leb_gt). simpl.
  unfold ensure_heartbeat_not_timed_out. rewrite Hp, Hs. simpl.
  destruct (timeout <? elapsed s now); [done|]. unfold on_read. by rewrite Ho.
Qed.
Lemma silence_cons start period n : silence start period (S n) =
  silent_turn start :: silence (start + period) period n.
Proof.
  unfold silence. simpl. f_equal; [f_equal; lia|]. rewrite <- fmap_S_seq, <- list_fmap_compose.
  apply list_fmap_ext. intros i k _. simpl. f_equal. lia.
Qed.

(** without a whole period between timeout and interval nothing is noticed *)
Lemma silence_passes interval timeout period start n c j : 0 < period -> 0 < timeout -> 0 <= j ->
  interval <= (timeout / period + 1) * period ->
  beating interval timeout (start - j * period) c -> ~ noticed (silence start period n) c.
Proof.
  intros Hp Ht Hj Hle. revert start c j Hj. induction n as [|n IH]; intros start c j Hj Hb [e He];
    [done|].
  rewrite silence_cons in He. cbn [ws_next_payload] in He.
  destruct (decide (elapsed (start - j * period) start < interval)) as [Hlt|Hge].
  - rewrite (turn_waits _ _ _ _ _ Hb Hlt) in He.
    replace (timeout <? elapsed (start - j * period) start) with false in He.
    + eapply (IH (start + period) c (j + 1)); [lia| |by exists e].
      by replace (start + period - (j + 1) * period) with (start - j * period) by lia.
    + symmetry. apply Z.ltb_ge. unfold elapsed, sat_sub in *.
      destruct (decide (j <= timeout / period)).
      * pose proof (Z.mul_div_le timeout period Hp). nia.
      * assert ((timeout / period + 1) * period <= j * period) by nia. lia.
  - pose proof Hb as (Hi & Hpt & Ho & Hs).
    destruct (turn_pings interval timeout start c Hi Hpt Ho Ht) as (c' & Hturn & Hb'); [by rewrite Hs; lia|].
    rewrite Hturn in He. eapply (IH (start + period) c' 1); [lia| |by exists e].
    by replace (start + period - 1 * period) with start by lia.
Qed.
(** the turns up to the first check past the timeout *)
Lemma silence_times_out interval timeout period s m c j : 0 < period -> 0 < timeout ->
  0 <= j -> j + Z.of_nat m = timeout / period + 1 -> (timeout / period + 1) * period < interval ->
  beating interval timeout s c ->
  (ws_next_payload (silence (s + j * period) period (S m)) c).2 = Some (Err (heartbeat_error timeout)).
Proof.
  intros Hp Ht. revert j. induction m as [|m IH]; intros j Hj Hm Hc Hb; rewrite silence_cons;
    cbn [ws_next_payload]; pose proof (Z.mul_div_le timeout period Hp);
    pose proof (Z.mul_succ_div_gt timeout period Hp);
    rewrite (turn_waits _ _ s _ _ Hb) by (unfold elapsed, sat_sub; nia).
  - replace (timeout <? _) with true; [done|]. symmetry. apply Z.ltb_lt. unfold elapsed, sat_sub. nia.
  - replace (timeout <? _) with false.
    + replace (s + j * period + period) with (s + (j + 1) * period) by lia. apply IH; [lia..|done].
    + symmetry. apply Z.ltb_ge. unfold elapsed, sat_sub. nia.
Qed.

(** A connection that falls silent is noticed exactly when a turn of the
    loop falls between the pong timeout and the next ping.  The loop looks once
    per [period]; it renews the time of the outstanding ping whenever it sends
    another one, so with a timeout that is not a whole period shorter than the
    ping interval a dead connection is never noticed, however long it is silent. *)
Theorem silence_noticed_iff interval timeout period start c :
  0 < period -> 0 < timeout -> ping_interval c = Some interval -> pong_timeout c = Some timeout ->
  ws_open c = true -> pending_ping_sent_at c = None ->
  (exists n, noticed (silence start period n) c) <-> (timeout / period + 1) * period < interval.
Proof.
  intros Hp Ht Hi Hpt Ho Hs.
  destruct (turn_pings interval timeout start c Hi Hpt Ho Ht) as (c' & Hturn & Hb); [by rewrite Hs|].
  assert (Hn : forall n, noticed (silence start period (S n)) c <-> noticed (silence (start + period) period n) c').
  { intros n. unfold noticed. rewrite silence_cons. cbn [ws_next_payload]. by rewrite Hturn. }
  split.
  - intros [[|n] Hno]; [by destruct Hno|]. apply Hn in Hno. apply Z.nle_gt. intros Hle. revert Hno.
    apply (silence_passes interval timeout period _ _ _ 1); [done..|lia|done|].
    by replace (start + period - 1 * period) with start by lia.
  - intros Hc. exists (S (S (Z.to_nat (timeout / period)))). apply Hn.
    exists (heartbeat_error timeout). pose proof (Z.div_pos timeout period ltac:(lia) Hp).
    replace (start + period) with (start + 1 * period) by lia.
    eapply silence_times_out; [done|done|lia|lia|done|done].
Qed.

(** ** Templates *)

(** a template of at most [n] levels is filled to the bottom *)
Lemma template_fuel_enough n key v fuel : nests n v -> (n <= fuel)%nat ->
  template_at fuel key v = template_at n key v.
Proof.
  revert v fuel. induction n as [|n IH]; intros v fuel Hn Hf; [by inversion Hn|].
  inversion Hn as [? ? Hc]; subst. destruct fuel as [|fuel]; [lia|]. simpl.
  destruct (as_str v); [done|]. destruct (as_array v) as [items|] eqn:Ha.
  - f_equal. apply list_fmap_ext. intros i x Hx. apply IH; [|lia]. apply Hc. right. by exists items, i.
  - destruct (as_object v) as [m|] eqn:Ho; [|done]. f_equal. apply map_fmap_ext. intros k x Hx.
    apply IH; [|lia]. apply Hc. left. exists k. unfold vget. by rewrite Ho.
Qed.
Lemma template_value_complete v key fuel : nests recursion_limit v -> (recursion_limit <= fuel)%nat ->
  template_value v (Some key) = template_at fuel key v.
Proof.
  intros Hv Hf. unfold template_value. rewrite (template_fuel_enough recursion_limit) by (done || lia).
  symmetry. by apply template_fuel_enough.
Qed.
End websocket.
