(* ===== verification/PollConnectors.v ===== *)
(** * The polling connectors ([apps/indexer/src/stream_connector/{http_poll,
      chainlink_data_streams}.rs])

    One fetches a JSON document over HTTP, the other a signed report through the
    Chainlink SDK, which is an interface.

    A report of the data streams becomes a quote at its benchmark price. *)
From S2P Require Import Prelude F64 Text Numbers Ports FieldMapping Hex StreamParser ChainParsers ProtocolParsers WorkerConfig JsonLaws.

(** the SDK of Chainlink Data Streams and the [hex] crate *)
Class ChainlinkSdk := {
  FeedID : Type;
  id_from_hex_str : string -> FeedID + string;
  id_to_hex_string : FeedID -> string;
  SdkConfig : Type;
  sdk_config : string -> string -> string -> string -> bool -> option Z -> option SdkConfig;
  sdk_client : SdkConfig -> bool;
  hex_decode : string -> option string;
  decode_full_report : string -> option string;
  (** the benchmark price, the bid and the ask of a v3 report *)
  decode_v3 : string -> option (Z * Z * Z)
}.

Section poll.
Context `{!SerdeJson} `{!ProcessEnv}.

(** ** HTTP ([http_poll.rs]) *)

(** what a request comes to *)
Inductive HttpResult := PollFailed | PollNoContent | PollBadStatus | PollBody (json : option Value).
Definition fetch_payload (answer : HttpResult) (endpoint : string) : outcome (option Value) :=
  match answer with
  | PollFailed => Err ("http_poll request failed for " +:+ endpoint)
  | PollNoContent => Ret None
  | PollBadStatus => Err ("http_poll returned non-success status for " +:+ endpoint)
  | PollBody None => Err ("http_poll returned non-JSON payload for " +:+ endpoint)
  | PollBody (Some v) => Ret (Some v)
  end.

(** ** Configuration of the data streams ([chainlink_data_streams.rs]) *)

Definition DEFAULT_REST_URL : string := "https://api.dataengine.chain.link".
Definition DEFAULT_WS_URL : string := "wss://ws.dataengine.chain.link".
Definition DEFAULT_API_KEY_ENVS : list string := ["CHAINLINK_DATA_STREAMS_API_KEY"; "STREAMS_API_KEY"].
Definition DEFAULT_USER_SECRET_ENVS : list string :=
  ["CHAINLINK_DATA_STREAMS_USER_SECRET"; "STREAMS_API_SECRET"].
Fixpoint first_set_env (names : list string) : option string :=
  match names with
  | [] => None
  | name :: names =>
      match env_var name with
      | Some value => if is_empty (trim value) then first_set_env names else Some value
      | None => first_set_env names
      end
  end.
Definition resolve_secret (config : Value) (value_key env_key : string) (default_envs : list string)
  : outcome string :=
  match trimmed_nonempty (get_str value_key config) with
  | Some value => Ret value
  | None =>
      match trimmed_nonempty (get_str env_key config) with
      | Some env_name =>
          of_option ("required env var " +:+ env_name +:+ " is not set") (env_var env_name)
      | None =>
          match first_set_env default_envs with
          | Some value => Ret value
          | None =>
              Err (match default_envs with
                   | [] => "missing config value " +:+ value_key +:+ " or env var pointer " +:+ env_key
                   | _ => "missing config value " +:+ value_key +:+ "; checked env vars "
                          +:+ join ", " default_envs
                   end)
          end
      end
  end.
Fixpoint resolve_connection_endpoint (connection_config : Value) (keys : list string)
    (default_value : string) : string :=
  match keys with
  | [] => default_value
  | key :: keys =>
      match trimmed_nonempty (get_str key connection_config) with
      | Some value => value
      | None => resolve_connection_endpoint connection_config keys default_value
      end
  end.

(** ** The connector of the data streams *)

Context `{!ChainlinkSdk}.
Record ChainlinkDataStreamsConnector := {
  cl_sdk_config : SdkConfig;
  cl_rest_url : string;
  cl_ws_url : string;
  cl_feed_id : FeedID;
  cl_feed_id_hex : string;
  cl_market_key : option string;
  cl_asset_pair : option string;
  cl_price_decimals : Z;
  cl_stream : bool
}.
Definition missing_feed (market_key : option string) (m : outcome string) : outcome string :=
  match m with
  | Err _ => Err ("missing Chainlink Data Streams feed id for market " +:+ default "unknown" market_key)
  | _ => m
  end.
Definition feed_id_of (feed_id_hex : string) : outcome FeedID :=
  match id_from_hex_str feed_id_hex with
  | inl id => Ret id
  | inr error => Err ("invalid Chainlink Data Streams feed id " +:+ feed_id_hex +:+ ": " +:+ error)
  end.
Definition price_decimals_of (filter_config : Value) : Z :=
  default 8 (value ← vget "price_decimals" filter_config; n ← as_i64 value; i32_of n).
Definition cl_new (connection_config auth_config filter_config : Value)
    (market_key asset_pair : option string) : outcome ChainlinkDataStreamsConnector :=
  api_key ← resolve_secret auth_config "api_key" "api_key_env" DEFAULT_API_KEY_ENVS;
  user_secret ← resolve_secret auth_config "user_secret" "user_secret_env" DEFAULT_USER_SECRET_ENVS;
  let rest_url :=
    resolve_connection_endpoint connection_config ["endpoint"; "rest_url"; "http_url"] DEFAULT_REST_URL in
  let ws_url := resolve_connection_endpoint connection_config ["ws_endpoint"; "ws_url"] DEFAULT_WS_URL in
  feed_id_hex ← missing_feed market_key (resolve_secret filter_config "feed_id" "feed_id_env" []);
  feed_id ← feed_id_of feed_id_hex;
  let ws_ha_enabled := default (contains ws_url ",") (get_bool "ws_high_availability" auth_config) in
  let ws_max_reconnect := vget "ws_max_reconnect" auth_config ≫= as_u64 in
  config ← of_option "failed building Chainlink Data Streams SDK config"
    (sdk_config api_key user_secret rest_url ws_url ws_ha_enabled ws_max_reconnect);
  if sdk_client config then
    Ret {| cl_sdk_config := config; cl_rest_url := rest_url; cl_ws_url := ws_url;
           cl_feed_id := feed_id; cl_feed_id_hex := feed_id_hex; cl_market_key := market_key;
           cl_asset_pair := asset_pair; cl_price_decimals := price_decimals_of filter_config;
           cl_stream := false |}
  else Err "failed constructing Chainlink Data Streams SDK client".
Definition set_stream (open : bool) (c : ChainlinkDataStreamsConnector) : ChainlinkDataStreamsConnector :=
  {| cl_sdk_config := cl_sdk_config c; cl_rest_url := cl_rest_url c; cl_ws_url := cl_ws_url c;
     cl_feed_id := cl_feed_id c; cl_feed_id_hex := cl_feed_id_hex c; cl_market_key := cl_market_key c;
     cl_asset_pair := cl_asset_pair c; cl_price_decimals := cl_price_decimals c; cl_stream := open |}.
(** whether the stream can be created, and whether it starts to listen *)
Definition connect_stream (created listens : bool) (c : ChainlinkDataStreamsConnector)
  : ChainlinkDataStreamsConnector * outcome unit :=
  if cl_stream c then (c, Ret ())
  else if negb created then (c, Err "failed creating Chainlink Data Streams websocket stream")
  else if negb listens then (c, Err "failed starting Chainlink Data Streams websocket stream")
  else (set_stream true c, Ret ()).
Definition close_stream (closes : bool) (c : ChainlinkDataStreamsConnector)
  : ChainlinkDataStreamsConnector * outcome unit :=
  if cl_stream c && negb closes then (c, Err "failed closing Chainlink Data Streams websocket stream")
  else (set_stream false c, Ret ()).
Definition cl_endpoint (c : ChainlinkDataStreamsConnector) : string :=
  if cl_stream c then cl_ws_url c else cl_rest_url c.

(** ** Reports *)

Record Report := {
  rp_feed_id : FeedID;
  rp_valid_from_timestamp : Z;
  rp_observations_timestamp : Z;
  rp_full_report : string
}.
Definition report_data (report : Report) : outcome (Z * Z * Z) :=
  bytes ← of_option "Chainlink Data Streams report was not valid hex"
    (hex_decode (trim_start_matches "0x" (rp_full_report report)));
  blob ← of_option "failed decoding Chainlink Data Streams full report" (decode_full_report bytes);
  of_option "failed decoding Chainlink Data Streams v3 report payload" (decode_v3 blob).
Definition decode_report (c : ChainlinkDataStreamsConnector) (report : Report) : outcome Value :=
  data ← report_data report;
  let '(benchmark_price, bid, ask) := data in
  Ret (VObj [ ("feed_id", VString (id_to_hex_string (rp_feed_id report)));
              ("valid_from_timestamp", VInt (rp_valid_from_timestamp report));
              ("observations_timestamp", VInt (rp_observations_timestamp report));
              ("full_report", VString (rp_full_report report));
              ("market_key", VOpt VString (cl_market_key c));
              ("asset_pair", VOpt VString (cl_asset_pair c));
              ("price_decimals", VInt (cl_price_decimals c));
              ("benchmark_price", VString (fmt_Z benchmark_price));
              ("bid", VString (fmt_Z bid));
              ("ask", VString (fmt_Z ask)) ]).
(** [None]: the request for the latest report failed *)
Definition cl_fetch_payload (c : ChainlinkDataStreamsConnector) (report : option Report)
  : outcome (option Value) :=
  report ← of_option ("Chainlink Data Streams get_latest_report failed for feed " +:+ cl_feed_id_hex c)
    report;
  v ← decode_report c report; Ret (Some v).
Definition cl_next_payload (c : ChainlinkDataStreamsConnector) (report : option Report) : outcome Value :=
  if negb (cl_stream c) then Err "Chainlink Data Streams websocket stream is not connected"
  else
    report ← of_option "failed reading Chainlink Data Streams websocket report" report;
    decode_report c report.
End poll.

(** ** Theorems *)

Section poll.
Context `{Chrono} `{SerdeJson} `{Powi} `{U256} `{!HashOrder} `{!ProcessEnv} `{!ChainlinkSdk} `{!JsonScalars} (now : DateTime).

Definition in_i32 (z : Z) : Prop := - 2 ^ 31 <= z <= 2 ^ 31 - 1.
Lemma as_i32_VInt z : in_i32 z -> as_i32 (Some (VInt z)) = Some z.
Proof.
  unfold in_i32. intros Hz. unfold as_i32. simpl. rewrite as_i64_VInt by (unfold i64_min, i64_max; lia).
  simpl. unfold i32_of, in_range. simpl. by rewrite (proj2 (Z.leb_le _ _)), (proj2 (Z.leb_le _ _)) by lia.
Qed.
Lemma i32_of_range z n : i32_of z = Some n -> in_i32 n.
Proof.
  unfold i32_of, in_range, in_i32. simpl. case_match eqn:Hr; [|done]. intros [= <-]. bools. lia.
Qed.
Lemma price_decimals_range config : in_i32 (price_decimals_of config).
Proof.
  unfold price_decimals_of. destruct (vget "price_decimals" config) as [v|]; simpl; [|by unfold in_i32].
  destruct (as_i64 v) as [z|]; simpl; [|by unfold in_i32].
  destruct (i32_of z) as [n|] eqn:Hn; simpl; [by eapply i32_of_range|by unfold in_i32].
Qed.
(** a configured number of decimals is the one the payload carries *)
Lemma report_decimals input l :
  entry "price_decimals" l = Some (VInt (price_decimals_of (filter_config input))) ->
  streams_decimals input (VObj l) = price_decimals_of (filter_config input).
Proof.
  intros He. unfold streams_decimals. rewrite vget_VObj, He, as_i32_VInt by apply price_decimals_range.
  unfold price_decimals_of, as_i32. destruct (vget "price_decimals" (filter_config input)) as [v|]; [|done].
  simpl. destruct (as_i64 v) as [z|]; [|done]. simpl. by destruct (i32_of z).
Qed.
Lemma parse_text s : parse_f64 (Some (VString s)) = Numbers.parse_f64 s.
Proof. unfold parse_f64. simpl. by rewrite as_f64_VString, as_str_VString. Qed.
Lemma parse_seconds z : i64_min <= z <= i64_max -> parse_i64 (Some (VInt z)) = Some z.
Proof. intros Hz. unfold parse_i64. simpl. by rewrite as_i64_VInt. Qed.

Lemma seconds_entry key l z : entry key l = Some (VInt z) -> i64_min <= z <= i64_max ->
  seconds_at key (VObj l) = timestamp_opt z.
Proof. intros He Hz. unfold seconds_at. rewrite vget_VObj, He, parse_seconds by done. done. Qed.

(** A report of the data streams is published at its benchmark price.  When
    the report decodes to a price that is not negative, the payload the connector
    makes of it is parsed, under the same configuration, to an event at that
    price with the configured decimals, timed by the observation, identified by
    feed and second; a market key and an asset pair configured for the stream
    win over the hints of the parser; and the parser refuses it only when the
    power of ten is not a number to divide by. *)
Theorem report_published input c report benchmark bid ask :
  cl_price_decimals c = price_decimals_of (filter_config input) ->
  report_data report = Ret (benchmark, bid, ask) -> 0 <= benchmark ->
  i64_min <= rp_observations_timestamp report <= i64_max ->
  exists payload, decode_report c report = Ret payload /\
  match scale_price (f64_of_Z benchmark) (cl_price_decimals c) with
  | None => chainlink_data_streams_parse now input payload =
      Err "chainlink_data_streams_v3 failed to scale benchmark_price"
  | Some price => exists ev, chainlink_data_streams_parse now input payload = Ret ev /\
      pf_price ev = Some price /\
      pf_payload_event_ts ev = timestamp_opt (rp_observations_timestamp report) /\
      pf_observed_at ev = default now (timestamp_opt (rp_observations_timestamp report)) /\
      pf_event_id ev = Some (id_to_hex_string (rp_feed_id report) +:+ ":"
                             +:+ fmt_Z (rp_observations_timestamp report)) /\
      pf_market_key ev = or_else (cl_market_key c) (market_key_hint input) /\
      pf_asset_pair ev = or_else (cl_asset_pair c) (asset_pair_hint input)
  end.
Proof.
  intros Hd Hr Hb Hts. unfold decode_report. rewrite Hr. eexists. split; [done|].
  unfold chainlink_data_streams_parse. rewrite report_decimals by (simpl; by rewrite Hd).
  rewrite <- Hd, (seconds_entry "observations_timestamp" _ (rp_observations_timestamp report)) by done.
  rewrite !get_str_VObj, !vget_VObj.
  change (entry "benchmark_price" _) with (Some (VString (fmt_Z benchmark))).
  change (entry "observations_timestamp" _) with (Some (VInt (rp_observations_timestamp report))).
  rewrite parse_text, parse_f64_fmt_Z, parse_seconds by done. cbn [or_else of_option mbind outcome_bind].
  destruct (scale_price _ _) as [price|]; [|done]. eexists. split; [done|]. simpl.
  rewrite !as_str_VOpt, as_str_VString. by split_and!.
Qed.
End poll.
