(* ===== verification/ConnectorExamples.v ===== *)
(** * The stream connectors on concrete inputs

    Instances of the interfaces, the witnesses of the theorems, and some
    behaviours worth knowing: blocks are lost at a reconnect, every message on a
    busy socket is answered with a ping, an empty environment variable is taken
    as a secret, a call that fails quietly is still handed out. *)
From Stdlib Require Import Ascii.
From S2P Require Import Prelude F64 Text Numbers Ports FieldMapping Hex StreamParser TickerParsers ChainParsers ProtocolParsers StreamExamples JsonLaws WorkerConfig StreamWorker SseConnector RpcLogs RpcState Websocket PollConnectors.

Section examples.
#[local] Existing Instance chrono_Z.
#[local] Existing Instance serde_json_tree.
#[local] Existing Instance powi_squaring.
#[local] Existing Instance u256_Z.
#[local] Existing Instance canonical_order.

(** documents that are one integer *)
#[local] Instance text_Z : JsonText := {| from_str := fun s => JInt <$> Numbers.parse_i64 s |}.
#[local] Instance no_urls : Urls :=
  {| Url := unit; url_parse := fun _ => Some (); host_str := fun _ => None; url_path := fun _ => "/";
     query_pairs := fun _ => [("simulation_run_id", "run-7")] |}.
#[local] Instance ethers_text : EthersTypes :=
  {| Address := string; parse_address := fun s => if (String.length s =? 42)%nat then Some s else None;
     H256 := string; parse_h256 := fun s => if (String.length s =? 66)%nat then Some s else None |}.
#[local] Instance scalars : JsonScalars.
Proof.
  split; try done.
  - intros x. simpl. destruct (is_finite x) eqn:Hx; [|done]. simpl. unfold finite_f64. by rewrite Hx.
  - intros x. simpl. by destruct (is_finite x).
  - intros z Hz. simpl. unfold json_int_in.
    by rewrite (proj2 (Z.leb_le _ _) (proj1 Hz)), (proj2 (Z.leb_le _ _) (proj2 Hz)).
Qed.

(** ** Server-sent events: two events in chunks that cut a line and a blank line *)
Definition nl : string := one_char newline.
Definition sse_reads : list Read :=
  [Chunk ("data: 1"); Chunk ("2" +:+ nl +:+ nl +:+ "da"); TimedOut; Chunk ("ta:7" +:+ nl);
   Chunk nl; Ended].
Definition sse_connection : HttpSseConnector := (sse_connect Accepted (sse_new "http://feed")).1.
Lemma sse_chunks_irrelevant_witness :
  delivers sse_reads sse_connection [JInt 12; JInt 7] (Some (Err "http_sse stream ended")).
Proof.
  apply (proj2 (sse_chunks_irrelevant sse_reads (sse_new "http://feed") sse_connection eq_refl)).
  reflexivity.
Defined.

(** ** Logs: one per even block *)
Definition even_logs (_ : option (list Address)) (_ : list (option (ValueOrArray H256))) (b : Z)
  : list Value := if Z.even b then [VObj [("blockNumber", VInt b)]] else [].
Definition node_round (head : Z) : Round :=
  {| rd_head := Some head;
     rd_logs := fun f => Some (Some <$>
       (blocks_between (from_block f) (to_block f) ≫= even_logs (address f) (filter_topics f))) |}.
Definition dead_round : Round := {| rd_head := None; rd_logs := fun _ => None |}.
Definition log_config : Value := VObj [("topics", JArray [JString "0xabc"; JNull])].
Definition log_connection : RpcLogsConnector :=
  (rl_connect (Connected (Some 1)) (rl_new "ws://node" log_config 2000)).1.
Definition log_filter : Filter := outcome_or
  {| from_block := 0; to_block := 0; address := None; filter_topics := [] |} (build_filter log_config 0 0).
Lemma log_filter_ok : build_filter log_config 0 0 = Ret log_filter.
Proof. apply ret_or. reflexivity. Qed.
Definition log_rounds : list Round := [node_round 10; node_round 10; node_round 13; dead_round].
Lemma rpc_logs_complete_witness : exists vs o, rl_delivers log_rounds log_connection vs o.
Proof.
  refine (proj1 (rpc_logs_complete even_logs log_filter "ws://node" log_config 2000 (Some 1)
    log_connection log_rounds eq_refl log_filter_ok _ _)).
  - unfold log_rounds. apply Forall_cons; split; [|apply Forall_cons; split; [|apply Forall_cons; split;
      [|apply Forall_cons; split; [|apply Forall_nil_2]]]]; intros f logs; simpl; by intros [= <-].
  - unfold log_rounds. apply Forall_cons; split; [|apply Forall_cons; split; [|apply Forall_cons; split;
      [|apply Forall_cons; split; [|apply Forall_nil_2]]]]; intros h; simpl; intros [= <-];
      unfold is_head, u64_max; lia.
Defined.
(** the blocks between the last head of a connection and the first of the next
    are not asked for *)
Example blocks_lost_at_reconnect :
  asked None [10; 13] = [8; 9; 10; 11; 12; 13] /\ asked None [40] = [38; 39; 40].
Proof. by split. Qed.
Example simulated_log :
  json_display (log_payload log_connection (VObj [("data", JString "0x")])) =
  json_display (VObj [("chainId", JInt 1); ("data", JString "0x");
    ("simulation", VObj [("is_simulated", JBool true); ("run_id", JString "run-7")])]).
Proof. vm_compute. reflexivity. Qed.

(** ** Contract state: 5 * 10^18 units of a token worth 2000 dollars *)
Definition aave_call : Value :=
  VObj [("protocol_id", JString "Aave"); ("to", JString "0xpool"); ("data", JString "0x18160ddd");
        ("price_usd", JInt 2000)].
Definition no_spec : StateCallSpec :=
  {| sc_protocol_id := "aave"; sc_chain_slug := None; sc_market_id := None; contract_address := "";
     call_data := ""; block_tag := JNull; sc_decimals := 18; sc_price_usd := None;
     sc_metric := "tvl"; sc_event_type := None |}.
Definition aave_spec : StateCallSpec :=
  default no_spec (outcome_or None (parse_state_call aave_call JNull)).
Definition state_round (result : string) : CallRound :=
  {| cr_block := Some 100; cr_now := sec 1800000000; eth_call := fun _ _ _ => Some result |}.
Definition state_context : CallContext :=
  {| cc_chain_id := Some 1; cc_block_number := 100; cc_observed_at_millis := 1800000000000 |}.
Lemma aave_spec_ok : spec_ok aave_spec.
Proof. unfold spec_ok. split_and!; try (vm_compute; reflexivity). 1, 2: vm_compute; discriminate. Qed.
Definition five_tokens : Z := 5 * 10 ^ 18.
Lemma contract_word_published_witness : exists payload,
  call_payload (state_round (abi_result five_tokens)) state_context aave_spec = Some payload /\
  word_usd aave_spec five_tokens = Some (f64_of_Z 10000).
Proof.
  destruct (contract_word_published (sec 1800000000) (input_of "protocol_tvl" JNull)
    (state_round (abi_result five_tokens)) state_context aave_spec five_tokens aave_spec_ok) as (p & Hp & _).
  - unfold five_tokens. lia.
  - vm_compute. reflexivity.
  - reflexivity.
  - exists p. split; [exact Hp|]. vm_compute. reflexivity.
Defined.
(** the answer of an address without code is handed out, without a number *)
Example empty_result_is_an_event :
  is_some (call_payload (state_round "0x") state_context aave_spec) = true /\
  parse_hex_to_u256 "0x" = None.
Proof. split; vm_compute; reflexivity. Qed.

(** ** Websockets *)
Definition seconds (n : Z) : Z := n * 1000000000.
Definition heartbeat_connection (interval timeout : Z) : WebsocketStreamConnector :=
  {| ws_endpoint := "wss://x"; ws_stream_name := "s"; ws_subscription_key := None;
     ws_filter_config := JNull; ping_message := None; ping_interval := Some (seconds interval);
     pong_timeout := Some (seconds timeout); pending_ping_sent_at := None; ws_open := true;
     ws_sent := [] |}.
Lemma silence_noticed_iff_witness :
  (exists n, noticed (silence 0 (seconds 1) n) (heartbeat_connection 20 10)) /\
  ~ (exists n, noticed (silence 0 (seconds 1) n) (heartbeat_connection 10 20)).
Proof.
  split.
  - apply (silence_noticed_iff (seconds 20) (seconds 10) (seconds 1) 0); done.
  - intros Hn. apply (silence_noticed_iff (seconds 10) (seconds 20) (seconds 1) 0) in Hn; done.
Defined.
(** a ping goes out before each of three messages that arrive within a second *)
Definition busy_turn (k : Z) : Turn :=
  {| tn_due := k; tn_ping_ok := true; tn_sent_at := k; tn_check := k;
     tn_read := Received (MText "1"); tn_pong_ok := true |}.
Definition after_payload (turns : list Turn) (c : WebsocketStreamConnector) : WebsocketStreamConnector :=
  (ws_next_payload turns c).1.1.
Example ping_per_message :
  length (ws_sent (after_payload [busy_turn 3] (after_payload [busy_turn 2]
    (after_payload [busy_turn 1] (heartbeat_connection 20 10))))) = 3%nat.
Proof. vm_compute. reflexivity. Qed.
Example binance_endpoint :
  resolve_endpoint "wss://stream.binance.com:9443/ws/" (Some " btcusdt@miniTicker ") =
  "wss://stream.binance.com:9443/ws/btcusdt@miniTicker".
Proof. vm_compute. reflexivity. Qed.

(** ** Data streams *)
#[local] Instance one_env : ProcessEnv :=
  {| env_var := fun name => if bool_decide (name = "EMPTY_KEY") then Some "" else None |}.
#[local] Instance toy_sdk : ChainlinkSdk :=
  {| FeedID := string; id_from_hex_str := inl; id_to_hex_string := fun s => s; SdkConfig := unit;
     sdk_config := fun _ _ _ _ _ _ => Some (); sdk_client := fun _ => true; hex_decode := Some;
     decode_full_report := Some; decode_v3 := fun s => Some (25 * 10 ^ 7, 24 * 10 ^ 7, 26 * 10 ^ 7) |}.
Definition feed_config : Value := VObj [("feed_id", JString "0xfeed"); ("price_decimals", JInt 7)].
Definition keys_config : Value := VObj [("api_key", JString "k"); ("user_secret", JString "s")].
Definition feed_connector : ChainlinkDataStreamsConnector :=
  outcome_or {| cl_sdk_config := (); cl_rest_url := ""; cl_ws_url := ""; cl_feed_id := "0xfeed";
     cl_feed_id_hex := "0xfeed"; cl_market_key := None; cl_asset_pair := None;
     cl_price_decimals := 7; cl_stream := false |}
    (cl_new JNull keys_config feed_config (Some "ETH/USD") None).
Definition feed_report : Report :=
  {| rp_feed_id := "0xfeed"; rp_valid_from_timestamp := 1800000000; rp_observations_timestamp := 1800000001;
     rp_full_report := "0xaa" |}.
Lemma report_published_witness : exists payload, decode_report feed_connector feed_report = Ret payload.
Proof.
  destruct (report_published (sec 1800000000) (input_of "chainlink_data_streams_v3" feed_config)
    feed_connector feed_report (25 * 10 ^ 7) (24 * 10 ^ 7) (26 * 10 ^ 7)) as (p & Hp & _).
  - vm_compute. reflexivity.
  - reflexivity.
  - lia.
  - vm_compute. split; discriminate.
  - exists p. exact Hp.
Defined.
(** the pointer wins over the default variables, and an empty variable is taken *)
Example empty_secret :
  resolve_secret (VObj [("api_key_env", JString "EMPTY_KEY")]) "api_key" "api_key_env"
    DEFAULT_API_KEY_ENVS = Ret "".
Proof. vm_compute. reflexivity. Qed.
End examples.
