(* ===== verification/HistoryWorker.v ===== *)
(** * The history tables ([apps/history-worker/src/main.rs],
      [infra/sql/bootstrap/history_schema.sql])

    The operational tables the history worker reads, the [history] tables it
    writes, with their keys and foreign keys, and the statements.  A statement
    may fail; a failed statement changes nothing, and what was written before
    it stays: there is no transaction around a batch.  The columns the database
    fills with [NOW()] are left out.

    Four tables are copied into cases, events, links and slices, each with a
    cursor: a batch of the rows after the cursor, in order, is written row by
    row, and then the cursor is stored.  [Sync] is what differs between the four;
    [sync] is the body they share. *)
From S2P Require Import Prelude F64 Text Numbers Ports FieldMapping Hex WorkerConfig.

(** the order of text in the database *)
Class Collation := {
  text_lt : string -> string -> bool;
  text_lt_irrefl : forall a, text_lt a a = false;
  text_lt_trans : forall a b c, text_lt a b = true -> text_lt b c = true -> text_lt a c = true;
  text_lt_total : forall a b, text_lt a b = true \/ a = b \/ text_lt b a = true
}.

Section store.
Context `{Chrono} `{SerdeJson} `{Collation}.

(** ** Rows read *)

Record IncidentRow := {
  ir_incident_id : string; ir_tenant_id : option string; ir_pattern_id : string;
  ir_chain_slug : string; ir_status : string; ir_current_severity : string;
  ir_opened_at : DateTime; ir_updated_at : DateTime
}.
Record AlertRow := {
  al_id : string; al_incident_id : option string; al_tenant_id : option string;
  al_pattern_id : option string; al_severity : string; al_lifecycle_state : string;
  al_created_at : DateTime; al_payload : Value
}.
Record DetectionRow := {
  de_id : string; de_tenant_id : option string; de_pattern_id : option string;
  de_chain : string; de_protocol : string; de_severity : string; de_created_at : DateTime;
  de_payload : Value
}.
Record FeatureRow := {
  fv_id : Z; fv_detection_id : string; fv_tenant_id : option string;
  fv_feature_set_version : string; fv_labels : Value; fv_created_at : DateTime
}.

(** ** Rows written *)

Record Case := {
  cs_tenant_id : string; cs_case_type : string; cs_classification : string;
  cs_severity_peak : string; cs_status : string; cs_chain_slug : option string;
  cs_protocol : option string; cs_title : string; cs_summary : string;
  cs_incident_start_at : option DateTime; cs_incident_end_at : option DateTime;
  cs_loss_usd_estimate : option string; cs_source_confidence : option f64;
  cs_source_payload : Value
}.
Record CaseEvent := {
  ce_case_id : string; ce_tenant_id : string; ce_event_type : string; ce_event_ts : DateTime;
  ce_payload_json : Value
}.
Record CaseLink := {
  ln_tenant_id : string; ln_incident_id : option string; ln_pattern_id : option string;
  ln_severity : option string; ln_delivery_status : option string; ln_created_at : DateTime
}.
Record FeatureSlice := {
  fs_tenant_id : string; fs_case_id : string; fs_feature_set_version : string;
  fs_s3_uri : string; fs_metadata_json : Value; fs_created_at : DateTime
}.
Record Offset := { last_seen_ts : DateTime; last_seen_id : string }.

Record HistoryDb := {
  h_incidents : list IncidentRow;
  h_alerts : list AlertRow;
  h_detections : list DetectionRow;
  h_feature_vectors : list FeatureRow;
  h_cases : gmap string Case;
  h_case_events : gmap (string * string) CaseEvent;
  h_case_alert_links : gmap (string * string) CaseLink;
  h_ml_feature_registry : gmap string FeatureSlice;
  h_ingest_offsets : gmap string Offset
}.
Definition with_cases (t : gmap string Case) (db : HistoryDb) : HistoryDb :=
  {| h_incidents := h_incidents db; h_alerts := h_alerts db; h_detections := h_detections db;
     h_feature_vectors := h_feature_vectors db; h_cases := t; h_case_events := h_case_events db;
     h_case_alert_links := h_case_alert_links db; h_ml_feature_registry := h_ml_feature_registry db;
     h_ingest_offsets := h_ingest_offsets db |}.
Definition with_events (t : gmap (string * string) CaseEvent) (db : HistoryDb) : HistoryDb :=
  {| h_incidents := h_incidents db; h_alerts := h_alerts db; h_detections := h_detections db;
     h_feature_vectors := h_feature_vectors db; h_cases := h_cases db; h_case_events := t;
     h_case_alert_links := h_case_alert_links db; h_ml_feature_registry := h_ml_feature_registry db;
     h_ingest_offsets := h_ingest_offsets db |}.
Definition with_links (t : gmap (string * string) CaseLink) (db : HistoryDb) : HistoryDb :=
  {| h_incidents := h_incidents db; h_alerts := h_alerts db; h_detections := h_detections db;
     h_feature_vectors := h_feature_vectors db; h_cases := h_cases db;
     h_case_events := h_case_events db; h_case_alert_links := t;
     h_ml_feature_registry := h_ml_feature_registry db; h_ingest_offsets := h_ingest_offsets db |}.
Definition with_registry (t : gmap string FeatureSlice) (db : HistoryDb) : HistoryDb :=
  {| h_incidents := h_incidents db; h_alerts := h_alerts db; h_detections := h_detections db;
     h_feature_vectors := h_feature_vectors db; h_cases := h_cases db;
     h_case_events := h_case_events db; h_case_alert_links := h_case_alert_links db;
     h_ml_feature_registry := t; h_ingest_offsets := h_ingest_offsets db |}.
Definition with_offsets (t : gmap string Offset) (db : HistoryDb) : HistoryDb :=
  {| h_incidents := h_incidents db; h_alerts := h_alerts db; h_detections := h_detections db;
     h_feature_vectors := h_feature_vectors db; h_cases := h_cases db;
     h_case_events := h_case_events db; h_case_alert_links := h_case_alert_links db;
     h_ml_feature_registry := h_ml_feature_registry db; h_ingest_offsets := t |}.

(** ** The inserts, with what they do on a conflict of the key *)

Inductive Write :=
  | WriteCase (case_id : string) (row : Case) (on_conflict : Case -> Case)
  | WriteEvent (source : string * string) (row : CaseEvent) (on_conflict : CaseEvent -> CaseEvent)
  | WriteLink (case_alert : string * string) (row : CaseLink) (on_conflict : CaseLink -> CaseLink)
  | WriteFeature (feature_slice_id : string) (row : FeatureSlice).
(** insert, or update the row with the key *)
Definition upsert {A} (row : A) (on_conflict : A -> A) (old : option A) : option A :=
  Some (match old with None => row | Some old => on_conflict old end).
Definition write (w : Write) (db : HistoryDb) : HistoryDb :=
  match w with
  | WriteCase id row f => with_cases (partial_alter (upsert row f) id (h_cases db)) db
  | WriteEvent k row f => with_events (partial_alter (upsert row f) k (h_case_events db)) db
  | WriteLink k row f => with_links (partial_alter (upsert row f) k (h_case_alert_links db)) db
  | WriteFeature id row =>
      with_registry (partial_alter (upsert row (fun old => old)) id (h_ml_feature_registry db)) db
  end.
(** the case a new row would refer to *)
Definition refers (w : Write) (db : HistoryDb) : option string :=
  match w with
  | WriteCase _ _ _ => None
  | WriteEvent k row _ => if is_some (h_case_events db !! k) then None else Some (ce_case_id row)
  | WriteLink k _ _ => if is_some (h_case_alert_links db !! k) then None else Some k.1
  | WriteFeature id row =>
      if is_some (h_ml_feature_registry db !! id) then None else Some (fs_case_id row)
  end.
Definition foreign_key_ok (w : Write) (db : HistoryDb) : bool :=
  match refers w db with Some case_id => is_some (h_cases db !! case_id) | None => true end.
Definition FOREIGN_KEY_ERROR : string := "insert or update violates foreign key constraint".

(** ** Statements *)

(** whether a statement fails, by its number *)
Class Statements := { statement_fails : nat -> bool }.
Record World := { w_db : HistoryDb; w_step : nat }.
Definition statement `{!Statements} {A} (f : HistoryDb -> HistoryDb * outcome A) : ST World A := fun w =>
  if statement_fails (w_step w) then ({| w_db := w_db w; w_step := S (w_step w) |}, Err "db error")
  else let '(db, r) := f (w_db w) in ({| w_db := db; w_step := S (w_step w) |}, r).
Definition execute_write `{!Statements} (w : Write) : ST World unit :=
  statement (fun db => if foreign_key_ok w db then (write w db, Ret ()) else (db, Err FOREIGN_KEY_ERROR)).
End store.

(** ** The worker *)

(** [json!(t)] of an instant *)
Class DateJson `{Chrono} := { date_text : DateTime -> string }.

Section worker.
Context `{Chrono} `{SerdeJson} `{Collation} `{!Statements} `{!DateJson}.

(** ** Offsets *)

Definition epoch : outcome DateTime := or_panic (timestamp_opt 0).
Definition load_offset (source_name : string) : ST World Offset :=
  row ← statement (fun db => (db, Ret (h_ingest_offsets db !! source_name)));
  match row with
  | Some offset => mret offset
  | None => ts ← lift epoch; mret {| last_seen_ts := ts; last_seen_id := "" |}
  end.
Definition save_offset (source_name : string) (offset : Offset) : ST World unit :=
  statement (fun db => (with_offsets (<[source_name := offset]> (h_ingest_offsets db)) db, Ret ())).

(** ** What the four sources share *)

Record Sync (Row : Type) := {
  sy_source : string;
  sy_table : HistoryDb -> list Row;
  sy_ts : Row -> DateTime;
  sy_id : Row -> string;          (** the identifier the cursor keeps, as text *)
  sy_id_le : Row -> Row -> bool;  (** ORDER BY of the identifier *)
  sy_writes : Row -> list Write
}.
#[global] Arguments sy_source {Row}.
#[global] Arguments sy_table {Row}.
#[global] Arguments sy_ts {Row}.
#[global] Arguments sy_id {Row}.
#[global] Arguments sy_id_le {Row}.
#[global] Arguments sy_writes {Row}.

Section sync.
Context {Row : Type} (s : Sync Row).
Definition after (o : Offset) (row : Row) : bool :=
  dt_lt (last_seen_ts o) (sy_ts s row)
  || bool_decide (sy_ts s row = last_seen_ts o) && text_lt (last_seen_id o) (sy_id s row).
Definition row_le (a b : Row) : bool :=
  dt_lt (sy_ts s a) (sy_ts s b) || bool_decide (sy_ts s a = sy_ts s b) && sy_id_le s a b.
(** the rows after the cursor in order, at most [batch_size] of them *)
Definition select_rows (o : Offset) (batch_size : Z) (db : HistoryDb) : outcome (list Row) :=
  if batch_size <? 0 then Err "LIMIT must not be negative"
  else Ret (take (Z.to_nat batch_size)
              (filter (fun row => after o row = true) (sort_by row_le (sy_table s db)))).
Definition row_offset (row : Row) : Offset := {| last_seen_ts := sy_ts s row; last_seen_id := sy_id s row |}.
Definition write_all (ws : list Write) : ST World unit := for_each (fun _ w => execute_write w) ws tt.
Definition sync (batch_size : Z) : ST World nat :=
  offset ← load_offset (sy_source s);
  rows ← statement (fun db => (db, select_rows offset batch_size db));
  offset ← for_each (fun _ row => _ ← write_all (sy_writes s row); mret (row_offset row)) rows offset;
  _ ← match rows with [] => mret () | _ => save_offset (sy_source s) offset end;
  mret (length rows).
End sync.

(** ** Helpers *)

Definition DEFAULT_TENANT_ID : string := "glider".
Definition tenant_or_default (value : option string) : string := default DEFAULT_TENANT_ID value.
Definition normalize_case_type (classification : string) : string :=
  let lowered := to_ascii_lowercase classification in
  if existsb (contains lowered) ["flash"; "oracle"; "exploit"; "loan"] then "exploit"
  else if existsb (contains lowered) ["depeg"; "market"; "stress"; "liquidity"] then "market_stress"
  else "anomaly".
Definition keep {A} (old : A) : A := old.
Definition text_le (a b : string) : bool := negb (text_lt b a).

(** ** Incidents *)

Definition row_to_json (row : IncidentRow) : Value :=
  VObj [ ("incident_id", VString (ir_incident_id row)); ("tenant_id", VOpt VString (ir_tenant_id row));
         ("pattern_id", VString (ir_pattern_id row)); ("chain_slug", VString (ir_chain_slug row));
         ("status", VString (ir_status row)); ("current_severity", VString (ir_current_severity row));
         ("opened_at", VString (date_text (ir_opened_at row)));
         ("updated_at", VString (date_text (ir_updated_at row))) ].
Definition source_table_payload (table : string) : Value := VObj [("source_table", VString table)].
Definition incident_case (row : IncidentRow) : Case :=
  {| cs_tenant_id := tenant_or_default (ir_tenant_id row);
     cs_case_type := normalize_case_type (ir_pattern_id row);
     cs_classification := ir_pattern_id row; cs_severity_peak := ir_current_severity row;
     cs_status := ir_status row; cs_chain_slug := Some (ir_chain_slug row); cs_protocol := None;
     cs_title := replace_all "_" " " (ir_pattern_id row) +:+ " incident " +:+ ir_incident_id row;
     cs_summary := "Curated incident from operational lifecycle tables.";
     cs_incident_start_at := Some (ir_opened_at row); cs_incident_end_at := None;
     cs_loss_usd_estimate := None; cs_source_confidence := None;
     cs_source_payload := VObj [("source_table", VString "incidents");
                                ("pattern_id", VString (ir_pattern_id row))] |}.
Definition update_incident_case (row : IncidentRow) (old : Case) : Case :=
  let new := incident_case row in
  {| cs_tenant_id := cs_tenant_id new; cs_case_type := cs_case_type new;
     cs_classification := cs_classification new; cs_severity_peak := cs_severity_peak new;
     cs_status := cs_status new; cs_chain_slug := cs_chain_slug new; cs_protocol := cs_protocol old;
     cs_title := cs_title new; cs_summary := cs_summary new;
     cs_incident_start_at := cs_incident_start_at new; cs_incident_end_at := cs_incident_end_at old;
     cs_loss_usd_estimate := cs_loss_usd_estimate old;
     cs_source_confidence := cs_source_confidence old; cs_source_payload := cs_source_payload old |}.
Definition incident_event (row : IncidentRow) : CaseEvent :=
  {| ce_case_id := ir_incident_id row; ce_tenant_id := tenant_or_default (ir_tenant_id row);
     ce_event_type := "incident_snapshot"; ce_event_ts := ir_updated_at row;
     ce_payload_json := row_to_json row |}.
Definition incident_sync : Sync IncidentRow :=
  {| sy_source := "incidents"; sy_table := h_incidents; sy_ts := ir_updated_at; sy_id := ir_incident_id;
     sy_id_le := fun a b => text_le (ir_incident_id a) (ir_incident_id b);
     sy_writes := fun row =>
       [ WriteCase (ir_incident_id row) (incident_case row) (update_incident_case row);
         WriteEvent ("incidents", ir_incident_id row) (incident_event row) keep ] |}.
Definition sync_incidents : Z -> ST World nat := sync incident_sync.

(** ** Alerts *)

Definition alert_case_id (row : AlertRow) : string :=
  default ("alert:" +:+ al_id row) (al_incident_id row).
Definition alert_classification (row : AlertRow) : string := default "anomaly" (al_pattern_id row).
Definition alert_case (row : AlertRow) : Case :=
  {| cs_tenant_id := tenant_or_default (al_tenant_id row);
     cs_case_type := normalize_case_type (alert_classification row);
     cs_classification := alert_classification row; cs_severity_peak := al_severity row;
     cs_status := al_lifecycle_state row; cs_chain_slug := None; cs_protocol := None;
     cs_title := "Alert case " +:+ alert_case_id row; cs_summary := "Case generated from alerts stream";
     cs_incident_start_at := Some (al_created_at row); cs_incident_end_at := None;
     cs_loss_usd_estimate := None; cs_source_confidence := None;
     cs_source_payload := source_table_payload "alerts" |}.
Definition set_severity (severity status : string) (chain_slug protocol : option string) (old : Case) : Case :=
  {| cs_tenant_id := cs_tenant_id old; cs_case_type := cs_case_type old;
     cs_classification := cs_classification old; cs_severity_peak := severity; cs_status := status;
     cs_chain_slug := chain_slug; cs_protocol := protocol; cs_title := cs_title old;
     cs_summary := cs_summary old; cs_incident_start_at := cs_incident_start_at old;
     cs_incident_end_at := cs_incident_end_at old; cs_loss_usd_estimate := cs_loss_usd_estimate old;
     cs_source_confidence := cs_source_confidence old; cs_source_payload := cs_source_payload old |}.
Definition update_alert_case (row : AlertRow) (old : Case) : Case :=
  set_severity (al_severity row) (al_lifecycle_state row) (cs_chain_slug old) (cs_protocol old) old.
Definition alert_link (row : AlertRow) : CaseLink :=
  {| ln_tenant_id := tenant_or_default (al_tenant_id row); ln_incident_id := al_incident_id row;
     ln_pattern_id := al_pattern_id row; ln_severity := Some (al_severity row);
     ln_delivery_status := Some (al_lifecycle_state row); ln_created_at := al_created_at row |}.
Definition update_alert_link (row : AlertRow) (old : CaseLink) : CaseLink :=
  {| ln_tenant_id := ln_tenant_id old; ln_incident_id := ln_incident_id old;
     ln_pattern_id := ln_pattern_id old; ln_severity := Some (al_severity row);
     ln_delivery_status := Some (al_lifecycle_state row); ln_created_at := ln_created_at old |}.
Definition alert_event (row : AlertRow) : CaseEvent :=
  {| ce_case_id := alert_case_id row; ce_tenant_id := tenant_or_default (al_tenant_id row);
     ce_event_type := "alert_emitted"; ce_event_ts := al_created_at row;
     ce_payload_json := al_payload row |}.
Definition alert_sync : Sync AlertRow :=
  {| sy_source := "alerts"; sy_table := h_alerts; sy_ts := al_created_at; sy_id := al_id;
     sy_id_le := fun a b => text_le (al_id a) (al_id b);
     sy_writes := fun row =>
       [ WriteCase (alert_case_id row) (alert_case row) (update_alert_case row);
         WriteLink (alert_case_id row, al_id row) (alert_link row) (update_alert_link row);
         WriteEvent ("alerts", al_id row) (alert_event row) keep ] |}.
Definition sync_alerts : Z -> ST World nat := sync alert_sync.

(** ** Detections *)

Definition detection_case_id (row : DetectionRow) : string :=
  default ("detection:" +:+ de_id row) (get_str "incident_id" (de_payload row)).
Definition detection_classification (row : DetectionRow) : string := default "anomaly" (de_pattern_id row).
Definition detection_case (row : DetectionRow) : Case :=
  {| cs_tenant_id := tenant_or_default (de_tenant_id row);
     cs_case_type := normalize_case_type (detection_classification row);
     cs_classification := detection_classification row; cs_severity_peak := de_severity row;
     cs_status := "open"; cs_chain_slug := Some (de_chain row); cs_protocol := Some (de_protocol row);
     cs_title := "Detection case " +:+ detection_case_id row;
     cs_summary := "Case generated from detections stream";
     cs_incident_start_at := Some (de_created_at row); cs_incident_end_at := None;
     cs_loss_usd_estimate := None; cs_source_confidence := None;
     cs_source_payload := source_table_payload "detections" |}.
Definition update_detection_case (row : DetectionRow) (old : Case) : Case :=
  set_severity (de_severity row) (cs_status old) (or_else (cs_chain_slug old) (Some (de_chain row)))
    (or_else (cs_protocol old) (Some (de_protocol row))) old.
Definition detection_event (row : DetectionRow) : CaseEvent :=
  {| ce_case_id := detection_case_id row; ce_tenant_id := tenant_or_default (de_tenant_id row);
     ce_event_type := "detection_emitted"; ce_event_ts := de_created_at row;
     ce_payload_json := de_payload row |}.
Definition detection_sync : Sync DetectionRow :=
  {| sy_source := "detections"; sy_table := h_detections; sy_ts := de_created_at; sy_id := de_id;
     sy_id_le := fun a b => text_le (de_id a) (de_id b);
     sy_writes := fun row =>
       [ WriteCase (detection_case_id row) (detection_case row) (update_detection_case row);
         WriteEvent ("detections", de_id row) (detection_event row) keep ] |}.
Definition sync_detections : Z -> ST World nat := sync detection_sync.

(** ** Feature vectors: numbers as identifiers, compared as text by the cursor *)

Definition feature_uri (history_bucket : option string) (history_prefix : string) (row : FeatureRow) : string :=
  let slice := "/fv:" +:+ fmt_Z (fv_id row) +:+ ".parquet" in
  let set := "entity=features/feature_set_version=" +:+ fv_feature_set_version row
             +:+ "/tenant_id=" +:+ tenant_or_default (fv_tenant_id row) in
  match history_bucket with
  | Some bucket => "s3://" +:+ bucket +:+ "/" +:+ history_prefix +:+ "/" +:+ set +:+ "/case_type=anomaly" +:+ slice
  | None => "file://history/" +:+ set +:+ slice
  end.
Definition feature_slice (history_bucket : option string) (history_prefix : string) (row : FeatureRow)
  : FeatureSlice :=
  {| fs_tenant_id := tenant_or_default (fv_tenant_id row);
     fs_case_id := "detection:" +:+ fv_detection_id row;
     fs_feature_set_version := fv_feature_set_version row;
     fs_s3_uri := feature_uri history_bucket history_prefix row;
     fs_metadata_json := VObj [("labels", fv_labels row); ("detection_id", VString (fv_detection_id row))];
     fs_created_at := fv_created_at row |}.
Definition feature_sync (history_bucket : option string) (history_prefix : string) : Sync FeatureRow :=
  {| sy_source := "feature_vectors"; sy_table := h_feature_vectors; sy_ts := fv_created_at;
     sy_id := fun row => fmt_Z (fv_id row); sy_id_le := fun a b => fv_id a <=? fv_id b;
     sy_writes := fun row =>
       [ WriteFeature ("fv:" +:+ fmt_Z (fv_id row)) (feature_slice history_bucket history_prefix row) ] |}.
Definition sync_feature_registry (batch_size : Z) (history_bucket : option string)
    (history_prefix : string) : ST World nat :=
  sync (feature_sync history_bucket history_prefix) batch_size.

(** ** An iteration: the syncs in turn, then the catalog, which is a parameter *)

Definition iteration (batch_size : Z) (history_bucket : option string) (history_prefix : string)
    (sync_simlab_catalog : ST World nat) : ST World nat :=
  incidents ← sync_incidents batch_size;
  alerts ← sync_alerts batch_size;
  detections ← sync_detections batch_size;
  features ← sync_feature_registry batch_size history_bucket history_prefix;
  catalog ← sync_simlab_catalog;
  mret (incidents + alerts + detections + features + catalog)%nat.
(** iterations until an error ends the process; [n]: how often it is not told to stop *)
Fixpoint iterations (n : nat) (turn : ST World nat) : ST World unit :=
  match n with
  | O => mret ()
  | S n => _ ← turn; iterations n turn
  end.
End worker.
