(* ===== verification/HistoryProofs.v ===== *)
(** * The history worker: theorems

    Writing a batch again after a failure changes nothing (the upserts of a
    table form a band), so a cursor and a loop that is restarted copy every row
    once, in order.

    Instances, the witnesses, and some behaviours worth knowing: the peak
    severity of a case is the last one, not the highest; an alert overwrites the
    status of its incident; of an incident only the first snapshot is kept; a
    feature vector is skipped when its identifier has more digits. *)
From Stdlib Require Import Ascii.
From S2P Require Import Prelude F64 Text Numbers Ports FieldMapping Hex WorkerConfig HistoryWorker.

(** ** Bands of functions *)

(** what two of the functions do does not depend on one between them *)
Definition band {A} (fs : list (A -> A)) : Prop :=
  (forall f g h x, f ∈ fs -> g ∈ fs -> h ∈ fs -> f (g (h x)) = f (h x)) /\
  (forall f x, f ∈ fs -> f (f x) = f x).
Definition run_all {A} (fs : list (A -> A)) (x : A) : A := foldl (fun x f => f x) x fs.
Lemma run_all_app {A} (fs gs : list (A -> A)) x : run_all (fs ++ gs) x = run_all gs (run_all fs x).
Proof. apply foldl_app. Qed.
Lemma band_skip {A} (fs gs : list (A -> A)) f g x : band fs -> f ∈ fs -> g ∈ fs -> gs ⊆ fs ->
  g (run_all gs (f x)) = g (f x).
Proof.
  intros [Hb Hi] Hf Hg. revert f x Hf. induction gs as [|h gs IH]; intros f x Hf Hs; [done|].
  simpl. assert (Hh : h ∈ fs) by (apply Hs; by left).
  rewrite IH by (done || intros y Hy; apply Hs; by right). by apply Hb.
Qed.
Lemma run_all_idemp {A} (fs : list (A -> A)) x : band fs -> run_all fs (run_all fs x) = run_all fs x.
Proof.
  intros Hb. pose proof Hb as [Hb1 Hb2]. destruct fs as [|f l]; [done|].
  assert (Hf : f ∈ f :: l) by by left.
  destruct l as [|g l _] using rev_ind; [simpl; by apply Hb2|].
  assert (Hg : g ∈ f :: l ++ [g]) by (right; apply elem_of_app; right; by left).
  assert (Hl : l ⊆ f :: l ++ [g]) by (intros y Hy; right; apply elem_of_app; by left).
  assert (Hrun : forall y, run_all (f :: l ++ [g]) y = g (f y)).
  { intros y. rewrite app_comm_cons, run_all_app. simpl. by apply (band_skip (f :: l ++ [g])). }
  rewrite !Hrun, Hb1 by done. by apply Hb2.
Qed.
Lemma band_subset {A} (fs gs : list (A -> A)) : gs ⊆ fs -> band fs -> band gs.
Proof. intros Hs [Hb Hi]. split; intros; [apply Hb|apply Hi]; by apply Hs. Qed.

(** ** A table as a map of cells *)

Section table.
Context {K : Type} `{Countable K} {A : Type}.
Implicit Types (ops : list (K * (option A -> option A))) (m : gmap K A).
Definition alter_all ops m : gmap K A := foldl (fun m op => partial_alter op.2 op.1 m) m ops.
Definition cell_ops (k : K) ops : list (option A -> option A) :=
  omap (fun op => if decide (op.1 = k) then Some op.2 else None) ops.
Lemma alter_all_lookup ops m k : alter_all ops m !! k = run_all (cell_ops k ops) (m !! k).
Proof.
  revert m. induction ops as [|[k' f] ops IH]; intros m; [done|]. simpl. rewrite IH.
  case_decide as Hk; simpl.
  - subst k'. by rewrite lookup_partial_alter_eq.
  - by rewrite lookup_partial_alter_ne.
Qed.
Lemma alter_all_app ops ops' m : alter_all (ops ++ ops') m = alter_all ops' (alter_all ops m).
Proof. apply foldl_app. Qed.
Definition table_band ops : Prop := forall k, band (cell_ops k ops).
Lemma alter_all_idemp ops m : table_band ops -> alter_all ops (alter_all ops m) = alter_all ops m.
Proof. intros Hb. apply map_eq. intros k. by rewrite !alter_all_lookup, run_all_idemp. Qed.
Lemma table_band_prefix ops ops' : table_band (ops ++ ops') -> table_band ops.
Proof.
  intros Hb k. eapply band_subset; [|exact (Hb k)]. unfold cell_ops. rewrite omap_app. set_solver.
Qed.
End table.

Section history.
Context `{Chrono} `{SerdeJson} `{Collation} `{!Statements} `{!DateJson}.
Implicit Types (db : HistoryDb) (ws : list Write).

(** ** The writes, table by table *)

Definition case_ops ws := omap (fun w => match w with WriteCase id r f => Some (id, upsert r f) | _ => None end) ws.
Definition event_ops ws := omap (fun w => match w with WriteEvent k r f => Some (k, upsert r f) | _ => None end) ws.
Definition link_ops ws := omap (fun w => match w with WriteLink k r f => Some (k, upsert r f) | _ => None end) ws.
Definition slice_ops ws :=
  omap (fun w => match w with WriteFeature id r => Some (id, upsert r (fun old => old)) | _ => None end) ws.
Definition apply_all ws db : HistoryDb := foldl (fun db w => write w db) db ws.
Lemma apply_all_app ws ws' db : apply_all (ws ++ ws') db = apply_all ws' (apply_all ws db).
Proof. apply foldl_app. Qed.
Lemma apply_all_tables ws db :
  apply_all ws db =
  with_cases (alter_all (case_ops ws) (h_cases db))
    (with_events (alter_all (event_ops ws) (h_case_events db))
      (with_links (alter_all (link_ops ws) (h_case_alert_links db))
        (with_registry (alter_all (slice_ops ws) (h_ml_feature_registry db)) db))).
Proof.
  revert db. induction ws as [|w ws IH]; intros db; [by destruct db|]. cbn [apply_all foldl].
  change (foldl _ (write w db) ws) with (apply_all ws (write w db)). rewrite IH. by destruct w.
Qed.
Definition bands ws : Prop :=
  table_band (case_ops ws) /\ table_band (event_ops ws) /\ table_band (link_ops ws) /\ table_band (slice_ops ws).
Lemma bands_prefix ws ws' : bands (ws ++ ws') -> bands ws.
Proof.
  unfold bands, case_ops, event_ops, link_ops, slice_ops. rewrite !omap_app.
  intros (H1' & H2' & H3' & H4'). split_and!; by eapply table_band_prefix.
Qed.
Lemma apply_all_idemp ws db : bands ws -> apply_all ws (apply_all ws db) = apply_all ws db.
Proof.
  intros (H1' & H2' & H3' & H4'). rewrite (apply_all_tables ws (apply_all ws db)), !apply_all_tables.
  simpl. rewrite !alter_all_idemp by done. by destruct db.
Qed.
(** a batch written after any number of its prefixes is the batch *)
Lemma apply_all_replay ws ns db : bands ws ->
  apply_all ws (foldl (fun db n => apply_all (take n ws) db) db ns) = apply_all ws db.
Proof.
  intros Hb. revert db. induction ns as [|n ns IH]; intros db; [done|]. simpl. rewrite IH.
  rewrite <- (take_drop n ws) at 1. rewrite apply_all_app, apply_all_idemp.
  - by rewrite <- apply_all_app, take_drop.
  - apply (bands_prefix _ (drop n ws)). by rewrite take_drop.
Qed.
Lemma apply_all_offsets t ws db : apply_all ws (with_offsets t db) = with_offsets t (apply_all ws db).
Proof. by rewrite !apply_all_tables. Qed.

(** ** Foreign keys *)

(** every row refers to a case written before it, or already in [seen] *)
Fixpoint closed_from (seen : list string) ws : Prop :=
  match ws with
  | [] => True
  | WriteCase id _ _ :: ws => closed_from (id :: seen) ws
  | WriteEvent _ row _ :: ws => ce_case_id row ∈ seen /\ closed_from seen ws
  | WriteLink k _ _ :: ws => k.1 ∈ seen /\ closed_from seen ws
  | WriteFeature _ row :: ws => fs_case_id row ∈ seen /\ closed_from seen ws
  end.
Lemma closed_from_mono seen seen' ws : seen ⊆ seen' -> closed_from seen ws -> closed_from seen' ws.
Proof.
  revert seen seen'. induction ws as [|[] ws IH]; intros seen seen' Hs; simpl; [done|..].
  - apply IH. set_solver.
  - intros [??]. split; [set_solver|by eapply IH].
  - intros [??]. split; [set_solver|by eapply IH].
  - intros [??]. split; [set_solver|by eapply IH].
Qed.
Lemma closed_app seen ws ws' : closed_from seen ws -> closed_from [] ws' -> closed_from seen (ws ++ ws').
Proof.
  revert seen. induction ws as [|[] ws IH]; intros seen; simpl.
  - intros _. apply closed_from_mono. set_solver.
  - apply IH.
  - intros [??] ?. by auto.
  - intros [??] ?. by auto.
  - intros [??] ?. by auto.
Qed.
Definition has_cases (seen : list string) db : Prop := forall id, id ∈ seen -> is_Some (h_cases db !! id).
Lemma no_cases db : has_cases [] db.
Proof. intros id Hin. by apply elem_of_nil in Hin. Qed.
Lemma write_has_cases seen (w : Write) db : has_cases seen db ->
  has_cases (match w with WriteCase id _ _ => id :: seen | _ => seen end) (write w db).
Proof.
  intros Hs. destruct w as [id r f|k r f|k r f|id r]; [|exact Hs..].
  intros id' Hid. simpl. destruct (decide (id' = id)) as [->|Hne].
  - rewrite lookup_partial_alter_eq. by eexists.
  - rewrite lookup_partial_alter_ne by done. apply Hs. set_solver.
Qed.
Lemma closed_ok seen (w : Write) ws db : closed_from seen (w :: ws) -> has_cases seen db ->
  foreign_key_ok w db = true.
Proof.
  intros Hc Hs. unfold foreign_key_ok. destruct (refers w db) as [c|] eqn:Hr; [|done].
  assert (Hin : c ∈ seen).
  { destruct w; simpl in *; try done; destruct Hc as [Hc _]; revert Hr; case_match; by intros [= <-]. }
  apply Hs in Hin as [x ->]. done.
Qed.

(** ** Runs *)

(** what a run of writes leaves: all of them, or a prefix when it fails *)
Definition wrote ws db (r : World * outcome unit) : Prop :=
  match r.2 with
  | Ret _ => w_db r.1 = apply_all ws db
  | Err _ => exists n, w_db r.1 = apply_all (take n ws) db
  | Panic => False
  end.
Lemma write_all_run seen ws (w : World) : closed_from seen ws -> has_cases seen (w_db w) ->
  wrote ws (w_db w) (write_all ws w).
Proof.
  unfold write_all. revert seen w. induction ws as [|x ws IH]; intros seen w Hc Hs; [done|].
  simpl. unfold mbind, st_bind, execute_write, statement.
  destruct (statement_fails (w_step w)); [by exists O|].
  rewrite (closed_ok _ _ _ _ Hc Hs). pose proof (write_has_cases seen x (w_db w) Hs) as Hs'.
  match goal with |- wrote _ _ (for_each _ _ _ ?w') => set (w1 := w') end.
  assert (Hc' : closed_from (match x with WriteCase id _ _ => id :: seen | _ => seen end) ws)
    by (destruct x; simpl in Hc; tauto).
  specialize (IH _ w1 Hc' Hs'). unfold wrote in *. destruct (for_each _ ws tt w1) as [w2 [[]|e|]]; [done| |done].
  destruct IH as [n Hn]. by exists (S n).
Qed.

Section sync.
Context {Row : Type} (s : Sync Row).
Definition row_writes (rows : list Row) : list Write := rows ≫= sy_writes s.
Definition rows_loop (rows : list Row) (o : Offset) : ST World Offset :=
  for_each (fun _ row => _ ← write_all (sy_writes s row); mret (row_offset s row)) rows o.
Definition last_offset (rows : list Row) (o : Offset) : Offset :=
  foldl (fun _ row => row_offset s row) o rows.
Definition closed_rows : Prop := forall row, closed_from [] (sy_writes s row).
Lemma rows_loop_cons row rows o (w : World) : rows_loop (row :: rows) o w =
  match write_all (sy_writes s row) w with
  | (w1, Ret _) => rows_loop rows (row_offset s row) w1
  | (w1, Err e) => (w1, Err e)
  | (w1, Panic) => (w1, Panic)
  end.
Proof.
  unfold rows_loop. cbn [for_each]. unfold mbind, st_bind.
  destruct (write_all (sy_writes s row) w) as [w1 [[]|e|]]; reflexivity.
Qed.
(** a loop over rows that fails has written a prefix of their writes *)
Lemma rows_run rows o (w : World) : closed_rows ->
  match rows_loop rows o w with
  | (w', Ret o') => w_db w' = apply_all (row_writes rows) (w_db w) /\ o' = last_offset rows o
  | (w', Err _) => exists n, w_db w' = apply_all (take n (row_writes rows)) (w_db w)
  | (_, Panic) => False
  end.
Proof.
  intros Hc. revert o w. induction rows as [|row rows IH]; intros o w; [done|].
  rewrite rows_loop_cons. unfold row_writes in *. cbn [mbind list_bind].
  pose proof (write_all_run [] (sy_writes s row) w (Hc row) (no_cases _)) as Hw. unfold wrote in Hw.
  destruct (write_all (sy_writes s row) w) as [w1 [[]|e|]]; simpl in Hw; [| |done].
  - specialize (IH (row_offset s row) w1). destruct (rows_loop rows _ w1) as [w2 [o'|e|]]; [| |done].
    + destruct IH as [IH ->]. split; [|done]. by rewrite IH, apply_all_app, Hw.
    + destruct IH as [n Hn]. exists (length (sy_writes s row) + n)%nat.
      by rewrite Hn, take_app_add, apply_all_app, Hw.
  - destruct Hw as [n Hn]. exists (n `min` length (sy_writes s row))%nat.
    rewrite Hn, take_app_le by lia. f_equal. destruct (decide (n <= length (sy_writes s row))%nat).
    + by rewrite Nat.min_l.
    + by rewrite Nat.min_r, !take_ge by lia.
Qed.

(** ** One call *)

Context (ts0 : DateTime) (Hepoch : epoch = Ret ts0).
Definition offset_of db : Offset :=
  default {| last_seen_ts := ts0; last_seen_id := "" |} (h_ingest_offsets db !! sy_source s).
Definition pending db : list Row :=
  filter (fun row => after s (offset_of db) row = true) (sort_by (row_le s) (sy_table s db)).
(** what a batch that succeeds leaves *)
Definition settle (rows : list Row) db : HistoryDb :=
  match rows with
  | [] => db
  | _ => with_offsets (<[sy_source s := last_offset rows (offset_of db)]> (h_ingest_offsets db))
           (apply_all (row_writes rows) db)
  end.
Lemma load_offset_run (w : World) :
  match load_offset (sy_source s) w with
  | (w', Ret o) => w_db w' = w_db w /\ o = offset_of (w_db w)
  | (w', Err _) => w_db w' = w_db w
  | (_, Panic) => False
  end.
Proof.
  unfold load_offset, mbind, st_bind, statement. destruct (statement_fails (w_step w)); [done|].
  unfold offset_of. destruct (h_ingest_offsets (w_db w) !! sy_source s) as [o|]; [done|].
  unfold lift. by rewrite Hepoch.
Qed.
Lemma sync_run b (w : World) : closed_rows -> 0 <= b ->
  let rows := take (Z.to_nat b) (pending (w_db w)) in
  match sync s b w with
  | (w', Ret n) => n = length rows /\ w_db w' = settle rows (w_db w)
  | (w', Err _) => exists k, w_db w' = apply_all (take k (row_writes rows)) (w_db w)
  | (_, Panic) => False
  end.
Proof.
  intros Hc Hb rows. pose proof (load_offset_run w) as Hl. unfold sync. unfold mbind at 1, st_bind at 1.
  destruct (load_offset (sy_source s) w) as [w1 [o|e|]]; [|by exists O|done].
  destruct Hl as [Hdb ->]. unfold mbind at 1, st_bind at 1. unfold statement at 1.
  destruct (statement_fails (w_step w1)); [by exists O|].
  unfold select_rows. replace (b <? 0) with false by (symmetry; by apply Z.ltb_ge). rewrite Hdb.
  change (take (Z.to_nat b) _) with rows. unfold mbind at 1, st_bind at 1.
  match goal with |- context [for_each ?f rows ?o ?w] =>
    change (for_each f rows o w) with (rows_loop rows o w);
    pose proof (rows_run rows o w Hc) as Hr; simpl in Hr; destruct (rows_loop rows o w) as [w3 [o'|e|]] end;
    [|exact Hr|done].
  destruct Hr as [Hr ->]. unfold mbind, st_bind. destruct rows as [|r0 rows'] eqn:Hrows; [by split|].
  unfold save_offset, statement. destruct (statement_fails (w_step w3)); simpl.
  - exists (length (row_writes (r0 :: rows'))). by rewrite firstn_all.
  - split; [done|]. rewrite Hr. unfold settle. f_equal. f_equal. by rewrite apply_all_tables.
Qed.

(** ** The order of the cursor *)

Definition key_lt (a b : Row) : bool := after s (row_offset s a) b.
Lemma dt_lt_trans (x y z : DateTime) : dt_lt x y = true -> dt_lt y z = true -> dt_lt x z = true.
Proof. unfold dt_lt. rewrite !Z.ltb_lt. lia. Qed.
Lemma after_spec o (row : Row) : after s o row = true <->
  dt_lt (last_seen_ts o) (sy_ts s row) = true \/
  sy_ts s row = last_seen_ts o /\ text_lt (last_seen_id o) (sy_id s row) = true.
Proof. unfold after. by rewrite orb_true_iff, andb_true_iff, bool_decide_eq_true. Qed.
Lemma after_trans o a b : after s o a = true -> key_lt a b = true -> after s o b = true.
Proof.
  unfold key_lt. rewrite !after_spec. simpl. intros [Ha|[Ha Ha']] [Hb|[Hb Hb']].
  - left. by eapply dt_lt_trans.
  - left. by rewrite Hb.
  - left. by rewrite <- Ha.
  - right. split; [congruence|]. by eapply text_lt_trans.
Qed.
Lemma key_lt_irrefl a : key_lt a a = false.
Proof.
  apply not_true_iff_false. unfold key_lt. rewrite after_spec. simpl. unfold dt_lt.
  rewrite Z.ltb_lt, text_lt_irrefl. intros [?|[_ ?]]; [lia|done].
Qed.
Definition ordered : Prop := forall a b, sy_id_le s a b = text_le (sy_id s a) (sy_id s b).
Lemma row_le_spec a b : ordered -> row_le s a b = true <-> key_lt a b = true \/
  sy_ts s a = sy_ts s b /\ sy_id s a = sy_id s b.
Proof.
  intros Ho. unfold row_le, key_lt. rewrite after_spec, orb_true_iff, andb_true_iff, bool_decide_eq_true, Ho.
  unfold text_le. rewrite negb_true_iff. simpl. split.
  - intros [Hlt|[Hts Hid]]; [by left; left|].
    destruct (text_lt_total (sy_id s a) (sy_id s b)) as [?|[?|Hc]]; [left; right; by split|by right|].
    by rewrite Hc in Hid.
  - intros [[Hlt|[Hts Hid]]|[Hts Hid]]; [by left| |].
    + right. split; [done|]. apply not_true_iff_false. intros Hc. pose proof (text_lt_trans _ _ _ Hid Hc) as Hx.
      by rewrite text_lt_irrefl in Hx.
    + right. split; [done|]. rewrite Hid. apply text_lt_irrefl.
Qed.
Lemma key_total a b : key_lt a b = true \/ (sy_ts s a = sy_ts s b /\ sy_id s a = sy_id s b) \/ key_lt b a = true.
Proof.
  unfold key_lt. rewrite !after_spec. simpl. unfold dt_lt. rewrite !Z.ltb_lt.
  destruct (Z.lt_total (ns (sy_ts s a)) (ns (sy_ts s b))) as [Hl|[He|Hg]]; [tauto| |tauto].
  apply ns_inj in He. destruct (text_lt_total (sy_id s a) (sy_id s b)) as [?|[?|?]]; rewrite ?He; tauto.
Qed.
Definition key_sorted : list Row -> Prop := StronglySorted (fun a b => key_lt a b = true).
(** rows with identifiers of their own are sorted strictly *)
Lemma sort_key_sorted (rows : list Row) : ordered -> NoDup (sy_id s <$> rows) ->
  key_sorted (sort_by (row_le s) rows).
Proof.
  intros Ho Hnd.
  assert (Hs : sorted_by (row_le s) (sort_by (row_le s) rows)).
  { apply sort_by_sorted.
    - intros a b. rewrite !row_le_spec by done. destruct (key_total a b) as [?|[[??]|?]]; auto.
    - intros a b c. rewrite !row_le_spec by done. unfold key_lt.
      intros [Hab|[Ht Hi]] [Hbc|[Ht' Hi']].
      + left. by eapply after_trans.
      + left. rewrite after_spec in *. by rewrite <- Ht', <- Hi'.
      + left. unfold row_offset in *. by rewrite Ht, Hi.
      + right. split; congruence. }
  rewrite <- (sort_by_perm (row_le s)) in Hnd. unfold key_sorted.
  induction Hs as [|a l Hs IH Hl]; [constructor|]. rewrite fmap_cons in Hnd. apply NoDup_cons in Hnd as [Ha Hnd].
  constructor; [by apply IH|]. rewrite Forall_forall in *. intros b Hb. specialize (Hl b Hb).
  apply row_le_spec in Hl as [?|[_ Hid]]; [done| |done]. destruct Ha. rewrite Hid. apply list_elem_of_fmap. by exists b.
Qed.
Lemma key_sorted_filter (P : Row -> Prop) `{forall x, Decision (P x)} l : key_sorted l -> key_sorted (filter P l).
Proof.
  induction 1 as [|a l Hs IH Hl]; [constructor|]. destruct (decide (P a)).
  - rewrite filter_cons_True by done. constructor; [done|]. rewrite Forall_forall in *. intros b Hb.
    apply list_elem_of_filter in Hb as [_ Hb]. by apply Hl.
  - by rewrite filter_cons_False.
Qed.
(** what comes after a row of a sorted list *)
Lemma filter_after p a q : key_sorted (p ++ a :: q) ->
  filter (fun row => key_lt a row = true) (p ++ a :: q) = q.
Proof.
  induction p as [|b p IH]; intros Hs; simpl; inversion Hs as [|? ? Hs' Hl]; subst.
  - rewrite filter_cons_False by (by rewrite key_lt_irrefl). clear -Hl.
    induction Hl as [|b l Hb Hl IH]; [done|]. by rewrite filter_cons_True, IH.
  - rewrite filter_cons_False; [by apply IH|]. intros Hab.
    apply Forall_app in Hl as [_ Hl]. apply Forall_cons in Hl as [Hba _].
    assert (Haa : key_lt a a = true) by (by eapply after_trans). by rewrite key_lt_irrefl in Haa.
Qed.

(** ** Calls in a row *)

(** the rows to copy, and the tables after [k] of them *)
Variable db0 : HistoryDb.
Definition settled (k : nat) : HistoryDb := settle (take k (pending db0)) db0.
End sync.

(** what makes a source one that a cursor copies *)
Class CursorSync {Row} (s : Sync Row) := {
  cs_closed : closed_rows s;
  cs_bands : forall rows, bands (row_writes s rows);
  cs_table : forall ws db t, sy_table s (with_offsets t (apply_all ws db)) = sy_table s db;
  cs_ordered : ordered s
}.
(** a process that is started again after every error: the answers of [n] calls *)
Fixpoint calls {Row} (s : Sync Row) (b : Z) (n : nat) (w : World) : World * list (outcome nat) :=
  match n with
  | O => (w, [])
  | S n => let '(w, r) := sync s b w in let '(w, rs) := calls s b n w in (w, r :: rs)
  end.
Definition copied (rs : list (outcome nat)) : nat := sum_list (outcome_or O <$> rs).

Section copying.
Context {Row : Type} (s : Sync Row) `{!CursorSync s} (ts0 : DateTime) (Hepoch : epoch = Ret ts0).
Context (b : Z) (Hb : 0 <= b) (db0 : HistoryDb) (Hids : NoDup (sy_id s <$> sy_table s db0)).
#[local] Notation all := (pending s ts0 db0).
#[local] Notation at_ k := (settled s ts0 db0 k).

Lemma settle_offset rows db : offset_of s ts0 (settle s ts0 rows db) = last_offset s rows (offset_of s ts0 db).
Proof. destruct rows as [|r rows]; [done|]. unfold offset_of, settle. simpl. by rewrite lookup_insert_eq. Qed.
Lemma settle_table rows db : sy_table s (settle s ts0 rows db) = sy_table s db.
Proof. destruct rows; [done|]. apply cs_table. Qed.
Lemma pending_settled k : (k <= length all)%nat -> pending s ts0 (at_ k) = drop k all.
Proof.
  intros Hk. unfold pending at 1, settled. rewrite settle_offset, settle_table.
  destruct k as [|k]; [done|].
  destruct (lookup_lt_is_Some_2 all k ltac:(lia)) as [x Hx].
  rewrite (take_S_r _ _ _ Hx). unfold last_offset. rewrite foldl_app. simpl.
  pose proof (list_filter_filter_l (fun row => after s (row_offset s x) row = true)
    (fun row => after s (offset_of s ts0 db0) row = true) (sort_by (row_le s) (sy_table s db0))) as Hf.
  rewrite <- Hf.
  - refine (eq_trans _ (filter_after s (take k all) x (drop (S k) all) _)); rewrite take_drop_middle by done;
      [done|]. apply key_sorted_filter. apply sort_key_sorted; [apply cs_ordered|done].
  - intros row Hr. eapply after_trans; [|exact Hr].
    apply list_elem_of_lookup_2, list_elem_of_filter in Hx as [Hx _]. exact Hx.
Qed.
Lemma settled_add k m : (k <= length all)%nat ->
  settle s ts0 (take m (drop k all)) (at_ k) = at_ (k + m).
Proof.
  intros Hk. unfold settled at 2. rewrite <- take_take_drop.
  destruct (take m (drop k all)) as [|r rows] eqn:Hr; [by rewrite app_nil_r|].
  unfold settled. destruct (take k all) as [|r0 rows0] eqn:Hk0; [done|].
  set (p := r0 :: rows0). set (q := r :: rows). change (r0 :: rows0 ++ q) with (p ++ q).
  unfold settle at 1. fold q. change (r :: rows) with q.
  assert (Hset : forall l db, l <> [] -> settle s ts0 l db =
    with_offsets (<[sy_source s := last_offset s l (offset_of s ts0 db)]> (h_ingest_offsets db))
      (apply_all (row_writes s l) db)) by (by intros []).
  rewrite settle_offset, !Hset by done. simpl h_ingest_offsets. rewrite insert_insert_eq, apply_all_offsets.
  assert (Hww : forall t t' db, with_offsets t (with_offsets t' db) = with_offsets t db) by done.
  rewrite Hww. unfold last_offset. rewrite foldl_app. f_equal.
  unfold row_writes. by rewrite bind_app, apply_all_app.
Qed.

(** after [k] rows copied, and prefixes of the next batch written by failed calls *)
Definition reached (k : nat) (ns : list nat) db : Prop :=
  (k <= length all)%nat /\
  db = foldl (fun db n => apply_all (take n (row_writes s (take (Z.to_nat b) (drop k all)))) db) (at_ k) ns.
Lemma prefixes_frame ws ns db :
  let db' := foldl (fun db n => apply_all (take n ws) db) db ns in
  h_ingest_offsets db' = h_ingest_offsets db /\ sy_table s db' = sy_table s db.
Proof.
  simpl. revert db. induction ns as [|n ns IH]; intros db; [done|]. simpl.
  destruct (IH (apply_all (take n ws) db)) as [-> ->]. split; [by rewrite apply_all_tables|].
  rewrite <- (cs_table (take n ws) db (h_ingest_offsets db)). f_equal. rewrite apply_all_tables. by destruct db.
Qed.
Lemma pending_frame db db' : h_ingest_offsets db' = h_ingest_offsets db -> sy_table s db' = sy_table s db ->
  pending s ts0 db' = pending s ts0 db.
Proof. intros Ho Ht. unfold pending, offset_of. by rewrite Ho, Ht. Qed.
Lemma reached_pending k ns db : reached k ns db -> pending s ts0 db = drop k all.
Proof.
  intros [Hk ->]. rewrite <- (pending_settled k Hk). by apply pending_frame; apply prefixes_frame.
Qed.
Lemma reached_settle k ns db : reached k ns db ->
  settle s ts0 (take (Z.to_nat b) (drop k all)) db = at_ (k + Z.to_nat b).
Proof.
  intros [Hk ->]. rewrite <- settled_add by done.
  destruct (take (Z.to_nat b) (drop k all)) as [|r rows] eqn:Hr.
  - simpl. clear -s. generalize (at_ k). induction ns as [|n ns IH]; intros d; [done|]. simpl.
    rewrite take_nil. apply IH.
  - unfold settle. rewrite apply_all_replay by apply cs_bands.
    destruct (prefixes_frame (row_writes s (r :: rows)) ns (at_ k)) as [Ho _]. cbv zeta in Ho.
    unfold offset_of. by rewrite Ho.
Qed.
Lemma settled_cap k : at_ k = at_ (k `min` length all).
Proof.
  unfold settled. destruct (decide (k <= length all)%nat); [by rewrite Nat.min_l|].
  by rewrite Nat.min_r, !take_ge by lia.
Qed.
Lemma reached_step k ns (w : World) : reached k ns (w_db w) ->
  match sync s b w with
  | (w', Ret m) => m = (Z.to_nat b `min` (length all - k))%nat /\ reached (k + m) [] (w_db w')
  | (w', Err _) => exists ns', reached k ns' (w_db w')
  | (_, Panic) => False
  end.
Proof.
  intros Hr. pose proof (sync_run s ts0 Hepoch b w cs_closed Hb) as Hs. simpl in Hs.
  rewrite (reached_pending _ _ _ Hr) in Hs. pose proof Hr as [Hk Hdb].
  destruct (sync s b w) as [w' [m|e|]]; [| |done].
  - destruct Hs as [-> Hw]. rewrite (reached_settle _ _ _ Hr) in Hw. rewrite length_take, length_drop.
    split; [done|]. split; [lia|]. simpl. rewrite Hw, (settled_cap (k + Z.to_nat b)). f_equal. lia.
  - destruct Hs as [j Hj]. exists (ns ++ [j]). split; [done|]. rewrite foldl_app. simpl. by rewrite <- Hdb.
Qed.
Lemma calls_reached n k ns (w : World) : reached k ns (w_db w) ->
  let '(w', rs) := calls s b n w in
  Panic ∉ rs /\ exists ns', reached (k + copied rs) ns' (w_db w') /\
  (rs = [] -> ns' = ns) /\
  forall m, last rs = Some (Ret m) -> ns' = [] /\ (Z.of_nat m < b -> (k + copied rs)%nat = length all).
Proof.
  revert k ns w. induction n as [|n IH]; intros k ns w Hr; simpl.
  - split; [set_solver|]. exists ns. unfold copied. simpl. by rewrite Nat.add_0_r.
  - pose proof (reached_step _ _ _ Hr) as Hs. destruct (sync s b w) as [w1 [m|e|]]; [| |done].
    + destruct Hs as [Hm Hs]. specialize (IH _ _ _ Hs). destruct (calls s b n w1) as [w2 rs].
      destruct IH as (Hp & ns' & Hr' & Hnil & Hl). split; [set_solver|]. exists ns'. unfold copied in *. simpl.
      rewrite Nat.add_assoc. split_and!; [done|done|]. intros m'. destruct rs as [|r rs]; [|exact (Hl m')].
      simpl. intros [= <-]. split; [by apply Hnil|]. intros Hlt. simpl. destruct Hr as [Hk _]. lia.
    + destruct Hs as [ns1 Hs]. specialize (IH _ _ _ Hs). destruct (calls s b n w1) as [w2 rs].
      destruct IH as (Hp & ns' & Hr' & Hnil & Hl). split; [set_solver|]. exists ns'. unfold copied in *. simpl.
      split_and!; [done|done|]. intros m'. destruct rs as [|r rs]; [done|exact (Hl m')].
Qed.
End copying.

(** C11: a source is copied exactly once.  However the statements of the calls
    fail, and although the process starts again after every failure with nothing
    but the stored cursor and writes rows a second time, after a call that
    succeeds the history tables hold what writing the copied rows once, in the
    order of time and identifier, gives, and the cursor is at the last of them;
    a call that copies less than a batch has reached the end; no call panics.
    Incidents, alerts and detections are such sources. *)
Theorem sync_exactly_once {Row} (s : Sync Row) `{!CursorSync s} ts0 b n (w w' : World) rs :
  epoch = Ret ts0 -> 0 <= b -> NoDup (sy_id s <$> sy_table s (w_db w)) -> calls s b n w = (w', rs) ->
  let rows := pending s ts0 (w_db w) in
  Panic ∉ rs /\ (copied rs <= length rows)%nat /\
  forall m, last rs = Some (Ret m) ->
    w_db w' = settle s ts0 (take (copied rs) rows) (w_db w) /\
    (Z.of_nat m < b -> copied rs = length rows).
Proof.
  intros He Hb Hids Hc rows.
  assert (Hr : reached s ts0 b (w_db w) 0 [] (w_db w)) by (split; [lia|done]).
  pose proof (calls_reached s ts0 He b Hb (w_db w) Hids n 0 [] w Hr) as Hcr. rewrite Hc in Hcr.
  destruct Hcr as (Hp & ns & [Hk Hdb] & _ & Hl). split_and!; [done|exact Hk|]. intros m Hm.
  destruct (Hl m Hm) as [-> Hend]. split; [exact Hdb|exact Hend].
Qed.

(** ** The sources *)

Lemma band_upserts {R A} (ins : R -> A) (upd : R -> A -> A) (fs : list (option A -> option A)) :
  (forall f, f ∈ fs -> exists r, f = upsert (ins r) (upd r)) ->
  (forall r r' r'' y, upd r (upd r' (upd r'' y)) = upd r (upd r'' y)) ->
  (forall r r' r'', upd r (upd r' (ins r'')) = upd r (ins r'')) ->
  (forall r y, upd r (upd r y) = upd r y) -> (forall r, upd r (ins r) = ins r) -> band fs.
Proof.
  intros Hf H1' H2' H3' H4'. split.
  - intros f g h x (r & ->)%Hf (r' & ->)%Hf (r'' & ->)%Hf. unfold upsert. by destruct x; rewrite ?H1', ?H2'.
  - intros f x (r & ->)%Hf. unfold upsert. by destruct x; rewrite ?H3', ?H4'.
Qed.
(** the operations on a cell that the writes of rows make *)
Lemma cell_ops_rows {R K A} `{Countable K} (ops : list Write -> list (K * (option A -> option A)))
    (rows : list R) (ws : R -> list Write) k f :
  (forall l l', ops (l ++ l') = ops l ++ ops l') -> ops [] = [] ->
  f ∈ cell_ops k (ops (rows ≫= ws)) -> exists r, r ∈ rows /\ (k, f) ∈ ops (ws r).
Proof.
  intros Happ Hnil. induction rows as [|r rows IH]; simpl; [rewrite Hnil; set_solver|].
  rewrite Happ. unfold cell_ops. rewrite omap_app, elem_of_app. intros [Hf|Hf].
  - exists r. split; [by left|]. apply list_elem_of_omap in Hf as ([k' f'] & Hin & Hf). simpl in Hf.
    case_decide; [|done]. injection Hf as ->. by subst k'.
  - destruct (IH Hf) as (r' & Hr & Hk). exists r'. split; [by right|done].
Qed.
Lemma keep_band {R A} (ins : R -> A) (fs : list (option A -> option A)) :
  (forall f, f ∈ fs -> exists r, f = upsert (ins r) keep) -> band fs.
Proof. intros Hf. by apply (band_upserts ins (fun _ => keep)). Qed.
Lemma no_ops_band {A} (fs : list (A -> A)) : (forall f, f ∉ fs) -> band fs.
Proof. intros Hn. split; intros f; intros; by destruct (Hn f). Qed.
Ltac ops_of Hf := apply cell_ops_rows in Hf as (r & _ & Hf); [|intros; apply omap_app|done]; set_unfold in Hf.

#[global] Instance incident_cursor : CursorSync incident_sync.
Proof.
  split; [| |intros; simpl; by rewrite apply_all_tables|done].
  - intros row. simpl. split; [set_solver|done].
  - intros rows. split_and!; intros k.
    + apply (band_upserts incident_case update_incident_case); [|done..].
      intros f Hf. ops_of Hf. naive_solver.
    + apply (keep_band incident_event). intros f Hf. ops_of Hf. naive_solver.
    + apply no_ops_band. intros f Hf. ops_of Hf. naive_solver.
    + apply no_ops_band. intros f Hf. ops_of Hf. naive_solver.
Qed.
#[global] Instance alert_cursor : CursorSync alert_sync.
Proof.
  split; [| |intros; simpl; by rewrite apply_all_tables|done].
  - intros row. simpl. split_and!; [set_solver..|done].
  - intros rows. split_and!; intros k.
    + apply (band_upserts alert_case update_alert_case); [|done..].
      intros f Hf. ops_of Hf. naive_solver.
    + apply (keep_band alert_event). intros f Hf. ops_of Hf. naive_solver.
    + apply (band_upserts alert_link update_alert_link); [|done..].
      intros f Hf. ops_of Hf. naive_solver.
    + apply no_ops_band. intros f Hf. ops_of Hf. naive_solver.
Qed.
#[global] Instance detection_cursor : CursorSync detection_sync.
Proof.
  split; [| |intros; simpl; by rewrite apply_all_tables|done].
  - intros row. simpl. split; [set_solver|done].
  - intros rows. split_and!; intros k.
    + apply (band_upserts detection_case update_detection_case).
      * intros f Hf. ops_of Hf. naive_solver.
      * intros r r' r'' [? ? ? ? ? [?|] [?|] ? ? ? ? ? ? ?]; reflexivity.
      * done.
      * intros r [? ? ? ? ? [?|] [?|] ? ? ? ? ? ? ?]; reflexivity.
      * done.
    + apply (keep_band detection_event). intros f Hf. ops_of Hf. naive_solver.
    + apply no_ops_band. intros f Hf. ops_of Hf. naive_solver.
    + apply no_ops_band. intros f Hf. ops_of Hf. naive_solver.
Qed.

(** ** A feature vector without a case *)

Section orphan.
Context (ts0 : DateTime) (Hepoch : epoch = Ret ts0) (bucket : option string) (prefix : string).
#[local] Notation features := (feature_sync bucket prefix).
(** what the writes of a table can name *)
Definition case_ids (ws : list Write) : list string := (case_ops ws).*1.
Lemma apply_all_case_none ws db id : id ∉ case_ids ws -> h_cases db !! id = None ->
  h_cases (apply_all ws db) !! id = None.
Proof.
  intros Hn Hd. rewrite apply_all_tables. simpl. rewrite alter_all_lookup. unfold case_ids in Hn.
  replace (cell_ops id (case_ops ws)) with (@nil (option Case -> option Case)); [done|]. symmetry.
  induction (case_ops ws) as [|[k f] ops IH]; [done|]. simpl in *. rewrite not_elem_of_cons in Hn.
  destruct Hn as [Hk Hn]. rewrite decide_False by done. by apply IH.
Qed.
(** what a call on a source leaves: some of the writes of its rows, and its cursor *)
Lemma sync_frame {Row} (s : Sync Row) `{!CursorSync s} b (w : World) : 0 <= b ->
  let '(w', r) := sync s b w in
  r <> Panic /\ exists ws t, w_db w' = with_offsets t (apply_all ws (w_db w)) /\
    (forall x, x ∈ ws -> exists row, row ∈ sy_table s (w_db w) /\ x ∈ sy_writes s row) /\
    (forall name, name <> sy_source s -> t !! name = h_ingest_offsets (w_db w) !! name).
Proof.
  intros Hb. pose proof (sync_run s ts0 Hepoch b w cs_closed Hb) as Hs. simpl in Hs.
  set (rows := take (Z.to_nat b) (pending s ts0 (w_db w))) in *.
  assert (Hrows : forall x, x ∈ row_writes s rows ->
    exists row, row ∈ sy_table s (w_db w) /\ x ∈ sy_writes s row).
  { intros x Hx. apply list_elem_of_bind in Hx as (row & Hx & Hrow). exists row. split; [|done].
    apply (subseteq_take (Z.to_nat b)) in Hrow. unfold pending in Hrow.
    apply list_elem_of_filter in Hrow as [_ Hrow]. by apply elem_of_sort_by in Hrow. }
  assert (Hsame : forall ws, w_db w = w_db w ->
    apply_all ws (w_db w) = with_offsets (h_ingest_offsets (w_db w)) (apply_all ws (w_db w))).
  { intros ws _. rewrite apply_all_tables. by destruct (w_db w). }
  destruct (sync s b w) as [w' [m|e|]]; [| |done].
  - destruct Hs as [_ ->]. split; [done|]. unfold settle. destruct rows as [|r rows'] eqn:Hr.
    + exists [], (h_ingest_offsets (w_db w)). split_and!; [exact (Hsame [] eq_refl)|set_solver|done].
    + eexists (row_writes s (r :: rows')), _. split_and!; [reflexivity|done|].
      intros name Hname. by rewrite lookup_insert_ne by congruence.
  - destruct Hs as [j ->]. split; [done|]. eexists _, _. split_and!; [apply Hsame; done| |done].
    intros x Hx. apply Hrows. by apply subseteq_take in Hx.
Qed.
(** a feature vector that is next in line, and whose case no source makes *)
Definition orphan (row : FeatureRow) db : Prop :=
  (exists rest, pending features ts0 db = row :: rest) /\
  h_ml_feature_registry db !! ("fv:" +:+ fmt_Z (fv_id row)) = None /\
  let case_id := "detection:" +:+ fv_detection_id row in
  h_cases db !! case_id = None /\
  (forall r, r ∈ h_incidents db -> ir_incident_id r <> case_id) /\
  (forall r, r ∈ h_alerts db -> alert_case_id r <> case_id) /\
  (forall r, r ∈ h_detections db -> detection_case_id r <> case_id).
Definition harmless (case_id : string) (x : Write) : Prop :=
  match x with WriteCase id _ _ => id <> case_id | WriteFeature _ _ => False | _ => True end.
Lemma orphan_kept row ws t db : orphan row db ->
  (forall x, x ∈ ws -> harmless ("detection:" +:+ fv_detection_id row) x) ->
  t !! "feature_vectors" = h_ingest_offsets db !! "feature_vectors" ->
  orphan row (with_offsets t (apply_all ws db)).
Proof.
  intros (Hp & Hr & Hc & Hi & Ha & Hd) Hx Ht.
  assert (Hcase : "detection:" +:+ fv_detection_id row ∉ case_ids ws).
  { unfold case_ids, case_ops. intros Hin. apply list_elem_of_fmap in Hin as ([id f] & Hid & Hin).
    apply list_elem_of_omap in Hin as (x & Hxin & Hxe). specialize (Hx x Hxin).
    destruct x; try done. injection Hxe as <- <-. by apply Hx. }
  assert (Hslice : slice_ops ws = []).
  { unfold slice_ops. clear -Hx. induction ws as [|x ws IH]; [done|]. simpl.
    pose proof (Hx x ltac:(by left)) as Hh. destruct x; try done; apply IH; intros y Hy; apply Hx; by right. }
  pose proof (apply_all_case_none ws db _ Hcase Hc) as Hcn.
  unfold orphan. rewrite apply_all_tables in Hcn |- *. simpl in *. rewrite Hslice. split_and!; try done.
  destruct Hp as [rest Hp]. exists rest. rewrite <- Hp. unfold pending, offset_of. simpl. by rewrite Ht.
Qed.
Lemma orphan_sync {Row} (s : Sync Row) `{!CursorSync s} row b (w : World) : 0 <= b ->
  sy_source s <> "feature_vectors" ->
  (forall r x, r ∈ sy_table s (w_db w) -> x ∈ sy_writes s r ->
     harmless ("detection:" +:+ fv_detection_id row) x) ->
  orphan row (w_db w) -> (sync s b w).2 <> Panic /\ orphan row (w_db (sync s b w).1).
Proof.
  intros Hb Hne Hx Ho. pose proof (sync_frame s b w Hb) as Hs. destruct (sync s b w) as [w' r].
  destruct Hs as (Hp & ws & t & Hdb & Hws & Ht). split; [done|]. simpl. rewrite Hdb.
  apply orphan_kept; [done| |by apply Ht].
  intros x Hin. destruct (Hws x Hin) as (r0 & Hr0 & Hin0). by eapply Hx.
Qed.
Lemma orphan_blocks row b (w : World) : 0 < b -> orphan row (w_db w) ->
  exists (w' : World) e, sync features b w = (w', Err e) /\ w_db w' = w_db w.
Proof.
  intros Hb ([rest Hp] & Hr & Hc & _). pose proof (load_offset_run features ts0 Hepoch w) as Hl.
  unfold sync. unfold mbind at 1, st_bind at 1.
  destruct (load_offset (sy_source features) w) as [w1 [o|e|]]; [|by eexists _, _|done].
  destruct Hl as [Hdb ->]. unfold mbind at 1, st_bind at 1. unfold statement at 1.
  destruct (statement_fails (w_step w1)); [by eexists _, _|].
  unfold select_rows. replace (b <? 0) with false by (symmetry; apply Z.ltb_ge; lia). rewrite Hdb.
  change (filter _ _) with (pending features ts0 (w_db w)). rewrite Hp.
  destruct (Z.to_nat b) as [|n] eqn:Hn; [lia|]. simpl. unfold write_all. simpl.
  unfold mbind, st_bind, execute_write, statement. simpl.
  destruct (statement_fails (S (w_step w1))); [by eexists _, _|].
  unfold foreign_key_ok. simpl. rewrite Hr. simpl. rewrite Hc. by eexists _, _.
Qed.
(** a process that is started again after every error: the answers of [n] iterations *)
Fixpoint restarts (n : nat) (turn : ST World nat) (w : World) : World * list (outcome nat) :=
  match n with
  | O => (w, [])
  | S n => let '(w, r) := turn w in let '(w, rs) := restarts n turn w in (w, r :: rs)
  end.
Lemma orphan_turn row b catalog (w : World) : 0 < b -> orphan row (w_db w) ->
  exists (w' : World) e, iteration b bucket prefix catalog w = (w', Err e) /\ orphan row (w_db w').
Proof.
  intros Hb Ho. unfold iteration. unfold mbind at 1, st_bind at 1.
  pose proof Ho as (_ & _ & _ & Hi & _).
  destruct (orphan_sync incident_sync row b w ltac:(lia) ltac:(done)) as [Hp1 Ho1]; [|done|].
  { intros r x Hr Hx. simpl in Hr, Hx. set_unfold in Hx. destruct Hx as [-> | [-> | []]]; [by apply Hi|done]. }
  unfold sync_incidents. destruct (sync incident_sync b w) as [w1 [n1|e|]]; [|by eexists _, _|done].
  simpl in Ho1. unfold mbind at 1, st_bind at 1. pose proof Ho1 as (_ & _ & _ & _ & Ha & _).
  destruct (orphan_sync alert_sync row b w1 ltac:(lia) ltac:(done)) as [Hp2 Ho2]; [|done|].
  { intros r x Hr Hx. simpl in Hr, Hx. set_unfold in Hx. destruct Hx as [-> | [-> | [-> | []]]]; [by apply Ha|done..]. }
  unfold sync_alerts. destruct (sync alert_sync b w1) as [w2 [n2|e|]]; [|by eexists _, _|done].
  simpl in Ho2. unfold mbind at 1, st_bind at 1. pose proof Ho2 as (_ & _ & _ & _ & _ & Hd).
  destruct (orphan_sync detection_sync row b w2 ltac:(lia) ltac:(done)) as [Hp3 Ho3]; [|done|].
  { intros r x Hr Hx. simpl in Hr, Hx. set_unfold in Hx. destruct Hx as [-> | [-> | []]]; [by apply Hd|done]. }
  unfold sync_detections. destruct (sync detection_sync b w2) as [w3 [n3|e|]]; [|by eexists _, _|done].
  simpl in Ho3. unfold mbind at 1, st_bind at 1, sync_feature_registry.
  destruct (orphan_blocks row b w3 Hb Ho3) as (w4 & e & -> & Hw4). exists w4, e. by rewrite Hw4.
Qed.

(** C34: a feature vector whose detection has no case stops the worker for good.
    The registry refers to the case [detection:ID]; when the next feature vector
    in line has none, no source row makes one and the batch size is positive,
    every iteration ends the process with an error, however often it is started
    again and whatever statements fail besides: the cursor of the feature vectors
    stays where it is, nothing is registered, and the catalog, which comes after
    it, is never reached. *)
Theorem orphan_feature_stops_worker row b catalog n (w w' : World) rs : 0 < b -> orphan row (w_db w) ->
  restarts n (iteration b bucket prefix catalog) w = (w', rs) ->
  orphan row (w_db w') /\ length rs = n /\ Forall (fun r => exists e, r = Err e) rs.
Proof.
  intros Hb. revert w rs. induction n as [|n IH]; intros w rs Ho; simpl; [by intros [= <- <-]|].
  destruct (orphan_turn row b catalog w Hb Ho) as (w1 & e & -> & Ho1).
  destruct (restarts n _ w1) as [w2 rs2] eqn:Hr. intros [= <- <-].
  destruct (IH w1 rs2 Ho1 Hr) as (Ho2 & Hlen & Hf). split_and!; [done|simpl; by rewrite Hlen|].
  constructor; [by eexists|done].
Qed.
End orphan.
End history.

(** ** Concrete runs *)

(** text by its bytes *)
Fixpoint bytes_lt (a b : string) : bool :=
  match a, b with
  | EmptyString, EmptyString => false
  | EmptyString, _ => true
  | _, EmptyString => false
  | String x a, String y b =>
      (nat_of_ascii x <? nat_of_ascii y)%nat || (nat_of_ascii x =? nat_of_ascii y)%nat && bytes_lt a b
  end.
Lemma bytes_lt_irrefl a : bytes_lt a a = false.
Proof. induction a as [|x a IH]; [done|]. simpl. by rewrite Nat.ltb_irrefl, Nat.eqb_refl. Qed.
Lemma bytes_lt_cons x y a b : bytes_lt (String x a) (String y b) = true <->
  (nat_of_ascii x < nat_of_ascii y)%nat \/ nat_of_ascii x = nat_of_ascii y /\ bytes_lt a b = true.
Proof. simpl. by rewrite orb_true_iff, andb_true_iff, Nat.ltb_lt, Nat.eqb_eq. Qed.
Lemma bytes_lt_trans a b c : bytes_lt a b = true -> bytes_lt b c = true -> bytes_lt a c = true.
Proof.
  revert b c. induction a as [|x a IH]; intros [|y b] [|z c]; try done.
  rewrite !bytes_lt_cons. intros [?|[? ?]] [?|[? ?]]; [left; lia..|]. right. split; [lia|by eapply IH].
Qed.
Lemma bytes_lt_total a b : bytes_lt a b = true \/ a = b \/ bytes_lt b a = true.
Proof.
  revert b. induction a as [|x a IH]; intros [|y b]; [by right; left|by left|by right; right|].
  rewrite !bytes_lt_cons.
  destruct (Nat.lt_total (nat_of_ascii x) (nat_of_ascii y)) as [?|[He|?]]; [tauto| |tauto].
  assert (x = y) as -> by (rewrite <- (ascii_nat_embedding x), He; apply ascii_nat_embedding).
  destruct (IH b) as [?|[->|?]]; [tauto|by right; left|tauto].
Qed.
Definition bytewise : Collation :=
  {| text_lt := bytes_lt; text_lt_irrefl := bytes_lt_irrefl; text_lt_trans := bytes_lt_trans;
     text_lt_total := bytes_lt_total |}.

Section examples.
#[local] Existing Instance chrono_Z.
#[local] Existing Instance serde_json_tree.
#[local] Existing Instance bytewise.
#[local] Instance rfc : DateJson := {| date_text := to_rfc3339 |}.
(** the fifth and the twelfth statement fail *)
#[local] Instance flaky : Statements :=
  {| statement_fails := fun n => (n =? 4)%nat || (n =? 11)%nat |}.

Definition empty_db : HistoryDb :=
  {| h_incidents := []; h_alerts := []; h_detections := []; h_feature_vectors := []; h_cases := ∅;
     h_case_events := ∅; h_case_alert_links := ∅; h_ml_feature_registry := ∅; h_ingest_offsets := ∅ |}.
Definition alert_row (id severity state : string) (at_ : DateTime) : AlertRow :=
  {| al_id := id; al_incident_id := Some "inc-1"; al_tenant_id := None; al_pattern_id := Some "depeg";
     al_severity := severity; al_lifecycle_state := state; al_created_at := at_; al_payload := JNull |}.
Definition alert_db : HistoryDb :=
  {| h_incidents := h_incidents empty_db;
     h_alerts := [alert_row "b" "critical" "confirmed" (sec 100); alert_row "a" "high" "provisional" (sec 100);
                  alert_row "c" "low" "confirmed" (sec 200)];
     h_detections := []; h_feature_vectors := []; h_cases := ∅;
     h_case_events := ∅; h_case_alert_links := ∅; h_ml_feature_registry := ∅; h_ingest_offsets := ∅ |}.
Definition alert_world : World := {| w_db := alert_db; w_step := 0 |}.
(** two batches of two, with two failures *)
Definition alert_calls := calls alert_sync 2 4 alert_world.
Definition answers (rs : list (outcome nat)) : list (option nat) :=
  (fun r => match r with Ret n => Some n | _ => None end) <$> rs.
Example alert_calls_answers : answers alert_calls.2 = [None; None; Some 2%nat; Some 1%nat].
Proof. vm_compute. reflexivity. Qed.
Definition epoch_0 : DateTime := sec 0.
Lemma epoch_is : epoch = Ret epoch_0.
Proof. reflexivity. Qed.
Lemma alert_calls_run : calls alert_sync 2 4 alert_world = (alert_calls.1, alert_calls.2).
Proof. unfold alert_calls. apply surjective_pairing. Qed.
Lemma alert_ids : NoDup (sy_id alert_sync <$> sy_table alert_sync (w_db alert_world)).
Proof. apply (bool_decide_unpack _). vm_compute. reflexivity. Qed.
Lemma sync_exactly_once_witness :
  (copied alert_calls.2 <= length (pending alert_sync epoch_0 (w_db alert_world)))%nat.
Proof.
  exact (proj1 (proj2 (sync_exactly_once alert_sync epoch_0 2 4 alert_world alert_calls.1 alert_calls.2
    epoch_is ltac:(lia) alert_ids alert_calls_run))).
Defined.
Definition case_of (id : string) (db : HistoryDb) : option (string * string) :=
  (fun c => (cs_severity_peak c, cs_status c)) <$> h_cases db !! id.
(** the alerts were critical, high and low; the peak of the case is low *)
Example peak_is_last : case_of "inc-1" (w_db alert_calls.1) = Some ("low", "confirmed").
Proof. vm_compute. reflexivity. Qed.

(** ** Incidents *)
#[local] Instance healthy : Statements := {| statement_fails := fun _ => false |}.
Definition incident_row (status severity : string) (at_ : DateTime) : IncidentRow :=
  {| ir_incident_id := "inc-1"; ir_tenant_id := Some "t"; ir_pattern_id := "depeg"; ir_chain_slug := "ethereum";
     ir_status := status; ir_current_severity := severity; ir_opened_at := sec 50; ir_updated_at := at_ |}.
Definition with_incident (r : IncidentRow) (db : HistoryDb) : HistoryDb :=
  {| h_incidents := [r]; h_alerts := h_alerts db; h_detections := h_detections db;
     h_feature_vectors := h_feature_vectors db; h_cases := h_cases db; h_case_events := h_case_events db;
     h_case_alert_links := h_case_alert_links db; h_ml_feature_registry := h_ml_feature_registry db;
     h_ingest_offsets := h_ingest_offsets db |}.
Definition run_db (m : ST World nat) (db : HistoryDb) : HistoryDb := w_db (m {| w_db := db; w_step := 0 |}).1.
(** an incident is resolved, then its earlier alert arrives *)
Example alert_reopens_case :
  case_of "inc-1" (run_db (sync_alerts 10) (run_db (sync_incidents 10)
    (with_incident (incident_row "resolved" "critical" (sec 300)) alert_db))) = Some ("low", "confirmed").
Proof. vm_compute. reflexivity. Qed.
(** two updates of an incident, one snapshot *)
Definition snapshot_ts (db : HistoryDb) : option Z :=
  (fun e => ns (ce_event_ts e)) <$> h_case_events db !! ("incidents", "inc-1").
Example first_snapshot_stays :
  snapshot_ts (run_db (sync_incidents 10) (with_incident (incident_row "resolved" "low" (sec 300))
    (run_db (sync_incidents 10) (with_incident (incident_row "triggered" "high" (sec 100)) empty_db))))
  = Some (ns (sec 100)).
Proof. vm_compute. reflexivity. Qed.

(** ** Feature vectors *)
Definition feature_row (id : Z) (detection : string) (at_ : DateTime) : FeatureRow :=
  {| fv_id := id; fv_detection_id := detection; fv_tenant_id := None; fv_feature_set_version := "v1";
     fv_labels := JNull; fv_created_at := at_ |}.
Definition feature_db (rows : list FeatureRow) : HistoryDb :=
  {| h_incidents := []; h_alerts := [];
     h_detections := [{| de_id := "d1"; de_tenant_id := None; de_pattern_id := None; de_chain := "ethereum";
                         de_protocol := "aave"; de_severity := "high"; de_created_at := sec 10;
                         de_payload := JNull |}];
     h_feature_vectors := rows; h_cases := ∅; h_case_events := ∅; h_case_alert_links := ∅;
     h_ml_feature_registry := ∅; h_ingest_offsets := ∅ |}.
(** vectors 9 and 10 of one instant, in batches of one: the second is lost *)
Example feature_skipped :
  let '(w, rs) := calls (feature_sync None "history") 1 3
    {| w_db := run_db (sync_detections 10) (feature_db [feature_row 9 "d1" (sec 20); feature_row 10 "d1" (sec 20)]);
       w_step := 0 |} in
  answers rs = [Some 1%nat; Some 0%nat; Some 0%nat]
  /\ is_some (h_ml_feature_registry (w_db w) !! "fv:10") = false.
Proof. vm_compute. by split. Qed.
Definition orphan_row : FeatureRow := feature_row 1 "gone" (sec 20).
Definition orphan_world : World := {| w_db := feature_db [orphan_row]; w_step := 0 |}.
Lemma orphan_ok : orphan epoch_0 None "history" orphan_row (w_db orphan_world).
Proof.
  unfold orphan. split_and!; try reflexivity; [by exists []|intros r Hr..];
    simpl in Hr; set_unfold in Hr; try done. destruct Hr as [-> | []]. vm_compute. discriminate.
Qed.
Definition orphan_run := restarts 3 (iteration 10 None "history" (mret O)) orphan_world.
Lemma orphan_runs : restarts 3 (iteration 10 None "history" (mret O)) orphan_world = (orphan_run.1, orphan_run.2).
Proof. unfold orphan_run. apply surjective_pairing. Qed.
Lemma orphan_feature_stops_worker_witness : Forall (fun r => exists e, r = Err e) orphan_run.2.
Proof.
  exact (proj2 (proj2 (orphan_feature_stops_worker epoch_0 epoch_is None "history" orphan_row 10 (mret O) 3
    orphan_world orphan_run.1 orphan_run.2 ltac:(lia) orphan_ok orphan_runs))).
Defined.
End examples.
