(* ===== verification/HistoryCatalog.v ===== *)
(** * The simulation catalogue of the history worker ([apps/history-worker/src/main.rs])

    [sync_simlab_catalog]: the scenario files are discovered and read, every
    scenario becomes a case with its events, a row of the replay catalogue and
    three files of the archive.  Directories, files, YAML, hashes and the pretty
    printer of JSON are interfaces; statements and the writing of files may fail.

    What the catalogue holds after a run, that the discovery finds every file, and
    what one number out of range does to the process. *)
From Stdlib Require Import Ascii.
From S2P Require Import Prelude F64 Text Numbers Ports FieldMapping Hex JsonLaws WorkerConfig StreamWorker SseConnector HistoryWorker HistoryProofs.

(** ** Directories *)

(** an entry of a directory; [BadEntry]: one that cannot be read *)
Inductive Entry (D : Type) := BadEntry | File (path : string) | SubDir (d : D).
Arguments BadEntry {D}.
Arguments File {D} path.
Arguments SubDir {D} d.
(** a directory as far as it can be read *)
Inductive Dir := Unreadable | Directory (entries : list (Entry Dir)).
(** [Path]: its extension, the order of [PathBuf], [join]; the text of a file *)
Class Files := {
  extension : string -> option string;
  path_le : string -> string -> bool;
  path_join : string -> string -> string;
  read_to_string : string -> option string
}.

Section discovery.
Context `{!Files}.
Definition has_extension (extensions : list string) (path : string) : bool :=
  match extension path with
  | Some ext => existsb (eq_ignore_ascii_case ext) extensions
  | None => false
  end.
(** the files of a directory that count, and its directories *)
Fixpoint scan (extensions : list string) (entries : list (Entry Dir)) (files : list string) (stack : list Dir)
  : list string * list Dir :=
  match entries with
  | [] => (files, stack)
  | BadEntry :: entries => scan extensions entries files stack
  | SubDir d :: entries => scan extensions entries files (d :: stack)
  | File path :: entries =>
      scan extensions entries (if has_extension extensions path then files ++ [path] else files) stack
  end.
Fixpoint discover (fuel : nat) (extensions : list string) (stack : list Dir) (files : list string)
  : list string :=
  match fuel, stack with
  | S fuel, d :: stack =>
      match d with
      | Unreadable => discover fuel extensions stack files
      | Directory entries =>
          let '(files, stack) := scan extensions entries files stack in
          discover fuel extensions stack files
      end
  | _, _ => files
  end.
(** the directories of a tree, one round of the loop each *)
Fixpoint dir_count (d : Dir) : nat :=
  match d with
  | Unreadable => 1
  | Directory entries =>
      S ((fix entry_count (es : list (Entry Dir)) : nat :=
            match es with
            | [] => O
            | SubDir d :: es => dir_count d + entry_count es
            | _ :: es => entry_count es
            end) entries)
  end%nat.
Definition discover_files_recursive (base : Dir) (extensions : list string) : list string :=
  sort_by path_le (discover (dir_count base) extensions [base] []).

(** the readable files of a tree that have one of the extensions *)
Fixpoint dir_files (extensions : list string) (d : Dir) : list string :=
  match d with
  | Unreadable => []
  | Directory entries =>
      (fix entry_files (es : list (Entry Dir)) : list string :=
         match es with
         | [] => []
         | BadEntry :: es => entry_files es
         | File path :: es =>
             if has_extension extensions path then path :: entry_files es else entry_files es
         | SubDir d :: es => dir_files extensions d ++ entry_files es
         end) entries
  end.
Definition stack_files (extensions : list string) (stack : list Dir) : list string :=
  stack ≫= dir_files extensions.
Definition stack_count (stack : list Dir) : nat := sum_list_with dir_count stack.
Lemma scan_entries_spec extensions entries files stack files' stack' :
  scan extensions entries files stack = (files', stack') ->
  files' ++ stack_files extensions stack'
    ≡ₚ files ++ stack_files extensions (Directory entries :: stack) /\
  S (stack_count stack') = stack_count (Directory entries :: stack).
Proof.
  revert files stack. induction entries as [|e entries IH]; intros files stack; simpl.
  { by intros [= <- <-]. }
  destruct e as [|path|d]; intros [Hf Hc]%IH.
  - by split.
  - split; [|by rewrite Hc]. rewrite Hf. simpl. destruct (has_extension extensions path); [|done].
    by rewrite <- app_assoc.
  - split.
    + rewrite Hf. simpl. rewrite <- (assoc_L (++)). apply Permutation_app_head. rewrite !(assoc_L (++)).
      apply Permutation_app_tail. apply Permutation_app_comm.
    + rewrite Hc. simpl. lia.
Qed.
Lemma discover_spec extensions fuel stack files : (stack_count stack <= fuel)%nat ->
  discover fuel extensions stack files ≡ₚ files ++ stack_files extensions stack.
Proof.
  revert stack files. induction fuel as [|fuel IH]; intros [|d stack] files Hc; simpl;
    try by rewrite app_nil_r.
  - unfold stack_count in Hc. simpl in Hc. destruct d; simpl in Hc; lia.
  - destruct d as [|entries].
    + rewrite IH; [done|]. unfold stack_count in Hc. simpl in Hc. unfold stack_count. lia.
    + destruct (scan extensions entries files stack) as [files' stack'] eqn:Hs.
      apply scan_entries_spec in Hs as [Hf Hn]. rewrite IH; [by rewrite Hf|]. lia.
Qed.

(** The discovery finds every file of the tree.  The loop over the stack of
    directories ends within one round per directory, and its answer is the files
    with one of the extensions of all readable directories, each as often as it
    is there; a directory or an entry that cannot be read hides nothing else. *)
Theorem discovery_is_the_tree base extensions :
  discover_files_recursive base extensions ≡ₚ dir_files extensions base.
Proof.
  unfold discover_files_recursive. rewrite sort_by_perm, discover_spec.
  - unfold stack_files. simpl. by rewrite app_nil_r.
  - unfold stack_count. simpl. lia.
Qed.
End discovery.

Section catalog.
Context `{Chrono} `{SerdeJson} `{Collation} `{!Statements} `{!DateJson} `{!JsonText} `{!Sha256} `{!Files}.
(** [serde_yaml] read into JSON, and [to_vec_pretty] *)
Class CatalogText := { from_yaml : string -> option Value; pretty_json : Value -> string }.
Context `{!CatalogText}.

(** ** Reading *)

Definition parse_datetime (value : option Value) : option DateTime :=
  v ← value;
  match as_str v with
  | Some s => parse_from_rfc3339 s
  | None =>
      ms ← as_i64 v;
      if 9999999999 <? ms then timestamp_millis_opt ms else timestamp_opt ms
  end.
Definition extract_string_array (value : option Value) : list string :=
  match value ≫= as_array with Some values => omap (M := list) as_str values | None => [] end.
(** [o.entry(key).or_insert_with(|| json!([]))] *)
Definition or_empty_array (key : string) (object : gmap string Value) : gmap string Value :=
  if is_some (object !! key) then object else <[key := VArray []]> object.
Definition REQUIRED_KEYS : list string := ["scenario_id"; "chain"; "incident_class"; "steps"].
(** [None]: the file is skipped *)
Definition load_scenario_file (path : string) : option (gmap string Value) :=
  content ← read_to_string path;
  let ext := to_ascii_lowercase (default "" (extension path)) in
  value ← (if bool_decide (ext ∈ ["yaml"; "yml"]) then from_yaml content else from_str content);
  object ← as_object value;
  if forallb (fun required => is_some (object !! required)) REQUIRED_KEYS then
    Some (or_empty_array "steps" (or_empty_array "tags" (or_empty_array "source_refs" object)))
  else None.
Definition is_object (v : Value) : bool := is_some (as_object v).
Definition records_of (path : string) : list Value :=
  match read_to_string path ≫= from_str with
  | None => []
  | Some parsed =>
      match as_array parsed with
      | Some items => filter (fun item => is_object item = true) items
      | None => if is_object parsed then [parsed] else []
      end
  end.
Definition load_curated_records (curated_dir : option Dir) : list Value :=
  match curated_dir with
  | None => []
  | Some dir => discover_files_recursive dir ["json"] ≫= records_of
  end.

(** ** Texts *)

(** a [BTreeSet] of strings, in order *)
Definition btree (l : list string) : list string := sort_by String.leb (remove_dups l).
(** the words of ASCII letters and digits *)
Fixpoint words_from (word s : string) : list string :=
  match s with
  | EmptyString => if is_empty word then [] else [word]
  | String c s =>
      if is_ascii_alphanumeric c then words_from (word +:+ String c EmptyString) s
      else if is_empty word then words_from "" s else word :: words_from "" s
  end.
Definition tokens_of (part : string) : list string :=
  let lowered := to_ascii_lowercase part in
  if is_empty lowered then []
  else lowered :: filter (fun segment => (2 <? String.length segment)%nat = true) (words_from "" lowered).
Definition scenario_tokens (scenario_id name protocol incident_class : string) : list string :=
  btree ([scenario_id; name; protocol; incident_class] ≫= tokens_of).
Definition SEARCHED_KEYS : list string :=
  ["title"; "name"; "description"; "line"; "category"; "chain"; "url"].
Definition curated_record_matches (record : Value) (tokens : list string) : bool :=
  match as_object record with
  | None => false
  | Some obj =>
      let haystack := foldl (fun h key => match obj !! key ≫= as_str with
                                          | Some value => h +:+ to_ascii_lowercase value +:+ " "
                                          | None => h
                                          end) "" SEARCHED_KEYS in
      existsb (contains haystack) tokens
  end.
Definition event_type_for_step (incident_class : string) (step : gmap string Value) : string :=
  match step !! "event_type" ≫= as_str with
  | Some event_type => event_type
  | None => if contains (to_ascii_lowercase incident_class) "flash" then "flash_loan_candidate"
            else "oracle_update"
  end.
Definition derive_supported_patterns (incident_class : string) (explicit_patterns : option Value)
  : list string :=
  match extract_string_array explicit_patterns with
  | [] =>
      let normalized := to_ascii_lowercase incident_class in
      if contains normalized "depeg" then ["depeg"]
      else if contains normalized "oracle" then ["oracle_manipulation"; "flash_loan"]
      else if contains normalized "flash" || contains normalized "exploit" then ["flash_loan"]
      else ["anomaly"]
  | explicit => explicit
  end.
Definition stable_checksum (value : Value) : string := sha256_hex (value_to_string value).
Definition checksum_short (value : Value) : string := take_str 16 (stable_checksum value).
(** runs of other characters become one dash *)
Fixpoint slug_from (prev_dash : bool) (s : string) : string :=
  match s with
  | EmptyString => EmptyString
  | String c s =>
      let candidate := ascii_lower c in
      if is_ascii_alphanumeric candidate then String candidate (slug_from false s)
      else if prev_dash then slug_from true s
      else String (ascii_of_nat 45) (slug_from true s)
  end.
Fixpoint trim_dashes (s : string) : string :=
  match s with
  | String c rest => if bool_decide (c = ascii_of_nat 45) then trim_dashes rest else s
  | EmptyString => EmptyString
  end.
Fixpoint trim_dashes_end (s : string) : string :=
  match s with
  | EmptyString => EmptyString
  | String c rest =>
      let rest := trim_dashes_end rest in
      if bool_decide (c = ascii_of_nat 45) && is_empty rest then EmptyString else String c rest
  end.
Definition slugify (input : string) : string :=
  let trimmed := trim_dashes_end (trim_dashes (slug_from false input)) in
  if is_empty trimmed then "scenario" else trimmed.
Definition build_storage_prefix (history_prefix tenant_id slug dataset_version : string) : string :=
  history_prefix +:+ "/entity=simlab_case_events/tenant_id=" +:+ tenant_id +:+ "/scenario_id=" +:+ slug
  +:+ "/dataset_version=" +:+ dataset_version.

(** ** A scenario *)

Record Scenario := {
  sc_scenario_id : string; sc_dataset_version : string; sc_name : string; sc_chain_slug : string;
  sc_protocol : string; sc_protocol_category : string; sc_incident_class : string;
  sc_severity : string; sc_default_speed : Z; sc_summary : string;
  sc_losses_estimate : option string; sc_source_confidence : f64;
  sc_base_start : DateTime; sc_default_end : DateTime; sc_steps : list Value
}.
Definition sc_case_id (s : Scenario) : string := "simlab:" +:+ sc_scenario_id s.
Definition sc_catalog_id (s : Scenario) : string :=
  "simlab:" +:+ sc_scenario_id s +:+ ":" +:+ sc_dataset_version s.
Definition sc_slug (s : Scenario) : string := slugify (replace_all "_" "-" (sc_scenario_id s)).
Definition i32_max : Z := 2 ^ 31 - 1.
Section scenario.
Context (now : DateTime) (object : gmap string Value).
Definition text (key : string) : option string := object !! key ≫= as_str.
(** the value of the first of two keys that is there *)
Definition first_of (a b : option Value) : option Value := match a with Some _ => a | None => b end.
Definition read_speed : Z := Z.max 1 (default 10 (object !! "default_speed" ≫= as_i64)).
Definition read_start : DateTime :=
  default now (parse_datetime
    (first_of (object !! "default_time_window_start")
       (first_of (object !! "incident_start_at")
          (fork ← object !! "fork"; fork ← as_object fork; fork !! "block_timestamp")))).
Definition read_steps : list Value := default [] (object !! "steps" ≫= as_array).
Definition read_end (base_start : DateTime) (steps : list Value) : outcome DateTime :=
  match parse_datetime (first_of (object !! "default_time_window_end") (object !! "incident_end_at")) with
  | Some t => Ret t
  | None => add_seconds base_start (Z.of_nat (Nat.max (length steps) 1 * 60))
  end.
Definition read_scenario : outcome Scenario :=
  let scenario_id := default "unknown-scenario" (text "scenario_id") in
  if i32_max <? read_speed then
    Err ("default_speed for scenario '" +:+ scenario_id +:+ "' exceeds i32 range")
  else
    default_end ← read_end read_start read_steps;
    Ret {| sc_scenario_id := scenario_id;
           sc_dataset_version := default "v1" (text "dataset_version");
           sc_name := default scenario_id (text "name");
           sc_chain_slug := default "unknown"
             (first_of (object !! "chain_slug") (object !! "chain") ≫= as_str);
           sc_protocol := default "unknown" (text "protocol");
           sc_protocol_category := default "unknown" (text "protocol_category");
           sc_incident_class := default "anomaly" (text "incident_class");
           sc_severity := default "critical" (text "severity_peak");
           sc_default_speed := read_speed;
           sc_summary := default "Historical simulation scenario curated from SimLab inputs."
             (text "description");
           sc_losses_estimate := match text "losses_usd_estimate" with
                                 | Some t => Some t
                                 | None => text "loss_usd_estimate"
                                 end;
           sc_source_confidence := default (f64_lit 3 4) (object !! "source_confidence" ≫= as_f64);
           sc_base_start := read_start; sc_default_end := default_end; sc_steps := read_steps |}.
End scenario.

(** ** Its events *)

Definition STEP_TYPES : list string := ["replay_tx"; "simulate_call"; "mutate_param"].
(** a step that is replayed: its source, the row of the timeline and the event *)
Definition step_rows (file : string) (s : Scenario) (idx : nat) (step : Value)
  : outcome (option (string * Value * Value)) :=
  match as_object step with
  | None => Ret None
  | Some obj =>
      let str key := obj !! key ≫= as_str in
      let step_type := default "" (str "type") in
      if negb (bool_decide (step_type ∈ STEP_TYPES)) then Ret None
      else
        let source_id := default "simlab" (str "source_id") in
        let event_type := event_type_for_step (sc_incident_class s) obj in
        let index := Z.of_nat idx in
        event_ts ← add_seconds (sc_base_start s) index;
        let payload := foldl (fun o kv => <[kv.1 := kv.2]> o) obj
          [ ("scenario_id", VString (sc_scenario_id s));
            ("dataset_version", VString (sc_dataset_version s));
            ("scenario_step", VInt index); ("event_type_resolved", VString event_type);
            ("source_file", VString file) ] in
        Ret (Some (source_id,
          VObj [ ("index", VInt index); ("type", VString step_type); ("event_type", VString event_type);
                 ("event_ts", VString (date_text event_ts)); ("source_id", VString source_id);
                 ("tx_hash", VString (default "" (str "tx_hash")));
                 ("log_index", VInt (default index (obj !! "log_index" ≫= as_i64))) ],
          VObj [ ("event_ts", VString (date_text event_ts)); ("event_type", VString event_type);
                 ("source_pk", VString (sc_scenario_id s +:+ ":" +:+ sc_dataset_version s +:+ ":" +:+ fmt_Z index));
                 ("payload", VObject payload) ]))
  end.
Definition curated_row (s : Scenario) (idx : nat) (record : Value) : outcome Value :=
  d ← or_panic (duration_seconds (Z.of_nat (S idx)));
  event_ts ← or_panic (checked_add (sc_base_start s) (- d));
  Ret (VObj [ ("event_ts", VString (date_text event_ts)); ("event_type", VString "source_reference");
              ("source_pk", VString (sc_scenario_id s +:+ ":" +:+ sc_dataset_version s +:+ ":src:"
                                     +:+ checksum_short record));
              ("payload", VObj [("record", record); ("source", VString "curated_dataset")]) ]).
Fixpoint gather_rows {A B} (f : nat -> A -> outcome B) (idx : nat) (l : list A) : outcome (list B) :=
  match l with
  | [] => Ret []
  | x :: l => y ← f idx x; ys ← gather_rows f (S idx) l; Ret (y :: ys)
  end.
Definition row_ts (row : Value) : string := default "" (get_str "event_ts" row).
(** the sources, the timeline, and the events by the text of their time *)
Definition scenario_events (file : string) (s : Scenario) (sources : list Value)
  : outcome (list string * list Value * list Value) :=
  steps ← gather_rows (step_rows file s) O (sc_steps s);
  curated ← gather_rows (curated_row s) O sources;
  let steps := omap (M := list) id steps in
  Ret (btree ((fun r => r.1.1) <$> steps), (fun r => r.1.2) <$> steps,
       sort_by (fun a b => String.leb (row_ts a) (row_ts b)) (((fun r => r.2) <$> steps) ++ curated)).

(** ** Rows *)

Definition case_event (now : DateTime) (tenant_id case_id : string) (row : Value) : CaseEvent :=
  {| ce_case_id := case_id; ce_tenant_id := tenant_id;
     ce_event_type := default "replay_event" (get_str "event_type" row);
     ce_event_ts := default now (parse_datetime (vget "event_ts" row));
     ce_payload_json := default (VObj []) (vget "payload" row) |}.
Definition event_write (now : DateTime) (tenant_id case_id : string) (row : Value) : Write :=
  let event := case_event now tenant_id case_id row in
  WriteEvent ("simlab_scenario_step", default "unknown" (get_str "source_pk" row)) event (fun _ => event).
Definition scenario_case (tenant_id : string) (source_payload : Value) (s : Scenario) : Case :=
  {| cs_tenant_id := tenant_id; cs_case_type := normalize_case_type (sc_incident_class s);
     cs_classification := sc_incident_class s; cs_severity_peak := sc_severity s; cs_status := "cataloged";
     cs_chain_slug := Some (sc_chain_slug s); cs_protocol := Some (sc_protocol s); cs_title := sc_name s;
     cs_summary := sc_summary s; cs_incident_start_at := Some (sc_base_start s);
     cs_incident_end_at := Some (sc_default_end s); cs_loss_usd_estimate := sc_losses_estimate s;
     cs_source_confidence := Some (sc_source_confidence s); cs_source_payload := source_payload |}.
(** a case that is there keeps its status *)
Definition update_scenario_case (new old : Case) : Case :=
  {| cs_tenant_id := cs_tenant_id new; cs_case_type := cs_case_type new;
     cs_classification := cs_classification new; cs_severity_peak := cs_severity_peak new;
     cs_status := cs_status old; cs_chain_slug := cs_chain_slug new; cs_protocol := cs_protocol new;
     cs_title := cs_title new; cs_summary := cs_summary new;
     cs_incident_start_at := cs_incident_start_at new; cs_incident_end_at := cs_incident_end_at new;
     cs_loss_usd_estimate := cs_loss_usd_estimate new; cs_source_confidence := cs_source_confidence new;
     cs_source_payload := cs_source_payload new |}.
Definition case_write (tenant_id : string) (source_payload : Value) (s : Scenario) : Write :=
  let row := scenario_case tenant_id source_payload s in
  WriteCase (sc_case_id s) row (update_scenario_case row).
Record CatalogRow := {
  ct_scenario_id : string; ct_case_id : string; ct_title : string; ct_category : string;
  ct_tags : list string; ct_incident_class : string; ct_chain : string; ct_protocol : string;
  ct_protocol_category : string; ct_description : string; ct_impact_summary : option string;
  ct_losses_usd_estimate : option string; ct_attack_vector : option string;
  ct_detection_focus : option string; ct_window_start : DateTime; ct_window_end : DateTime;
  ct_default_speed : Z; ct_supported_patterns : list string; ct_supported_override_keys : list string;
  ct_baseline_expected_alerts : Z; ct_expected_alerts : Value; ct_timeline : Value;
  ct_references : Value; ct_source_feeds : Value; ct_runbook_notes : list string;
  ct_object_prefix : string; ct_checksum : string; ct_simlab_scenario_id : string
}.
Definition scenario_tags (object : gmap string Value) (s : Scenario) : list string :=
  btree (filter (fun tag => is_empty (trim tag) = false)
           (extract_string_array (object !! "tags") ++ [sc_chain_slug s; sc_protocol s; sc_incident_class s])).
Definition DEFAULT_OVERRIDE_KEYS : list string :=
  ["speed"; "time_window"; "pattern_overrides"; "source_overrides"].
Definition override_keys (object : gmap string Value) : list string :=
  match extract_string_array (object !! "supported_override_keys") with
  | [] => DEFAULT_OVERRIDE_KEYS
  | explicit => explicit
  end.
Definition references_of (object : gmap string Value) (sources : list Value) : Value :=
  VArray (((fun url => VObj [("type", VString "source_ref"); ("url", VString url)])
             <$> extract_string_array (object !! "source_refs"))
          ++ ((fun record => VObj [("type", VString "curated_source"); ("payload", record)]) <$> sources)).
Definition expected_alerts_of (object : gmap string Value) (s : Scenario) (patterns : list string)
  : list Value :=
  match object !! "expected_alerts" ≫= as_array with
  | Some alerts => alerts
  | None => [VObj [ ("pattern_id", VString (default "anomaly" (head patterns)));
                    ("severity", VString (sc_severity s));
                    ("title", VString (sc_name s +:+ " replay expected alert"));
                    ("delivery_status", VString "blocked_simulation") ]]
  end.
Definition catalog_row (object : gmap string Value) (s : Scenario) (sources : list Value)
    (source_ids : list string) (timeline : list Value) (object_prefix : string) : CatalogRow :=
  let patterns := derive_supported_patterns (sc_incident_class s) (object !! "supported_patterns") in
  let alerts := expected_alerts_of object s patterns in
  {| ct_scenario_id := sc_catalog_id s; ct_case_id := sc_case_id s; ct_title := sc_name s;
     ct_category := normalize_case_type (sc_incident_class s); ct_tags := scenario_tags object s;
     ct_incident_class := sc_incident_class s; ct_chain := sc_chain_slug s;
     ct_protocol := sc_protocol s; ct_protocol_category := sc_protocol_category s;
     ct_description := sc_summary s; ct_impact_summary := object !! "impact_summary" ≫= as_str;
     ct_losses_usd_estimate := sc_losses_estimate s;
     ct_attack_vector := object !! "attack_vector" ≫= as_str;
     ct_detection_focus := object !! "detection_focus" ≫= as_str;
     ct_window_start := sc_base_start s; ct_window_end := sc_default_end s;
     ct_default_speed := sc_default_speed s; ct_supported_patterns := patterns;
     ct_supported_override_keys := override_keys object;
     ct_baseline_expected_alerts := wrap_i32 (Z.of_nat (length alerts));
     ct_expected_alerts := VArray alerts; ct_timeline := VArray timeline;
     ct_references := references_of object sources;
     ct_source_feeds := VArray ((fun id => VObj [("source_id", VString id)]) <$> source_ids);
     ct_runbook_notes := extract_string_array (object !! "runbook_notes");
     ct_object_prefix := object_prefix; ct_checksum := stable_checksum (VObject object);
     ct_simlab_scenario_id := sc_scenario_id s |}.

(** ** Statements and files *)

Class CatalogEnv := { cat_now : nat -> DateTime; file_write_fails : nat -> bool }.
Context `{!CatalogEnv}.
(** the history database, the catalogue under its unique constraint (tenant, slug,
    version), and the files of the archive *)
Record CatalogWorld := {
  cw_world : World; cw_catalog : gmap (string * string * string) CatalogRow; cw_archive : gmap string string
}.
Notation IO := (ST CatalogWorld).
Definition in_history {A} (m : ST World A) : IO A := fun w =>
  let '(h, r) := m (cw_world w) in
  ({| cw_world := h; cw_catalog := cw_catalog w; cw_archive := cw_archive w |}, r).
Definition next_step (h : World) : World := {| w_db := w_db h; w_step := S (w_step h) |}.
Definition clock : IO DateTime :=
  in_history (fun h => (next_step h, Ret (cat_now (w_step h)))).
(** the scenario identifier is a key of its own *)
Definition identifier_taken (key : string * string * string) (id : string)
    (t : gmap (string * string * string) CatalogRow) : bool :=
  existsb (fun kr => negb (bool_decide (kr.1 = key)) && bool_decide (ct_scenario_id kr.2 = id)) (map_to_list t).
Definition upsert_catalog (key : string * string * string) (row : CatalogRow) : IO unit := fun w =>
  let h := next_step (cw_world w) in
  let unchanged := {| cw_world := h; cw_catalog := cw_catalog w; cw_archive := cw_archive w |} in
  if statement_fails (w_step (cw_world w)) then (unchanged, Err "db error")
  else if identifier_taken key (ct_scenario_id row) (cw_catalog w) then
    (unchanged, Err "duplicate key value violates unique constraint")
  else if negb (is_some (h_cases (w_db h) !! ct_case_id row)) then (unchanged, Err FOREIGN_KEY_ERROR)
  else ({| cw_world := h; cw_catalog := <[key := row]> (cw_catalog w); cw_archive := cw_archive w |}, Ret ()).
Definition file_action (error : string) (f : gmap string string -> gmap string string) : IO unit := fun w =>
  ({| cw_world := next_step (cw_world w); cw_catalog := cw_catalog w;
      cw_archive := if file_write_fails (w_step (cw_world w)) then cw_archive w else f (cw_archive w) |},
   if file_write_fails (w_step (cw_world w)) then Err error else Ret ()).
Definition write_file (path content : string) : IO unit :=
  file_action ("failed to write " +:+ path) (insert path content).
Definition newline_text : string := String (ascii_of_nat 10) EmptyString.
Definition persist_long_term_artifacts (archive_dir : option string) (storage_prefix : string)
    (scenario_payload : Value) (events : list Value) (manifest : Value) : IO unit :=
  match archive_dir with
  | None => mret ()
  | Some archive_dir =>
      let target_dir := path_join archive_dir storage_prefix in
      _ ← file_action ("failed to create history archive directory " +:+ target_dir) id;
      _ ← write_file (path_join target_dir "scenario.json") (pretty_json scenario_payload);
      _ ← write_file (path_join target_dir "events.ndjson")
            (foldl (fun t e => t +:+ value_to_string e +:+ newline_text) "" events);
      write_file (path_join target_dir "manifest.json") (pretty_json manifest)
  end.

(** ** The sync *)

Section sync_catalog.
Context (archive_dir history_bucket : option string) (history_prefix tenant_id : string).
Definition source_payload (now : DateTime) (file : string) (object : gmap string Value)
    (sources : list Value) : Value :=
  VObj [ ("source", VString "simlab"); ("scenario_file", VString file); ("scenario", VObject object);
         ("matched_curated_records", VArray sources); ("ingested_at", VString (date_text now)) ].
Definition manifest (now : DateTime) (object : gmap string Value) (s : Scenario) (events : list Value)
    (alerts : Value) (storage_prefix : string) : Value :=
  VObj [ ("scenario_id", VString (sc_scenario_id s)); ("dataset_version", VString (sc_dataset_version s));
         ("case_id", VString (sc_case_id s)); ("checksum", VString (stable_checksum (VObject object)));
         ("events", VInt (Z.of_nat (length events))); ("expected_alerts", alerts);
         ("generated_at", VString (date_text now)); ("storage_prefix", VString storage_prefix) ].
Definition sources_of (curated : list Value) (s : Scenario) : list Value :=
  let tokens := scenario_tokens (sc_scenario_id s) (sc_name s) (sc_protocol s) (sc_incident_class s) in
  filter (fun record => curated_record_matches record tokens = true) curated.
Definition storage_prefix_of (s : Scenario) : string :=
  build_storage_prefix history_prefix tenant_id (sc_slug s) (sc_dataset_version s).
Definition object_prefix_of (s : Scenario) : string :=
  match history_bucket with
  | Some bucket => "s3://" +:+ bucket +:+ "/" +:+ storage_prefix_of s
  | None => storage_prefix_of s
  end.
Definition catalog_key (s : Scenario) : string * string * string :=
  (tenant_id, sc_slug s, sc_dataset_version s).
Definition write_events (s : Scenario) (rows : list Value) : IO unit :=
  for_each (fun _ row => now ← clock; in_history (execute_write (event_write now tenant_id (sc_case_id s) row)))
    rows ().
Definition catalog_scenario (curated : list Value) (file : string) (object : gmap string Value) : IO unit :=
  now ← clock;
  s ← lift (read_scenario now object);
  let sources := sources_of curated s in
  e ← lift (scenario_events file s sources);
  now ← clock;
  let payload := source_payload now file object sources in
  _ ← in_history (execute_write (case_write tenant_id payload s));
  _ ← write_events s e.2;
  let row := catalog_row object s sources e.1.1 e.1.2 (object_prefix_of s) in
  _ ← upsert_catalog (catalog_key s) row;
  now ← clock;
  persist_long_term_artifacts archive_dir (storage_prefix_of s) payload e.2
    (manifest now object s e.2 (ct_expected_alerts row) (storage_prefix_of s)).
Definition catalog_file (curated : list Value) (processed : nat) (file : string) : IO nat :=
  match load_scenario_file file with
  | None => mret processed
  | Some object => _ ← catalog_scenario curated file object; mret (S processed)
  end.
Definition sync_simlab_catalog (scenarios_dir curated_dir : option Dir) : IO nat :=
  match scenarios_dir with
  | None => mret O
  | Some dir =>
      match discover_files_recursive dir ["yaml"; "yml"; "json"] with
      | [] => mret O
      | files => for_each (catalog_file (load_curated_records curated_dir)) files O
      end
  end.
(** a turn of the worker: the four cursors, then the catalogue *)
Definition worker_turn (batch_size : Z) (scenarios_dir curated_dir : option Dir) : IO nat :=
  copied ← in_history (iteration batch_size history_bucket history_prefix (mret O));
  cataloged ← sync_simlab_catalog scenarios_dir curated_dir;
  mret (copied + cataloged)%nat.

(** ** Theorems *)

(** *** What a scenario file says *)

Definition SCENARIO_EXTENSIONS : list string := ["yaml"; "yml"; "json"].
(** the file is read and parsed, to an object with the four required keys; lists
    that are missing are empty *)
Definition valid_file (file : string) (object : gmap string Value) : Prop :=
  exists content v o, read_to_string file = Some content /\
    (let ext := to_ascii_lowercase (default "" (extension file)) in
     (ext = "yaml" \/ ext = "yml") /\ from_yaml content = Some v \/
     ext <> "yaml" /\ ext <> "yml" /\ from_str content = Some v) /\
    as_object v = Some o /\
    Forall (fun key => is_Some (o !! key)) ["scenario_id"; "chain"; "incident_class"; "steps"] /\
    forall key, object !! key =
      match o !! key with
      | Some x => Some x
      | None => if bool_decide (key = "source_refs") || bool_decide (key = "tags") then Some (VArray []) else None
      end.
(** the scenarios of the files, in their order; the other files count for nothing *)
Inductive scenarios_in : list string -> list (string * gmap string Value) -> Prop :=
  | si_nil : scenarios_in [] []
  | si_take file object files scs :
      valid_file file object -> scenarios_in files scs -> scenarios_in (file :: files) ((file, object) :: scs)
  | si_skip file files scs :
      (forall object, ~ valid_file file object) -> scenarios_in files scs -> scenarios_in (file :: files) scs.
Lemma or_empty_array_lookup key object k :
  or_empty_array key object !! k =
  match object !! k with
  | Some x => Some x
  | None => if bool_decide (k = key) then Some (VArray []) else None
  end.
Proof.
  unfold or_empty_array. destruct (object !! key) as [x|] eqn:Hk; simpl.
  - destruct (object !! k) eqn:Hl; [done|]. by rewrite bool_decide_eq_false_2 by congruence.
  - destruct (decide (k = key)) as [->|Hne].
    + by rewrite lookup_insert_eq, Hk, bool_decide_eq_true_2.
    + rewrite lookup_insert_ne by done. rewrite bool_decide_eq_false_2 by done. by destruct (object !! k).
Qed.
Lemma is_some_true {A} (x : option A) : is_some x = true <-> is_Some x.
Proof. by destruct x. Qed.
Lemma required_keys (o : gmap string Value) :
  forallb (fun required => is_some (o !! required)) REQUIRED_KEYS = true <->
  Forall (fun key => is_Some (o !! key)) ["scenario_id"; "chain"; "incident_class"; "steps"].
Proof.
  rewrite !list.Forall_cons, list.Forall_nil. unfold REQUIRED_KEYS. cbn [forallb].
  rewrite !andb_true_iff, !is_some_true. tauto.
Qed.
Lemma defaulted_lookup (o : gmap string Value) key : is_Some (o !! "steps") ->
  or_empty_array "steps" (or_empty_array "tags" (or_empty_array "source_refs" o)) !! key =
  match o !! key with
  | Some x => Some x
  | None => if bool_decide (key = "source_refs") || bool_decide (key = "tags") then Some (VArray []) else None
  end.
Proof.
  intros [x Hx]. rewrite !or_empty_array_lookup. destruct (o !! key) eqn:Hk; [done|].
  assert (key <> "steps") by congruence. rewrite (bool_decide_eq_false_2 (key = "steps")) by done.
  destruct (bool_decide (key = "source_refs")); [done|]. by destruct (bool_decide (key = "tags")).
Qed.
Lemma load_scenario_spec file object : load_scenario_file file = Some object <-> valid_file file object.
Proof.
  unfold load_scenario_file, valid_file. cbv zeta.
  set (ext := to_ascii_lowercase (default "" (extension file))). split.
  - intros (content & Hc & Hl)%bind_Some. apply bind_Some in Hl as (v & Hv & Hl).
    apply bind_Some in Hl as (o & Ho & Hl).
    destruct (forallb _ REQUIRED_KEYS) eqn:Hr; [|done]. injection Hl as <-. apply required_keys in Hr.
    exists content, v, o. split_and!; [done| |done|done|].
    + case_bool_decide as He; [left|right]; rewrite !elem_of_cons in He; set_solver.
    + intros key. apply defaulted_lookup. by apply (proj1 (list.Forall_forall _ _) Hr "steps"); set_solver.
  - intros (content & v & o & Hc & Hv & Ho & Hr & Hobj). rewrite Hc. cbn [mbind option_bind].
    assert ((if bool_decide (ext ∈ ["yaml"; "yml"]) then from_yaml content else from_str content) = Some v) as ->.
    { case_bool_decide as He; rewrite !elem_of_cons in He; destruct Hv as [[? ?]|(? & ? & ?)]; set_solver. }
    cbn [mbind option_bind]. rewrite Ho. cbn [mbind option_bind].
    rewrite (proj2 (required_keys o) Hr). f_equal. apply map_eq. intros key.
    rewrite Hobj. apply defaulted_lookup. by apply (proj1 (list.Forall_forall _ _) Hr "steps"); set_solver.
Qed.
(** *** What a scenario contributes to the tables *)

Record Contribution := {
  cb_row : (string * string * string) * CatalogRow;
  cb_case : string * Case;
  cb_events : list ((string * string) * CaseEvent)
}.
Definition str_in (object : gmap string Value) (key : string) : option string := object !! key ≫= as_str.
Definition named_id (object : gmap string Value) : string :=
  default "unknown-scenario" (str_in object "scenario_id").
Definition named_version (object : gmap string Value) : string := default "v1" (str_in object "dataset_version").
Definition named_class (object : gmap string Value) : string := default "anomaly" (str_in object "incident_class").
Definition named_title (object : gmap string Value) : string := default (named_id object) (str_in object "name").
(** the key of an event of the scenario *)
Definition source_key (object : gmap string Value) (suffix : string) : string * string :=
  ("simlab_scenario_step", named_id object +:+ ":" +:+ named_version object +:+ ":" +:+ suffix).
(** the time is written as text and read back *)
Definition dated (t ts : DateTime) : Prop := exists now, ts = default now (parse_from_rfc3339 (date_text t)).
(** the step at place [idx] is one of those that are replayed *)
Definition replayed (object : gmap string Value) (idx : nat) (obj : gmap string Value) : Prop :=
  exists steps step ty, object !! "steps" ≫= as_array = Some steps /\ steps !! idx = Some step /\
    as_object step = Some obj /\ str_in obj "type" = Some ty /\
    (ty = "replay_tx" \/ ty = "simulate_call" \/ ty = "mutate_param").
Definition step_event (file : string) (object : gmap string Value) (start : DateTime) (idx : nat)
    (obj : gmap string Value) (ke : (string * string) * CaseEvent) : Prop :=
  let index := Z.of_nat idx in
  exists ty t,
    ty = (match str_in obj "event_type" with
          | Some ty => ty
          | None => if contains (to_ascii_lowercase (named_class object)) "flash" then "flash_loan_candidate"
                    else "oracle_update"
          end) /\
    ns t = ns start + index * 1000000000 /\ ke.1 = source_key object (fmt_Z index) /\
    ce_case_id ke.2 = "simlab:" +:+ named_id object /\ ce_tenant_id ke.2 = tenant_id /\
    ce_event_type ke.2 = ty /\ dated t (ce_event_ts ke.2) /\
    ce_payload_json ke.2 = VObject
      (<["source_file" := VString file]> (<["event_type_resolved" := VString ty]>
        (<["scenario_step" := VInt index]> (<["dataset_version" := VString (named_version object)]>
          (<["scenario_id" := VString (named_id object)]> obj))))).
Definition record_event (object : gmap string Value) (start : DateTime) (idx : nat) (record : Value)
    (ke : (string * string) * CaseEvent) : Prop :=
  exists t, ns t = ns start - Z.of_nat (S idx) * 1000000000 /\
    ke.1 = source_key object ("src:" +:+ checksum_short record) /\
    ce_case_id ke.2 = "simlab:" +:+ named_id object /\ ce_tenant_id ke.2 = tenant_id /\
    ce_event_type ke.2 = "source_reference" /\ dated t (ce_event_ts ke.2) /\
    ce_payload_json ke.2 = VObj [("record", record); ("source", VString "curated_dataset")].
(** the research records that mention the scenario *)
Definition matched (curated : list Value) (object : gmap string Value) : list Value :=
  filter (fun record => curated_record_matches record
    (scenario_tokens (named_id object) (named_title object) (default "unknown" (str_in object "protocol"))
       (named_class object)) = true) curated.
Record contributes (curated : list Value) (scenario : string * gmap string Value) (start : DateTime)
    (c : Contribution) : Prop := {
  cn_key : (cb_row c).1 =
    (tenant_id, slugify (replace_all "_" "-" (named_id scenario.2)), named_version scenario.2);
  cn_row : ct_simlab_scenario_id (cb_row c).2 = named_id scenario.2 /\
    ct_scenario_id (cb_row c).2 = "simlab:" +:+ named_id scenario.2 +:+ ":" +:+ named_version scenario.2 /\
    ct_case_id (cb_row c).2 = (cb_case c).1 /\ ct_title (cb_row c).2 = named_title scenario.2 /\
    ct_incident_class (cb_row c).2 = named_class scenario.2 /\
    Some (ct_window_start (cb_row c).2) = cs_incident_start_at (cb_case c).2 /\
    Some (ct_window_end (cb_row c).2) = cs_incident_end_at (cb_case c).2;
  cn_case : (cb_case c).1 = "simlab:" +:+ named_id scenario.2 /\
    cs_tenant_id (cb_case c).2 = tenant_id /\ cs_title (cb_case c).2 = named_title scenario.2 /\
    cs_classification (cb_case c).2 = named_class scenario.2 /\
    cs_severity_peak (cb_case c).2 = default "critical" (str_in scenario.2 "severity_peak") /\
    cs_protocol (cb_case c).2 = Some (default "unknown" (str_in scenario.2 "protocol")) /\
    cs_incident_start_at (cb_case c).2 = Some start /\
    vget "scenario_file" (cs_source_payload (cb_case c).2) = Some (VString scenario.1) /\
    vget "scenario" (cs_source_payload (cb_case c).2) = Some (VObject scenario.2);
  cn_only : forall ke, ke ∈ cb_events c ->
    (exists idx obj, replayed scenario.2 idx obj /\ step_event scenario.1 scenario.2 start idx obj ke) \/
    (exists idx record, matched curated scenario.2 !! idx = Some record /\
       record_event scenario.2 start idx record ke);
  cn_steps : forall idx obj, replayed scenario.2 idx obj ->
    exists ke, ke ∈ cb_events c /\ step_event scenario.1 scenario.2 start idx obj ke;
  cn_records : forall idx record, matched curated scenario.2 !! idx = Some record ->
    exists ke, ke ∈ cb_events c /\ record_event scenario.2 start idx record ke
}.
(** a row of the catalogue and an event replace those with their key; a case does
    too, and keeps the status of the one before *)
Definition put_row (t : gmap (string * string * string) CatalogRow) (kr : (string * string * string) * CatalogRow)
  : gmap (string * string * string) CatalogRow := <[kr.1 := kr.2]> t.
Definition put_event (t : gmap (string * string) CaseEvent) (ke : (string * string) * CaseEvent)
  : gmap (string * string) CaseEvent := <[ke.1 := ke.2]> t.
Definition put_case (t : gmap string Case) (kc : string * Case) : gmap string Case :=
  let c := kc.2 in
  <[kc.1 := {| cs_tenant_id := cs_tenant_id c; cs_case_type := cs_case_type c;
      cs_classification := cs_classification c; cs_severity_peak := cs_severity_peak c;
      cs_status := match t !! kc.1 with Some old => cs_status old | None => "cataloged" end;
      cs_chain_slug := cs_chain_slug c; cs_protocol := cs_protocol c; cs_title := cs_title c;
      cs_summary := cs_summary c; cs_incident_start_at := cs_incident_start_at c;
      cs_incident_end_at := cs_incident_end_at c; cs_loss_usd_estimate := cs_loss_usd_estimate c;
      cs_source_confidence := cs_source_confidence c; cs_source_payload := cs_source_payload c |}]> t.
(** the three tables after some contributions *)
Definition tables w := (cw_catalog w, h_cases (w_db (cw_world w)), h_case_events (w_db (cw_world w))).
Definition put_contributions (cs : list Contribution) (t : gmap (string * string * string) CatalogRow * gmap string Case *
    gmap (string * string) CaseEvent) :=
  (foldl put_row t.1.1 (cb_row <$> cs), foldl put_case t.1.2 (cb_case <$> cs),
   foldl put_event t.2 (cs ≫= cb_events)).
(** *** The rows of a scenario *)

Lemma gather_lookup {A B} (f : nat -> A -> outcome B) k l ys i :
  gather_rows f k l = Ret ys ->
  match l !! i, ys !! i with
  | Some x, Some y => f (k + i)%nat x = Ret y
  | None, None => True
  | _, _ => False
  end.
Proof.
  revert k ys i. induction l as [|x l IH]; intros k ys i Hg; simpl in Hg.
  { by injection Hg as <-. }
  inv_ret Hg. inv_ret Hg. injection Hg as <-. destruct i as [|i]; simpl.
  - by rewrite Nat.add_0_r.
  - specialize (IH _ _ i Hm0). by rewrite Nat.add_succ_r.
Qed.
Lemma gather_in {A B} (f : nat -> A -> outcome B) l ys y :
  gather_rows f 0 l = Ret ys -> y ∈ ys -> exists i x, l !! i = Some x /\ f i x = Ret y.
Proof.
  intros Hg [i Hi]%list_elem_of_lookup_1. pose proof (gather_lookup _ _ _ _ i Hg) as Hl. rewrite Hi in Hl.
  destruct (l !! i) as [x|] eqn:Hx; [|done]. by exists i, x.
Qed.
Lemma gather_out {A B} (f : nat -> A -> outcome B) l ys i x :
  gather_rows f 0 l = Ret ys -> l !! i = Some x -> exists y, y ∈ ys /\ f i x = Ret y.
Proof.
  intros Hg Hx. pose proof (gather_lookup _ _ _ _ i Hg) as Hl. rewrite Hx in Hl.
  destruct (ys !! i) as [y|] eqn:Hy; [|done]. exists y. split; [by eapply list_elem_of_lookup_2|done].
Qed.

(** the fields of a scenario that was read *)
Lemma read_scenario_fields now object s :
  read_scenario now object = Ret s ->
  sc_scenario_id s = named_id object /\ sc_dataset_version s = named_version object /\
  sc_name s = named_title object /\ sc_incident_class s = named_class object /\
  sc_protocol s = default "unknown" (str_in object "protocol") /\
  sc_severity s = default "critical" (str_in object "severity_peak") /\
  sc_steps s = default [] (object !! "steps" ≫= as_array).
Proof.
  unfold read_scenario. destruct (_ <? _); [done|]. intros Hs. inv_ret Hs. by injection Hs as <-.
Qed.
Definition is_event_of (s : Scenario) (row : Value) (ke : (string * string) * CaseEvent) : Prop :=
  exists now, ke = (("simlab_scenario_step", default "unknown" (get_str "source_pk" row)),
                    case_event now tenant_id (sc_case_id s) row).
Lemma event_of_literal now s ts event_type pk payload :
  let row := VObj [ ("event_ts", VString ts); ("event_type", VString event_type);
                    ("source_pk", VString pk); ("payload", payload) ] in
  default "unknown" (get_str "source_pk" row) = pk /\
  case_event now tenant_id (sc_case_id s) row =
  {| ce_case_id := sc_case_id s; ce_tenant_id := tenant_id; ce_event_type := event_type;
     ce_event_ts := default now (parse_from_rfc3339 ts); ce_payload_json := payload |}.
Proof.
  unfold case_event. rewrite !get_str_VObj, !vget_VObj. simpl. by rewrite !as_str_VString.
Qed.
Lemma step_row_event file object s idx step row ke :
  sc_scenario_id s = named_id object -> sc_dataset_version s = named_version object ->
  sc_incident_class s = named_class object ->
  step_rows file s idx step = Ret (Some row) -> is_event_of s row.2 ke ->
  exists obj, as_object step = Some obj /\ step_event file object (sc_base_start s) idx obj ke.
Proof.
  intros Hid Hver Hcls Hr [now ->]. unfold step_rows in Hr.
  destruct (as_object step) as [obj|]; [|done]. cbv zeta in Hr.
  destruct (negb _); [done|]. inv_ret Hr. rename a into t. injection Hr as <-.
  exists obj. split; [done|]. apply add_seconds_spec in Hm.
  unfold step_event. cbv zeta.
  set (ty := event_type_for_step (sc_incident_class s) obj).
  destruct (event_of_literal now s (date_text t) ty (sc_scenario_id s +:+ ":" +:+ sc_dataset_version s +:+ ":"
    +:+ fmt_Z (Z.of_nat idx)) (VObject (<["source_file" := VString file]> (<["event_type_resolved" := VString ty]>
      (<["scenario_step" := VInt (Z.of_nat idx)]> (<["dataset_version" := VString (sc_dataset_version s)]>
        (<["scenario_id" := VString (sc_scenario_id s)]> obj))))))) as [Hpk Hev].
  exists ty, t. split_and!; [|done|..].
  - unfold ty, event_type_for_step, str_in. by rewrite Hcls.
  - simpl fst. etrans; [exact (f_equal (pair _) Hpk)|]. unfold source_key. by rewrite Hid, Hver.
  - etrans; [exact (f_equal ce_case_id Hev)|]. simpl. unfold sc_case_id. by rewrite Hid.
  - exact (f_equal ce_tenant_id Hev).
  - exact (f_equal ce_event_type Hev).
  - exists now. exact (f_equal ce_event_ts Hev).
  - etrans; [exact (f_equal ce_payload_json Hev)|]. simpl. by rewrite Hid, Hver.
Qed.
Lemma curated_row_event object s idx record row ke :
  sc_scenario_id s = named_id object -> sc_dataset_version s = named_version object ->
  curated_row s idx record = Ret row -> is_event_of s row ke ->
  record_event object (sc_base_start s) idx record ke.
Proof.
  intros Hid Hver Hr [now ->]. unfold curated_row in Hr. inv_ret Hr. inv_ret Hr. injection Hr as <-.
  apply or_panic_ret_inv in Hm, Hm0. apply duration_seconds_spec in Hm as ->. apply checked_add_spec in Hm0.
  destruct (event_of_literal now s (date_text a0) "source_reference" (sc_scenario_id s +:+ ":" +:+
    sc_dataset_version s +:+ ":src:" +:+ checksum_short record)
    (VObj [("record", record); ("source", VString "curated_dataset")])) as [Hpk Hev].
  exists a0. split_and!; [lia|..].
  - simpl fst. etrans; [exact (f_equal (pair _) Hpk)|]. unfold source_key. by rewrite Hid, Hver.
  - etrans; [exact (f_equal ce_case_id Hev)|]. simpl. unfold sc_case_id. by rewrite Hid.
  - exact (f_equal ce_tenant_id Hev).
  - exact (f_equal ce_event_type Hev).
  - exists now. exact (f_equal ce_event_ts Hev).
  - exact (f_equal ce_payload_json Hev).
Qed.
Lemma scenario_rows file s sources ids timeline events row :
  scenario_events file s sources = Ret (ids, timeline, events) ->
  row ∈ events <->
  (exists idx step r, sc_steps s !! idx = Some step /\ step_rows file s idx step = Ret (Some r) /\ row = r.2) \/
  (exists idx record, sources !! idx = Some record /\ curated_row s idx record = Ret row).
Proof.
  unfold scenario_events. intros Hs. inv_ret Hs. inv_ret Hs. injection Hs as _ _ <-.
  rename Hm into Hsteps, Hm0 into Hcur. rewrite elem_of_sort_by, elem_of_app. split.
  - intros [Hrow|Hrow].
    + left. apply list_elem_of_fmap in Hrow as (r & -> & Hr). apply list_elem_of_omap in Hr as (o & Ho & Hr).
      simpl in Hr. subst o. apply (gather_in _ _ _ _ Hsteps) in Ho as (i & step & ? & ?). by exists i, step, r.
    + right. apply (gather_in _ _ _ _ Hcur) in Hrow as (i & record & ? & ?). by exists i, record.
  - intros [(i & step & r & Hi & Hr & ->)|(i & record & Hi & Hr)].
    + left. apply list_elem_of_fmap. exists r. split; [done|]. apply list_elem_of_omap. exists (Some r).
      split; [|done]. destruct (gather_out _ _ _ _ _ Hsteps Hi) as (y & Hy & Hfy). congruence.
    + right. destruct (gather_out _ _ _ _ _ Hcur Hi) as (y & Hy & Hfy). congruence.
Qed.
(** a step that is replayed has its row *)
Lemma replayed_row file s object idx obj :
  sc_steps s = default [] (object !! "steps" ≫= as_array) ->
  (exists steps, gather_rows (step_rows file s) 0 (sc_steps s) = Ret steps) ->
  replayed object idx obj ->
  exists step r, sc_steps s !! idx = Some step /\ as_object step = Some obj /\
    step_rows file s idx step = Ret (Some r).
Proof.
  intros Hst [ys Hg] (steps & step & ty & Hs & Hi & Ho & Hty & Hin). rewrite Hs in Hst. simpl in Hst.
  rewrite Hst in *. destruct (gather_out _ _ _ _ _ Hg Hi) as (y & _ & Hy).
  unfold step_rows in Hy |- *. exists step. rewrite Ho in *. cbv zeta in Hy |- *.
  unfold str_in in Hty. rewrite Hty in *. cbn [default] in Hy |- *.
  assert (ty ∈ STEP_TYPES) as Ht by (unfold STEP_TYPES; set_solver).
  rewrite bool_decide_eq_true_2 in Hy |- * by done. cbn [negb] in Hy |- *. inv_ret Hy.
  eexists. split_and!; [done..|]. by rewrite Hm.
Qed.

(** *** What the statements do to the tables *)

Lemma case_upsert tenant payload s (t : gmap string Case) :
  partial_alter (upsert (scenario_case tenant payload s) (update_scenario_case (scenario_case tenant payload s)))
    (sc_case_id s) t = put_case t (sc_case_id s, scenario_case tenant payload s).
Proof.
  unfold put_case. cbn [fst snd]. apply map_eq. intros k. destruct (decide (sc_case_id s = k)) as [<-|Hne].
  - rewrite lookup_partial_alter_eq, lookup_insert_eq. unfold upsert, update_scenario_case.
    by destruct (t !! sc_case_id s).
  - by rewrite lookup_partial_alter_ne, lookup_insert_ne.
Qed.
Lemma event_upsert (row : CaseEvent) (k : string * string) (t : gmap (string * string) CaseEvent) :
  partial_alter (upsert row (fun _ => row)) k t = put_event t (k, row).
Proof.
  unfold put_event. cbn [fst snd]. apply map_eq. intros k'. destruct (decide (k = k')) as [<-|Hne].
  - rewrite lookup_partial_alter_eq, lookup_insert_eq. unfold upsert. by destruct (t !! k).
  - by rewrite lookup_partial_alter_ne, lookup_insert_ne.
Qed.
Lemma history_write_ret (x : Write) w w' :
  in_history (execute_write x) w = (w', Ret ()) ->
  w_db (cw_world w') = write x (w_db (cw_world w)) /\ cw_catalog w' = cw_catalog w.
Proof.
  unfold in_history, execute_write, statement. destruct (statement_fails _); [done|].
  destruct (foreign_key_ok _ _); [|done]. by intros [= <-].
Qed.
(** computations that keep the tables *)
Definition quiet {A} (m : IO A) : Prop := forall w, tables (m w).1 = tables w.
Lemma catalog_quiet_bind {A B} (m : IO A) (f : A -> IO B) : quiet m -> (forall a, quiet (f a)) -> quiet (m ≫= f).
Proof.
  intros Hm Hf w. unfold mbind, st_bind. specialize (Hm w). destruct (m w) as [w1 [a|e|]]; [|done..].
  simpl in Hm. by rewrite <- Hm, (Hf a w1).
Qed.
Lemma quiet_run {A} (m : IO A) w w' o : quiet m -> m w = (w', o) -> tables w' = tables w.
Proof. intros Hm Hw. specialize (Hm w). by rewrite Hw in Hm. Qed.
Lemma quiet_clock : quiet clock.
Proof. done. Qed.
Lemma quiet_file error f : quiet (file_action error f).
Proof. done. Qed.
Lemma quiet_archive prefix payload events manifest :
  quiet (persist_long_term_artifacts archive_dir prefix payload events manifest).
Proof. destruct archive_dir; [|done]. by repeat (apply catalog_quiet_bind; [apply quiet_file|intros _]). Qed.
Lemma events_written s rows w w' : write_events s rows w = (w', Ret ()) ->
  exists evs, Forall2 (is_event_of s) rows evs /\
    tables w' = ((tables w).1, foldl put_event (tables w).2 evs).
Proof.
  revert w. induction rows as [|row rows IH]; intros w Hr.
  { injection Hr as <-. exists []. by split; [constructor|]. }
  unfold write_events in Hr. simpl in Hr. apply st_bind_ret_inv in Hr as (w1 & [] & Hrow & Hrest).
  apply IH in Hrest as (evs & Hevs & Ht).
  apply st_bind_ret_inv in Hrow as (w0 & now & Hnow & Hx). apply (quiet_run _ _ _ _ quiet_clock) in Hnow.
  apply history_write_ret in Hx as [Hx Hc]. injection Hnow as Hn1 Hn2 Hn3.
  eexists (_ :: evs). split; [constructor; [by exists now|exact Hevs]|].
  rewrite Ht. unfold tables. simpl. rewrite Hx, Hc. simpl. rewrite event_upsert. by rewrite Hn1, Hn2, Hn3.
Qed.
Lemma case_written tenant payload s w w' :
  in_history (execute_write (case_write tenant payload s)) w = (w', Ret ()) ->
  tables w' = ((tables w).1.1, put_case (tables w).1.2 (sc_case_id s, scenario_case tenant payload s), (tables w).2).
Proof.
  intros [Hx Hc]%history_write_ret. unfold tables. rewrite Hx, Hc. simpl. by rewrite case_upsert.
Qed.
Lemma row_written key row w w' : upsert_catalog key row w = (w', Ret ()) ->
  tables w' = (put_row (tables w).1.1 (key, row), (tables w).1.2, (tables w).2).
Proof.
  unfold upsert_catalog. destruct (statement_fails _); [done|]. destruct (identifier_taken _ _ _); [done|].
  destruct (negb _); [done|]. by intros [= <-].
Qed.
(** *** The catalogue *)

Lemma scenario_contributes now now' curated file object s ids timeline events evs :
  read_scenario now object = Ret s ->
  scenario_events file s (sources_of curated s) = Ret (ids, timeline, events) ->
  Forall2 (is_event_of s) events evs ->
  contributes curated (file, object) (sc_base_start s)
    {| cb_row := (catalog_key s, catalog_row object s (sources_of curated s) ids timeline (object_prefix_of s));
       cb_case := (sc_case_id s, scenario_case tenant_id (source_payload now' file object (sources_of curated s)) s);
       cb_events := evs |}.
Proof.
  intros Hread Hev Hrows.
  destruct (read_scenario_fields _ _ _ Hread) as (Fid & Fver & Fname & Fcls & Fprot & Fsev & Fsteps).
  pose proof (fun row => scenario_rows _ _ _ _ _ _ row Hev) as Hin.
  assert (Hsrc : sources_of curated s = matched curated object).
  { unfold sources_of, matched. cbv zeta. by rewrite Fid, Fname, Fprot, Fcls. }
  assert (Hto : forall row, row ∈ events -> exists ke, ke ∈ evs /\ is_event_of s row ke).
  { clear -Hrows. induction Hrows as [|row ke rows evs Hk _ IH]; intros r Hr; [by apply not_elem_of_nil in Hr|].
    apply elem_of_cons in Hr as [->|Hr].
    - exists ke. split; [|done]. apply elem_of_cons. by left.
    - destruct (IH r Hr) as (ke' & ? & ?). exists ke'. split; [|done]. apply elem_of_cons. by right. }
  assert (Hfrom : forall ke, ke ∈ evs -> exists row, row ∈ events /\ is_event_of s row ke).
  { clear -Hrows. induction Hrows as [|row ke rows evs Hk _ IH]; intros r Hr; [by apply not_elem_of_nil in Hr|].
    apply elem_of_cons in Hr as [->|Hr].
    - exists row. split; [|done]. apply elem_of_cons. by left.
    - destruct (IH r Hr) as (row' & ? & ?). exists row'. split; [|done]. apply elem_of_cons. by right. }
  split; simpl.
  - unfold catalog_key, sc_slug. by rewrite Fid, Fver.
  - unfold sc_case_id, sc_catalog_id. by rewrite Fid, Fver, Fname, Fcls.
  - unfold sc_case_id. rewrite Fid, Fname, Fcls, Fsev, Fprot. unfold source_payload. by rewrite !vget_VObj.
  - intros ke (row & Hrow & Hke)%Hfrom.
    apply Hin in Hrow as [(idx & step & r & Hi & Hr & ->)|(idx & record & Hi & Hr)].
    + left. destruct (step_row_event file object s idx step r ke Fid Fver Fcls Hr Hke) as (obj & Ho & He).
      exists idx, obj. split; [|done]. unfold step_rows in Hr. rewrite Ho in Hr. cbv zeta in Hr.
      rewrite Fsteps in Hi. destruct (object !! "steps" ≫= as_array) as [steps|] eqn:Hst; [|by destruct idx].
      destruct (bool_decide_reflect (default "" (obj !! "type" ≫= as_str) ∈ STEP_TYPES)) as [Ht|]; [|done].
      unfold replayed, str_in. destruct (obj !! "type" ≫= as_str) as [ty|].
      * exists steps, step, ty. split_and!; try done. unfold STEP_TYPES in Ht. simpl in Ht. set_solver.
      * exfalso. simpl in Ht. unfold STEP_TYPES in Ht. set_solver.
    + right. exists idx, record. rewrite <- Hsrc. split; [done|].
      by eapply curated_row_event.
  - intros idx obj Hr.
    assert (Hg : exists steps, gather_rows (step_rows file s) 0 (sc_steps s) = Ret steps).
    { unfold scenario_events in Hev. inv_ret Hev. by eexists. }
    destruct (replayed_row file s object idx obj Fsteps Hg Hr) as (step & r & Hi & Ho & Hrow).
    destruct (Hto r.2) as (ke & Hke & Hk); [apply Hin; left; by exists idx, step, r|].
    exists ke. split; [done|].
    destruct (step_row_event file object s idx step r ke Fid Fver Fcls Hrow Hk) as (obj' & Ho' & He). congruence.
  - intros idx record Hi. rewrite <- Hsrc in Hi.
    assert (Hg : exists rows, gather_rows (curated_row s) 0 (sources_of curated s) = Ret rows).
    { unfold scenario_events in Hev. inv_ret Hev. inv_ret Hev. by eexists. }
    destruct Hg as [rows Hg]. destruct (gather_out _ _ _ _ _ Hg Hi) as (row & _ & Hrow).
    destruct (Hto row) as (ke & Hke & Hk); [apply Hin; right; by exists idx, record|].
    exists ke. split; [done|]. by eapply curated_row_event.
Qed.
Lemma catalog_scenario_ret curated file object w w' :
  catalog_scenario curated file object w = (w', Ret ()) ->
  exists start c, contributes curated (file, object) start c /\ tables w' = put_contributions [c] (tables w).
Proof.
  intros Hr. apply st_bind_ret_inv in Hr as (w1 & now & H1' & Hr).
  apply st_bind_ret_inv in Hr as (w2 & s & H2' & Hr). injection H2' as <- Hs.
  apply st_bind_ret_inv in Hr as (w3 & [[ids timeline] events] & H3' & Hr). injection H3' as <- He.
  apply st_bind_ret_inv in Hr as (w4 & now' & H4' & Hr).
  apply st_bind_ret_inv in Hr as (w5 & [] & H5' & Hr).
  apply st_bind_ret_inv in Hr as (w6 & [] & H6' & Hr).
  apply st_bind_ret_inv in Hr as (w7 & [] & H7' & Hr).
  apply st_bind_ret_inv in Hr as (w8 & now'' & H8' & Hr).
  apply (quiet_run _ _ _ _ quiet_clock) in H1', H4', H8'.
  apply case_written in H5'. apply events_written in H6' as (evs & Hevs & H6').
  apply row_written in H7'. apply quiet_run in Hr; [|apply quiet_archive].
  eexists _, _. split; [by eapply scenario_contributes|].
  rewrite Hr, H8', H7', H6', H5', H4', H1'. unfold put_contributions. simpl. by rewrite app_nil_r.
Qed.
Lemma put_contributions_app cs cs' t : put_contributions (cs ++ cs') t = put_contributions cs' (put_contributions cs t).
Proof. unfold put_contributions. simpl. by rewrite !fmap_app, bind_app, !foldl_app. Qed.
Lemma catalog_files_ret curated files k w w' n :
  for_each (catalog_file curated) files k w = (w', Ret n) ->
  exists scs cs, scenarios_in files scs /\
    Forall2 (fun scenario c => exists start, contributes curated scenario start c) scs cs /\
    n = (k + length scs)%nat /\ tables w' = put_contributions cs (tables w).
Proof.
  revert k w. induction files as [|file files IH]; intros k w Hr.
  { injection Hr as <- <-. exists [], []. split_and!; [constructor..|simpl; lia|done]. }
  simpl in Hr. apply st_bind_ret_inv in Hr as (w1 & k1 & Hfile & Hrest).
  apply IH in Hrest as (scs & cs & Hscs & Hcs & -> & Htab). unfold catalog_file in Hfile.
  pose proof (load_scenario_spec file) as Hspec.
  destruct (load_scenario_file file) as [object|].
  - apply st_bind_ret_inv in Hfile as (w2 & [] & Hone & [= <- <-]).
    apply catalog_scenario_ret in Hone as (start & c & Hc & Hone).
    exists ((file, object) :: scs), (c :: cs). split_and!.
    + apply si_take; [by apply Hspec|done].
    + constructor; [by exists start|done].
    + simpl. lia.
    + by rewrite Htab, Hone, <- put_contributions_app.
  - injection Hfile as <- <-. exists scs, cs. split_and!; try done.
    apply si_skip; [|done]. intros object Hv. by apply Hspec in Hv.
Qed.

(** C33: the catalogue is what the scenario files say.  When a run of the
    catalogue returns [n], [n] of the discovered files hold a scenario, in the
    sense that they can be read and parsed to an object with the four required
    keys; every such scenario contributes one row of the catalogue, one case and
    its events, and the three tables are the old ones with the contributions put
    in by their keys in the order of the files, a case keeping the status it has.
    The events of a scenario are one for every step that is replayed, at its
    second after the start and with the step as its payload, one for every
    research record that matches, and no other. *)
Theorem catalog_is_the_scenarios dir curated_dir w w' n :
  sync_simlab_catalog (Some dir) curated_dir w = (w', Ret n) ->
  exists scs cs,
    scenarios_in (discover_files_recursive dir SCENARIO_EXTENSIONS) scs /\ n = length scs /\
    Forall2 (fun scenario c =>
      exists start, contributes (load_curated_records curated_dir) scenario start c) scs cs /\
    tables w' = put_contributions cs (tables w).
Proof.
  unfold sync_simlab_catalog. fold SCENARIO_EXTENSIONS.
  destruct (discover_files_recursive dir SCENARIO_EXTENSIONS) as [|file files] eqn:Hf.
  - intros [= <- <-]. exists [], []. by split_and!; [constructor|..|constructor|].
  - intros (scs & cs & ? & ? & -> & ?)%catalog_files_ret. by exists scs, cs.
Qed.

Lemma read_scenario_speed now object v z :
  object !! "default_speed" = Some v -> as_i64 v = Some z -> 2 ^ 31 <= z ->
  exists e, read_scenario now object = Err e.
Proof.
  intros Hv Hz Hs. unfold read_scenario, read_speed. rewrite Hv. simpl. rewrite Hz. cbn [default].
  rewrite (proj2 (Z.ltb_lt _ _)) by (unfold i32_max; simpl; lia). by eexists.
Qed.
Lemma catalog_file_speed curated k file object v z w r : load_scenario_file file = Some object ->
  object !! "default_speed" = Some v -> as_i64 v = Some z -> 2 ^ 31 <= z ->
  (catalog_file curated k file w).2 <> Ret r.
Proof.
  intros Hl Hv Hz Hs Hr. destruct (catalog_file curated k file w) as [w' r'] eqn:Hw. simpl in Hr. subst r'.
  unfold catalog_file in Hw. rewrite Hl in Hw.
  apply st_bind_ret_inv in Hw as (w1 & [] & Hone & _).
  apply st_bind_ret_inv in Hone as (w2 & now & _ & Hone).
  apply st_bind_ret_inv in Hone as (w3 & s & Hread & _). injection Hread as _ Hread.
  destruct (read_scenario_speed now object v z Hv Hz Hs) as [e He]. congruence.
Qed.
Lemma for_each_never {S A B} (f : A -> B -> ST S A) x l a s r :
  (forall a s r, (f a x s).2 <> Ret r) -> x ∈ l -> (for_each f l a s).2 <> Ret r.
Proof.
  intros Hf Hx Hr. revert a s Hr. induction Hx as [? l|? l y Hx IH]; intros a s Hr;
    destruct (for_each f _ a s) as [s' r'] eqn:Hs in Hr; simpl in Hr; subst r'; simpl in Hs;
    apply st_bind_ret_inv in Hs as (s1 & a1 & H1' & H2').
  - specialize (Hf a s a1). by rewrite H1' in Hf.
  - apply (IH Hf a1 s1). by rewrite H2'.
Qed.
(** a process that is started again after every turn that does not return *)
Fixpoint catalog_turns (n : nat) (turn : IO nat) (w : CatalogWorld) : CatalogWorld * list (outcome nat) :=
  match n with
  | O => (w, [])
  | S n => let '(w, r) := turn w in let '(w, rs) := catalog_turns n turn w in (w, r :: rs)
  end.

(** C36: one number stops the worker.  When one of the discovered files holds a
    scenario whose [default_speed] is an integer of 64 bits from 2^31 on, no turn
    of the worker ever returns, at whatever start and whatever the database
    holds: the whole catalogue is stopped by one file. *)
Theorem speed_out_of_range_stops_worker batch dir curated_dir file object v z n w :
  file ∈ discover_files_recursive dir SCENARIO_EXTENSIONS -> valid_file file object ->
  object !! "default_speed" = Some v -> as_i64 v = Some z -> 2 ^ 31 <= z ->
  Forall (fun r => forall k, r <> Ret k) (catalog_turns n (worker_turn batch (Some dir) curated_dir) w).2.
Proof.
  intros Hf Hl%load_scenario_spec Hv Hz Hs. revert w.
 induction n as [|n IH]; intros w; [constructor|]. simpl.
  destruct (worker_turn _ _ _ w) as [w1 r] eqn:Hw. specialize (IH w1).
  destruct (catalog_turns n _ w1) as [w2 rs]. constructor; [|done]. intros k ->.
  apply st_bind_ret_inv in Hw as (w3 & copied & _ & Hw).
  apply st_bind_ret_inv in Hw as (w4 & cataloged & Hw & _). revert Hw.
  unfold sync_simlab_catalog. fold SCENARIO_EXTENSIONS.
  destruct (discover_files_recursive dir SCENARIO_EXTENSIONS) as [|f fs] eqn:Hd; [by apply not_elem_of_nil in Hf|].
  intros Hw. eapply (for_each_never (catalog_file (load_curated_records curated_dir)) file); [|exact Hf|by rewrite Hw].
  intros. by eapply catalog_file_speed.
Qed.
End sync_catalog.
End catalog.

(** ** Concrete runs *)

Section examples.
#[local] Existing Instance chrono_Z.
#[local] Existing Instance serde_json_tree.
#[local] Existing Instance bytewise.
#[local] Instance rfc_text : DateJson := {| date_text := to_rfc3339 |}.
#[local] Instance sound : Statements := {| statement_fails := fun _ => false |}.
#[local] Instance disk : CatalogEnv := {| cat_now := fun _ => sec 900; file_write_fails := fun _ => false |}.
#[local] Instance any_sha : Sha256 := {| sha256_hex := fun s => s |}.
(** a file with a scenario of the identifier that is its text, and one that is none *)
Definition scenario_text (speed : Z) (id : string) : Value :=
  VObj [ ("scenario_id", JString id); ("chain", JString "ethereum"); ("incident_class", JString "depeg");
         ("default_speed", JInt speed); ("incident_start_at", JInt 500);
         ("steps", JArray [VObj [("type", JString "replay_tx")]; VObj [("type", JString "note")]]) ].
#[local] Instance texts : JsonText :=
  {| from_str := fun s => if bool_decide (s = "fast") then Some (scenario_text (2 ^ 31) s)
                          else if bool_decide (s = "noise") then Some (JInt 1)
                          else Some (scenario_text 10 s) |}.
#[local] Instance no_yaml : CatalogText := {| from_yaml := fun _ => None; pretty_json := fun _ => "{}" |}.
(** a path is an extension and a text *)
#[local] Instance paths : Files :=
  {| extension := fun p => if contains p ".txt" then Some "txt" else if contains p ".yaml" then Some "yaml" else Some "JSON";
     path_le := String.leb; path_join := fun a b => a +:+ "/" +:+ b;
     read_to_string := fun p => Some p |}.
Definition tree (names : list string) : Dir :=
  Directory [BadEntry; SubDir Unreadable; SubDir (Directory (File <$> names)); File "noise"; File "a.txt"; File "a.yaml"].
Definition fresh : CatalogWorld :=
  {| cw_world := {| w_db := empty_db; w_step := 0 |}; cw_catalog := ∅; cw_archive := ∅ |}.
Definition run_catalog (tenant : string) (names : list string) (w : CatalogWorld) :=
  sync_simlab_catalog (Some "/archive") None "history" tenant (Some (tree names)) None w.
Definition cataloged_ids (w : CatalogWorld) : list (string * string) :=
  (fun kr => (kr.1.1.2, ct_simlab_scenario_id kr.2)) <$> map_to_list (cw_catalog w).
Example discovered : discover_files_recursive (tree ["b"; "a"]) SCENARIO_EXTENSIONS = ["a"; "a.yaml"; "b"; "noise"].
Proof. vm_compute. reflexivity. Qed.
Definition two := run_catalog "t" ["b"; "a"] fresh.
Lemma two_ret : two.2 = Ret 2%nat.
Proof. vm_compute. reflexivity. Qed.
Lemma two_run : run_catalog "t" ["b"; "a"] fresh = (two.1, Ret 2%nat).
Proof. rewrite <- two_ret. apply surjective_pairing. Qed.
Lemma catalog_is_the_scenarios_witness :
  exists scs cs, scenarios_in (discover_files_recursive (tree ["b"; "a"]) SCENARIO_EXTENSIONS) scs /\
    2%nat = length scs /\
    Forall2 (fun scenario c => exists start, contributes "t" [] scenario start c) scs cs /\
    tables two.1 = put_contributions cs (tables fresh).
Proof.
  exact (catalog_is_the_scenarios (Some "/archive") None "history" "t" (tree ["b"; "a"]) None fresh two.1 2%nat
    two_run).
Defined.
(** two scenarios with one slug: two are counted and one row stays *)
Example slug_collision : let '(w, r) := run_catalog "t" ["a_b"; "a-b"] fresh in
  r = Ret 2%nat /\ cataloged_ids w = [("a-b", "a_b")].
Proof. vm_compute. by split. Qed.
(** another tenant: the identifier of the row is taken, and the worker stops *)
Example other_tenant : let '(w, _) := run_catalog "t" ["a"] fresh in
  (run_catalog "u" ["a"] w).2 = Err "duplicate key value violates unique constraint".
Proof. vm_compute. reflexivity. Qed.
Lemma fast_found : "fast" ∈ discover_files_recursive (tree ["a"; "fast"]) SCENARIO_EXTENSIONS.
Proof. apply (bool_decide_unpack _). vm_compute. reflexivity. Qed.
Definition fast_object : gmap string Value := default ∅ (load_scenario_file "fast").
Lemma fast_loads : load_scenario_file "fast" = Some fast_object.
Proof. vm_compute. reflexivity. Qed.
Lemma speed_out_of_range_stops_worker_witness :
  Forall (fun r => forall k, r <> Ret k)
    (catalog_turns 3 (worker_turn None None "history" "t" 10 (Some (tree ["a"; "fast"])) None) fresh).2.
Proof.
  apply (speed_out_of_range_stops_worker None None "history" "t" 10 (tree ["a"; "fast"]) None "fast" fast_object
    (JInt (2 ^ 31)) (2 ^ 31) 3 fresh fast_found).
  - apply load_scenario_spec. exact fast_loads.
  - vm_compute. reflexivity.
  - reflexivity.
  - lia.
Defined.
End examples.
