(* ===== verification/EvmLogs.v ===== *)
(** * EVM logs and the events made of them ([crates/ingestion/src])

    The configuration of a chain and its sources ([config.rs]), the oracle map
    ([protocol_map.rs]), the decoders of oracle and flash-loan logs
    ([decode_chainlink.rs], [decode_flashloan.rs]) and the events they become
    ([normalize.rs]).  The types of [ethers] are an interface with the documented
    behaviour of the functions used; bytes are strings. *)
From Stdlib Require Import Ascii.
From S2P Require Import Prelude F64 Text Numbers Ports EventSchema FieldMapping Hex WorkerConfig.

(** the number a big-endian byte string encodes *)
Fixpoint be_from (acc : Z) (b : string) : Z :=
  match b with
  | EmptyString => acc
  | String c b => be_from (acc * 256 + Z.of_nat (nat_of_ascii c)) b
  end.
Definition be_number (b : string) : Z := be_from 0 b.
(** a 256-bit word read in two's complement *)
Definition signed_word (v : Z) : Z := if v <? 2 ^ 255 then v else v - 2 ^ 256.

(** [ethers::types] and [keccak256]; [{:?}] of the fixed-size types *)
Class EvmTypes := {
  Address : Type;
  Address_eq_dec : EqDecision Address;
  Address_countable : Countable Address;
  address_from_str : string -> option Address;
  address_from_slice : string -> Address;
  address_debug : Address -> string;
  H256 : Type;
  H256_eq_dec : EqDecision H256;
  H256_countable : Countable H256;
  h256_bytes : H256 -> string;
  h256_bytes_length : forall h, String.length (h256_bytes h) = 32%nat;
  h256_debug : H256 -> string;
  h256_zero : H256;
  keccak256 : string -> H256;
  from_big_endian : string -> Z;
  from_big_endian_spec : forall b, (String.length b <= 32)%nat -> from_big_endian b = be_number b;
  i256_to_string : Z -> string;
  i256_to_string_spec : forall v, 0 <= v < 2 ^ 256 -> i256_to_string v = fmt_Z (signed_word v);
  u256_debug : Z -> string
}.
#[global] Existing Instances Address_eq_dec Address_countable H256_eq_dec H256_countable.

(** ** Configuration *)

Record FlashLoanSourceConfig := {
  fl_id : string;
  fl_protocol : string;
  fl_enabled : bool;
  fl_contract_addresses : list string;
  fl_event_signature : string;
  fl_protocol_category : option string;
  fl_asset_pair_hint : option string
}.
Record EvmChainConfig := {
  cc_family : string;
  cc_chain_slug : string;
  cc_chain_id : Z;
  cc_ws_url_env : string;
  cc_ws_url_env_fallbacks : list string;
  cc_lookback_blocks : option Z;
  cc_default_oracle_decimals : option Z;
  cc_protocol_category_default : option string
}.
Definition parse_protocol_category (raw : string) : ProtocolCategory :=
  let category := to_ascii_lowercase (trim raw) in
  if bool_decide (category = "lending") then Lending
  else if bool_decide (category ∈ ["perp"; "perp_dex"; "perpdex"; "perp-dex"]) then PerpDex
  else UnknownCategory.
Definition default_protocol_category_for_chain (chain_slug : string) : ProtocolCategory :=
  if bool_decide (chain_slug = "ethereum") then Lending
  else if bool_decide (chain_slug = "base") then PerpDex
  else UnknownCategory.
Definition is_kebab_char (c : ascii) : bool :=
  let n := nat_of_ascii c in
  (97 <=? n)%nat && (n <=? 122)%nat || (48 <=? n)%nat && (n <=? 57)%nat || (n =? 45)%nat.
Definition validate (c : EvmChainConfig) : outcome unit :=
  let slug := cc_chain_slug c in
  if negb (eq_ignore_ascii_case (cc_family c) "evm") then
    Err ("unsupported family '" +:+ cc_family c +:+ "' for chain '" +:+ slug +:+ "'; expected 'evm'")
  else if is_empty slug then Err "chain_slug must not be empty"
  else if negb (all_chars is_kebab_char slug) then
    Err ("chain_slug '" +:+ slug +:+ "' must be lowercase kebab-case")
  else if is_empty (trim (cc_ws_url_env c)) then
    Err ("ws_url_env must be configured for chain '" +:+ slug +:+ "'")
  else if existsb (fun name => is_empty (trim name)) (cc_ws_url_env_fallbacks c) then
    Err ("ws_url_env_fallbacks must not contain empty env names for chain '" +:+ slug +:+ "'")
  else Ret ().
(** [out.push(x)] unless [out] contains it *)
Definition push_new {A} `{EqDecision A} (out : list A) (x : A) : list A :=
  if bool_decide (x ∈ out) then out else out ++ [x].
Definition ws_env_names (c : EvmChainConfig) : list string :=
  foldl push_new [cc_ws_url_env c] (cc_ws_url_env_fallbacks c).
Definition protocol_category_default (c : EvmChainConfig) : ProtocolCategory :=
  match cc_protocol_category_default c with
  | Some raw => parse_protocol_category raw
  | None => default_protocol_category_for_chain (cc_chain_slug c)
  end.

Section logs.
Context `{Chrono} `{SerdeJson} `{!Powi} `{!EvmTypes}.

(** [ethers::types::Log], the fields that are read *)
Record Log := {
  log_address : Address;
  log_topics : list H256;
  log_data : string;
  log_block_hash : option H256;
  log_block_number : option Z;
  log_transaction_hash : option H256;
  log_transaction_index : option Z;
  log_log_index : option Z
}.
(** [U256::as_u64] panics when the number does not fit *)
Definition u256_as_u64 (v : Z) : outcome Z := if v <=? u64_max then Ret v else Panic.

(** ** The oracle map *)

Record ProtocolBinding := {
  pb_protocol : string;
  oracle_decimals : Z;
  pb_protocol_category : ProtocolCategory
}.
Definition OracleProtocolMap : Type := gmap Address (list ProtocolBinding).
Fixpoint parse_address_list (context : string) (entries : list string) : outcome (list Address) :=
  match entries with
  | [] => Ret []
  | entry :: entries =>
      let entry := trim entry in
      if is_empty entry then parse_address_list context entries
      else
        a ← of_option (context +:+ entry) (address_from_str entry);
        rest ← parse_address_list context entries; Ret (a :: rest)
  end.
Definition parse_oracle_addresses_csv (csv : string) : outcome (list Address) :=
  parse_address_list "invalid oracle address in csv: " (split_on "," csv).
Definition parse_oracle_addresses (values : list string) : outcome (list Address) :=
  parse_address_list "invalid oracle address in protocol config: " values.
(** [map.entry(key).or_default().push(x)] *)
Definition push_entry {K} `{Countable K} {A} (x : A) (m : gmap K (list A)) (k : K) : gmap K (list A) :=
  <[k := default [] (m !! k) ++ [x]]> m.
Definition build_oracle_protocol_map (entries : list (list Address * ProtocolBinding))
  : OracleProtocolMap :=
  foldl (fun map entry => foldl (push_entry entry.2) map entry.1) ∅ entries.
Definition DEFAULT_LOOKBACK_BLOCKS : Z := 300.
Definition DEFAULT_ORACLE_DECIMALS : Z := 8.
Definition DEFAULT_FILTER_CHUNK_SIZE : Z := 250.
Definition default_eth_oracles : outcome (list Address) :=
  parse_oracle_addresses_csv ("0x5f4eC3Df9cbd43714FE2740f5E3616155c5b8419," +:+
    "0xF4030086522a5bEEa4988F8cA5B36dbC97BeE88c,0x8fFfFfd4AfB6115b954Bd326cbe7B4BA576818f6").

(** ** Decoding *)

Definition ANSWER_UPDATED_EVENT : string := "AnswerUpdated(int256,uint256,uint256)".
Definition answer_updated_topic : H256 := keccak256 ANSWER_UPDATED_EVENT.
Definition topic_word (log : Log) (index : nat) : option Z :=
  if (length (log_topics log) <? 3)%nat then None
  else topic ← log_topics log !! index; Some (from_big_endian (h256_bytes topic)).
(** the raw word of the [I256] *)
Definition decode_answer_updated_raw (log : Log) : option Z := topic_word log 1.
Definition extract_round_id (log : Log) : option Z := topic_word log 2.
Definition scale_answer (raw : Z) (decimals : Z) : f64 :=
  f64_div (default f64_zero (Numbers.parse_f64 (i256_to_string raw))) (powi f64_ten decimals).

Record DecodedFlashLoanLog := {
  asset_address : option Address;
  loan_amount_raw : Z;
  fee_raw : option Z;
  borrower : option Address;
  initiator : option Address
}.
Definition event_topic_from_signature (signature : string) : H256 := keccak256 signature.
Definition address_from_topic (topic : H256) : Address :=
  address_from_slice (drop_str 12 (h256_bytes topic)).
Definition read_u256 (data : string) (offset : nat) : option Z :=
  if (String.length data <? offset + 32)%nat then None
  else Some (from_big_endian (take_str 32 (drop_str offset data))).
Definition decode_aave_flash_loan (log : Log) : option DecodedFlashLoanLog :=
  match log_topics log with
  | _ :: topic1 :: topic2 :: topic3 :: _ =>
      let data := log_data log in
      if (String.length data <? 64)%nat then None
      else
        amount ← read_u256 data 0;
        Some {| asset_address := Some (address_from_topic topic3);
                loan_amount_raw := amount;
                fee_raw := if (128 <=? String.length data)%nat then read_u256 data 64
                           else read_u256 data 32;
                borrower := Some (address_from_topic topic1);
                initiator := Some (address_from_topic topic2) |}
  | _ => None
  end.
Definition decode_balancer_flash_loan (log : Log) : option DecodedFlashLoanLog :=
  match log_topics log with
  | _ :: topic1 :: topic2 :: _ =>
      let data := log_data log in
      if (String.length data <? 64)%nat then None
      else
        amount ← read_u256 data 0;
        Some {| asset_address := Some (address_from_topic topic2);
                loan_amount_raw := amount;
                fee_raw := read_u256 data 32;
                borrower := Some (address_from_topic topic1);
                initiator := None |}
  | _ => None
  end.
Definition decode_flash_loan_log (protocol : string) (log : Log) : option DecodedFlashLoanLog :=
  let protocol := to_ascii_lowercase protocol in
  if contains protocol "aave" then decode_aave_flash_loan log
  else if contains protocol "balancer" then decode_balancer_flash_loan log
  else None.

(** ** Events *)

Definition chain_from_slug (chain_slug : string) : Chain :=
  if bool_decide (chain_slug = "ethereum") then Ethereum
  else if bool_decide (chain_slug = "base") then Base
  else if bool_decide (chain_slug = "offchain") then Offchain
  else UnknownChain.
(** a character that is not allowed becomes a dash; a character outside ASCII is
    the byte that starts it *)
Definition sanitize_char (c : ascii) : string :=
  let n := nat_of_ascii c in
  if is_ascii_alphanumeric c || (n =? 45)%nat || (n =? 95)%nat then String c EmptyString
  else if (128 <=? n)%nat && (n <=? 191)%nat then EmptyString
  else "-".
Fixpoint sanitize_protocol (protocol : string) : string :=
  match protocol with
  | EmptyString => EmptyString
  | String c rest => sanitize_char c +:+ sanitize_protocol rest
  end.
Definition event_tx_hash (log : Log) : string := default "0x" (h256_debug <$> log_transaction_hash log).
(** [chain:block:tx:index] of a log whose index is [log_index] *)
Definition position_key (chain_slug : string) (log : Log) (log_index : Z) : string :=
  chain_slug +:+ ":" +:+ fmt_Z (default 0 (log_block_number log)) +:+ ":" +:+ event_tx_hash log
  +:+ ":" +:+ fmt_Z log_index.
Definition oracle_event_key (chain_slug : string) (binding : ProtocolBinding) (binding_count : nat)
    (log : Log) (log_index : Z) : string :=
  if (1 <? binding_count)%nat then
    position_key chain_slug log log_index +:+ ":" +:+ sanitize_protocol (pb_protocol binding)
  else position_key chain_slug log log_index.
Definition flash_event_key (chain_slug protocol source_id : string) (log : Log) (log_index : Z) : string :=
  position_key chain_slug log log_index +:+ ":" +:+ sanitize_protocol protocol +:+ ":"
  +:+ sanitize_protocol source_id.
(** what both events have in common *)
Definition provisional_event (uuid : string) (now : DateTime) (event_key : string) (kind : EventSchema.EventType)
    (chain_slug : string) (chain_id confirmation_depth : Z) (protocol : string)
    (category : ProtocolCategory) (log : Log) (log_index : Z) (price : option f64)
    (metadata : gmap string Value) : NormalizedEvent :=
  {| ne_event_id := uuid; ne_event_key := event_key; ne_event_type := kind; ne_tenant_id := None;
     ne_chain := chain_from_slug chain_slug; ne_chain_slug := chain_slug; ne_protocol := protocol;
     ne_protocol_category := category; ne_chain_id := Some chain_id; ne_tx_hash := event_tx_hash log;
     ne_block_number := default 0 (log_block_number log);
     ne_block_hash := h256_debug <$> log_block_hash log; ne_parent_hash := None;
     ne_tx_index := log_transaction_index log; ne_log_index := Some log_index;
     ne_status := Observed; ne_lifecycle_state := Provisional; ne_requires_confirmation := true;
     ne_confirmation_depth := confirmation_depth; ne_ingest_latency_ms := None;
     ne_observed_at := now; ne_oracle_price := price; ne_reference_price := None;
     ne_metadata := metadata |}.
Definition oracle_metadata (binding_index : nat) (log : Log) (source : string) : gmap string Value :=
  let metadata := list_to_map
    [ ("oracle_address", VString (address_debug (log_address log))); ("source", VString source);
      ("binding_index", VInt (Z.of_nat binding_index)) ] in
  match extract_round_id log with
  | Some round_id => <["round_id" := VString (u256_debug round_id)]> metadata
  | None => metadata
  end.
Definition normalize_answer_updated_event (uuid : string) (now : DateTime) (chain_slug : string)
    (chain_id confirmation_depth : Z) (binding : ProtocolBinding) (log : Log) (price : f64)
    (source : string) (binding_index binding_count : nat) : outcome NormalizedEvent :=
  log_index ← u256_as_u64 (default 0 (log_log_index log));
  Ret (provisional_event uuid now (oracle_event_key chain_slug binding binding_count log log_index)
         OracleUpdate chain_slug chain_id confirmation_depth (pb_protocol binding)
         (pb_protocol_category binding) log log_index (Some price)
         (oracle_metadata binding_index log source)).
Definition flash_metadata `{!U256} (source_id protocol : string) (asset_pair_hint : option string)
    (decoded : DecodedFlashLoanLog) (source : string) : gmap string Value :=
  let metadata := list_to_map
    [ ("flash_loan.detected", VBool true); ("flash_loan.source_id", VString source_id);
      ("flash_loan.protocol", VString protocol);
      ("flash_loan.asset_address", VString (default "" (address_debug <$> asset_address decoded)));
      ("flash_loan.loan_amount_raw", VString (u256_to_string (loan_amount_raw decoded)));
      ("flash_loan.fee_raw", VOpt (fun fee => VString (u256_to_string fee)) (fee_raw decoded));
      ("flash_loan.borrower", VOpt (fun a => VString (address_debug a)) (borrower decoded));
      ("flash_loan.initiator", VOpt (fun a => VString (address_debug a)) (initiator decoded));
      ("flash_loan.detection_method", VString "event_signature");
      ("flash_loan.event_signature_source", VString source) ] in
  match asset_pair_hint with
  | Some hint => <["flash_loan.asset_pair_hint" := VString hint]> metadata
  | None => metadata
  end.
Definition normalize_flash_loan_candidate_event `{!U256} (uuid : string) (now : DateTime)
    (chain_slug : string) (chain_id confirmation_depth : Z) (source_id protocol : string)
    (protocol_category : ProtocolCategory) (asset_pair_hint : option string) (log : Log)
    (decoded : DecodedFlashLoanLog) (source : string) : outcome NormalizedEvent :=
  log_index ← u256_as_u64 (default 0 (log_log_index log));
  Ret (provisional_event uuid now (flash_event_key chain_slug protocol source_id log log_index)
         FlashLoanCandidate chain_slug chain_id confirmation_depth protocol protocol_category
         log log_index None (flash_metadata source_id protocol asset_pair_hint decoded source)).
End logs.
