(* ===== verification/EvmAdapter.v ===== *)
(** * The EVM adapter ([crates/ingestion/src/adapter.rs], [connector.rs], [mock.rs])

    The adapter polls the nodes of a chain for the logs of its oracles and
    flash-loan sources: rotating over the nodes when one fails, cutting the
    blocks and the addresses into requests, dropping the logs and the events it
    has seen.  [EvmChainConnector] turns a poll into one [UnifiedEvent].  What a
    node answers, the clock and the UUIDs are parameters, by the number of the
    interaction. *)
From S2P Require Import Prelude F64 Text Numbers Ports EventSchema FieldMapping Hex WorkerConfig EvmLogs.

(** [slice::chunks(n)] *)
Fixpoint list_chunks_fuel {A} (fuel n : nat) (l : list A) : list (list A) :=
  match fuel, l with
  | S fuel, _ :: _ => take n l :: list_chunks_fuel fuel n (drop n l)
  | _, _ => []
  end.
Definition list_chunks {A} (n : nat) (l : list A) : list (list A) := list_chunks_fuel (length l) n l.
Definition u32_max : Z := 2 ^ 32 - 1.
Definition sat_add_u64 (a b : Z) : Z := Z.min u64_max (a + b).
(** [HashMap::is_empty] *)
Definition map_is_empty {K} `{Countable K} {A} (m : gmap K A) : bool := (size m =? 0)%nat.
(** [HashSet::insert]: whether the element is new *)
Definition first_seen {K} `{Countable K} (k : K) (seen : gset K) : bool := negb (bool_decide (k ∈ seen)).

Section adapter.
Context `{Chrono} `{SerdeJson} `{!Powi} `{!U256} `{!EvmTypes} `{HashOrder}.

(** ** Data *)

Record RpcProviderStatus := {
  ps_endpoint : string;
  healthy : bool;
  consecutive_failures : Z;
  last_error : option string;
  last_success_at : option DateTime;
  last_failure_at : option DateTime
}.
(** the connection is named by its endpoint *)
Record RpcProviderClient := { endpoint : string; status : RpcProviderStatus }.
Record ProviderLog := { pl_log : Log; provider_index : nat }.
Record Filter := { f_addresses : list Address; f_topic0 : H256; f_from : Z; f_to : Z }.
Record FlashLoanSourceBinding := {
  fb_id : string;
  fb_protocol : string;
  fb_protocol_category : ProtocolCategory;
  fb_event_signature : string;
  event_topic0 : H256;
  fb_asset_pair_hint : option string
}.
Record EvmChainAdapter := {
  providers : list RpcProviderClient;
  ad_chain_slug : string;
  ad_chain_id : Z;
  confirmation_depth : Z;
  lookback_blocks : Z;
  filter_chunk_size : nat;
  log_block_range_size : Z;
  active_provider_index : nat;
  oracle_protocol_map : OracleProtocolMap;
  flash_loan_source_map : gmap Address (list FlashLoanSourceBinding);
  seen_event_keys : gset string
}.
Definition set_providers (ps : list RpcProviderClient) (active : nat) (a : EvmChainAdapter) : EvmChainAdapter :=
  {| providers := ps; ad_chain_slug := ad_chain_slug a; ad_chain_id := ad_chain_id a;
     confirmation_depth := confirmation_depth a; lookback_blocks := lookback_blocks a;
     filter_chunk_size := filter_chunk_size a; log_block_range_size := log_block_range_size a;
     active_provider_index := active; oracle_protocol_map := oracle_protocol_map a;
     flash_loan_source_map := flash_loan_source_map a; seen_event_keys := seen_event_keys a |}.
Definition set_seen (seen : gset string) (a : EvmChainAdapter) : EvmChainAdapter :=
  {| providers := providers a; ad_chain_slug := ad_chain_slug a; ad_chain_id := ad_chain_id a;
     confirmation_depth := confirmation_depth a; lookback_blocks := lookback_blocks a;
     filter_chunk_size := filter_chunk_size a; log_block_range_size := log_block_range_size a;
     active_provider_index := active_provider_index a; oracle_protocol_map := oracle_protocol_map a;
     flash_loan_source_map := flash_loan_source_map a; seen_event_keys := seen |}.

(** what the outside answers to the [n]-th interaction *)
Class ChainEnv := {
  ws_connect : nat -> string -> bool;
  rpc_block_number : nat -> string -> option Z;
  rpc_logs : nat -> string -> Filter -> option (list Log);
  env_now : nat -> DateTime;
  env_uuid : nat -> string
}.
Context `{!ChainEnv}.
Record World := { w_adapter : EvmChainAdapter; w_step : nat }.
Notation IO := (ST World).
Definition interact {A} (f : nat -> A) : IO A := fun w =>
  ({| w_adapter := w_adapter w; w_step := S (w_step w) |}, Ret (f (w_step w))).
Definition gets {A} (f : EvmChainAdapter -> A) : IO A := fun w => (w, Ret (f (w_adapter w))).
Definition modify (f : EvmChainAdapter -> EvmChainAdapter) : IO unit := fun w =>
  ({| w_adapter := f (w_adapter w); w_step := w_step w |}, Ret ()).

(** ** Construction *)

Definition default_confirmation_depth_for_chain (chain_slug : string) : Z :=
  if bool_decide (chain_slug = "base") then 64 else 3.
Definition dedupe_endpoints (ws_urls : list string) : list string :=
  foldl (fun endpoints url => if is_empty (trim url) then endpoints else push_new endpoints (trim url))
    [] ws_urls.
Definition connected_client (url : string) (now : DateTime) : RpcProviderClient :=
  {| endpoint := url;
     status := {| ps_endpoint := url; healthy := true; consecutive_failures := 0; last_error := None;
                  last_success_at := Some now; last_failure_at := None |} |}.
(** the connections, numbered from [n], and the errors of those that failed *)
Fixpoint connect_all (n : nat) (endpoints : list string)
  : nat * list RpcProviderClient * list string :=
  match endpoints with
  | [] => (n, [], [])
  | url :: endpoints =>
      if ws_connect n url then
        let '(m, clients, failures) := connect_all (S (S n)) endpoints in
        (m, connected_client url (env_now (S n)) :: clients, failures)
      else
        let '(m, clients, failures) := connect_all (S n) endpoints in
        (m, clients, ("failed to connect websocket endpoint " +:+ url) :: failures)
  end.
Definition new_with_urls (step : nat) (ws_urls : list string) (chain_slug : string) (chain_id : Z)
    (lookback : Z) (oracles : OracleProtocolMap) : outcome World :=
  match dedupe_endpoints ws_urls with
  | [] => Err ("at least one websocket endpoint is required for chain '" +:+ chain_slug +:+ "'")
  | endpoints =>
      match connect_all step endpoints with
      | (_, [], failures) =>
          Err ("failed to connect all rpc providers for chain '" +:+ chain_slug +:+ "': "
               +:+ String.concat " | " failures)
      | (step, clients, _) =>
          Ret {| w_adapter :=
                   {| providers := clients; ad_chain_slug := chain_slug; ad_chain_id := chain_id;
                      confirmation_depth := default_confirmation_depth_for_chain chain_slug;
                      lookback_blocks := lookback; filter_chunk_size := 250;
                      log_block_range_size := 10; active_provider_index := 0;
                      oracle_protocol_map := oracles; flash_loan_source_map := ∅;
                      seen_event_keys := ∅ |};
                 w_step := step |}
      end
  end.
Definition new (step : nat) (ws_url : string) : string -> Z -> Z -> OracleProtocolMap -> outcome World :=
  new_with_urls step [ws_url].
Definition with_confirmation_depth (depth : Z) (a : EvmChainAdapter) : EvmChainAdapter :=
  {| providers := providers a; ad_chain_slug := ad_chain_slug a; ad_chain_id := ad_chain_id a;
     confirmation_depth := Z.max depth 1; lookback_blocks := lookback_blocks a;
     filter_chunk_size := filter_chunk_size a; log_block_range_size := log_block_range_size a;
     active_provider_index := active_provider_index a; oracle_protocol_map := oracle_protocol_map a;
     flash_loan_source_map := flash_loan_source_map a; seen_event_keys := seen_event_keys a |}.
Definition with_filter_chunk_size (size : nat) (a : EvmChainAdapter) : EvmChainAdapter :=
  {| providers := providers a; ad_chain_slug := ad_chain_slug a; ad_chain_id := ad_chain_id a;
     confirmation_depth := confirmation_depth a; lookback_blocks := lookback_blocks a;
     filter_chunk_size := if (0 <? size)%nat then size else filter_chunk_size a;
     log_block_range_size := log_block_range_size a;
     active_provider_index := active_provider_index a; oracle_protocol_map := oracle_protocol_map a;
     flash_loan_source_map := flash_loan_source_map a; seen_event_keys := seen_event_keys a |}.
Definition with_log_block_range_size (size : Z) (a : EvmChainAdapter) : EvmChainAdapter :=
  {| providers := providers a; ad_chain_slug := ad_chain_slug a; ad_chain_id := ad_chain_id a;
     confirmation_depth := confirmation_depth a; lookback_blocks := lookback_blocks a;
     filter_chunk_size := filter_chunk_size a;
     log_block_range_size := if 0 <? size then size else log_block_range_size a;
     active_provider_index := active_provider_index a; oracle_protocol_map := oracle_protocol_map a;
     flash_loan_source_map := flash_loan_source_map a; seen_event_keys := seen_event_keys a |}.
Definition flash_binding (default_category : ProtocolCategory) (source : FlashLoanSourceConfig)
  : FlashLoanSourceBinding :=
  {| fb_id := fl_id source; fb_protocol := fl_protocol source;
     fb_protocol_category := match fl_protocol_category source with
                             | Some raw => parse_protocol_category raw
                             | None => default_category
                             end;
     fb_event_signature := fl_event_signature source;
     event_topic0 := event_topic_from_signature (fl_event_signature source);
     fb_asset_pair_hint := fl_asset_pair_hint source |}.
Definition add_flash_source (default_category : ProtocolCategory) (source : FlashLoanSourceConfig)
    (m : gmap Address (list FlashLoanSourceBinding)) : outcome (gmap Address (list FlashLoanSourceBinding)) :=
  if is_empty (trim (fl_id source)) || is_empty (trim (fl_protocol source))
     || is_empty (trim (fl_event_signature source)) then Ret m
  else match parse_oracle_addresses (fl_contract_addresses source) with
       | Err _ => Err ("invalid contract addresses for flash loan source '" +:+ fl_id source +:+ "'")
       | Panic => Panic
       | Ret addresses => Ret (foldl (push_entry (flash_binding default_category source)) m addresses)
       end.
Fixpoint flash_sources (default_category : ProtocolCategory) (sources : list FlashLoanSourceConfig)
    (m : gmap Address (list FlashLoanSourceBinding)) : outcome (gmap Address (list FlashLoanSourceBinding)) :=
  match sources with
  | [] => Ret m
  | source :: sources =>
      m ← (if fl_enabled source then add_flash_source default_category source m else Ret m);
      flash_sources default_category sources m
  end.
Definition with_flash_loan_sources (sources : list FlashLoanSourceConfig)
    (default_category : ProtocolCategory) (a : EvmChainAdapter) : outcome EvmChainAdapter :=
  m ← flash_sources default_category sources ∅;
  Ret {| providers := providers a; ad_chain_slug := ad_chain_slug a; ad_chain_id := ad_chain_id a;
         confirmation_depth := confirmation_depth a; lookback_blocks := lookback_blocks a;
         filter_chunk_size := filter_chunk_size a; log_block_range_size := log_block_range_size a;
         active_provider_index := active_provider_index a; oracle_protocol_map := oracle_protocol_map a;
         flash_loan_source_map := m; seen_event_keys := seen_event_keys a |}.

(** ** Nodes *)

Definition succeeded (now : DateTime) (c : RpcProviderClient) : RpcProviderClient :=
  {| endpoint := endpoint c;
     status := {| ps_endpoint := ps_endpoint (status c); healthy := true; consecutive_failures := 0;
                  last_error := None; last_success_at := Some now;
                  last_failure_at := last_failure_at (status c) |} |}.
Definition failed (now : DateTime) (error : string) (c : RpcProviderClient) : RpcProviderClient :=
  {| endpoint := endpoint c;
     status := {| ps_endpoint := ps_endpoint (status c); healthy := false;
                  consecutive_failures := Z.min u32_max (consecutive_failures (status c) + 1);
                  last_error := Some error; last_success_at := last_success_at (status c);
                  last_failure_at := Some now |} |}.
Definition mark_provider_success (idx : nat) : IO unit :=
  now ← interact env_now;
  modify (fun a => set_providers (alter (succeeded now) idx (providers a)) idx a).
Definition mark_provider_failure (idx : nat) (error : string) : IO unit :=
  now ← interact env_now;
  modify (fun a => set_providers (alter (failed now error) idx (providers a)) (active_provider_index a) a).
Definition bool_text (b : bool) : string := if b then "true" else "false".
Definition provider_line (idx : nat) (c : RpcProviderClient) : string :=
  "#" +:+ fmt_Z (Z.of_nat idx) +:+ " " +:+ endpoint c +:+ " healthy=" +:+ bool_text (healthy (status c))
  +:+ " failures=" +:+ fmt_Z (consecutive_failures (status c)).
Definition provider_status_summary (a : EvmChainAdapter) : string :=
  String.concat "; " (imap provider_line (providers a)).
Definition provider_statuses (a : EvmChainAdapter) : list RpcProviderStatus := status <$> providers a.
Definition all_failed (operation : string) (a : EvmChainAdapter) : string :=
  "all rpc providers failed " +:+ operation +:+ " for chain '" +:+ ad_chain_slug a
  +:+ "'; statuses: " +:+ provider_status_summary a.
(** the loop over the nodes, from the active one on *)
Fixpoint try_from {A} (operation : string) (call : nat -> string -> option A) (offsets : list nat)
  : IO (A * nat) :=
  match offsets with
  | [] => e ← gets (all_failed operation); lift (Err e)
  | offset :: offsets =>
      a ← gets id;
      let idx := ((active_provider_index a + offset) mod length (providers a))%nat in
      match providers a !! idx with
      | None => lift Panic
      | Some client =>
          answer ← interact (fun n => call n (endpoint client));
          match answer with
          | Some x => _ ← mark_provider_success idx; mret (x, idx)
          | None => _ ← mark_provider_failure idx (operation +:+ " request failed");
                    try_from operation call offsets
          end
      end
  end.
Definition with_failover {A} (operation : string) (call : nat -> string -> option A) : IO (A * nat) :=
  a ← gets id; try_from operation call (seq 0 (length (providers a))).
Definition get_block_number_with_failover : IO Z :=
  r ← with_failover "get_block_number" rpc_block_number; mret r.1.
Definition fetch_logs_with_failover (filter : Filter) : IO (list ProviderLog) :=
  r ← with_failover "get_logs" (fun n url => rpc_logs n url filter);
  mret ((fun log => {| pl_log := log; provider_index := r.2 |}) <$> r.1).

(** ** Ranges of blocks *)

(** the requests of a range for one topic, a chunk of addresses each *)
Definition fetch_topic (topic0 : H256) (from to : Z) (addresses : list Address) : IO (list ProviderLog) :=
  a ← gets id;
  for_each (fun logs chunk =>
      batch ← fetch_logs_with_failover
        {| f_addresses := chunk; f_topic0 := topic0; f_from := from; f_to := to |};
      mret (logs ++ batch))
    (list_chunks (Nat.max (filter_chunk_size a) 1) addresses) [].
Definition fetch_oracle_logs_in_range (from to : Z) : IO (list ProviderLog) :=
  a ← gets id;
  fetch_topic answer_updated_topic from to (hash_entries (oracle_protocol_map a)).*1.
Definition addresses_by_topic (a : EvmChainAdapter) : gmap H256 (list Address) :=
  foldl (fun m entry =>
      foldl (fun m b => <[event_topic0 b := push_new (default [] (m !! event_topic0 b)) entry.1]> m)
        m entry.2)
    ∅ (hash_entries (flash_loan_source_map a)).
Definition fetch_flash_logs_in_range (from to : Z) : IO (list ProviderLog) :=
  a ← gets id;
  if map_is_empty (flash_loan_source_map a) then mret []
  else for_each (fun logs entry => batch ← fetch_topic entry.1 from to entry.2; mret (logs ++ batch))
         (hash_entries (addresses_by_topic a)) [].
Definition provider_log_key (log : Log) : outcome (string * Z * Address * H256) :=
  log_index ← match log_log_index log with Some i => u256_as_u64 i | None => Ret u64_max end;
  Ret (default EmptyString (h256_debug <$> log_transaction_hash log), log_index, log_address log,
       default h256_zero (head (log_topics log))).
Fixpoint dedupe_from (seen : gset (string * Z * Address * H256)) (logs : list ProviderLog)
  : outcome (list ProviderLog) :=
  match logs with
  | [] => Ret []
  | entry :: logs =>
      key ← provider_log_key (pl_log entry);
      rest ← dedupe_from ({[key]} ∪ seen) logs;
      Ret (if first_seen key seen then entry :: rest else rest)
  end.
Definition dedupe_provider_logs : list ProviderLog -> outcome (list ProviderLog) := dedupe_from ∅.
(** the chunks of a range; every one takes at least one block *)
Fixpoint fetch_ranges (fuel : nat) (chunk_start end_ : Z) (logs : list ProviderLog)
  : IO (list ProviderLog) :=
  match fuel with
  | O => mret logs
  | S fuel =>
      if end_ <? chunk_start then mret logs
      else
        a ← gets id;
        let chunk_size := Z.max (log_block_range_size a) 1 in
        let chunk_end := Z.min (sat_add_u64 chunk_start (sat_sub chunk_size 1)) end_ in
        oracle ← fetch_oracle_logs_in_range chunk_start chunk_end;
        flash ← fetch_flash_logs_in_range chunk_start chunk_end;
        let logs := logs ++ oracle ++ flash in
        if chunk_end =? u64_max then mret logs
        else fetch_ranges fuel (sat_add_u64 chunk_end 1) end_ logs
  end.
Definition fetch_logs_in_range (from to : Z) : IO (list ProviderLog) :=
  logs ← fetch_ranges (Z.to_nat (to - from + 1)) from to [];
  lift (dedupe_provider_logs logs).
Definition fetch_recent_logs : IO (list ProviderLog) :=
  latest ← get_block_number_with_failover;
  a ← gets id; fetch_logs_in_range (sat_sub latest (lookback_blocks a)) latest.

(** ** Events *)

(** an event with the node it came from; [None] when its key was seen *)
Definition with_provider (idx : nat) (endpoint : string) (extra : list (string * Value))
    (e : NormalizedEvent) : NormalizedEvent :=
  {| ne_event_id := ne_event_id e; ne_event_key := ne_event_key e; ne_event_type := ne_event_type e;
     ne_tenant_id := ne_tenant_id e; ne_chain := ne_chain e; ne_chain_slug := ne_chain_slug e;
     ne_protocol := ne_protocol e; ne_protocol_category := ne_protocol_category e;
     ne_chain_id := ne_chain_id e; ne_tx_hash := ne_tx_hash e; ne_block_number := ne_block_number e;
     ne_block_hash := ne_block_hash e; ne_parent_hash := ne_parent_hash e;
     ne_tx_index := ne_tx_index e; ne_log_index := ne_log_index e; ne_status := ne_status e;
     ne_lifecycle_state := ne_lifecycle_state e;
     ne_requires_confirmation := ne_requires_confirmation e;
     ne_confirmation_depth := ne_confirmation_depth e;
     ne_ingest_latency_ms := ne_ingest_latency_ms e; ne_observed_at := ne_observed_at e;
     ne_oracle_price := ne_oracle_price e; ne_reference_price := ne_reference_price e;
     ne_metadata :=
       list_to_map extra ∪ <["rpc_provider_endpoint" := VString endpoint]>
         (<["rpc_provider_index" := VInt (Z.of_nat idx)]> (ne_metadata e)) |}.
Definition provider_endpoint (a : EvmChainAdapter) (idx : nat) : string :=
  default "unknown" (endpoint <$> providers a !! idx).
Definition admit_event (dedupe : bool) (e : NormalizedEvent) : IO (list NormalizedEvent) :=
  if dedupe then
    seen ← gets seen_event_keys;
    _ ← modify (set_seen ({[ne_event_key e]} ∪ seen));
    mret (if first_seen (ne_event_key e) seen then [e] else [])
  else mret [e].
Definition decode_oracle_binding (source : string) (dedupe : bool) (entry : ProviderLog)
    (raw_answer : Z) (count : nat) (indexed : nat * ProtocolBinding) : IO (list NormalizedEvent) :=
  a ← gets id;
  let binding := indexed.2 in
  uuid ← interact env_uuid; now ← interact env_now;
  event ← lift (normalize_answer_updated_event uuid now (ad_chain_slug a) (ad_chain_id a)
                  (confirmation_depth a) binding (pl_log entry)
                  (scale_answer raw_answer (oracle_decimals binding)) source indexed.1 count);
  admit_event dedupe
    (with_provider (provider_index entry) (provider_endpoint a (provider_index entry)) [] event).
Definition decode_flash_binding (source : string) (dedupe : bool) (entry : ProviderLog)
    (binding : FlashLoanSourceBinding) : IO (list NormalizedEvent) :=
  a ← gets id;
  match decode_flash_loan_log (fb_protocol binding) (pl_log entry) with
  | None => mret []
  | Some decoded =>
      uuid ← interact env_uuid; now ← interact env_now;
      event ← lift (normalize_flash_loan_candidate_event uuid now (ad_chain_slug a) (ad_chain_id a)
                      (confirmation_depth a) (fb_id binding) (fb_protocol binding)
                      (fb_protocol_category binding) (fb_asset_pair_hint binding) (pl_log entry)
                      decoded source);
      admit_event dedupe
        (with_provider (provider_index entry) (provider_endpoint a (provider_index entry))
           [("flash_loan.event_signature", VString (fb_event_signature binding))] event)
  end.
(** [for x in l { .. events.push(..) }] *)
Definition gather {A B} (f : A -> IO (list B)) (l : list A) : IO (list B) :=
  for_each (fun events x => new ← f x; mret (events ++ new)) l [].
(** the oracle bindings a log is decoded under, with its answer *)
Definition oracle_bindings (a : EvmChainAdapter) (log : Log) : option (Z * list ProtocolBinding) :=
  if bool_decide (head (log_topics log) = Some answer_updated_topic) then
    bindings ← oracle_protocol_map a !! log_address log;
    raw_answer ← decode_answer_updated_raw log; Some (raw_answer, bindings)
  else None.
Definition flash_bindings (a : EvmChainAdapter) (log : Log) : list FlashLoanSourceBinding :=
  match head (log_topics log) with
  | Some topic0 => filter (fun b => event_topic0 b = topic0)
                     (default [] (flash_loan_source_map a !! log_address log))
  | None => []
  end.
Definition decode_log (source : string) (dedupe : bool) (entry : ProviderLog)
  : IO (list NormalizedEvent) :=
  a ← gets id;
  oracle ← match oracle_bindings a (pl_log entry) with
           | Some (raw_answer, bindings) =>
               gather (decode_oracle_binding source dedupe entry raw_answer (length bindings))
                 (imap pair bindings)
           | None => mret []
           end;
  flash ← gather (decode_flash_binding source dedupe entry) (flash_bindings a (pl_log entry));
  mret (oracle ++ flash).
Definition decode_logs (logs : list ProviderLog) (source : string) (dedupe_on_event_key : bool)
  : IO (list NormalizedEvent) :=
  gather (decode_log source dedupe_on_event_key) logs.

(** ** [ChainAdapter] *)

Definition no_sources (a : EvmChainAdapter) : bool :=
  map_is_empty (oracle_protocol_map a) && map_is_empty (flash_loan_source_map a).
Definition next_events : IO (list NormalizedEvent) :=
  a ← gets id;
  if no_sources a then mret []
  else
    batch ← fetch_recent_logs;
    match batch with
    | [] => mret []
    | _ => decode_logs batch "chain_adapter_evm_live" true
    end.
Definition backfill_range (from_block to_block : Z) : IO (list NormalizedEvent) :=
  if to_block <? from_block then mret []
  else
    batch ← fetch_logs_in_range from_block to_block;
    decode_logs batch "chain_adapter_evm_backfill" false.
Definition latest_block_number : IO (option Z) :=
  n ← get_block_number_with_failover; mret (Some n).
(** only logs, but reads the endpoint of the active node *)
Definition subscribe : IO unit :=
  a ← gets id;
  match providers a !! active_provider_index a with Some _ => mret () | None => lift Panic end.

(** ** [EvmChainConnector] *)

(** the derived codec of an event, and [{:?}] of its type in lower case *)
Class EventCodec := { event_to_value : NormalizedEvent -> outcome Value }.
Context `{!EventCodec}.
Definition event_type_lower (t : EventSchema.EventType) : string :=
  match t with
  | OracleUpdate => "oracleupdate" | FlashLoanCandidate => "flashloancandidate"
  | ProtocolState => "protocolstate" | ProtocolPause => "protocolpause"
  end.
Record EvmChainConnector := { co_tenant_id : string; co_source_id : string; co_healthy : bool }.
Definition connector_new (tenant_id source_id : string) : EvmChainConnector :=
  {| co_tenant_id := tenant_id; co_source_id := source_id; co_healthy := true |}.
Definition unified_event (c : EvmChainConnector) (event : NormalizedEvent) : outcome UnifiedEvent :=
  payload ← event_to_value event;
  Ret {| event_id := ne_event_id event; tenant_id := co_tenant_id c; source_id := co_source_id c;
         source_type := EvmChain; event_type := event_type_lower (ne_event_type event);
         timestamp := ne_observed_at event; payload := payload;
         chain_id := wrap_i64 <$> ne_chain_id event;
         block_number := Some (wrap_i64 (ne_block_number event));
         tx_hash := Some (ne_tx_hash event); market_key := None; price := ne_oracle_price event |}.
Definition next_event (c : EvmChainConnector) : IO UnifiedEvent :=
  events ← next_events;
  match events with
  | [] => lift (Err "no events from EVM adapter yet")
  | event :: _ => lift (unified_event c event)
  end.

(** ** [EvmMockAdapter] *)

Record MockProtocol := {
  mp_protocol : string; mp_category : ProtocolCategory; mp_oracle_price : f64; mp_reference_price : f64
}.
Record EvmMockAdapter := {
  mk_chain_slug : string; mk_chain_id : Z; mk_confirmation_depth : Z;
  mk_protocols : list MockProtocol; mk_tick : Z
}.
Definition mock_new (chain_slug : string) (chain_id : Z) (protocols : list MockProtocol) : EvmMockAdapter :=
  {| mk_chain_slug := chain_slug; mk_chain_id := chain_id;
     mk_confirmation_depth := default_confirmation_depth_for_chain chain_slug;
     mk_protocols := protocols; mk_tick := 0 |}.
(** [{:02}] of a number *)
Definition two_digits (n : nat) : string :=
  if (n <? 10)%nat then "0" +:+ fmt_Z (Z.of_nat n) else fmt_Z (Z.of_nat n).
Definition mock_block (tick : Z) (idx : nat) : Z := wrap_u64 (19000000 + tick + Z.of_nat idx).
Definition mock_tx_hash (slug : string) (idx : nat) : string :=
  "0x" +:+ slug +:+ "mocktx" +:+ two_digits idx.
Definition mock_event (m : EvmMockAdapter) (uuid : string) (now : DateTime) (idx : nat)
    (p : MockProtocol) : NormalizedEvent :=
  let slug := mk_chain_slug m in
  let block := mock_block (mk_tick m) idx in
  {| ne_event_id := uuid;
     ne_event_key := slug +:+ ":" +:+ fmt_Z block +:+ ":" +:+ mock_tx_hash slug idx +:+ ":"
                     +:+ fmt_Z (mk_tick m);
     ne_event_type := OracleUpdate; ne_tenant_id := None; ne_chain := chain_from_slug slug;
     ne_chain_slug := slug; ne_protocol := mp_protocol p; ne_protocol_category := mp_category p;
     ne_chain_id := Some (mk_chain_id m); ne_tx_hash := mock_tx_hash slug idx;
     ne_block_number := block; ne_block_hash := None; ne_parent_hash := None; ne_tx_index := Some 0;
     ne_log_index := Some 0; ne_status := Observed; ne_lifecycle_state := Provisional;
     ne_requires_confirmation := true; ne_confirmation_depth := mk_confirmation_depth m;
     ne_ingest_latency_ms := Some 25; ne_observed_at := now;
     ne_oracle_price := Some (mp_oracle_price p); ne_reference_price := Some (mp_reference_price p);
     ne_metadata := list_to_map [ ("oracle_pair", VString "ETH/USD");
       ("source", VString "chain_adapter_evm_mock"); ("mock_tick", VInt (mk_tick m)) ] |}.
Definition mock_next_events (step : nat) (m : EvmMockAdapter) : EvmMockAdapter * list NormalizedEvent :=
  ({| mk_chain_slug := mk_chain_slug m; mk_chain_id := mk_chain_id m;
      mk_confirmation_depth := mk_confirmation_depth m; mk_protocols := mk_protocols m;
      mk_tick := sat_add_u64 (mk_tick m) 1 |},
   imap (fun idx p => mock_event m (env_uuid (step + 2 * idx)) (env_now (step + 2 * idx + 1)) idx p)
     (mk_protocols m)).
End adapter.
