(* ===== verification/EvmAdapterProofs.v ===== *)
(** * The EVM adapter: theorems

    How a request moves over the nodes, that a poll finds exactly the watched
    logs of its blocks, and what becomes of the events of a poll. *)
From S2P Require Import Prelude F64 Text Numbers Ports EventSchema FieldMapping Hex WorkerConfig EvmLogs EvmAdapter.

(** ** Chunks of a list *)

Lemma concat_list_chunks_fuel {A} fuel n (l : list A) : (0 < n)%nat -> (length l <= fuel)%nat ->
  mjoin (list_chunks_fuel fuel n l) = l.
Proof.
  intros Hn. revert l. induction fuel as [|fuel IH]; intros [|x l] Hl; simpl in *; [done|lia|done|].
  rewrite IH; [by rewrite take_drop|]. rewrite length_drop. simpl. lia.
Qed.
Lemma concat_list_chunks {A} n (l : list A) : (0 < n)%nat -> mjoin (list_chunks n l) = l.
Proof. intros Hn. by apply concat_list_chunks_fuel. Qed.
Lemma elem_of_list_chunks {A} n (l : list A) x : (0 < n)%nat ->
  x ∈ l <-> exists chunk, x ∈ chunk /\ chunk ∈ list_chunks n l.
Proof. intros Hn. rewrite <- (concat_list_chunks n l) at 1 by done. apply list_elem_of_join. Qed.

Section proofs.
Context `{Chrono} `{SerdeJson} `{!Powi} `{!U256} `{!EvmTypes} `{HashOrder} `{!ChainEnv}.
Implicit Types (a : EvmChainAdapter) (w : World).

Lemma exists_cons {A} (P : A -> Prop) x xs :
  (exists y, y ∈ x :: xs /\ P y) <-> P x \/ exists y, y ∈ xs /\ P y.
Proof. setoid_rewrite elem_of_cons. naive_solver. Qed.
Lemma world_eq a a' s s' : a = a' -> s = s' ->
  {| w_adapter := a; w_step := s |} = {| w_adapter := a'; w_step := s' |}.
Proof. by intros -> ->. Qed.

(** ** Rotation over the nodes *)

(** the adapter has nodes, and one of them is active *)
Definition ready a : Prop := (active_provider_index a < length (providers a))%nat.
(** the [o]-th node tried *)
Definition node a (o : nat) : nat := ((active_provider_index a + o) mod length (providers a))%nat.
Lemma node_lt a o : ready a -> (node a o < length (providers a))%nat.
Proof. unfold ready, node. intros. apply Nat.mod_upper_bound. lia. Qed.
Lemma node_inj a i j : ready a -> (i < length (providers a))%nat -> (j < length (providers a))%nat ->
  node a i = node a j -> i = j.
Proof.
  unfold ready, node. set (n := length (providers a)). set (k := active_provider_index a). intros Hk Hi Hj He.
  assert (Hm : forall x, (x < n)%nat -> ((k + x) mod n = if decide (k + x < n) then k + x else k + x - n)%nat).
  { intros x Hx. case_decide; [by apply Nat.mod_small|].
    replace (k + x)%nat with (k + x - n + 1 * n)%nat at 1 by lia.
    rewrite Nat.Div0.mod_add. apply Nat.mod_small. lia. }
  rewrite !Hm in He by done. repeat case_decide; lia.
Qed.

Section failover.
Context {A : Type} (operation : string) (call : nat -> string -> option A) (w0 : World).
#[local] Notation a0 := (w_adapter w0).
#[local] Notation n := (length (providers a0)).
(** what the [o]-th node tried answers *)
Definition answer (o : nat) : option A :=
  client ← providers a0 !! node a0 o; call (w_step w0 + 2 * o)%nat (endpoint client).
Definition tried_at (o : nat) : DateTime := env_now (w_step w0 + 2 * o + 1)%nat.
(** the nodes after [k] of them failed *)
Fixpoint after_failures (k : nat) : list RpcProviderClient :=
  match k with
  | O => providers a0
  | S k => alter (failed (tried_at k) (operation +:+ " request failed")) (node a0 k) (after_failures k)
  end.
Definition world_after (k : nat) : World :=
  {| w_adapter := set_providers (after_failures k) (active_provider_index a0) a0;
     w_step := (w_step w0 + 2 * k)%nat |}.
Lemma length_after_failures k : length (after_failures k) = n.
Proof. induction k; simpl; [done|]. by rewrite length_alter. Qed.
Lemma lookup_after_failures k o : ready a0 -> (k <= n)%nat -> (o < n)%nat ->
  after_failures k !! node a0 o =
  (if decide (o < k)%nat then failed (tried_at o) (operation +:+ " request failed") else id)
    <$> providers a0 !! node a0 o.
Proof.
  intros Hr Hk Ho. induction k as [|k IH]; simpl; [by destruct (_ !! _)|].
  destruct (decide (o = k)) as [->|Hne].
  - rewrite list_lookup_alter_eq, IH by lia. repeat case_decide; try lia. by destruct (providers _ !! _).
  - rewrite list_lookup_alter_ne, IH; [..|intros He; apply node_inj in He; [done..|lia|done]]; try lia.
    repeat case_decide; try lia; done.
Qed.
Lemma endpoints_after_failures k : endpoint <$> after_failures k = endpoint <$> providers a0.
Proof.
  induction k as [|k IH]; simpl; [done|]. rewrite <- IH. apply list_eq. intros i.
  rewrite !list_lookup_fmap. destruct (decide (i = node a0 k)) as [->|Hne].
  - rewrite list_lookup_alter_eq. by destruct (after_failures k !! _).
  - by rewrite list_lookup_alter_ne.
Qed.
Lemma try_from_run k m : ready a0 -> (k + m = n)%nat ->
  try_from operation call (seq k m) (world_after k) =
  match find_map (fun o => pair o <$> answer o) (seq k m) with
  | Some (i, x) =>
      ({| w_adapter := set_providers (alter (succeeded (tried_at i)) (node a0 i) (after_failures i)) (node a0 i) a0;
          w_step := (w_step w0 + 2 * i + 2)%nat |}, Ret (x, node a0 i))
  | None => (world_after n, Err (all_failed operation (w_adapter (world_after n))))
  end.
Proof.
  intros Hr. revert k. induction m as [|m IH]; intros k Hk.
  - simpl. replace k with n by lia. done.
  - cbn [try_from seq find_map]. unfold mbind at 1, st_bind at 1. unfold gets at 1.
    change (providers (id (w_adapter (world_after k)))) with (after_failures k).
    rewrite length_after_failures.
    change ((active_provider_index (id (w_adapter (world_after k))) + k) mod n)%nat with (node a0 k).
    pose proof (lookup_after_failures k k Hr ltac:(lia) ltac:(lia)) as Hl.
    rewrite decide_False in Hl by lia. rewrite Hl. unfold answer at 1.
    destruct (lookup_lt_is_Some_2 (providers a0) (node a0 k) (node_lt a0 k Hr)) as [client Hc].
    rewrite Hc. cbn [fmap option_fmap option_map id mbind option_bind].
    unfold mbind at 1, st_bind at 1, interact at 1. cbn [world_after w_step].
    destruct (call (w_step w0 + 2 * k)%nat (endpoint client)) as [x|] eqn:Hx; simpl.
    + unfold mbind, st_bind, mark_provider_success, interact, modify. simpl.
      unfold tried_at. replace (w_step w0 + 2 * k + 1)%nat with (S (w_step w0 + 2 * k)) by lia.
      unfold mret, st_ret. apply f_equal2; [|done]. apply world_eq; [done|lia].
    + unfold mbind at 1, st_bind at 1, mark_provider_failure. unfold mbind at 1, st_bind at 1, interact, modify.
      refine (eq_trans (f_equal (try_from operation call (seq (S k) m)) _) (IH (S k) ltac:(lia))).
      apply world_eq; [|simpl; lia]. cbn [after_failures]. unfold tried_at.
      replace (w_step w0 + 2 * k + 1)%nat with (S (w_step w0 + 2 * k)) by lia. done.
Qed.
End failover.
(** the first of the first [m] nodes tried that answers *)
Lemma find_first_answer {B} (f : nat -> option B) k m :
  match find_map (fun o => pair o <$> f o) (seq k m) with
  | Some (i, x) => (k <= i < k + m)%nat /\ f i = Some x /\ forall o, (k <= o < i)%nat -> f o = None
  | None => forall o, (k <= o < k + m)%nat -> f o = None
  end.
Proof.
  revert k. induction m as [|m IH]; intros k; cbn [seq find_map]; [intros; lia|].
  destruct (f k) as [x|] eqn:Hf; simpl; [split_and!; [lia|lia|done|intros; lia]|].
  specialize (IH (S k)). destruct (find_map _ _) as [[i y]|].
  - destruct IH as (Hi & Hx & Hn). split_and!; [lia|lia|done|]. intros o Ho.
    destruct (decide (o = k)) as [->|]; [done|]. apply Hn. lia.
  - intros o Ho. destruct (decide (o = k)) as [->|]; [done|]. apply IH. lia.
Qed.

(** what an answer at [t] makes of a node, and what a failure does *)
Definition seen_healthy (t : DateTime) (c c' : RpcProviderClient) : Prop :=
  endpoint c' = endpoint c /\ ps_endpoint (status c') = ps_endpoint (status c) /\
  healthy (status c') = true /\ consecutive_failures (status c') = 0 /\
  last_error (status c') = None /\ last_success_at (status c') = Some t /\
  last_failure_at (status c') = last_failure_at (status c).
Definition seen_failing (t : DateTime) (why : string) (c c' : RpcProviderClient) : Prop :=
  endpoint c' = endpoint c /\ ps_endpoint (status c') = ps_endpoint (status c) /\
  healthy (status c') = false /\
  consecutive_failures (status c') = Z.min u32_max (consecutive_failures (status c) + 1) /\
  last_error (status c') = Some why /\ last_success_at (status c') = last_success_at (status c) /\
  last_failure_at (status c') = Some t.
Lemma succeeded_seen t c : seen_healthy t c (succeeded t c).
Proof. by split_and!. Qed.
Lemma failed_seen t why c : seen_failing t why c (failed t why c).
Proof. by split_and!. Qed.
#[local] Hint Resolve succeeded_seen failed_seen : core.

(** the [o]-th node tried before and after *)
Definition node_becomes a a' (o : nat) (R : RpcProviderClient -> RpcProviderClient -> Prop) : Prop :=
  exists c c', providers a !! node a o = Some c /\ providers a' !! node a o = Some c' /\ R c c'.
Lemma node_becomes_fmap a a' o f (R : RpcProviderClient -> RpcProviderClient -> Prop) : ready a ->
  providers a' !! node a o = f <$> providers a !! node a o -> (forall c, R c (f c)) -> node_becomes a a' o R.
Proof.
  intros Hr He Hf. destruct (lookup_lt_is_Some_2 (providers a) (node a o) (node_lt a o Hr)) as [c Hc].
  rewrite Hc in He. by exists c, (f c).
Qed.

(** C37: A request moves over the nodes in turn.  It goes to the active node and,
    while a node fails, to the next one round; the first that answers is active
    from then on, marked healthy with its count of failures reset, those that
    failed before it are marked so, with one failure more, and the others are left
    as they were.  When all have failed, all are marked, the active node stays the
    same and the request ends with the error that says so.  Nothing else of the
    adapter changes. *)
Theorem failover_rotates {A} operation (call : nat -> string -> option A) w : ready (w_adapter w) ->
  let a := w_adapter w in
  let n := length (providers a) in
  let why := operation +:+ " request failed" in
  let '(w', r) := with_failover operation call w in
  let a' := w_adapter w' in
  a' = set_providers (providers a') (active_provider_index a') a /\
  ((exists i x, (i < n)%nat /\ answer call w i = Some x /\ (forall o, (o < i)%nat -> answer call w o = None) /\
      r = Ret (x, node a i) /\ active_provider_index a' = node a i /\
      (forall o, (o < i)%nat -> node_becomes a a' o (seen_failing (tried_at w o) why)) /\
      node_becomes a a' i (seen_healthy (tried_at w i)) /\
      (forall o, (i < o < n)%nat -> node_becomes a a' o eq))
   \/ (forall o, (o < n)%nat -> answer call w o = None) /\
      r = Err (all_failed operation a') /\
      active_provider_index a' = active_provider_index a /\
      (forall o, (o < n)%nat -> node_becomes a a' o (seen_failing (tried_at w o) why))).
Proof.
  intros Hr a n why. unfold with_failover, mbind, st_bind, gets. simpl.
  pose proof (try_from_run operation call w 0 n Hr (Nat.add_0_l n)) as Ht.
  assert (H0' : world_after operation w 0 = w).
  { unfold world_after. simpl. destruct w as [b s]. simpl. apply world_eq; [by destruct b|lia]. }
  rewrite H0' in Ht. fold a. fold n. rewrite Ht.
  pose proof (find_first_answer (answer call w) 0 n) as Hf.
  assert (Hl : forall k o, (k <= n)%nat -> (o < n)%nat -> after_failures operation w k !! node a o =
    (if decide (o < k)%nat then failed (tried_at w o) why else id) <$> providers a !! node a o)
    by (intros k o Hk Ho; by apply lookup_after_failures).
  destruct (find_map _ _) as [[i x]|].
  - destruct Hf as (Hi & Hx & Hn). simpl. split; [done|]. left. exists i, x.
    assert (Hne : forall o, (o < n)%nat -> o <> i -> node a i <> node a o)
      by (intros o Ho Hne He; apply Hne, eq_sym, (node_inj a i o); [done|lia|done|done]).
    split_and!; [lia|done|intros; apply Hn; lia|done|done| | |].
    + intros o Ho. apply (node_becomes_fmap _ _ _ (failed (tried_at w o) why)); [done| |done].
      cbn. rewrite list_lookup_alter_ne by (apply Hne; lia).
      rewrite Hl by lia. by rewrite decide_True by lia.
    + apply (node_becomes_fmap _ _ _ (succeeded (tried_at w i))); [done| |done].
      cbn. rewrite list_lookup_alter_eq, Hl by lia. rewrite decide_False by lia. by destruct (providers _ !! _).
    + intros o Ho. apply (node_becomes_fmap _ _ _ id); [done| |done].
      cbn. rewrite list_lookup_alter_ne by (apply Hne; lia).
      rewrite Hl by lia. by rewrite decide_False by lia.
  - simpl. split; [done|]. right. split_and!; [intros; apply Hf; lia|done|done|].
    intros o Ho. apply (node_becomes_fmap _ _ _ (failed (tried_at w o) why)); [done| |done].
    cbn. rewrite Hl by (done || lia). by rewrite decide_True by done.
Qed.

(** ** What requests leave alone *)

(** the same adapter, but for which node is active and how the nodes are doing *)
Definition kept a a' : Prop := exists ps i, a' = set_providers ps i a /\
  endpoint <$> ps = endpoint <$> providers a /\ (i < length ps)%nat.
Lemma kept_refl a : ready a -> kept a a.
Proof. intros Hr. exists (providers a), (active_provider_index a). by destruct a. Qed.
Lemma kept_trans a a' a'' : kept a a' -> kept a' a'' -> kept a a''.
Proof.
  intros (ps & i & -> & Hps & Hi) (ps' & i' & -> & Hps' & Hi'). exists ps', i'.
  split_and!; [done| |done]. by rewrite Hps'.
Qed.
Lemma kept_ready a a' : kept a a' -> ready a'.
Proof. by intros (ps & i & -> & _ & Hi). Qed.
Lemma kept_endpoints a a' : kept a a' -> endpoint <$> providers a' = endpoint <$> providers a.
Proof. by intros (ps & i & -> & Hps & _). Qed.
Lemma kept_fields a a' : kept a a' ->
  filter_chunk_size a' = filter_chunk_size a /\ log_block_range_size a' = log_block_range_size a /\
  oracle_protocol_map a' = oracle_protocol_map a /\ flash_loan_source_map a' = flash_loan_source_map a /\
  seen_event_keys a' = seen_event_keys a /\ lookback_blocks a' = lookback_blocks a.
Proof. by intros (ps & i & -> & _ & _). Qed.
Lemma failover_kept {A} operation (call : nat -> string -> option A) w : ready (w_adapter w) ->
  let '(w', r) := with_failover operation call w in
  kept (w_adapter w) (w_adapter w') /\
  match r with
  | Ret (x, _) => exists n url, call n url = Some x
  | Err _ => forall url, url ∈ endpoint <$> providers (w_adapter w) -> exists n, call n url = None
  | Panic => False
  end.
Proof.
  intros Hr. set (a := w_adapter w). set (n := length (providers a)).
  unfold with_failover, mbind, st_bind, gets. simpl.
  pose proof (try_from_run operation call w 0 n Hr (Nat.add_0_l n)) as Ht.
  assert (H0' : world_after operation w 0 = w).
  { unfold world_after. simpl. destruct w as [b s]. simpl. apply world_eq; [by destruct b|lia]. }
  rewrite H0' in Ht. fold a. fold n. rewrite Ht.
  pose proof (find_first_answer (answer call w) 0 n) as Hf.
  destruct (find_map _ _) as [[i x]|]; simpl.
  - destruct Hf as (Hi & Hx & _). split.
    + eexists _, _. split_and!; [done| |].
      * etrans; [|exact (endpoints_after_failures operation w i)]. apply list_eq. intros j. rewrite !list_lookup_fmap.
        destruct (decide (j = node a i)) as [->|Hne].
        -- rewrite list_lookup_alter_eq. by destruct (after_failures operation w i !! _).
        -- by rewrite list_lookup_alter_ne.
      * rewrite length_alter, length_after_failures. by apply node_lt.
    + unfold answer in Hx. destruct (providers (w_adapter w) !! _) as [client|]; [|done]. by eexists _, _.
  - split.
    + eexists _, _. split_and!; [done|apply endpoints_after_failures|]. by rewrite length_after_failures.
    + intros url Hurl. apply list_elem_of_fmap in Hurl as (client & -> & Hin).
      apply list_elem_of_lookup in Hin as [j Hj]. pose proof (lookup_lt_Some _ _ _ Hj) as Hlt.
      set (o := ((j + n - active_provider_index a) mod n)%nat).
      assert (Hn : (0 < n)%nat) by lia. assert (Ho : (o < n)%nat) by (apply Nat.mod_upper_bound; lia).
      assert (Hno : node a o = j).
      { unfold node, o. fold n. rewrite Nat.Div0.add_mod_idemp_r. unfold ready in Hr. fold a in Hr.
        replace (active_provider_index a + (j + n - active_provider_index a))%nat with (j + 1 * n)%nat
          by (fold n in Hr; lia). rewrite Nat.Div0.mod_add. apply Nat.mod_small. done. }
      specialize (Hf o ltac:(lia)). unfold answer in Hf. fold a in Hf. rewrite Hno, Hj in Hf. by eexists.
Qed.

(** ** What a range of blocks is asked for *)

Definition block_within (from to : Z) (l : Log) : Prop :=
  exists b, log_block_number l = Some b /\ from <= b <= to.
#[global] Instance block_within_dec from to l : Decision (block_within from to l).
Proof.
  unfold block_within. destruct (log_block_number l) as [b|].
  - destruct (decide (from <= b <= to)) as [Hb|Hb]; [left; by exists b|right; by intros (? & [= <-] & ?)].
  - right. by intros (? & ? & ?).
Defined.
(** the logs [eth_getLogs] returns under a filter *)
Definition matches (f : Filter) (l : Log) : Prop :=
  block_within (f_from f) (f_to f) l /\ log_address l ∈ f_addresses f /\
  head (log_topics l) = Some (f_topic0 f).
#[global] Instance matches_dec f l : Decision (matches f l).
Proof. unfold matches. apply _. Defined.
(** the logs the adapter is there for *)
Definition watched a (l : Log) : Prop :=
  (head (log_topics l) = Some answer_updated_topic /\ is_Some (oracle_protocol_map a !! log_address l)) \/
  exists b, b ∈ default [] (flash_loan_source_map a !! log_address l) /\
            head (log_topics l) = Some (event_topic0 b).
#[global] Instance watched_dec a l : Decision (watched a l).
Proof.
  unfold watched. apply or_dec; [apply _|].
  destruct (decide (Exists (fun b => head (log_topics l) = Some (event_topic0 b))
    (default [] (flash_loan_source_map a !! log_address l)))) as [Hex|Hex]; rewrite Exists_exists in Hex; [by left|by right].
Defined.

Section ranges.
Context (a0 : EvmChainAdapter) (chain : list Log).
(** nodes that answer a request answer it with the logs of the chain *)
Definition faithful : Prop := forall n url f ls, rpc_logs n url f = Some ls ->
  forall l, l ∈ ls <-> l ∈ chain /\ matches f l.
(** one of the nodes always answers *)
Definition reliable : Prop := exists url, url ∈ endpoint <$> providers a0 /\
  (forall n f, is_Some (rpc_logs n url f)) /\ forall n, is_Some (rpc_block_number n url).
(** requests that return the logs [P] of the chain, or fail at every node *)
Definition fetches (P : Log -> Prop) (m : ST World (list ProviderLog)) : Prop :=
  forall w, kept a0 (w_adapter w) ->
    match m w with
    | (w', Ret logs) => kept a0 (w_adapter w') /\ forall l, l ∈ pl_log <$> logs <-> l ∈ chain /\ P l
    | (w', Err _) => kept a0 (w_adapter w') /\ ~ reliable
    | (_, Panic) => False
    end.
Hypothesis Hnode : faithful.
Lemma fetches_iff (P Q : Log -> Prop) m : (forall l, P l <-> Q l) -> fetches P m -> fetches Q m.
Proof.
  intros HPQ Hm w Hw. specialize (Hm w Hw). destruct (m w) as [w' [logs|e|]]; [|done..].
  destruct Hm as [Hk Hl]. split; [done|]. intros l. by rewrite Hl, HPQ.
Qed.
Lemma fetches_gets P m : (forall a, kept a0 a -> fetches P (m a)) -> fetches P (a ← gets id; m a).
Proof. intros Hm w Hw. by apply Hm. Qed.
Lemma fetches_ret logs P : (forall l, l ∈ pl_log <$> logs <-> l ∈ chain /\ P l) -> fetches P (mret logs).
Proof. intros Hl w Hw. by split. Qed.
Lemma fetches_then P R m f : fetches P m ->
  (forall logs, (forall l, l ∈ pl_log <$> logs <-> l ∈ chain /\ P l) -> fetches R (f logs)) ->
  fetches R (logs ← m; f logs).
Proof.
  intros Hm Hf w Hw. unfold mbind, st_bind. specialize (Hm w Hw).
  destruct (m w) as [w1 [logs|e|]]; [|done..]. destruct Hm as [Hk Hl]. exact (Hf logs Hl w1 Hk).
Qed.
Lemma fetches_each {A} (P : A -> Log -> Prop) (f : A -> ST World (list ProviderLog)) (Q : Log -> Prop) xs logs :
  (forall x, x ∈ xs -> fetches (P x) (f x)) -> (forall l, l ∈ pl_log <$> logs <-> l ∈ chain /\ Q l) ->
  fetches (fun l => Q l \/ exists x, x ∈ xs /\ P x l)
    (for_each (fun logs x => batch ← f x; mret (logs ++ batch)) xs logs).
Proof.
  revert Q logs. induction xs as [|x xs IH]; intros Q logs Hf Hl; cbn [for_each].
  - apply fetches_ret. intros l. rewrite Hl. clear. set_solver.
  - intros w Hw. unfold mbind at 1, st_bind at 1. unfold mbind at 1, st_bind at 1.
    pose proof (Hf x ltac:(by left) w Hw) as Hx. destruct (f x w) as [w1 [batch|e|]]; [|done..].
    destruct Hx as [Hk Hx].
    apply (fetches_iff (fun l => (Q l \/ P x l) \/ exists y, y ∈ xs /\ P y l)); [| |exact Hk].
    { intros l. rewrite exists_cons. tauto. }
    apply IH; [intros; apply Hf; by right|]. intros l. rewrite fmap_app, elem_of_app, Hl, Hx. tauto.
Qed.
Lemma fetch_filter_spec f : fetches (matches f) (fetch_logs_with_failover f).
Proof.
  intros w Hw. unfold fetch_logs_with_failover, mbind, st_bind.
  pose proof (failover_kept "get_logs" (fun n url => rpc_logs n url f) w (kept_ready _ _ Hw)) as Hf.
  destruct (with_failover _ _ w) as [w' [[ls idx]|e|]]; [| |by destruct Hf]; destruct Hf as [Hk Hf]; unfold mret, st_ret.
  - split; [by eapply kept_trans|]. destruct Hf as (n & url & Hls). intros l.
    rewrite <- list_fmap_compose. simpl. rewrite list_fmap_id. by apply (Hnode _ _ _ _ Hls).
  - split; [by eapply kept_trans|]. intros (url & Hurl & Hok & _). rewrite <- (kept_endpoints _ _ Hw) in Hurl.
    destruct (Hf url Hurl) as [n Hn]. destruct (Hok n f) as [x Hx]. congruence.
Qed.
Lemma fetch_topic_spec topic0 from to addresses :
  fetches (fun l => block_within from to l /\ log_address l ∈ addresses /\ head (log_topics l) = Some topic0)
    (fetch_topic topic0 from to addresses).
Proof.
  apply fetches_gets. intros a _.
  eapply fetches_iff; [|apply (fetches_each
    (fun chunk => matches {| f_addresses := chunk; f_topic0 := topic0; f_from := from; f_to := to |})
    _ (fun _ => False)); [intros; apply fetch_filter_spec|clear; set_solver]].
  intros l. unfold matches. simpl. rewrite (elem_of_list_chunks (Nat.max (filter_chunk_size a) 1) addresses) by lia.
  naive_solver.
Qed.
Lemma fetch_oracle_spec from to :
  fetches (fun l => block_within from to l /\ head (log_topics l) = Some answer_updated_topic /\
                    is_Some (oracle_protocol_map a0 !! log_address l))
    (fetch_oracle_logs_in_range from to).
Proof.
  apply fetches_gets. intros a Ha. eapply fetches_iff; [|apply fetch_topic_spec]. intros l.
  destruct (kept_fields _ _ Ha) as (_ & _ & -> & _).
  assert (Hin : log_address l ∈ (hash_entries (oracle_protocol_map a0)).*1 <->
                is_Some (oracle_protocol_map a0 !! log_address l)).
  { rewrite list_elem_of_fmap. split.
    - intros ([k v] & -> & Hin). apply elem_of_hash_entries in Hin. by exists v.
    - intros [v Hv]. exists (log_address l, v). by rewrite elem_of_hash_entries. }
  rewrite Hin. tauto.
Qed.

(** the addresses by topic list the addresses of the bindings of the topic *)
Lemma bindings_by_topic addr bs (m : gmap H256 (list Address)) t x :
  x ∈ default [] (foldl (fun m b => <[event_topic0 b := push_new (default [] (m !! event_topic0 b)) addr]> m) m bs !! t)
  <-> x ∈ default [] (m !! t) \/ x = addr /\ exists b, b ∈ bs /\ event_topic0 b = t.
Proof.
  revert m. induction bs as [|b bs IH]; intros m; simpl; [set_solver|]. rewrite IH.
  assert (Hpush : forall l : list Address, x ∈ push_new l addr <-> x ∈ l \/ x = addr).
  { intros l. unfold push_new. case_bool_decide; [|set_solver]. naive_solver. }
  destruct (decide (event_topic0 b = t)) as [<-|Hne].
  - rewrite lookup_insert_eq. simpl. rewrite Hpush. set_solver.
  - rewrite lookup_insert_ne by done. set_solver.
Qed.
Lemma elem_of_addresses_by_topic a t x :
  x ∈ default [] (addresses_by_topic a !! t) <->
  exists b, b ∈ default [] (flash_loan_source_map a !! x) /\ event_topic0 b = t.
Proof.
  unfold addresses_by_topic.
  assert (Hgen : forall entries (m : gmap H256 (list Address)),
    x ∈ default [] (foldl (fun m entry =>
      foldl (fun m b => <[event_topic0 b := push_new (default [] (m !! event_topic0 b)) entry.1]> m) m entry.2)
      m entries !! t) <->
    x ∈ default [] (m !! t) \/ exists bs, (x, bs) ∈ entries /\ exists b, b ∈ bs /\ event_topic0 b = t).
  { induction entries as [|[addr bs] entries IH]; intros m; simpl; [set_solver|].
    rewrite IH, bindings_by_topic. set_solver. }
  rewrite Hgen, lookup_empty. simpl. split.
  - intros [Hin|(bs & Hin & b & Hb & Ht)]; [set_solver|]. apply elem_of_hash_entries in Hin.
    exists b. by rewrite Hin.
  - intros (b & Hb & Ht). right. destruct (flash_loan_source_map a !! x) as [bs|] eqn:Hx; [|set_solver].
    exists bs. rewrite elem_of_hash_entries. eauto.
Qed.
Lemma fetch_flash_spec from to :
  fetches (fun l => block_within from to l /\
                    exists b, b ∈ default [] (flash_loan_source_map a0 !! log_address l) /\
                              head (log_topics l) = Some (event_topic0 b))
    (fetch_flash_logs_in_range from to).
Proof.
  apply fetches_gets. intros a Ha. destruct (kept_fields _ _ Ha) as (_ & _ & _ & Hmap & _).
  unfold map_is_empty. destruct (size (flash_loan_source_map a) =? 0)%nat eqn:He.
  - apply Nat.eqb_eq, map_size_empty_iff in He. apply fetches_ret. intros l. rewrite <- Hmap, He, lookup_empty.
    set_solver.
  - eapply fetches_iff; [|apply (fetches_each
      (fun entry l => block_within from to l /\ log_address l ∈ entry.2 /\ head (log_topics l) = Some entry.1)
      _ (fun _ => False)); [intros; apply fetch_topic_spec|clear; set_solver]].
    intros l. simpl. rewrite <- Hmap. split.
    + intros [[]|([t addrs] & Hin & Hb & Haddr & Ht)]. split; [done|].
      apply elem_of_hash_entries in Hin. simpl in *.
      assert (Hx : log_address l ∈ default [] (addresses_by_topic a !! t)) by by rewrite Hin.
      apply elem_of_addresses_by_topic in Hx as (b & ? & <-). by exists b.
    + intros (Hb & b & Hin & Ht). right.
      assert (Hx : log_address l ∈ default [] (addresses_by_topic a !! event_topic0 b))
        by (apply elem_of_addresses_by_topic; by exists b).
      destruct (addresses_by_topic a !! event_topic0 b) as [addrs|] eqn:Haddrs; [|set_solver].
      exists (event_topic0 b, addrs). by rewrite elem_of_hash_entries.
Qed.
(** the chunks of a range, with fuel for every block of it *)
Lemma fetch_ranges_spec fuel start to logs (Q : Log -> Prop) :
  0 <= start -> to <= u64_max -> (Z.to_nat (to - start + 1) <= fuel)%nat ->
  (forall l, l ∈ pl_log <$> logs <-> l ∈ chain /\ Q l) ->
  fetches (fun l => Q l \/ block_within start to l /\ watched a0 l) (fetch_ranges fuel start to logs).
Proof.
  revert start logs Q. induction fuel as [|fuel IH]; intros start logs Q Hs Ht Hfuel Hl; cbn [fetch_ranges].
  { apply (fetches_iff Q); [|by apply fetches_ret]. intros l. split; [by left|].
    intros [?|[(b & _ & Hb) _]]; [done|lia]. }
  destruct (to <? start) eqn:Hcmp; bools.
  { apply (fetches_iff Q); [|by apply fetches_ret]. intros l. split; [by left|].
    intros [?|[(b & _ & Hb) _]]; [done|lia]. }
  apply fetches_gets. intros a Ha. cbv zeta. set (end_ := Z.min _ to).
  assert (Hend : start <= end_ <= to) by (unfold end_, sat_add_u64, sat_sub, u64_max in *; lia).
  apply (fetches_then _ _ _ _ (fetch_oracle_spec start end_)). intros oracle Horacle. apply (fetches_then _ _ _ _ (fetch_flash_spec start end_)). intros flash Hflash.
  assert (Hall : forall l, l ∈ pl_log <$> logs ++ oracle ++ flash <->
    l ∈ chain /\ (Q l \/ block_within start end_ l /\ watched a0 l)).
  { intros l. rewrite !fmap_app, !elem_of_app, Hl, Horacle, Hflash. unfold watched. tauto. }
  destruct (end_ =? u64_max) eqn:Hmax; bools.
  - apply (fetches_iff (fun l => Q l \/ block_within start end_ l /\ watched a0 l)); [|by apply fetches_ret].
    intros l. by replace end_ with to by lia.
  - replace (sat_add_u64 end_ 1) with (end_ + 1) by (unfold sat_add_u64; lia).
    apply (fetches_iff (fun l => (Q l \/ block_within start end_ l /\ watched a0 l)
      \/ block_within (end_ + 1) to l /\ watched a0 l)); [|by apply IH; [lia..|exact Hall]].
    intros l. split.
    + intros [[?|[(b & ? & ?) ?]]|[(b & ? & ?) ?]]; [by left|right..];
        (split; [exists b; split; [done|lia]|done]).
    + intros [?|[(b & Hb & ?) ?]]; [by left; left|].
      destruct (decide (b <= end_)); [left; right|right]; (split; [exists b; split; [done|lia]|done]).
Qed.

(** the keys of the logs of a chain tell them apart *)
Definition keyed (logs : list Log) : Prop :=
  (forall l, l ∈ logs -> is_ret (provider_log_key l)) /\
  forall l l', l ∈ logs -> l' ∈ logs -> provider_log_key l = provider_log_key l' -> l = l'.
Lemma dedupe_from_spec seen logs : keyed chain -> (forall l, l ∈ pl_log <$> logs -> l ∈ chain) ->
  exists out, dedupe_from seen logs = Ret out /\ NoDup (pl_log <$> out) /\
  forall l, l ∈ pl_log <$> out <-> l ∈ pl_log <$> logs /\ forall k, provider_log_key l = Ret k -> k ∉ seen.
Proof.
  intros [Hk Hi]. revert seen. induction logs as [|e logs IH]; intros seen Hc.
  { exists []. split_and!; [done|constructor|]. intros l. simpl. rewrite elem_of_nil. tauto. }
  rewrite fmap_cons in Hc. assert (He : pl_log e ∈ chain) by (apply Hc; by left).
  destruct (Hk _ He) as [k Hke].
  destruct (IH ({[k]} ∪ seen)) as (out & Hout & Hnd & Hin); [intros; apply Hc; by right|].
  cbn [dedupe_from]. rewrite Hke. cbn [mbind outcome_bind]. rewrite Hout. eexists. split; [done|].
  unfold first_seen. rewrite fmap_cons. setoid_rewrite elem_of_cons. case_bool_decide as Hs; simpl.
  - split; [done|]. intros l. rewrite Hin. split.
    + intros [Hl Hn]. split; [by right|]. intros k' Hk'. specialize (Hn k' Hk'). set_solver.
    + intros [[->|Hl] Hn]; [by destruct (Hn k Hke)|]. split; [done|]. intros k' Hk'. specialize (Hn k' Hk').
      rewrite elem_of_union, elem_of_singleton. intros [->|]; [by destruct Hn|done].
  - split.
    + constructor; [|done]. rewrite Hin. intros [_ Hn]. apply (Hn k Hke). set_solver.
    + intros l. rewrite elem_of_cons, Hin. split.
      * intros [->|[Hl Hn]]; [by split; [left|intros k'; rewrite Hke; intros [= <-]]|]. split; [by right|].
        intros k' Hk'. specialize (Hn k' Hk'). set_solver.
      * intros [[->|Hl] Hn]; [by left|].
        assert (Hlc : l ∈ chain) by (apply Hc; by right). destruct (Hk l Hlc) as [kl Hkl].
        destruct (decide (kl = k)) as [->|Hne]; [left; apply Hi; [done|done|congruence]|].
        right. split; [done|]. intros k' Hk'. rewrite elem_of_union, elem_of_singleton.
        intros [->|Hk'']; [congruence|by apply (Hn k')].
Qed.
Lemma fetch_logs_in_range_spec from to w : keyed chain -> NoDup chain -> 0 <= from -> to <= u64_max ->
  kept a0 (w_adapter w) ->
  match fetch_logs_in_range from to w with
  | (w', Ret logs) => kept a0 (w_adapter w') /\
      pl_log <$> logs ≡ₚ filter (fun l => block_within from to l /\ watched a0 l) chain
  | (w', Err _) => kept a0 (w_adapter w') /\ ~ reliable
  | (_, Panic) => False
  end.
Proof.
  intros Hkey Hnd Hf Ht Hw. unfold fetch_logs_in_range, mbind, st_bind.
  pose proof (fetch_ranges_spec _ from to [] (fun _ => False) Hf Ht (Nat.le_refl _)
    ltac:(intros l; simpl; rewrite elem_of_nil; tauto) w Hw) as Hr.
  destruct (fetch_ranges _ from to [] w) as [w' [logs|e|]]; [|done..]. destruct Hr as [Hk Hl].
  destruct (dedupe_from_spec ∅ logs Hkey) as (out & Hout & Hnd' & Hin); [intros l Hx; by apply Hl|].
  unfold lift, dedupe_provider_logs. rewrite Hout. split; [done|]. apply NoDup_Permutation; [done|by apply NoDup_filter|].
  intros l. rewrite Hin, Hl, list_elem_of_filter. set_solver.
Qed.
End ranges.

(** C17: a poll finds the watched logs of its blocks, each once.  Over nodes that
    answer with the logs of one chain, as far as they answer at all, the logs a
    range of blocks is cut into requests for are, after those seen twice are
    dropped, exactly the logs of these blocks with a watched address and topic,
    however the blocks and the addresses are cut and whichever node answers what;
    only when every node has failed a request is there an error, and never when
    one of them always answers.  The sources of the adapter are untouched. *)
Theorem range_logs_complete (chain : list Log) from to w : faithful chain -> keyed chain -> NoDup chain ->
  ready (w_adapter w) -> 0 <= from -> to <= u64_max ->
  let a := w_adapter w in
  let '(w', r) := fetch_logs_in_range from to w in
  kept a (w_adapter w') /\ r <> Panic /\ (reliable a -> is_ret r) /\
  forall logs, r = Ret logs ->
    pl_log <$> logs ≡ₚ filter (fun l => block_within from to l /\ watched a l) chain.
Proof.
  intros Hn Hk Hnd Hr Hf Ht a.
  pose proof (fetch_logs_in_range_spec a chain Hn from to w Hk Hnd Hf Ht (kept_refl _ Hr)) as Hs.
  destruct (fetch_logs_in_range from to w) as [w' [logs|e|]]; [| |done].
  - destruct Hs as [Hkept Hp]. split_and!; [done..|by exists logs|]. by intros ? [= <-].
  - destruct Hs as [Hkept Hrel]. split_and!; [done..|by intros Hx; destruct (Hrel Hx)|done].
Qed.

(** ** The events of polls *)

(** computations that leave the keys seen as they are *)
Definition seen_kept {A} (m : ST World A) : Prop := forall w,
  seen_event_keys (w_adapter (m w).1) = seen_event_keys (w_adapter w).
Lemma seen_kept_bind {A B} (m : ST World A) (f : A -> ST World B) :
  seen_kept m -> (forall x, seen_kept (f x)) -> seen_kept (m ≫= f).
Proof.
  intros Hm Hf w. unfold mbind, st_bind. specialize (Hm w). destruct (m w) as [w1 [x|e|]]; [|done..].
  simpl in Hm. by rewrite Hf.
Qed.
Lemma seen_kept_each {A B} (f : A -> B -> ST World A) l x :
  (forall x y, seen_kept (f x y)) -> seen_kept (for_each f l x).
Proof. intros Hf. revert x. induction l as [|y l IH]; intros x; [done|]. by apply seen_kept_bind. Qed.
Lemma seen_kept_try {A} operation (call : nat -> string -> option A) offsets :
  seen_kept (try_from operation call offsets).
Proof.
  induction offsets as [|o offsets IH]; simpl; [by apply seen_kept_bind|]. apply seen_kept_bind; [done|].
  intros a. destruct (_ !! _); [|done]. apply seen_kept_bind; [done|].
  intros [x|]; by apply seen_kept_bind; [apply seen_kept_bind|].
Qed.
Lemma seen_kept_failover {A} operation (call : nat -> string -> option A) :
  seen_kept (with_failover operation call).
Proof. by apply seen_kept_bind; [|intros; apply seen_kept_try]. Qed.
Lemma seen_kept_topic topic0 from to addresses : seen_kept (fetch_topic topic0 from to addresses).
Proof.
  apply seen_kept_bind; [done|]. intros a. apply seen_kept_each. intros logs chunk.
  apply seen_kept_bind; [|done]. apply seen_kept_bind; [apply seen_kept_failover|done].
Qed.
Lemma seen_kept_ranges fuel start to logs : seen_kept (fetch_ranges fuel start to logs).
Proof.
  revert start logs. induction fuel as [|fuel IH]; intros start logs; simpl; [done|].
  destruct (to <? start); [done|]. apply seen_kept_bind; [done|]. intros a.
  apply seen_kept_bind; [by apply seen_kept_bind; [|intros; apply seen_kept_topic]|]. intros oracle.
  apply seen_kept_bind.
  - apply seen_kept_bind; [done|]. intros a'. destruct (map_is_empty _); [done|]. apply seen_kept_each.
    intros ls entry. by apply seen_kept_bind; [apply seen_kept_topic|].
  - intros flash. destruct (_ =? _); [done|apply IH].
Qed.
Lemma seen_kept_recent : seen_kept fetch_recent_logs.
Proof.
  apply seen_kept_bind; [apply seen_kept_bind; [apply seen_kept_failover|done]|]. intros latest.
  apply seen_kept_bind; [done|]. intros a. by apply seen_kept_bind; [apply seen_kept_ranges|].
Qed.

Definition keys (es : list NormalizedEvent) : list string := ne_event_key <$> es.
Definition seen_in w : gset string := seen_event_keys (w_adapter w).
(** events that are new to [s], and belong to [s'] *)
Definition new_between (s s' : gset string) (es : list NormalizedEvent) : Prop :=
  s ⊆ s' /\ NoDup (keys es) /\ forall k, k ∈ keys es -> k ∉ s /\ k ∈ s'.
Lemma new_between_nil s s' : s ⊆ s' -> new_between s s' [].
Proof. intros Hs. split_and!; [done|constructor|]. intros k. simpl. by rewrite elem_of_nil. Qed.
Lemma new_between_app s s' s'' es es' : new_between s s' es -> new_between s' s'' es' ->
  new_between s s'' (es ++ es').
Proof.
  intros (Hs & Hn & Hk) (Hs' & Hn' & Hk'). unfold new_between, keys in *. rewrite fmap_app. split_and!.
  - by etrans.
  - apply NoDup_app. split_and!; [done| |done]. intros k Hin Hin'. apply Hk in Hin. apply Hk' in Hin'. tauto.
  - intros k. rewrite elem_of_app. intros [Hin|Hin]; [apply Hk in Hin|apply Hk' in Hin]; set_solver.
Qed.
(** computations whose events are new, and seen from then on *)
Definition emitted (s : gset string) (r : World * outcome (list NormalizedEvent)) : Prop :=
  match r with
  | (w', Ret es) => new_between s (seen_in w') es
  | (w', _) => s ⊆ seen_in w'
  end.
Definition emits_new (m : ST World (list NormalizedEvent)) : Prop := forall w, emitted (seen_in w) (m w).
Lemma emits_none : emits_new (mret []).
Proof. intros w. by apply new_between_nil. Qed.
Lemma emits_after {A} (m : ST World A) f : seen_kept m -> (forall x, emits_new (f x)) -> emits_new (m ≫= f).
Proof.
  intros Hm Hf w. unfold mbind, st_bind. assert (Hs : seen_in (m w).1 = seen_in w) by apply Hm.
  destruct (m w) as [w1 [x|e|]]; simpl in Hs; rewrite <- Hs; [apply Hf|unfold emitted; reflexivity..].
Qed.
Lemma emits_both (m m' : ST World (list NormalizedEvent)) : emits_new m -> emits_new m' ->
  emits_new (es ← m; es' ← m'; mret (es ++ es')).
Proof.
  intros Hm Hm' w. unfold mbind, st_bind. specialize (Hm w). destruct (m w) as [w1 [es|e|]]; [|done..].
  specialize (Hm' w1). destruct (m' w1) as [w2 [es'|e|]]; unfold emitted in *.
  - by eapply new_between_app.
  - destruct Hm as [Hs _]. by etrans.
  - destruct Hm as [Hs _]. by etrans.
Qed.
Lemma emits_admit e : emits_new (admit_event true e).
Proof.
  intros w. unfold admit_event, mbind, st_bind, gets, modify, first_seen, mret, st_ret. simpl.
  set (s := seen_event_keys (w_adapter w)). change (seen_in w) with s.
  unfold new_between, seen_in. simpl. split; [set_solver|]. case_bool_decide as Hin; simpl.
  - split; [constructor|]. intros k. by rewrite elem_of_nil.
  - split; [apply NoDup_singleton|]. intros k ->%list_elem_of_singleton. split; [done|]. set_solver.
Qed.
Lemma emits_gather {A} (f : A -> ST World (list NormalizedEvent)) l :
  (forall x, emits_new (f x)) -> emits_new (gather f l).
Proof.
  intros Hf. unfold gather.
  assert (Hg : forall acc s w, new_between s (seen_in w) acc -> emitted s
    (for_each (fun events x => new ← f x; mret (events ++ new)) l acc w)).
  { induction l as [|x l IH]; intros acc s w Hacc; [done|]. cbn [for_each].
    unfold mbind at 1, st_bind at 1. unfold mbind at 1, st_bind at 1.
    specialize (Hf x w). destruct (f x w) as [w1 [es|e|]]; simpl in Hf.
    - apply IH. by eapply new_between_app.
    - destruct Hacc as [Hs _]. unfold emitted. by etrans.
    - destruct Hacc as [Hs _]. unfold emitted. by etrans. }
  intros w. by apply Hg, new_between_nil.
Qed.
Lemma emits_decode logs source : emits_new (decode_logs logs source true).
Proof.
  apply emits_gather. intros entry. apply emits_after; [done|]. intros a.
  apply emits_both.
  - destruct (oracle_bindings a (pl_log entry)) as [[raw bindings]|]; [|apply emits_none].
    apply emits_gather. intros b. do 4 (apply emits_after; [done|]; intros). apply emits_admit.
  - apply emits_gather. intros b. apply emits_after; [done|]. intros a'.
    destruct (decode_flash_loan_log _ _); [|apply emits_none].
    do 3 (apply emits_after; [done|]; intros). apply emits_admit.
Qed.
Lemma emits_next_events : emits_new next_events.
Proof.
  apply emits_after; [done|]. intros a. destruct (no_sources a); [apply emits_none|].
  apply emits_after; [apply seen_kept_recent|]. intros [|e batch]; [apply emits_none|apply emits_decode].
Qed.

(** the answers of [n] polls *)
Fixpoint polls (n : nat) w : World * list (outcome (list NormalizedEvent)) :=
  match n with
  | O => (w, [])
  | S n => let '(w, r) := next_events w in let '(w, rs) := polls n w in (w, r :: rs)
  end.
Definition found (rs : list (outcome (list NormalizedEvent))) : list NormalizedEvent :=
  rs ≫= outcome_or [].
Lemma polls_new n w : let '(w', rs) := polls n w in new_between (seen_in w) (seen_in w') (found rs).
Proof.
  revert w. induction n as [|n IH]; intros w; simpl; [by apply new_between_nil|].
  pose proof (emits_next_events w) as He. destruct (next_events w) as [w1 r].
  specialize (IH w1). destruct (polls n w1) as [w2 rs]. unfold found in *. rewrite bind_cons.
  assert (Hr : new_between (seen_in w) (seen_in w1) (outcome_or [] r)).
  { destruct r as [es|e|]; [done|..]; by apply new_between_nil. }
  by eapply new_between_app.
Qed.

Section connector.
Context `{!EventCodec} (c : EvmChainConnector).
(** the answers of [n] calls of the connector *)
Fixpoint calls (n : nat) w : World * list (outcome UnifiedEvent) :=
  match n with
  | O => (w, [])
  | S n => let '(w, r) := next_event c w in let '(w, rs) := calls n w in (w, r :: rs)
  end.
(** what the connector makes of a poll *)
Definition hand_over (r : outcome (list NormalizedEvent)) : outcome UnifiedEvent :=
  events ← r; match events with
              | [] => Err "no events from EVM adapter yet"
              | event :: _ => unified_event c event
              end.
Lemma calls_polls n w : let '(w', rs) := polls n w in calls n w = (w', hand_over <$> rs).
Proof.
  revert w. induction n as [|n IH]; intros w; simpl; [done|]. unfold next_event, mbind, st_bind.
  destruct (next_events w) as [w1 r]. specialize (IH w1). destruct (polls n w1) as [w2 rs]. simpl.
  destruct r as [[|e es]|e|]; simpl; by rewrite IH.
Qed.

(** Of the events of a poll only the first is ever handed over.  A call of the
    connector polls the adapter and answers with the first of the events; the
    adapter keeps none of the others and reports no event twice, so an event that
    was not the first of its poll is not handed over by any other call, before or
    after: no event with its key is. *)
Theorem only_first_event_handed_over n w : let '(w', rs) := polls n w in
  calls n w = (w', hand_over <$> rs) /\ (NoDup (keys (found rs))) /\
  forall i j e rest x e' rest', rs !! i = Some (Ret (e :: rest)) -> x ∈ rest ->
    rs !! j = Some (Ret (e' :: rest')) -> ne_event_key e' <> ne_event_key x.
Proof.
  pose proof (calls_polls n w) as Hc. pose proof (polls_new n w) as Hn. destruct (polls n w) as [w' rs].
  destruct Hn as (_ & Hnd & _). split_and!; [done..|]. intros i j e rest x e' rest' Hi Hx Hj Heq.
  clear -Hnd Hi Hx Hj Heq. revert i j Hi Hj. induction rs as [|r rs IH]; intros i j Hi Hj; [done|].
  unfold found, keys in *. rewrite bind_cons, fmap_app in Hnd. apply NoDup_app in Hnd as (Hr & Hsep & Hnd).
  assert (Hlater : forall k es y, rs !! k = Some (Ret es) -> y ∈ es -> y ∈ rs ≫= outcome_or []).
  { intros k es y Hk Hy. apply list_elem_of_bind. exists (Ret es). split; [done|]. by eapply list_elem_of_lookup_2. }
  destruct i as [|i], j as [|j]; simpl in Hi, Hj.
  - injection Hi as ->. injection Hj as -> ->. simpl in Hr. apply NoDup_cons in Hr as [Hr _]. apply Hr.
    rewrite Heq. by apply list_elem_of_fmap_2.
  - injection Hi as ->. apply (Hsep (ne_event_key x)).
    + apply list_elem_of_fmap_2. simpl. by right.
    + rewrite <- Heq. apply list_elem_of_fmap_2. eapply Hlater; [exact Hj|by left].
  - injection Hj as ->. apply (Hsep (ne_event_key e')).
    + apply list_elem_of_fmap_2. simpl. by left.
    + rewrite Heq. apply list_elem_of_fmap_2. eapply Hlater; [exact Hi|by right].
  - by eapply IH.
Qed.
End connector.
End proofs.

(** ** Words of a log *)

Fixpoint be_bytes (n : nat) (v : Z) : string :=
  match n with
  | O => EmptyString
  | S n => String (Ascii.ascii_of_nat (Z.to_nat (v / 256 ^ Z.of_nat n mod 256))) (be_bytes n v)
  end.
Lemma be_from_bytes n v acc : 0 <= v ->
  be_from acc (be_bytes n v) = acc * 256 ^ Z.of_nat n + v mod 256 ^ Z.of_nat n.
Proof.
  intros Hv. revert acc. induction n as [|n IH]; intros acc; cbn [be_bytes be_from].
  - change (256 ^ Z.of_nat 0) with 1. rewrite Z.mod_1_r. lia.
  - pose proof (Z.mod_pos_bound (v / 256 ^ Z.of_nat n) 256 ltac:(lia)) as Hd.
    rewrite IH, Ascii.nat_ascii_embedding, Z2Nat.id, Nat2Z.inj_succ, Z.pow_succ_r by lia.
    set (k := 256 ^ Z.of_nat n). assert (0 < k) by (apply Z.pow_pos_nonneg; lia).
    rewrite (Z.mul_comm 256 k), Z.rem_mul_r by lia. lia.
Qed.
Lemma be_number_bytes v : 0 <= v < 2 ^ 256 -> be_number (be_bytes 32 v) = v.
Proof.
  intros Hv. unfold be_number. rewrite be_from_bytes by lia. change (256 ^ Z.of_nat 32) with (2 ^ 256).
  rewrite Z.mod_small by lia. lia.
Qed.
(** a negative number is read as its digits with the sign *)
Lemma parse_decimal_pos neg p :
  Numbers.parse_decimal neg (fmt_Z (Zpos p)) = Some (Numbers.decimal_to_f64 neg (Zpos p) 0).
Proof.
  change (fmt_Z (Zpos p)) with (pretty.pretty (N.pos p)). unfold pretty.pretty, pretty.pretty_N.
  rewrite decide_False by done. unfold Numbers.parse_decimal.
  destruct (take_digits_pretty_go (N.pos p) 0 0 "") as (k & Hk & Hp & ->). cbn [Numbers.take_digits].
  replace (0 <? 0 + k + 0) with true by (symmetry; apply Z.ltb_lt; lia).
  cbn [Numbers.parse_exponent mbind option_bind].
  by replace (0 * 10 ^ k + Z.of_N (N.pos p)) with (Zpos p) by lia.
Qed.
Lemma parse_f64_any_Z z : Numbers.parse_f64 (fmt_Z z) = Some (f64_of_Z z).
Proof.
  destruct (decide (0 <= z)) as [Hz|Hz]; [by apply parse_f64_fmt_Z|]. destruct z as [|p|p]; try lia.
  change (fmt_Z (Z.neg p)) with (String (Ascii.ascii_of_nat 45) (fmt_Z (Z.pos p))).
  etrans; [|etrans; [exact (parse_decimal_pos true p)|]].
  - change (fmt_Z (Zpos p)) with (pretty.pretty (N.pos p)). unfold pretty.pretty, pretty.pretty_N.
    rewrite decide_False by done. destruct (pretty_go_head (N.pos p) "" ltac:(lia)) as (c & s & d & -> & Hd).
    apply digit_in_chars in Hd. unfold digit_chars in Hd.
    repeat (apply elem_of_cons in Hd as [->|Hd]; [reflexivity|]). by apply elem_of_nil in Hd.
  - simpl. by rewrite ?Z.mul_1_r, ?Pos.mul_1_r.
Qed.
(** the number of a two's-complement word *)
Lemma signed_word_mod z : - 2 ^ 255 <= z < 2 ^ 255 -> signed_word (z mod 2 ^ 256) = z.
Proof.
  intros Hz. unfold signed_word. destruct (decide (0 <= z)) as [Hp|Hn].
  - rewrite Z.mod_small by lia. by replace (z <? 2 ^ 255) with true by (symmetry; apply Z.ltb_lt; lia).
  - replace (z mod 2 ^ 256) with (z + 2 ^ 256)
      by (symmetry; rewrite <- (Z.mod_add _ 1) by lia; rewrite Z.mod_small; lia).
    replace (z + 2 ^ 256 <? 2 ^ 255) with false by (symmetry; apply Z.ltb_ge; lia). lia.
Qed.

(** An oracle's answer is read back.  When the first indexed value of an
    [AnswerUpdated] log is the 256-bit two's-complement word of a number, the price
    the log is given is that number, negative ones included, over ten to the power
    of the decimals of the binding. *)
Theorem oracle_answer_read_back `{!EvmTypes} `{!Powi} t answer updated z decimals log :
  - 2 ^ 255 <= z < 2 ^ 255 -> log_topics log = [t; answer; updated] ->
  h256_bytes answer = be_bytes 32 (z mod 2 ^ 256) ->
  exists raw, decode_answer_updated_raw log = Some raw /\
              scale_answer raw decimals = f64_div (f64_of_Z z) (powi f64_ten decimals).
Proof.
  intros Hz Ht Ha. exists (z mod 2 ^ 256). pose proof (Z.mod_pos_bound z (2 ^ 256) ltac:(lia)) as Hm. split.
  - unfold decode_answer_updated_raw, topic_word. rewrite Ht. simpl.
    rewrite from_big_endian_spec by (by rewrite h256_bytes_length). by rewrite Ha, be_number_bytes.
  - unfold scale_answer. by rewrite i256_to_string_spec, signed_word_mod, parse_f64_any_Z by done.
Qed.
