(* ===== verification/QuoteConnector.v ===== *)
(** * The quote connector ([crates/ingestion/src/connector.rs])

    A websocket that delivers the quotes of an exchange or an oracle: its
    configuration, the subscription it sends, the six parsers of its messages and
    the loop that hands out the first message with a quote.  What the socket
    answers is a parameter.

    A call hands out the first message its parser accepts; a failed read leaves
    the connector healthy. *)
From S2P Require Import Prelude F64 Text Numbers Ports EventSchema FieldMapping WorkerConfig SseConnector.

Section quotes.
Context `{Chrono} `{SerdeJson} `{!JsonText}.

(** ** Data *)

Record ParsedQuote := {
  pq_market_key : string; pq_price : f64; pq_observed_at : DateTime; pq_metadata : Value
}.
Record DataSourceConfig := {
  ds_tenant_id : string; ds_source_id : string; ds_source_type : string; ds_source_name : string;
  ds_connection_config : Value; ds_filters : option Value; ds_enabled : bool
}.
Inductive Venue := Binance | Coinbase | Uniswap | Curve | Chainlink | Pyth.
Record CexWebsocketConnector := {
  cx_tenant_id : string; cx_source_id : string; ws_endpoint : string; market_symbols : list string;
  venue : Venue; cx_connected : bool; cx_healthy : bool; cx_sent : list Value
}.
Definition set_health (connected healthy : bool) (sent : list Value) (c : CexWebsocketConnector)
  : CexWebsocketConnector :=
  {| cx_tenant_id := cx_tenant_id c; cx_source_id := cx_source_id c; ws_endpoint := ws_endpoint c;
     market_symbols := market_symbols c; venue := venue c; cx_connected := connected;
     cx_healthy := healthy; cx_sent := sent |}.

(** ** Values *)

Definition parse_number (value : Value) : outcome f64 :=
  match as_f64 value with
  | Some num => Ret num
  | None =>
      match as_str value with
      | Some raw => of_option ("invalid numeric string '" +:+ raw +:+ "'") (Numbers.parse_f64 raw)
      | None => Err ("unsupported numeric value: " +:+ value_to_string value)
      end
  end.
(** [o.or_else(|| p)] *)
Definition or_else {A} (o p : option A) : option A := match o with Some _ => o | None => p end.
Definition parse_millis_timestamp (value : option Value) : option DateTime :=
  v ← value;
  millis ← or_else (as_i64 v) (as_str v ≫= parse_i64);
  timestamp_millis_opt millis.
Definition parse_any_timestamp (value : option Value) : option DateTime :=
  raw ← value;
  match as_i64 raw with
  | Some v => timestamp_opt v
  | None =>
      match as_u64 raw with
      | Some v => if v <=? i64_max then timestamp_opt v else None
      | None =>
          v ← as_str raw;
          match parse_i64 v with Some i => timestamp_opt i | None => parse_from_rfc3339 v end
      end
  end.

(** ** Parsers *)

(** the first of the keys of a document that is there *)
Definition get_either (a b : string) (v : Value) : option Value := or_else (vget a v) (vget b v).
Definition symbol_of (a b : string) (v : Value) : option string := or_else (get_str a v) (get_str b v).
Definition quote (value : Value) (now : DateTime) (symbol : outcome string) (price : outcome f64)
    (time : option DateTime) : outcome ParsedQuote :=
  s ← symbol; p ← price;
  Ret {| pq_market_key := s; pq_price := p; pq_observed_at := default now time; pq_metadata := value |}.
Definition number_of (missing : string) (v : option Value) : outcome f64 :=
  v ← of_option missing v; parse_number v.
Definition parse_binance_quote (now : DateTime) (value : Value) : outcome ParsedQuote :=
  let root := default value (vget "data" value) in
  quote value now (of_option "missing binance symbol" (symbol_of "s" "symbol" root))
    (number_of "missing binance price" (or_else (vget "c" root) (get_either "p" "price" root)))
    (parse_millis_timestamp (get_either "E" "eventTime" root)).
Definition parse_coinbase_quote (now : DateTime) (value : Value) : outcome ParsedQuote :=
  let qt := default "" (get_str "type" value) in
  if negb (bool_decide (qt ∈ ["ticker"; "ticker_batch"])) then Err "ignoring coinbase non-ticker message"
  else quote value now (of_option "missing coinbase product_id" (get_str "product_id" value))
         (number_of "missing price" (vget "price" value)) (get_str "time" value ≫= parse_from_rfc3339).
Definition parse_uniswap_quote (now : DateTime) (value : Value) : outcome ParsedQuote :=
  quote value now (of_option "missing uniswap pair/symbol" (symbol_of "pair" "symbol" value))
    (number_of "missing uniswap price" (get_either "price" "mid_price" value))
    (parse_any_timestamp (get_either "timestamp" "time" value)).
Definition parse_curve_quote (now : DateTime) (value : Value) : outcome ParsedQuote :=
  quote value now (of_option "missing curve pair/symbol" (symbol_of "pair" "symbol" value))
    (number_of "missing curve price" (get_either "price" "virtual_price" value))
    (parse_any_timestamp (get_either "timestamp" "time" value)).
Definition parse_chainlink_quote (now : DateTime) (value : Value) : outcome ParsedQuote :=
  quote value now (of_option "missing chainlink feed/symbol" (symbol_of "feed" "symbol" value))
    (number_of "missing chainlink answer/price" (get_either "answer" "price" value))
    (parse_any_timestamp (get_either "updated_at" "timestamp" value)).
Definition parse_pyth_quote (now : DateTime) (value : Value) : outcome ParsedQuote :=
  let feed := default value (vget "price_feed" value) in
  quote value now (of_option "missing pyth symbol" (get_str "symbol" feed))
    (number_of "missing pyth price" (vget "price" feed))
    (parse_any_timestamp (get_either "publish_time" "timestamp" feed)).
Definition parser (v : Venue) : DateTime -> Value -> outcome ParsedQuote :=
  match v with
  | Binance => parse_binance_quote | Coinbase => parse_coinbase_quote | Uniswap => parse_uniswap_quote
  | Curve => parse_curve_quote | Chainlink => parse_chainlink_quote | Pyth => parse_pyth_quote
  end.

(** ** Subscriptions *)

Definition subscribe_generic_symbols (symbols : list string) : list Value :=
  match symbols with
  | [] => []
  | _ => [VObj [("type", VString "subscribe"); ("symbols", VArray (VString <$> symbols))]]
  end.
Definition mini_ticker (s : string) : string :=
  to_ascii_lowercase (remove_chars [Ascii.ascii_of_nat 47; Ascii.ascii_of_nat 45] s) +:+ "@miniTicker".
Definition subscribe_binance (symbols : list string) : list Value :=
  match symbols with
  | [] => []
  | _ => [VObj [("method", VString "SUBSCRIBE");
                ("params", VArray ((fun s => VString (mini_ticker s)) <$> symbols)); ("id", VInt 1)]]
  end.
Definition subscribe_coinbase (symbols : list string) : list Value :=
  match symbols with
  | [] => []
  | _ => [VObj [("type", VString "subscribe");
                ("channels", VArray [VObj [("name", VString "ticker");
                                           ("product_ids", VArray (VString <$> symbols))]])]]
  end.
Definition subscription_builder (v : Venue) : list string -> list Value :=
  match v with
  | Binance => subscribe_binance | Coinbase => subscribe_coinbase
  | Uniswap | Curve | Chainlink | Pyth => subscribe_generic_symbols
  end.

(** ** The connector *)

Definition venue_of (source_name : string) : outcome Venue :=
  if bool_decide (source_name = "binance") then Ret Binance
  else if bool_decide (source_name = "coinbase") then Ret Coinbase
  else if bool_decide (source_name ∈ ["uniswap-v3"; "uniswap"]) then Ret Uniswap
  else if bool_decide (source_name = "curve") then Ret Curve
  else if bool_decide (source_name = "chainlink") then Ret Chainlink
  else if bool_decide (source_name = "pyth") then Ret Pyth
  else Err ("unsupported CEX source '" +:+ source_name +:+ "': no connector").
Definition from_config (cfg : DataSourceConfig) : outcome CexWebsocketConnector :=
  endpoint ← of_option ("source '" +:+ ds_source_id cfg +:+ "': missing ws_endpoint")
    (get_str "ws_endpoint" (ds_connection_config cfg));
  v ← venue_of (to_ascii_lowercase
        (default (ds_source_name cfg) (get_str "source_name" (ds_connection_config cfg))));
  Ret {| cx_tenant_id := ds_tenant_id cfg; cx_source_id := ds_source_id cfg; ws_endpoint := endpoint;
         market_symbols := default []
           (filters ← ds_filters cfg; symbols ← vget "market_symbols" filters;
            items ← as_array symbols;
            Some (omap (M := list) as_str items));
         venue := v; cx_connected := false; cx_healthy := false; cx_sent := [] |}.
(** [sends]: whether the socket takes each message *)
Fixpoint send_all (sends : nat -> bool) (n : nat) (messages : list Value) : list Value * bool :=
  match messages with
  | [] => ([], true)
  | m :: messages =>
      if sends n then let '(sent, ok) := send_all sends (S n) messages in (m :: sent, ok) else ([], false)
  end.
Definition connect (socket_opens : bool) (sends : nat -> bool) (c : CexWebsocketConnector)
  : CexWebsocketConnector * outcome unit :=
  if negb socket_opens then
    (c, Err ("failed websocket connect for source '" +:+ cx_source_id c +:+ "' at " +:+ ws_endpoint c))
  else
    let messages := match market_symbols c with [] => [] | symbols => subscription_builder (venue c) symbols end in
    let '(sent, ok) := send_all sends O messages in
    if ok then (set_health true true sent c, Ret ())
    else (set_health true (cx_healthy c) sent c,
          Err ("failed to send subscription for source " +:+ cx_source_id c)).
(** what [ws.next()] gives *)
Inductive Frame := FText (text : string) | FClose (frame : string) | FOther | FReadFailed | FEnded.
Definition quote_event (c : CexWebsocketConnector) (uuid : string) (q : ParsedQuote) : UnifiedEvent :=
  {| event_id := uuid; tenant_id := cx_tenant_id c; source_id := cx_source_id c;
     source_type := CexWebsocket; event_type := "quote"; timestamp := pq_observed_at q;
     payload := pq_metadata q; chain_id := None; block_number := None; tx_hash := None;
     market_key := Some (pq_market_key q); price := Some (pq_price q) |}.
Definition frame_quote (c : CexWebsocketConnector) (now : DateTime) (f : Frame) : option ParsedQuote :=
  match f with
  | FText text =>
      raw ← from_str text;
      match parser (venue c) now raw with Ret q => Some q | _ => None end
  | _ => None
  end.
(** the frames left, and the answer; [None]: the frames ran out.  [now] and [uuid]:
    the clock and the next UUID when the quote is read *)
Fixpoint read_frames (now : DateTime) (uuid : string) (frames : list Frame) (c : CexWebsocketConnector)
  : (CexWebsocketConnector * list Frame) * option (outcome UnifiedEvent) :=
  match frames with
  | [] => ((c, []), None)
  | f :: frames =>
      match f with
      | FReadFailed =>
          ((c, frames), Some (Err ("websocket read failed for source " +:+ cx_source_id c)))
      | FClose frame =>
          ((set_health (cx_connected c) false (cx_sent c) c, frames),
           Some (Err ("websocket closed for source " +:+ cx_source_id c +:+ ": " +:+ frame)))
      | FEnded =>
          ((set_health (cx_connected c) false (cx_sent c) c, frames),
           Some (Err ("websocket stream ended for source " +:+ cx_source_id c)))
      | FOther => read_frames now uuid frames c
      | FText _ =>
          match frame_quote c now f with
          | Some q => ((c, frames), Some (Ret (quote_event c uuid q)))
          | None => read_frames now uuid frames c
          end
      end
  end.
Definition next_event (now : DateTime) (uuid : string) (frames : list Frame) (c : CexWebsocketConnector)
  : (CexWebsocketConnector * list Frame) * option (outcome UnifiedEvent) :=
  if negb (cx_connected c) then
    ((c, frames), Some (Err ("cannot read before connect for source " +:+ cx_source_id c)))
  else read_frames now uuid frames c.

(** ** Theorems *)

(** a frame the loop passes over *)
Definition passed_over (c : CexWebsocketConnector) (now : DateTime) (f : Frame) : Prop :=
  match f with FText _ => frame_quote c now f = None | FOther => True | _ => False end.
Lemma read_frames_skip now uuid before frames c : Forall (passed_over c now) before ->
  read_frames now uuid (before ++ frames) c = read_frames now uuid frames c.
Proof.
  induction 1 as [|f before Hf _ IH]; [done|]. rewrite <- app_comm_cons. simpl.
  destruct f; simpl in Hf |- *; try done. by rewrite Hf.
Qed.

(** A call of the quote connector hands out the first quote.  Messages that
    are no JSON, that the parser of the venue refuses or that are not text are
    passed over; the first with a quote becomes an event under its symbol and
    price and leaves the rest unread.  A close or the end of the stream is an error
    that makes the connector unhealthy; a failed read is an error that leaves it
    as healthy as it was. *)
Theorem first_quote_handed_out now uuid before f frames c : cx_connected c = true ->
  Forall (passed_over c now) before ->
  let '((c', rest), o) := next_event now uuid (before ++ f :: frames) c in
  match frame_quote c now f with
  | Some q => c' = c /\ rest = frames /\ exists u, o = Some (Ret u) /\ payload u = pq_metadata q /\
      market_key u = Some (pq_market_key q) /\ price u = Some (pq_price q) /\ timestamp u = pq_observed_at q
  | None =>
      (f = FReadFailed -> cx_healthy c' = cx_healthy c /\ exists e, o = Some (Err e)) /\
      (f = FEnded \/ (exists reason, f = FClose reason) -> cx_healthy c' = false /\ exists e, o = Some (Err e))
  end.
Proof.
  intros Hc Hb. unfold next_event. rewrite Hc. simpl. rewrite read_frames_skip by done. simpl.
  destruct f; simpl; try (split; [naive_solver|intros [?|[? ?]]; naive_solver]).
  - destruct (frame_quote c now (FText text)) as [q|] eqn:Hq; unfold frame_quote in Hq; simpl in Hq |- *.
    + rewrite Hq. split_and!; [done..|]. eexists. by split_and!.
    + rewrite Hq. destruct (read_frames _ _ _ _) as [[??]?]. split; [done|]. by intros [?|[??]].
  - destruct (read_frames _ _ _ _) as [[??]?]. split; [done|]. by intros [?|[??]].
Qed.
End quotes.
