(* ===== verification/IngestionExamples.v ===== *)
(** * The ingestion crate on concrete inputs

    Instances of the interfaces, a chain with a dead node and a live one that is
    polled twice, and the witnesses of the theorems about the adapter and the quote
    connector. *)
From S2P Require Import Prelude F64 Text Numbers Ports EventSchema FieldMapping Hex StreamExamples WorkerConfig SseConnector EvmLogs EvmAdapter EvmAdapterProofs QuoteConnector.

Section examples.
#[local] Existing Instance chrono_Z.
#[local] Existing Instance serde_json_tree.
#[local] Existing Instance powi_squaring.
#[local] Existing Instance u256_Z.
#[local] Existing Instance canonical_order.

(** hashes are numbers, of which the bytes are the low 256 bits; addresses are text *)
Lemma be_bytes_length n v : String.length (be_bytes n v) = n.
Proof. induction n as [|n IH]; simpl; by f_equal. Qed.
#[local] Instance evm_Z : EvmTypes :=
  {| Address := string; address_from_str := fun s => if (String.length s =? 42)%nat then Some s else None;
     address_from_slice := fun s => s; address_debug := fun s => s;
     H256 := Z; h256_bytes := fun h => be_bytes 32 (h mod 2 ^ 256);
     h256_bytes_length := fun h => be_bytes_length 32 (h mod 2 ^ 256);
     h256_debug := fmt_Z; h256_zero := 0; keccak256 := be_number;
     from_big_endian := be_number; from_big_endian_spec := fun b _ => eq_refl;
     i256_to_string := fun v => fmt_Z (signed_word v); i256_to_string_spec := fun v _ => eq_refl;
     u256_debug := fmt_Z |}.

(** ** A chain with three watched logs *)

Definition answer_log (block tx answer : Z) : Log :=
  {| log_address := "oracle"; log_topics := [answer_updated_topic; answer; 7]; log_data := "";
     log_block_hash := Some 1; log_block_number := Some block; log_transaction_hash := Some tx;
     log_transaction_index := Some 0; log_log_index := Some 0 |}.
Definition loan_log (block tx : Z) : Log :=
  {| log_address := "pool"; log_topics := [keccak256 "FlashLoan"; 1; 2; 3];
     log_data := be_bytes 32 1000000 +:+ be_bytes 32 900; log_block_hash := Some 1;
     log_block_number := Some block; log_transaction_hash := Some tx;
     log_transaction_index := Some 0; log_log_index := Some 0 |}.
Definition stray_log : Log :=
  {| log_address := "pool"; log_topics := [5]; log_data := ""; log_block_hash := None;
     log_block_number := Some 104; log_transaction_hash := None; log_transaction_index := None;
     log_log_index := None |}.
Definition demo_chain : list Log := [answer_log 101 11 (-5); stray_log; loan_log 110 12; answer_log 112 13 9].
(** the first node never answers; the head of the chain moves between the polls *)
#[local] Instance two_nodes : ChainEnv :=
  {| ws_connect := fun _ _ => true;
     rpc_block_number := fun n url =>
       if bool_decide (url = "ws://b") then Some (if (n <? 10)%nat then 110 else 115) else None;
     rpc_logs := fun _ url f =>
       if bool_decide (url = "ws://b") then Some (filter (matches f) demo_chain) else None;
     env_now := fun n => at_ns (Z.of_nat n); env_uuid := fun n => fmt_Z (Z.of_nat n) |}.
Definition price_feed : ProtocolBinding :=
  {| pb_protocol := "aave-v3"; oracle_decimals := 0; pb_protocol_category := Lending |}.
Definition loans : FlashLoanSourceConfig :=
  {| fl_id := "aave loans"; fl_protocol := "Aave"; fl_enabled := true;
     fl_contract_addresses := []; fl_event_signature := "FlashLoan"; fl_protocol_category := None;
     fl_asset_pair_hint := None |}.
Definition no_adapter : EvmChainAdapter :=
  {| providers := []; ad_chain_slug := ""; ad_chain_id := 0; confirmation_depth := 0;
     lookback_blocks := 0; filter_chunk_size := 0; log_block_range_size := 0; active_provider_index := 0;
     oracle_protocol_map := ∅; flash_loan_source_map := ∅; seen_event_keys := ∅ |}.
Definition connected : World := outcome_or {| w_adapter := no_adapter; w_step := 0 |}
  (new_with_urls 0 ["ws://a"; " ws://b "; "ws://a"; ""] "ethereum" 1 12
     (build_oracle_protocol_map [(["oracle"], price_feed)])).
(** the adapter, with the source of loans at an address of the model *)
Definition start : World :=
  {| w_adapter :=
       {| providers := providers (w_adapter connected); ad_chain_slug := "ethereum"; ad_chain_id := 1;
          confirmation_depth := 3; lookback_blocks := 12; filter_chunk_size := 250;
          log_block_range_size := 10; active_provider_index := 0;
          oracle_protocol_map := oracle_protocol_map (w_adapter connected);
          flash_loan_source_map := {["pool" := [flash_binding Lending loans]]}; seen_event_keys := ∅ |};
     w_step := 0 |}.
Example two_endpoints : endpoint <$> providers (w_adapter connected) = ["ws://a"; "ws://b"].
Proof. reflexivity. Qed.
Lemma start_ready : ready (w_adapter start).
Proof. vm_compute. lia. Qed.

Lemma failover_rotates_witness : let '(w', r) := with_failover "get_block_number" rpc_block_number start in
  r = Ret (110, 1%nat) /\ active_provider_index (w_adapter w') = 1%nat.
Proof.
  pose proof (failover_rotates "get_block_number" rpc_block_number start start_ready) as Hf.
  assert (Hr : (with_failover "get_block_number" rpc_block_number start).2 = Ret (110, 1%nat)) by by vm_compute.
  destruct (with_failover _ _ start) as [w' r]. simpl in Hr. subst r.
  destruct Hf as (_ & [(i & x & _ & _ & _ & Hx & Ha & _)|(_ & Hx & _)]); [|done].
  pose proof (f_equal (fun r => match r with Ret y => y.2 | _ => O end) Hx) as Hi. split; [done|]. exact (eq_trans Ha (eq_sym Hi)).
Defined.

Lemma demo_faithful : faithful demo_chain.
Proof.
  intros n url f ls. simpl. case_bool_decide; [|done]. intros [= <-] l.
  rewrite list_elem_of_filter. tauto.
Qed.
Lemma demo_keyed : keyed demo_chain.
Proof.
  split.
  - intros l Hl. unfold demo_chain in Hl. repeat (apply elem_of_cons in Hl as [->|Hl]; [by eexists|]).
    by apply elem_of_nil in Hl.
  - intros l l' Hl Hl'. unfold demo_chain in Hl, Hl'.
    repeat (apply elem_of_cons in Hl as [->|Hl]); try (by apply elem_of_nil in Hl);
    repeat (apply elem_of_cons in Hl' as [->|Hl']); try (by apply elem_of_nil in Hl'); done.
Qed.
Lemma demo_nodup : NoDup demo_chain.
Proof.
  apply (NoDup_fmap_1 log_transaction_hash). apply (bool_decide_eq_true_1 _). by vm_compute.
Qed.
Lemma demo_reliable : reliable (w_adapter start).
Proof.
  exists "ws://b". split; [apply (bool_decide_eq_true_1 _); by vm_compute|].
  split; intros; simpl; by eexists.
Qed.
Lemma range_logs_complete_witness : exists logs, (fetch_logs_in_range 98 110 start).2 = Ret logs /\
  log_transaction_hash <$> (pl_log <$> logs) ≡ₚ [Some 11; Some 12].
Proof.
  pose proof (range_logs_complete demo_chain 98 110 start demo_faithful demo_keyed demo_nodup start_ready
    ltac:(lia) ltac:(vm_compute; discriminate)) as Hr. cbv zeta in Hr.
  destruct (fetch_logs_in_range 98 110 start) as [w' r]. destruct Hr as (_ & _ & Hret & Hlogs).
  destruct (Hret demo_reliable) as [logs ->]. exists logs. split; [done|]. rewrite (Hlogs logs eq_refl).
  apply reflexive_eq. by vm_compute.
Defined.

(** ** Two polls of the connector *)

#[local] Instance event_keys : EventCodec := {| event_to_value := fun e => Ret (JString (ne_event_key e)) |}.
Definition demo_connector : EvmChainConnector := connector_new "acme" "eth".
Definition two_polls : list (outcome (list NormalizedEvent)) := (polls 2 start).2.
Example two_polls_found : keys (found two_polls) =
  ["ethereum:101:11:0"; "ethereum:110:12:0:Aave:aave-loans"; "ethereum:112:13:0"].
Proof. by vm_compute. Qed.
(** the flash loan of the first poll is handed over by neither call *)
Lemma only_first_event_handed_over_witness :
  (fun r => as_str (payload r)) <$> omap (fun r => match r with Ret u => Some u | _ => None end)
    (calls demo_connector 2 start).2 = [Some "ethereum:101:11:0"; Some "ethereum:112:13:0"] /\
  NoDup (keys (found two_polls)).
Proof.
  pose proof (only_first_event_handed_over demo_connector 2 start) as Hf. unfold two_polls.
  destruct (polls 2 start) as [w' rs] eqn:Hp. destruct Hf as (-> & Hnd & _). split; [|exact Hnd].
  simpl. assert (Hrs : rs = two_polls) by by unfold two_polls; rewrite Hp. subst rs. by vm_compute.
Defined.

Lemma oracle_answer_read_back_witness : exists raw, decode_answer_updated_raw (answer_log 101 11 (-5)) = Some raw /\
  scale_answer raw 0 = f64_div (f64_of_Z (-5)) (powi f64_ten 0).
Proof.
  eapply oracle_answer_read_back; [|reflexivity|reflexivity]. lia.
Defined.

(** ** A quote after a message that is none *)

#[local] Instance any_text : JsonText :=
  {| from_str := fun s => if bool_decide (s = "quote") then
       Some (VObj [("symbol", JString "DAI-USD"); ("price", JString "0.5")]) else None |}.
Definition curve_feed : CexWebsocketConnector :=
  {| cx_tenant_id := "acme"; cx_source_id := "curve"; ws_endpoint := "wss://feed"; market_symbols := [];
     venue := Curve; cx_connected := true; cx_healthy := true; cx_sent := [] |}.
Lemma first_quote_handed_out_witness :
  let '((c, rest), o) := next_event (at_ns 0) "id" [FOther; FText "noise"; FText "quote"; FEnded] curve_feed in
  rest = [FEnded] /\ exists u, o = Some (Ret u) /\ market_key u = Some "DAI-USD" /\ price u = Some (f64_lit 1 2).
Proof.
  pose proof (first_quote_handed_out (at_ns 0) "id" [FOther; FText "noise"] (FText "quote") [FEnded] curve_feed
    eq_refl ltac:(repeat constructor)) as Hq.
  destruct (next_event _ _ _ _) as [[c rest] o]. simpl in Hq.
  destruct Hq as (_ & -> & u & -> & _ & Hk & Hp & _). split; [done|]. exists u.
  split_and!; [done|exact Hk|]. etrans; [exact Hp|]. by vm_compute.
Defined.
End examples.
