(* ===== verification/DeadLetter.v ===== *)
(** * The dead letter queue ([crates/state-manager/src/dead_letter_queue.rs])

    Failures of the processing of an entry of a stream are counted in a table, in
    one row per entry; an entry that has failed often enough is not to be tried
    again.  A recording is a query and then an update or an insert, so two
    recordings may interleave; any statement may fail, and then changes nothing.

    What the counts are over any history of calls, and what is answered from
    them, the first failure included. *)
From S2P Require Import Prelude F64 Text Numbers Ports.

Section queue.
Context `{Chrono} `{SerdeJson}.

Record DeadLetterEntry := {
  dl_stream_name : string; dl_entry_id : string; dl_payload : Value; dl_error_message : string;
  dl_retry_count : Z; dl_first_failure_at : DateTime; dl_last_failure_at : DateTime;
  dl_created_at : DateTime
}.
Definition DEFAULT_MAX_RETRIES : Z := 3.
(** the table by its primary key [id] *)
Notation Table := (gmap string DeadLetterEntry).
(** whether a statement fails and [NOW()], by its number *)
Class QueueEnv := { queue_fails : nat -> bool; queue_now : nat -> DateTime }.
Context `{!QueueEnv}.
Record QueueWorld := { qw_table : Table; qw_step : nat }.
Notation IO := (ST QueueWorld).
Definition statement {A} (f : DateTime -> Table -> Table * outcome A) : IO A := fun w =>
  if queue_fails (qw_step w) then ({| qw_table := qw_table w; qw_step := S (qw_step w) |}, Err "db error")
  else let '(t, r) := f (queue_now (qw_step w)) (qw_table w) in
       ({| qw_table := t; qw_step := S (qw_step w) |}, r).

(** [init_schema]: the tables of [information_schema] by schema and name *)
Definition init_schema (tables : list (string * string)) : outcome unit :=
  if existsb (fun t => bool_decide (t = ("public", "dead_letter_queue"))) tables then Ret ()
  else Err "missing core schema table: dead_letter_queue".

(** ** Recording a failure *)

Definition queue_id (stream_name entry_id : string) : string := stream_name +:+ ":" +:+ entry_id.
Definition retry_count_of (id : string) : IO (option Z) :=
  statement (fun _ t => (t, Ret (dl_retry_count <$> t !! id))).
Definition bump (now : DateTime) (count : Z) (error : string) (e : DeadLetterEntry) : DeadLetterEntry :=
  {| dl_stream_name := dl_stream_name e; dl_entry_id := dl_entry_id e; dl_payload := dl_payload e;
     dl_error_message := error; dl_retry_count := count;
     dl_first_failure_at := dl_first_failure_at e; dl_last_failure_at := now;
     dl_created_at := dl_created_at e |}.
(** [UPDATE … WHERE id = $3]: nothing when the row is gone *)
Definition update_entry (id : string) (count : Z) (error : string) : IO unit :=
  statement (fun now t => (alter (bump now count error) id t, Ret ())).
Definition first_entry (now : DateTime) (stream_name entry_id : string) (payload : Value)
    (error : string) : DeadLetterEntry :=
  {| dl_stream_name := stream_name; dl_entry_id := entry_id; dl_payload := payload;
     dl_error_message := error; dl_retry_count := 1;
     dl_first_failure_at := now; dl_last_failure_at := now; dl_created_at := now |}.
Definition insert_entry (id : string) (row : DateTime -> DeadLetterEntry) : IO unit :=
  statement (fun now t =>
    if is_some (t !! id) then (t, Err "duplicate key value violates unique constraint")
    else (<[id := row now]> t, Ret ())).
Section calls.
Context (max_retries : Z).
(** what follows the query, with its answer *)
Definition record_found (stream_name entry_id : string) (payload : Value) (error : string)
    (existing : option Z) : IO bool :=
  let id := queue_id stream_name entry_id in
  match existing with
  | Some retry_count =>
      let new_retry_count := wrap_i32 (retry_count + 1) in
      _ ← update_entry id new_retry_count error;
      mret (max_retries <=? new_retry_count)
  | None =>
      _ ← insert_entry id (fun now => first_entry now stream_name entry_id payload error);
      mret false
  end.
Definition record_failure (stream_name entry_id : string) (payload : Value) (error : string) : IO bool :=
  existing ← retry_count_of (queue_id stream_name entry_id);
  record_found stream_name entry_id payload error existing.
Definition should_retry (stream_name entry_id : string) : IO bool :=
  row ← retry_count_of (queue_id stream_name entry_id);
  mret (match row with Some retry_count => retry_count <? max_retries | None => true end).
Definition remove_entry (stream_name entry_id : string) : IO unit :=
  statement (fun _ t => (delete (queue_id stream_name entry_id) t, Ret ())).

(** ** Monitoring *)

(** [ORDER BY created_at DESC LIMIT $1] *)
Definition newer (a b : string * DeadLetterEntry) : bool :=
  ns (dl_created_at b.2) <=? ns (dl_created_at a.2).
Definition list_entries (limit : Z) : IO (list (string * DeadLetterEntry)) :=
  statement (fun _ t => (t,
    if limit <? 0 then Err "LIMIT must not be negative"
    else Ret (take (Z.to_nat limit) (sort_by newer (map_to_list t))))).
Record DeadLetterStats := { total_entries : Z; permanent_failures : Z; retryable_failures : Z }.
Definition count_rows (p : DeadLetterEntry -> bool) (t : Table) : Z :=
  Z.of_nat (length (filter (fun kr => p kr.2 = true) (map_to_list t))).
Definition get_stats : IO DeadLetterStats :=
  statement (fun _ t => (t, Ret
    {| total_entries := wrap_u64 (count_rows (fun _ => true) t);
       permanent_failures := wrap_u64 (count_rows (fun e => max_retries <=? dl_retry_count e) t);
       retryable_failures := wrap_u64 (count_rows (fun e => dl_retry_count e <? max_retries) t) |})).

(** ** One caller *)

Inductive Call :=
  | Record_ (stream_name entry_id : string) (payload : Value) (error : string)
  | Retry (stream_name entry_id : string)
  | Remove (stream_name entry_id : string).
Definition call (c : Call) : IO bool :=
  match c with
  | Record_ s e payload error => record_failure s e payload error
  | Retry s e => should_retry s e
  | Remove s e => _ ← remove_entry s e; mret true
  end.
Definition History : Type := list (Call * outcome bool).
Fixpoint run_calls (cs : list Call) (w : QueueWorld) : QueueWorld * History :=
  match cs with
  | [] => (w, [])
  | c :: cs => let '(w, r) := call c w in let '(w, h) := run_calls cs w in (w, (c, r) :: h)
  end.
Definition stored (t : Table) (id : string) : Z := default 0 (dl_retry_count <$> t !! id).
Definition counted (t : Table) (k : Z) : Prop :=
  forall id e, t !! id = Some e -> 0 < dl_retry_count e <= k.
Lemma counted_stored t k id : counted t k -> 0 <= k -> 0 <= stored t id <= k.
Proof. intros Ht Hk. unfold stored. destruct (t !! id) as [e|] eqn:He; simpl; [apply Ht in He; lia|lia]. Qed.
Lemma counted_none t k id : counted t k -> t !! id = None <-> stored t id = 0.
Proof.
  intros Ht. unfold stored. destruct (t !! id) as [e|] eqn:He; simpl; [|done]. apply Ht in He. split; [done|lia].
Qed.



(** ** Several workers *)

(** the two statements of a recording, each worker busy with one at a time *)
Inductive Action :=
  | Query (worker : nat) (stream_name entry_id : string) (payload : Value) (error : string)
  | Store (worker : nat)
  | Delete (stream_name entry_id : string).
Record Pending := { pd_stream_name : string; pd_entry_id : string; pd_payload : Value; pd_error : string; pd_existing : option Z }.
Definition pd_id (p : Pending) : string := queue_id (pd_stream_name p) (pd_entry_id p).
(** the recordings that returned, with their answers, in order *)
Record Workers := { ws_world : QueueWorld; ws_pending : gmap nat Pending; ws_done : list (string * bool) }.
Definition act (a : Action) (s : Workers) : Workers :=
  match a with
  | Query k stream_name entry_id payload error =>
      match retry_count_of (queue_id stream_name entry_id) (ws_world s) with
      | (w, Ret existing) =>
          {| ws_world := w; ws_done := ws_done s;
             ws_pending := <[k := {| pd_stream_name := stream_name; pd_entry_id := entry_id; pd_payload := payload;
                                     pd_error := error; pd_existing := existing |}]> (ws_pending s) |}
      | (w, _) => {| ws_world := w; ws_pending := delete k (ws_pending s); ws_done := ws_done s |}
      end
  | Store k =>
      match ws_pending s !! k with
      | None => s
      | Some p =>
          let '(w, r) := record_found (pd_stream_name p) (pd_entry_id p) (pd_payload p) (pd_error p)
                           (pd_existing p) (ws_world s) in
          {| ws_world := w; ws_pending := delete k (ws_pending s);
             ws_done := match r with Ret b => ws_done s ++ [(pd_id p, b)] | _ => ws_done s end |}
      end
  | Delete stream_name entry_id =>
      {| ws_world := (remove_entry stream_name entry_id (ws_world s)).1; ws_pending := ws_pending s;
         ws_done := ws_done s |}
  end.
Definition acts (l : list Action) (s : Workers) : Workers := foldl (fun s a => act a s) s l.
Definition idle (w : QueueWorld) : Workers := {| ws_world := w; ws_pending := ∅; ws_done := [] |}.
Definition times (id : string) (l : list (string * bool)) : Z :=
  Z.of_nat (length (filter (fun d => d.1 = id) l)).
Lemma times_snoc id l d : times id (l ++ [d]) = times id l + if bool_decide (d.1 = id) then 1 else 0.
Proof.
  unfold times. rewrite filter_app, length_app. rewrite filter_cons. case_bool_decide as Hd.
  - rewrite decide_True by done. simpl. lia.
  - rewrite decide_False by done. simpl. lia.
Qed.
Lemma times_snoc_le id l d : times id l <= times id (l ++ [d]).
Proof. rewrite times_snoc. case_bool_decide; lia. Qed.
Lemma wrap_i32_le z : - 2 ^ 31 <= z -> - 2 ^ 31 <= wrap_i32 z <= z.
Proof.
  intros Hz. unfold wrap_i32. pose proof (Z.mod_pos_bound (z + 2 ^ 31) (2 ^ 32) ltac:(lia)).
  pose proof (Z.mod_le (z + 2 ^ 31) (2 ^ 32) ltac:(lia) ltac:(lia)). lia.
Qed.
(** no count is ahead of the recordings that returned *)
Definition bounded (c k : Z) : Prop := - 2 ^ 31 <= c <= k.
Definition honest (l : list (string * bool)) : Prop := forall l1 id l2,
  l = l1 ++ (id, true) :: l2 -> max_retries <= times id l1 + 1.
Record behind (s : Workers) : Prop := {
  behind_rows : forall id e, qw_table (ws_world s) !! id = Some e -> bounded (dl_retry_count e) (times id (ws_done s));
  behind_pending : forall k p c, ws_pending s !! k = Some p -> pd_existing p = Some c -> bounded c (times (pd_id p) (ws_done s));
  behind_done : honest (ws_done s)
}.
Lemma honest_snoc l id b : honest l -> (b = true -> max_retries <= times id l + 1) -> honest (l ++ [(id, b)]).
Proof.
  intros Hl Hb l1 id' l2 Heq. destruct l2 as [|d l2 _] using rev_ind.
  - apply app_inj_tail in Heq as [-> [= <- ->]]. by apply Hb.
  - rewrite app_comm_cons, app_assoc in Heq. apply app_inj_tail in Heq as [-> _]. by eapply Hl.
Qed.
Lemma bounded_le c k k' : bounded c k -> k <= k' -> bounded c k'.
Proof. unfold bounded. lia. Qed.
Lemma table_after_statement {A} (f : DateTime -> Table -> Table * outcome A) w w' r :
  statement f w = (w', r) -> (qw_table w' = qw_table w /\ r = Err "db error") \/
    exists now, f now (qw_table w) = (qw_table w', r).
Proof.
  unfold statement. destruct (queue_fails _); [intros [= <- <-]; by left|].
  destruct (f _ _) as [t x] eqn:Hf. intros [= <- <-]. right. by eexists.
Qed.
(** one stored recording *)
Lemma store_behind s k p w r : behind s -> ws_pending s !! k = Some p ->
  record_found (pd_stream_name p) (pd_entry_id p) (pd_payload p) (pd_error p) (pd_existing p) (ws_world s) = (w, r) ->
  (forall id e, qw_table w !! id = Some e -> bounded (dl_retry_count e)
     (times id (match r with Ret b => ws_done s ++ [(pd_id p, b)] | _ => ws_done s end))) /\
  (r = Ret true -> max_retries <= times (pd_id p) (ws_done s) + 1).
Proof.
  intros [Hrows Hpend Hdone] Hp Hr. specialize (Hpend k p).
  assert (Hkeep : forall b id e, qw_table (ws_world s) !! id = Some e ->
    bounded (dl_retry_count e) (times id (ws_done s ++ [(pd_id p, b)]))).
  { intros b id e He. eapply bounded_le; [by apply Hrows|apply times_snoc_le]. }
  assert (Hself : forall b, times (pd_id p) (ws_done s ++ [(pd_id p, b)]) = times (pd_id p) (ws_done s) + 1).
  { intros b. rewrite times_snoc. by rewrite bool_decide_true. }
  unfold record_found in Hr. destruct (pd_existing p) as [c|].
  - pose proof (Hpend c Hp eq_refl) as Hc. unfold bounded in Hc. pose proof (wrap_i32_le (c + 1) ltac:(lia)) as Hw.
    unfold mbind, st_bind in Hr. destruct (update_entry _ _ _ _) as [w1 r1] eqn:Hu. unfold update_entry in Hu.
    apply table_after_statement in Hu as [[Ht ->]|[now [= Ht <-]]]; injection Hr as <- <-.
    + split; [|done]. intros id e He. apply Hrows. by rewrite <- Ht.
    + split; [|intros [= Hm]; apply Z.leb_le in Hm; lia]. intros id e He. rewrite <- Ht in He.
      apply lookup_alter_Some in He as [(<- & row & Hrow & ->)|[_ He]]; [|by apply Hkeep].
      fold (pd_id p). rewrite Hself. simpl. unfold bounded. lia.
  - unfold mbind, st_bind in Hr. destruct (insert_entry _ _ _) as [w1 r1] eqn:Hu. unfold insert_entry in Hu.
    apply table_after_statement in Hu as [[Ht ->]|[now Hi]].
    + injection Hr as <- <-. split; [|done]. intros id e He. apply Hrows. by rewrite <- Ht.
    + destruct (is_some _); injection Hi as Ht <-; injection Hr as <- <-.
      * split; [|done]. intros id e He. apply Hrows. by rewrite Ht.
      * split; [|done]. intros id e He. rewrite <- Ht in He.
        apply lookup_insert_Some in He as [[<- <-]|[_ He]]; [|by apply Hkeep].
        fold (pd_id p). rewrite Hself. simpl. unfold bounded, times. lia.
Qed.
Lemma act_behind a s : behind s -> behind (act a s).
Proof.
  intros Hb. pose proof Hb as [Hrows Hpend Hdone]. destruct a as [k sn e payload error|k|sn e]; simpl.
  - destruct (retry_count_of _ _) as [w r] eqn:Hq. unfold retry_count_of in Hq.
    apply table_after_statement in Hq as [[Ht ->]|[now [= Ht <-]]].
    + split; simpl; [intros id row; rewrite Ht; apply Hrows| |done].
      intros k' p c [_ Hl]%lookup_delete_Some. by eapply Hpend.
    + split; simpl; [intros id row; rewrite <- Ht; apply Hrows| |done].
      intros k' p c [[_ <-]|[_ Hl]]%lookup_insert_Some; [|by eapply Hpend]. simpl. intros Hc.
      apply fmap_Some in Hc as (row & Hrow & ->). by apply Hrows.
  - destruct (ws_pending s !! k) as [p|] eqn:Hp; [|done].
    destruct (record_found _ _ _ _ _ _) as [w r] eqn:Hr.
    destruct (store_behind s k p w r Hb Hp Hr) as [Hrow Htrue]. split; simpl; [done| |].
    + intros k' p' c [_ Hl]%lookup_delete_Some Hc. eapply bounded_le; [by eapply Hpend|].
      destruct r; [apply times_snoc_le|done..].
    + destruct r as [b| |]; [|done..]. apply honest_snoc; [done|]. intros ->. by apply Htrue.
  - destruct (remove_entry _ _ _) as [w r] eqn:Hq. unfold remove_entry in Hq.
    apply table_after_statement in Hq as [[Ht _]|[now [= Ht _]]]; split; simpl; try done; intros id row.
    + rewrite Ht. apply Hrows.
    + rewrite <- Ht. intros [_ Hl]%lookup_delete_Some. by apply Hrows.
Qed.

(** Nobody gives up too early.  However the statements of recordings and
    removals of several workers interleave and whichever fail, a recording that
    says that the retries of an entry are used up comes after at least that many
    recordings of the entry, itself included; what interleaving can do is lose
    failures, never invent them. *)
Theorem never_given_up_early l n l1 id l2 :
  ws_done (acts l (idle {| qw_table := ∅; qw_step := n |})) = l1 ++ (id, true) :: l2 ->
  max_retries <= times id l1 + 1.
Proof.
  assert (Hb : behind (acts l (idle {| qw_table := ∅; qw_step := n |}))).
  { unfold acts. apply foldl_inv; [|intros; by apply act_behind].
    split; simpl; [intros id' e He; by rewrite lookup_empty in He|intros k p c Hp; by rewrite lookup_empty in Hp|].
    intros l1' id' l2' Heq. by destruct l1'. }
  intros Hd. by eapply (behind_done _ Hb).
Qed.
End calls.
End queue.

(** ** Concrete runs *)

Section examples.
#[local] Existing Instance chrono_Z.
#[local] Existing Instance serde_json_tree.
(** the fourth statement fails *)
#[local] Instance one_failure : QueueEnv := {| queue_fails := fun n => (n =? 3)%nat; queue_now := fun n => sec (Z.of_nat n) |}.
Definition fail_ (id : string) : Call := Record_ "raksha:events" id JNull "boom".
Definition no_rows : QueueWorld := {| qw_table := ∅; qw_step := 0 |}.
Definition answers (h : History) : list (option bool) :=
  (fun cr => match cr.2 with Ret b => Some b | _ => None end) <$> h.
Definition some_calls : list Call :=
  [fail_ "1-0"; fail_ "1-0"; fail_ "1-0"; Retry "raksha:events" "1-0"; fail_ "1-0";
   Retry "raksha:events" "1-0"; Remove "raksha:events" "1-0"; Retry "raksha:events" "1-0"].
Definition some_run := run_calls 3 some_calls no_rows.
Example some_answers :
  answers some_run.2 = [Some false; None; Some false; Some true; Some true; Some false; Some true; Some true].
Proof. vm_compute. reflexivity. Qed.
(** with one retry allowed, the first failure is not said to be the last, and the
    entry is not to be tried again *)
Example first_failure_unnoticed :
  answers (run_calls 1 [fail_ "1-0"; Retry "raksha:events" "1-0"] no_rows).2 = [Some false; Some false].
Proof. vm_compute. reflexivity. Qed.
(** two entries of two streams with one identifier *)
Example colliding_entries :
  answers (run_calls 3 [Record_ "a" "b:c" JNull ""; Record_ "a:b" "c" JNull ""; Remove "a" "b:c"; Retry "a:b" "c"]
    {| qw_table := ∅; qw_step := 4 |}).2 = [Some false; Some false; Some true; Some true].
Proof. vm_compute. reflexivity. Qed.
(** the schema of the repository keeps the table in another schema *)
Example schema_check_fails : init_schema [("ingest", "dead_letter_queue")] = Err "missing core schema table: dead_letter_queue".
Proof. reflexivity. Qed.
(** two workers read the same count: three failures are counted as two *)
Definition query (k : nat) : Action := Query k "raksha:events" "1-0" JNull "boom".
Definition two_workers := acts 2 [query 1; Store 1; query 1; query 2; Store 1; Store 2] (idle {| qw_table := ∅; qw_step := 4 |}).
Definition two_done := ws_done two_workers.
Example lost_failure :
  two_done = [("raksha:events:1-0", false); ("raksha:events:1-0", true); ("raksha:events:1-0", true)]
  /\ dl_retry_count <$> qw_table (ws_world two_workers) !! "raksha:events:1-0" = Some 2.
Proof. vm_compute. by split. Qed.
Lemma never_given_up_early_witness : 2 <= times "raksha:events:1-0" [("raksha:events:1-0", false)] + 1.
Proof.
  apply (never_given_up_early 2 [query 1; Store 1; query 1; query 2; Store 1; Store 2] 4
    [("raksha:events:1-0", false)] "raksha:events:1-0" [("raksha:events:1-0", true)]).
  vm_compute. reflexivity.
Defined.
End examples.
