(* ===== verification/HealthCheck.v ===== *)
(** * The health server and the detector's wait for commands
      ([crates/common/src/health_check.rs], [apps/detector/src/main.rs])

    The answers of the health server to a request, of which it reads once and at
    most 1024 bytes, and the command a [POST /reload] sends on a channel of the
    process.  Then the loop of the detector, which waits for one of five things,
    the channel among them, and acts on the one that comes: which of them that
    is, is an input of the loop, so nothing is assumed of [tokio::select!].

    When a reload is sent. *)
From Stdlib Require Import Ascii.
From S2P Require Import Prelude F64 Text Numbers Ports EventSchema FieldMapping PatternCommon Persistence DepegPolicy DepegPattern DepegExamples Utilization UtilizationPattern UtilizationPatternProofs FlashLoan TvlDrop TvlDropPattern TvlDropProofs GenericRule Registry RegistryProofs WorkerConfig SseConnector.

(** ** The server *)

Inductive HealthCommand := TriggerReload.
Record HealthStatus := {
  service_name : string; is_ready : bool; redis_connected : bool; postgres_connected : bool;
  details : list string
}.
(** the channel of the commands; the receiver may be gone *)
Record Channel := { queued : list HealthCommand; receiver_alive : bool }.
Record HealthCheckServer := {
  port : Z; status : HealthStatus; command_tx : option Channel; command_token : option string
}.
Definition HealthStatus_new (service_name : string) : HealthStatus :=
  {| service_name := service_name; is_ready := false; redis_connected := false;
     postgres_connected := false; details := [] |}.
Definition server_new (port : Z) (service_name : string) : HealthCheckServer :=
  {| port := port; status := HealthStatus_new service_name; command_tx := None; command_token := None |}.
Definition with_command_channel (tx : Channel) (token : option string) (s : HealthCheckServer)
  : HealthCheckServer :=
  {| port := port s; status := status s; command_tx := Some tx;
     command_token := value ← token; let trimmed := trim value in
                      if is_empty trimmed then None else Some trimmed |}.
Definition set_channel (tx : option Channel) (s : HealthCheckServer) : HealthCheckServer :=
  {| port := port s; status := status s; command_tx := tx; command_token := command_token s |}.

Section server.
Context `{SerdeJson}.

Definition crlf : string := bytes [13; 10]%nat.
Definition http_response (code : string) (body : Value) : string :=
  let body := value_to_string body in
  "HTTP/1.1 " +:+ code +:+ crlf +:+ "Content-Type: application/json" +:+ crlf
  +:+ "Content-Length: " +:+ fmt_Z (Z.of_nat (String.length body)) +:+ crlf +:+ crlf +:+ body.
Definition health_response : string :=
  http_response "200 OK" (VObj [("status", VString "ok"); ("message", VString "service is alive")]).
Definition ready_body (state : string) (s : HealthStatus) : Value :=
  VObj [ ("status", VString state); ("service", VString (service_name s)); ("redis", VBool (redis_connected s));
         ("postgres", VBool (postgres_connected s)); ("details", VArray (VString <$> details s)) ].
Definition ready_response (s : HealthStatus) : string :=
  if is_ready s then http_response "200 OK" (ready_body "ready" s)
  else http_response "503 Service Unavailable" (ready_body "not_ready" s).
Definition flag (b : bool) : Value := VInt (if b then 1 else 0).
Definition metrics_response (s : HealthStatus) : string :=
  http_response "200 OK"
    (VObj [ ("service", VString (service_name s)); ("redis_connected", flag (redis_connected s));
            ("postgres_connected", flag (postgres_connected s)); ("is_ready", flag (is_ready s)) ]).
Definition not_found_response : string :=
  http_response "404 Not Found"
    (VObj [ ("error", VString "not found");
            ("available_endpoints", VArray (VString <$> ["/health"; "/ready"; "/metrics"; "/reload"])) ]).

(** [str::lines]: what follows the last newline is a line when it is not empty *)
Definition without_cr (line : string) : string :=
  default line (strip_suffix (bytes [13]%nat) line).
Definition lines (s : string) : list string :=
  let parts := split_on newline s in
  let rest := List.last parts EmptyString in
  (without_cr <$> removelast parts) ++ (if is_empty rest then [] else [rest]).
Fixpoint take_while {A} (p : A -> bool) (l : list A) : list A :=
  match l with x :: l => if p x then x :: take_while p l else [] | [] => [] end.
Definition header_value (name line : string) : option string :=
  let trimmed := trim line in
  if starts_with (to_ascii_lowercase trimmed) (to_ascii_lowercase name +:+ ":") then
    '(_, value) ← split_once (ascii_of_nat 58) trimmed; Some (trim value)
  else None.
Definition request_header (request name : string) : option string :=
  find_map (header_value name)
    (take_while (fun line => negb (is_empty (trim line))) (drop 1 (lines request))).
Definition TOKEN_HEADER : string := "x-internal-service-token".
Definition error_body (e : string) : Value := VObj [("error", VString e)].
Definition send (c : HealthCommand) (tx : Channel) : option Channel :=
  if receiver_alive tx then Some {| queued := queued tx ++ [c]; receiver_alive := true |} else None.
Definition reload_response (request : string) (s : HealthCheckServer) : HealthCheckServer * string :=
  match command_tx s with
  | None => (s, http_response "404 Not Found" (error_body "reload_not_supported"))
  | Some tx =>
      let unauthorized := match command_token s with
                          | Some expected => negb (bool_decide (request_header request TOKEN_HEADER = Some expected))
                          | None => false
                          end in
      if unauthorized then (s, http_response "401 Unauthorized" (error_body "unauthorized"))
      else match send TriggerReload tx with
           | None => (s, http_response "503 Service Unavailable" (error_body "reload_unavailable"))
           | Some tx =>
               (set_channel (Some tx) s, http_response "202 Accepted"
                  (VObj [("status", VString "accepted"); ("message", VString "reload requested")]))
           end
  end.
Definition BUFFER_SIZE : nat := 1024.
(** one connection, with the bytes of its first read; [None]: the read failed *)
Definition serve (s : HealthCheckServer) (read : option string) : HealthCheckServer * option string :=
  match read with
  | None | Some EmptyString => (s, None)
  | Some sent =>
      let request := from_utf8_lossy (String.substring 0 BUFFER_SIZE sent) in
      let request_line := default EmptyString (head (lines request)) in
      if starts_with request_line "GET /health" then (s, Some health_response)
      else if starts_with request_line "GET /ready" then (s, Some (ready_response (status s)))
      else if starts_with request_line "GET /metrics" then (s, Some (metrics_response (status s)))
      else if starts_with request_line "POST /reload" then
        let '(s, response) := reload_response request s in (s, Some response)
      else (s, Some not_found_response)
  end.

(** ** Its start *)

Context `{!ProcessEnv}.
Definition health_port : Z := default 8080 (env_var "HEALTH_CHECK_PORT" ≫= parse_unsigned 65535).
Definition health_enabled : bool :=
  match env_var "HEALTH_CHECK_ENABLED" with
  | Some v => bool_decide (v = "1") || eq_ignore_ascii_case v "true"
  | None => true
  end.
(** without a server the sender is dropped *)
Definition start_health_check_server_with_commands (service_name : string) (tx : Channel)
    (token : option string) : option HealthCheckServer :=
  if health_enabled then Some (with_command_channel tx token (server_new health_port service_name)) else None.
End server.

(** ** When a reload is sent *)

Section reload.
Context `{SerdeJson}.
(** the line has the header [name], in any case, with this value *)
Definition header_line (name line value : string) : Prop :=
  exists n v, trim line = n +:+ ":" +:+ v /\ to_ascii_lowercase n = name /\ value = trim v.
(** the first line of that name after the request line, and before any blank
    line, has this value *)
Definition carries (request name value : string) : Prop :=
  exists first before line after,
    lines request = first :: before ++ line :: after /\
    Forall (fun l => trim l <> EmptyString /\ forall v, ~ header_line name l v) before /\
    header_line name line value.
(** the process takes commands and the request asks for a reload, with the token
    when one is configured *)
Definition asks_reload (s : HealthCheckServer) (request : string) : Prop :=
  (exists rest, head (lines request) = Some ("POST /reload" +:+ rest)) /\
  (exists tx, command_tx s = Some tx /\ receiver_alive tx = true) /\
  (forall token, command_token s = Some token -> carries request "x-internal-service-token" token).
Definition told (s : HealthCheckServer) : HealthCheckServer :=
  set_channel ((fun tx => {| queued := queued tx ++ [TriggerReload]; receiver_alive := true |}) <$> command_tx s) s.
Definition is_202 (response : option string) : bool :=
  match response with Some r => starts_with r "HTTP/1.1 202 " | None => false end.
Lemma starts_with_head (c : ascii) s p q :
  starts_with s (String c p) = true -> (forall d r, q = String d r -> d <> c) -> q <> EmptyString ->
  starts_with s q = false.
Proof.
  unfold starts_with. intros Hs Hq Hne. apply bool_decide_eq_true in Hs as [r Hr]. apply bool_decide_eq_false.
  intros [r' Hr']. destruct s as [|b s]; [done|]. simpl in Hr. case_bool_decide as Hb; [|done]. subst b.
  destruct q as [|d q]; [done|]. simpl in Hr'. case_bool_decide as Hd; [|done]. by eapply (Hq d q).
Qed.
Lemma response_202 body : is_202 (Some (http_response "202 Accepted" body)) = true.
Proof. unfold is_202, http_response, starts_with. apply bool_decide_eq_true. by eexists. Qed.

(** one command more and 202, or no change and another answer *)
Definition reload_outcome (s : HealthCheckServer) (request : string) (s' : HealthCheckServer)
    (response : option string) : Prop :=
  asks_reload s request /\ s' = told s /\ is_202 response = true \/
  ~ asks_reload s request /\ s' = s /\ is_202 response = false.

(** *** Headers *)

Lemma lower_cons c s : to_ascii_lowercase (String c s) = String (ascii_lower c) (to_ascii_lowercase s).
Proof. done. Qed.
Lemma lower_colon c : ascii_lower c = ":"%char <-> c = ":"%char.
Proof. by destruct c as [[] [] [] [] [] [] [] []]. Qed.
(** what begins, in lower case, with a name without colons and a colon is such a
    name and its value *)
Lemma lower_prefix name s :
  split_once ":" name = None ->
  (starts_with (to_ascii_lowercase s) (name +:+ ":") = true ->
   exists n v, s = n +:+ ":" +:+ v /\ to_ascii_lowercase n = name) /\
  (forall n v, s = n +:+ ":" +:+ v -> to_ascii_lowercase n = name ->
   starts_with (to_ascii_lowercase s) (name +:+ ":") = true /\ split_once ":" s = Some (n, v)).
Proof.
  intros Hname. split.
  - intros Hs. apply bool_decide_eq_true in Hs as [r Hr%strip_prefix_Some]. revert s Hr.
    induction name as [|c name IH]; intros [|d s] Hr; try discriminate Hr.
    + rewrite lower_cons in Hr. injection Hr as Hd _. apply lower_colon in Hd as ->.
      by exists EmptyString, s.
    + rewrite lower_cons in Hr. injection Hr as Hd Hr. simpl in Hname. case_bool_decide; [done|].
      destruct (split_once ":" name) as [[? ?]|]; [done|].
      destruct (IH eq_refl s Hr) as (n & v & -> & Hn). exists (String d n), v.
      by rewrite lower_cons, Hd, Hn.
  - intros n v -> Hn. split.
    + apply bool_decide_eq_true. unfold to_ascii_lowercase in *. rewrite !map_string_app, Hn.
      exists (map_string ascii_lower v). apply strip_prefix_Some. clear.
      induction name as [|c name IH]; [done|exact (f_equal (String c) IH)].
    + revert name Hname Hn. induction n as [|c n IH]; intros name Hname Hn; [done|].
      rewrite lower_cons in Hn. subst name. simpl in Hname. simpl.
      destruct (bool_decide_reflect (ascii_lower c = ":"%char)) as [|Hc]; [done|].
      destruct (split_once ":" (to_ascii_lowercase n)) as [[? ?]|] eqn:Hl; [done|].
      rewrite bool_decide_eq_false_2 by (by rewrite <- lower_colon). simpl in IH.
      by rewrite (IH _ Hl eq_refl).
Qed.
Lemma header_value_spec name line v :
  to_ascii_lowercase name = name -> split_once ":" name = None ->
  header_value name line = Some v <-> header_line name line v.
Proof.
  intros Hlow Hcol. unfold header_value, header_line. cbv zeta. rewrite Hlow.
  destruct (lower_prefix name (trim line) Hcol) as [H1 H2].
  change (ascii_of_nat 58) with ":"%char. split.
  - destruct (starts_with _ _); [|done]. destruct (H1 eq_refl) as (n & w & Hl & Hn).
    destruct (H2 n w Hl Hn) as [_ Hsp]. rewrite Hsp. intros [= <-]. by exists n, w.
  - intros (n & w & Hl & Hn & ->). destruct (H2 n w Hl Hn) as [Hst Hsp]. by rewrite Hst, Hsp.
Qed.
Lemma is_empty_spec x : is_empty x = true <-> x = EmptyString.
Proof. by destruct x. Qed.
Lemma header_line_not_blank name line v : header_line name line v -> trim line <> EmptyString.
Proof. intros (n & w & Hl & _). rewrite Hl. by destruct n. Qed.
Lemma request_header_spec request name v :
  to_ascii_lowercase name = name -> split_once ":" name = None ->
  request_header request name = Some v <-> carries request name v.
Proof.
  intros Hlow Hcol. unfold request_header, carries. destruct (lines request) as [|first rest].
  { split; [done|]. by intros (? & ? & ? & ? & ? & _). }
  simpl. rewrite drop_0. induction rest as [|line rest IH]; simpl.
  { split; [done|]. intros (? & before & ? & ? & [= _ Heq] & _). by destruct before. }
  pose proof (fun v => header_value_spec name line v Hlow Hcol) as Hspec.
  destruct (is_empty (trim line)) eqn:He; simpl.
  - apply is_empty_spec in He. split; [done|]. intros (? & before & l & after & [= _ Heq] & Hb & Hl).
    destruct before as [|b before]; injection Heq as -> _.
    + by apply header_line_not_blank in Hl.
    + by apply Forall_cons in Hb as [[Hne _] _].
  - destruct (header_value name line) as [w|] eqn:Hv.
    + split.
      * intros [= <-]. exists first, [], line, rest. split; [done|]. split; [constructor|by apply Hspec].
      * intros (? & before & l & after & [= _ Heq] & Hb & Hl).
        destruct before as [|b before]; injection Heq as -> _; [by apply Hspec in Hl|].
        apply Forall_cons in Hb as [[_ Hno] _]. exfalso. apply (Hno w). by apply Hspec.
    + rewrite IH. split.
      * intros (? & before & l & after & [= _ ->] & Hb & Hl). exists first, (line :: before), l, after.
        split; [done|]. split; [|done]. constructor; [|done]. split.
        -- intros Hnil. by rewrite Hnil in He.
        -- intros y Hy. apply Hspec in Hy. discriminate.
      * intros (? & before & l & after & [= _ Heq] & Hb & Hl).
        destruct before as [|b before]; injection Heq as -> ->; [by apply Hspec in Hl|].
        apply Forall_cons in Hb as [_ Hb]. by exists first, before, l, after.
Qed.

(** C29: a reload is asked of the process by an authorised request and by no
    other.  Whatever bytes a connection brings, the server appends one command
    to the channel, and answers 202, exactly when the first line begins with
    [POST /reload], the process takes commands, and, when a token is configured,
    the first header [x-internal-service-token] of the request, read up to the
    first blank line and to 1024 bytes, carries it to the letter; otherwise it
    changes nothing and does not answer 202. *)
Theorem reload_only_with_token s sent : sent <> EmptyString ->
  let '(s', response) := serve s (Some sent) in
  reload_outcome s (from_utf8_lossy (String.substring 0 1024 sent)) s' response.
Proof.
  intros Hne. unfold serve. destruct sent as [|c sent]; [done|]. cbv zeta.
  change BUFFER_SIZE with 1024%nat.
  set (request := from_utf8_lossy _). set (line := default EmptyString (head (lines request))).
  destruct (starts_with line "POST /reload") eqn:Hpost.
  - rewrite !(starts_with_head "P" line "OST /reload") by (done || (intros d r [= <- _]; discriminate)).
    assert (Hhead : exists rest, head (lines request) = Some ("POST /reload" +:+ rest)).
    { unfold line in Hpost. apply bool_decide_eq_true in Hpost as [r Hr%strip_prefix_Some].
      destruct (head (lines request)); [|done]. exists r. by rewrite <- Hr. }
    simpl. unfold reload_response. destruct (command_tx s) as [tx|] eqn:Htx.
    2:{ right. split; [|by split]. intros (_ & (? & ? & _) & _). congruence. }
    pose proof (request_header_spec request TOKEN_HEADER) as Htok.
    assert (Hsend : (forall token, command_token s = Some token -> carries request TOKEN_HEADER token) ->
      let '(s', response) := match send TriggerReload tx with
        | None => (s, http_response "503 Service Unavailable" (error_body "reload_unavailable"))
        | Some tx => (set_channel (Some tx) s, http_response "202 Accepted"
            (VObj [("status", VString "accepted"); ("message", VString "reload requested")]))
        end in reload_outcome s request s' (Some response)).
    { intros Hc. unfold send. destruct (receiver_alive tx) eqn:Ha.
      - left. unfold told. rewrite Htx. split; [|split; [done|apply response_202]].
        split_and!; [exact Hhead|by exists tx|exact Hc].
      - right. split; [|by split]. intros (_ & (tx' & Htx' & ?) & _). congruence. }
    destruct (command_token s) as [token|] eqn:Hct; [|by destruct (send _ _); apply Hsend].
    destruct (bool_decide_reflect (request_header request TOKEN_HEADER = Some token)) as [Hh|Hh]; simpl.
    + destruct (send _ _); apply Hsend; intros t [= <-]; by apply Htok.
    + right. split; [|by split]. intros (_ & _ & Hc). apply Hh, Htok; [done|done|]. by apply Hc.
  - assert (Hno : ~ asks_reload s request).
    { intros ((rest & Hh) & _). unfold line in Hpost. rewrite Hh in Hpost. simpl in Hpost.
      apply bool_decide_eq_false in Hpost. apply Hpost. exists rest. by apply strip_prefix_Some. }
    repeat (match goal with |- context [if starts_with line ?p then _ else _] => destruct (starts_with line p) end);
      right; unfold ready_response; try destruct (is_ready _); by split.
Qed.
End reload.

(** ** The loop of the detector *)

Section detector.
Context `{Chrono} `{SerdeJson} `{!FieldCodec} `{Unicode} `{Powi} `{HashOrder} `{!DepegCodec}
  `{!UtilizationCodec} `{!FlashLoanCodec} `{!TvlCodec} `{!PatternStore} `{!DetectionSink}.
Notation config_map := (gmap (string * string) Value).

(** what one of the five branches of [select!] brings *)
Inductive DetectorInput :=
  | CtrlC
  | ReloadTick
  | NotifyIn (signal : option unit)
  | CommandIn (command : option HealthCommand)
  | EntriesIn (entries : outcome (list Entry)).
Definition on_input (configs : outcome config_map) (i : DetectorInput) (d : Detector) : Detector * outcome unit :=
  match i with
  | CtrlC | CommandIn None | EntriesIn (Err _) => (d, Ret ())
  | ReloadTick | NotifyIn _ | CommandIn (Some TriggerReload) => reload_pattern_configs configs d
  | EntriesIn (Ret es) => handle_entries d es
  | EntriesIn Panic => (d, Panic)
  end.
(** the branches that come first, one a turn, with the configurations a reload
    would read *)
Fixpoint detector_loop (ts : list (DetectorInput * outcome config_map)) (d : Detector)
  : Detector * outcome unit :=
  match ts with
  | [] => (d, Ret ())
  | (CtrlC, _) :: _ => (d, Ret ())
  | (i, configs) :: ts =>
      match on_input configs i d with
      | (d, Ret _) => detector_loop ts d
      | r => r
      end
  end.
End detector.

(** ** Concrete runs *)

Section examples.
#[local] Existing Instance chrono_Z.
#[local] Existing Instance serde_json_tree.
#[local] Existing Instance field_codec_json.
#[local] Existing Instance powi_squaring.
#[local] Existing Instance unicode_ascii.
#[local] Existing Instance canonical_order.
#[local] Existing Instance depeg_codec_json.
#[local] Existing Instance utilization_codec_json.
#[local] Existing Instance flash_codec_json.
#[local] Existing Instance tvl_codec_json.
#[local] Existing Instance tables_store.
#[local] Existing Instance list_sink.

Definition commands : Channel := {| queued := []; receiver_alive := true |}.
Definition guarded (token : string) : HealthCheckServer :=
  with_command_channel commands (Some token) (server_new 8080 "detector").
Definition post (headers : list string) : string :=
  foldr (fun line s => line +:+ crlf +:+ s) crlf ("POST /reload HTTP/1.1" :: headers).
Definition queue_after (s : HealthCheckServer) (sent : string) : option nat :=
  (fun tx => length (queued tx)) <$> command_tx (serve s (Some sent)).1.
Definition signed : string := post ["Host: detector"; "X-Internal-Service-Token:  secret "].
Lemma signed_asks : asks_reload (guarded " secret ") signed.
Proof.
  split_and!; [by eexists|by exists commands|]. intros token [= <-].
  exists "POST /reload HTTP/1.1", ["Host: detector"], "X-Internal-Service-Token:  secret ", [""].
  split_and!; [vm_compute; reflexivity| |].
  - constructor; [|constructor]. split; [discriminate|].
    intros v Hv. apply header_value_spec in Hv; [vm_compute in Hv; discriminate|done|done].
  - exists "X-Internal-Service-Token", "  secret". split_and!; vm_compute; reflexivity.
Qed.
Lemma reload_only_with_token_witness :
  asks_reload (guarded " secret ") signed /\
  (serve (guarded " secret ") (Some signed)).1 = told (guarded " secret ").
Proof.
  split; [exact signed_asks|].
  pose proof (reload_only_with_token (guarded " secret ") signed ltac:(discriminate)) as Hr.
  destruct (serve (guarded " secret ") (Some signed)) as [s' r]. simpl.
  destruct Hr as [(_ & Hr & _)|(Hn & _)]; [exact Hr|]. contradiction (Hn signed_asks).
Defined.
Example wrong_tokens : queue_after (guarded "secret") (post ["X-Internal-Service-Token: Secret"]) = Some O
  /\ queue_after (guarded "secret") (post []) = Some O
  /\ queue_after (guarded "secret") ("POST /reload HTTP/1.1" +:+ crlf +:+ crlf +:+ "X-Internal-Service-Token: secret") = Some O.
Proof. vm_compute. done. Qed.
(** a blank token is no token, and then every request is obeyed *)
Example blank_token_open : queue_after (guarded "  ") (post []) = Some 1%nat.
Proof. vm_compute. reflexivity. Qed.
(** a token behind the first 1024 bytes is not seen *)
Example long_request_refused :
  queue_after (guarded "secret") (post ["Cookie: " +:+ String.concat "" (replicate 1000 "x"); "X-Internal-Service-Token: secret"])
  = Some O.
Proof. vm_compute. reflexivity. Qed.

(** the health server is switched off by any other word than [1] and [true] *)
Example says_yes_is_off :
  @health_enabled {| env_var := fun name => if bool_decide (name = "HEALTH_CHECK_ENABLED") then Some "yes" else None |}
  = false.
Proof. reflexivity. Qed.
(** a turn handles the branch that came: the closed channel changes nothing, a
    read has its entry handled and acknowledged, Ctrl-C ends the loop *)
Example loop_turns :
  acked (detector_loop [(CommandIn None, Ret ∅); (EntriesIn (Ret [flash_entry "1"]), Ret ∅);
    (CtrlC, Ret ∅); (EntriesIn (Ret [flash_entry "2"]), Ret ∅)] detector).1 = ["1"].
Proof. vm_compute. reflexivity. Qed.
End examples.
