(* ===== verification/Enrichment.v ===== *)
(** * Reference prices, traces and correlation
      ([crates/feature-builder/src/], [crates/state-manager/src/correlation.rs])

    What is added to a detection from outside: the reference price of a pair,
    averaged over the sources that answer, the trace summary, the identifier of
    the incident it belongs to and the dependencies of a protocol.  The HTTP
    client and the configuration of the sources are interfaces.

    When there is a price and which, and when two detections are one incident. *)
From Stdlib Require Import Ascii.
From stdpp Require Import pretty.
From S2P Require Import Prelude F64 Text Numbers Ports EventSchema Hex.

(** ** Reference prices *)

Definition static_price (pair : string) : f64 :=
  if bool_decide (pair = "ETH/USD") then f64_of_Z 3200
  else if bool_decide (pair = "BTC/USD") then f64_of_Z 95000
  else if bool_decide (pair = "USDC/USD") then f64_of_Z 1
  else f64_zero.
(** the answer of the ticker: its [price], or that there is none *)
Class Ticker := { ticker_price : string -> outcome string }.
Record LivePrices := {
  eth_provider : bool; uniswap_pools : gmap string string; binance_enabled : bool; uniswap_enabled : bool
}.
Section prices.
Context `{!Ticker}.
Definition fetch_binance_price (pair : string) : outcome f64 :=
  let fetch symbol :=
    text ← ticker_price symbol;
    match parse_f64 text with Some price => Ret price | None => Err "Failed to parse Binance price" end in
  if bool_decide (pair = "ETH/USD") then fetch "ETHUSDT"
  else if bool_decide (pair = "BTC/USD") then fetch "BTCUSDT"
  else if bool_decide (pair = "USDC/USD") then Ret (f64_of_Z 1)
  else Err ("Unsupported pair for Binance: " +:+ pair).
Definition fetch_uniswap_twap (p : LivePrices) (pair : string) : outcome f64 :=
  if negb (eth_provider p) then Err "No Ethereum provider configured for Uniswap"
  else match uniswap_pools p !! pair with
       | None => Err ("No Uniswap pool configured for pair: " +:+ pair)
       | Some _ => Ret (f64_of_Z 3200)
       end.
(** a source that fails or has no positive price counts for nothing *)
Definition push_price (prices : list f64) (answer : outcome f64) : outcome (list f64) :=
  match answer with
  | Ret price => Ret (if f64_lt f64_zero price then prices ++ [price] else prices)
  | Err _ => Ret prices
  | Panic => Panic
  end.
Definition gather_prices (p : LivePrices) (pair : string) : outcome (list f64) :=
  prices ← (if binance_enabled p then push_price [] (fetch_binance_price pair) else Ret []);
  if uniswap_enabled p && eth_provider p then push_price prices (fetch_uniswap_twap p pair) else Ret prices.
Definition get_averaged_price (p : LivePrices) (pair : string) : outcome f64 :=
  prices ← gather_prices p pair;
  match prices with
  | [] => Err ("No valid price sources available for " +:+ pair)
  | _ => Ret (f64_div (f64_sum prices) (f64_of_Z (Z.of_nat (length prices))))
  end.
End prices.

(** ** Traces and correlation *)

Section enrichment.
Context `{Chrono} `{SerdeJson}.
Definition trace_summary : Value :=
  VObj [ ("has_flash_loan", VBool true); ("same_oracle_read_twice", VBool true);
         ("large_swap_detected", VBool true); ("source", VString "feature-builder") ].
Definition enrich_with_trace (d : DetectionResult) : DetectionResult :=
  {| detection_id := detection_id d; pattern_id := pattern_id d; det_event_key := det_event_key d;
     subject_type := subject_type d; subject_key := subject_key d; det_tenant_id := det_tenant_id d;
     det_chain := det_chain d; det_chain_slug := det_chain_slug d; protocol := protocol d;
     det_lifecycle_state := det_lifecycle_state d; requires_confirmation := requires_confirmation d;
     attack_family := attack_family d; severity := severity d; description := description d;
     triggered_rule_ids := triggered_rule_ids d; det_tx_hash := det_tx_hash d;
     det_block_number := det_block_number d; signals := signals d; risk_score := risk_score d;
     incident_transition := incident_transition d; context_classification := context_classification d;
     confidence_breakdown := confidence_breakdown d;
     oracle_context := <["trace_summary" := trace_summary]> (oracle_context d);
     actions_recommended := actions_recommended d; is_simulated := is_simulated d;
     simulation_run_id := simulation_run_id d; detected_at := detected_at d; created_at := created_at d |}.
Definition correlate_detection (d : DetectionResult) : option string :=
  match triggered_rule_ids d with
  | [] => None
  | _ => Some ("incident:" +:+ to_ascii_lowercase (chain_debug (det_chain d)) +:+ ":" +:+ protocol d +:+ ":"
               +:+ fmt_Z (det_block_number d))
  end.
Record DependencyEdge := { de_source : string; de_target : string; de_relation : string; de_weight : option f64 }.
Definition dependency_edges_for_protocol (protocol : string) : list DependencyEdge :=
  [{| de_source := "chainlink:eth-usd"; de_target := protocol; de_relation := "price_dependency";
      de_weight := Some (f64_of_Z 1) |}].
End enrichment.

(** ** When there is a price *)

Section price_laws.
Context `{!Ticker}.
(** the sources that are asked, in order *)
Definition sources (p : LivePrices) (pair : string) : list (outcome f64) :=
  (if binance_enabled p then [fetch_binance_price pair] else [])
  ++ (if uniswap_enabled p && eth_provider p then [fetch_uniswap_twap p pair] else []).
Definition positive_price (answer : outcome f64) : option f64 :=
  match answer with Ret price => if f64_lt f64_zero price then Some price else None | _ => None end.
Lemma omap_short {A B} (f : A -> option B) (l : list A) : (length (omap f l) <= length l)%nat.
Proof. induction l as [|x l IH]; [done|]. csimpl. destruct (f x); csimpl; lia. Qed.
Lemma push_price_ret prices answer : answer <> Panic ->
  push_price prices answer = Ret (prices ++ option_list (positive_price answer)).
Proof.
  intros Hp. destruct answer as [x|e|]; simpl; [|by rewrite app_nil_r|done].
  destruct (f64_lt f64_zero x); simpl; [done|by rewrite app_nil_r].
Qed.
Lemma gather_prices_ret p pair : Panic ∉ sources p pair ->
  gather_prices p pair = Ret (omap (M := list) positive_price (sources p pair)).
Proof.
  unfold sources, gather_prices. intros Hp. rewrite omap_app.
  destruct (binance_enabled p); simpl; [rewrite push_price_ret by (intros Hx; apply Hp; rewrite Hx; set_solver)|];
    (destruct (uniswap_enabled p && eth_provider p); simpl;
      [rewrite push_price_ret by (intros Hx; apply Hp; rewrite Hx; set_solver)|]);
    repeat (match goal with |- context [positive_price ?a] => destruct (positive_price a) end); done.
Qed.

(** The reference price is the mean of the sources that have one.  The
    sources that are switched on are asked in order; those that fail, or whose
    price is no positive number, are left out; there is a price exactly when one
    is left, and it is their sum over their number, never negative when the sum
    is finite. *)
Theorem reference_price_is_mean p pair : Panic ∉ sources p pair ->
  let prices := omap (M := list) positive_price (sources p pair) in
  match get_averaged_price p pair with
  | Ret avg => prices <> [] /\ avg = f64_div (f64_sum prices) (f64_of_Z (Z.of_nat (length prices))) /\
               Forall (fun x => f64_lt f64_zero x = true) prices /\
               (is_finite (f64_sum prices) = true -> f64_nonneg avg)
  | Err _ => prices = []
  | Panic => False
  end.
Proof.
  intros Hp prices. assert (Hpos : Forall (fun x => f64_lt f64_zero x = true) prices).
  { apply Forall_forall. intros x [[y|e|] [_ Hx]]%list_elem_of_omap; simpl in Hx; [|done..].
    destruct (f64_lt f64_zero y) eqn:Hy; simplify_eq. done. }
  assert (Hlen : (length prices <= 2)%nat).
  { etrans; [apply omap_short|]. unfold sources. rewrite length_app.
    destruct (binance_enabled p), (uniswap_enabled p && eth_provider p); simpl; lia. }
  unfold get_averaged_price. rewrite (gather_prices_ret p pair Hp). fold prices. simpl.
  destruct prices as [|x l] eqn:Hprices; [done|]. split_and!; [done..|]. intros Hf. apply f64_div_nonneg; [|by destruct l as [|? [|]]; simpl in Hlen; [reflexivity..|lia]|done].
  apply f64_sum_nonneg. eapply Forall_impl; [exact Hpos|]. intros. by apply f64_lt_nonneg.
Qed.
End price_laws.

(** ** When two detections are one incident *)

Section correlation.
Context `{Chrono} `{SerdeJson}.
Fixpoint colon_free (s : string) : bool :=
  match s with EmptyString => true | String c s => negb (bool_decide (c = ":"%char)) && colon_free s end.
Lemma colon_split_l a b p q : colon_free a = true -> colon_free b = true ->
  a +:+ ":" +:+ p = b +:+ ":" +:+ q -> a = b /\ p = q.
Proof.
  revert b. induction a as [|c a IH]; intros [|d b] Ha Hb Heq; simpl in *.
  - by injection Heq.
  - injection Heq as <- _. by rewrite bool_decide_true in Hb.
  - injection Heq as -> _. by rewrite bool_decide_true in Ha.
  - injection Heq as -> Heq. apply andb_true_iff in Ha as [_ Ha], Hb as [_ Hb].
    destruct (IH b Ha Hb Heq) as [-> ->]. done.
Qed.
Lemma colon_inside a b : colon_free (a +:+ ":" +:+ b) = false.
Proof. induction a as [|c a IH]; [done|]. simpl. by rewrite IH, andb_false_r. Qed.
Lemma colon_split_r p q a b : colon_free a = true -> colon_free b = true ->
  p +:+ ":" +:+ a = q +:+ ":" +:+ b -> p = q /\ a = b.
Proof.
  revert q. induction p as [|c p IH]; intros [|d q] Ha Hb Heq; simpl in *.
  - by injection Heq.
  - injection Heq as <- Heq. change ("" +:+ a) with a in Heq. rewrite Heq in Ha. by rewrite colon_inside in Ha.
  - injection Heq as -> Heq. change ("" +:+ b) with b in Heq. rewrite <- Heq in Hb. by rewrite colon_inside in Hb.
  - injection Heq as -> Heq. destruct (IH q Ha Hb Heq) as [-> ->]. done.
Qed.
Lemma colon_free_go n s : colon_free s = true -> colon_free (pretty_N_go n s) = true.
Proof.
  revert s. induction (N.lt_wf_0 n) as [n _ IH]. intros s Hs.
  destruct (decide (n = 0)%N) as [->|Hn]; [by rewrite pretty_N_go_0|].
  rewrite pretty_N_go_step by lia. apply IH; [apply N.div_lt; lia|]. simpl. rewrite Hs, andb_true_r.
  apply negb_true_iff, bool_decide_eq_false. intros Hc.
  pose proof (pretty_char_digit (n `mod` 10) ltac:(apply N.mod_lt; lia)) as Hd. by rewrite Hc in Hd.
Qed.
Lemma colon_free_fmt z : colon_free (fmt_Z z) = true.
Proof.
  destruct z as [|p|p]; [done|..]; change (colon_free (pretty_N_go (N.pos p) "") = true); by apply colon_free_go.
Qed.
Lemma chain_lower_inj c c' : to_ascii_lowercase (chain_debug c) = to_ascii_lowercase (chain_debug c') -> c = c'.
Proof. by destruct c, c'. Qed.
Lemma chain_colon_free c : colon_free (to_ascii_lowercase (chain_debug c)) = true.
Proof. by destruct c. Qed.

(** Detections are one incident by chain, protocol and block.  A detection
    gets an identifier exactly when a rule was triggered, and two that get one
    get the same exactly when chain, protocol and block number agree, whatever
    colons the protocol has in its name; the tenant and the pattern take no
    part. *)
Theorem incident_is_place_and_block d d' i : correlate_detection d = Some i ->
  triggered_rule_ids d <> [] /\
  (correlate_detection d' = Some i <-> triggered_rule_ids d' <> [] /\
    (det_chain d', protocol d', det_block_number d') = (det_chain d, protocol d, det_block_number d)).
Proof.
  unfold correlate_detection. destruct (triggered_rule_ids d) as [|r rs]; [done|]. intros [= <-].
  split; [done|]. destruct (triggered_rule_ids d') as [|r' rs']; [split; [done|by intros [? _]]|]. split.
  - intros [= Heq]. split; [done|].
    apply colon_split_l in Heq as [Hc Heq]; [|apply chain_colon_free..].
    apply colon_split_r in Heq as [Hp Hb]; [|apply colon_free_fmt..].
    apply chain_lower_inj in Hc. unfold fmt_Z in Hb. apply (inj pretty) in Hb. congruence.
  - intros [_ [= -> -> ->]]. done.
Qed.
End correlation.

(** ** Concrete runs *)

Section examples.
#[local] Existing Instance chrono_Z.
#[local] Existing Instance serde_json_tree.
#[local] Instance quoted : Ticker := {| ticker_price := fun symbol => if bool_decide (symbol = "BTCUSDT") then Ret "95000" else Err "timeout" |}.
Definition live : LivePrices :=
  {| eth_provider := true; uniswap_pools := {["BTC/USD" := "0x1"]}; binance_enabled := true; uniswap_enabled := true |}.
(** a pair with a pool is averaged with the placeholder price of the pool *)
Example bitcoin_halved : get_averaged_price live "BTC/USD" = Ret (f64_of_Z 49100).
Proof. vm_compute. reflexivity. Qed.
Lemma live_sources : Panic ∉ sources live "BTC/USD".
Proof. intros Hp. apply list_elem_of_In in Hp. vm_compute in Hp. by destruct_or? Hp. Qed.
Lemma reference_price_is_mean_witness :
  match get_averaged_price live "BTC/USD" with Ret avg => f64_nonneg avg | _ => False end.
Proof.
  pose proof (reference_price_is_mean live "BTC/USD" live_sources) as Hr.
  destruct (get_averaged_price live "BTC/USD") as [avg|e|] eqn:Ha; [|vm_compute in Ha; discriminate Ha|exact Hr].
  apply Hr. vm_compute. reflexivity.
Defined.
Example prices_differ : static_price "DAI/USD" = f64_zero /\
  get_averaged_price live "DAI/USD" = Err "No valid price sources available for DAI/USD".
Proof. vm_compute. by split. Qed.

Definition detection (tenant protocol : string) (rules : list string) : DetectionResult :=
  {| detection_id := "d"; pattern_id := "p"; det_event_key := None; subject_type := None; subject_key := None;
     det_tenant_id := Some tenant; det_chain := Ethereum; det_chain_slug := "ethereum"; protocol := protocol;
     det_lifecycle_state := Provisional; requires_confirmation := false; attack_family := FlashLoan;
     severity := High; description := None; triggered_rule_ids := rules; det_tx_hash := ""; det_block_number := 7;
     signals := []; risk_score := RiskScore_default; incident_transition := None; context_classification := None;
     confidence_breakdown := ∅; oracle_context := ∅; actions_recommended := []; is_simulated := false;
     simulation_run_id := None; detected_at := sec 0; created_at := sec 0 |}.
Example incident_id : correlate_detection (detection "t" "aave" ["r"]) = Some "incident:ethereum:aave:7".
Proof. vm_compute. reflexivity. Qed.
(** the detections of two tenants share an incident *)
Lemma incident_is_place_and_block_witness :
  correlate_detection (detection "u" "aave" ["s"]) = Some "incident:ethereum:aave:7".
Proof.
  apply (incident_is_place_and_block (detection "t" "aave" ["r"]) (detection "u" "aave" ["s"]) "incident:ethereum:aave:7"
    ltac:(vm_compute; reflexivity)).
  split; [discriminate|reflexivity].
Defined.
(** every detection is given the trace of a flash loan *)
Example trace_is_invented : is_some (oracle_context (enrich_with_trace (detection "t" "aave" [])) !! "trace_summary") = true.
Proof. vm_compute. reflexivity. Qed.
End examples.
