(* ===== verification/DetectorStore.v ===== *)
(** * The store of the detector ([crates/state-manager/src/persistence.rs])

    What the registry writes besides the state of the patterns: the detections,
    once per identifier, and the events no indexer has stored, when their source
    takes part and needs the market.  With the pattern tables of [Persistence] and
    a stream whose publications may fail these implement [PatternStore] and
    [DetectionSink], so the theorems of the registry hold over them.

    Which events are stored and as what, and that a detection is saved once. *)
From S2P Require Import Prelude F64 Text Numbers Ports EventSchema Persistence FieldMapping PatternCommon DepegPolicy DepegPattern Utilization UtilizationPattern FlashLoan TvlDrop TvlDropPattern GenericRule Registry RegistryProofs AlertStore Hex IngestStore StreamWorker JsonLaws.

(** the JSON of an instant and of a detection, as serde derives it *)
Class DetectorJson `{Chrono} `{SerdeJson} := {
  instant_json : DateTime -> Value;
  detection_json : DetectionResult -> Value
}.
(** whether a statement or publication fails, and [NOW()], by its number *)
Class DetectorEnv `{Chrono} := { detector_fails : nat -> bool; detector_now : nat -> DateTime }.

Section store.
Context `{Chrono} `{SerdeJson} `{!DetectorJson} `{!DetectorEnv}.

(** ** Tables *)

Record DetectionRow := {
  dr_tx_hash : string; dr_chain : string; dr_protocol : string; dr_subject_type : option string;
  dr_subject_key : option string; dr_tenant_id : string; dr_pattern_id : string; dr_severity : string;
  dr_risk_score : f64; dr_payload : Value; dr_is_simulated : bool; dr_simulation_run_id : option string
}.
(** the pairs a source must deliver; a table that does not exist is [None] *)
Record DetectorDb := {
  dd_patterns : PatternTables;
  dd_detections : gmap string DetectionRow;
  dd_ingest : IngestTables;
  dd_required_pairs : option (list (string * string));
  dd_streams_exist : bool;
  dd_step : nat
}.
Definition with_patterns (p : PatternTables) (db : DetectorDb) : DetectorDb :=
  {| dd_patterns := p; dd_detections := dd_detections db; dd_ingest := dd_ingest db;
     dd_required_pairs := dd_required_pairs db; dd_streams_exist := dd_streams_exist db; dd_step := dd_step db |}.
Definition with_detections (t : gmap string DetectionRow) (db : DetectorDb) : DetectorDb :=
  {| dd_patterns := dd_patterns db; dd_detections := t; dd_ingest := dd_ingest db;
     dd_required_pairs := dd_required_pairs db; dd_streams_exist := dd_streams_exist db; dd_step := dd_step db |}.
Definition with_ingest (t : IngestTables) (db : DetectorDb) : DetectorDb :=
  {| dd_patterns := dd_patterns db; dd_detections := dd_detections db; dd_ingest := t;
     dd_required_pairs := dd_required_pairs db; dd_streams_exist := dd_streams_exist db; dd_step := dd_step db |}.
Definition next_statement (db : DetectorDb) : DetectorDb :=
  {| dd_patterns := dd_patterns db; dd_detections := dd_detections db; dd_ingest := dd_ingest db;
     dd_required_pairs := dd_required_pairs db; dd_streams_exist := dd_streams_exist db; dd_step := S (dd_step db) |}.
Notation IO := (ST DetectorDb).
Definition statement {A} (f : DateTime -> DetectorDb -> DetectorDb * outcome A) : IO A := fun db =>
  if detector_fails (dd_step db) then (next_statement db, Err db_error)
  else let '(db', r) := f (detector_now (dd_step db)) db in (next_statement db', r).

(** ** Detections *)

Definition severity_debug (s : Severity) : string :=
  match s with
  | Info => "Info" | Low => "Low" | Medium => "Medium" | High => "High" | Critical => "Critical"
  end.
Definition detection_row (tenant_id : string) (d : DetectionResult) : DetectionRow :=
  {| dr_tx_hash := det_tx_hash d; dr_chain := to_ascii_lowercase (chain_debug (det_chain d));
     dr_protocol := protocol d; dr_subject_type := subject_type d; dr_subject_key := subject_key d;
     dr_tenant_id := tenant_id; dr_pattern_id := pattern_id d;
     dr_severity := to_ascii_lowercase (severity_debug (severity d)); dr_risk_score := score (risk_score d);
     dr_payload := detection_json d; dr_is_simulated := is_simulated d;
     dr_simulation_run_id := simulation_run_id d |}.
Definition save_detection_row (d : DetectionResult) : IO unit :=
  tenant_id ← lift (require_tenant_id (det_tenant_id d) ("detection " +:+ detection_id d));
  statement (fun _ db =>
    (if is_some (dd_detections db !! detection_id d) then db
     else with_detections (<[detection_id d := detection_row tenant_id d]> (dd_detections db)) db, Ret ())).

(** ** Events *)

(** [serde_json::to_value(event)] *)
Definition source_type_json (s : SourceType) : Value :=
  VString (match s with
           | EvmChain => "evm_chain" | CexWebsocket => "cex_websocket" | DexApi => "dex_api"
           | OracleApi => "oracle_api" | CustomApi => "custom_api"
           end).
Definition event_fields (e : UnifiedEvent) : list (string * Value) :=
  [ ("event_id", VString (event_id e)); ("tenant_id", VString (tenant_id e));
    ("source_id", VString (source_id e)); ("source_type", source_type_json (source_type e));
    ("event_type", VString (event_type e)); ("timestamp", instant_json (timestamp e));
    ("payload", payload e); ("chain_id", VOpt VInt (chain_id e));
    ("block_number", VOpt VInt (block_number e)); ("tx_hash", VOpt VString (tx_hash e));
    ("market_key", VOpt VString (market_key e)); ("price", VOpt VFloat (price e)) ].
Definition event_json (e : UnifiedEvent) : Value := VObj (event_fields e).
Definition parse_json_i64 (value : option Value) : option Z :=
  v ← value;
  match as_i64 v with
  | Some number => Some number
  | None =>
      text ← as_str v;
      match Text.strip_prefix "0x" text with Some hex => i64_from_hex hex | None => Numbers.parse_i64 text end
  end.
Definition event_asset_pair (e : UnifiedEvent) : option string := get_str "s" (payload e).
Definition event_topic0 (e : UnifiedEvent) : option string :=
  topics ← (vget "topics" (payload e) ≫= as_array); head topics ≫= as_str.
Definition event_log_index (e : UnifiedEvent) : option Z := parse_json_i64 (vget "logIndex" (payload e)).
Definition event_normalized (e : UnifiedEvent) : Value :=
  VObj [ ("market_key", VOpt VString (market_key e)); ("price", VOpt VFloat (price e));
         ("asset_pair", VOpt VString (event_asset_pair e)); ("topic0", VOpt VString (event_topic0 e));
         ("log_index", VOpt VInt (event_log_index e)) ].
Definition source_event_row (e : UnifiedEvent) : IngestOperationalEventRecord :=
  let '(is_simulated, simulation_run_id) := simulation_metadata_from_payload (event_json e) in
  {| oe_stream_id := None; oe_source_id := source_id e;
     oe_source_type := to_ascii_lowercase (source_type_debug (source_type e));
     oe_tenant_id := Some (tenant_id e); oe_event_type := event_type e; oe_event_id := Some (event_id e);
     oe_market_key := market_key e; oe_asset_pair := event_asset_pair e; oe_chain_id := chain_id e;
     oe_block_number := block_number e; oe_tx_hash := tx_hash e; oe_log_index := event_log_index e;
     oe_topic0 := event_topic0 e; oe_price := price e; oe_payload_event_ts := Some (timestamp e);
     oe_observed_at := timestamp e; oe_parse_status := "parsed"; oe_parse_error := None;
     oe_payload := event_json e; oe_normalized_fields := event_normalized e;
     oe_dedup_key := Some (event_id e); oe_raw_ref_type := None; oe_raw_ref_id := None;
     oe_raw_s3_uri := None; oe_is_simulated := is_simulated; oe_simulation_run_id := simulation_run_id |}.
Definition required_pair (source_id market_key : string) (db : DetectorDb) : bool :=
  match dd_required_pairs db with Some pairs => bool_decide ((source_id, market_key) ∈ pairs) | None => true end.
Definition is_required_source_market_pair (source_id market_key : string) : IO bool :=
  statement (fun _ db => (db, Ret (required_pair source_id market_key db))).
(** an enabled source with an enabled live stream for an enabled target *)
Definition live_stream (t : IngestTables) (source_id : string) (row : StreamConfigRow) : bool :=
  let c := scr_config row in
  bool_decide (sc_source_id c = source_id) && scr_enabled row
  && bool_decide (sc_operating_mode_profile c = "live")
  && existsb (fun target => bool_decide (tt_stream_config_id target = sc_stream_config_id c) && tt_enabled target)
       (tenant_targets_table t).
Definition ingest_enabled (source_id : string) (db : DetectorDb) : bool :=
  if dd_streams_exist db then
    let t := dd_ingest db in
    match data_sources t !! source_id with Some ds => ds_enabled ds | None => false end
    && existsb (live_stream t source_id) (stream_configs t)
  else true.
Definition is_source_stream_ingest_enabled (source_id : string) : IO bool :=
  statement (fun _ db => (db, Ret (ingest_enabled source_id db))).
Definition insert_row (e : UnifiedEvent) : IO unit :=
  statement (fun now db =>
    let '(t, r) := insert_ingest_operational_event now (source_event_row e) (dd_ingest db) in
    (with_ingest t db, _ ← r; Ret ())).
(** the market an event names, when it is not blank *)
Definition named_market (e : UnifiedEvent) : option string :=
  market ← market_key e; if is_empty (trim market) then None else Some market.
Definition insert_source_feed_event (e : UnifiedEvent) : IO unit :=
  enabled ← is_source_stream_ingest_enabled (source_id e);
  if negb enabled then mret ()
  else
    required ← match named_market e with
               | Some market => is_required_source_market_pair (source_id e) market
               | None => mret true
               end;
    if required : bool then insert_row e else mret ().

(** ** The interfaces of the patterns and of the registry *)

Definition in_patterns {A} (r : PatternTables * A) (db : DetectorDb) : DetectorDb * A := (with_patterns r.1 db, r.2).
#[local] Obligation Tactic := idtac.
#[global] Program Instance detector_store : PatternStore :=
  {| Db := DetectorDb;
     load_pattern_state db := select_pattern_state (dd_patterns db);
     upsert_pattern_state db t p k v := in_patterns (store_pattern_state (dd_patterns db) t p k v) db;
     insert_pattern_snapshot db s := in_patterns (append_pattern_snapshot (dd_patterns db) s) db |}.
Next Obligation. intros db. exact (load_upsert (PatternStore := tables_store) (dd_patterns db)). Qed.
Next Obligation. intros db. exact (load_upsert_other (PatternStore := tables_store) (dd_patterns db)). Qed.
Next Obligation.
  intros db t p k v Hr. pose proof (load_upsert_failed (PatternStore := tables_store) (dd_patterns db) t p k v Hr) as Hl.
  unfold in_patterns. simpl in *. rewrite Hl. by destruct db.
Qed.
Next Obligation. intros db. exact (load_snapshot (PatternStore := tables_store) (dd_patterns db)). Qed.

(** a computation that leaves the pattern tables alone *)
Definition keeps_patterns {A} (m : IO A) : Prop := forall db, dd_patterns (m db).1 = dd_patterns db.
Lemma keeps_patterns_ret {A} (a : A) : keeps_patterns (mret a).
Proof. done. Qed.
Lemma keeps_patterns_bind {A B} (m : IO A) (f : A -> IO B) :
  keeps_patterns m -> (forall a, keeps_patterns (f a)) -> keeps_patterns (m ≫= f).
Proof.
  intros Hm Hf db. unfold mbind, st_bind. specialize (Hm db). destruct (m db) as [db' [a|e|]]; [|done..].
  by rewrite Hf.
Qed.
Lemma keeps_patterns_statement {A} (f : DateTime -> DetectorDb -> DetectorDb * outcome A) :
  (forall now db, dd_patterns (f now db).1 = dd_patterns db) -> keeps_patterns (statement f).
Proof.
  intros Hf db. unfold statement. destruct (detector_fails _); [done|]. specialize (Hf (detector_now (dd_step db)) db).
  by destruct (f _ db).
Qed.
Lemma save_keeps_patterns d : keeps_patterns (save_detection_row d).
Proof.
  apply keeps_patterns_bind; [done|]. intros tenant. apply keeps_patterns_statement. intros _ db. simpl.
  by destruct (is_some _).
Qed.
Lemma insert_keeps_patterns e : keeps_patterns (insert_source_feed_event e).
Proof.
  apply keeps_patterns_bind; [by apply keeps_patterns_statement|]. intros enabled. destruct (negb enabled); [done|].
  apply keeps_patterns_bind; [destruct (named_market e); [by apply keeps_patterns_statement|done]|].
  intros []; [|done]. apply keeps_patterns_statement. intros now db. by destruct (insert_ingest_operational_event _ _ _).
Qed.

(** the stream of detections, with the number of the next publication *)
Class StreamEnv := { publication_fails : nat -> bool }.
Definition publish_to_stream `{!StreamEnv} (s : list DetectionResult * nat) (d : DetectionResult)
  : (list DetectionResult * nat) * outcome unit :=
  if publication_fails s.2 then ((s.1, S s.2), Err "redis error") else ((s.1 ++ [d], S s.2), Ret ()).
#[global] Program Instance detector_sink `{!StreamEnv} : DetectionSink :=
  {| Stream := list DetectionResult * nat;
     published s := s.1;
     insert_raw_event db e := insert_source_feed_event e db;
     save_detection db d := save_detection_row d db;
     publish_detection := publish_to_stream |}.
Next Obligation. intros ? db e t p k. simpl. by rewrite insert_keeps_patterns. Qed.
Next Obligation. intros ? db d t p k. simpl. by rewrite save_keeps_patterns. Qed.
Next Obligation. intros ? [l n] d. unfold publish_to_stream. simpl. by destruct (publication_fails n). Qed.
Next Obligation. intros ? [l n] d. unfold publish_to_stream. simpl. destruct (publication_fails n); [by left|by right]. Qed.

(** ** What is stored of an event *)

(** what the queries say together *)
Definition stores (e : UnifiedEvent) (db : DetectorDb) : bool :=
  ingest_enabled (source_id e) db
  && match named_market e with Some market => required_pair (source_id e) market db | None => true end
  && negb (existsb (fun row => violates_unique (source_event_row e) row.1) (operational (dd_ingest db))).
Lemma event_json_simulation e : vget "simulation" (event_json e) = None.
Proof. unfold event_json. by rewrite vget_VObj. Qed.
Lemma event_json_not_simulated e : get_bool "is_simulated" (event_json e) = None.
Proof. unfold get_bool, event_json. by rewrite vget_VObj. Qed.
Lemma event_simulation_lost e : simulation_metadata_from_payload (event_json e) = (false, None).
Proof.
  unfold simulation_metadata_from_payload. rewrite event_json_simulation, event_json_not_simulated. done.
Qed.
Lemma source_event_row_statuses e : oe_parse_status (source_event_row e) = "parsed".
Proof. unfold source_event_row. by destruct (simulation_metadata_from_payload _). Qed.
Lemma insert_new now e t :
  insert_ingest_operational_event now (source_event_row e) t =
  if existsb (fun row => violates_unique (source_event_row e) row.1) (operational t) then (t, Ret false)
  else (with_operational (operational t ++ [(source_event_row e, now)]) t, Ret true).
Proof.
  unfold insert_ingest_operational_event. rewrite source_event_row_statuses.
  by rewrite bool_decide_false by (intros Hn; apply Hn; by left).
Qed.

(** the source is enabled and has an enabled stream in the live profile with an
    enabled target, or there are no tables of streams *)
Definition source_live (e : UnifiedEvent) (db : DetectorDb) : Prop :=
  dd_streams_exist db = false \/
  (exists ds, data_sources (dd_ingest db) !! source_id e = Some ds /\ ds_enabled ds = true) /\
  exists row target, row ∈ stream_configs (dd_ingest db) /\ scr_enabled row = true /\
    sc_source_id (scr_config row) = source_id e /\ sc_operating_mode_profile (scr_config row) = "live" /\
    target ∈ tenant_targets_table (dd_ingest db) /\ tt_enabled target = true /\
    tt_stream_config_id target = sc_stream_config_id (scr_config row).
(** the market the event names, unless blank, is one its source must deliver, or
    there is no table of those *)
Definition market_needed (e : UnifiedEvent) (db : DetectorDb) : Prop :=
  forall market pairs, market_key e = Some market -> trim market <> EmptyString ->
    dd_required_pairs db = Some pairs -> (source_id e, market) ∈ pairs.
(** no row has the identifier of the event, as its own or as its deduplication key *)
Definition not_stored_yet (e : UnifiedEvent) (db : DetectorDb) : Prop :=
  forall row, row ∈ operational (dd_ingest db) ->
    oe_event_id row.1 <> Some (event_id e) /\ oe_dedup_key row.1 <> Some (event_id e).
Definition admitted (e : UnifiedEvent) (db : DetectorDb) : Prop :=
  source_live e db /\ market_needed e db /\ not_stored_yet e db.
(** the row is that of the event *)
Definition row_of (e : UnifiedEvent) (row : IngestOperationalEventRecord) : Prop :=
  oe_event_id row = Some (event_id e) /\ oe_dedup_key row = Some (event_id e) /\
  oe_source_id row = source_id e /\ oe_tenant_id row = Some (tenant_id e) /\
  oe_event_type row = event_type e /\ oe_market_key row = market_key e /\ oe_price row = price e /\
  oe_chain_id row = chain_id e /\ oe_block_number row = block_number e /\ oe_tx_hash row = tx_hash e /\
  oe_observed_at row = timestamp e /\ oe_parse_status row = "parsed".

Lemma existsb_elem {A} (f : A -> bool) (l : list A) : existsb f l = true <-> exists x, x ∈ l /\ f x = true.
Proof. rewrite existsb_exists. by setoid_rewrite <- list_elem_of_In. Qed.
Lemma ingest_enabled_spec e db : ingest_enabled (source_id e) db = true <-> source_live e db.
Proof.
  unfold ingest_enabled, source_live. destruct (dd_streams_exist db); [|by split; [left|]].
  rewrite andb_true_iff, existsb_elem. unfold live_stream.
  setoid_rewrite andb_true_iff. setoid_rewrite andb_true_iff. setoid_rewrite andb_true_iff.
  setoid_rewrite bool_decide_eq_true. setoid_rewrite existsb_elem. setoid_rewrite andb_true_iff.
  setoid_rewrite bool_decide_eq_true. split.
  - intros [Hds (row & Hrow & ((? & ?) & ?) & target & ? & ? & ?)]. right. split.
    + destruct (data_sources (dd_ingest db) !! source_id e) as [ds|]; [by exists ds|done].
    + by exists row, target.
  - intros [?|[(ds & -> & Hds) (row & target & ? & ? & ? & ? & ? & ? & ?)]]; [done|].
    split; [done|]. exists row. split_and!; try done. by exists target.
Qed.
Lemma market_needed_spec e db :
  match named_market e with Some market => required_pair (source_id e) market db | None => true end = true <->
  market_needed e db.
Proof.
  unfold named_market, market_needed, required_pair. destruct (market_key e) as [market|]; simpl; [|by split].
  destruct (is_empty (trim market)) eqn:He.
  - split; [|done]. intros _ m pairs [= <-] Hne. by destruct (trim market).
  - destruct (dd_required_pairs db) as [pairs|]; [|by split].
    rewrite bool_decide_eq_true. split; [by intros Hin m ? [= <-] _ [= <-]|].
    intros Hn. apply (Hn market pairs); [done| |done]. intros Hnil. by rewrite Hnil in He.
Qed.
Lemma source_event_row_of e : row_of e (source_event_row e).
Proof. unfold source_event_row, row_of. by destruct (simulation_metadata_from_payload _). Qed.
Lemma not_stored_spec e db :
  negb (existsb (fun row => violates_unique (source_event_row e) row.1) (operational (dd_ingest db))) = true <->
  not_stored_yet e db.
Proof.
  destruct (source_event_row_of e) as (Hid & Hdk & _). rewrite negb_true_iff, <- not_true_iff_false, existsb_elem.
  unfold not_stored_yet, violates_unique. setoid_rewrite orb_true_iff. rewrite Hid, Hdk.
  assert (Hsame : forall o : option string, same_some (Some (event_id e)) o = true <-> o = Some (event_id e)).
  { intros [x|]; simpl; [|done]. rewrite bool_decide_eq_true. naive_solver. }
  setoid_rewrite Hsame. split.
  - intros Hno row Hrow. split; intros He; apply Hno; exists row; auto.
  - intros Hall (row & Hrow & [He|He]); destruct (Hall row Hrow); done.
Qed.
Lemma stores_spec e db : stores e db = true <-> admitted e db.
Proof.
  unfold stores, admitted. rewrite !andb_true_iff, ingest_enabled_spec, market_needed_spec, not_stored_spec. tauto.
Qed.
(** what is stored never says that the event is simulated: the simulation is
    looked up in the JSON of the event, whose payload holds it one level deeper *)
Lemma stored_as_live e :
  oe_is_simulated (source_event_row e) = false /\ oe_simulation_run_id (source_event_row e) = None.
Proof. unfold source_event_row. by rewrite event_simulation_lost. Qed.

Lemma feed_event_cases e db db' r : insert_source_feed_event e db = (db', r) ->
  dd_detections db' = dd_detections db /\
  (r = Ret () -> exists now, dd_ingest db' =
     if stores e db
     then with_operational (operational (dd_ingest db) ++ [(source_event_row e, now)]) (dd_ingest db)
     else dd_ingest db) /\
  (r <> Ret () -> r = Err db_error /\ dd_ingest db' = dd_ingest db).
Proof.
  unfold insert_source_feed_event, is_source_stream_ingest_enabled, is_required_source_market_pair, insert_row, stores,
    mbind, st_bind, statement. intros Hr.
  assert (Hnow : exists now : DateTime, True) by (by exists (detector_now O)).
  destruct Hnow as [anytime _].
  destruct (detector_fails (dd_step db)); [by injection Hr as <- <-|].
  destruct (ingest_enabled (source_id e) db) eqn:He; simpl in Hr |- *;
    [|injection Hr as <- <-; split_and!; try done; by exists anytime].
  destruct (named_market e) as [market|]; simpl in Hr |- *.
  - destruct (detector_fails (S (dd_step db))); [by injection Hr as <- <-|].
    change (required_pair (source_id e) market (next_statement db)) with (required_pair (source_id e) market db) in Hr.
    destruct (required_pair (source_id e) market db); simpl in Hr |- *;
      [|injection Hr as <- <-; split_and!; try done; by exists anytime].
    destruct (detector_fails (S (S (dd_step db)))); [by injection Hr as <- <-|].
    rewrite insert_new in Hr. simpl in Hr.
    destruct (existsb _ _); injection Hr as <- <-; (split_and!; try done; intros _; first [by exists anytime | by eexists]).
  - destruct (detector_fails (S (dd_step db))); [by injection Hr as <- <-|].
    rewrite insert_new in Hr. simpl in Hr.
    destruct (existsb _ _); injection Hr as <- <-; (split_and!; try done; intros _; first [by exists anytime | by eexists]).
Qed.

(** C35: the detector stores an event exactly when it is admitted.  When the
    insertion returns without an error, one row of the event is appended exactly
    if its source is enabled and has an enabled live stream with an enabled
    target (or the tables of streams do not exist), the market it names, unless
    blank, is one the source must deliver (or that table does not exist), and no
    row has its identifier as event or deduplication key; otherwise the tables
    stay as they are, and so they do after an error. *)
Theorem source_event_stored e db : let '(db', r) := insert_source_feed_event e db in
  dd_detections db' = dd_detections db /\
  (r = Ret () ->
     admitted e db /\ (exists row now, row_of e row /\
       dd_ingest db' = with_operational (operational (dd_ingest db) ++ [(row, now)]) (dd_ingest db)) \/
     ~ admitted e db /\ dd_ingest db' = dd_ingest db) /\
  (r <> Ret () -> r = Err db_error /\ dd_ingest db' = dd_ingest db).
Proof.
  destruct (insert_source_feed_event e db) as [db' r] eqn:Hr.
  apply feed_event_cases in Hr as (Hd & Hret & Herr). split_and!; [done| |done].
  intros Hok. destruct (Hret Hok) as [now Hi]. rewrite <- stores_spec. destruct (stores e db).
  - left. split; [done|]. exists (source_event_row e), now. split; [apply source_event_row_of|done].
  - by right.
Qed.

(** ** What is saved of a detection *)

Fixpoint saves (ds : list DetectionResult) (db : DetectorDb) : DetectorDb * list (outcome unit) :=
  match ds with
  | [] => (db, [])
  | d :: ds => let '(db, r) := save_detection_row d db in let '(db, rs) := saves ds db in (db, r :: rs)
  end.
(** the first detection of an identifier whose save was answered *)
Fixpoint first_saved (id : string) (ds : list DetectionResult) (rs : list (outcome unit)) : option DetectionResult :=
  match ds, rs with
  | d :: ds, Ret _ :: rs => if bool_decide (detection_id d = id) then Some d else first_saved id ds rs
  | _ :: ds, _ :: rs => first_saved id ds rs
  | _, _ => None
  end.
Definition saved_row (d : DetectionResult) : DetectionRow :=
  detection_row (default "" (trimmed_nonempty (det_tenant_id d))) d.
Lemma save_row_spec d db db' r : save_detection_row d db = (db', r) ->
  (r = Ret () /\ is_Some (trimmed_nonempty (det_tenant_id d)) /\ dd_ingest db' = dd_ingest db /\
   dd_detections db' = (if is_some (dd_detections db !! detection_id d) then dd_detections db
                        else <[detection_id d := saved_row d]> (dd_detections db))) \/
  ((exists e, r = Err e) /\ dd_detections db' = dd_detections db).
Proof.
  unfold save_detection_row, saved_row, require_tenant_id, lift, mbind, st_bind, statement, of_option.
  destruct (trimmed_nonempty (det_tenant_id d)) as [tenant|]; simpl; [|intros [= <- <-]; right; split; [by eexists|done]].
  destruct (detector_fails _); [intros [= <- <-]; right; split; [by eexists|done]|].
  intros [= <- <-]. left. simpl. destruct (is_some _); by split_and!.
Qed.

(** A detection is saved once and never rewritten.  Over any saves and
    failures, the row of an identifier that had none is that of the first
    detection saved under it without an error; a detection without a tenant is
    refused. *)
Theorem detection_saved_once ds db db' rs id : saves ds db = (db', rs) -> dd_detections db !! id = None ->
  dd_detections db' !! id = saved_row <$> first_saved id ds rs /\
  forall i d, ds !! i = Some d -> trimmed_nonempty (det_tenant_id d) = None -> exists e, rs !! i = Some (Err e).
Proof.
  intros Hs Hid. assert (Hrow : forall o, dd_detections db !! id = o ->
    dd_detections db' !! id = match o with Some row => Some row | None => saved_row <$> first_saved id ds rs end /\
    forall i d, ds !! i = Some d -> trimmed_nonempty (det_tenant_id d) = None -> exists e, rs !! i = Some (Err e));
    [|by apply (Hrow None)].
  clear Hid. revert db rs Hs. induction ds as [|d ds IH]; intros db rs Hs o Ho; simpl in Hs.
  { injection Hs as <- <-. split; [by destruct o|]. by intros []. }
  destruct (save_detection_row d db) as [db1 r] eqn:Hd. destruct (saves ds db1) as [db2 rs'] eqn:Hrest.
  injection Hs as <- <-. specialize (IH db1 rs' Hrest _ eq_refl) as [Hin Hnone].
  apply save_row_spec in Hd as [(-> & Ht & _ & Hdet)|[[e ->] Hdet]].
  - split; [|intros [|i] d' Hi Hd'; [injection Hi as ->; rewrite Hd' in Ht; by destruct Ht|by eapply Hnone]].
    rewrite Hin, Hdet. simpl. case_bool_decide as Hc.
    + subst id. rewrite Ho. destruct o as [row|]; simpl; [by rewrite Ho|by rewrite lookup_insert_eq].
    + destruct (is_some _); [by rewrite Ho|]. rewrite lookup_insert_ne by done. by rewrite Ho.
  - split; [|intros [|i] d' Hi Hd'; [by eexists|by eapply Hnone]]. rewrite Hin, Hdet, Ho. done.
Qed.
End store.

(** ** The registry over these tables *)

Section registry.
Context `{Chrono} `{SerdeJson} `{!FieldCodec} `{Unicode} `{Powi} `{HashOrder} `{!DepegCodec}
  `{!UtilizationCodec} `{!FlashLoanCodec} `{!TvlCodec} `{!DetectorJson} `{!DetectorEnv} `{!StreamEnv}.

(** The tables keep tenants apart.  Over the tables, with whatever statements
    and publications fail, a row of the pattern states is after any run of the
    detector what it was before, unless an entry of its tenant was delivered. *)
Theorem tables_keep_tenants_apart (d : Detector) l t pid key :
  built_in_registry (registry d) -> (forall e, e ∈ delivered l -> tenant_id (entry_event e) <> t) ->
  select_pattern_state (dd_patterns (outs (detector_run d l).1).1) t pid key =
  select_pattern_state (dd_patterns (outs d).1) t pid key.
Proof.
  intros Hb Ht. apply (proj2 (detector_run_keeps d l Hb)). intros (e & Hin & ->). by apply (Ht e Hin).
Qed.
End registry.

(** ** Concrete runs *)

Section examples.
#[local] Existing Instance chrono_Z.
#[local] Existing Instance serde_json_tree.
#[local] Instance plain_json : DetectorJson :=
  {| instant_json := fun t => JString (to_rfc3339 t); detection_json := fun _ => JNull |}.
(** the third statement fails *)
#[local] Instance third_fails : DetectorEnv :=
  {| detector_fails := fun n => (n =? 2)%nat; detector_now := fun n => sec (Z.of_nat n) |}.
Definition no_ingest : IngestTables :=
  {| operational := []; source_health := ∅; chain_events := ∅; dex_events := ∅; cex_ticks := ∅;
     ingest_failures := []; stream_configs := []; data_sources := ∅; tenant_targets_table := [] |}.
Definition store0 : DetectorDb :=
  {| dd_patterns := empty_tables; dd_detections := ∅; dd_ingest := no_ingest; dd_required_pairs := None;
     dd_streams_exist := false; dd_step := 0 |}.
Definition replayed : UnifiedEvent :=
  {| event_id := "e1"; tenant_id := "t"; source_id := "s"; source_type := EvmChain; event_type := "log";
     timestamp := sec 5; payload := VObj [("simulation", VObj [("run_id", JString "run-1")]); ("logIndex", JString "0x1f")];
     chain_id := Some 1; block_number := Some 2; tx_hash := None; market_key := None; price := None |}.
(** the simulation of the event is known to the patterns and lost in its row *)
Example simulation_lost :
  simulation_metadata_from_payload (payload replayed) = (true, Some "run-1")
  /\ (fun row => (oe_is_simulated row.1, oe_simulation_run_id row.1, oe_source_type row.1, oe_log_index row.1))
      <$> operational (dd_ingest (insert_source_feed_event replayed store0).1) = [(false, None, "evmchain", Some 31)].
Proof. vm_compute. by split. Qed.
Definition detection (id tenant severity_of : string) : DetectionResult :=
  {| detection_id := id; pattern_id := severity_of; det_event_key := None; subject_type := None; subject_key := None;
     det_tenant_id := Some tenant; det_chain := Ethereum; det_chain_slug := "ethereum"; protocol := "aave";
     det_lifecycle_state := Provisional; requires_confirmation := false; attack_family := FlashLoan;
     severity := High; description := None; triggered_rule_ids := []; det_tx_hash := ""; det_block_number := 7;
     signals := []; risk_score := RiskScore_default; incident_transition := None; context_classification := None;
     confidence_breakdown := ∅; oracle_context := ∅; actions_recommended := []; is_simulated := false;
     simulation_run_id := None; detected_at := sec 0; created_at := sec 0 |}.
Definition some_saves : list DetectionResult :=
  [detection "d" " " "first"; detection "d" "t" "second"; detection "d" "t" "third"; detection "e" "t" "lost"].
Definition saved := saves some_saves store0.
Lemma saved_is : saves some_saves store0 = (saved.1, saved.2).
Proof. unfold saved. apply surjective_pairing. Qed.
Definition saved_pattern (id : string) : option string := dr_pattern_id <$> dd_detections saved.1 !! id.
Lemma detection_saved_once_witness : saved_pattern "d" = Some "second" /\ saved_pattern "e" = None.
Proof.
  unfold saved_pattern.
  rewrite (proj1 (detection_saved_once some_saves store0 saved.1 saved.2 "d" saved_is eq_refl)).
  rewrite (proj1 (detection_saved_once some_saves store0 saved.1 saved.2 "e" saved_is eq_refl)).
  split; vm_compute; reflexivity.
Defined.
End examples.
